(* ===== verification/_CoqProject ===== *)
-Q . S2P
Prelude.v
PyText.v
PyVal.v
CopyFormat.v
RateLimit.v
FilterParser.v
FilterSafety.v
FilterPrivacy.v
FilterGroups.v
SqlConsole.v
HookChain.v
RequestMacros.v
ClientFilterGuard.v
WriteBarrier.v
WriteBarrierSafety.v
StorageSafety.v
FieldTypes.v
RecordResponse.v
RecordWrite.v
RecordUpdate.v
RecordDelete.v
RecordList.v
SchemaSql.v
SchemaContract.v
SchemaColumns.v
SchemaUpdate.v
MigrationRun.v
MigrationText.v
MigrationGen.v
MigrationFiles.v
MigrationSnapshot.v
AuthTokens.v
AuthFlows.v
Expand.v
Realtime.v
Steps.v
RestoreCutover.v
RestoreSafety.v
FileReferences.v
RecordStorage.v
