(* ===== verification/Prelude.v ===== *)
(** * PPBase, verified

    PPBase is a Python reimplementation of PocketBase on PostgreSQL: collections
    of records behind an HTTP API with access rules, a filter language,
    validation, file fields, extension hooks, a SQL console and online backups.
    This library models the parts below as pure functions, state-and-error
    monads and traces, and proves what makes them correct.  File names are
    relative to [src/ppbase].

    ** How the parts work together

    A request to list records is limited by [middleware/rate_limit.py]
    ([RateLimit]).  [services/rule_engine.py] and the list handler of
    [api/records.py] choose the rule, and the client's own filter and sort are
    checked by [services/client_filter_guard.py] ([ClientFilterGuard]), which
    walks the same parse trees that [services/filter_parser.py] turns into SQL
    ([FilterParser]); values of [@request] macros that need the database come
    from [services/request_macros.py] ([RequestMacros]).  [list_records] of
    [services/record_service.py] puts the two together into its statements and
    [check_record_rule] asks a rule about one record ([RecordList]); the rows
    become responses in [models/record.py] ([RecordResponse]), to which
    [services/expand_service.py] attaches the records that they name ([Expand]).
    What a write changed is told to the clients that listen by
    [services/realtime_service.py] and [api/realtime.py] ([Realtime]), under the
    same rules and with the same responses.
    A write goes through
    [services/record_service.py]: values are validated by
    [models/field_types.py] ([FieldTypes]), uploads get names that
    [core/storage_safety.py] accepts ([StorageSafety]), and files are written
    before the row and removed after it ([RecordWrite], [RecordUpdate], [RecordDelete]); with
    [services/file_storage.py], [services/record_storage_coordinator.py] makes one
    transaction of them, which asks [services/file_references.py] what the rows
    name ([FileReferences], [RecordStorage]).  Writes
    hold the shared side of [services/write_barrier.py] ([WriteBarrier]), a backup
    the exclusive side; the backup's data are COPY segments of
    [backup/copy_format.py] ([CopyFormat]), and its description of the database
    is [schema.json] of [backup/schema_contract.py] ([SchemaSql],
    [SchemaContract]); a backup that replaces the data of a running installation
    exchanges files and database by [backup/destructive.py] and
    [backup/service.py] ([RestoreCutover], [RestoreSafety]).  The tables themselves are made and changed by
    [db/schema_manager.py], and [backup/canonical.py] says what they must look
    like ([SchemaColumns], [SchemaUpdate]); changes made by files go through
    [services/migration_runner.py] ([MigrationRun]), under the advisory lock
    that [WriteBarrier] nests, and are written by
    [services/migration_generator.py]: a collection without its secrets
    ([MigrationGen]) as Python text ([MigrationText]) in a file of a directory
    that other writers share ([MigrationFiles]), or all of them in one snapshot
    ([MigrationSnapshot]).  Who a request comes from is decided by
    [api/deps.py] from a token that [services/auth_service.py] or
    [services/file_tokens.py] signed ([AuthTokens]), for a record that signed in
    through [services/record_auth_service.py] ([AuthFlows]).  The console
    [services/sql_console.py] ([SqlConsole]) and the hooks of [ext/hooks.py] and
    [ext/events.py] ([HookChain]) stand beside the records.

    ** Files

    - [Prelude]: results, the state-and-error monad [stm] with its
      postconditions [post], tactics, byte and list lemmas, sorting.
    - [PyText], [PyVal]: Python's [str] on U+0000..U+00FF and the values of
      JSON with the operations the sources use on them.
    - [CopyFormat]: segment metadata, the writer ([feed], [finish]), the
      bomb-guarded reader, export and import of a table.  Theorems: export and
      import give the rows back; an archive is read back as written; metadata
      are round-tripped and refused with one error type; decompression ends and
      stays within its limits; accepted layouts cover the data exactly.
    - [RateLimit]: the sliding-window limiter refines the specification that
      keeps every accepted request; bounds of a window; [Retry-After].
    - [FilterParser] (transformer, [parse_filter], [parse_sort]),
      [FilterSafety] (the SQL is a closed fragment for every filter; every
      placeholder is bound), [FilterPrivacy] (the SQL does not depend on the
      text of literals nor on the request's values), [FilterGroups] (grouping
      of AND and OR, quoting, sorting).
    - [SqlConsole]: splitting, classification and execution of a script as the
      commands sent to a server: what is unconfirmed is read only, what is
      confirmed happens entirely or not at all.
    - [HookChain]: the hook registry and the chain over one shared event, which
      is the nesting of its handlers.
    - [RequestMacros], [ClientFilterGuard]: macro values over one snapshot; the
      guard accepts exactly the allowed paths; two theorems state what it does
      not see.
    - [WriteBarrier] (model), [WriteBarrierSafety] (theorems): no advisory lock
      returns to the pool, the exclusive side fails closed, polling ends, the
      process fence.
    - [StorageSafety]: accepted path components, and local names that do not
      collide.
    - [FieldTypes]: what validation returns satisfies the field; the errors it
      can raise.
    - [RecordResponse], [RecordWrite], [RecordUpdate], [RecordDelete]: what a
      response reveals; rows that are stored are valid; uploads are either
      named by the row or handed to the cleanup; files that a row no longer
      names are deleted after its commit; a cascade removes exactly what is
      reachable, and never ends on a cycle.
    - [RecordList]: the relation index of a filter and its cache; the statements
      of a list and of a rule's check are closed and their placeholders bound
      whatever the client sends, and what a page holds.
    - [Expand]: the records that an [expand] parameter attaches, as shared
      objects: what may be attached to a field, and that it is all there is.  A
      column that is itself named [expand] is where the records are attached, and
      an object in it is taken for records attached before.
    - [Realtime]: topics, sessions and subscriptions, and the broadcast of a
      change: who is told, and that a session stays with one identity.
    - [SchemaSql]: the lexer and guard of the only SQL that an archive carries;
      [SchemaContract]: [schema.json], read back as written, never read unless
      well-formed, and complete when it is restored.
    - [FileReferences], [RecordStorage]: the files that rows refer to, and the
      transaction that changes rows and files together: whatever fails, no row
      loses a file (if the change writes the files that it refers to), and when
      nothing fails no file is left over.
    - [Steps]: calls that may be refused, fail after their effect, or be the
      last of the process, with triples for what they leave.
    - [RestoreCutover]: the exchange of a destructive restore as steps that can
      fail or be the last of the process, its rollback, and the recovery of
      start-up; [RestoreSafety]: it is all or nothing wherever it stops, and a
      start-up in which nothing fails ends.
    - [SchemaColumns]: the columns that the DDL of a collection creates and
      those a backup expects, equal in PostgreSQL's catalog; [SchemaUpdate]: the
      ALTER statements of an update take a table to the new schema and keep the
      data of unchanged fields.
    - [MigrationRun]: the pending files of a directory run entirely or not at
      all, in order, whatever becomes of a COMMIT's acknowledgement, and are
      undone in reverse.
    - [MigrationText]: Python's literals, read back as they are written.
      [MigrationGen]: definitions without secrets, differences, and what
      [MigrationApp] makes of them: no secret leaves the server, none of its
      own is lost, and [down] undoes [up].  [MigrationFiles]: the content of the
      files, and the writers that reserve a timestamp and link a file, as
      interleaved file operations.  [MigrationSnapshot]: views after what they
      depend on.
    - [AuthTokens]: the tokens of sessions, downloads and confirmations: who
      signs them, for how long and for what they are accepted.  [AuthFlows]:
      sign-in with a password or a one-time password, password resets and e-mail
      changes, over the rows of the database and the mails that are sent.

    ** How code is modelled

    An exception is the [Err] of a [result]; a method that changes its object,
    or code that talks to a service, is an [stm], whose state survives an
    exception.  PostgreSQL, the pool, zlib, SHA-256, the clock, Lark, Pydantic,
    PyJWT, bcrypt, drawn characters, the JSON reader, float texts, sets' iteration order and the file storage are
    classes: their operations are asked with what happened before and answer
    anything, unless a named law ([storage_names], [set_law],
    [RecordStoreLaws] and the like) is a hypothesis of the theorem; every such
    law has an instance, in the witness of its theorem.  Records and dicts are
    association lists in insertion order, ints unbounded [Z] as in Python,
    floats [spec_float] of binary64.  Concurrency appears as the sequence of
    steps of one task against an environment that may do anything between them
    ([WriteBarrier]), as a step relation that interleaves any number of writers
    ([MigrationFiles]) or the transactions of requests ([AuthFlows]), or is left out ([RecordDelete]).

    ** Fuel

    [SqlConsole]'s splitter, the reader of [CopyFormat], the polling loops of
    [WriteBarrier] and [delete_record] recurse on fuel.  The first three have
    theorems that a bound computed from the input is enough
    ([split_statements_total], [iter_uncompressed_terminates],
    [polling_terminates]); [delete_record] has enough when the fuel exceeds the
    length of the chains of references ([cascade_delete_exact]), and no fuel is
    enough on a cycle ([cascade_cycle_diverges]), which is what the code does.
    The loop over the views of a snapshot has the number of views
    ([snapshot_order]); Python's literals are read with the [weight] of the value
    ([generated_migrations_read]).

    ** Not modelled

    Text outside U+0000..U+00FF.  Of [api/records.py] everything but the list
    handler's use of rules.  Of [db/schema_manager.py] views, indexes and the
    catalog queries.  Of the migration generator the text of a
    snapshot, names without a timestamp and the temporary file of a writer.
    Of authentication the endpoints (bodies, hooks, the [authRule] check), OAuth2
    and the service of superusers.  Of realtime the hooks, the interleaving of a
    broadcast with other requests, the text of the stream and messages that share
    an object of a record's column named [expand].  Of a restore how
    the files of the backup are verified and prepared, its fence and restart, and
    a loss of power.  The backup operation leases.  Of the file storage
    thumbnails, directories, links, streams and the S3 backend.  System
    calls on directories, S3, HTTP clients, SMTP, subprocesses, start-up and
    the admin interface are I/O and stay outside. *)
From stdpp Require Export base tactics option list gmap strings.
From Stdlib Require Export ZArith Lia Sorted.
From Stdlib.Strings Require Import Byte.

(** ** Errors and effects

    A Python call that returns is [Ok], a call that raises is [Err] with the
    exception as its payload. *)
Inductive result (E A : Type) : Type :=
| Ok (a : A)
| Err (e : E).
Arguments Ok {E A} a.
Arguments Err {E A} e.

#[export] Instance result_ret {E} : MRet (result E) := fun A => @Ok E A.
#[export] Instance result_bind {E} : MBind (result E) :=
  fun A B f r => match r with Ok a => f a | Err e => Err e end.
#[export] Instance result_fmap {E} : FMap (result E) :=
  fun A B f r => match r with Ok a => Ok (f a) | Err e => Err e end.

(** A method that mutates an object: the state survives an exception, as a
    Python attribute assignment does. *)
Definition stm (S E A : Type) : Type := S -> result E A * S.

#[export] Instance stm_ret {S E} : MRet (stm S E) := fun A a s => (Ok a, s).
#[export] Instance stm_bind {S E} : MBind (stm S E) :=
  fun A B f m s =>
    match m s with
    | (Ok a, s') => f a s'
    | (Err e, s') => (Err e, s')
    end.
#[export] Instance stm_fmap {S E} : FMap (stm S E) :=
  fun A B f m s =>
    match m s with
    | (Ok a, s') => (Ok (f a), s')
    | (Err e, s') => (Err e, s')
    end.

Definition stm_get {S E} : stm S E S := fun s => (Ok s, s).
Definition stm_put {S E} (s : S) : stm S E unit := fun _ => (Ok tt, s).
Definition stm_modify {S E} (f : S -> S) : stm S E unit := fun s => (Ok tt, f s).
Definition stm_raise {S E A} (e : E) : stm S E A := fun s => (Err e, s).
Definition stm_lift {S E A} (r : result E A) : stm S E A := fun s => (r, s).

(** [if not b: raise e] *)
Definition ensure {E} (b : bool) (e : E) : result E unit :=
  if b then Ok tt else Err e.

Definition is_ok {E A} (r : result E A) : bool :=
  match r with Ok _ => true | Err _ => false end.

(** [for x in l: acc = f acc x], stopping at the first exception. *)
Fixpoint fold_result {E A B} (f : B -> A -> result E B) (l : list A) (acc : B)
  : result E B :=
  match l with
  | [] => Ok acc
  | x :: l' => match f acc x with Ok acc' => fold_result f l' acc' | Err e => Err e end
  end.

(** [[f x for x in l]] where [f] may raise. *)
Fixpoint map_result {E A B} (f : A -> result E B) (l : list A) : result E (list B) :=
  match l with
  | [] => Ok []
  | x :: l' =>
      match f x with
      | Err e => Err e
      | Ok y => match map_result f l' with Ok ys => Ok (y :: ys) | Err e => Err e end
      end
  end.

(** [for x in l: f x], a method call for its effect on the object. *)
Fixpoint stm_iter {S E A} (f : A -> stm S E unit) (l : list A) : stm S E unit :=
  match l with
  | [] => mret tt
  | x :: l' => f x ≫= fun _ => stm_iter f l'
  end.

(** ** Inversion of monadic code *)
Lemma result_bind_ok {E A B} (r : result E A) (f : A -> result E B) b :
  r ≫= f = Ok b <-> exists a, r = Ok a /\ f a = Ok b.
Proof. destruct r; cbn; naive_solver. Qed.

Lemma stm_bind_ok {S E A B} (m : stm S E A) (f : A -> stm S E B) s b s' :
  (m ≫= f) s = (Ok b, s') <-> exists a s1, m s = (Ok a, s1) /\ f a s1 = (Ok b, s').
Proof.
  unfold mbind, stm_bind. destruct (m s) as [[a|e] s1]; naive_solver.
Qed.

(** A computation does not end in [e0] when neither half does. *)
Lemma stm_bind_not_err {S E A B} (m : stm S E A) (f : A -> stm S E B) (e0 : E) s :
  (m s).1 <> Err e0 ->
  (forall a s', m s = (Ok a, s') -> (f a s').1 <> Err e0) ->
  ((m ≫= f) s).1 <> Err e0.
Proof.
  unfold mbind, stm_bind. destruct (m s) as [[a|e] s']; cbn; [eauto|congruence].
Qed.

Lemma ensure_ok {E} b (e : E) u : ensure b e = Ok u <-> b = true.
Proof. destruct b, u; cbn; naive_solver. Qed.

Lemma fold_result_app {E A B} (f : B -> A -> result E B) l1 l2 acc :
  fold_result f (l1 ++ l2) acc = fold_result f l1 acc ≫= fold_result f l2.
Proof.
  revert acc; induction l1 as [|x l1 IH]; intros acc; [done|cbn].
  destruct (f acc x); [apply IH|done].
Qed.

Lemma map_result_fmap {E A B C} (f : B -> result E C) (g : A -> B) l :
  map_result f (g <$> l) = map_result (fun x => f (g x)) l.
Proof. induction l as [|x l IH]; [done|]. rewrite fmap_cons. cbn. by rewrite IH. Qed.
Lemma map_result_ext {E A B} (f g : A -> result E B) l : (forall x, f x = g x) -> map_result f l = map_result g l.
Proof. intros Hfg. induction l as [|x l IH]; [done|]. cbn. by rewrite Hfg, IH. Qed.
Lemma map_result_ok {E A B} (f : A -> result E B) l ys :
  map_result f l = Ok ys <-> Forall2 (fun x y => f x = Ok y) l ys.
Proof.
  revert ys; induction l as [|x l IH]; intros ys; cbn.
  { split; [by intros [= <-]|by inversion 1]. }
  split.
  - destruct (f x) as [y|e] eqn:Hx; [|done].
    destruct (map_result f l) as [ys'|e]; [|done]. intros [= <-].
    constructor; [done|]. by apply IH.
  - inversion_clear 1 as [|? y ? ys' Hy Hys]. rewrite Hy.
    apply IH in Hys. by rewrite Hys.
Qed.

Lemma stm_iter_app {S E A} (f : A -> stm S E unit) l1 l2 s :
  stm_iter f (l1 ++ l2) s = (stm_iter f l1 ≫= fun _ => stm_iter f l2) s.
Proof.
  revert s; induction l1 as [|x l1 IH]; intros s; [done|cbn].
  unfold mbind, stm_bind. destruct (f x s) as [[[]|e] s1]; [apply IH|done].
Qed.

(** What a computation from [s] leaves: [Q] on a return, [X] on an exception. *)
Definition post {S E A} (m : stm S E A) (s : S) (Q : A -> S -> Prop) (X : E -> S -> Prop) : Prop :=
  match m s with (Ok a, s') => Q a s' | (Err e, s') => X e s' end.
Lemma post_bind {S E A B} (m : stm S E A) (f : A -> stm S E B) s Q X :
  post m s (fun a s' => post (f a) s' Q X) X -> post (m ≫= f) s Q X.
Proof. unfold post, mbind, stm_bind. by destruct (m s) as [[a|e] s']. Qed.
Lemma post_conseq {S E A} (m : stm S E A) s (Q Q' : A -> S -> Prop) (X X' : E -> S -> Prop) :
  post m s Q X -> (forall a s', Q a s' -> Q' a s') -> (forall e s', X e s' -> X' e s') -> post m s Q' X'.
Proof. unfold post. destruct (m s) as [[a|e] s']; eauto. Qed.
Lemma post_and {S E A} (m : stm S E A) s (Q Q' : A -> S -> Prop) (X X' : E -> S -> Prop) :
  post m s Q X -> post m s Q' X' -> post m s (fun a s' => Q a s' /\ Q' a s') (fun e s' => X e s' /\ X' e s').
Proof. unfold post. by destruct (m s) as [[a|e] s']. Qed.
Lemma post_run {S E A} (m : stm S E A) s Q X r s' :
  post m s Q X -> m s = (r, s') -> match r with Ok a => Q a s' | Err e => X e s' end.
Proof. unfold post. intros H E'. rewrite E' in H. by destruct r. Qed.

(** ** Tactics *)

(** Split every successful bind of the hypotheses into its two halves. *)
Ltac inv_ok :=
  repeat match goal with
  | H : mbind _ _ = Ok _ |- _ =>
      apply result_bind_ok in H; destruct H as (? & ? & H); cbv beta in H
  | H : mbind _ _ _ = (Ok _, _) |- _ =>
      apply stm_bind_ok in H; destruct H as (? & ? & ? & H); cbv beta in H
  | H : ensure _ _ = Ok _ |- _ => apply ensure_ok in H
  | H : mret _ = Ok _ |- _ => injection H as H
  | H : Ok _ = Ok _ |- _ => injection H as H
  | H : Err _ = Ok _ |- _ => discriminate H
  | H : Ok _ = Err _ |- _ => discriminate H
  | H : (Ok _, _) = (Ok _, _) |- _ => injection H as H
  | H : (Err _, _) = (Ok _, _) |- _ => discriminate H
  end; simplify_eq.

(** The same for one bind, with names for the intermediate value and the
    equation that produced it. *)
Tactic Notation "bind_ok" hyp(H) "as" simple_intropattern(x) simple_intropattern(Hx) :=
  apply result_bind_ok in H; destruct H as (x & Hx & H); cbv beta in H.
Tactic Notation "sbind_ok" hyp(H) "as" simple_intropattern(x) simple_intropattern(s)
    simple_intropattern(Hx) :=
  apply stm_bind_ok in H; destruct H as (x & s & Hx & H); cbv beta in H.

(** Turn the boolean comparisons of the hypotheses and the goal into
    propositions, ready for [lia]. *)
Ltac bool_to_prop :=
  repeat match goal with
  | H : (_ && _)%bool = true |- _ => apply andb_true_iff in H; destruct H
  | H : (_ || _)%bool = false |- _ => apply orb_false_iff in H; destruct H
  | H : negb _ = true |- _ => apply negb_true_iff in H
  | H : negb _ = false |- _ => apply negb_false_iff in H
  | H : (_ <? _)%Z = true |- _ => apply Z.ltb_lt in H
  | H : (_ <? _)%Z = false |- _ => apply Z.ltb_ge in H
  | H : (_ <=? _)%Z = true |- _ => apply Z.leb_le in H
  | H : (_ <=? _)%Z = false |- _ => apply Z.leb_gt in H
  | H : (_ =? _)%Z = true |- _ => apply Z.eqb_eq in H
  | H : (_ =? _)%Z = false |- _ => apply Z.eqb_neq in H
  end.

(** Case on every [if] of the goal, keeping the tests as propositions. *)
Ltac case_ifs :=
  repeat match goal with
  | |- context [if ?b then _ else _] => let E := fresh "Hif" in destruct b eqn:E
  end; bool_to_prop.

(** ** Bytes *)
Abbreviation bytes := (list Byte.byte).

(** [len(data)] as an unbounded Python int. *)
Definition zlen {A} (l : list A) : Z := Z.of_nat (length l).
(** [data[:n]] and [data[n:]] for a non-negative [n]. *)
Definition ztake {A} (n : Z) (l : list A) : list A := take (Z.to_nat n) l.
Definition zdrop {A} (n : Z) (l : list A) : list A := drop (Z.to_nat n) l.

Lemma zlen_nonneg {A} (l : list A) : (0 <= zlen l)%Z.
Proof. unfold zlen; lia. Qed.
Lemma zlen_nil {A} : zlen (@nil A) = 0%Z.
Proof. done. Qed.
Lemma zlen_cons {A} (x : A) l : zlen (x :: l) = (1 + zlen l)%Z.
Proof. unfold zlen; cbn [length]; lia. Qed.
Lemma zlen_app {A} (l1 l2 : list A) : zlen (l1 ++ l2) = (zlen l1 + zlen l2)%Z.
Proof. unfold zlen; rewrite length_app; lia. Qed.
Lemma zlen_zero {A} (l : list A) : (zlen l <= 0)%Z -> l = [].
Proof. destruct l; [done|]. rewrite zlen_cons. pose proof (zlen_nonneg l); lia. Qed.
Lemma zlen_ztake {A} n (l : list A) : (0 <= n <= zlen l)%Z -> zlen (ztake n l) = n.
Proof. unfold zlen, ztake; rewrite length_take; lia. Qed.
Lemma zlen_zdrop {A} n (l : list A) : (0 <= n <= zlen l)%Z -> zlen (zdrop n l) = (zlen l - n)%Z.
Proof. unfold zlen, zdrop; rewrite length_drop; lia. Qed.
Lemma ztake_zdrop {A} n (l : list A) : ztake n l ++ zdrop n l = l.
Proof. apply take_drop. Qed.
Lemma ztake_all {A} n (l : list A) : (zlen l <= n)%Z -> ztake n l = l.
Proof. intros; apply take_ge. unfold zlen in *; lia. Qed.
Lemma zdrop_all {A} n (l : list A) : (zlen l <= n)%Z -> zdrop n l = [].
Proof. intros; apply drop_ge. unfold zlen in *; lia. Qed.
Lemma zdrop_0 {A} (l : list A) : zdrop 0 l = l.
Proof. done. Qed.
Lemma zdrop_zdrop {A} n m (l : list A) :
  (0 <= n)%Z -> (0 <= m)%Z -> zdrop n (zdrop m l) = zdrop (m + n) l.
Proof. intros. unfold zdrop. rewrite drop_drop. f_equal; lia. Qed.
Lemma zdrop_app_le {A} n (l1 l2 : list A) :
  (0 <= n <= zlen l1)%Z -> zdrop n (l1 ++ l2) = zdrop n l1 ++ l2.
Proof. intros. unfold zdrop, zlen in *. apply drop_app_le. lia. Qed.
Lemma zdrop_app_length {A} n (l1 l2 : list A) : n = zlen l1 -> zdrop n (l1 ++ l2) = l2.
Proof. intros ->. unfold zdrop, zlen. apply drop_app_length'. lia. Qed.
Lemma ztake_app_le {A} n (l1 l2 : list A) :
  (0 <= n <= zlen l1)%Z -> ztake n (l1 ++ l2) = ztake n l1.
Proof. intros. unfold ztake, zlen in *. apply take_app_le. lia. Qed.

Create HintDb zlen.
Create Rewrite HintDb zlen_simpl.
#[export] Hint Rewrite @zlen_nil @zlen_cons @zlen_app : zlen_simpl.
#[export] Hint Resolve zlen_nonneg : zlen.

(** ** Splitting and pairing lists *)
Lemma filter_bool_perm {A} (p : A -> bool) l : filter (fun x => p x = false) l ++ filter (fun x => p x = true) l ≡ₚ l.
Proof.
  induction l as [|x l IH]; [done|]. rewrite !filter_cons. destruct (p x) eqn:Hp; repeat case_decide; try congruence; cbn.
  - by rewrite <- Permutation_middle, IH.
  - by rewrite IH.
Qed.
Lemma Forall2_elem_l {A B} (R : A -> B -> Prop) l l' x : Forall2 R l l' -> x ∈ l -> exists y, y ∈ l' /\ R x y.
Proof.
  induction 1 as [|a b l l' Hab _ IH]; [by intros ?%elem_of_nil|].
  intros [->|Hin]%elem_of_cons; [exists b; split; [left|done]|]. destruct (IH Hin) as (y & Hy & HR). exists y. split; [by right|done].
Qed.
Lemma filter_none {A} (P : A -> Prop) `{!forall x, Decision (P x)} l : Forall (fun x => ~ P x) l -> filter P l = [].
Proof. induction 1 as [|x l Hx _ IH]; [done|]. by rewrite filter_cons_False. Qed.
Lemma filter_keeps {A} (P : A -> Prop) `{!forall x, Decision (P x)} l : Forall P l -> filter P l = l.
Proof. induction 1 as [|x l Hx _ IH]; [done|]. rewrite filter_cons_True by done. by rewrite IH. Qed.
Lemma filter_past {A} `{EqDecision A} (l1 l2 : list A) : NoDup (l1 ++ l2) -> filter (fun x => x ∉ l1) (l1 ++ l2) = l2.
Proof.
  intros (_ & Hd & _)%NoDup_app. rewrite filter_app, filter_none, filter_keeps; [done| |].
  - apply Forall_forall. intros x Hx Hx1. by apply (Hd x).
  - apply Forall_forall. naive_solver.
Qed.

(** ** [sorted(l, key=...)]: stable, by a total preorder on the keys *)
Section Sorted.
Context {A : Type} (leb : A -> A -> bool).
Fixpoint insert_by (x : A) (l : list A) : list A :=
  match l with
  | [] => [x]
  | y :: l' => if leb x y then x :: l else y :: insert_by x l'
  end.
Definition py_sorted (l : list A) : list A := foldr insert_by [] l.

Lemma insert_by_perm x l : insert_by x l ≡ₚ x :: l.
Proof.
  induction l as [|y l IH]; cbn; [done|]. destruct (leb x y); [done|].
  rewrite IH. apply Permutation_swap.
Qed.
Lemma py_sorted_perm l : py_sorted l ≡ₚ l.
Proof. induction l as [|x l IH]; cbn; [done|]. by rewrite insert_by_perm, IH. Qed.

Context (leb_total : forall x y, leb x y = false -> leb y x = true)
        (leb_trans : forall x y z, leb x y = true -> leb y z = true -> leb x z = true).
Let le x y : Prop := leb x y = true.

Lemma insert_by_sorted x l : StronglySorted le l -> StronglySorted le (insert_by x l).
Proof.
  induction 1 as [|y l Hl IH Hy]; cbn; [by repeat constructor|].
  destruct (leb x y) eqn:Hxy.
  - constructor; [by constructor|]. constructor; [done|].
    eapply Forall_impl; [exact Hy|]. intros z Hz. by eapply leb_trans.
  - constructor; [done|]. rewrite insert_by_perm. constructor; [by apply leb_total|done].
Qed.
Lemma py_sorted_sorted l : StronglySorted le (py_sorted l).
Proof. induction l as [|x l IH]; cbn; [constructor|]. by apply insert_by_sorted. Qed.
End Sorted.
