(* ===== verification/PyText.v ===== *)
(** * Python text

    [str] values over the code points U+0000..U+00FF: a Rocq [ascii] is the
    Latin-1 character of its code, so the predicates below are the tables of
    Python's [str.isspace], [str.isdigit], [str.isalpha], [str.isalnum],
    [str.upper] and [str.lower] on that range, superscript digits and
    non-breaking space included.  The two lower-case letters whose capital
    lies outside the range (U+00B5 and U+00FF) are left unchanged by
    [py_upper]; every keyword the code compares with is ASCII. *)
From Stdlib Require Import Ascii String.
From Stdlib Require Import DecimalString DecimalPos DecimalZ.
From Stdlib Require OrdersEx.
From S2P Require Import Prelude.
#[local] Open Scope string_scope.

#[global] Arguments String.append !_ _ / : simpl nomatch.

(** ** Character classes *)
Definition code (c : ascii) : N := N_of_ascii c.
Definition in_range (lo hi : N) (c : ascii) : bool :=
  (lo <=? code c)%N && (code c <=? hi)%N.

(** [str.isspace] on one character; also what [str.strip()] and
    [str.split()] remove. *)
Definition is_space (c : ascii) : bool :=
  in_range 9 13 c || in_range 28 32 c || (code c =? 133)%N || (code c =? 160)%N.

(** [0-9] of a regular expression. *)
Definition is_ascii_digit (c : ascii) : bool := in_range 48 57 c.
(** [str.isdigit] on one character. *)
Definition is_digit (c : ascii) : bool :=
  is_ascii_digit c || (code c =? 178)%N || (code c =? 179)%N || (code c =? 185)%N.

Definition is_ascii_lower (c : ascii) : bool := in_range 97 122 c.
Definition is_ascii_upper (c : ascii) : bool := in_range 65 90 c.
Definition is_ascii_alpha (c : ascii) : bool := is_ascii_lower c || is_ascii_upper c.
(** [str.isalpha] on one character. *)
Definition is_alpha (c : ascii) : bool :=
  is_ascii_alpha c || (code c =? 170)%N || (code c =? 181)%N || (code c =? 186)%N
  || in_range 192 214 c || in_range 216 246 c || in_range 248 255 c.
(** [str.isalnum] on one character: a letter, a digit or a numeric such as a
    vulgar fraction. *)
Definition is_alnum (c : ascii) : bool :=
  is_alpha c || is_digit c || in_range 188 190 c.
(** [\w] of a regular expression. *)
Definition is_word (c : ascii) : bool := is_alnum c || (code c =? 95)%N.
(** [\d] of a regular expression (Unicode decimal digits). *)
Definition is_decimal (c : ascii) : bool := is_ascii_digit c.

Definition shift_code (d : Z) (c : ascii) : ascii :=
  ascii_of_N (Z.to_N (Z.of_N (code c) + d)).

(** [str.upper] and [str.lower], one character at a time. *)
Definition upper_char (c : ascii) : string :=
  if is_ascii_lower c || (in_range 224 254 c && negb (code c =? 247)%N)
  then String (shift_code (-32) c) ""
  else if (code c =? 223)%N then "SS"
  else String c "".
Definition lower_char (c : ascii) : ascii :=
  if is_ascii_upper c || (in_range 192 222 c && negb (code c =? 215)%N)
  then shift_code 32 c else c.

Fixpoint py_upper (s : string) : string :=
  match s with
  | "" => ""
  | String c s' => upper_char c ++ py_upper s'
  end.
Fixpoint py_lower (s : string) : string :=
  match s with
  | "" => ""
  | String c s' => String (lower_char c) (py_lower s')
  end.

(** ** Slicing and searching *)
Fixpoint str_forall (p : ascii -> bool) (s : string) : bool :=
  match s with
  | "" => true
  | String c s' => p c && str_forall p s'
  end.

(** [str.isdigit]: false on the empty string. *)
Definition py_isdigit (s : string) : bool :=
  match s with "" => false | _ => str_forall is_digit s end.

Fixpoint str_drop (n : nat) (s : string) : string :=
  match n, s with
  | S n', String _ s' => str_drop n' s'
  | _, _ => s
  end.
Fixpoint str_take (n : nat) (s : string) : string :=
  match n, s with
  | S n', String c s' => String c (str_take n' s')
  | _, _ => ""
  end.

Fixpoint starts_with (p s : string) : bool :=
  match p, s with
  | "", _ => true
  | String a p', String b s' => Ascii.eqb a b && starts_with p' s'
  | _, _ => false
  end.

(** [s.endswith(suffix)] *)
Definition ends_with (suffix s : string) : bool :=
  (String.length suffix <=? String.length s)%nat
  && String.eqb (str_drop (String.length s - String.length suffix) s) suffix.
(** [s.removeprefix(p)], where there is one. *)
Definition strip_prefix (p s : string) : option string :=
  if starts_with p s then Some (str_drop (String.length p) s) else None.

(** [needle in s] *)
Fixpoint contains (needle s : string) : bool :=
  starts_with needle s ||
  match s with
  | "" => false
  | String _ s' => contains needle s'
  end.
Fixpoint contains_char (c : ascii) (s : string) : bool :=
  match s with
  | "" => false
  | String a s' => Ascii.eqb a c || contains_char c s'
  end.

(** The longest prefix whose characters satisfy [p], and the rest. *)
Fixpoint span (p : ascii -> bool) (s : string) : string * string :=
  match s with
  | "" => ("", "")
  | String c s' =>
      if p c then let '(a, b) := span p s' in (String c a, b) else ("", s)
  end.

(** [str.lstrip], [str.rstrip] and [str.strip] with no argument. *)
Fixpoint py_lstrip (s : string) : string :=
  match s with
  | "" => ""
  | String c s' => if is_space c then py_lstrip s' else s
  end.
Fixpoint py_rstrip (s : string) : string :=
  match s with
  | "" => ""
  | String c s' =>
      match py_rstrip s' with
      | "" => if is_space c then "" else String c ""
      | r => String c r
      end
  end.
Definition py_strip (s : string) : string := py_lstrip (py_rstrip s).

(** [str.lstrip(chars)] *)
Fixpoint py_lstrip_chars (p : ascii -> bool) (s : string) : string :=
  match s with
  | "" => ""
  | String c s' => if p c then py_lstrip_chars p s' else s
  end.

(** [str.split(sep)] for a one-character separator: never empty. *)
Fixpoint split_on (sep : ascii) (s : string) : list string :=
  match s with
  | "" => [""]
  | String c s' =>
      if Ascii.eqb c sep then "" :: split_on sep s'
      else match split_on sep s' with
           | w :: ws => String c w :: ws
           | [] => [String c ""]
           end
  end.

(** [str.split()]: runs of whitespace separate, no empty word. *)
Fixpoint split_ws_go (cur : string) (s : string) : list string :=
  match s with
  | "" => match cur with "" => [] | _ => [cur] end
  | String c s' =>
      if is_space c
      then match cur with "" => split_ws_go "" s' | _ => cur :: split_ws_go "" s' end
      else split_ws_go (cur ++ String c "") s'
  end.
Definition split_ws (s : string) : list string := split_ws_go "" s.

(** [sep.join(parts)] *)
Fixpoint join (sep : string) (parts : list string) : string :=
  match parts with
  | [] => ""
  | [p] => p
  | p :: ps => p ++ sep ++ join sep ps
  end.

(** [str(n)] for an int. *)
Definition str_of_Z (z : Z) : string := NilZero.string_of_int (Z.to_int z).
Definition str_of_nat (n : nat) : string := NilZero.string_of_uint (Nat.to_uint n).

(** [int(s)] for a string of ASCII digits; anything else is a [ValueError]. *)
Fixpoint digits_value (acc : Z) (s : string) : option Z :=
  match s with
  | "" => Some acc
  | String c s' =>
      if is_ascii_digit c
      then digits_value (10 * acc + (Z.of_N (code c) - 48)) s'
      else None
  end.
Definition int_of_digits (s : string) : option Z :=
  match s with "" => None | _ => digits_value 0 s end.

(** The double quote and the newline, which string literals do not spell. *)
Definition dq : string := String (ascii_of_N 34) "".
Definition newline : ascii := ascii_of_N 10.

(** ** Lemmas *)
Lemma append_assoc (a b c : string) : (a ++ b) ++ c = a ++ (b ++ c).
Proof. induction a as [|x a IH]; [done|]. cbn. by f_equal. Qed.
Lemma append_nil_r (a : string) : a ++ "" = a.
Proof. induction a as [|x a IH]; [done|]. cbn. by f_equal. Qed.
Lemma append_cons c (a b : string) : String c a ++ b = String c (a ++ b).
Proof. done. Qed.
Lemma append_length (a b : string) : String.length (a ++ b) = (String.length a + String.length b)%nat.
Proof. induction a as [|x a IH]; [done|]. cbn. by f_equal. Qed.

Lemma str_forall_app p a b : str_forall p (a ++ b) = str_forall p a && str_forall p b.
Proof. induction a as [|c a IH]; [done|]. cbn. by rewrite IH, andb_assoc. Qed.
Lemma str_forall_impl (p q : ascii -> bool) s :
  (forall c, p c = true -> q c = true) -> str_forall p s = true -> str_forall q s = true.
Proof.
  intros Hpq. induction s as [|c s IH]; [done|]. cbn.
  intros [Hc Hs]%andb_true_iff. by rewrite (Hpq _ Hc), IH.
Qed.

Lemma contains_char_app c (s t : string) : contains_char c (s ++ String c t) = true.
Proof. induction s as [|x s IH]; cbn; [by rewrite Ascii.eqb_refl|]. by rewrite IH, orb_true_r. Qed.
Lemma contains_char_concat c (a b : string) : contains_char c (a ++ b) = contains_char c a || contains_char c b.
Proof. induction a as [|x a IH]; [done|]. cbn. by rewrite IH, orb_assoc. Qed.

Lemma span_app p s : fst (span p s) ++ snd (span p s) = s.
Proof.
  induction s as [|c s IH]; [done|]. cbn. destruct (p c); [|done].
  destruct (span p s) as [a b]; cbn in *. by rewrite IH.
Qed.
Lemma span_all p s : str_forall p (fst (span p s)) = true.
Proof.
  induction s as [|c s IH]; [done|]. cbn. destruct (p c) eqn:Hc; [|done].
  destruct (span p s) as [a b]; cbn in *. by rewrite Hc.
Qed.
Lemma span_exact p (s r : string) :
  str_forall p s = true -> match r with String c _ => p c = false | EmptyString => True end ->
  span p (s ++ r) = (s, r).
Proof.
  intros Hs Hr. induction s as [|c s IH].
  - destruct r as [|c r]; [done|]. cbn. by rewrite Hr.
  - cbn in Hs. apply andb_true_iff in Hs as [Hc Hs]. cbn. by rewrite Hc, IH.
Qed.
Lemma span_length p s : String.length (snd (span p s)) <= String.length s.
Proof.
  induction s as [|c s IH]; [done|]. cbn. destruct (p c); [|done].
  destruct (span p s) as [a b]; cbn in *. lia.
Qed.

Lemma starts_with_app p s : starts_with p s = true <-> exists t, s = p ++ t.
Proof.
  revert s; induction p as [|a p IH]; intros s; cbn.
  { split; [|done]. intros _. by exists s. }
  destruct s as [|b s]; [split; [done|]; by intros [t ?]|].
  rewrite andb_true_iff, Ascii.eqb_eq, IH. split.
  - intros [-> [t ->]]. by exists t.
  - intros [t Ht]. cbn in Ht. simplify_eq. eauto.
Qed.

(** Decimal numerals. *)
Lemma uint_digits u : str_forall is_ascii_digit (NilEmpty.string_of_uint u) = true.
Proof. by induction u. Qed.

Lemma uint_numeral u :
  str_forall is_ascii_digit (NilZero.string_of_uint u) = true /\ NilZero.string_of_uint u <> "".
Proof. destruct u; split; try done; apply (uint_digits (_ _)). Qed.

Lemma str_of_Z_numeral z :
  exists ds, str_forall is_ascii_digit ds = true /\ ds <> "" /\
    (str_of_Z z = ds \/ str_of_Z z = String "-" ds) /\ (0 <= z -> str_of_Z z = ds)%Z.
Proof.
  unfold str_of_Z. destruct z as [|p|p]; cbn [Z.to_int NilZero.string_of_int].
  - exists "0". by split_and!; [..|left|].
  - destruct (uint_numeral (Pos.to_uint p)). exists (NilZero.string_of_uint (Pos.to_uint p)).
    by split_and!; [..|left|].
  - destruct (uint_numeral (Pos.to_uint p)). exists (NilZero.string_of_uint (Pos.to_uint p)).
    split_and!; [done..|by right|]. intros H1. by destruct H1.
Qed.

Lemma str_of_Z_inj x y : str_of_Z x = str_of_Z y -> x = y.
Proof.
  unfold str_of_Z. intros Heq. apply (f_equal NilZero.int_of_string) in Heq.
  assert (forall z, NilZero.int_of_string (NilZero.string_of_int (Z.to_int z)) = Some (Z.to_int z)) as Hz.
  { intros [|p|p]; [done|..]; apply NilZero.isi; try done; intros [= Hn];
      by apply Unsigned.to_uint_nonnil in Hn. }
  rewrite !Hz in Heq. injection Heq as Heq. apply (f_equal Z.of_int) in Heq.
  by rewrite !DecimalZ.of_to in Heq.
Qed.

(** Blanks at the ends. *)
Lemma rstrip_idem s : py_rstrip (py_rstrip s) = py_rstrip s.
Proof.
  induction s as [|c s IH]; [done|]. cbn. destruct (py_rstrip s) as [|d r] eqn:E.
  - destruct (is_space c) eqn:Ec; [done|]. cbn. by rewrite Ec.
  - cbn [py_rstrip] in *. by rewrite IH.
Qed.
Lemma rstrip_tail c s : py_rstrip (String c s) = String c s -> py_rstrip s = s.
Proof.
  cbn. destruct (py_rstrip s) as [|d r]; [|by intros [= ->]]. destruct (is_space c); [done|]. by intros [= <-].
Qed.
Lemma rstrip_lstrip s : py_rstrip s = s -> py_rstrip (py_lstrip s) = py_lstrip s.
Proof.
  induction s as [|c s IH]; [done|]. intros H. cbn [py_lstrip]. destruct (is_space c); [|done].
  by apply IH, (rstrip_tail c).
Qed.
Lemma lstrip_idem s : py_lstrip (py_lstrip s) = py_lstrip s.
Proof. induction s as [|c s IH]; [done|]. cbn. destruct (is_space c) eqn:E; [done|]. cbn. by rewrite E. Qed.
Lemma strip_idem s : py_strip (py_strip s) = py_strip s.
Proof. unfold py_strip. rewrite rstrip_lstrip by apply rstrip_idem. apply lstrip_idem. Qed.
Lemma rstrip_length s : (String.length (py_rstrip s) <= String.length s)%nat.
Proof. induction s as [|c s IH]; [done|]. cbn. destruct (py_rstrip s); [destruct (is_space c)|]; cbn in *; lia. Qed.

(** The last character. *)
Fixpoint last_is (p : ascii -> bool) (s : string) : bool :=
  match s with "" => false | String c "" => p c | String _ s' => last_is p s' end.
Lemma last_is_cons p c s : last_is p (String c s) = match s with "" => p c | _ => last_is p s end.
Proof. by destruct s. Qed.
Lemma last_is_app p a b : last_is p (a ++ b) = match b with "" => last_is p a | _ => last_is p b end.
Proof.
  induction a as [|c a IH]; [by destruct b|]. rewrite append_cons, last_is_cons, IH, last_is_cons.
  destruct a as [|d a]; [by destruct b|]. rewrite append_cons. destruct b as [|e b]; [|done]. by rewrite append_nil_r in *.
Qed.
Lemma last_is_all p s : str_forall p s = true -> s <> "" -> last_is p s = true.
Proof.
  induction s as [|c s IH]; [done|]. cbn [str_forall]. intros [Hc Hs]%andb_true_iff _. rewrite last_is_cons.
  destruct s; [done|]. by apply IH.
Qed.
Lemma last_is_excl (p q : ascii -> bool) s : (forall c, p c = true -> q c = false) -> last_is p s = true -> last_is q s = false.
Proof. intros H. induction s as [|c s IH]; [done|]. rewrite !last_is_cons. destruct s; [apply H|done]. Qed.
Lemma rstrip_last s : py_rstrip s = s -> s <> "" -> last_is is_space s = false.
Proof.
  induction s as [|c s IH]; [done|]. intros H _. pose proof (rstrip_tail _ _ H) as Hs. rewrite last_is_cons.
  destruct s as [|d s]; [|by apply IH]. cbn in H. by destruct (is_space c).
Qed.
Lemma strip_nonempty s : py_rstrip s = s -> s <> "" -> py_strip s <> "".
Proof.
  intros Hs Hne. unfold py_strip. rewrite Hs. pose proof (rstrip_last s Hs Hne) as Hl. clear Hs.
  induction s as [|c s IH]; [done|]. rewrite last_is_cons in Hl. cbn [py_lstrip]. destruct (is_space c) eqn:E; [|done].
  destruct s as [|d s]; [cbn in Hl; congruence|]. by apply IH.
Qed.

Create Rewrite HintDb text.
#[export] Hint Rewrite append_assoc append_nil_r append_cons str_forall_app : text.

(** [s.partition(sep)]: the parts around the first [sep], all of [s] and
    nothing when there is none. *)
Fixpoint py_partition (sep s : string) : string * string :=
  if starts_with sep s then ("", str_drop (String.length sep) s) else
  match s with
  | EmptyString => ("", "")
  | String c s' => let '(a, b) := py_partition sep s' in (String c a, b)
  end.

(** ** [a <= b] by code points *)
Definition str_leb (a b : string) : bool := bool_decide (String.compare a b <> Gt).
Lemma compare_ordered a : forall b, String.compare a b = OrdersEx.String_as_OT.compare a b.
Proof. induction a as [|x a IH]; intros [|y b]; [done..|]. cbn. unfold OrdersEx.Ascii_as_OT.compare. by rewrite IH. Qed.
Lemma lt_irrefl a : ~ OrdersEx.String_as_OT.lt a a.
Proof. apply (StrictOrder_Irreflexive (R:=OrdersEx.String_as_OT.lt)). Qed.
Lemma str_leb_spec a b : str_leb a b = true <-> a = b \/ OrdersEx.String_as_OT.lt a b.
Proof.
  unfold str_leb. rewrite bool_decide_eq_true, compare_ordered.
  destruct (OrdersEx.String_as_OT.compare_spec a b) as [Heq|Hlt|Hlt].
  - split; [intros _; by left|discriminate].
  - split; [intros _; by right|discriminate].
  - split; [done|]. intros [->|Hlt']; [by apply lt_irrefl in Hlt|]. pose proof (transitivity Hlt Hlt') as H. by apply lt_irrefl in H.
Qed.
Lemma str_leb_total a b : str_leb a b = false -> str_leb b a = true.
Proof.
  intros H. apply str_leb_spec. pose proof (proj2 (str_leb_spec a b)) as Hab. rewrite H in Hab.
  destruct (OrdersEx.String_as_OT.compare_spec a b) as [->|Hlt|Hlt]; [by left| |by right]. by discriminate (Hab (or_intror Hlt)).
Qed.
Lemma str_leb_trans a b c : str_leb a b = true -> str_leb b c = true -> str_leb a c = true.
Proof. rewrite !str_leb_spec. intros [->|H1] [->|H2]; [by left|by right..|]. right. exact (transitivity H1 H2). Qed.
Lemma str_leb_antisym a b : str_leb a b = true -> str_leb b a = true -> a = b.
Proof.
  intros [H1|H1]%str_leb_spec [H2|H2]%str_leb_spec; try congruence. pose proof (transitivity (R:=OrdersEx.String_as_OT.lt) H1 H2) as H.
  by apply lt_irrefl in H.
Qed.
