(* ===== verification/PyVal.v ===== *)
(** * Python values

    The dynamically typed values that reach the code from JSON, from a
    database row or from a request: [None], booleans, unbounded integers,
    binary64 floats, text, lists and dictionaries with text keys in insertion
    order. *)
From Stdlib Require Export SpecFloat.
From Stdlib Require Import Ascii String.
From S2P Require Import Prelude PyText.
#[local] Set Warnings "-register-all".
#[local] Open Scope string_scope.
#[local] Open Scope list_scope.

Inductive pyval : Type :=
| PNone
| PBool (b : bool)
| PInt (z : Z)
| PFloat (f : spec_float)
| PStr (s : string)
| PList (l : list pyval)
| PDict (d : list (string * pyval)).

(** [d.get(key)] and [key in d]: the first entry of the key. *)
Fixpoint dict_get {A} (key : string) (d : list (string * A)) : option A :=
  match d with
  | [] => None
  | (k, v) :: d' => if String.eqb k key then Some v else dict_get key d'
  end.
Definition dict_mem {A} (key : string) (d : list (string * A)) : bool :=
  match dict_get key d with Some _ => true | None => false end.

(** [d[key] = v]: the entry keeps its place, a new key goes last. *)
Fixpoint dict_set {A} (key : string) (v : A) (d : list (string * A)) : list (string * A) :=
  match d with
  | [] => [(key, v)]
  | (k, w) :: d' => if String.eqb k key then (k, v) :: d' else (k, w) :: dict_set key v d'
  end.

(** [d.pop(key, None)] for its effect. *)
Fixpoint dict_del {A} (key : string) (d : list (string * A)) : list (string * A) :=
  match d with
  | [] => []
  | (k, w) :: d' => if String.eqb k key then d' else (k, w) :: dict_del key d'
  end.

(** [bool(v)] *)
Definition truthy (v : pyval) : bool :=
  match v with
  | PNone => false
  | PBool b => b
  | PInt z => negb (z =? 0)%Z
  | PFloat (S754_zero _) => false
  | PFloat _ => true
  | PStr s => negb (String.eqb s EmptyString)
  | PList l => match l with [] => false | _ => true end
  | PDict d => match d with [] => false | _ => true end
  end.

(** [isinstance(v, str)] and the like. *)
Definition is_str (v : pyval) : bool := match v with PStr _ => true | _ => false end.
Definition is_list (v : pyval) : bool := match v with PList _ => true | _ => false end.
Definition is_dict (v : pyval) : bool := match v with PDict _ => true | _ => false end.

(** Whether [v] can be a member of a set or a key of a dict. *)
Definition hashable (v : pyval) : bool :=
  match v with PList _ | PDict _ => false | _ => true end.

(** [int(s)] of a text: blanks around, an optional sign, decimal digits with
    single underscores between them, at most 4300 digits; [None] is the
    [ValueError]. *)
Fixpoint int_digits (prev_digit : bool) (acc : Z) (n : nat) (s : string) : option (Z * nat) :=
  match s with
  | EmptyString => if prev_digit then Some (acc, n) else None
  | String c s' =>
      if is_ascii_digit c
      then int_digits true (10 * acc + (Z.of_N (code c) - 48))%Z (S n) s'
      else if (code c =? 95)%N && prev_digit
           then match s' with EmptyString => None | _ => int_digits false acc n s' end
           else None
  end.
Definition int_max_str_digits : Z := 4300.
Definition int_of_str (s : string) : option Z :=
  let body (t : string) :=
    match int_digits false 0 0 t with
    | Some (z, n) => if (Z.of_nat n <=? int_max_str_digits)%Z then Some z else None
    | None => None
    end in
  match py_strip s with
  | EmptyString => None
  | String c t =>
      if (code c =? 45)%N then Z.opp <$> body t
      else if (code c =? 43)%N then body t
      else body (String c t)
  end.

(** [int(f)] of a float: truncation; infinities and NaN raise. *)
Definition int_of_float (f : spec_float) : option Z :=
  match f with
  | S754_zero _ => Some 0%Z
  | S754_finite sg m e =>
      let a := if (0 <=? e)%Z then (Z.pos m * 2 ^ e)%Z else (Z.pos m / 2 ^ (- e))%Z in
      Some (if sg then (- a)%Z else a)
  | _ => None
  end.

(** [int(v)]; [None] is the [TypeError], [ValueError] or [OverflowError]. *)
Definition py_int (v : pyval) : option Z :=
  match v with
  | PBool b => Some (if b then 1 else 0)%Z
  | PInt z => Some z
  | PFloat f => int_of_float f
  | PStr s => int_of_str s
  | PNone | PList _ | PDict _ => None
  end.

(** [repr(f)] of a float, the shortest text that reads back as [f]. *)
Class FloatText : Type := float_repr : spec_float -> string.

(** [repr(s)] of a text. *)
Definition repr_char (quote : ascii) (c : ascii) : string :=
  let hex (n : N) : ascii := ascii_of_N (if (n <? 10)%N then 48 + n else 87 + n) in
  if (code c =? 92)%N || Ascii.eqb c quote then String "\" (String c EmptyString)
  else if (code c =? 10)%N then "\n"
  else if (code c =? 13)%N then "\r"
  else if (code c =? 9)%N then "\t"
  else if (code c <? 32)%N || in_range 127 160 c || (code c =? 173)%N
  then ("\x" +:+ String (hex (code c / 16)%N) (String (hex (code c mod 16)%N) EmptyString))%string
  else String c EmptyString.
Fixpoint repr_chars (quote : ascii) (s : string) : string :=
  match s with
  | EmptyString => EmptyString
  | String c s' => (repr_char quote c +:+ repr_chars quote s')%string
  end.
Definition py_repr_str (s : string) : string :=
  let single := ascii_of_N 39 in
  let double := ascii_of_N 34 in
  let quote := if contains_char single s && negb (contains_char double s) then double else single in
  (String quote EmptyString +:+ repr_chars quote s +:+ String quote EmptyString)%string.

(** [repr(v)] and [str(v)]. *)
Fixpoint py_repr `{FloatText} (v : pyval) : string :=
  match v with
  | PNone => "None"
  | PBool b => if b then "True" else "False"
  | PInt z => str_of_Z z
  | PFloat f => float_repr f
  | PStr s => py_repr_str s
  | PList l => ("[" +:+ join ", " (py_repr <$> l) +:+ "]")%string
  | PDict d =>
      ("{" +:+ join ", " ((fun '(k, v) => py_repr_str k +:+ ": " +:+ py_repr v)%string <$> d)
       +:+ "}")%string
  end.
Definition py_str `{FloatText} (v : pyval) : string :=
  match v with PStr s => s | _ => py_repr v end.

#[export] Instance PStr_inj : Inj (=) (=) PStr.
Proof. by intros s1 s2 [= ->]. Qed.

(** ** Dictionary lemmas *)
Lemma dict_get_set_eq {A} k (v : A) d : dict_get k (dict_set k v d) = Some v.
Proof.
  induction d as [|[k' w] d IH]; cbn; [by rewrite String.eqb_refl|].
  destruct (String.eqb k' k) eqn:Hk; cbn; by rewrite Hk.
Qed.

Lemma dict_get_set_ne {A} k k' (v : A) d :
  k <> k' -> dict_get k' (dict_set k v d) = dict_get k' d.
Proof.
  intros Hne. induction d as [|[k1 w] d IH]; cbn.
  - by apply String.eqb_neq in Hne as ->.
  - destruct (String.eqb_spec k1 k) as [->|?]; cbn; [|by rewrite IH].
    by apply String.eqb_neq in Hne as ->.
Qed.

Lemma dict_set_keys {A} k (v : A) d :
  (dict_set k v d).*1 = if dict_mem k d then d.*1 else d.*1 ++ [k].
Proof.
  unfold dict_mem. induction d as [|[k' w] d IH]; cbn; [done|].
  destruct (String.eqb k' k); cbn; [done|]. rewrite IH.
  by destruct (dict_get k d).
Qed.

Lemma dict_get_elem {A} k (v : A) d : dict_get k d = Some v -> (k, v) ∈ d.
Proof.
  induction d as [|[k' w] d IH]; cbn; [done|].
  destruct (String.eqb_spec k' k) as [->|?]; [intros [= ->]; left|].
  intros H; right; auto.
Qed.

Lemma dict_get_none {A} k (d : list (string * A)) : dict_get k d = None <-> k ∉ d.*1.
Proof.
  induction d as [|[k' w] d IH]; cbn; [set_solver|].
  destruct (String.eqb_spec k' k) as [->|?]; [split; [done|set_solver]|].
  rewrite IH. set_solver.
Qed.

Lemma dict_set_nodup {A} k (v : A) d : NoDup d.*1 -> NoDup (dict_set k v d).*1.
Proof.
  intros Hd. rewrite dict_set_keys. unfold dict_mem.
  destruct (dict_get k d) eqn:Hk; [done|]. apply dict_get_none in Hk.
  apply NoDup_app. split_and!; [done|set_solver|apply NoDup_singleton].
Qed.

Lemma dict_get_app {A} k (d1 d2 : list (string * A)) :
  dict_get k (d1 ++ d2) = match dict_get k d1 with Some v => Some v | None => dict_get k d2 end.
Proof. induction d1 as [|[k' v] d1 IH]; cbn; [done|]. by destruct (String.eqb k' k). Qed.
Lemma dict_set_elem {A} k (v : A) d k' v' :
  (k', v') ∈ dict_set k v d -> (k' = k /\ v' = v) \/ (k', v') ∈ d.
Proof.
  induction d as [|[k2 w] d IH]; cbn; [intros [= -> ->]%list_elem_of_singleton; by left|].
  destruct (String.eqb_spec k2 k) as [->|]; intros [[= -> ->]|Hin]%elem_of_cons.
  - by left.
  - right. by right.
  - right. by left.
  - destruct (IH Hin); [by left|right; by right].
Qed.
Lemma dict_del_elem {A} k (d : list (string * A)) kv : kv ∈ dict_del k d -> kv ∈ d.
Proof.
  induction d as [|[k2 w] d IH]; cbn; [done|]. destruct (String.eqb k2 k); [by right|].
  intros [-> |Hin]%elem_of_cons; [by left|right; by apply IH].
Qed.
Lemma dict_del_sublist {A} k (d : list (string * A)) : (dict_del k d).*1 `sublist_of` d.*1.
Proof.
  induction d as [|[k2 w] d IH]; cbn; [done|]. destruct (String.eqb k2 k); by constructor.
Qed.
Lemma dict_del_nodup {A} k (d : list (string * A)) : NoDup d.*1 -> NoDup (dict_del k d).*1.
Proof. intros Hd. exact (sublist_NoDup _ _ Hd (dict_del_sublist k d)). Qed.
Lemma dict_get_del_eq {A} k (d : list (string * A)) : NoDup d.*1 -> dict_get k (dict_del k d) = None.
Proof.
  induction d as [|[k2 w] d IH]; cbn; [done|]. intros [Hk Hd]%NoDup_cons.
  destruct (String.eqb_spec k2 k) as [->|Hne].
  - by apply dict_get_none.
  - cbn. destruct (String.eqb_spec k2 k); [done|by apply IH].
Qed.
Lemma dict_get_del_ne {A} k k' (d : list (string * A)) :
  k <> k' -> dict_get k' (dict_del k d) = dict_get k' d.
Proof.
  intros Hne. induction d as [|[k2 w] d IH]; cbn; [done|].
  destruct (String.eqb_spec k2 k) as [->|].
  - by destruct (String.eqb_spec k k').
  - cbn. by rewrite IH.
Qed.
Lemma dict_get_nodup {A} k (v : A) d : NoDup d.*1 -> (k, v) ∈ d -> dict_get k d = Some v.
Proof.
  induction d as [|[k2 w] d IH]; cbn; [by intros _ ?%elem_of_nil|].
  intros [Hk Hd]%NoDup_cons [[= -> ->]|Hin]%elem_of_cons.
  - by rewrite String.eqb_refl.
  - destruct (String.eqb_spec k2 k) as [->|]; [|by apply IH].
    destruct Hk. apply list_elem_of_fmap. by exists (k, v).
Qed.
Lemma dict_mem_keys {A} k (d : list (string * A)) : dict_mem k d = true <-> k ∈ d.*1.
Proof.
  unfold dict_mem. pose proof (dict_get_none k d) as Hn. destruct (dict_get k d); split; try done.
  - intros _. destruct (decide (k ∈ d.*1)) as [|Hni]; [done|]. by apply Hn in Hni.
  - intros Hin. by apply Hn in Hin.
Qed.
Lemma dict_set_new {A} k (v : A) d : k ∉ d.*1 -> dict_set k v d = d ++ [(k, v)].
Proof.
  induction d as [|[k' w] d IH]; cbn; [done|]. intros [Hne Hni]%not_elem_of_cons.
  destruct (String.eqb_spec k' k) as [->|]; [done|]. by rewrite IH.
Qed.

(** ** [json.dumps(v)] with the default separators and ASCII output *)
Definition hex_digit (n : N) : ascii := ascii_of_N (if (n <? 10)%N then 48 + n else 87 + n).
Definition json_char (c : ascii) : string :=
  let n := code c in
  let esc (k : N) := String (ascii_of_N 92) (String (ascii_of_N k) "") in
  if (n =? 34)%N then esc 34%N
  else if (n =? 92)%N then esc 92%N
  else if (n =? 10)%N then esc 110%N
  else if (n =? 13)%N then esc 114%N
  else if (n =? 9)%N then esc 116%N
  else if (n =? 12)%N then esc 102%N
  else if (n =? 8)%N then esc 98%N
  else if (32 <=? n)%N && (n <=? 126)%N then String c ""
  else String (ascii_of_N 92) (String (ascii_of_N 117) ("00" +:+
         String (hex_digit (n / 16)) (String (hex_digit (n mod 16)) ""))).
Fixpoint json_chars (s : string) : string :=
  match s with EmptyString => "" | String c s' => json_char c +:+ json_chars s' end.
Definition json_str (s : string) : string := dq +:+ json_chars s +:+ dq.
Definition json_float `{FloatText} (f : spec_float) : string :=
  match f with
  | S754_infinity false => "Infinity"
  | S754_infinity true => "-Infinity"
  | S754_nan => "NaN"
  | _ => float_repr f
  end.
Fixpoint json_dumps `{FloatText} (v : pyval) : string :=
  match v with
  | PNone => "null"
  | PBool b => if b then "true" else "false"
  | PInt z => str_of_Z z
  | PFloat f => json_float f
  | PStr s => json_str s
  | PList l => "[" +:+ join ", " (json_dumps <$> l) +:+ "]"
  | PDict d => "{" +:+ join ", " ((fun kv => json_str kv.1 +:+ ": " +:+ json_dumps kv.2) <$> d) +:+ "}"
  end.

(** ** Equality of values *)
(** [f == int(f)] of a finite float *)
Definition is_whole (f : spec_float) : bool :=
  match f with
  | S754_zero _ => true
  | S754_finite _ m e => (0 <=? e)%Z || (Z.pos m mod 2 ^ (- e) =? 0)%Z
  | _ => false
  end.
(** [a == b] for an int and a float, exactly. *)
Definition int_eq_float (z : Z) (f : spec_float) : bool :=
  is_whole f && match int_of_float f with Some n => (n =? z)%Z | None => false end.
Definition as_int (v : pyval) : option Z :=
  match v with PBool b => Some (if b then 1 else 0)%Z | PInt z => Some z | _ => None end.
Fixpoint py_eqb (a b : pyval) {struct a} : bool :=
  match a, b with
  | PNone, PNone => true
  | PStr s, PStr t => String.eqb s t
  | PFloat f, PFloat g => SFeqb f g
  | PFloat f, _ => match as_int b with Some z => int_eq_float z f | None => false end
  | _, PFloat g => match as_int a with Some z => int_eq_float z g | None => false end
  | PList l, PList m =>
      (fix go (l m : list pyval) : bool :=
         match l, m with
         | [], [] => true
         | x :: l', y :: m' => py_eqb x y && go l' m'
         | _, _ => false
         end) l m
  | PDict d, PDict e =>
      (Nat.eqb (length d) (length e)) &&
      (fix go (d : list (string * pyval)) : bool :=
         match d with
         | [] => true
         | (k, x) :: d' => match dict_get k e with Some y => py_eqb x y | None => false end && go d'
         end) d
  | (PBool _ | PInt _), (PBool _ | PInt _) =>
      match as_int a, as_int b with Some x, Some y => (x =? y)%Z | _, _ => false end
  | _, _ => false
  end.
Lemma int_eq_float_zero z f : int_eq_float z f = true -> truthy (PFloat f) = negb (z =? 0)%Z.
Proof.
  unfold int_eq_float. destruct f as [sg|sg| |sg m e]; cbn [is_whole int_of_float truthy andb]; [by intros <-%Z.eqb_eq|done..|].
  intros [Hw Hz%Z.eqb_eq]%andb_true_iff. subst z. symmetry. apply negb_true_iff, Z.eqb_neq.
  assert (Ha : (if (0 <=? e)%Z then Z.pos m * 2 ^ e else Z.pos m / 2 ^ - e)%Z <> 0%Z); [|by destruct sg; lia].
  destruct (0 <=? e)%Z eqn:He; cbn [orb] in Hw.
  - apply Z.leb_le in He. pose proof (Z.pow_pos_nonneg 2 e). nia.
  - apply Z.eqb_eq in Hw. apply Z.leb_gt in He. pose proof (Z.pow_pos_nonneg 2 (- e)).
    pose proof (Z.div_mod (Z.pos m) (2 ^ - e) ltac:(lia)). nia.
Qed.
Lemma SFeqb_zero f g : SFeqb f g = true -> truthy (PFloat f) = truthy (PFloat g).
Proof. unfold SFeqb. destruct f as [| | |[] ], g as [| | |[] ]; cbn; try done; by repeat case_match. Qed.
(** Equal values are equally true. *)
Lemma py_eqb_truthy a b : py_eqb a b = true -> truthy a = truthy b.
Proof.
  destruct a as [|x|x|f|s|l|d], b as [|y|y|g|t|m|e]; try done.
  - cbn. by destruct x, y.
  - cbn [py_eqb as_int truthy]. intros <-%Z.eqb_eq. by destruct x.
  - intros H%int_eq_float_zero. rewrite H. by destruct x.
  - cbn [py_eqb as_int truthy]. intros ->%Z.eqb_eq. by destruct y.
  - cbn [py_eqb as_int truthy]. by intros ->%Z.eqb_eq.
  - intros H%int_eq_float_zero. by rewrite H.
  - intros H%int_eq_float_zero. rewrite H. by destruct y.
  - intros H%int_eq_float_zero. by rewrite H.
  - apply SFeqb_zero.
  - cbn. by intros ->%String.eqb_eq.
  - by destruct l, m.
  - cbn. intros [H%Nat.eqb_eq _]%andb_true_iff. by destruct d, e.
Qed.
