(* ===== verification/CopyFormat.v ===== *)
(** * The COPY segment container (ppbase/backup/copy_format.py)

    One backup stores every exported table as an independently compressed
    segment of [data.copy].  Modelled here: the validated segment metadata
    and its dictionary form, the layout check, the streaming writer over a
    sink that may accept fewer bytes than offered, the bomb-guarded reader,
    and the export and import of one table over a database connection.

    zlib, SHA-256, the output sink and the PostgreSQL connection are
    parameters: classes of operations, with the laws the theorems use in
    classes of their own. *)
From Stdlib Require Import Ascii String.
From Stdlib.Strings Require Import Byte.
From S2P Require Import Prelude PyText PyVal.
#[local] Open Scope string_scope.
#[local] Open Scope list_scope.
#[local] Open Scope Z_scope.

(** ** Errors *)

(** The [CopyFormatError]s the module raises, one constructor per message,
    and the two exceptions of other classes its code can let through. *)
Inductive copy_error : Type :=
| BadIdentifier (label : string)
| IdentifierTooLong (label : string)
| NotNonNegativeInt (label : string)
| BadSha256 (label : string)
| NoColumns
| DuplicateColumn (name : string)
| UnsupportedCompression
| SegmentFields
| ColumnsNotArray
| NotContiguous (table : string)
| LengthOverflow
| PastEnd (table : string)
| EmptyClaimsData (table : string)
| RatioCap (table : string)
| DecompressedBudget
| NotCovered
| SinkAcceptedNothing
| WriterClosed
| SegmentAlreadyOpen
| SegmentFinished
| PastPinnedSize
| EndedInsideSegment
| InflatesPastSize
| NotZlib
| SizeMismatch
| TrailingCompressed
| UnusedBytes
| CompressedHashMismatch
| RawHashMismatch
| StatusNotString
| UnexpectedStatus
| EmptyColumnList
| RowCountMismatch
| Unhashable        (* TypeError *)
| BadIntLiteral     (* ValueError of int() *)
| DriverError       (* whatever the database driver raises *)
| OutOfFuel.        (* not an exception: the model's bound was too small *)

(** ** Constants and field validation *)
Definition COMPRESSION_ZLIB : string := "zlib".
Definition _CHUNK_SIZE : Z := Z.shiftl 1 20.
Definition _ZLIB_LEVEL : Z := 6.
Definition _DEFAULT_MAX_RATIO : Z := 200.
Definition _DEFAULT_MAX_TOTAL : Z := 64 * Z.shiftl 1 30.
Definition _IDENTIFIER_MAX_BYTES : Z := 63.

Definition slen (s : string) : Z := Z.of_nat (String.length s).

(** The pattern [^[0-9a-f]{64}$] of a full match. *)
Definition sha256_pattern (s : string) : bool :=
  (slen s =? 64) && str_forall (fun c => is_ascii_digit c || in_range 97 102 c) s.

(** The pattern [^[a-zA-Z_][a-zA-Z0-9_]*$] of a full match. *)
Definition identifier_pattern (s : string) : bool :=
  match s with
  | EmptyString => false
  | String c s' =>
      (is_ascii_alpha c || (code c =? 95)%N)
      && str_forall (fun c => is_ascii_alpha c || is_ascii_digit c || (code c =? 95)%N) s'
  end.

Definition _validate_identifier (value : pyval) (label : string) : result copy_error string :=
  match value with
  | PStr s =>
      _ ← ensure (identifier_pattern s) (BadIdentifier label);
      _ ← ensure (slen s <=? _IDENTIFIER_MAX_BYTES) (IdentifierTooLong label);
      Ok s
  | _ => Err (BadIdentifier label)
  end.

Definition _validate_non_negative_int (value : pyval) (label : string) : result copy_error Z :=
  match value with
  | PInt z => if z <? 0 then Err (NotNonNegativeInt label) else Ok z
  | _ => Err (NotNonNegativeInt label)
  end.

Definition _validate_sha256 (value : pyval) (label : string) : result copy_error string :=
  match value with
  | PStr s => _ ← ensure (sha256_pattern s) (BadSha256 label); Ok s
  | _ => Err (BadSha256 label)
  end.

(** ** Segment metadata *)
Record CopySegment : Type := mkSegment {
  table : string;
  columns : list string;
  offset : Z;
  compressed_size : Z;
  compressed_sha256 : string;
  uncompressed_size : Z;
  uncompressed_sha256 : string;
  row_count : Z;
  compression : string;
}.

(** The loop over the columns: each an identifier, none seen before. *)
Fixpoint validate_columns (seen : list string) (cols : list pyval) : result copy_error (list string) :=
  match cols with
  | [] => Ok []
  | c :: cols' =>
      name ← _validate_identifier c "segment column";
      if bool_decide (name ∈ seen) then Err (DuplicateColumn name)
      else rest ← validate_columns (name :: seen) cols'; Ok (name :: rest)
  end.

(** [CopySegment(...)]: the dataclass constructor with [__post_init__]'s
    checks, in their order. *)
Definition CopySegment_init (table : pyval) (columns : list pyval)
    (offset compressed_size compressed_sha256 uncompressed_size
     uncompressed_sha256 row_count compression : pyval) : result copy_error CopySegment :=
  t ← _validate_identifier table "segment table";
  _ ← ensure (negb (bool_decide (columns = []))) NoColumns;
  cols ← validate_columns [] columns;
  off ← _validate_non_negative_int offset "segment offset";
  csz ← _validate_non_negative_int compressed_size "compressed_size";
  usz ← _validate_non_negative_int uncompressed_size "uncompressed_size";
  rc ← _validate_non_negative_int row_count "row_count";
  csh ← _validate_sha256 compressed_sha256 "compressed_sha256";
  ush ← _validate_sha256 uncompressed_sha256 "uncompressed_sha256";
  if negb (hashable compression) then Err Unhashable else
  match compression with
  | PStr cn => if String.eqb cn COMPRESSION_ZLIB
               then Ok (mkSegment t cols off csz csh usz ush rc cn)
               else Err UnsupportedCompression
  | _ => Err UnsupportedCompression
  end.

Definition end_offset (seg : CopySegment) : Z := offset seg + compressed_size seg.

Definition to_dict (seg : CopySegment) : list (string * pyval) :=
  [("table", PStr (table seg));
   ("columns", PList (PStr <$> columns seg));
   ("offset", PInt (offset seg));
   ("compressed_size", PInt (compressed_size seg));
   ("compressed_sha256", PStr (compressed_sha256 seg));
   ("uncompressed_size", PInt (uncompressed_size seg));
   ("uncompressed_sha256", PStr (uncompressed_sha256 seg));
   ("row_count", PInt (row_count seg));
   ("compression", PStr (compression seg))].

Definition expected_fields : list string :=
  ["table"; "columns"; "offset"; "compressed_size"; "compressed_sha256";
   "uncompressed_size"; "uncompressed_sha256"; "row_count"; "compression"].

(** [value[key]] once the key set has been checked. *)
Definition field (d : list (string * pyval)) (key : string) : pyval :=
  default PNone (dict_get key d).

Definition from_dict (value : pyval) : result copy_error CopySegment :=
  match value with
  | PDict d =>
      if negb (bool_decide (list_to_set (d.*1) =@{gset string} list_to_set expected_fields))
      then Err SegmentFields else
      match field d "columns" with
      | PList cols =>
          CopySegment_init (field d "table") cols (field d "offset")
            (field d "compressed_size") (field d "compressed_sha256")
            (field d "uncompressed_size") (field d "uncompressed_sha256")
            (field d "row_count") (field d "compression")
      | _ => Err ColumnsNotArray
      end
  | _ => Err SegmentFields
  end.

(** ** Layout *)
Definition _check_ratio (segment : CopySegment) (max_ratio : Z) : result copy_error unit :=
  if compressed_size segment =? 0 then
    if negb (uncompressed_size segment =? 0) then Err (EmptyClaimsData (table segment)) else Ok tt
  else if compressed_size segment * max_ratio <? uncompressed_size segment
  then Err (RatioCap (table segment)) else Ok tt.

(** One turn of the loop: [cursor] and [total_uncompressed] after [segment]. *)
Definition layout_step (total_size max_total max_ratio : Z) (acc : Z * Z) (segment : CopySegment)
  : result copy_error (Z * Z) :=
  let '(cursor, total_uncompressed) := acc in
  _ ← ensure (offset segment =? cursor) (NotContiguous (table segment));
  let en := end_offset segment in
  _ ← ensure (offset segment <=? en) LengthOverflow;
  _ ← ensure (en <=? total_size) (PastEnd (table segment));
  _ ← _check_ratio segment max_ratio;
  let total_uncompressed := total_uncompressed + uncompressed_size segment in
  _ ← ensure (total_uncompressed <=? max_total) DecompressedBudget;
  Ok (en, total_uncompressed).

Definition validate_segment_layout (segments : list CopySegment)
    (total_size max_total_uncompressed max_ratio : Z) : result copy_error (list CopySegment) :=
  acc ← fold_result (layout_step total_size max_total_uncompressed max_ratio) segments (0, 0);
  _ ← ensure (fst acc =? total_size) NotCovered;
  Ok segments.

(** ** Interfaces of the code outside the repository *)

(** Python's [zlib] module.  [compressobj level] and [decompressobj] are
    fresh stream objects; [decompress d data max_length] raises [zlib.error]
    as [None]; the attributes of the decompressor are functions of its state. *)
Class Zlib : Type := {
  cstate : Type;
  dstate : Type;
  compressobj : Z -> cstate;
  compress : cstate -> bytes -> cstate * bytes;
  cflush : cstate -> bytes;
  decompressobj : dstate;
  decompress : dstate -> bytes -> Z -> option (dstate * bytes);
  unconsumed_tail : dstate -> bytes;
  dflush : dstate -> option (dstate * bytes);
  eof : dstate -> bool;
  unused_data : dstate -> bytes;
}.

(** [hashlib.sha256(b).hexdigest()].  Successive [update] calls hash the
    concatenation of their arguments, so a hash object is its input so far. *)
Class Sha256 : Type := sha256_hex : bytes -> string.

(** A binary sink: [write data] returns the number of bytes taken, or
    [None] for the sinks that take everything and return nothing. *)
Class Sink : Type := {
  sink : Type;
  sink_write : sink -> bytes -> option Z * sink;
}.

(** ** Writing segments *)
Section Writer.
Context `{ZL : Zlib} `{SH : Sha256} `{SK : Sink}.

Record OpenSegment : Type := mkOpen {
  o_table : string;
  o_columns : list string;
  o_offset : Z;
  o_compressor : cstate;
  o_raw_hash : bytes;     (* what the raw hash object has consumed *)
  o_comp_hash : bytes;
  o_uncompressed_size : Z;
  o_compressed_size : Z;
  o_done : bool;
}.

(** A [SegmentWriter] and the segment streamed into it, if one is open. *)
Record SegmentWriter : Type := mkWriter {
  w_sink : sink;
  w_written : Z;
  w_closed : bool;
  w_open : option OpenSegment;
}.

Definition new_writer (sk : sink) : SegmentWriter := mkWriter sk 0 false None.

Definition wm (A : Type) : Type := stm SegmentWriter copy_error A.

(** [_emit]'s loop: write [view[offset:]] until every byte landed. *)
Fixpoint emit_loop (fuel : nat) (view : bytes) (off : Z) : wm unit := fun w =>
  if off <? zlen view then
    match fuel with
    | O => (Err OutOfFuel, w)
    | S fuel' =>
        let '(written, sk) := sink_write (w_sink w) (zdrop off view) in
        let w' := mkWriter sk (w_written w) (w_closed w) (w_open w) in
        match written with
        | None => (Ok tt, w')
        | Some k => if k =? 0 then (Err SinkAcceptedNothing, w')
                    else emit_loop fuel' view (off + k) w'
        end
    end
  else (Ok tt, w).

Definition _emit (data : bytes) : wm unit :=
  match data with
  | [] => mret tt
  | _ =>
      _ ← emit_loop (length data) data 0;
      stm_modify (fun w => mkWriter (w_sink w) (w_written w + zlen data) (w_closed w) (w_open w))
  end.

Definition set_open (o : option OpenSegment) : wm unit :=
  stm_modify (fun w => mkWriter (w_sink w) (w_written w) (w_closed w) o).

Definition begin_segment (table : string) (columns : list string) : wm unit := fun w =>
  if w_closed w then (Err WriterClosed, w) else
  match w_open w with
  | Some _ => (Err SegmentAlreadyOpen, w)
  | None =>
      match _validate_identifier (PStr table) "segment table" with
      | Err e => (Err e, w)
      | Ok _ =>
          set_open (Some (mkOpen table columns (w_written w) (compressobj _ZLIB_LEVEL)
                            [] [] 0 0 false)) w
      end
  end.

(** [_OpenSegment.feed] and [finish], on the open segment of the writer. *)
Definition feed (data : bytes) : wm unit := fun w =>
  match w_open w with
  | None => (Err SegmentFinished, w)
  | Some o =>
      if o_done o then (Err SegmentFinished, w) else
      match data with
      | [] => (Ok tt, w)
      | _ =>
          let '(c, compressed) := compress (o_compressor o) data in
          let o1 := mkOpen (o_table o) (o_columns o) (o_offset o) c
                      (o_raw_hash o ++ data) (o_comp_hash o ++ compressed)
                      (o_uncompressed_size o + zlen data)
                      (o_compressed_size o + zlen compressed) false in
          (set_open (Some o1) ≫= fun _ => _emit compressed) w
      end
  end.

Definition finish (row_count : Z) : wm CopySegment := fun w =>
  match w_open w with
  | None => (Err SegmentFinished, w)
  | Some o =>
      if o_done o then (Err SegmentFinished, w) else
      let tail := cflush (o_compressor o) in
      let comp_hash := o_comp_hash o ++ tail in
      let csize := o_compressed_size o + zlen tail in
      let o1 := mkOpen (o_table o) (o_columns o) (o_offset o) (o_compressor o)
                  (o_raw_hash o) comp_hash (o_uncompressed_size o) csize true in
      (_ ← set_open (Some o1);
       _ ← _emit tail;
       _ ← set_open None;
       stm_lift (CopySegment_init (PStr (o_table o)) (PStr <$> o_columns o)
                   (PInt (o_offset o)) (PInt csize) (PStr (sha256_hex comp_hash))
                   (PInt (o_uncompressed_size o)) (PStr (sha256_hex (o_raw_hash o)))
                   (PInt row_count) (PStr COMPRESSION_ZLIB))) w
  end.

Definition write_segment (table : string) (columns : list string)
    (chunks : list bytes) (row_count : Z) : wm CopySegment :=
  _ ← begin_segment table columns;
  _ ← stm_iter feed chunks;
  finish row_count.
End Writer.

(** ** Reading segments *)
Section Reader.
Context `{ZL : Zlib} `{SH : Sha256}.

(** The state of [iter_uncompressed]'s locals. *)
Record ReadState : Type := mkRead {
  r_decompressor : dstate;
  r_comp_hash : bytes;
  r_raw_hash : bytes;
  r_produced : Z;
  r_yielded : list bytes;   (* what the caller received, oldest first *)
}.

Definition rm (A : Type) : Type := stm ReadState copy_error A.

Definition yield_chunk (plain : bytes) : rm unit :=
  match plain with
  | [] => mret tt
  | _ => stm_modify (fun r => mkRead (r_decompressor r) (r_comp_hash r)
                                (r_raw_hash r ++ plain) (r_produced r) (r_yielded r ++ [plain]))
  end.

(** [while pending is not None]: decompress within the budget, yield, and
    go on with the unconsumed tail. *)
Fixpoint drain (fuel : nat) (usize : Z) (pending : bytes) : rm unit := fun r =>
  match fuel with
  | O => (Err OutOfFuel, r)
  | S fuel' =>
      let budget := usize - r_produced r + 1 in
      match decompress (r_decompressor r) pending budget with
      | None => (Err NotZlib, r)
      | Some (d, plain) =>
          let r1 := mkRead d (r_comp_hash r) (r_raw_hash r) (r_produced r + zlen plain)
                      (r_yielded r) in
          if usize <? r_produced r1 then (Err InflatesPastSize, r1) else
          (_ ← yield_chunk plain;
           match unconsumed_tail d with
           | [] => mret tt
           | t => drain fuel' usize t
           end) r1
      end
  end.

(** [while remaining_compressed > 0] over a file whose bytes from the
    current position on are [rest]. *)
Fixpoint read_loop (fuel inner : nat) (usize : Z) (rest : bytes) (remaining : Z) : rm unit :=
  if 0 <? remaining then
    match fuel with
    | O => stm_raise OutOfFuel
    | S fuel' =>
        let want := Z.min _CHUNK_SIZE remaining in
        let compressed_chunk := ztake want rest in
        if negb (zlen compressed_chunk =? want) then stm_raise EndedInsideSegment else
        (_ ← stm_modify (fun r => mkRead (r_decompressor r) (r_comp_hash r ++ compressed_chunk)
                                   (r_raw_hash r) (r_produced r) (r_yielded r));
         _ ← drain inner usize compressed_chunk;
         read_loop fuel' inner usize (zdrop want rest) (remaining - want))
    end
  else mret tt.

(** The checks after the stream: sizes, end of stream, both hashes. *)
Definition read_tail (segment : CopySegment) : rm unit := fun r =>
  match dflush (r_decompressor r) with
  | None => (Err NotZlib, r)
  | Some (d, tail) =>
      let r1 := mkRead d (r_comp_hash r) (r_raw_hash r) (r_produced r + zlen tail)
                  (r_yielded r) in
      if negb (r_produced r1 =? uncompressed_size segment) then (Err SizeMismatch, r1) else
      (_ ← yield_chunk tail;
       r2 ← stm_get;
       if negb (eof d) then stm_raise TrailingCompressed
       else if negb (bool_decide (unused_data d = [])) then stm_raise UnusedBytes
       else if negb (String.eqb (sha256_hex (r_comp_hash r2)) (compressed_sha256 segment))
       then stm_raise CompressedHashMismatch
       else if negb (String.eqb (sha256_hex (r_raw_hash r2)) (uncompressed_sha256 segment))
       then stm_raise RawHashMismatch
       else mret tt) r1
  end.

(** [SegmentReader(file, total_size, max_ratio).iter_uncompressed(segment)]:
    the chunks yielded and how the iteration ended.  The fuel bounds the
    two loops: one turn per compressed byte, one per plain byte. *)
Definition iter_uncompressed (file : bytes) (total_size max_ratio : Z) (segment : CopySegment)
  : result copy_error unit * list bytes :=
  let body : rm unit :=
    _ ← stm_lift (ensure (0 <=? total_size) (NotNonNegativeInt "total_size"));
    _ ← stm_lift (ensure (end_offset segment <=? total_size) PastPinnedSize);
    _ ← stm_lift (_check_ratio segment max_ratio);
    _ ← stm_lift (ensure (String.eqb (compression segment) COMPRESSION_ZLIB) UnsupportedCompression);
    _ ← read_loop (Z.to_nat (compressed_size segment)) (Z.to_nat (uncompressed_size segment) + 2)
          (uncompressed_size segment) (zdrop (offset segment) file) (compressed_size segment);
    read_tail segment in
  let '(res, r) := body (mkRead decompressobj [] [] 0 []) in
  (res, r_yielded r).
End Reader.

(** ** COPY export and import *)

(** An asyncpg connection inside its transaction.  [copy_from_query q] gives
    the chunks the driver hands to the output callback and the command tag;
    [copy_to_table] consumes a finished source; [copy_fail] is the connection
    after a source that raised, whose rows PostgreSQL discards. *)
Class PgCopy : Type := {
  pgconn : Type;
  copy_from_query : pgconn -> string -> list bytes * result copy_error pyval;
  copy_to_table : pgconn -> string -> string -> list string -> list bytes
                  -> result copy_error pyval * pgconn;
  copy_fail : pgconn -> pgconn;
}.

Definition parse_copy_row_count (status : pyval) : result copy_error Z :=
  match status with
  | PStr s =>
      match split_ws s with
      | [tag; n] =>
          if String.eqb tag "COPY" && py_isdigit n then
            match int_of_digits n with Some z => Ok z | None => Err BadIntLiteral end
          else Err UnexpectedStatus
      | _ => Err UnexpectedStatus
      end
  | _ => Err StatusNotString
  end.

Section Transfer.
Context `{ZL : Zlib} `{SH : Sha256} `{SK : Sink} `{PG : PgCopy}.

Definition quoted (s : string) : string := (dq +:+ s +:+ dq)%string.

Definition export_query (schema table : string) (columns : list string) : string :=
  ("SELECT " +:+ join ", " (quoted <$> columns) +:+ " FROM "
   +:+ quoted schema +:+ "." +:+ quoted table)%string.

Definition export_table_segment (conn : pgconn) (schema table : string) (columns : list string)
  : wm CopySegment :=
  _ ← stm_lift (_validate_identifier (PStr schema) "schema");
  _ ← stm_lift (_validate_identifier (PStr table) "table");
  _ ← stm_lift (ensure (negb (bool_decide (columns = []))) EmptyColumnList);
  cols ← stm_lift (map_result (fun c => _validate_identifier (PStr c) "column") columns);
  _ ← begin_segment table columns;
  let '(chunks, status) := copy_from_query conn (export_query schema table cols) in
  _ ← stm_iter feed chunks;
  tag ← stm_lift status;
  rows ← stm_lift (parse_copy_row_count tag);
  finish rows.

Definition import_table_segment (conn : pgconn) (file : bytes) (total_size max_ratio : Z)
    (segment : CopySegment) (schema : string) : result copy_error unit * pgconn :=
  match _validate_identifier (PStr schema) "schema" with
  | Err e => (Err e, conn)
  | Ok _ =>
      match iter_uncompressed file total_size max_ratio segment with
      | (Err e, _) => (Err e, copy_fail conn)
      | (Ok _, chunks) =>
          let '(status, conn') :=
            copy_to_table conn schema (table segment) (columns segment) chunks in
          ((tag ← status;
            imported ← parse_copy_row_count tag;
            if negb (imported =? row_count segment) then Err RowCountMismatch else Ok tt), conn')
      end
  end.
End Transfer.

(** * Properties *)

(** ** Validated metadata *)

(** What [__post_init__] guarantees of every segment object. *)
Record segment_wf (seg : CopySegment) : Prop := {
  wf_table : _validate_identifier (PStr (table seg)) "segment table" = Ok (table seg);
  wf_columns : columns seg <> [];
  wf_distinct : NoDup (columns seg);
  wf_names : Forall (fun c => _validate_identifier (PStr c) "segment column" = Ok c) (columns seg);
  wf_offset : 0 <= offset seg;
  wf_csize : 0 <= compressed_size seg;
  wf_usize : 0 <= uncompressed_size seg;
  wf_rows : 0 <= row_count seg;
  wf_csha : sha256_pattern (compressed_sha256 seg) = true;
  wf_usha : sha256_pattern (uncompressed_sha256 seg) = true;
  wf_compression : compression seg = COMPRESSION_ZLIB;
}.

Lemma validate_identifier_ok v l s :
  _validate_identifier v l = Ok s <->
  v = PStr s /\ identifier_pattern s = true /\ slen s <= _IDENTIFIER_MAX_BYTES.
Proof.
  destruct v as [| | | |s'| |]; try (split; [done|by intros [? _]]).
  unfold _validate_identifier. split.
  - intros H. inv_ok. by bool_to_prop.
  - intros ([= ->] & -> & Hlen%Z.leb_le). cbn. by rewrite Hlen.
Qed.

Lemma validate_identifier_label v l l' s :
  _validate_identifier v l = Ok s -> _validate_identifier v l' = Ok s.
Proof. by rewrite !validate_identifier_ok. Qed.

Lemma validate_non_negative_ok v l z :
  _validate_non_negative_int v l = Ok z <-> v = PInt z /\ 0 <= z.
Proof.
  destruct v as [| |z'| | | |]; cbn; try (split; [done|by intros [? _]]).
  destruct (z' <? 0) eqn:E; bool_to_prop; split; intros H.
  - done.
  - destruct H as [[= <-] ?]; lia.
  - by injection H as <-.
  - by destruct H as [[= <-] ?].
Qed.

Lemma validate_sha256_ok v l s :
  _validate_sha256 v l = Ok s <-> v = PStr s /\ sha256_pattern s = true.
Proof.
  destruct v as [| | | |s'| |]; cbn; try (split; [done|by intros [? _]]).
  destruct (sha256_pattern s') eqn:E; cbn; intuition congruence.
Qed.

#[local] Arguments _validate_identifier : simpl never.
#[local] Arguments _validate_non_negative_int : simpl never.
#[local] Arguments _validate_sha256 : simpl never.
#[local] Arguments layout_step : simpl never.
#[local] Arguments _check_ratio : simpl never.

Lemma validate_columns_ok seen cols names :
  validate_columns seen cols = Ok names <->
  cols = PStr <$> names /\ NoDup names /\ Forall (.∉ seen) names /\
  Forall (fun c => _validate_identifier (PStr c) "segment column" = Ok c) names.
Proof.
  revert seen names; induction cols as [|c cols IH]; intros seen names; cbn [validate_columns].
  { split.
    - intros [= <-]. split_and!; [done|constructor..].
    - intros (Hn & _). by destruct names. }
  split.
  - intros H. bind_ok H as name Hname. case_bool_decide as Hseen; [done|].
    bind_ok H as rest Hrest. injection H as <-.
    apply IH in Hrest as (-> & Hnd & Hns & Hid).
    pose proof (proj1 (validate_identifier_ok _ _ _) Hname) as (-> & _).
    split_and!; [done| | |by constructor].
    + constructor; [|done]. rewrite Forall_forall in Hns. intros Hin.
      apply (Hns _ Hin). by left.
    + constructor; [done|]. eapply Forall_impl; [exact Hns|]. set_solver.
  - intros (Hc & Hnd & Hseen & Hid). destruct names as [|n names]; [done|].
    cbn in Hc. injection Hc as -> ->.
    apply NoDup_cons in Hnd as [Hn Hnd]. apply Forall_cons in Hseen as [Hs Hseen].
    apply Forall_cons in Hid as [Hid Hids].
    rewrite Hid. cbn. rewrite bool_decide_eq_false_2 by done.
    replace (validate_columns (n :: seen) (PStr <$> names)) with (Ok (E:=copy_error) names); [done|].
    symmetry; apply IH. split_and!; [done..| |done].
    apply Forall_forall. intros x Hx. rewrite Forall_forall in Hseen.
    specialize (Hseen _ Hx). set_solver.
Qed.

Lemma init_wf t cols off csz csh usz ush rc cm seg :
  CopySegment_init t cols off csz csh usz ush rc cm = Ok seg ->
  segment_wf seg /\ t = PStr (table seg) /\ cols = PStr <$> columns seg /\
  off = PInt (offset seg) /\ csz = PInt (compressed_size seg) /\
  csh = PStr (compressed_sha256 seg) /\ usz = PInt (uncompressed_size seg) /\
  ush = PStr (uncompressed_sha256 seg) /\ rc = PInt (row_count seg) /\
  cm = PStr (compression seg).
Proof.
  unfold CopySegment_init. intros H.
  bind_ok H as tn Ht. bind_ok H as u Hne. bind_ok H as names Hcols.
  bind_ok H as zo Ho. bind_ok H as zc Hc. bind_ok H as zu Hu. bind_ok H as zr Hr.
  bind_ok H as sc Hsc. bind_ok H as su Hsu.
  destruct (hashable cm); [|done]. cbn in H.
  destruct cm as [| | | |cn| |]; try done.
  destruct (String.eqb_spec cn COMPRESSION_ZLIB) as [->|]; [|done].
  injection H as <-. cbn.
  apply validate_columns_ok in Hcols as (-> & ? & _ & ?).
  apply ensure_ok, negb_true_iff, bool_decide_eq_false in Hne.
  apply validate_non_negative_ok in Ho as [-> ?], Hc as [-> ?], Hu as [-> ?], Hr as [-> ?].
  apply validate_sha256_ok in Hsc as [-> ?], Hsu as [-> ?].
  pose proof (proj1 (validate_identifier_ok _ _ _) Ht) as (-> & _).
  split; [|done]. constructor; cbn; try done. by destruct names.
Qed.

Lemma init_complete seg :
  segment_wf seg ->
  CopySegment_init (PStr (table seg)) (PStr <$> columns seg) (PInt (offset seg))
    (PInt (compressed_size seg)) (PStr (compressed_sha256 seg)) (PInt (uncompressed_size seg))
    (PStr (uncompressed_sha256 seg)) (PInt (row_count seg)) (PStr (compression seg)) = Ok seg.
Proof.
  intros []. unfold CopySegment_init. rewrite wf_table0. cbn.
  rewrite bool_decide_eq_false_2 by (by destruct (columns seg)). cbn.
  replace (validate_columns [] (PStr <$> columns seg)) with (Ok (E:=copy_error) (columns seg)).
  2: { symmetry. apply validate_columns_ok. split_and!; try done.
       apply Forall_forall. set_solver. }
  assert (forall z l, 0 <= z -> _validate_non_negative_int (PInt z) l = Ok z) as Hz.
  { intros z l ?. by apply validate_non_negative_ok. }
  assert (forall s l, sha256_pattern s = true -> _validate_sha256 (PStr s) l = Ok s) as Hs.
  { intros s l ?. by apply validate_sha256_ok. }
  cbn. rewrite !Hz by done. cbn. rewrite !Hs by done. cbn.
  rewrite wf_compression0. by destruct seg; cbn in *; subst.
Qed.

Lemma dict_get_field d k :
  list_to_set (d.*1) =@{gset string} list_to_set expected_fields ->
  dict_get k d = if bool_decide (k ∈ expected_fields) then Some (field d k) else None.
Proof.
  intros Hkeys. assert (k ∈ d.*1 <-> k ∈ expected_fields) as Hk.
  { rewrite <- !(elem_of_list_to_set (C:=gset string)), Hkeys. done. }
  unfold field. case_bool_decide as Hin.
  - destruct (dict_get k d) eqn:E; [done|]. apply dict_get_none in E. tauto.
  - apply dict_get_none. tauto.
Qed.

(** A segment read back from its own dictionary is the segment, and
    whatever dictionary [from_dict] accepts is, key by key, the dictionary of
    the well-formed segment it returns. *)
Theorem from_dict_roundtrip :
  (forall seg, segment_wf seg -> from_dict (PDict (to_dict seg)) = Ok seg) /\
  (forall v seg, from_dict v = Ok seg ->
     segment_wf seg /\
     exists d, v = PDict d /\ forall k, dict_get k d = dict_get k (to_dict seg)).
Proof.
  split.
  - intros seg Hwf. unfold from_dict. rewrite bool_decide_eq_true_2 by done.
    by apply init_complete.
  - intros v seg H. destruct v as [| | | | | |d]; try done. unfold from_dict in H.
    destruct (bool_decide _) eqn:Hkeys; [|done]. cbn in H.
    apply bool_decide_eq_true in Hkeys.
    destruct (field d "columns") as [| | | | |cols|] eqn:Hcols; try done.
    apply init_wf in H as (Hwf & Ht & Hc & Hf). split; [done|]. exists d. split; [done|]. intros k.
    rewrite (dict_get_field d k Hkeys).
    rewrite (dict_get_field (to_dict seg) k eq_refl).
    case_bool_decide as Hin; [|done]. f_equal.
    unfold expected_fields in Hin. rewrite !elem_of_cons, elem_of_nil in Hin.
    naive_solver congruence.
Qed.

(** The errors of the module's own class. *)
Definition is_copy_format_error (e : copy_error) : bool :=
  match e with
  | Unhashable | BadIntLiteral | DriverError | OutOfFuel => false
  | _ => true
  end.

Lemma validate_identifier_err v l e :
  _validate_identifier v l = Err e -> is_copy_format_error e = true.
Proof.
  unfold _validate_identifier, ensure. destruct v as [| | | |s| |]; try by intros [= <-].
  destruct (identifier_pattern s); [destruct (_ <=? _)|]; cbn; by intros [= <-].
Qed.

Lemma validate_columns_err seen cols e :
  validate_columns seen cols = Err e -> is_copy_format_error e = true.
Proof.
  revert seen; induction cols as [|c cols IH]; intros seen; [done|]. cbn [validate_columns].
  unfold mbind, result_bind.
  destruct (_validate_identifier c _) eqn:Hc; [|intros [= <-]; by eapply validate_identifier_err].
  case_bool_decide; [by intros [= <-]|].
  destruct (validate_columns _ _) eqn:Hcs; [done|]. intros [= <-]. by eapply IH.
Qed.

(** The error contract of [from_dict]: on any JSON value it returns a
    segment or raises [CopyFormatError], with one exception, a [compression]
    entry that is a list or an object and otherwise valid fields: the
    membership test on a frozenset then raises [TypeError]. *)
Theorem from_dict_error_contract v e :
  from_dict v = Err e ->
  is_copy_format_error e = true \/
  (e = Unhashable /\ exists d, v = PDict d /\ hashable (field d "compression") = false).
Proof.
  unfold from_dict. destruct v as [| | | | | |d]; try (intros [= <-]; by left).
  destruct (negb _); [intros [= <-]; by left|].
  destruct (field d "columns") as [| | | | |cols|]; try (intros [= <-]; by left).
  unfold CopySegment_init, mbind, result_bind, ensure.
  destruct (_validate_identifier _ _) eqn:E1.
  2: { intros [= <-]. left. by eapply validate_identifier_err. }
  destruct (negb (bool_decide _)); [|intros [= <-]; by left].
  destruct (validate_columns _ _) eqn:E2.
  2: { intros [= <-]. left. by eapply validate_columns_err. }
  unfold _validate_non_negative_int, _validate_sha256, mbind, result_bind, ensure.
  destruct (field d "compression") eqn:Hc; cbn.
  all: repeat match goal with
       | |- context [match field ?d0 ?k with _ => _ end] => destruct (field d0 k)
       | |- context [if ?b then _ else _] => destruct b
       end; intros [= <-]; first [by left | right; split; [done|]; eexists; by rewrite Hc].
Qed.

Lemma from_dict_error_contract_witness :
  is_copy_format_error Unhashable = true \/
  (Unhashable = Unhashable /\ exists d,
     PDict (dict_set "compression" (PList []) (to_dict (mkSegment "t" ["c"] 0 0 (String.concat "" (replicate 64 "0")) 0
       (String.concat "" (replicate 64 "0")) 0 "zlib"))) = PDict d /\ hashable (field d "compression") = false).
Proof. apply from_dict_error_contract. vm_compute. reflexivity. Defined.

(** ** Layout *)
Definition covers (seg : CopySegment) (pos : Z) : Prop := offset seg <= pos < end_offset seg.
Fixpoint total_plain (segs : list CopySegment) : Z :=
  match segs with [] => 0 | s :: rest => uncompressed_size s + total_plain rest end.

(** Segments laid end to end from [c] to [c']. *)
Fixpoint tiles (c : Z) (segs : list CopySegment) (c' : Z) : Prop :=
  match segs with
  | [] => c = c'
  | s :: rest => offset s = c /\ c <= end_offset s /\ tiles (end_offset s) rest c'
  end.

Lemma tiles_le c segs c' : tiles c segs c' -> c <= c'.
Proof.
  revert c; induction segs as [|s segs IH]; intros c; cbn; [lia|].
  intros (_ & ? & ?%IH). lia.
Qed.

Lemma tiles_app c segs1 segs2 c' :
  tiles c (segs1 ++ segs2) c' <-> exists m, tiles c segs1 m /\ tiles m segs2 c'.
Proof.
  revert c; induction segs1 as [|s segs1 IH]; intros c; cbn.
  - split; [by exists c|]. by intros (m & -> & ?).
  - rewrite IH. naive_solver.
Qed.

Lemma tiles_bounds c segs c' i s :
  tiles c segs c' -> segs !! i = Some s -> c <= offset s /\ end_offset s <= c'.
Proof.
  revert c i; induction segs as [|s1 segs IH]; intros c [|i]; cbn; try done.
  - intros (<- & ? & ?%tiles_le) [= ->]. lia.
  - intros (<- & ? & Ht) Hi. specialize (IH _ _ Ht Hi). lia.
Qed.

Lemma tiles_cover c segs c' pos :
  tiles c segs c' -> c <= pos < c' ->
  exists i s, segs !! i = Some s /\ covers s pos /\
    forall j s', segs !! j = Some s' -> covers s' pos -> j = i.
Proof.
  unfold covers.
  revert c; induction segs as [|s1 segs IH]; intros c; cbn; [lia|].
  intros (<- & Hs & Ht) Hpos. destruct (Z.lt_ge_cases pos (end_offset s1)) as [Hlt|Hge].
  - exists 0%nat, s1. split_and!; [done|lia..|]. intros [|j] s' Hj Hc; [done|].
    cbn in Hj. pose proof (tiles_bounds _ _ _ _ _ Ht Hj). lia.
  - destruct (IH _ Ht) as (i & s & Hi & Hc & Hu); [lia|].
    exists (S i), s. split_and!; [done|lia..|]. intros [|j] s' Hj Hc'.
    + cbn in Hj. simplify_eq. lia.
    + f_equal. eauto.
Qed.

Lemma layout_step_ok total mt mr c u s c' u' :
  layout_step total mt mr (c, u) s = Ok (c', u') <->
  offset s = c /\ c <= end_offset s <= total /\ _check_ratio s mr = Ok tt /\
  u + uncompressed_size s <= mt /\ c' = end_offset s /\ u' = u + uncompressed_size s.
Proof.
  unfold layout_step. split.
  - intros H. bind_ok H as ? H1. bind_ok H as ? H2. bind_ok H as ? H3. bind_ok H as [] H4.
    bind_ok H as ? H5. apply ensure_ok in H1, H2, H3, H5. bool_to_prop. inv_ok.
    split_and!; done || lia.
  - intros (<- & [H1 H2] & Hr & Hu & -> & ->).
    rewrite Z.eqb_refl. apply Z.leb_le in H1, H2, Hu. rewrite H1, H2. cbn. rewrite Hr. cbn.
    by rewrite Hu.
Qed.

(** What the loop establishes, and what makes it succeed. *)
Lemma layout_fold_ok total mt mr segs c u c' u' :
  fold_result (layout_step total mt mr) segs (c, u) = Ok (c', u') ->
  tiles c segs c' /\ u' = u + total_plain segs /\ (segs = [] \/ u' <= mt) /\
  Forall (fun s => end_offset s <= total /\ _check_ratio s mr = Ok tt) segs.
Proof.
  revert c u; induction segs as [|s segs IH]; intros c u; cbn [fold_result].
  { intros [= <- <-]. split_and!; [done|cbn; lia|by left|done]. }
  destruct (layout_step _ _ _ _ _) as [[c1 u1]|] eqn:Hstep; [|done]. intros H.
  apply layout_step_ok in Hstep as (<- & [? ?] & ? & ? & -> & ->).
  apply IH in H as (Ht & -> & Hu & Hall). cbn.
  split_and!; [done|lia|done|lia| |by constructor].
  right. destruct Hu as [->|]; cbn in *; lia.
Qed.

Lemma layout_fold_complete total mt mr segs c u c' :
  tiles c segs c' -> c' <= total ->
  Forall (fun s => 0 <= uncompressed_size s /\ _check_ratio s mr = Ok tt) segs ->
  u + total_plain segs <= mt ->
  fold_result (layout_step total mt mr) segs (c, u) = Ok (c', u + total_plain segs).
Proof.
  revert c u; induction segs as [|s segs IH]; intros c u; cbn.
  { intros -> _ _ _. do 2 f_equal. lia. }
  intros (<- & He & Ht) Hc' [[Hu Hr] Hall]%Forall_cons Hmt.
  assert (0 <= total_plain segs) as Hp.
  { clear -Hall. induction Hall as [|x l [? _] _ IHl]; cbn; lia. }
  pose proof (tiles_le _ _ _ Ht).
  assert (layout_step total mt mr (offset s, u) s = Ok (end_offset s, u + uncompressed_size s)) as ->.
  { apply layout_step_ok. split_and!; try done; lia. }
  rewrite IH by (done || lia). do 2 f_equal. lia.
Qed.

(** An accepted layout assigns every byte of [data.copy] to exactly one
    segment, keeps every segment inside the file and under the ratio cap,
    and keeps the plain bytes of the whole archive within the budget. *)
Theorem accepted_layout_exact_cover segs total max_total max_ratio out :
  validate_segment_layout segs total max_total max_ratio = Ok out ->
  out = segs /\
  (forall pos, 0 <= pos < total ->
     exists i s, segs !! i = Some s /\ covers s pos /\
       forall j s', segs !! j = Some s' -> covers s' pos -> j = i) /\
  Forall (fun s => 0 <= offset s <= end_offset s /\ end_offset s <= total
                   /\ _check_ratio s max_ratio = Ok tt) segs /\
  total_plain segs <= Z.max 0 max_total.
Proof.
  unfold validate_segment_layout. intros H. bind_ok H as [c u] Hf. bind_ok H as ? Hc.
  inv_ok. bool_to_prop. cbn in Hc. subst c.
  apply layout_fold_ok in Hf as (Ht & -> & Hb & Hall).
  split_and!; [done| | |].
  - intros pos Hpos. by eapply tiles_cover.
  - apply Forall_lookup. intros i s Hi.
    pose proof (tiles_bounds _ _ _ _ _ Ht Hi).
    rewrite Forall_lookup in Hall. specialize (Hall _ _ Hi).
    assert (offset s <= end_offset s); [|destruct Hall; split_and!; done || lia].
    clear -Ht Hi. revert Ht. generalize 0. revert i Hi.
    induction out as [|s1 segs IH]; intros [|i] Hi z Ht; try done; cbn in *.
    + simplify_eq. lia.
    + eapply IH; [exact Hi|apply Ht].
  - destruct Hb as [->|]; cbn in *; lia.
Qed.

(** ** Laws of the parameters *)

(** A sink appends what it reports as taken. *)
Class SinkLaws `{SK : Sink} : Type := {
  sink_contents : sink -> bytes;
  sink_write_all s v s' :
    sink_write s v = (None, s') -> sink_contents s' = sink_contents s ++ v;
  sink_write_some s v k s' :
    sink_write s v = (Some k, s') ->
    0 <= k <= zlen v /\ sink_contents s' = sink_contents s ++ ztake k v;
}.
(** A blocking sink takes at least one byte of a non-empty buffer. *)
Class SinkProgress `{SK : Sink} : Prop :=
  sink_progress s v s' : v <> [] -> sink_write s v <> (Some 0, s').

(** A hexdigest is 64 lower-case hexadecimal characters. *)
Class Sha256Laws `{SH : Sha256} : Prop :=
  sha256_hex_pattern b : sha256_pattern (sha256_hex b) = true.

(** Everything a compressor emits for a list of buffers, flush included. *)
Fixpoint deflate_from `{ZL : Zlib} (c : cstate) (chunks : list bytes) : bytes :=
  match chunks with
  | [] => cflush c
  | ch :: rest => let '(c', out) := compress c ch in out ++ deflate_from c' rest
  end.

(** Streaming decompression.  [decodes d c p] says that a decompressor in
    state [d], given exactly the bytes [c], produces [p] and ends: a fresh
    decompressor does so on the output of a compressor; a call whose budget
    exceeds what is left to produce consumes its whole input; once the input
    is exhausted, [flush] returns the rest and the stream is at its end with
    nothing unused. *)
Class ZlibLaws `{ZL : Zlib} : Type := {
  decodes : dstate -> bytes -> bytes -> Prop;
  decodes_deflate level chunks :
    decodes decompressobj (deflate_from (compressobj level) chunks) (concat chunks);
  decodes_step d a c p n :
    decodes d (a ++ c) p -> zlen p < n ->
    exists d' out p', decompress d a n = Some (d', out) /\ p = out ++ p' /\
      unconsumed_tail d' = [] /\ decodes d' c p';
  decodes_end d p :
    decodes d [] p ->
    exists d', dflush d = Some (d', p) /\ eof d' = true /\ unused_data d' = [];
}.

(** [max_length] bounds one call, and input is left over only when the bound
    was reached. *)
Class ZlibBounded `{ZL : Zlib} : Prop :=
  zlib_bounded d a n d' out :
    decompress d a n = Some (d', out) -> 1 <= n ->
    zlen out <= n /\ (unconsumed_tail d' <> [] -> zlen out = n).

(** ** The writer *)
Section WriterFacts.
Context `{ZL : Zlib} `{SH : Sha256} `{SK : Sink}.
Context {SKL : SinkLaws (SK := SK)}.

Definition contents (w : SegmentWriter) : bytes := sink_contents (w_sink w).

Lemma emit_loop_ok fuel view off w w' :
  0 <= off <= zlen view ->
  emit_loop fuel view off w = (Ok tt, w') ->
  w' = mkWriter (w_sink w') (w_written w) (w_closed w) (w_open w) /\
  contents w' = contents w ++ zdrop off view.
Proof.
  revert off w; induction fuel as [|fuel IH]; intros off w Hoff; cbn [emit_loop].
  all: destruct (off <? zlen view) eqn:Hlt; bool_to_prop.
  1: done.
  1, 3: intros [= <-]; rewrite zdrop_all, app_nil_r by lia; by destruct w.
  destruct (sink_write _ _) as [[k|] sk] eqn:Hw.
  - apply sink_write_some in Hw as [Hk Hc]. rewrite zlen_zdrop in Hk by lia.
    destruct (k =? 0) eqn:Hk0; [done|]. intros H.
    apply IH in H as [Hw' Hc']; [|lia]. split; [done|].
    rewrite Hc'. unfold contents. cbn. rewrite Hc, <- app_assoc. f_equal.
    rewrite <- (ztake_zdrop k (zdrop off view)) at 2. f_equal.
    rewrite zdrop_zdrop by lia. f_equal; lia.
  - apply sink_write_all in Hw. intros [= <-]. by unfold contents; cbn.
Qed.

Lemma emit_loop_total `{!SinkProgress} fuel view off w :
  0 <= off <= zlen view -> zlen view - off <= Z.of_nat fuel ->
  exists w', emit_loop fuel view off w = (Ok tt, w').
Proof.
  revert off w; induction fuel as [|fuel IH]; intros off w Hoff Hf; cbn [emit_loop].
  all: destruct (off <? zlen view) eqn:Hlt; bool_to_prop; [|by eexists].
  1: lia.
  destruct (sink_write _ _) as [[k|] sk] eqn:Hw; [|by eexists].
  pose proof (sink_write_some _ _ _ _ Hw) as [Hk _]. rewrite zlen_zdrop in Hk by lia.
  destruct (k =? 0) eqn:Hk0; bool_to_prop.
  - subst. exfalso. eapply sink_progress; [|exact Hw].
    intros Hn. apply (f_equal zlen) in Hn. rewrite zlen_zdrop, zlen_nil in Hn by lia. lia.
  - apply IH; lia.
Qed.

(** A write that returns has put every byte in the sink, in order. *)
Lemma emit_ok data w w' :
  _emit data w = (Ok tt, w') ->
  w' = mkWriter (w_sink w') (w_written w + zlen data) (w_closed w) (w_open w) /\
  contents w' = contents w ++ data.
Proof.
  destruct data as [|b data]; [|unfold _emit; intros H].
  { intros [= <-]. rewrite zlen_nil, Z.add_0_r, app_nil_r. by destruct w. }
  sbind_ok H as [] w1 Hl. apply emit_loop_ok in Hl as [Hw Hc]; [|pose proof (zlen_nonneg data); rewrite zlen_cons; lia].
  rewrite zdrop_0 in Hc. injection H as <-. rewrite Hw. cbn. unfold contents in *. by cbn.
Qed.

Lemma emit_total `{!SinkProgress} data w : exists w', _emit data w = (Ok tt, w').
Proof.
  destruct data as [|b data]; [by eexists|]. unfold _emit.
  destruct (emit_loop_total (length (b :: data)) (b :: data) 0 w) as [w1 H1].
  { pose proof (zlen_nonneg data). rewrite zlen_cons. lia. }
  { unfold zlen. lia. }
  unfold mbind, stm_bind. rewrite H1. by eexists.
Qed.

(** The open segment after feeding [chunks] to [o], and the bytes emitted. *)
Fixpoint fed (o : OpenSegment) (chunks : list bytes) : OpenSegment * bytes :=
  match chunks with
  | [] => (o, [])
  | [] :: rest => fed o rest
  | data :: rest =>
      let '(c, out) := compress (o_compressor o) data in
      let '(o', outs) :=
        fed (mkOpen (o_table o) (o_columns o) (o_offset o) c (o_raw_hash o ++ data)
               (o_comp_hash o ++ out) (o_uncompressed_size o + zlen data)
               (o_compressed_size o + zlen out) false) rest in
      (o', out ++ outs)
  end.

Lemma emit_spec `{!SinkProgress} data w :
  exists sk, _emit data w = (Ok tt, mkWriter sk (w_written w + zlen data) (w_closed w) (w_open w))
             /\ sink_contents sk = contents w ++ data.
Proof.
  destruct (emit_total data w) as [w' Hw]. pose proof Hw as Hw'.
  apply emit_ok in Hw' as [Heq Hc]. exists (w_sink w'). rewrite Hw. split; [by rewrite <- Heq|done].
Qed.

Lemma feeds_spec `{!SinkProgress} chunks o w :
  w_open w = Some o -> o_done o = false ->
  exists sk, stm_iter feed chunks w =
    (Ok tt, mkWriter sk (w_written w + zlen (fed o chunks).2) (w_closed w) (Some (fed o chunks).1))
    /\ sink_contents sk = contents w ++ (fed o chunks).2.
Proof.
  revert o w; induction chunks as [|data chunks IH]; intros o w Ho Hd.
  { exists (w_sink w). cbn. rewrite zlen_nil, Z.add_0_r, app_nil_r, <- Ho. by destruct w. }
  cbn [stm_iter]. unfold mbind, stm_bind, feed at 1. rewrite Ho, Hd.
  destruct data as [|b data]; [by apply IH|]. cbn [fed].
  destruct (compress (o_compressor o) (b :: data)) as [c out] eqn:Hcmp.
  unfold set_open, stm_modify, mbind, stm_bind. cbn beta iota.
  match goal with |- context [_emit out ?w1] =>
    destruct (emit_spec out w1) as (sk & Hem & Hsk) end.
  cbn. rewrite Hem. cbn.
  match goal with |- context [stm_iter feed chunks (mkWriter _ _ _ (Some ?o1))] =>
    edestruct (IH o1) as (sk2 & Hit & Hsk2); [| |rewrite Hit; exists sk2]; [done..|] end.
  cbn in *. destruct (fed _ chunks) as [o' outs]. cbn. unfold contents in *. cbn in *.
  rewrite Hsk2, Hsk, zlen_app, Z.add_assoc, app_assoc. done.
Qed.

(** What feeding does to the bookkeeping of the segment. *)
Lemma fed_state chunks o :
  let o' := (fed o chunks).1 in
  o_table o' = o_table o /\ o_columns o' = o_columns o /\ o_offset o' = o_offset o /\
  o_raw_hash o' = o_raw_hash o ++ concat chunks /\
  o_uncompressed_size o' = o_uncompressed_size o + zlen (concat chunks) /\
  o_comp_hash o' = o_comp_hash o ++ (fed o chunks).2 /\
  o_compressed_size o' = o_compressed_size o + zlen (fed o chunks).2 /\
  (o_done o = false -> o_done o' = false).
Proof.
  revert o; induction chunks as [|[|b data] chunks IH]; intros o; cbn [fed concat].
  { cbn. rewrite !app_nil_r, !zlen_nil, !Z.add_0_r. done. }
  { apply IH. }
  destruct (compress _ _) as [c out]. 
  match goal with |- context [fed ?o1 chunks] => specialize (IH o1) end. cbn in IH.
  destruct (fed _ chunks) as [o' outs]. cbn in *.
  destruct IH as (-> & -> & -> & -> & -> & -> & -> & Hd).
  autorewrite with zlen_simpl. rewrite <- !app_assoc. cbn. split_and!; done || lia || auto.
Qed.

Lemma fed_deflate chunks o :
  (fed o chunks).2 ++ cflush (o_compressor (fed o chunks).1)
  = deflate_from (o_compressor o) (filter (.≠ []) chunks).
Proof.
  revert o; induction chunks as [|[|b data] chunks IH]; intros o; cbn [fed].
  { done. }
  { rewrite IH, filter_cons_False; [done|]. by intros []. }
  rewrite filter_cons_True by done. cbn [deflate_from].
  destruct (compress _ _) as [c out].
  match goal with |- context [fed ?o1 chunks] => specialize (IH o1) end. cbn in IH.
  destruct (fed _ chunks) as [o' outs]. cbn in *. by rewrite <- app_assoc, IH.
Qed.

(** The bytes [write_segment] appends for [chunks]. *)
Definition segment_bytes (chunks : list bytes) : bytes :=
  deflate_from (compressobj _ZLIB_LEVEL) (filter (.≠ []) chunks).

(** The arguments [write_segment] accepts. *)
Record write_args_ok (t : string) (cols : list string) (rc : Z) : Prop := {
  args_table : _validate_identifier (PStr t) "segment table" = Ok t;
  args_columns : cols <> [];
  args_distinct : NoDup cols;
  args_names : Forall (fun c => _validate_identifier (PStr c) "segment column" = Ok c) cols;
  args_rows : 0 <= rc;
}.

Definition written_segment (t : string) (cols : list string) (off : Z) (chunks : list bytes)
    (rc : Z) : CopySegment :=
  mkSegment t cols off (zlen (segment_bytes chunks)) (sha256_hex (segment_bytes chunks))
    (zlen (concat chunks)) (sha256_hex (concat chunks)) rc COMPRESSION_ZLIB.

(** [write_segment] on valid arguments: the segment it returns, where its
    bytes land, and the writer it leaves. *)
Lemma write_segment_spec `{!SinkProgress, !Sha256Laws} t cols chunks rc w :
  write_args_ok t cols rc -> w_closed w = false -> w_open w = None -> 0 <= w_written w ->
  exists sk, write_segment t cols chunks rc w =
    (Ok (written_segment t cols (w_written w) chunks rc),
     mkWriter sk (w_written w + zlen (segment_bytes chunks)) false None)
    /\ sink_contents sk = contents w ++ segment_bytes chunks.
Proof.
  intros [Ht Hcn Hcd Hci Hrc] Hcl Hop Hw. unfold write_segment, begin_segment.
  unfold mbind, stm_bind. rewrite Hcl, Hop, Ht. unfold set_open, stm_modify. cbn beta iota.
  set (o0 := mkOpen t cols (w_written w) _ _ _ _ _ _).
  match goal with |- context [stm_iter feed chunks ?w1] =>
    destruct (feeds_spec chunks o0 w1) as (sk & Hfeed & Hsk); [done..|] end.
  rewrite Hfeed. cbn in Hsk. unfold finish. cbn [w_open].
  pose proof (fed_state chunks o0) as Hst. pose proof (fed_deflate chunks o0) as Hde.
  destruct (fed o0 chunks) as [o1 outs]. cbn in Hst, Hde |- *.
  destruct Hst as (Ho1 & Ho2 & Ho3 & Ho4 & Ho5 & Ho6 & Ho7 & Ho8). rewrite Ho8 by done.
  change (deflate_from _ _) with (segment_bytes chunks) in Hde.
  unfold mbind, stm_bind. cbn.
  match goal with |- context [_emit ?d ?w1] =>
    destruct (emit_spec d w1) as (sk2 & Hem & Hsk2) end.
  rewrite Hem. cbn in Hsk2 |- *. unfold stm_lift. exists sk2.
  rewrite Ho1, Ho2, Ho3, Ho4, Ho5, Ho6, Ho7. cbn.
  rewrite <- !Z.add_assoc, <- !zlen_app, Hde, !Z.add_0_l, Hcl. split.
  - f_equal. apply (init_complete (written_segment t cols (w_written w) chunks rc)).
    constructor; cbn; try done; apply zlen_nonneg || apply sha256_hex_pattern.
  - rewrite Hsk2. unfold contents; cbn. rewrite Hsk, <- app_assoc. unfold contents; cbn.
    by rewrite Hde.
Qed.

(** A [write_segment] that returns was given valid arguments. *)
Lemma write_segment_args `{!SinkProgress} t cols chunks rc w seg w' :
  write_segment t cols chunks rc w = (Ok seg, w') -> write_args_ok t cols rc.
Proof.
  unfold write_segment, begin_segment, mbind, stm_bind.
  destruct (w_closed w); [done|]. destruct (w_open w); [done|].
  destruct (_validate_identifier _ _) as [t'|] eqn:Ht; [|done].
  unfold set_open, stm_modify. cbn beta iota.
  set (o0 := mkOpen t cols (w_written w) _ _ _ _ _ _).
  match goal with |- context [stm_iter feed chunks ?w1] =>
    destruct (feeds_spec chunks o0 w1) as (sk & Hfeed & Hsk); [done..|] end.
  rewrite Hfeed. unfold finish. cbn [w_open].
  pose proof (fed_state chunks o0) as (Ho1 & Ho2 & _ & _ & _ & _ & _ & Ho8). cbn in Ho1, Ho2.
  rewrite Ho8 by done. unfold mbind, stm_bind. cbn.
  match goal with |- context [_emit ?d ?w1] => destruct (_emit d w1) as [[[]|] w2] end; [|done].
  cbn. unfold stm_lift. intros [= Hinit _]. apply init_wf in Hinit as (Hwf & Et & Ec & _ & _ & _ & _ & _ & Er & _).
  rewrite Ho1 in Et. rewrite Ho2 in Ec. injection Et as ->. injection Er as ->.
  apply (inj (fmap PStr)) in Ec as ->. destruct Hwf. by constructor.
Qed.
End WriterFacts.

(** ** The reader *)
Section ReaderFacts.
Context `{ZL : Zlib} `{SH : Sha256}.

(** The bookkeeping is consistent: what was yielded is what was hashed and
    counted, and it does not exceed the recorded size. *)
Record read_inv (usize : Z) (r : ReadState) : Prop := {
  ri_hash : r_raw_hash r = concat (r_yielded r);
  ri_produced : r_produced r = zlen (r_raw_hash r);
  ri_bound : r_produced r <= usize;
}.
Definition yields_bounded (usize : Z) (r : ReadState) : Prop :=
  zlen (concat (r_yielded r)) <= usize.

(** The outcome of a step: the invariant on success, at least the bound on
    what was yielded when an exception ends the iteration. *)
Definition read_post {A} (usize : Z) (out : result copy_error A * ReadState) : Prop :=
  match out with
  | (Ok _, r) => read_inv usize r
  | (Err _, r) => yields_bounded usize r
  end.

Lemma read_inv_bounded usize r : read_inv usize r -> yields_bounded usize r.
Proof. intros [H1 H2 H3]. unfold yields_bounded. rewrite <- H1, <- H2. done. Qed.

Lemma read_bind {A B} usize (m : rm A) (f : A -> rm B) r :
  read_post usize (m r) ->
  (forall a r', m r = (Ok a, r') -> read_inv usize r' -> read_post usize (f a r')) ->
  read_post usize ((m ≫= f) r).
Proof.
  unfold mbind, stm_bind. destruct (m r) as [[a|e] r']; cbn; [|done]. eauto.
Qed.

Lemma yield_chunk_inv usize plain r :
  r_raw_hash r = concat (r_yielded r) ->
  r_produced r = zlen (r_raw_hash r) + zlen plain -> r_produced r <= usize ->
  exists r', yield_chunk plain r = (Ok tt, r') /\ read_inv usize r' /\
    r_yielded r' = r_yielded r ++ match plain with [] => [] | _ => [plain] end /\
    r_raw_hash r' = r_raw_hash r ++ plain /\ r_produced r' = r_produced r /\
    r_decompressor r' = r_decompressor r /\ r_comp_hash r' = r_comp_hash r.
Proof.
  intros Hh Hp Hb. destruct plain as [|b plain]; eexists; split; try reflexivity; cbn.
  - rewrite zlen_nil, Z.add_0_r in Hp. rewrite !app_nil_r. split_and!; done || by constructor.
  - split_and!; try done. constructor; cbn; [|by rewrite zlen_app|done].
    rewrite concat_app. cbn. by rewrite Hh, app_nil_r.
Qed.

Lemma drain_post fuel usize pending r :
  read_inv usize r -> read_post usize (drain fuel usize pending r).
Proof.
  revert pending r; induction fuel as [|fuel IH]; intros pending r Hinv; cbn [drain].
  { by apply read_inv_bounded. }
  destruct (decompress _ _ _) as [[d plain]|]; [|by apply read_inv_bounded].
  cbn. destruct (usize <? _) eqn:Hlt; bool_to_prop.
  { apply read_inv_bounded in Hinv. exact Hinv. }
  destruct Hinv as [H1 H2 H3]. unfold mbind, stm_bind.
  match goal with |- context [yield_chunk plain ?r1] =>
    destruct (yield_chunk_inv usize plain r1) as (r' & Hy & Hinv' & _); cbn; [done|lia|lia|] end.
  rewrite Hy. destruct (unconsumed_tail d); [done|]. by apply IH.
Qed.

Lemma read_loop_post fuel inner usize rest remaining r :
  read_inv usize r -> read_post usize (read_loop fuel inner usize rest remaining r).
Proof.
  revert rest remaining r; induction fuel as [|fuel IH]; intros rest remaining r Hinv.
  all: cbn [read_loop]; destruct (0 <? remaining); [|done].
  { by apply read_inv_bounded. }
  destruct (negb _); [by apply read_inv_bounded|].
  apply read_bind; [cbn; destruct Hinv; by constructor|].
  intros [] r1 _ H1. apply read_bind; [by apply drain_post|]. intros [] r2 _ H2. by apply IH.
Qed.

(** What a clean end of the iteration proves about the data. *)
Lemma read_tail_post seg r :
  read_inv (uncompressed_size seg) r ->
  match read_tail seg r with
  | (Ok _, r') => read_inv (uncompressed_size seg) r' /\
      r_produced r' = uncompressed_size seg /\
      sha256_hex (r_comp_hash r') = compressed_sha256 seg /\
      sha256_hex (r_raw_hash r') = uncompressed_sha256 seg
  | (Err _, r') => yields_bounded (uncompressed_size seg) r'
  end.
Proof.
  intros Hinv. unfold read_tail.
  destruct (dflush _) as [[d tail]|]; [|by apply read_inv_bounded]. cbn.
  destruct (_ =? _) eqn:Heq; bool_to_prop; cbn; [|by apply read_inv_bounded in Hinv].
  destruct Hinv as [H1 H2 H3]. unfold mbind, stm_bind, stm_get.
  match goal with |- context [yield_chunk tail ?r1] =>
    destruct (yield_chunk_inv (uncompressed_size seg) tail r1)
      as (r' & Hy & Hinv' & _ & _ & Hp & _); cbn in *; [done|lia|lia|] end.
  rewrite Hy.
  destruct (eof d); cbn; [|by apply read_inv_bounded].
  destruct (bool_decide _); cbn; [|by apply read_inv_bounded].
  destruct (String.eqb_spec (sha256_hex (r_comp_hash r')) (compressed_sha256 seg)); cbn;
    [|by apply read_inv_bounded].
  destruct (String.eqb_spec (sha256_hex (r_raw_hash r')) (uncompressed_sha256 seg)); cbn;
    [|by apply read_inv_bounded].
  split_and!; try done. congruence.
Qed.

(** C31: whatever the archive holds and whatever the decompressor answers,
    the iteration never hands out more plain bytes than the segment
    records; and when it ends without an exception, what it handed out has
    exactly the recorded size and the recorded SHA-256. *)
Theorem iter_uncompressed_bomb_guard file total max_ratio seg res chunks :
  0 <= uncompressed_size seg ->
  iter_uncompressed file total max_ratio seg = (res, chunks) ->
  zlen (concat chunks) <= uncompressed_size seg /\
  (res = Ok tt -> zlen (concat chunks) = uncompressed_size seg /\
                  sha256_hex (concat chunks) = uncompressed_sha256 seg).
Proof.
  intros Hu. unfold iter_uncompressed.
  set (r0 := mkRead decompressobj [] [] 0 []).
  assert (read_inv (uncompressed_size seg) r0) as H0 by (by constructor).
  unfold mbind, stm_bind, stm_lift.
  destruct (ensure (0 <=? total) _); [|intros [= <- <-]; done].
  destruct (ensure (end_offset seg <=? total) _); [|intros [= <- <-]; done].
  destruct (_check_ratio seg max_ratio); [|intros [= <- <-]; done].
  destruct (ensure _ _); [|intros [= <- <-]; done].
  match goal with |- context [read_loop ?f ?i ?u ?re ?rem r0] =>
    pose proof (read_loop_post f i u re rem r0 H0) as H1;
    destruct (read_loop f i u re rem r0) as [[[]|e] r1] end; cbn in H1.
  2: { intros [= <- <-]. split; [exact H1|done]. }
  pose proof (read_tail_post seg r1 H1) as H2.
  destruct (read_tail seg r1) as [[[]|e] r2]; intros [= <- <-].
  - destruct H2 as ([Ha Hb Hc] & Hp & _ & Hsha). rewrite <- Ha, <- Hb. split; [done|].
    intros _. by split.
  - by split.
Qed.

(** One budgeted call is enough: input left over means the budget, one more
    than what may still be produced, was spent, which is an overrun. *)
Lemma drain_terminates `{!ZlibBounded} fuel usize pending r :
  read_inv usize r -> (drain (S fuel) usize pending r).1 <> Err OutOfFuel.
Proof.
  intros [H1 H2 H3]. cbn [drain].
  destruct (decompress _ _ _) as [[d plain]|] eqn:Hd; [|done]. cbn.
  apply zlib_bounded in Hd as [_ Ht]; [|lia].
  destruct (usize <? _) eqn:Hlt; bool_to_prop; [done|].
  unfold mbind, stm_bind.
  match goal with |- context [yield_chunk plain ?r1] =>
    destruct (yield_chunk_inv usize plain r1) as (r' & Hy & _); cbn; [done|lia|lia|] end.
  rewrite Hy. destruct (unconsumed_tail d); [done|]. exfalso.
  specialize (Ht ltac:(done)). lia.
Qed.

Lemma read_loop_terminates `{!ZlibBounded} fuel inner usize rest remaining r :
  read_inv usize r -> remaining <= Z.of_nat fuel ->
  (read_loop fuel (S inner) usize rest remaining r).1 <> Err OutOfFuel.
Proof.
  revert rest remaining r; induction fuel as [|fuel IH]; intros rest remaining r Hinv Hf.
  all: cbn [read_loop]; destruct (0 <? remaining) eqn:Hr; bool_to_prop; [|done].
  1: lia.
  destruct (negb _); [done|].
  apply stm_bind_not_err; [done|]. intros [] r1 Hr1. injection Hr1 as <-.
  match goal with |- context [drain (S inner) usize ?c] => set (chunk := c) end.
  assert (read_inv usize (mkRead (r_decompressor r) (r_comp_hash r ++ chunk) (r_raw_hash r)
                            (r_produced r) (r_yielded r))) as Hinv1
    by (destruct Hinv; by constructor).
  apply stm_bind_not_err; [by apply drain_terminates|]. intros [] r2 Hr2.
  pose proof (drain_post (S inner) usize chunk _ Hinv1) as Hp. rewrite Hr2 in Hp.
  apply IH; [done|]. change _CHUNK_SIZE with 1048576. lia.
Qed.

Lemma read_tail_terminates seg r : (read_tail seg r).1 <> Err OutOfFuel.
Proof.
  unfold read_tail. destruct (dflush _) as [[d tail]|]; [|done]. cbn.
  destruct (negb (_ =? _)); [done|].
  apply stm_bind_not_err; [by destruct tail|]. intros [] r1 _.
  apply stm_bind_not_err; [done|]. intros r2 r3 _. by case_ifs.
Qed.

(** The iteration always comes to an end: one turn of the outer loop
    per compressed byte and one of the inner loop are enough. *)
Theorem iter_uncompressed_terminates `{!ZlibBounded} file total max_ratio seg :
  0 <= uncompressed_size seg ->
  (iter_uncompressed file total max_ratio seg).1 <> Err OutOfFuel.
Proof.
  intros Hu. unfold iter_uncompressed.
  match goal with |- context [let '(_, _) := ?m ?r0 in _] =>
    assert ((m r0).1 <> Err OutOfFuel) as Hm; [|by destruct (m r0)] end.
  apply stm_bind_not_err; [unfold stm_lift, ensure; by case_ifs|]. intros ? ? [_ <-]%pair_equal_spec.
  apply stm_bind_not_err; [unfold stm_lift, ensure; by case_ifs|]. intros ? ? [_ <-]%pair_equal_spec.
  apply stm_bind_not_err; [unfold stm_lift, _check_ratio; by case_ifs|].
  intros ? ? [_ <-]%pair_equal_spec.
  apply stm_bind_not_err; [unfold stm_lift, ensure; by case_ifs|]. intros ? ? [_ <-]%pair_equal_spec.
  rewrite Nat.add_succ_r.
  apply stm_bind_not_err; [apply read_loop_terminates; [by constructor|lia]|].
  intros [] r1 _. apply read_tail_terminates.
Qed.
End ReaderFacts.

(** ** Round trip *)
Section RoundTrip.
Context `{ZL : Zlib} `{SH : Sha256}.
Context {ZLL : ZlibLaws (ZL := ZL)}.

(** [r] has handed out [out] more than [r0], having consumed [c]. *)
Record advanced (r0 r : ReadState) (c out : bytes) : Prop := {
  adv_comp : r_comp_hash r = r_comp_hash r0 ++ c;
  adv_raw : r_raw_hash r = r_raw_hash r0 ++ out;
  adv_yield : concat (r_yielded r) = concat (r_yielded r0) ++ out;
}.

Lemma drain_decodes fuel usize a c p r :
  read_inv usize r -> decodes (r_decompressor r) (a ++ c) p ->
  r_produced r + zlen p <= usize ->
  exists r' out p', drain (S fuel) usize a r = (Ok tt, r') /\ read_inv usize r' /\
    p = out ++ p' /\ advanced r r' [] out /\ decodes (r_decompressor r') c p'.
Proof.
  intros Hinv Hdec Hfit. pose proof Hinv as [H1 H2 H3]. cbn [drain].
  destruct (decodes_step _ _ _ _ (usize - r_produced r + 1) Hdec)
    as (d' & out & p' & Hstep & -> & Htail & Hdec'); [lia|].
  rewrite zlen_app in Hfit. pose proof (zlen_nonneg p').
  rewrite Hstep. cbn. rewrite (proj2 (Z.ltb_ge _ _)) by lia. unfold mbind, stm_bind.
  match goal with |- context [yield_chunk out ?r1] =>
    destruct (yield_chunk_inv usize out r1) as (r' & Hy & Hi & Hyi & Hra & Hpr & Hde & Hco);
    cbn in *; [done|lia|lia|] end.
  rewrite Hy, Htail. exists r', out, p'. split_and!; try done; [|by rewrite Hde].
  constructor; [by rewrite Hco, app_nil_r|done|]. rewrite Hyi, concat_app.
  by destruct out; cbn; rewrite ?app_nil_r.
Qed.

Lemma read_loop_decodes fuel inner usize c post p r :
  read_inv usize r -> decodes (r_decompressor r) c p -> r_produced r + zlen p <= usize ->
  zlen c <= Z.of_nat fuel ->
  exists r' out p', read_loop fuel (S inner) usize (c ++ post) (zlen c) r = (Ok tt, r') /\
    read_inv usize r' /\ p = out ++ p' /\ advanced r r' c out /\
    decodes (r_decompressor r') [] p'.
Proof.
  revert c p r; induction fuel as [|fuel IH]; intros c p r Hinv Hdec Hfit Hf.
  all: pose proof (zlen_nonneg c); cbn [read_loop];
       destruct (0 <? zlen c) eqn:Hc; bool_to_prop; [try lia|].
  1, 3: assert (c = []) as -> by (by apply zlen_zero);
        exists r, [], p; split_and!; try done; constructor; by rewrite app_nil_r.
  set (want := Z.min _CHUNK_SIZE (zlen c)).
  assert (0 < want <= zlen c) as Hw by (unfold want; change _CHUNK_SIZE with 1048576; lia).
  rewrite ztake_app_le, zlen_ztake, Z.eqb_refl, zdrop_app_le by lia. cbn [negb].
  unfold mbind, stm_bind, stm_modify.
  set (r1 := mkRead _ _ _ _ _).
  assert (read_inv usize r1) as Hinv1 by (destruct Hinv; by constructor).
  rewrite <- (ztake_zdrop want c) in Hdec.
  destruct (drain_decodes inner usize (ztake want c) (zdrop want c) p r1)
    as (r2 & out1 & p1 & Hd & Hinv2 & -> & Hadv & Hdec2); [done..|].
  rewrite Hd. cbn.
  assert (r_produced r2 = r_produced r + zlen out1) as Hprod.
  { destruct Hinv as [_ -> _], Hinv2 as [_ -> _]. rewrite (adv_raw _ _ _ _ Hadv), zlen_app.
    done. }
  destruct (IH (zdrop want c) p1 r2) as (r3 & out2 & p2 & Hl & Hinv3 & -> & Hadv3 & Hdec3); try done.
  { rewrite zlen_app in Hfit. lia. }
  { rewrite zlen_zdrop by lia. lia. }
  rewrite zlen_zdrop in Hl by lia. exists r3, (out1 ++ out2), p2.
  split_and!; [done|done|by rewrite app_assoc| |done].
  destruct Hadv as [A1 A2 A3], Hadv3 as [B1 B2 B3]. constructor.
  - rewrite B1, A1, app_nil_r. cbn. by rewrite <- app_assoc, ztake_zdrop.
  - by rewrite B2, A2, <- app_assoc.
  - by rewrite B3, A3, <- app_assoc.
Qed.

(** Reading a segment that lies anywhere in a file. *)
Lemma iter_uncompressed_decodes seg c p pre post total max_ratio :
  offset seg = zlen pre -> compressed_size seg = zlen c ->
  uncompressed_size seg = zlen p -> compression seg = COMPRESSION_ZLIB ->
  compressed_sha256 seg = sha256_hex c -> uncompressed_sha256 seg = sha256_hex p ->
  decodes decompressobj c p -> end_offset seg <= total ->
  _check_ratio seg max_ratio = Ok tt ->
  exists chunks, iter_uncompressed (pre ++ c ++ post) total max_ratio seg = (Ok tt, chunks)
                 /\ concat chunks = p.
Proof.
  intros Ho Hc Hu Hz Hsc Hsu Hdec Hend Hr. unfold iter_uncompressed.
  pose proof (zlen_nonneg pre). pose proof (zlen_nonneg c). pose proof (zlen_nonneg p).
  unfold mbind, stm_bind, stm_lift, ensure.
  rewrite (proj2 (Z.leb_le 0 total)) by (unfold end_offset in *; lia).
  rewrite (proj2 (Z.leb_le (end_offset seg) total)) by lia.
  rewrite Hr, Hz, String.eqb_refl, Nat.add_succ_r. cbn iota beta.
  rewrite zdrop_app_length, Hc by done.
  match goal with |- context [read_loop _ _ _ _ _ ?r] => set (r0 := r) end.
  assert (read_inv (uncompressed_size seg) r0) as Hr0 by (constructor; cbn; done || lia).
  destruct (read_loop_decodes (Z.to_nat (zlen c)) (Z.to_nat (uncompressed_size seg) + 1)
              (uncompressed_size seg) c post p r0)
    as (r1 & out & p' & Hl & Hinv & -> & [A1 A2 A3] & Hd); [done|done|cbn; lia|lia|].
  rewrite Hl. destruct Hinv as [I1 I2 I3]. cbn in A1, A2, A3.
  destruct (decodes_end _ _ Hd) as (d' & Hfl & Heof & Hun). unfold read_tail. rewrite Hfl. cbn.
  rewrite I2, A2, <- zlen_app, Hu, Z.eqb_refl. cbn. unfold mbind, stm_bind, stm_get.
  match goal with |- context [yield_chunk p' ?r2] =>
    destruct (yield_chunk_inv (uncompressed_size seg) p' r2)
      as (r' & Hy & Hi & Hyi & Hra & Hpr & Hde & Hco); cbn in *;
      [congruence|by rewrite zlen_app|lia|] end.
  rewrite Hy, Heof, Hun, bool_decide_eq_true_2 by done. cbn.
  rewrite Hra, Hco, A1, Hsc, Hsu, !String.eqb_refl. cbn. eexists. split; [done|].
  by rewrite <- (ri_hash _ _ Hi), Hra.
Qed.
End RoundTrip.

(** One table of an archive: its name, columns, COPY chunks and row count. *)
Definition job : Type := string * list string * list bytes * Z.
Definition job_chunks (j : job) : list bytes := let '(_, _, chunks, _) := j in chunks.

Section Archive.
Context `{ZL : Zlib} `{SH : Sha256} `{SK : Sink}.
Context {SKL : SinkLaws (SK := SK)} {SKP : SinkProgress (SK := SK)}.
Context {SHL : Sha256Laws (SH := SH)} {ZLL : ZlibLaws (ZL := ZL)}.

Fixpoint write_all (jobs : list job) : wm (list CopySegment) :=
  match jobs with
  | [] => mret []
  | (t, cols, chunks, rc) :: rest =>
      seg ← write_segment t cols chunks rc;
      segs ← write_all rest;
      mret (seg :: segs)
  end.

Definition job_ok (j : job) : Prop := let '(t, cols, _, rc) := j in write_args_ok t cols rc.

(** Between two segments: nothing open, and [written] counts the file. *)
Record writer_idle (w : SegmentWriter) : Prop := {
  idle_closed : w_closed w = false;
  idle_open : w_open w = None;
  idle_written : w_written w = zlen (contents w);
}.

(** The read side of one job: its segment, found at its offset in a file. *)
Definition reads_back (file : bytes) (total max_ratio : Z) (seg : CopySegment) (j : job) : Prop :=
  exists chunks, iter_uncompressed file total max_ratio seg = (Ok tt, chunks) /\
    concat chunks = concat (job_chunks j).

Lemma written_segment_reads t cols pre chunks rc post total max_ratio :
  let seg := written_segment t cols (zlen pre) chunks rc in
  end_offset seg <= total -> _check_ratio seg max_ratio = Ok tt ->
  reads_back (pre ++ segment_bytes chunks ++ post) total max_ratio seg (t, cols, chunks, rc).
Proof.
  intros seg Hend Hr.
  assert (concat chunks = concat (filter (.≠ []) chunks)) as Hcc.
  { clear. induction chunks as [|ch chunks IH]; [done|]. rewrite filter_cons. cbn.
    case_decide as Hn; cbn; [by rewrite IH|]. by rewrite Hn. }
  eapply iter_uncompressed_decodes; try done. cbn [job_chunks].
  rewrite Hcc at 1. apply decodes_deflate.
Qed.

Lemma write_all_spec jobs w :
  Forall job_ok jobs -> writer_idle w ->
  exists segs w' c, write_all jobs w = (Ok segs, w') /\ writer_idle w' /\
    contents w' = contents w ++ c /\
    tiles (w_written w) segs (w_written w') /\
    Forall (fun s => 0 <= uncompressed_size s) segs /\
    forall post total max_ratio, w_written w' <= total ->
      Forall (fun s => _check_ratio s max_ratio = Ok tt) segs ->
      Forall2 (reads_back (contents w' ++ post) total max_ratio) segs jobs.
Proof.
  revert w; induction jobs as [|[[[t cols] chunks] rc] jobs IH]; intros w Hok Hidle.
  { exists [], w, []. rewrite app_nil_r. split_and!; done. }
  apply Forall_cons in Hok as [Hj Hok]. destruct Hidle as [H1 H2 H3].
  destruct (write_segment_spec t cols chunks rc w) as (sk & Hw & Hsk); [done..| |].
  { rewrite H3. apply zlen_nonneg. }
  set (seg := written_segment t cols (w_written w) chunks rc) in *.
  set (w1 := mkWriter sk _ false None) in Hw.
  assert (writer_idle w1) as Hidle1.
  { constructor; [done..|]. unfold contents in H3 |- *. unfold w1. cbn. by rewrite Hsk, zlen_app, H3. }
  destruct (IH w1 Hok Hidle1) as (segs & w' & c & Hws & Hidle' & Hc & Ht & Hnn & Hread).
  exists (seg :: segs), w', (segment_bytes chunks ++ c). cbn [write_all].
  unfold mbind, stm_bind. rewrite Hw, Hws. split_and!; try done.
  - rewrite Hc. unfold contents at 1. cbn. by rewrite Hsk, <- app_assoc.
  - pose proof (zlen_nonneg (segment_bytes chunks)). unfold seg. cbn [tiles].
    unfold end_offset. cbn. split_and!; done || lia.
  - constructor; [apply zlen_nonneg|done].
  - intros post total mr Htot [Hr Hrs]%Forall_cons. constructor; [|by apply Hread].
    rewrite Hc. unfold contents at 1. cbn. rewrite Hsk, <- !app_assoc.
    subst seg. rewrite H3. apply written_segment_reads; [|by rewrite <- H3].
    apply tiles_le in Ht. unfold w1 in Ht. cbn in Ht. unfold end_offset. cbn. lia.
Qed.

(** C3: an archive written table by table is accepted by the layout check
    and reads back.  From an empty sink, writing any list of tables with
    valid names succeeds; [data.copy] then has exactly the counted length,
    and if every segment respects the ratio cap and the archive the
    budget, [validate_segment_layout] accepts the segments and reading the
    i-th segment yields, in some chunking, the i-th table's COPY bytes. *)
Theorem archive_roundtrip jobs sk max_total max_ratio :
  sink_contents sk = [] -> Forall job_ok jobs ->
  exists segs w', write_all jobs (new_writer sk) = (Ok segs, w') /\
    let file := contents w' in
    w_written w' = zlen file /\
    (Forall (fun s => _check_ratio s max_ratio = Ok tt) segs ->
     total_plain segs <= max_total ->
     validate_segment_layout segs (zlen file) max_total max_ratio = Ok segs /\
     Forall2 (reads_back file (zlen file) max_ratio) segs jobs).
Proof.
  intros Hsk Hjobs.
  assert (writer_idle (new_writer sk)) as Hidle.
  { constructor; try done. unfold contents. cbn. by rewrite Hsk. }
  destruct (write_all_spec jobs _ Hjobs Hidle) as (segs & w' & c & Hw & Hidle' & _ & Ht & Hnn & Hread).
  exists segs, w'. split; [done|]. destruct Hidle' as [_ _ Hlen]. split; [done|].
  intros Hr Hmt. split.
  - unfold validate_segment_layout. rewrite <- Hlen.
    rewrite (layout_fold_complete _ _ _ _ _ _ _ Ht); [|lia| |lia].
    + cbn. by rewrite Z.eqb_refl.
    + apply Forall_forall. rewrite Forall_forall in Hnn, Hr. naive_solver.
  - specialize (Hread [] (zlen (contents w')) max_ratio). rewrite app_nil_r in Hread.
    apply Hread; [lia|done].
Qed.
End Archive.

(** ** Export and import *)
Lemma digits_value_nonneg s acc z : 0 <= acc -> digits_value acc s = Some z -> 0 <= z.
Proof.
  revert acc; induction s as [|c s IH]; intros acc Hacc; cbn; [by intros [= <-]|].
  destruct (is_ascii_digit c) eqn:Hd; [|done]. apply IH.
  unfold is_ascii_digit, in_range in Hd. bool_to_prop.
  apply N.leb_le in H. lia.
Qed.

Lemma parse_copy_row_count_nonneg v z : parse_copy_row_count v = Ok z -> 0 <= z.
Proof.
  unfold parse_copy_row_count. repeat case_match; try done. intros [= <-].
  unfold int_of_digits in *. case_match; [done|]. by eapply digits_value_nonneg.
Qed.

Section TransferFacts.
Context `{ZL : Zlib} `{SH : Sha256} `{SK : Sink} `{PG : PgCopy}.

(** An import that succeeds handed PostgreSQL exactly the recorded
    data: the chunks given to COPY have the recorded size and SHA-256 and
    the reported row count is the recorded one.  When verification fails
    the COPY is failed with the verification's own error. *)
Theorem import_verified conn file total max_ratio seg schema :
  0 <= uncompressed_size seg ->
  (forall conn', import_table_segment conn file total max_ratio seg schema = (Ok tt, conn') ->
   exists chunks tag,
     copy_to_table conn schema (table seg) (columns seg) chunks = (Ok tag, conn') /\
     parse_copy_row_count tag = Ok (row_count seg) /\
     zlen (concat chunks) = uncompressed_size seg /\
     sha256_hex (concat chunks) = uncompressed_sha256 seg) /\
  (forall e, _validate_identifier (PStr schema) "schema" = Ok schema ->
   (iter_uncompressed file total max_ratio seg).1 = Err e ->
   import_table_segment conn file total max_ratio seg schema = (Err e, copy_fail conn)).
Proof.
  intros Hu. unfold import_table_segment. split.
  - intros conn'. destruct (_validate_identifier _ _); [|done].
    destruct (iter_uncompressed _ _ _ _) as [[[]|e] chunks] eqn:Hit; [|done].
    destruct (copy_to_table _ _ _ _ _) as [status conn1] eqn:Hcopy.
    intros [= H <-]. bind_ok H as tag Htag. bind_ok H as n Hn. subst status.
    destruct (_ =? _) eqn:Heq; [|done]. apply Z.eqb_eq in Heq as ->.
    apply iter_uncompressed_bomb_guard in Hit as [_ Hok]; [|done].
    destruct (Hok eq_refl). by exists chunks, tag.
  - intros e Hs Hit. rewrite Hs. destruct (iter_uncompressed _ _ _ _) as [r chunks].
    cbn in Hit. by subst r.
Qed.

Context {SKL : SinkLaws (SK := SK)} {SKP : SinkProgress (SK := SK)}.
Context {SHL : Sha256Laws (SH := SH)} {ZLL : ZlibLaws (ZL := ZL)}.

(** A successful export is [write_segment] on the driver's chunks. *)
Lemma export_ok conn schema t cols w seg w' :
  export_table_segment conn schema t cols w = (Ok seg, w') ->
  let '(chunks, status) := copy_from_query conn (export_query schema t cols) in
  exists tag, status = Ok tag /\ parse_copy_row_count tag = Ok (row_count seg) /\
    write_segment t cols chunks (row_count seg) w = (Ok seg, w').
Proof.
  unfold export_table_segment. intros H.
  sbind_ok H as ? w1 Hs. injection Hs as Hs <-. sbind_ok H as ? w1 Ht. injection Ht as Ht <-.
  sbind_ok H as ? w1 Hc. injection Hc as Hc <-. sbind_ok H as cols' w1 Hcs. injection Hcs as Hcs <-.
  assert (cols' = cols) as ->.
  { apply map_result_ok in Hcs. clear -Hcs. induction Hcs as [|c c' l l' Hc _ IH]; [done|].
    apply validate_identifier_ok in Hc as [[= ->] _]. by rewrite IH. }
  sbind_ok H as [] w2 Hb. destruct (copy_from_query _ _) as [chunks status].
  sbind_ok H as [] w3 Hf. sbind_ok H as tag w4 Htag. injection Htag as -> <-.
  sbind_ok H as n w5 Hn. injection Hn as Hn <-. exists tag.
  assert (write_segment t cols chunks n w = (Ok seg, w')) as Hw.
  { unfold write_segment, mbind, stm_bind. by rewrite Hb, Hf. }
  enough (row_count seg = n) as -> by done.
  clear -H. unfold finish in H. destruct (w_open w3); [|done]. destruct (o_done o); [done|].
  sbind_ok H as ? ? H1. sbind_ok H as ? ? H2. sbind_ok H as ? ? H3.
  injection H as H _. apply init_wf in H. naive_solver.
Qed.

(** A table exported from one database and imported into another: the
    import succeeds, and what it hands to COPY is, up to chunking, what the
    source database sent, provided the target reports the source's row
    count for that data. *)
Theorem export_import_roundtrip conn1 conn2 schema1 schema2 t cols w seg w' chunks status
    post total max_ratio :
  writer_idle w ->
  export_table_segment conn1 schema1 t cols w = (Ok seg, w') ->
  copy_from_query conn1 (export_query schema1 t cols) = (chunks, status) ->
  w_written w' <= total -> _check_ratio seg max_ratio = Ok tt ->
  _validate_identifier (PStr schema2) "schema" = Ok schema2 ->
  (forall chunks', concat chunks' = concat chunks ->
     (copy_to_table conn2 schema2 t cols chunks').1 = status) ->
  exists chunks', concat chunks' = concat chunks /\
    import_table_segment conn2 (contents w' ++ post) total max_ratio seg schema2
    = (Ok tt, (copy_to_table conn2 schema2 t cols chunks').2).
Proof.
  intros [H1 H2 H3] Hexp Hq Htot Hr Hs2 Hstatus. apply export_ok in Hexp. rewrite Hq in Hexp.
  destruct Hexp as (tag & -> & Htag & Hw).
  pose proof (write_segment_args _ _ _ _ _ _ _ Hw) as Hargs.
  assert (0 <= w_written w) as Hnn by (rewrite H3; apply zlen_nonneg).
  destruct (write_segment_spec t cols chunks (row_count seg) w) as (sk & Hws & Hsk); [done..|].
  rewrite Hw in Hws. injection Hws as Hseg Hw'. rewrite H3 in Hseg.
  destruct (written_segment_reads t cols (contents w) chunks (row_count seg) post total max_ratio)
    as (chunks' & Hit & Hcc).
  { unfold end_offset. cbn. rewrite Hw' in Htot. cbn in Htot. lia. }
  { by rewrite <- Hseg. }
  rewrite <- Hseg in Hit. exists chunks'. split; [done|].
  unfold import_table_segment. rewrite Hs2. rewrite Hw'. unfold contents at 1. cbn.
  rewrite Hsk, <- app_assoc, Hit.
  assert (table seg = t /\ columns seg = cols) as [-> ->] by by rewrite Hseg.
  specialize (Hstatus _ Hcc). destruct (copy_to_table _ _ _ _ _) as [st conn']. cbn in Hstatus |- *.
  subst st. cbn. rewrite Htag. cbn. by rewrite Z.eqb_refl.
Qed.
End TransferFacts.

(** * Concrete parameters

    A stored codec (every byte preceded by a marker, one terminator at the
    end), a checksum in place of the hash, a sink that takes at most three
    bytes per call and a database that answers with a fixed table: the laws
    above hold together, and the theorems apply to them. *)
Module Stored.
Definition more : Byte.byte := x01.
Definition stop : Byte.byte := x00.

Record dst : Type := mkDst { ended : bool; pending_byte : bool; left : bytes; extra : bytes }.

Fixpoint enc (p : bytes) : bytes :=
  match p with [] => [] | b :: p' => more :: b :: enc p' end.

(** Decode [data] producing at most [n] bytes. *)
Fixpoint unstore (fin half : bool) (data : bytes) (n : Z) : option (dst * bytes) :=
  match data with
  | [] => Some (mkDst fin half [] [], [])
  | b :: rest =>
      if fin then Some (mkDst true half [] data, [])
      else if half then
        if n <=? 0 then Some (mkDst fin half data [], [])
        else match unstore false false rest (n - 1) with
             | Some (d, out) => Some (d, b :: out)
             | None => None
             end
      else match b with
           | x00 => unstore true false rest n
           | x01 => unstore false true rest n
           | _ => None
           end
  end.

#[export] Instance zlib : Zlib := {|
  cstate := unit;
  dstate := dst;
  compressobj _ := tt;
  compress _ data := (tt, enc data);
  cflush _ := [stop];
  decompressobj := mkDst false false [] [];
  decompress d data n := unstore (ended d) (pending_byte d) data n;
  unconsumed_tail := left;
  dflush d := Some (d, []);
  eof := ended;
  unused_data := extra;
|}.

Lemma enc_app p q : enc (p ++ q) = enc p ++ enc q.
Proof. induction p as [|b p IH]; [done|]. cbn. by rewrite IH. Qed.

Lemma deflate_enc c chunks : deflate_from c chunks = enc (concat chunks) ++ [stop].
Proof.
  induction chunks as [|ch chunks IH] in c |- *; [done|]. cbn.
  by rewrite IH, enc_app, app_assoc.
Qed.

(** The remaining input [c] of state [d] encodes [p]. *)
Definition rest_of (fin half : bool) (c p : bytes) : Prop :=
  if fin then c = [] /\ p = []
  else if half then exists b p', p = b :: p' /\ c = b :: enc p' ++ [stop]
  else c = enc p ++ [stop].

Lemma unstore_rest a c p fin half n :
  rest_of fin half (a ++ c) p -> zlen p < n ->
  exists d' out p', unstore fin half a n = Some (d', out) /\ p = out ++ p' /\
    left d' = [] /\ extra d' = [] /\ rest_of (ended d') (pending_byte d') c p'.
Proof.
  revert fin half p n; induction a as [|x a IH]; intros fin half p n Hr Hn.
  { eexists _, [], p. cbn. done. }
  cbn [unstore]. destruct fin; [destruct Hr as [? _]; done|].
  destruct half; cbn in Hr.
  - destruct Hr as (b & p' & -> & Hc). cbn in Hc. injection Hc as -> Hc.
    rewrite zlen_cons in Hn. pose proof (zlen_nonneg p').
    rewrite (proj2 (Z.leb_gt n 0)) by lia.
    destruct (IH false false p' (n - 1)) as (d' & out & p2 & -> & -> & Hd); [done|lia|].
    by eexists d', (b :: out), p2.
  - destruct p as [|b p]; cbn in Hr.
    + injection Hr as -> Hac. apply app_eq_nil in Hac as [-> ->].
      eexists _, [], []. cbn. done.
    + injection Hr as -> Hac. cbn. apply (IH false true (b :: p)); [|done]. by exists b, p.
Qed.

#[export] Instance laws : ZlibLaws (ZL := zlib).
Proof.
  refine {| decodes d c p := left d = [] /\ extra d = [] /\ rest_of (ended d) (pending_byte d) c p;
            decodes_deflate := _; decodes_step := _; decodes_end := _ |}.
  - intros level chunks. cbn. rewrite deflate_enc. done.
  - intros d a c p n (_ & _ & Hr) Hn.
    destruct (unstore_rest a c p _ _ n Hr Hn) as (d' & out & p' & H). cbn. exists d', out, p'. naive_solver.
  - intros d p (_ & He & Hr). exists d. cbn.
    destruct d as [[] [] l e]; cbn in *.
    1, 2: by destruct Hr as [_ ->].
    + by destruct Hr as (b & p' & _ & ?).
    + by destruct p.
Defined.

#[export] Instance bounded : ZlibBounded (ZL := zlib).
Proof.
  intros d a n d' out Hd Hn. cbn in *.
  enough (0 <= n -> zlen out <= n /\ (left d' <> [] -> zlen out = n)) by (apply H; lia).
  clear Hn. revert Hd. generalize (ended d) (pending_byte d). intros fin half.
  revert fin half n out; induction a as [|x a IH]; intros fin half n out Hd Hn; cbn in Hd.
  { injection Hd as <- <-. cbn. by rewrite zlen_nil. }
  destruct fin; [injection Hd as <- <-; cbn; by rewrite zlen_nil|].
  destruct half.
  - destruct (n <=? 0) eqn:Hle; bool_to_prop.
    + injection Hd as <- <-. rewrite zlen_nil. lia.
    + destruct (unstore _ _ _ _) as [[d1 out1]|] eqn:Hu; [|done].
      injection Hd as <- <-. apply IH in Hu as [H1 H2]; [|lia]. rewrite zlen_cons.
      split; [lia|]. intros Hl. specialize (H2 Hl). lia.
  - destruct x; try done; by eapply IH.
Qed.

(** A 64-digit stand-in for the hash. *)
Definition hex_digit (n : Z) : ascii :=
  ascii_of_N (Z.to_N (if n <? 10 then 48 + n else 87 + n)).
Definition checksum (b : bytes) : Z :=
  fold_right (fun x acc => (Z.of_N (Byte.to_N x) + 31 * acc + 7) mod 16) 0 b.
Fixpoint repeat_char (n : nat) (c : ascii) : string :=
  match n with O => EmptyString | S n' => String c (repeat_char n' c) end.
#[export] Instance sha : Sha256 := fun b => repeat_char 64 (hex_digit (checksum b)).

#[export] Instance sha_laws : Sha256Laws (SH := sha).
Proof.
  intros b. unfold sha256_hex, sha.
  assert (0 <= checksum b < 16) as Hc.
  { destruct b; cbn [checksum fold_right]; [lia|]. apply Z.mod_pos_bound. lia. }
  assert (exists k, checksum b = Z.of_nat k /\ (k < 16)%nat) as (k & -> & Hk).
  { exists (Z.to_nat (checksum b)). lia. }
  clear Hc. do 16 (destruct k as [|k]; [reflexivity|]). lia.
Qed.

#[export] Instance dribble : Sink := {|
  sink := bytes;
  sink_write s v := (Some (Z.min 3 (zlen v)), s ++ ztake (Z.min 3 (zlen v)) v);
|}.
#[export] Instance dribble_laws : SinkLaws (SK := dribble).
Proof.
  refine {| sink_contents := fun s : @sink dribble => s; sink_write_all := _; sink_write_some := _ |}.
  - done.
  - intros s v k s' [= <- <-]. pose proof (zlen_nonneg v). split; [lia|done].
Defined.
#[export] Instance dribble_progress : SinkProgress (SK := dribble).
Proof.
  intros s v s' Hv [= H _]. apply Hv, zlen_zero. lia.
Qed.

(** Two rows sent in two chunks. *)
Definition rows : list bytes := [[x61; x09; x62; x0a]; [x63; x09; x64; x0a]].
#[export] Instance pg : PgCopy := {|
  pgconn := list bytes;
  copy_from_query _ _ := (rows, Ok (PStr "COPY 2"));
  copy_to_table conn _ _ _ chunks := (Ok (PStr "COPY 2"), conn ++ chunks);
  copy_fail conn := conn;
|}.

Definition sk0 : sink := [].
Definition w0 : SegmentWriter := new_writer sk0.
Definition jobs : list job :=
  [("posts", ["id"; "title"], rows, 2); ("tags", ["id"], [[x61; x0a]], 1)].
Definition exported : result copy_error CopySegment * SegmentWriter :=
  export_table_segment [] "public" "posts" ["id"; "title"] w0.
Definition seg : CopySegment :=
  written_segment "posts" ["id"; "title"] 0 rows 2.
End Stored.
#[local] Existing Instances Stored.zlib Stored.laws Stored.bounded Stored.sha Stored.sha_laws
  Stored.dribble Stored.dribble_laws Stored.dribble_progress Stored.pg.

Lemma archive_roundtrip_witness :
  exists segs w', write_all Stored.jobs Stored.w0 = (Ok segs, w') /\ length segs = 2%nat /\
    validate_segment_layout segs (zlen (contents w')) 1000 200 = Ok segs /\
    Forall2 (reads_back (contents w') (zlen (contents w')) 200) segs Stored.jobs.
Proof.
  destruct (archive_roundtrip Stored.jobs Stored.sk0 1000 200) as (segs & w' & Hw & _ & H).
  - reflexivity.
  - repeat constructor; cbn; try (intros ?; discriminate); try lia; set_solver.
  - assert (Ok segs = (write_all Stored.jobs (new_writer Stored.sk0)).1) as Hs by (by rewrite Hw).
    vm_compute in Hs. injection Hs as Hs.
    exists segs, w'. rewrite Hs in H |- *.
    destruct H as [H1 H2]; [repeat constructor|vm_compute; discriminate|].
    split_and!; [by rewrite <- Hs|reflexivity|exact H1|exact H2].
Defined.

Lemma accepted_layout_exact_cover_witness :
  exists i s, [Stored.seg] !! i = Some s /\ covers s 5 /\
    forall j s', [Stored.seg] !! j = Some s' -> covers s' 5 -> j = i.
Proof.
  apply (accepted_layout_exact_cover [Stored.seg] 17 100 200 [Stored.seg]).
  - vm_compute. reflexivity.
  - lia.
Defined.

Lemma iter_uncompressed_bomb_guard_witness :
  zlen (concat [concat Stored.rows]) <= uncompressed_size Stored.seg /\
  (Ok (E:=copy_error) tt = Ok tt -> zlen (concat [concat Stored.rows]) = uncompressed_size Stored.seg /\
     sha256_hex (concat [concat Stored.rows]) = uncompressed_sha256 Stored.seg).
Proof.
  apply (iter_uncompressed_bomb_guard (contents Stored.exported.2) 17 200 Stored.seg (Ok tt)
           [concat Stored.rows]).
  - vm_compute. discriminate.
  - vm_compute. reflexivity.
Defined.

Lemma iter_uncompressed_terminates_witness :
  (iter_uncompressed (contents Stored.exported.2) 17 200 Stored.seg).1 <> Err OutOfFuel.
Proof. apply iter_uncompressed_terminates. vm_compute. discriminate. Defined.

Lemma import_verified_witness :
  exists chunks tag,
    copy_to_table [] "public" "posts" ["id"; "title"] chunks = (Ok tag, [concat Stored.rows]) /\
    parse_copy_row_count tag = Ok 2 /\ zlen (concat chunks) = 8 /\
    sha256_hex (concat chunks) = uncompressed_sha256 Stored.seg.
Proof.
  destruct (import_verified (PG := Stored.pg) [] (contents Stored.exported.2) 17 200 Stored.seg "public") as [H _].
  - vm_compute. discriminate.
  - apply (H [concat Stored.rows]). vm_compute. reflexivity.
Defined.

Lemma export_import_roundtrip_witness :
  exists chunks', concat chunks' = concat Stored.rows /\
    import_table_segment (PG := Stored.pg) [] (contents Stored.exported.2 ++ []) 17 200 Stored.seg "public"
    = (Ok tt, ([] : list bytes) ++ chunks').
Proof.
  apply (export_import_roundtrip (PG := Stored.pg) [] [] "public" "public" "posts" ["id"; "title"]
           Stored.w0 Stored.seg Stored.exported.2 Stored.rows (Ok (PStr "COPY 2"))).
  - constructor; reflexivity.
  - vm_compute. reflexivity.
  - reflexivity.
  - vm_compute. discriminate.
  - reflexivity.
  - reflexivity.
  - reflexivity.
Defined.
