(* ===== verification/RateLimit.v ===== *)
(** * Sliding-window rate limiting (ppbase/middleware/rate_limit.py)

    The configuration parsed from the settings row, the client identifier,
    the settings cache and the whole of [dispatch].  Clock readings are
    integers in nanoseconds, the resolution of the monotonic clock; the
    rounding of the float that carries them is not modelled.  The settings
    row and the downstream handler are parameters of a request. *)
From Stdlib Require Import Ascii String.
From S2P Require Import Prelude PyText PyVal.
#[local] Open Scope string_scope.
#[local] Open Scope list_scope.
#[local] Open Scope Z_scope.

(** ** Configuration *)
Record RateLimitConfig : Type := mkConfig {
  enabled : bool;
  max_requests : Z;
  window_seconds : Z;
}.

Definition _to_positive_int (value : pyval) (dflt : Z) : Z :=
  match py_int value with
  | None => dflt
  | Some parsed => if parsed <=? 0 then dflt else parsed
  end.

(** [d.get(key)] with Python's default. *)
Definition get (d : list (string * pyval)) (key : string) (dflt : pyval) : pyval :=
  default dflt (dict_get key d).

Definition _extract_rate_limit_config (settings_value : list (string * pyval)) : RateLimitConfig :=
  match get settings_value "rateLimiting" PNone with
  | PDict direct =>
      mkConfig (truthy (get direct "enabled" (PBool false)))
        (_to_positive_int (get direct "maxRequests" PNone) 1000)
        (_to_positive_int (get direct "window" PNone) 60)
  | _ =>
      match get settings_value "rateLimits" PNone with
      | PDict legacy =>
          let enabled := truthy (get legacy "enabled" (PBool false)) in
          let '(max_requests, window_seconds) :=
            match get legacy "rules" PNone with
            | PList (PDict first :: _) =>
                (_to_positive_int (get first "maxRequests" PNone) 1000,
                 _to_positive_int (get first "window" (get first "duration" PNone)) 60)
            | _ => (1000, 60)
            end in
          mkConfig enabled max_requests window_seconds
      | _ => mkConfig false 1000 60
      end
  end.

(** ** Requests *)

(** What the middleware reads of a request.  Header names are looked up in
    lower case. *)
Record Request : Type := mkRequest {
  path : string;
  headers : list (string * string);
  client_host : option string;
}.

Section Identifier.
Context `{FloatText}.

(** The loop over the configured proxy headers. *)
Fixpoint proxy_identifier (request : Request) (use_leftmost : bool) (raw_headers : list pyval)
  : option string :=
  match raw_headers with
  | [] => None
  | header_name :: rest =>
      let header := py_lower (py_strip (if truthy header_name then py_str header_name else "")) in
      if String.eqb header "" then proxy_identifier request use_leftmost rest else
      let value := default "" (dict_get header (headers request)) in
      if String.eqb value "" then proxy_identifier request use_leftmost rest else
      match filter (fun p => p <> "") (py_strip <$> split_on (ascii_of_N 44) value) with
      | [] => proxy_identifier request use_leftmost rest
      | ip :: ips => Some (if use_leftmost then ip else List.last (ip :: ips) ip)
      end
  end.

Definition _resolve_client_identifier (request : Request) (settings_value : list (string * pyval))
  : string :=
  let fallback :=
    match client_host request with
    | Some host => if String.eqb host "" then "unknown" else host
    | None => "unknown"
    end in
  match get settings_value "trustedProxy" PNone with
  | PDict trusted_proxy =>
      let use_leftmost := truthy (get trusted_proxy "useLeftmostIP" (PBool false)) in
      match get trusted_proxy "headers" PNone with
      | PList raw_headers =>
          default fallback (proxy_identifier request use_leftmost raw_headers)
      | _ => fallback
      end
  | _ => fallback
  end.
End Identifier.

(** ** The middleware *)
Definition SECOND : Z := 10 ^ 9.
Definition _CACHE_TTL : Z := 2 * SECOND.
Definition _SKIP_PREFIXES : list string := ["/api/health"; "/api/realtime"].

Record RateLimitMiddleware : Type := mkMiddleware {
  _hits : gmap string (list Z);     (* each deque, leftmost first *)
  _cache_expires_at : Z;
  _cache_version : Z;
  _cached_settings : list (string * pyval);
  _cached_config : RateLimitConfig;
}.

Definition init : RateLimitMiddleware := mkMiddleware ∅ 0 (-1) [] (mkConfig false 1000 60).

(** [_load_settings_and_config] at time [now]: [row] is the first row of the
    settings query, [None] when the query raises. *)
Definition _load_settings_and_config (now current_version : Z) (row : option pyval)
    (m : RateLimitMiddleware) : (list (string * pyval) * RateLimitConfig) * RateLimitMiddleware :=
  let m :=
    if current_version =? _cache_version m then m
    else mkMiddleware (_hits m) 0 current_version (_cached_settings m) (_cached_config m) in
  if now <? _cache_expires_at m then ((_cached_settings m, _cached_config m), m)
  else
    let settings_value := match row with Some (PDict d) => d | _ => [] end in
    let config := _extract_rate_limit_config settings_value in
    ((settings_value, config),
     mkMiddleware (_hits m) (now + _CACHE_TTL) (_cache_version m) settings_value config).

(** [while bucket and bucket[0] <= window_start: bucket.popleft()] *)
Fixpoint prune (window_start : Z) (bucket : list Z) : list Z :=
  match bucket with
  | t :: rest => if t <=? window_start then prune window_start rest else bucket
  | [] => []
  end.

Inductive decision : Type :=
| Forward                                       (* not subject to the limit *)
| Accepted (limit remaining reset_after : Z)    (* forwarded, with these headers *)
| TooMany (limit retry_after : Z).              (* 429 *)

(** [bucket[0]], where the code has checked or ensured it is not empty. *)
Definition head0 (bucket : list Z) : Z := List.hd 0 bucket.

(** The critical section under [self._lock]. *)
Definition admission (config : RateLimitConfig) (identifier : string) (now : Z)
    (hits : gmap string (list Z)) : decision * gmap string (list Z) :=
  let bucket := default [] (hits !! identifier) in
  let window := window_seconds config * SECOND in
  let bucket := prune (now - window) bucket in
  if max_requests config <=? zlen bucket then
    (TooMany (max_requests config) (Z.max 1 (Z.quot (head0 bucket + window - now) SECOND)),
     <[identifier := bucket]> hits)
  else
    let bucket := bucket ++ [now] in
    (Accepted (max_requests config) (Z.max 0 (max_requests config - zlen bucket))
       (Z.max 0 (Z.quot (head0 bucket + window - now) SECOND)),
     <[identifier := bucket]> hits).

Definition limited (path : string) : bool :=
  starts_with "/api" path && negb (existsb (fun p => starts_with p path) _SKIP_PREFIXES).

(** [dispatch]: [load_now] and [now] are its two clock readings. *)
Definition dispatch `{FloatText} (request : Request) (load_now now current_version : Z)
    (row : option pyval) (m : RateLimitMiddleware) : decision * RateLimitMiddleware :=
  if negb (limited (path request)) then (Forward, m) else
  let '((settings_value, config), m) := _load_settings_and_config load_now current_version row m in
  if negb (enabled config) then (Forward, m) else
  let identifier := _resolve_client_identifier request settings_value in
  let '(d, hits) := admission config identifier now (_hits m) in
  (d, mkMiddleware hits (_cache_expires_at m) (_cache_version m) (_cached_settings m)
        (_cached_config m)).

(** * Properties *)

(** ** Configuration *)
Definition config_ok (c : RateLimitConfig) : Prop := 0 < max_requests c /\ 0 < window_seconds c.

Lemma to_positive_int_pos v d : 0 < d -> 0 < _to_positive_int v d.
Proof. intros Hd. unfold _to_positive_int. destruct (py_int v); [case_ifs; lia|done]. Qed.

Lemma extract_config_ok settings : config_ok (_extract_rate_limit_config settings).
Proof.
  unfold _extract_rate_limit_config, config_ok.
  destruct (get settings "rateLimiting" PNone) as [| | | | | |direct].
  7: by split; apply to_positive_int_pos.
  all: destruct (get settings "rateLimits" PNone) as [| | | | | |legacy]; try by cbn.
  all: destruct (get legacy "rules" PNone) as [| | | | |[|[] rules]|]; cbn; try lia;
       by split; apply to_positive_int_pos.
Qed.

(** ** The history specification *)

(** Requests arrive as (identifier, time) pairs under one configuration. *)
Definition event : Type := string * Z.

Definition admitted (d : decision) : bool := match d with TooMany _ _ => false | _ => true end.

Fixpoint run_admit (config : RateLimitConfig) (events : list event) (hits : gmap string (list Z))
  : list decision :=
  match events with
  | [] => []
  | (identifier, now) :: rest =>
      let '(d, hits) := admission config identifier now hits in d :: run_admit config rest hits
  end.

(** The specification keeps every admitted time and counts those of the
    window that ends now. *)
Definition in_window (lo hi : Z) (t : Z) : bool := (lo <? t) && (t <=? hi).
Definition count_window (lo hi : Z) (l : list Z) : Z := zlen (List.filter (in_window lo hi) l).

Definition window (config : RateLimitConfig) : Z := window_seconds config * SECOND.

Definition spec_admits (config : RateLimitConfig) (now : Z) (history : list Z) : bool :=
  count_window (now - window config) now history <? max_requests config.

Fixpoint run_spec (config : RateLimitConfig) (events : list event)
    (history : string -> list Z) : list bool :=
  match events with
  | [] => []
  | (identifier, now) :: rest =>
      let ok := spec_admits config now (history identifier) in
      ok :: run_spec config rest
              (fun i => if ok && String.eqb i identifier then history i ++ [now] else history i)
  end.

(** Times never go back. *)
Fixpoint ordered (last : Z) (events : list event) : Prop :=
  match events with
  | [] => True
  | (_, now) :: rest => last <= now /\ ordered now rest
  end.

(** ** Simulation *)
Lemma filter_all_false {A} (p : A -> bool) l :
  Forall (fun x => p x = false) l -> List.filter p l = [].
Proof. induction 1 as [|x l Hx _ IH]; cbn; [done|]. by rewrite Hx. Qed.
Lemma filter_all_true {A} (p : A -> bool) l :
  Forall (fun x => p x = true) l -> List.filter p l = l.
Proof. induction 1 as [|x l Hx _ IH]; cbn; [done|]. by rewrite Hx, IH. Qed.

Inductive sorted_upto : Z -> list Z -> Prop :=
| sorted_nil hi : sorted_upto hi []
| sorted_snoc hi l t : sorted_upto t l -> t <= hi -> sorted_upto hi (l ++ [t]).

Lemma sorted_upto_all hi l : sorted_upto hi l -> Forall (fun t => t <= hi) l.
Proof.
  induction 1 as [|hi l t Hl IH Ht]; [done|]. apply Forall_app. split; [|by constructor].
  eapply Forall_impl; [exact IH|]. intros; cbn in *; lia.
Qed.
Lemma sorted_upto_mono hi hi' l : sorted_upto hi l -> hi <= hi' -> sorted_upto hi' l.
Proof. destruct 1; intros; constructor; [done|lia]. Qed.

(** Pruning a sorted list keeps exactly the times after the bound. *)
Lemma prune_suffix lo l :
  exists dropped, l = dropped ++ prune lo l /\ Forall (fun t => t <= lo) dropped.
Proof.
  induction l as [|t l (dropped & IH & Hd)]; cbn.
  { by exists []. }
  destruct (t <=? lo) eqn:Ht; bool_to_prop.
  - exists (t :: dropped). cbn. split; [by f_equal|by constructor].
  - by exists [].
Qed.

Lemma sorted_first hi t l : sorted_upto hi (t :: l) -> Forall (fun x => t <= x) l /\ t <= hi.
Proof.
  remember (t :: l) as tl. intros H; revert t l Heqtl; induction H as [|hi l1 x Hl IH Hx]; [done|].
  intros t l Heq. destruct l1 as [|t1 l1]; cbn in Heq; injection Heq as -> <-.
  - by split.
  - destruct (IH t l1 eq_refl) as [Hall Hle]. split; [|lia].
    apply Forall_app. by split; [|by constructor].
Qed.

Lemma sorted_tail hi t l : sorted_upto hi (t :: l) -> sorted_upto hi l.
Proof.
  remember (t :: l) as tl. intros H; revert t l Heqtl; induction H as [|hi l1 x Hl IH Hx]; [done|].
  intros t l Heq. destruct l1 as [|t1 l1]; cbn in Heq; injection Heq as -> <-; constructor; eauto.
Qed.

Lemma prune_window lo hi l :
  sorted_upto hi l -> prune lo l = List.filter (in_window lo hi) l.
Proof.
  induction l as [|t l IH]; intros Hs; [done|]. cbn.
  pose proof (sorted_upto_all _ _ Hs) as Hall. apply Forall_cons in Hall as [Ht Hall].
  unfold in_window at 1. rewrite (proj2 (Z.leb_le t hi)), andb_true_r by lia.
  destruct (t <=? lo) eqn:Hlo; bool_to_prop.
  - rewrite (proj2 (Z.ltb_ge lo t)) by lia. apply IH. by eapply sorted_tail.
  - rewrite (proj2 (Z.ltb_lt lo t)) by lia. rewrite filter_all_true; [done|].
    apply sorted_first in Hs as [Hge _]. apply Forall_forall. intros x Hx.
    rewrite Forall_forall in Hge, Hall. specialize (Hge _ Hx). specialize (Hall _ Hx).
    unfold in_window. apply andb_true_iff. rewrite Z.ltb_lt, Z.leb_le. lia.
Qed.

(** Buckets against histories at time [now]: a bucket is its history less
    some times that no later window contains. *)
Definition simulates (config : RateLimitConfig) (now : Z) (hits : gmap string (list Z))
    (history : string -> list Z) : Prop :=
  forall i, sorted_upto now (history i) /\
    exists dropped, history i = dropped ++ default [] (hits !! i) /\
      Forall (fun t => t <= now - window config) dropped.

Lemma sorted_suffix hi l1 l2 : sorted_upto hi (l1 ++ l2) -> sorted_upto hi l2.
Proof. induction l1 as [|t l1 IH]; cbn; [done|]. intros ?%sorted_tail. auto. Qed.

(** At time [now] the pruned bucket is the window's part of the history. *)
Lemma pruned_bucket config last now hits history i :
  last <= now -> simulates config last hits history ->
  prune (now - window config) (default [] (hits !! i))
  = List.filter (in_window (now - window config) now) (history i).
Proof.
  intros Hle Hsim. destruct (Hsim i) as (Hs & dropped & Heq & Hd).
  rewrite Heq, List.filter_app, (filter_all_false _ dropped).
  - apply prune_window. apply (sorted_suffix _ dropped). rewrite <- Heq.
    by eapply sorted_upto_mono.
  - eapply Forall_impl; [exact Hd|]. cbn. intros t Ht. unfold in_window.
    rewrite (proj2 (Z.ltb_ge _ t)) by lia. done.
Qed.

Lemma admit_simulates config last now hits history i :
  last <= now -> simulates config last hits history ->
  let '(d, hits') := admission config i now hits in
  admitted d = spec_admits config now (history i) /\
  simulates config now hits'
    (fun j => if spec_admits config now (history i) && String.eqb j i
              then history j ++ [now] else history j).
Proof.
  intros Hle Hsim. pose proof (pruned_bucket config last now hits history i Hle Hsim) as Hp.
  unfold admission. fold (window config). rewrite Hp. fold (count_window (now - window config) now (history i)).
  unfold spec_admits at 1 2. rewrite Z.leb_antisym.
  set (ok := count_window _ _ _ <? _). set (bucket := List.filter _ _) in *.
  assert (forall j, sorted_upto now (history j)) as Hsort.
  { intros j. eapply sorted_upto_mono; [apply Hsim|done]. }
  assert (forall j, exists dropped, history j = dropped ++ (if String.eqb j i then bucket else default [] (hits !! j))
            /\ Forall (fun t => t <= now - window config) dropped) as Hdrop.
  { intros j. destruct (Hsim j) as (_ & dropped & Heq & Hd).
    assert (Forall (fun t => t <= now - window config) dropped) as Hd'.
    { eapply Forall_impl; [exact Hd|]. cbn. intros; lia. }
    destruct (String.eqb_spec j i) as [->|]; [|by exists dropped].
    destruct (prune_suffix (now - window config) (default [] (hits !! i))) as (dr2 & H2 & Hd2).
    exists (dropped ++ dr2). rewrite Hp in H2. split; [|by apply Forall_app].
    by rewrite Heq, <- app_assoc, <- H2. }
  destruct ok; cbn [negb andb]; (split; [done|]); intros j; specialize (Hdrop j) as (dr & Heq & Hd);
    destruct (String.eqb_spec j i) as [->|Hne].
  - rewrite lookup_insert_eq. cbn. split; [constructor; [done|lia]|].
    exists dr. by rewrite Heq, <- app_assoc.
  - rewrite lookup_insert_ne by done. by split; [|exists dr].
  - rewrite lookup_insert_eq. cbn. by split; [|exists dr].
  - rewrite lookup_insert_ne by done. by split; [|exists dr].
Qed.

Lemma run_simulates config last events hits history :
  ordered last events -> simulates config last hits history ->
  admitted <$> run_admit config events hits = run_spec config events history.
Proof.
  revert last hits history; induction events as [|[i now] events IH]; intros last hits history; cbn; [done|].
  intros [Hle Hord] Hsim. pose proof (admit_simulates config last now hits history i Hle Hsim) as Hstep.
  destruct (admission config i now hits) as [d hits']. destruct Hstep as [Hd Hsim']. cbn.
  rewrite Hd. f_equal. by eapply IH.
Qed.

(** C4: the deque implementation decides exactly as the specification that
    keeps the whole history: over any sequence of requests with
    non-decreasing times, a request is admitted if and only if fewer than
    [max_requests] of its client's requests were admitted in the window that
    ends at its own time. *)
Theorem limiter_refines_history config start events :
  ordered start events ->
  admitted <$> run_admit config events ∅ = run_spec config events (fun _ => []).
Proof.
  intros Hord. eapply run_simulates; [exact Hord|]. intros i. rewrite lookup_empty. cbn.
  split; [constructor|]. by exists [].
Qed.

Lemma limiter_refines_history_witness :
  admitted <$> run_admit (mkConfig true 2 1)
      [("a", 0); ("a", 5); ("b", 6); ("a", 7); ("a", SECOND + 5)] ∅
  = [true; true; true; false; true].
Proof.
  rewrite (limiter_refines_history _ 0); [reflexivity|]. vm_compute. repeat split; discriminate.
Defined.

(** ** The bound *)

(** The times at which the requests of [i] were admitted. *)
Fixpoint times_of (i : string) (events : list event) (oks : list bool) : list Z :=
  match events, oks with
  | (j, now) :: events', ok :: oks' =>
      if ok && String.eqb i j then now :: times_of i events' oks' else times_of i events' oks'
  | _, _ => []
  end.

Lemma count_app lo hi l1 l2 :
  count_window lo hi (l1 ++ l2) = count_window lo hi l1 + count_window lo hi l2.
Proof. unfold count_window. by rewrite List.filter_app, zlen_app. Qed.

Lemma filter_length_le {A} (p q : A -> bool) l :
  Forall (fun x => p x = true -> q x = true) l -> zlen (List.filter p l) <= zlen (List.filter q l).
Proof.
  induction 1 as [|x l Hx _ IH]; cbn; [done|].
  destruct (p x); [rewrite Hx by done; rewrite !zlen_cons; lia|].
  destruct (q x); [rewrite zlen_cons|]; lia.
Qed.

(** Appending an admitted time keeps every window within the limit. *)
Lemma spec_step_bounded config now l :
  sorted_upto now l -> spec_admits config now l = true ->
  (forall t, count_window (t - window config) t l <= max_requests config) ->
  forall t, count_window (t - window config) t (l ++ [now]) <= max_requests config.
Proof.
  intros Hs Hok Hb t. unfold spec_admits in Hok. bool_to_prop. rewrite count_app.
  destruct (Z.lt_ge_cases t now) as [Hlt|Hge].
  - assert (count_window (t - window config) t [now] = 0) as ->; [|specialize (Hb t); lia].
    unfold count_window, in_window. cbn [List.filter].
    by rewrite (proj2 (Z.leb_gt now t)), andb_false_r by lia.
  - assert (count_window (t - window config) t [now] <= 1) as H1.
    { unfold count_window. cbn. by destruct (in_window _ _ now). }
    enough (count_window (t - window config) t l <= count_window (now - window config) now l) by lia.
    apply filter_length_le. apply sorted_upto_all in Hs. eapply Forall_impl; [exact Hs|]. cbn.
    intros x Hx. unfold in_window. rewrite !andb_true_iff, !Z.ltb_lt, !Z.leb_le. lia.
Qed.

Lemma run_spec_bounded config last events history :
  ordered last events ->
  (forall i, sorted_upto last (history i)) ->
  (forall i t, count_window (t - window config) t (history i) <= max_requests config) ->
  forall i t, count_window (t - window config) t
                (history i ++ times_of i events (run_spec config events history))
              <= max_requests config.
Proof.
  revert last history; induction events as [|[j now] events IH]; intros last history Hord Hs Hb i t.
  { cbn. rewrite app_nil_r. apply Hb. }
  destruct Hord as [Hle Hord]. cbn [run_spec times_of].
  set (ok := spec_admits config now (history j)).
  set (history' := fun k => if ok && String.eqb k j then history k ++ [now] else history k).
  assert (forall k, sorted_upto now (history k)) as Hs0.
  { intros k. by eapply sorted_upto_mono. }
  replace (history i ++ (if ok && String.eqb i j then _ else _))
    with (history' i ++ times_of i events (run_spec config events history')).
  2: { unfold history' at 1. destruct (ok && String.eqb i j); [by rewrite <- app_assoc|done]. }
  apply (IH now); [done| |]; intros k; unfold history';
    destruct (ok && String.eqb k j) eqn:Hk; auto.
  - constructor; [done|lia].
  - apply andb_true_iff in Hk as [Hok ->%String.eqb_eq]. by apply spec_step_bounded.
Qed.

(** The limit holds: whatever requests arrive, in any window of
    [window_seconds] no client is admitted more than [max_requests] times. *)
Theorem limiter_window_bound config start events i t :
  config_ok config -> ordered start events ->
  count_window (t - window config) t
    (times_of i events (admitted <$> run_admit config events ∅)) <= max_requests config.
Proof.
  intros [Hm _] Hord.
  rewrite (run_simulates config start events ∅ (fun _ => [])); [|done|].
  2: { intros j. rewrite lookup_empty. split; [constructor|]. by exists []. }
  apply (run_spec_bounded config start events (fun _ => []) Hord).
  - intros j. constructor.
  - intros j u. change (0 <= max_requests config). lia.
Qed.

Lemma limiter_window_bound_witness :
  count_window (7 - SECOND) 7
    (times_of "a" [("a", 0); ("a", 5); ("b", 6); ("a", 7)]
       (admitted <$> run_admit (mkConfig true 2 1) [("a", 0); ("a", 5); ("b", 6); ("a", 7)] ∅)) <= 2.
Proof.
  apply (limiter_window_bound (mkConfig true 2 1) 0).
  - split; reflexivity.
  - vm_compute. repeat split; discriminate.
Defined.

(** ** Rejections *)

(** No bucket holds more than the limit. *)
Definition buckets_ok (config : RateLimitConfig) (hits : gmap string (list Z)) : Prop :=
  forall i, zlen (default [] (hits !! i)) <= max_requests config.

Lemma prune_length lo l : zlen (prune lo l) <= zlen l.
Proof.
  induction l as [|t l IH]; cbn; [done|].
  destruct (t <=? lo); rewrite ?zlen_cons; pose proof (zlen_nonneg l); lia.
Qed.

Lemma admit_buckets_ok config i now hits :
  config_ok config -> buckets_ok config hits -> buckets_ok config (admission config i now hits).2.
Proof.
  intros [Hm _] Hb. unfold admission. set (bucket := prune _ _).
  assert (zlen bucket <= max_requests config) as Hlen.
  { etransitivity; [apply prune_length|apply Hb]. }
  destruct (max_requests config <=? zlen bucket) eqn:Hf; bool_to_prop; cbn; intros j.
  all: rewrite lookup_insert; case_decide; [cbn|apply Hb].
  - done.
  - rewrite zlen_app, zlen_cons, zlen_nil. lia.
Qed.

Lemma quot_second_bounds x : 0 <= x -> Z.quot x SECOND * SECOND <= x < (Z.quot x SECOND + 1) * SECOND.
Proof.
  intros Hx. rewrite Z.quot_div_nonneg by (done || reflexivity).
  pose proof (Z.div_mod x SECOND ltac:(discriminate)) as Hd.
  pose proof (Z.mod_pos_bound x SECOND ltac:(reflexivity)) as Hm. lia.
Qed.

Lemma prune_head lo l : match prune lo l with [] => True | t :: _ => lo < t end.
Proof.
  induction l as [|t l IH]; cbn; [done|]. destruct (t <=? lo) eqn:Ht; bool_to_prop; [done|lia].
Qed.

(** A rejection always names a way back in: [Retry-After] is at least
    one second and at most the window, nothing is recorded for the rejected
    request, and the client's next request is admitted once one second more
    than [Retry-After] has passed. *)
Theorem rejection_retry_after config i now hits limit retry hits' :
  config_ok config -> buckets_ok config hits ->
  Forall (fun t => t <= now) (default [] (hits !! i)) ->
  admission config i now hits = (TooMany limit retry, hits') ->
  limit = max_requests config /\ 1 <= retry <= window_seconds config /\
  default [] (hits' !! i) = prune (now - window config) (default [] (hits !! i)) /\
  forall later, now + (retry + 1) * SECOND <= later ->
    admitted (admission config i later hits').1 = true.
Proof.
  intros [Hm Hw] Hb Hpast. unfold admission. fold (window config).
  destruct (prune_suffix (now - window config) (default [] (hits !! i))) as (dr & Heq & _).
  pose proof (prune_head (now - window config) (default [] (hits !! i))) as Hhead.
  pose proof (prune_length (now - window config) (default [] (hits !! i))) as Hlen.
  specialize (Hb i). set (bucket := prune (now - window config) _) in *.
  destruct (max_requests config <=? zlen bucket) eqn:Hf; bool_to_prop; [|done].
  intros [= <- <- <-]. rewrite lookup_insert_eq. cbn.
  destruct bucket as [|t rest] eqn:Hbk; [rewrite zlen_nil in Hf; lia|].
  assert (t <= now) as Htn.
  { rewrite Heq in Hpast. apply Forall_app in Hpast as [_ Hp]. by apply Forall_cons in Hp as [? _]. }
  unfold head0. cbn [List.hd].
  assert (0 <= t + window config - now) as Hnn by lia.
  pose proof (quot_second_bounds _ Hnn) as [Hq1 Hq2].
  unfold window in *. assert (SECOND = 1000000000) as HS by done.
  split_and!; [done|lia| |done|].
  - nia.
  - intros later Hlater. cbn [prune]. rewrite (proj2 (Z.leb_le t (later - window_seconds config * SECOND))) by nia.
    pose proof (prune_length (later - window_seconds config * SECOND) rest) as Hl2.
    rewrite zlen_cons in Hlen, Hf.
    destruct (_ <=? _) eqn:E; bool_to_prop; [exfalso; lia|done].
Qed.

Lemma rejection_retry_after_witness :
  admitted (admission (mkConfig true 1 5) "a" (4 * SECOND + 5 * SECOND / 2)
              (admission (mkConfig true 1 5) "a" (5 * SECOND / 2) {[ "a" := [0] ]}).2).1 = true.
Proof.
  assert (buckets_ok (mkConfig true 1 5) {[ "a" := [0] ]}) as Hb.
  { intros i. destruct (decide (i = "a")) as [->|?].
    - rewrite lookup_singleton_eq. vm_compute. discriminate.
    - rewrite lookup_singleton_ne by done. vm_compute. discriminate. }
  destruct (rejection_retry_after (mkConfig true 1 5) "a" (5 * SECOND / 2) {[ "a" := [0] ]} 1 2
              {[ "a" := [0] ]}) as (_ & _ & _ & H).
  - split; reflexivity.
  - exact Hb.
  - constructor; [vm_compute; discriminate|constructor].
  - reflexivity.
  - apply H. vm_compute. discriminate.
Defined.

(** The extra second matters: the reported delay is truncated, so a client
    that waits exactly [Retry-After] seconds is rejected again. *)
Lemma retry_after_truncated :
  let config := mkConfig true 1 5 in
  let now := 5 * SECOND / 2 in
  exists retry hits', admission config "a" now {[ "a" := [0] ]} = (TooMany 1 retry, hits') /\
    admitted (admission config "a" (now + retry * SECOND) hits').1 = false.
Proof. eexists _, _. split; reflexivity. Qed.
