(* ===== verification/FilterParser.v ===== *)
(** * The filter language (ppbase/services/filter_parser.py)

    The transformer that turns a parsed PocketBase filter into a SQL
    condition with bound parameters, method by method, and [parse_sort].

    The grammar's parser (Lark) is a parameter that yields the parse tree.
    [datetime.fromisoformat] is a parameter as well: it gives the wall-clock
    time in microseconds since 0001-01-01T00:00:00 and the UTC offset, if the
    text has one.  The values of a request context, of a resolver and of the
    bound parameters are Python values. *)
From Stdlib Require Import Ascii String.
From S2P Require Import Prelude PyText PyVal.
#[local] Open Scope string_scope.
#[local] Open Scope list_scope.
#[local] Open Scope Z_scope.

(** ** Errors *)
Inductive exn : Type :=
| ValueError (message : string)
| AttributeError                  (* a method call on a value without it *)
| IntError                        (* [int()] of a value that is no integer *)
| OverflowError                   (* [int()] of an infinity, a date out of range *)
| IndexError.

Definition dict : Type := list (string * pyval).

Definition as_dict (v : option pyval) : option dict :=
  match v with Some (PDict d) => Some d | _ => None end.
(** [v if isinstance(v, dict) else {}] *)
Definition dict_or_empty (v : option pyval) : dict := default [] (as_dict v).

(** [a or b] *)
Definition py_or (a b : pyval) : pyval := if truthy a then a else b.
Definition opt_or (a : option pyval) (b : pyval) : pyval := py_or (default PNone a) b.

(** An f-string: the concatenation of its pieces. *)
Definition cat (pieces : list string) : string := fold_right String.append "" pieces.

Definition char (n : N) : ascii := ascii_of_N n.
Definition colon : ascii := char 58.
Definition dot : ascii := char 46.

(** ** Tables *)
Definition _STANDARD_OPS : list (string * string) :=
  [("=", "="); ("!=", "!="); (">", ">"); (">=", ">="); ("<", "<"); ("<=", "<=")].
Definition _LIKE_OPS : list (string * string) := [("~", "ILIKE"); ("!~", "NOT ILIKE")].
Definition _ANY_STANDARD_OPS : list (string * string) :=
  [("?=", "="); ("?!=", "!="); ("?>", ">"); ("?>=", ">="); ("?<", "<"); ("?<=", "<=")].
Definition _ANY_LIKE_OPS : list (string * string) := [("?~", "ILIKE"); ("?!~", "NOT ILIKE")].
Definition is_datetime_type (field_type : string) : bool :=
  String.eqb field_type "date" || String.eqb field_type "autodate".
Definition _SYSTEM_FIELD_TYPES : list (string * string) :=
  [("id", "text"); ("created", "autodate"); ("updated", "autodate")].
Definition _MODIFIER_NAMES : list string := ["isset"; "changed"; "length"; "each"; "lower"].

(** ** Identifiers *)

(** Membership in [_SAFE_IDENT_CHARS]. *)
Definition is_safe (c : ascii) : bool :=
  is_ascii_alpha c || is_ascii_digit c || (code c =? 95)%N.

(** The first character that fails the test. *)
Fixpoint first_bad (ok : ascii -> bool) (s : string) : option ascii :=
  match s with
  | EmptyString => None
  | String c s' => if ok c then first_bad ok s' else Some c
  end.

Definition _sanitize_ident (s : string) : result exn string :=
  match first_bad is_safe s with
  | Some ch => Err (ValueError ("Invalid character in identifier: " +:+ py_repr_str (String ch "")))
  | None => Ok s
  end.

(** ** Literals *)

(** [_TEXT_ESCAPES.get(nxt, "\\" + nxt)] *)
Definition unescape_char (nxt : ascii) : string :=
  let n := code nxt in
  if (n =? 110)%N then String (char 10) ""
  else if (n =? 116)%N then String (char 9) ""
  else if (n =? 114)%N then String (char 13) ""
  else if (n =? 92)%N || (n =? 39)%N || (n =? 34)%N then String nxt ""
  else String (char 92) (String nxt "").

Fixpoint unescape_go (s : string) : string :=
  match s with
  | EmptyString => ""
  | String ch s' =>
      if negb (code ch =? 92)%N then String ch (unescape_go s')
      else match s' with
           | EmptyString => String ch ""
           | String nxt s'' => unescape_char nxt +:+ unescape_go s''
           end
  end.

Definition _unescape_text (raw : string) : string :=
  if contains_char (char 92) raw then unescape_go raw else raw.

(** [raw[1:-1]] *)
Definition inner (raw : string) : string := str_take (String.length raw - 2) (str_drop 1 raw).

(** A datetime with the offset of its text, in microseconds. *)
Record datetime : Type := mkDatetime { wall : Z; utcoffset : option Z }.
Class IsoFormat : Type := fromisoformat : string -> option datetime.

Definition DAY_US : Z := 86400 * 10 ^ 6.
(** One microsecond after [datetime.max]: 9999-12-31T23:59:59.999999. *)
Definition DATETIME_END : Z := 3652059 * DAY_US.

(** [dt.replace(tzinfo=UTC)] or [dt.astimezone(UTC)]: microseconds UTC. *)
Definition to_utc (d : datetime) : result exn Z :=
  match utcoffset d with
  | None => Ok (wall d)
  | Some offset =>
      let utc := wall d - offset in
      if (0 <=? utc) && (utc <? DATETIME_END) then Ok utc else Err OverflowError
  end.

(** A literal or a bound parameter: a Python value or an aware datetime. *)
Inductive value : Type :=
| Val (v : pyval)
| Datetime (utc : Z).

(** [text.replace(old, new)] for one character, and with a count of 1. *)
Fixpoint replace_char (old : ascii) (new : string) (s : string) : string :=
  match s with
  | EmptyString => ""
  | String c s' => (if Ascii.eqb c old then new else String c "") +:+ replace_char old new s'
  end.
Fixpoint replace_first (old : ascii) (new : string) (s : string) : string :=
  match s with
  | EmptyString => ""
  | String c s' => if Ascii.eqb c old then new +:+ s' else String c (replace_first old new s')
  end.

(** [float(raw)] of a decimal numeral, correctly rounded: the digits of
    [raw], the exponent of ten, then one division in binary64. *)
Fixpoint decimal_digits (acc : Z) (scale : Z) (seen_dot : bool) (s : string)
  : Z * Z * string :=
  match s with
  | EmptyString => (acc, scale, "")
  | String c s' =>
      if is_ascii_digit c
      then decimal_digits (10 * acc + (Z.of_N (code c) - 48))
             (if seen_dot then scale - 1 else scale) seen_dot s'
      else if Ascii.eqb c dot then decimal_digits acc scale true s'
      else (acc, scale, s)
  end.

Definition split_sign (s : string) : bool * string :=
  match s with
  | String c s' =>
      if (code c =? 45)%N then (true, s') else if (code c =? 43)%N then (false, s') else (false, s)
  | EmptyString => (false, "")
  end.

(** The numeral as an integer times a power of ten. *)
Definition decimal_of (raw : string) : bool * Z * Z :=
  let '(negative, body) := split_sign raw in
  let '(digits, scale, rest) := decimal_digits 0 0 false body in
  let exponent :=
    match rest with
    | EmptyString => 0
    | String _ e =>
        let '(eneg, edigits) := split_sign e in
        let v := default 0 (int_of_digits edigits) in if eneg then - v else v
    end in
  (negative, digits, scale + exponent).

Definition pos_or_one (z : Z) : positive := match z with Zpos p => p | _ => 1%positive end.

Definition py_float (raw : string) : spec_float :=
  let '(negative, digits, e10) := decimal_of raw in
  if digits =? 0 then S754_zero negative
  else if 0 <=? e10
  then binary_normalize 53 1024 ((if negative then -1 else 1) * (digits * 10 ^ e10)) 0 negative
  else SFdiv 53 1024 (S754_finite negative (pos_or_one digits) 0)
         (S754_finite false (pos_or_one (10 ^ (- e10))) 0).

(** [val == int(val)]; [None] when [int(val)] raises. *)
Definition float_is_int (f : spec_float) : option bool :=
  match f with
  | S754_zero _ => Some true
  | S754_finite _ m e =>
      Some (if 0 <=? e then true else Z.pos m mod 2 ^ (- e) =? 0)
  | _ => None
  end.

(** ** Operands *)
Record _TraversalStep : Type := mkStep {
  relation_key : string;
  target_table : string;
  max_select : Z;
  kind : string;
  source_field : string;
  back_field : option string;
}.

(** The tuples the operand callbacks return, by their tag.  A ["sql_ref"] of
    two elements has no JSON flag and no type. *)
Inductive node : Type :=
| Literal (v : value)
| Null
| Macro (name : string)
| CollectionRefNode (coll_name : string) (field_path : list string) (group_key : string)
| Field (name field_type : string)
| FieldModifier (name modifier : string)
| RelationRef (steps : list _TraversalStep) (sql : string) (is_json : bool) (field_type : string)
| SqlRef (sql : string) (is_json : bool) (field_type : string).

Definition _is_empty_operand (n : node) : bool :=
  match n with
  | Null => true
  | Literal (Val (PStr s)) => String.eqb s ""
  | _ => false
  end.

(** The leaf callbacks [string], [number] and [macro]. *)
Definition string_ (item : string) : node := Literal (Val (PStr (_unescape_text (inner item)))).

Definition number (raw : string) : result exn node :=
  let val := py_float raw in
  match float_is_int val with
  | None => Err OverflowError
  | Some integral =>
      if integral && negb (contains_char dot raw)
      then match int_of_str raw with
           | Some z => Ok (Literal (Val (PInt z)))
           | None => Err (ValueError ("invalid literal for int() with base 10: " +:+ py_repr_str raw))
           end
      else Ok (Literal (Val (PFloat val)))
  end.

Definition lstrip_at (name : string) : string := py_lstrip_chars (fun c => (code c =? 64)%N) name.

(** [s.split(":", 1)] of a text that holds a colon. *)
Definition split_first_colon (s : string) : string * string :=
  let '(a, b) := span (fun c => negb (Ascii.eqb c colon)) s in (a, str_drop 1 b).

Definition invalid_collection (stripped : string) : exn :=
  ValueError (cat ["Invalid @collection reference: @"; stripped;
                   ". Expected format: @collection.collectionName.fieldName"]).

Definition macro (name : string) : result exn node :=
  let stripped := lstrip_at name in
  if negb (starts_with "collection." stripped) then Ok (Macro name) else
  match split_on dot stripped with
  | _ :: ((String _ _) as coll_ref) :: (((String _ _) :: _) as path) =>
      '(coll_name, group_key) ←
        (if contains_char colon coll_ref then
           let '(raw_coll, raw_alias) := split_first_colon coll_ref in
           coll_name ← _sanitize_ident raw_coll;
           alias_key ← _sanitize_ident raw_alias;
           Ok (coll_name, cat [coll_name; ":"; alias_key])
         else coll_name ← _sanitize_ident coll_ref; Ok (coll_name, coll_name));
      field_path ← map_result _sanitize_ident (filter (fun p => p <> "") path);
      match field_path with
      | [] => Err (invalid_collection stripped)
      | _ => Ok (CollectionRefNode coll_name field_path group_key)
      end
  | _ => Err (invalid_collection stripped)
  end.

(** ** The transformer's immutable attributes *)
Record config : Type := mkConfig {
  _request_context : dict;
  _relation_resolver : dict;
  _collection_resolver : dict;
  _current_table : option string;
}.

(** [_FilterTransformer.__init__]: absent arguments become empty, an empty
    table name is no table. *)
Definition make_config (request_context relation_resolver collection_resolver : option dict)
    (current_table : option string) : result exn config :=
  table ← match current_table with
          | Some ((String _ _) as t) => s ← _sanitize_ident t; Ok (Some s)
          | _ => Ok None
          end;
  Ok (mkConfig (default [] request_context) (default [] relation_resolver)
        (default [] collection_resolver) table).

(** [table or ""] *)
Definition table_or_empty (t : option string) : string := default "" t.

(** ** Resolver metadata *)
Definition _resolver_fields (resolver : dict) : dict :=
  dict_or_empty (dict_get "__fields__" resolver).

Definition _is_flat_resolver (resolver : dict) : bool :=
  match dict_get "__flat__" resolver with Some (PBool true) => true | _ => false end.

Definition _flat_collection (resolver : dict) (table_name : string) : dict :=
  if negb (_is_flat_resolver resolver) then [] else
  match dict_get "collections" resolver with
  | Some (PDict collections) => dict_or_empty (dict_get table_name collections)
  | _ => []
  end.

Definition _flat_fields (resolver : dict) (table_name : string) : dict :=
  dict_or_empty (dict_get "fields" (_flat_collection resolver table_name)).

Definition _flat_relation_info (resolver : dict) (table_name segment : string) : option dict :=
  let coll := _flat_collection resolver table_name in
  let direct :=
    match dict_get "relations" coll with
    | Some (PDict relations) => as_dict (dict_get segment relations)
    | _ => None
    end in
  match direct with
  | Some info => Some info
  | None =>
      match dict_get "back_relations" resolver with
      | Some (PDict back_relations) =>
          match dict_get table_name back_relations with
          | Some (PDict by_collection) => as_dict (dict_get segment by_collection)
          | _ => None
          end
      | _ => None
      end
  end.

Section Filter.
Context `{FloatText, IsoFormat}.
Variable self : config.

(** [str(info.get("type") or "")] when the entry is a dict. *)
Definition info_type (field_info : option pyval) : option string :=
  (fun info => py_str (opt_or (dict_get "type" info) (PStr ""))) <$> as_dict field_info.

Definition _field_type_for_table (table_name : option string) (field_name : string)
  : result exn string :=
  safe_field ← _sanitize_ident field_name;
  match dict_get safe_field _SYSTEM_FIELD_TYPES with
  | Some t => Ok t
  | None =>
      safe_table ← match table_name with
                   | Some ((String _ _) as t) => _sanitize_ident t
                   | _ => Ok ""
                   end;
      let flat_type :=
        if negb (String.eqb safe_table "") && _is_flat_resolver (_relation_resolver self)
        then info_type (dict_get safe_field (_flat_fields (_relation_resolver self) safe_table))
        else None in
      Ok (match flat_type with
          | Some t => t
          | None =>
              default "" (info_type (dict_get safe_field (_resolver_fields (_relation_resolver self))))
          end)
  end.

Definition _field_type_for_collection_resolver (table_name field_name : string)
  : result exn string :=
  safe_field ← _sanitize_ident field_name;
  match dict_get safe_field _SYSTEM_FIELD_TYPES with
  | Some t => Ok t
  | None =>
      safe_table ← _sanitize_ident table_name;
      let field_info :=
        if _is_flat_resolver (_collection_resolver self)
        then dict_get safe_field (_flat_fields (_collection_resolver self) safe_table)
        else dict_get safe_field
               (dict_or_empty (dict_get "fields"
                  (dict_or_empty (dict_get safe_table (_collection_resolver self))))) in
      Ok (default "" (info_type field_info))
  end.

Definition _literal_for_field_type (n : node) (field_type : string) : result exn node :=
  if negb (is_datetime_type field_type) then Ok n else
  match n with
  | Literal (Val (PStr s)) =>
      let value := py_strip s in
      if String.eqb value "" then Ok n else
      let normalized := replace_char (char 90) "+00:00" value in
      let normalized :=
        if contains_char (char 32) normalized && negb (contains_char (char 84) normalized)
        then replace_first (char 32) "T" normalized else normalized in
      match fromisoformat normalized with
      | None => Ok n
      | Some parsed => utc ← to_utc parsed; Ok (Literal (Datetime utc))
      end
  | _ => Ok n
  end.

Definition _operand_field_type (n : node) : result exn string :=
  match n with
  | Field name t =>
      if negb (String.eqb t "") then Ok t
      else if contains_char dot name then Ok ""
      else _field_type_for_table (_current_table self) name
  | RelationRef _ _ _ t => Ok t
  | SqlRef _ _ t => Ok t
  | _ => Ok ""
  end.

Definition _is_json_operand (n : node) : result exn bool :=
  match n with
  | SqlRef _ true _ | RelationRef _ _ true _ => Ok true
  | _ => t ← _operand_field_type n; Ok (String.eqb t "json" || String.eqb t "geoPoint")
  end.

Definition _coerce_comparison_literals (left right : node) : result exn (node * node) :=
  left_type ← _operand_field_type left;
  right_type ← _operand_field_type right;
  right ← (if is_datetime_type left_type then _literal_for_field_type right left_type else Ok right);
  left ← (if is_datetime_type right_type then _literal_for_field_type left right_type else Ok left);
  Ok (left, right).

(** ** SQL fragments *)
Definition quoted (s : string) : string := cat [dq; s; dq].

Definition _qualified_column (table_name field_name : string) : result exn string :=
  t ← _sanitize_ident table_name;
  f ← _sanitize_ident field_name;
  Ok (cat [quoted t; "."; quoted f]).

Definition _field_expr (field_name : string) : result exn string :=
  match first_bad (fun c => is_safe c || Ascii.eqb c dot) field_name with
  | Some ch => Err (ValueError ("Invalid character in field name: " +:+ py_repr_str (String ch "")))
  | None =>
      if contains_char dot field_name then Ok field_name else
      match _current_table self with
      | Some ((String _ _) as t) => _qualified_column t field_name
      | _ => Ok (quoted field_name)
      end
  end.

Definition _column_expr_for_table (table_name : string) (field_name : string) : result exn string :=
  if negb (String.eqb table_name "") then _qualified_column table_name field_name
  else _field_expr field_name.

Definition _text_cast_sql (sql_expr : string) : string :=
  if starts_with ":" sql_expr then cat ["CAST("; sql_expr; " AS text)"]
  else cat [sql_expr; "::text"].

Definition _json_extract_sql (column_sql : string) (path_parts : list string) : result exn string :=
  match path_parts with
  | [] => Ok column_sql
  | _ =>
      args ← map_result (fun part => s ← _sanitize_ident part; Ok (cat ["'"; s; "'"])) path_parts;
      Ok (cat ["jsonb_extract_path("; column_sql; ", "; join ", " args; ")"])
  end.

(** ** Dotted paths *)
Record _ResolvedPath : Type := mkResolved {
  steps : list _TraversalStep;
  sql : string;
  is_json : bool;
  field_type : string;
}.

Definition _step_from_info (segment : string) (info : dict) : result exn _TraversalStep :=
  let kind := py_str (py_or (default (PStr "forward") (dict_get "kind" info)) (PStr "forward")) in
  target_table ← _sanitize_ident (py_str (default PNone (dict_get "table" info)));
  max_select ← match py_int (py_or (default (PInt 1) (dict_get "max_select" info)) (PInt 1)) with
               | Some z => Ok z
               | None => Err IntError
               end;
  source_field ← _sanitize_ident (py_str (opt_or (dict_get "field" info) (PStr segment)));
  back_field ← match dict_get "back_field" info with
               | None | Some PNone => Ok None
               | Some raw => s ← _sanitize_ident (py_str raw); Ok (Some s)
               end;
  if String.eqb kind "back" && String.eqb (default "" back_field) ""
  then Err (ValueError (cat ["Invalid back-relation metadata for "; segment; "."]))
  else
    relation_key ← _sanitize_ident segment;
    Ok (mkStep relation_key target_table max_select kind source_field back_field).

(** [source_field or part] *)
Definition str_or (a b : string) : string := if String.eqb a "" then b else a.

(** The end of an iteration that found neither a JSON field nor a relation. *)
Definition unresolved_segment (safe_parts : list string) (steps : list _TraversalStep)
    (allow_unresolved : bool) (context : string) : result exn (option _ResolvedPath) :=
  match steps with
  | _ :: _ =>
      Err (ValueError (cat
        ["Invalid relation traversal: "; join "." safe_parts;
         ". Only relation, back-relation, or JSON segments may be chained ";
         "before the final field name."]))
  | [] =>
      if allow_unresolved then Ok None
      else Err (ValueError (cat
        ["Invalid "; context; ": "; join "." safe_parts;
         ". Missing relation metadata for the referenced collection."]))
  end.

(** The loop of [_resolve_dotted_path] over the segments not yet consumed.
    [flat] is [Some] when the resolver is a flat one. *)
Fixpoint resolve_segments (safe_parts rest : list string) (flat : option dict)
    (current_table : string) (current_relations current_fields : dict)
    (steps : list _TraversalStep) (allow_unresolved optimize_relation_id : bool)
    (context : string) : result exn (option _ResolvedPath) :=
  match rest with
  | [] => Ok None
  | [part] =>
      let field_type :=
        match as_dict (dict_get part current_fields) with
        | Some field_info => py_str (opt_or (dict_get "type" field_info) (PStr ""))
        | None => default "" (dict_get part _SYSTEM_FIELD_TYPES)
        end in
      column ← _column_expr_for_table current_table part;
      Ok (Some (mkResolved steps column false field_type))
  | part :: ((next :: after) as tail) =>
      let field_type :=
        match as_dict (dict_get part current_fields) with
        | Some field_info => py_str (default (PStr "") (dict_get "type" field_info))
        | None => ""
        end in
      if String.eqb field_type "json" || String.eqb field_type "geoPoint" then
        column ← _column_expr_for_table current_table part;
        sql ← _json_extract_sql column tail;
        Ok (Some (mkResolved steps sql true ""))
      else
        let info :=
          match flat with
          | Some resolver => _flat_relation_info resolver current_table part
          | None => as_dict (dict_get part current_relations)
          end in
        match info with
        | Some info =>
            if dict_mem "table" info then
              step ← _step_from_info part info;
              if optimize_relation_id && String.eqb (kind step) "forward" && (max_select step <=? 1)
                 && match after with [] => true | _ => false end && String.eqb next "id"
              then
                column ← _column_expr_for_table current_table (str_or (source_field step) part);
                Ok (Some (mkResolved steps column false "relation"))
              else
                let relations :=
                  match flat with Some _ => current_relations
                  | None => dict_or_empty (dict_get "relations" info) end in
                let fields :=
                  match flat with
                  | Some resolver => _flat_fields resolver (target_table step)
                  | None =>
                      match as_dict (dict_get "fields" info) with
                      | Some ((_ :: _) as nested_fields) => nested_fields
                      | _ => _resolver_fields relations
                      end
                  end in
                resolve_segments safe_parts tail flat (target_table step) relations fields
                  (steps ++ [step]) allow_unresolved optimize_relation_id context
            else unresolved_segment safe_parts steps allow_unresolved context
        | None => unresolved_segment safe_parts steps allow_unresolved context
        end
  end.

Definition _resolve_dotted_path (parts : list string) (start_table : string)
    (relations fields : dict) (allow_unresolved optimize_relation_id : bool) (context : string)
  : result exn (option _ResolvedPath) :=
  safe_parts ← map_result _sanitize_ident parts;
  match safe_parts with
  | [] => Ok None
  | _ =>
      current_table ← _sanitize_ident start_table;
      let flat := if _is_flat_resolver relations then Some relations else None in
      let current_relations := match flat with Some _ => [] | None => relations end in
      let current_fields :=
        match flat with Some resolver => _flat_fields resolver current_table | None => fields end in
      resolve_segments safe_parts safe_parts flat current_table current_relations current_fields []
        allow_unresolved optimize_relation_id context
  end.

(** [raw.rsplit(":", 1)]; [None] without a colon. *)
Fixpoint rsplit_colon (s : string) : option (string * string) :=
  match s with
  | EmptyString => None
  | String c s' =>
      match rsplit_colon s' with
      | Some (base, suffix) => Some (String c base, suffix)
      | None => if Ascii.eqb c colon then Some ("", s') else None
      end
  end.

Definition _split_modifier (raw_value : string) : string * option string :=
  match rsplit_colon raw_value with
  | None => (raw_value, None)
  | Some (base, suffix) =>
      if negb (String.eqb base "") && bool_decide (suffix ∈ _MODIFIER_NAMES)
      then (base, Some suffix) else (raw_value, None)
  end.

(** The callback of a dotted path; [items] are its segments. *)
Definition field_path (items : list string) : result exn node :=
  match rev items with
  | [] => Err IndexError
  | last :: before =>
      let '(base_last, maybe_modifier) := _split_modifier last in
      let parts := match maybe_modifier with Some _ => rev before ++ [base_last] | None => items end in
      resolved ←
        (if (2 <=? zlen parts) && match _relation_resolver self with [] => false | _ => true end
         then _resolve_dotted_path parts (table_or_empty (_current_table self))
                (_relation_resolver self) (_resolver_fields (_relation_resolver self))
                true false "field path"
         else Ok None);
      let plain :=
        match maybe_modifier with
        | Some modifier => Ok (FieldModifier (join "." parts) modifier)
        | None =>
            let field_name := join "." parts in
            field_type ← (if zlen parts =? 1
                          then _field_type_for_table (_current_table self) field_name else Ok "");
            Ok (Field field_name field_type)
        end in
      match resolved with
      | Some r =>
          match steps r with
          | _ :: _ => Ok (RelationRef (steps r) (sql r) (is_json r) (field_type r))
          | [] => if is_json r then Ok (SqlRef (sql r) (is_json r) (field_type r)) else plain
          end
      | None => plain
      end
  end.

(** ** The transformer's state *)
Record state : Type := mkState { _param_counter : Z; _params : list (string * value) }.

Abbreviation M := (stm state exn).
Definition lift {A} (r : result exn A) : M A := stm_lift r.
Definition raise {A} (message : string) : M A := stm_raise (ValueError message).

Definition param_name (n : Z) : string := cat ["_fp"; str_of_Z n].

Definition _next_param (v : value) : M string :=
  s ← stm_get;
  let counter := _param_counter s + 1 in
  let name := param_name counter in
  stm_put (mkState counter (dict_set name v (_params s))) ≫= fun _ =>
  mret name.

(** [f":{self._next_param(v)}"] *)
Definition bind_param (v : value) : M string := name ← _next_param v; mret (cat [":"; name]).

(** [str(v)] of a literal.  The text of an aware UTC datetime is
    [YYYY-MM-DD HH:MM:SS[.ffffff]+00:00]. *)
Fixpoint pad_zeros (width : nat) (s : string) : string :=
  match width with
  | O => s
  | S w => if (String.length s <? S w)%nat then String (char 48) (pad_zeros w s) else s
  end.
Definition zfill (width : nat) (z : Z) : string := pad_zeros width (str_of_Z z).

(** The proleptic Gregorian date of a day count, day 0 being 0001-01-01. *)
Definition civil_of_days (days : Z) : Z * Z * Z :=
  let z := days + 306 in
  let era := z / 146097 in
  let doe := z mod 146097 in
  let yoe := (doe - doe / 1460 + doe / 36524 - doe / 146096) / 365 in
  let doy := doe - (365 * yoe + yoe / 4 - yoe / 100) in
  let mp := (5 * doy + 2) / 153 in
  let d := doy - (153 * mp + 2) / 5 + 1 in
  let m := if mp <? 10 then mp + 3 else mp - 9 in
  (yoe + era * 400 + (if m <=? 2 then 1 else 0), m, d).

Definition datetime_str (utc : Z) : string :=
  let '(y, m, d) := civil_of_days (utc / DAY_US) in
  let us := utc mod DAY_US in
  let s := us / 10 ^ 6 in
  cat [zfill 4 y; "-"; zfill 2 m; "-"; zfill 2 d; " ";
       zfill 2 (s / 3600); ":"; zfill 2 (s / 60 mod 60); ":"; zfill 2 (s mod 60);
       (if us mod 10 ^ 6 =? 0 then "" else cat ["."; zfill 6 (us mod 10 ^ 6)]); "+00:00"].

Definition value_str (v : value) : string :=
  match v with Val v => py_str v | Datetime utc => datetime_str utc end.

(** ** Request values *)
Definition request_get (key : string) : option pyval := dict_get key (_request_context self).
Definition request_data : option dict :=
  match request_get "data" with Some v => as_dict (Some v) | None => Some [] end.

Definition last_segment (field_name : string) : string := List.last (split_on dot field_name) "".

Definition _extract_request_data_field_value (field_name : string) : bool * pyval :=
  match request_data with
  | None => (false, PNone)
  | Some data =>
      match dict_get field_name data with
      | Some v => (true, v)
      | None =>
          match dict_get (last_segment field_name) data with
          | Some v => (true, v)
          | None => (false, PNone)
          end
      end
  end.

Definition _value_length (v : pyval) : Z :=
  match v with
  | PNone => 0
  | PStr s => Z.of_nat (String.length s)
  | PList l => zlen l
  | PDict d => zlen d
  | _ => 1
  end.

(** [[str(v) for v in raw_val]], or the one value, or nothing. *)
Definition each_values (has_field : bool) (raw_val : pyval) : list pyval :=
  if negb has_field then [] else
  match raw_val with
  | PNone => []
  | PList l => (fun v => PStr (py_str v)) <$> l
  | v => [PStr (py_str v)]
  end.

Definition changed_sql (field_sql pname : string) : string :=
  cat ["(COALESCE("; field_sql; "::text, '') <> COALESCE(CAST(:"; pname; " AS TEXT), ''))"].

(** ** Field modifiers and macros *)
Definition _resolve_field_modifier (field_name modifier : string) : M string :=
  field_sql ← lift (_field_expr field_name);
  if String.eqb modifier "isset" then mret (cat ["("; field_sql; " IS NOT NULL)"])
  else if String.eqb modifier "length" then
    mret (cat ["(CASE WHEN "; field_sql; " IS NULL THEN 0 ";
               "WHEN jsonb_typeof(to_jsonb("; field_sql; ")) = 'array' ";
               "THEN jsonb_array_length(to_jsonb("; field_sql; ")) ";
               "ELSE char_length("; field_sql; "::text) END)"])
  else if String.eqb modifier "changed" then
    let '(has_field, raw_val) := _extract_request_data_field_value field_name in
    if negb has_field then mret "FALSE" else
    pname ← _next_param (Val raw_val);
    mret (changed_sql field_sql pname)
  else if String.eqb modifier "lower" then mret (cat ["LOWER(COALESCE("; field_sql; "::text, ''))"])
  else if String.eqb modifier "each" then
    raise "The :each modifier can only be used as part of a comparison expression."
  else raise (cat ["Unknown field modifier: "; modifier]).

(** The date macros, in the order of the code. *)
Definition date_macros : list (string * string) :=
  [("now", "(TIMEZONE('UTC', NOW()) AT TIME ZONE 'UTC')");
   ("second", "CAST(EXTRACT(SECOND FROM TIMEZONE('UTC', NOW())) AS INT)");
   ("minute", "CAST(EXTRACT(MINUTE FROM TIMEZONE('UTC', NOW())) AS INT)");
   ("hour", "CAST(EXTRACT(HOUR FROM TIMEZONE('UTC', NOW())) AS INT)");
   ("weekday", "CAST(EXTRACT(DOW FROM TIMEZONE('UTC', NOW())) AS INT)");
   ("day", "CAST(EXTRACT(DAY FROM TIMEZONE('UTC', NOW())) AS INT)");
   ("month", "CAST(EXTRACT(MONTH FROM TIMEZONE('UTC', NOW())) AS INT)");
   ("year", "CAST(EXTRACT(YEAR FROM TIMEZONE('UTC', NOW())) AS INT)");
   ("yesterday", "((TIMEZONE('UTC', NOW()) - INTERVAL '1 day') AT TIME ZONE 'UTC')");
   ("tomorrow", "((TIMEZONE('UTC', NOW()) + INTERVAL '1 day') AT TIME ZONE 'UTC')");
   ("todayStart", "(date_trunc('day', TIMEZONE('UTC', NOW())) AT TIME ZONE 'UTC')");
   ("todayEnd", "((date_trunc('day', TIMEZONE('UTC', NOW())) + INTERVAL '1 day' - INTERVAL '1 microsecond') AT TIME ZONE 'UTC')");
   ("monthStart", "(date_trunc('month', TIMEZONE('UTC', NOW())) AT TIME ZONE 'UTC')");
   ("monthEnd", "((date_trunc('month', TIMEZONE('UTC', NOW())) + INTERVAL '1 month' - INTERVAL '1 microsecond') AT TIME ZONE 'UTC')");
   ("yearStart", "(date_trunc('year', TIMEZONE('UTC', NOW())) AT TIME ZONE 'UTC')");
   ("yearEnd", "((date_trunc('year', TIMEZONE('UTC', NOW())) + INTERVAL '1 year' - INTERVAL '1 microsecond') AT TIME ZONE 'UTC')")].

(** [name[len(prefix):]] *)
Definition after (prefix name : string) : string := str_drop (String.length prefix) name.

Definition header_value (headers : dict) (field : string) : pyval :=
  let normalized := replace_char (char 45) "_" (py_lower field) in
  py_or (opt_or (dict_get normalized headers)
           (opt_or (dict_get (py_lower field) headers) (default PNone (dict_get field headers))))
    (PStr "").

Definition body_prefix (name : string) : string :=
  if starts_with "request.body." name then "request.body." else "request.data.".
Definition is_body_macro (name : string) : bool :=
  starts_with "request.data." name || starts_with "request.body." name.

(** The [@request.body.*] branch of [_resolve_macro]. *)
Definition resolve_body_macro (name : string) : M string :=
  let '(field, modifier) := _split_modifier (after (body_prefix name) name) in
  let found := match request_data with Some data => dict_get field data | None => None end in
  let has_field := match found with Some _ => true | None => false end in
  let val := default PNone found in
  match modifier with
  | None => bind_param (Val (if has_field then val else PStr ""))
  | Some modifier =>
      if String.eqb modifier "isset" then bind_param (Val (PBool has_field))
      else if String.eqb modifier "length" then
        bind_param (Val (PInt (if has_field then _value_length val else 0)))
      else if String.eqb modifier "changed" then
        if negb has_field then mret "FALSE" else
        safe_field ← lift (_sanitize_ident field);
        pname ← _next_param (Val val);
        mret (changed_sql (quoted safe_field) pname)
      else if String.eqb modifier "each" then
        pname ← _next_param (Val (PList (each_values has_field val)));
        mret (cat ["CAST(:"; pname; " AS text[])"])
      else if String.eqb modifier "lower" then
        bind_param (Val (PStr (match val with PNone => "" | v => py_lower (py_str v) end)))
      else bind_param (Val (if has_field then val else PStr ""))
  end.

(** [context.get(section, {}).get(field, "")]: an [AttributeError] when the
    section is not a dict. *)
Definition section_value (section field : string) : M string :=
  match request_get section with
  | None => bind_param (Val (PStr ""))
  | Some (PDict d) => bind_param (Val (default (PStr "") (dict_get field d)))
  | Some _ => stm_raise AttributeError
  end.

Definition _resolve_macro (macro_name : string) : M string :=
  let name := lstrip_at macro_name in
  match as_dict (request_get "resolved_macros") ≫= dict_get name with
  | Some resolved => bind_param (Val resolved)
  | None =>
      match dict_get name date_macros with
      | Some sql => mret sql
      | None =>
          if String.eqb name "request.context"
          then bind_param (Val (default (PStr "") (request_get "context")))
          else if String.eqb name "request.method"
          then bind_param (Val (default (PStr "") (request_get "method")))
          else if starts_with "request.headers." name then
            bind_param (Val (match request_get "headers" with
                             | None => header_value [] (after "request.headers." name)
                             | Some (PDict headers) => header_value headers (after "request.headers." name)
                             | Some _ => PStr ""
                             end))
          else if starts_with "request.auth." name
          then section_value "auth" (after "request.auth." name)
          else if is_body_macro name then resolve_body_macro name
          else if starts_with "request.query." name
          then section_value "query" (after "request.query." name)
          else bind_param (Val (PStr ""))
      end
  end.

(** [repr] of the step dataclass, as an f-string would show it. *)
Definition step_repr (s : _TraversalStep) : string :=
  cat ["_TraversalStep(relation_key="; py_repr_str (relation_key s);
       ", target_table="; py_repr_str (target_table s); ", max_select="; str_of_Z (max_select s);
       ", kind="; py_repr_str (kind s); ", source_field="; py_repr_str (source_field s);
       ", back_field="; match back_field s with Some b => py_repr_str b | None => "None" end; ")"].

Definition _operand_to_sql (n : node) : M string :=
  match n with
  | Literal (Val (PBool b)) => mret (if b then "TRUE" else "FALSE")
  | Literal (Val ((PInt _ | PFloat _) as v)) => mret (py_str v)
  | Literal v => bind_param v
  | Null => mret "NULL"
  | Field name _ => lift (_field_expr name)
  | FieldModifier name modifier => _resolve_field_modifier name modifier
  | SqlRef sql _ _ => mret sql
  | Macro name => _resolve_macro name
  | CollectionRefNode coll_name _ _ => mret coll_name
  | RelationRef steps _ _ _ => mret (cat ["["; join ", " (step_repr <$> steps); "]"])
  end.

(** ** Comparison fragments *)
Definition is_standard_eq (sql_op : string) : bool := String.eqb sql_op "=" || String.eqb sql_op "!=".

Definition _empty_equality_sql (sql_op : string) (left : node) (left_sql : string)
    (right : node) (right_sql : string) : result exn (option string) :=
  if negb (is_standard_eq sql_op) then Ok None else
  let left_empty := _is_empty_operand left in
  let right_empty := _is_empty_operand right in
  if negb left_empty && negb right_empty then Ok None else
  if left_empty && right_empty
  then Ok (Some (if String.eqb sql_op "=" then "TRUE" else "FALSE"))
  else
    let '(other, other_sql) := if left_empty then (right, right_sql) else (left, left_sql) in
    match other with
    | Literal _ => Ok None
    | _ =>
        json ← _is_json_operand other;
        if (json : bool) then Ok None else
        let text_sql := _text_cast_sql other_sql in
        Ok (Some (if String.eqb sql_op "="
                  then cat ["("; text_sql; " = '' OR "; text_sql; " IS NULL)"]
                  else cat ["("; text_sql; " <> '' AND "; text_sql; " IS NOT NULL)"]))
    end.

Definition _like_pattern_sql (n : node) (operand_sql : string) : M string :=
  match n with
  | Literal v => bind_param (Val (PStr (cat ["%"; value_str v; "%"])))
  | Null => mret "NULL"
  | _ => mret (cat ["('%' || "; _text_cast_sql operand_sql; " || '%')"])
  end.

Definition _like_comparison_sql (match_sql : string) (pattern_node : node) (pattern_sql sql_op : string)
  : M string :=
  pattern ← _like_pattern_sql pattern_node pattern_sql;
  mret (cat [_text_cast_sql match_sql; " "; sql_op; " "; pattern]).

Definition _scalar_or_array_any_sql (container_sql value_sql sql_op : string) : string :=
  if negb (is_standard_eq sql_op) then cat [value_sql; " "; sql_op; " ANY("; container_sql; ")"] else
  let container_text := _text_cast_sql container_sql in
  let value_text := _text_cast_sql value_sql in
  cat ["(CASE WHEN jsonb_typeof(to_jsonb("; container_sql; ")) = 'array' THEN ";
       "EXISTS (SELECT 1 FROM jsonb_array_elements_text(to_jsonb("; container_sql; ")) ";
       "AS _elem(value) WHERE "; value_text; " "; sql_op; " _elem.value) ";
       "ELSE "; value_text; " "; sql_op; " "; container_text; " END)"].

Definition _scalar_or_array_like_sql (container_sql pattern_sql sql_op : string) : string :=
  let container_text := _text_cast_sql container_sql in
  cat ["(CASE WHEN jsonb_typeof(to_jsonb("; container_sql; ")) = 'array' THEN ";
       "EXISTS (SELECT 1 FROM jsonb_array_elements_text(to_jsonb("; container_sql; ")) ";
       "AS _elem(value) WHERE _elem.value "; sql_op; " "; pattern_sql; ") ";
       "ELSE "; container_text; " "; sql_op; " "; pattern_sql; " END)"].

Definition exists_sql (table condition : string) : string :=
  cat ["EXISTS (SELECT 1 FROM "; quoted table; " WHERE "; condition; ")"].

(** The comparison of one resolved SQL expression with another operand,
    shared by the relation and the [@collection] comparisons: the standard
    operators with their NULL cases, LIKE, ANY and ANY LIKE, and the final
    fallback. *)
Definition null_comparison (ref_sql sql_op : string) : string :=
  if String.eqb sql_op "=" then cat [ref_sql; " IS NULL"]
  else if String.eqb sql_op "!=" then cat [ref_sql; " IS NOT NULL"]
  else cat [ref_sql; " "; sql_op; " NULL"].

Definition infix (ref_is_left : bool) (ref_sql sql_op other_sql : string) : string :=
  if ref_is_left then cat [ref_sql; " "; sql_op; " "; other_sql]
  else cat [other_sql; " "; sql_op; " "; ref_sql].

Definition standard_condition (ref_node : node) (ref_sql sql_op : string) (other : node)
    (other_sql : string) (ref_is_left : bool) : result exn string :=
  empty_sql ← _empty_equality_sql sql_op ref_node ref_sql other other_sql;
  Ok (match empty_sql with
      | Some sql => sql
      | None =>
          match other with
          | Null => null_comparison ref_sql sql_op
          | _ => infix ref_is_left ref_sql sql_op other_sql
          end
      end).

Definition like_condition (ref_sql sql_op : string) (other : node) (other_sql : string)
    (ref_is_left : bool) : M string :=
  if ref_is_left then _like_comparison_sql ref_sql other other_sql sql_op
  else _like_comparison_sql other_sql (SqlRef ref_sql false "") ref_sql sql_op.

Definition ref_condition (ref_node : node) (ref_sql op : string) (other : node) (other_sql : string)
    (ref_is_left : bool) : M string :=
  match dict_get op _STANDARD_OPS with
  | Some sql_op => lift (standard_condition ref_node ref_sql sql_op other other_sql ref_is_left)
  | None =>
  match dict_get op _LIKE_OPS with
  | Some sql_op => like_condition ref_sql sql_op other other_sql ref_is_left
  | None =>
  match dict_get op _ANY_STANDARD_OPS with
  | Some sql_op =>
      mret (if ref_is_left then _scalar_or_array_any_sql ref_sql other_sql sql_op
            else _scalar_or_array_any_sql other_sql ref_sql sql_op)
  | None =>
  match dict_get op _ANY_LIKE_OPS with
  | Some sql_op =>
      if ref_is_left then
        pattern_sql ← _like_pattern_sql other other_sql;
        mret (_scalar_or_array_like_sql ref_sql pattern_sql sql_op)
      else
        pattern_sql ← _like_pattern_sql (SqlRef ref_sql false "") ref_sql;
        mret (_scalar_or_array_like_sql other_sql pattern_sql sql_op)
  | None => mret (infix ref_is_left ref_sql "=" other_sql)
  end end end end.

(** ** Join conditions *)
Definition _join_condition_for_step (step : _TraversalStep) (parent_table : string)
  : result exn string :=
  if String.eqb (kind step) "back" then
    target_expr ← _qualified_column (target_table step) (default "" (back_field step));
    parent_id ← _column_expr_for_table parent_table "id";
    Ok (if 1 <? max_select step then _scalar_or_array_any_sql target_expr parent_id "="
        else cat [target_expr; " = "; parent_id])
  else
    source_expr ← _column_expr_for_table parent_table (str_or (source_field step) (relation_key step));
    target_id ← _qualified_column (target_table step) "id";
    Ok (if 1 <? max_select step then _scalar_or_array_any_sql source_expr target_id "="
        else cat [target_id; " = "; source_expr]).

(** The loop from the last hop to the first; the parent of the first one is
    [parent_table], the parent of any other is the table of the hop before. *)
Fixpoint wrap_exists (parent_table : string) (steps : list _TraversalStep) (leaf_condition : string)
  : result exn string :=
  match steps with
  | [] => Ok leaf_condition
  | step :: rest =>
      wrapped ← wrap_exists (target_table step) rest leaf_condition;
      join_cond ← _join_condition_for_step step parent_table;
      Ok (exists_sql (target_table step) (cat [join_cond; " AND "; wrapped]))
  end.

(** ** [@collection] references *)
Record _CollectionRef : Type := mkCollectionRef {
  ref_table_name : string;
  ref_group_key : string;
  column_sql : option string;
  relation_steps : list _TraversalStep;
  leaf_sql : option string;
  leaf_is_json : bool;
  leaf_type : string;
}.

Definition _resolve_collection_ref (coll : string) (path : list string) (group_key : string)
  : result exn _CollectionRef :=
  coll_name ← _sanitize_ident coll;
  field_path ← map_result _sanitize_ident path;
  match field_path with
  | [field] =>
      field_type ← _field_type_for_collection_resolver coll_name field;
      column ← _qualified_column coll_name field;
      Ok (mkCollectionRef coll_name group_key (Some column) [] None false field_type)
  | _ =>
      let flat := _is_flat_resolver (_collection_resolver self) in
      let coll_info := dict_or_empty (dict_get coll_name (_collection_resolver self)) in
      let relations := if flat then _collection_resolver self
                       else dict_or_empty (dict_get "relations" coll_info) in
      let fields := if flat then _flat_fields (_collection_resolver self) coll_name
                    else dict_or_empty (dict_get "fields" coll_info) in
      resolved ← _resolve_dotted_path field_path coll_name relations fields false true
                   "@collection relation traversal";
      match resolved with
      | None =>
          Err (ValueError (cat ["Invalid @collection relation traversal: @collection."; coll_name; ".";
                                join "." field_path; "."]))
      | Some r =>
          match steps r with
          | [] => Ok (mkCollectionRef coll_name group_key (Some (sql r)) [] None false (field_type r))
          | _ => Ok (mkCollectionRef coll_name group_key None (steps r) (Some (sql r)) (is_json r)
                       (field_type r))
          end
      end
  end.

Definition _collection_relation_leaf_sql (ref : _CollectionRef) : result exn string :=
  match relation_steps ref, leaf_sql ref with
  | _ :: _, Some ((String _ _) as leaf) => Ok leaf
  | _, _ =>
      match column_sql ref with
      | Some ((String _ _) as column) => Ok column
      | _ => Err (ValueError "Invalid @collection relation reference.")
      end
  end.

(** [ref.column_sql if it is not None else the leaf] *)
Definition ref_sql (ref : _CollectionRef) : result exn string :=
  match column_sql ref with Some column => Ok column | None => _collection_relation_leaf_sql ref end.

Definition _wrap_collection_relation_exists (ref : _CollectionRef) (leaf_condition : string)
  : result exn string := wrap_exists (ref_table_name ref) (relation_steps ref) leaf_condition.

Definition wrap_unless_column (ref : _CollectionRef) (condition : string) : result exn string :=
  match column_sql ref with
  | Some _ => Ok condition
  | None => _wrap_collection_relation_exists ref condition
  end.

Definition _collection_ref_condition (ref : _CollectionRef) (op : string) (other : node)
    (ref_is_left : bool) : M string :=
  sql ← lift (ref_sql ref);
  other ← lift (if is_datetime_type (leaf_type ref) then _literal_for_field_type other (leaf_type ref)
                else Ok other);
  other_sql ← _operand_to_sql other;
  condition ← ref_condition (SqlRef sql (leaf_is_json ref) (leaf_type ref)) sql op other other_sql
                ref_is_left;
  lift (wrap_unless_column ref condition).

(** ** Conditions *)

(** What a comparison or a group evaluates to: SQL, a [_CollectionCondition]
    or a [_RelationCondition]. *)
Record _CollectionCondition : Type := mkCollCond {
  cc_table_name : string;
  cc_group_key : string;
  inner_sql : string;
}.
Record _RelationCondition : Type := mkRelCond {
  rc_relation_key : string;
  rc_target_table : string;
  join_cond : string;
  where_cond : string;
}.
Inductive item : Type :=
| Sql (s : string)
| CollItem (c : _CollectionCondition)
| RelItem (r : _RelationCondition).

Definition standard_or_eq (op : string) : string := default "=" (dict_get op _STANDARD_OPS).

(** The side of a comparison that is an [@collection] reference. *)
Definition as_collection_ref (n : node) : option (string * list string * string) :=
  match n with CollectionRefNode c p k => Some (c, p, k) | _ => None end.
Definition resolve_ref (r : string * list string * string) : result exn _CollectionRef :=
  let '(c, p, k) := r in _resolve_collection_ref c p k.

Definition two_collections (l_ref r_ref : _CollectionRef) (op : string) : result exn item :=
  l_col ← ref_sql l_ref;
  r_col ← ref_sql r_ref;
  let inner := cat [l_col; " "; standard_or_eq op; " "; r_col] in
  inner ← wrap_unless_column l_ref inner;
  inner ← wrap_unless_column r_ref inner;
  Ok (if String.eqb (ref_group_key l_ref) (ref_group_key r_ref)
      then CollItem (mkCollCond (ref_table_name l_ref) (ref_group_key l_ref) inner)
      else Sql (cat ["EXISTS (SELECT 1 FROM "; quoted (ref_table_name l_ref); ", ";
                     quoted (ref_table_name r_ref); " WHERE "; inner; ")"])).

Definition one_collection (ref : _CollectionRef) (op : string) (other : node) (coll_is_left : bool)
  : M item :=
  condition ← _collection_ref_condition ref op other coll_is_left;
  mret (CollItem (mkCollCond (ref_table_name ref) (ref_group_key ref) condition)).

Definition _collection_comparison (left : node) (op : string) (right : node) : M item :=
  match as_collection_ref left, as_collection_ref right with
  | Some l, Some r =>
      l_ref ← lift (resolve_ref l);
      r_ref ← lift (resolve_ref r);
      lift (two_collections l_ref r_ref op)
  | Some l, None => ref ← lift (resolve_ref l); one_collection ref op right true
  | None, Some r => ref ← lift (resolve_ref r); one_collection ref op left false
  | None, None => stm_raise IndexError
  end.

(** ** Relation traversals *)
Definition _relation_condition_for_steps (steps : list _TraversalStep) (leaf_condition : string)
  : result exn item :=
  match steps with
  | [] => Err IndexError
  | first :: rest =>
      first_join ← _join_condition_for_step first "";
      where_cond ← wrap_exists (target_table first) rest leaf_condition;
      Ok (RelItem (mkRelCond (relation_key first) (target_table first) first_join where_cond))
  end.

(** The side of a comparison that is a relation traversal. *)
Definition as_relation_ref (n : node) : option (list _TraversalStep * string) :=
  match n with RelationRef steps sql _ _ => Some (steps, sql) | _ => None end.

Definition two_relations (l_steps : list _TraversalStep) (l_col : string)
    (r_steps : list _TraversalStep) (r_col op : string) : result exn item :=
  match l_steps, r_steps with
  | [l_step], [r_step] =>
      l_join ← _join_condition_for_step l_step "";
      r_join ← _join_condition_for_step r_step "";
      Ok (Sql (cat ["EXISTS (SELECT 1 FROM "; quoted (target_table l_step); ", ";
                    quoted (target_table r_step); " WHERE "; l_join; " AND "; r_join; " AND ";
                    l_col; " "; standard_or_eq op; " "; r_col; ")"]))
  | _ :: _ :: _, _ | _, _ :: _ :: _ =>
      Err (ValueError "Comparisons between two nested relation traversals are not supported.")
  | _, _ => Err IndexError
  end.

Definition one_relation (rel_node : node) (rel_steps : list _TraversalStep) (rel_col op : string)
    (other : node) (rel_is_left : bool) : M item :=
  other_sql ← _operand_to_sql other;
  where_cond ← ref_condition rel_node rel_col op other other_sql rel_is_left;
  lift (_relation_condition_for_steps rel_steps where_cond).

Definition _relation_comparison (left : node) (op : string) (right : node) : M item :=
  match as_relation_ref left, as_relation_ref right with
  | Some (l_steps, l_col), Some (r_steps, r_col) =>
      lift (two_relations l_steps l_col r_steps r_col op)
  | Some (steps, col), None => one_relation left steps col op right true
  | None, Some (steps, col) => one_relation right steps col op left false
  | None, None => stm_raise IndexError
  end.

(** ** The [:each] modifier *)
Definition _extract_each_operand (n : node) : M (option (string * string)) :=
  match n with
  | FieldModifier name modifier =>
      if String.eqb modifier "each" then
        field_sql ← lift (_field_expr name);
        mret (Some ("field", cat ["COALESCE("; field_sql; "::text[], ARRAY[]::text[])"]))
      else mret None
  | Macro macro_name =>
      let name := lstrip_at macro_name in
      if is_body_macro name then
        let '(field_name, modifier) := _split_modifier (after (body_prefix name) name) in
        match modifier with
        | Some modifier =>
            if String.eqb modifier "each" then
              let '(has_field, raw_val) := _extract_request_data_field_value field_name in
              pname ← _next_param (Val (PList (each_values has_field raw_val)));
              mret (Some ("request", cat ["COALESCE(CAST(:"; pname; " AS text[]), ARRAY[]::text[])"]))
            else mret None
        | None => mret None
        end
      else mret None
  | _ => mret None
  end.

Definition _build_each_item_condition (item_sql op : string) (other : node) (each_is_left : bool)
  : M string :=
  other_sql ← _operand_to_sql other;
  match dict_get op _STANDARD_OPS with
  | Some sql_op =>
      lift (standard_condition (SqlRef item_sql false "") item_sql sql_op other other_sql each_is_left)
  | None =>
      match dict_get op _LIKE_OPS with
      | Some sql_op => like_condition item_sql sql_op other other_sql each_is_left
      | None => mret (infix each_is_left item_sql "=" other_sql)
      end
  end.

Definition _each_comparison (left : node) (op : string) (right : node)
    (left_each right_each : option (string * string)) : M string :=
  match left_each, right_each with
  | Some _, Some _ => raise "Comparisons with :each on both sides are not supported."
  | _, _ =>
      '(array_sql, condition) ←
        (match left_each with
         | Some (_, array_sql) =>
             condition ← _build_each_item_condition "_elem" op right true;
             mret (array_sql, condition)
         | None =>
             condition ← _build_each_item_condition "_elem" op left false;
             mret (match right_each with Some (_, s) => s | None => "ARRAY[]::text[]" end, condition)
         end);
      mret (cat ["NOT EXISTS (SELECT 1 FROM unnest("; array_sql; ") AS _elem WHERE NOT COALESCE((";
                 condition; "), FALSE))"])
  end.

(** ** Comparisons *)
Definition regular_standard (left : node) (left_sql sql_op : string) (right : node)
    (right_sql : string) : result exn string :=
  empty_sql ← _empty_equality_sql sql_op left left_sql right right_sql;
  Ok (match empty_sql with
      | Some sql => sql
      | None =>
          let generic := cat [left_sql; " "; sql_op; " "; right_sql] in
          let null_test operand_sql :=
            if String.eqb sql_op "=" then Some (cat [operand_sql; " IS NULL"])
            else if String.eqb sql_op "!=" then Some (cat [operand_sql; " IS NOT NULL"])
            else None in
          match match right with Null => null_test left_sql | _ => None end with
          | Some sql => sql
          | None => default generic match left with Null => null_test right_sql | _ => None end
          end
      end).

Definition regular_comparison (left : node) (op : string) (right : node) : M string :=
  left_sql ← _operand_to_sql left;
  right_sql ← _operand_to_sql right;
  match dict_get op _STANDARD_OPS with
  | Some sql_op => lift (regular_standard left left_sql sql_op right right_sql)
  | None =>
  match dict_get op _LIKE_OPS with
  | Some sql_op => _like_comparison_sql left_sql right right_sql sql_op
  | None =>
  match dict_get op _ANY_STANDARD_OPS with
  | Some sql_op => mret (_scalar_or_array_any_sql left_sql right_sql sql_op)
  | None =>
  match dict_get op _ANY_LIKE_OPS with
  | Some sql_op =>
      pattern_sql ← _like_pattern_sql right right_sql;
      mret (_scalar_or_array_like_sql left_sql pattern_sql sql_op)
  | None => mret (cat [left_sql; " = "; right_sql])
  end end end end.

Definition is_relation_ref (n : node) : bool := match n with RelationRef _ _ _ _ => true | _ => false end.
Definition is_collection_ref (n : node) : bool :=
  match n with CollectionRefNode _ _ _ => true | _ => false end.

Definition comparison (left : node) (op_token : string) (right : node) : M item :=
  let op := py_strip op_token in
  '(left, right) ← lift (if dict_mem op _STANDARD_OPS
                         then _coerce_comparison_literals left right else Ok (left, right));
  if is_relation_ref left || is_relation_ref right then _relation_comparison left op right
  else if is_collection_ref left || is_collection_ref right then _collection_comparison left op right
  else
    left_each ← _extract_each_operand left;
    right_each ← _extract_each_operand right;
    match left_each, right_each with
    | None, None => s ← regular_comparison left op right; mret (Sql s)
    | _, _ => s ← _each_comparison left op right left_each right_each; mret (Sql s)
    end.

(** ** Logical operators *)
Definition or_part (i : item) : string :=
  match i with
  | CollItem c => exists_sql (cc_table_name c) (inner_sql c)
  | RelItem r => exists_sql (rc_target_table r) (join " AND " [join_cond r; where_cond r])
  | Sql s => s
  end.

(** [parts[0]], or the parts joined between parentheses. *)
Definition group_sql (sep : string) (parts : list string) : string :=
  match parts with [p] => p | _ => cat ["("; join sep parts; ")"] end.

Definition or_expr (items : list item) : string := group_sql " OR " (or_part <$> items).

(** [d.setdefault(k, []).append(x)] *)
Definition dict_push {A} (k : string) (x : A) (d : list (string * list A)) : list (string * list A) :=
  dict_set k (default [] (dict_get k d) ++ [x]) d.
(** [d.setdefault(k, v)] for its effect. *)
Definition dict_setdefault {A} (k : string) (v : A) (d : list (string * A)) : list (string * A) :=
  if dict_mem k d then d else dict_set k v d.

Record groups : Type := mkGroups {
  coll_groups : list (string * list string);
  coll_tables : list (string * string);
  rel_groups : list (string * list _RelationCondition);
  regular_parts : list string;
}.

Definition collect (g : groups) (i : item) : groups :=
  match i with
  | CollItem c =>
      mkGroups (dict_push (cc_group_key c) (inner_sql c) (coll_groups g))
        (dict_setdefault (cc_group_key c) (cc_table_name c) (coll_tables g))
        (rel_groups g) (regular_parts g)
  | RelItem r =>
      mkGroups (coll_groups g) (coll_tables g) (dict_push (rc_relation_key r) r (rel_groups g))
        (regular_parts g)
  | Sql s => mkGroups (coll_groups g) (coll_tables g) (rel_groups g) (regular_parts g ++ [s])
  end.

Definition coll_part (tables : list (string * string)) (group : string * list string) : string :=
  let '(group_key, conditions) := group in
  exists_sql (default "" (dict_get group_key tables)) (join " AND " conditions).

Definition rel_part (group : string * list _RelationCondition) : string :=
  match group.2 with
  | [] => ""
  | first :: _ =>
      exists_sql (rc_target_table first) (join " AND " (join_cond first :: (where_cond <$> group.2)))
  end.

Definition and_expr (items : list item) : string :=
  let g := foldl collect (mkGroups [] [] [] []) items in
  group_sql " AND "
    (regular_parts g ++ (coll_part (coll_tables g) <$> coll_groups g) ++ (rel_part <$> rel_groups g)).

(** ** Parse trees *)

(** The operand nodes, with the text of their tokens. *)
Inductive operand : Type :=
| string_node (item : string)
| number_node (item : string)
| true_val
| false_val
| null_node
| macro_node (item : string)
| field_path_node (items : list string).

Inductive tree : Type :=
| or_node (children : list tree)
| and_node (children : list tree)
| comparison_node (left : operand) (op_token : string) (right : operand).

Definition transform_operand (o : operand) : result exn node :=
  match o with
  | string_node item => Ok (string_ item)
  | number_node item => number item
  | true_val => Ok (Literal (Val (PBool true)))
  | false_val => Ok (Literal (Val (PBool false)))
  | null_node => Ok Null
  | macro_node item => macro item
  | field_path_node items => field_path items
  end.

(** The bottom-up, left-to-right traversal of Lark's [Transformer]. *)
Fixpoint transform (t : tree) : M item :=
  let transform_children :=
    fix go (l : list tree) : M (list item) :=
      match l with
      | [] => mret []
      | t :: l' => i ← transform t; rest ← go l'; mret (i :: rest)
      end in
  match t with
  | or_node children => items ← transform_children children; mret (Sql (or_expr items))
  | and_node children => items ← transform_children children; mret (Sql (and_expr items))
  | comparison_node l op_token r =>
      left ← lift (transform_operand l);
      right ← lift (transform_operand r);
      comparison left op_token right
  end.

Fixpoint transform_children (l : list tree) : M (list item) :=
  match l with
  | [] => mret []
  | t :: l' => i ← transform t; rest ← transform_children l'; mret (i :: rest)
  end.
End Filter.

(** ** The public functions *)

(** The root of a parse is an [or_expr] node; the parser yields its
    children, or [None] when it raises. *)
Class FilterGrammar : Type := lark_parse : string -> option (list tree).

(** [parse_filter] raises [ValueError] for a syntax error, lets an exception
    of the transformer's constructor through, and Lark wraps an exception of
    a callback in its own [VisitError]. *)
Inductive filter_error : Type :=
| InvalidSyntax
| InitError (e : exn)
| VisitError (e : exn).

Definition initial : state := mkState 0 [].

Definition parse_filter `{FloatText, IsoFormat, FilterGrammar} (filter_str : string)
    (request_context relation_resolver collection_resolver : option dict)
    (current_table : option string) : result filter_error (string * list (string * value)) :=
  if String.eqb (py_strip filter_str) "" then Ok ("1=1", []) else
  match lark_parse filter_str with
  | None => Err InvalidSyntax
  | Some root =>
      match make_config request_context relation_resolver collection_resolver current_table with
      | Err e => Err (InitError e)
      | Ok self =>
          match transform_children self root initial with
          | (Ok items, s) => Ok (or_expr items, _params s)
          | (Err e, _) => Err (VisitError e)
          end
      end
  end.

(** ** [parse_sort] *)
Definition sort_char (c : ascii) : bool := is_safe c || Ascii.eqb c dot.

Definition sort_part (part : string) : result exn (list (string * string)) :=
  if String.eqb part "" then Ok []
  else if String.eqb part "@random" then Ok [("RANDOM()", "ASC")]
  else if String.eqb part "@rowid" then Ok [("ctid", "ASC")]
  else
    let direction := if starts_with "-" part then "DESC" else "ASC" in
    let part := if starts_with "-" part || starts_with "+" part then str_drop 1 part else part in
    match first_bad sort_char part with
    | Some ch => Err (ValueError ("Invalid character in sort field: " +:+ py_repr_str (String ch "")))
    | None => Ok [(if contains_char dot part then part else quoted part, direction)]
    end.

Definition parse_sort (sort_str : string) : result exn (list (string * string)) :=
  if String.eqb (py_strip sort_str) "" then Ok [] else
  parts ← map_result (fun part => sort_part (py_strip part)) (split_on (char 44) sort_str);
  Ok (concat parts).

(** ** Induction on parse trees *)
Section Trees.
Context `{FloatText, IsoFormat}.

Lemma tree_induction (P : tree -> Prop) :
  (forall l, Forall P l -> P (or_node l)) -> (forall l, Forall P l -> P (and_node l)) ->
  (forall l op r, P (comparison_node l op r)) -> forall t, P t.
Proof.
  intros Hor Hand Hcmp. fix IH 1. intros [l|l|l op r]; [apply Hor|apply Hand|apply Hcmp];
    induction l as [|t l IHl]; constructor; auto.
Qed.

Lemma transform_or self l :
  transform self (or_node l) = (items ← transform_children self l; mret (Sql (or_expr items))).
Proof. done. Qed.
Lemma transform_and self l :
  transform self (and_node l) = (items ← transform_children self l; mret (Sql (and_expr items))).
Proof. done. Qed.

End Trees.

(** ** A concrete instance, for examples *)
Module Demo.
Definition float_text : FloatText := fun _ => "1.5".
Definition iso_format : IsoFormat := fun s =>
  if String.eqb s "2024-01-02T03:04:05+02:00"
  then Some (mkDatetime 63839761445000000 (Some 7200000000)) else None.
(** The parses of two filters. *)
Definition grammar : FilterGrammar := fun s =>
  if String.eqb s "author.name = 'O\'x' && created > '2024-01-02 03:04:05+02:00' || n ?~ 1.5" then
    Some [and_node [comparison_node (field_path_node ["author"; "name"]) "=" (string_node "'O\'x'");
                    comparison_node (field_path_node ["created"]) ">"
                      (string_node "'2024-01-02 03:04:05+02:00'")];
          and_node [comparison_node (field_path_node ["n"]) "?~" (number_node "1.5")]]
  else if String.eqb s "author.name = '); DROP TABLE users; --' && created > 'soon' || n ?~ 1.5" then
    Some [and_node [comparison_node (field_path_node ["author"; "name"]) "="
                      (string_node "'); DROP TABLE users; --'");
                    comparison_node (field_path_node ["created"]) ">" (string_node "'soon'")];
          and_node [comparison_node (field_path_node ["n"]) "?~" (number_node "1.5")]]
  else None.
Definition relations : dict := [("author", PDict [("table", PStr "users")])].
End Demo.
