(* ===== verification/FilterSafety.v ===== *)
(** * What the filter transformer can emit

    A scanner reads generated SQL character by character, the way the server
    and the driver tokenize it: quoted text, quoted identifiers, casts,
    placeholders, parentheses.  It rejects a semicolon, a comment, a stray
    quote, a dollar or a backslash, an unbound placeholder and a parenthesis
    that does not match.  Every condition the transformer builds is accepted,
    whatever the filter, the request and the resolvers hold. *)
From Stdlib Require Import Ascii String.
From Stdlib Require Import DecimalString DecimalPos.
From S2P Require Import Prelude PyText PyVal FilterParser.
#[local] Open Scope string_scope.
#[local] Open Scope list_scope.
#[local] Open Scope Z_scope.

(** ** The scanner *)
Inductive prev : Type := Other | Word | Minus.

(** Where the scanner stands, with the parenthesis depth. *)
Inductive mode : Type :=
| Code (d : nat) (p : prev)
| InText (d : nat)                      (* inside '...' *)
| InIdent (d : nat)                     (* inside a quoted identifier *)
| Colon (d : nat) (bind_allowed : bool) (* after one colon *)
| Bind (d : nat) (name : string).       (* inside :name *)

(** Operator and punctuation characters of the generated SQL. *)
Definition is_punct (c : ascii) : bool := contains_char c " ,.=<>!|[]+".
Definition is_text (c : ascii) : bool := is_safe c || contains_char c " %".

Definition code_step (d : nat) (p : prev) (c : ascii) : option mode :=
  if is_safe c then Some (Code d Word)
  else if is_punct c then Some (Code d Other)
  else if (code c =? 40)%N then Some (Code (S d) Other)
  else if (code c =? 41)%N then match d with S d' => Some (Code d' Other) | O => None end
  else if (code c =? 39)%N then Some (InText d)
  else if (code c =? 34)%N then Some (InIdent d)
  else if (code c =? 58)%N then Some (Colon d match p with Word => false | _ => true end)
  else if (code c =? 45)%N then match p with Minus => None | _ => Some (Code d Minus) end
  else None.

Definition step (bound : string -> bool) (m : mode) (c : ascii) : option mode :=
  match m with
  | Code d p => code_step d p c
  | InText d =>
      if (code c =? 39)%N then Some (Code d Other) else if is_text c then Some (InText d) else None
  | InIdent d =>
      if (code c =? 34)%N then Some (Code d Other) else if is_safe c then Some (InIdent d) else None
  | Colon d bind_allowed =>
      if (code c =? 58)%N then Some (Code d Other)
      else if is_safe c && bind_allowed then Some (Bind d (String c "")) else None
  | Bind d name =>
      if is_safe c then Some (Bind d (name +:+ String c ""))
      else if bound name && negb (code c =? 58)%N then code_step d Word c else None
  end.

Fixpoint scan (bound : string -> bool) (m : mode) (s : string) : option mode :=
  match s with
  | EmptyString => Some m
  | String c s' => match step bound m c with Some m' => scan bound m' s' | None => None end
  end.

(** The text may end here: outside quotes, at depth [d], with no placeholder
    left unbound. *)
Definition settled (bound : string -> bool) (d : nat) (m : mode) : bool :=
  match m with
  | Code d' _ => (d' =? d)%nat
  | Bind d' name => (d' =? d)%nat && bound name
  | _ => false
  end.

(** A self-contained SQL fragment. *)
Definition well_scanned (bound : string -> bool) (sql : string) : bool :=
  match scan bound (Code 0 Other) sql with Some m => settled bound 0 m | None => false end.

(** ** Fragments *)
Definition closed (b : string -> bool) (e : string) : Prop :=
  forall d, exists p, scan b (Code d Other) e = Some (Code d p).
Definition hole (b : string -> bool) (e : string) : Prop :=
  exists n, e = ":" +:+ n /\ n <> "" /\ str_forall is_safe n = true /\ b n = true.
Definition frag (b : string -> bool) (e : string) : Prop :=
  forall d, exists m, scan b (Code d Other) e = Some m /\ settled b d m = true.
(** What an operand is: a placeholder, or text that holds its placeholders
    inside. *)
Definition operand_frag (b : string -> bool) (e : string) : Prop := closed b e \/ hole b e.

Lemma scan_app b m x y :
  scan b m (x +:+ y) = match scan b m x with Some m' => scan b m' y | None => None end.
Proof.
  revert m; induction x as [|c x IH]; intros m; [done|]. cbn [String.append scan].
  destruct (step b m c); [apply IH|done].
Qed.

Lemma scan_lit b m m' x y : scan b m x = Some m' -> scan b m (x +:+ y) = scan b m' y.
Proof. intros H. by rewrite scan_app, H. Qed.

Lemma closed_frag b e : closed b e -> frag b e.
Proof. intros H d. destruct (H d) as [p Hp]. exists (Code d p). split; [done|]. cbn. apply Nat.eqb_refl. Qed.

Lemma scan_bind b d name n :
  str_forall is_safe n = true -> scan b (Bind d name) n = Some (Bind d (name +:+ n)).
Proof.
  revert name; induction n as [|c n IH]; intros name; cbn [str_forall scan].
  { intros _. by rewrite append_nil_r. }
  intros [Hc Hn]%andb_true_iff. unfold step. rewrite Hc, IH by done. f_equal. f_equal.
  by rewrite append_assoc.
Qed.

Lemma scan_hole b n d :
  n <> "" -> str_forall is_safe n = true -> scan b (Code d Other) (":" +:+ n) = Some (Bind d n).
Proof.
  intros Hne Hs. destruct n as [|c n]; [done|]. cbn [String.append scan]. unfold step at 1.
  change (code_step d Other ":") with (Some (Colon d true)). cbv beta iota.
  cbn [str_forall] in Hs. apply andb_true_iff in Hs as [Hc Hs]. cbn [step].
  replace (code c =? 58)%N with false; [rewrite Hc|].
  - cbn [andb]. by rewrite scan_bind.
  - symmetry. apply N.eqb_neq. intros H58. unfold is_safe, is_ascii_alpha, is_ascii_lower, is_ascii_upper,
      is_ascii_digit, in_range in Hc. rewrite H58 in Hc. discriminate.
Qed.

Lemma hole_frag b e : hole b e -> frag b e.
Proof.
  intros (n & -> & Hne & Hs & Hb) d. exists (Bind d n). split; [by apply scan_hole|].
  cbn. by rewrite Hb, Nat.eqb_refl.
Qed.
Lemma operand_frag_frag b e : operand_frag b e -> frag b e.
Proof. intros [H|H]; [by apply closed_frag|by apply hole_frag]. Qed.

(** Characters that end a word or a placeholder, whatever came before. *)
Definition is_sep (c : ascii) : bool := contains_char c " ).,".
Definition starts_sep (s : string) : bool := match s with EmptyString => false | String c _ => is_sep c end.

Lemma is_sep_inv c : is_sep c = true -> c = char 32 \/ c = char 41 \/ c = char 46 \/ c = char 44.
Proof.
  unfold is_sep. cbn [contains_char].
  intros H. rewrite !orb_true_iff, !Ascii.eqb_eq in H.
  destruct H as [<-|[<-|[<-|[<-|?]]]]; [by left|by right; left|by do 2 right; left|by do 3 right|done].
Qed.

Lemma frag_sep b e d s :
  frag b e -> starts_sep s = true -> scan b (Code d Other) (e +:+ s) = scan b (Code d Other) s.
Proof.
  intros He Hs. destruct (He d) as (m & Hm & Hset). rewrite scan_app, Hm.
  destruct s as [|c s]; [done|]. cbn in Hs. apply is_sep_inv in Hs.
  destruct m as [d' p| | | |d' n]; try done; cbn in Hset.
  - apply Nat.eqb_eq in Hset as ->. by destruct Hs as [->|[->|[->| ->]]].
  - apply andb_true_iff in Hset as [->%Nat.eqb_eq Hb].
    by destruct Hs as [->|[->|[->| ->]]]; cbn [scan]; unfold step; rewrite Hb.
Qed.

Lemma closed_cast b e d s :
  closed b e -> starts_with "::" s = true ->
  scan b (Code d Other) (e +:+ s) = scan b (Code d Other) s.
Proof.
  intros He [t ->]%starts_with_app. destruct (He d) as [p Hp]. rewrite scan_app, Hp. by destruct p.
Qed.

(** ** Growing the set of bound placeholders *)
Lemma step_mono (b b' : string -> bool) m c m' :
  (forall n, b n = true -> b' n = true) -> step b m c = Some m' -> step b' m c = Some m'.
Proof.
  intros Hb. destruct m; cbn; try done. destruct (is_safe c); [done|].
  destruct (b name) eqn:E; [|done]. by rewrite (Hb _ E).
Qed.
Lemma scan_mono (b b' : string -> bool) m e m' :
  (forall n, b n = true -> b' n = true) -> scan b m e = Some m' -> scan b' m e = Some m'.
Proof.
  intros Hb. revert m; induction e as [|c e IH]; intros m; [done|]. cbn.
  destruct (step b m c) as [m1|] eqn:E; [|done]. rewrite (step_mono _ _ _ _ _ Hb E). apply IH.
Qed.
Lemma closed_mono (b b' : string -> bool) e :
  (forall n, b n = true -> b' n = true) -> closed b e -> closed b' e.
Proof. intros Hb He d. destruct (He d) as [p Hp]. exists p. by eapply scan_mono. Qed.
Lemma frag_mono (b b' : string -> bool) e :
  (forall n, b n = true -> b' n = true) -> frag b e -> frag b' e.
Proof.
  intros Hb He d. destruct (He d) as (m & Hm & Hs). exists m. split; [by eapply scan_mono|].
  destruct m; try done. cbn in *. apply andb_true_iff in Hs as [-> H]. by rewrite (Hb _ H).
Qed.
Lemma operand_mono (b b' : string -> bool) e :
  (forall n, b n = true -> b' n = true) -> operand_frag b e -> operand_frag b' e.
Proof.
  intros Hb [H|(n & -> & ? & ? & Hn)]; [left; by eapply closed_mono|right].
  exists n. split_and!; auto.
Qed.

(** ** Building fragments out of pieces *)

(** A name that can be spelt after a colon and that is bound. *)
Definition name_ok (b : string -> bool) (n : string) : Prop :=
  n <> "" /\ str_forall is_safe n = true /\ b n = true.

Lemma name_hole b n : name_ok b n -> hole b (":" +:+ n).
Proof. intros (?&?&?). by exists n. Qed.
Lemma name_frag b n : name_ok b n -> frag b (":" +:+ n).
Proof. intros. by apply hole_frag, name_hole. Qed.

Lemma name_sep b n d s :
  name_ok b n -> starts_sep s = true -> scan b (Colon d true) (n +:+ s) = scan b (Code d Other) s.
Proof.
  intros Hn Hs. rewrite <- (frag_sep b (":" +:+ n) d s (name_frag _ _ Hn) Hs).
  by rewrite append_assoc, (scan_lit b _ (Colon d true) ":").
Qed.

(** Run the scanner over the pieces of an f-string: a fragment of the
    context before a separator or a cast leaves it where it was, a literal
    is computed. *)
Ltac scan_pieces :=
  cbv beta in *; unfold cat; cbn [fold_right];
  repeat match goal with
  | H : frag ?b ?x |- context [scan ?b (Code ?d Other) (?x +:+ ?y)] =>
      rewrite (frag_sep b x d y H eq_refl)
  | H : closed ?b ?x |- context [scan ?b (Code ?d Other) (?x +:+ ?y)] =>
      first [rewrite (frag_sep b x d y (closed_frag b x H) eq_refl)
            |rewrite (closed_cast b x d y H eq_refl)]
  | H : name_ok ?b ?n |- context [scan ?b (Colon ?d true) (?n +:+ ?y)] =>
      rewrite (name_sep b n d y H eq_refl)
  | |- context [scan ?b ?m (?x +:+ ?y)] =>
      lazymatch x with String _ _ => idtac end;
      erewrite (scan_lit b m _ x y) by (lazy; reflexivity)
  end;
  cbn [scan]; rewrite ?append_nil_r.

(** Prove that a concatenation is closed, or a fragment. *)
Ltac solve_closed :=
  intros ?d; scan_pieces;
  first [by eexists | match goal with H : closed _ _ |- _ => apply H end].
Ltac solve_frag :=
  intros ?d; scan_pieces;
  first [eexists; split; [reflexivity|apply Nat.eqb_refl]
        |match goal with H : closed _ _ |- _ => apply (closed_frag _ _ H) end
        |match goal with H : frag _ _ |- _ => apply H end].

Lemma scan_safe b d p s :
  str_forall is_safe s = true -> exists p', scan b (Code d p) s = Some (Code d p').
Proof.
  revert p; induction s as [|c s IH]; intros p; [by exists p|].
  cbn. intros [Hc Hs]%andb_true_iff. unfold code_step. rewrite Hc. auto.
Qed.
Lemma safe_closed b s : str_forall is_safe s = true -> closed b s.
Proof. intros Hs d. by apply scan_safe. Qed.

Lemma scan_ident b d s y :
  str_forall is_safe s = true -> scan b (InIdent d) (s +:+ y) = scan b (InIdent d) y.
Proof.
  intros Hs. induction s as [|c s IH]; [done|]. cbn in Hs. apply andb_true_iff in Hs as [Hc Hs].
  cbn [String.append scan step]. destruct (code c =? 34)%N eqn:E.
  - apply N.eqb_eq in E. unfold is_safe, is_ascii_alpha, is_ascii_lower, is_ascii_upper, is_ascii_digit,
      in_range in Hc. rewrite E in Hc. discriminate.
  - rewrite Hc. auto.
Qed.

Lemma quoted_closed b s : str_forall is_safe s = true -> closed b (quoted s).
Proof.
  intros Hs d. unfold quoted, cat. cbn [fold_right].
  rewrite (scan_lit b _ (InIdent d) dq) by reflexivity.
  rewrite scan_ident by done. by exists Other.
Qed.

Lemma first_bad_none ok s : first_bad ok s = None <-> str_forall ok s = true.
Proof. induction s as [|c s IH]; cbn; [done|]. destruct (ok c); [done|]. done. Qed.

Lemma sanitize_ok s t : _sanitize_ident s = Ok t <-> t = s /\ str_forall is_safe s = true.
Proof.
  unfold _sanitize_ident. rewrite <- first_bad_none. destruct (first_bad is_safe s); naive_solver.
Qed.

#[local] Arguments cat : simpl never.
#[local] Arguments quoted : simpl never.
#[local] Arguments String.append : simpl never.

(** ** Columns, casts and comparison fragments *)
Create HintDb sql.
#[export] Hint Resolve closed_frag hole_frag operand_frag_frag safe_closed quoted_closed : sql.

Section Pure.
Context `{FloatText, IsoFormat} (self : config).

Definition always_closed (e : string) : Prop := forall b, closed b e.
Lemma always_at b e : always_closed e -> closed b e.
Proof. auto. Qed.
Lemma always_operand b e : always_closed e -> operand_frag b e.
Proof. left. auto. Qed.
Hint Resolve always_at always_operand : sql.

Lemma qualified_closed t f e : _qualified_column t f = Ok e -> always_closed e.
Proof.
  unfold _qualified_column. intros H1. bind_ok H1 as t' Ht. bind_ok H1 as f' Hf.
  apply sanitize_ok in Ht as [-> Ht]. apply sanitize_ok in Hf as [-> Hf]. injection H1 as <-.
  intros b. pose proof (quoted_closed b _ Ht). pose proof (quoted_closed b _ Hf). solve_closed.
Qed.

Lemma dotted_closed b s :
  str_forall (fun c => is_safe c || Ascii.eqb c dot) s = true -> closed b s.
Proof.
  intros Hs d. enough (forall p, exists p', scan b (Code d p) s = Some (Code d p')) by auto.
  induction s as [|c s IH]; intros p; [by exists p|].
  cbn in Hs. apply andb_true_iff in Hs as [Hc Hs]. cbn [scan step]. unfold code_step.
  destruct (is_safe c); [auto|]. cbn in Hc. apply Ascii.eqb_eq in Hc as ->.
  change (is_punct dot) with true. cbn. auto.
Qed.

Lemma safe_no_dot s :
  str_forall (fun c => is_safe c || Ascii.eqb c dot) s = true -> contains_char dot s = false ->
  str_forall is_safe s = true.
Proof.
  induction s as [|c s IH]; [done|]. cbn. intros [Hc Hs]%andb_true_iff [Hd Hn]%orb_false_iff.
  rewrite Hd, orb_false_r in Hc. by rewrite Hc, IH.
Qed.

Lemma field_expr_closed f e : _field_expr self f = Ok e -> always_closed e.
Proof.
  unfold _field_expr. destruct (first_bad _ f) eqn:Hbad; [done|]. apply first_bad_none in Hbad.
  destruct (contains_char dot f) eqn:Hdot.
  { intros [= <-] b. by apply dotted_closed. }
  pose proof (safe_no_dot _ Hbad Hdot) as Hsafe.
  assert (always_closed (quoted f)) by (intros b; by apply quoted_closed).
  destruct (_current_table self) as [[|c t]|]; [by intros [= <-]| |by intros [= <-]].
  apply qualified_closed.
Qed.

Lemma column_closed t f e : _column_expr_for_table self t f = Ok e -> always_closed e.
Proof.
  unfold _column_expr_for_table. destruct (negb _); [apply qualified_closed|apply field_expr_closed].
Qed.

Lemma text_cast_closed b e : operand_frag b e -> closed b (_text_cast_sql e).
Proof.
  intros [He|He]; unfold _text_cast_sql.
  - destruct (starts_with ":" e); solve_closed.
  - pose proof (hole_frag _ _ He) as Hf. destruct He as (n & Heq & _).
    replace (starts_with ":" e) with true by (by subst e; cbn; destruct n). solve_closed.
Qed.

Lemma join_closed b sep l :
  (forall d, scan b (Code d Other) sep = Some (Code d Other)) -> starts_sep sep = true ->
  Forall (closed b) l -> closed b (join sep l).
Proof.
  intros Hsep Hst. induction 1 as [|e l He Hl IH]; [by exists Other|].
  destruct l as [|e2 l]; [done|]. cbn [join] in *. intros d.
  rewrite (frag_sep b e d _ (closed_frag _ _ He)) by (by destruct sep).
  rewrite (scan_lit _ _ _ _ _ (Hsep d)). apply IH.
Qed.

Lemma json_arg_closed b part e :
  (s ← _sanitize_ident part; Ok (cat ["'"; s; "'"])) = Ok e -> closed b e.
Proof.
  intros H1. bind_ok H1 as s Hs. apply sanitize_ok in Hs as [-> Hs]. injection H1 as <-.
  intros d. unfold cat. cbn [fold_right]. rewrite (scan_lit b _ (InText d) "'") by reflexivity.
  exists Other. induction part as [|c s IH]; [done|]. cbn in Hs. apply andb_true_iff in Hs as [Hc Hs].
  rewrite append_cons. cbn [scan step]. destruct (code c =? 39)%N eqn:E.
  - apply N.eqb_eq in E. unfold is_safe, is_ascii_alpha, is_ascii_lower, is_ascii_upper, is_ascii_digit,
      in_range in Hc. rewrite E in Hc. discriminate.
  - unfold is_text. rewrite Hc. cbn [orb]. by apply IH.
Qed.

Lemma json_extract_closed column parts e :
  always_closed column -> _json_extract_sql column parts = Ok e -> always_closed e.
Proof.
  intros Hcol. unfold _json_extract_sql. destruct parts as [|p parts]; [by intros [= <-]|].
  intros H1. bind_ok H1 as args Ha. injection H1 as <-. intros b.
  assert (closed b (join ", " args)) as Hargs.
  { apply join_closed; [reflexivity|done|]. apply map_result_ok in Ha.
    clear -Ha. induction Ha as [|x y l l' Hx _ IH]; constructor; [by eapply json_arg_closed|done]. }
  pose proof (Hcol b). solve_closed.
Qed.

(** The operators of the four tables. *)
Definition is_op (o : string) : Prop := o ∈ ["="; "!="; ">"; ">="; "<"; "<="; "ILIKE"; "NOT ILIKE"].
Lemma op_closed b o : is_op o -> closed b o.
Proof.
  unfold is_op. rewrite !elem_of_cons, elem_of_nil.
  intros [->|[->|[->|[->|[->|[->|[->|[->|[]]]]]]]]] d; eexists; reflexivity.
Qed.
Lemma table_op op o :
  dict_get op (_STANDARD_OPS ++ _LIKE_OPS ++ _ANY_STANDARD_OPS ++ _ANY_LIKE_OPS) = Some o -> is_op o.
Proof.
  intros Ho. apply dict_get_elem in Ho. unfold is_op.
  apply (list_elem_of_fmap_2 snd) in Ho. cbn in Ho. set_solver.
Qed.
Lemma any_sql_closed b container value o :
  operand_frag b container -> operand_frag b value -> is_op o ->
  closed b (_scalar_or_array_any_sql container value o).
Proof.
  intros Hc Hv Ho. unfold _scalar_or_array_any_sql.
  pose proof (text_cast_closed _ _ Hc). pose proof (text_cast_closed _ _ Hv).
  pose proof (operand_frag_frag _ _ Hc). pose proof (operand_frag_frag _ _ Hv).
  pose proof (op_closed b _ Ho). destruct (negb _); solve_closed.
Qed.

Lemma like_array_closed b container pattern o :
  operand_frag b container -> frag b pattern -> is_op o ->
  closed b (_scalar_or_array_like_sql container pattern o).
Proof.
  intros Hc Hp Ho. unfold _scalar_or_array_like_sql.
  pose proof (text_cast_closed _ _ Hc). pose proof (operand_frag_frag _ _ Hc).
  pose proof (op_closed b _ Ho). solve_closed.
Qed.

Lemma exists_closed b table condition :
  str_forall is_safe table = true -> frag b condition -> closed b (exists_sql table condition).
Proof. intros Ht Hc. pose proof (quoted_closed b _ Ht). unfold exists_sql. solve_closed. Qed.

Lemma null_comparison_closed b r o : frag b r -> is_op o -> closed b (null_comparison r o).
Proof.
  intros Hr Ho. pose proof (op_closed b _ Ho). unfold null_comparison. repeat case_match; solve_closed.
Qed.

Lemma infix_frag b left r o s : frag b r -> frag b s -> is_op o -> frag b (infix left r o s).
Proof.
  intros Hr Hs Ho. pose proof (op_closed b _ Ho). unfold infix. destruct left; solve_frag.
Qed.

Lemma empty_equality_closed b o l ls r rs e :
  operand_frag b ls -> operand_frag b rs ->
  _empty_equality_sql self o l ls r rs = Ok (Some e) -> closed b e.
Proof.
  intros Hl Hr. unfold _empty_equality_sql.
  destruct (negb (is_standard_eq o)); [done|]. destruct (_ && _); [done|].
  destruct (_ && _).
  { intros [= <-]. destruct (String.eqb o "="); by eexists. }
  destruct (if _is_empty_operand l then _ else _) as [other other_sql] eqn:Ho.
  assert (operand_frag b other_sql) as Hs by (destruct (_is_empty_operand l); by simplify_eq).
  pose proof (text_cast_closed _ _ Hs) as Hcast.
  destruct other; [done|..]; intros He; bind_ok He as json Hjson; destruct json; try done;
    injection He as <-; destruct (String.eqb o "="); solve_closed.
Qed.

Lemma standard_condition_frag b n r o other os left e :
  closed b r -> operand_frag b os -> is_op o ->
  standard_condition self n r o other os left = Ok e -> frag b e.
Proof.
  intros Hr Hos Ho He. unfold standard_condition in He. bind_ok He as em Hem. injection He as <-.
  destruct em as [em|].
  - apply closed_frag. eapply empty_equality_closed; [|exact Hos|exact Hem]. by left.
  - assert (frag b (infix left r o os)) by (apply infix_frag; auto with sql).
    assert (frag b (null_comparison r o)) by (apply closed_frag, null_comparison_closed; auto with sql).
    by destruct other.
Qed.

(** ** Join conditions *)
Definition step_ok (s : _TraversalStep) : Prop := str_forall is_safe (target_table s) = true.

Lemma join_condition_closed step parent e :
  _join_condition_for_step self step parent = Ok e -> always_closed e.
Proof.
  unfold _join_condition_for_step. intros He b.
  destruct (String.eqb (kind step) "back"); bind_ok He as x Hx; bind_ok He as y Hy; injection He as <-.
  - apply qualified_closed in Hx. apply column_closed in Hy. specialize (Hx b). specialize (Hy b).
    destruct (1 <? _); [apply any_sql_closed; [by left..|by left]|solve_closed].
  - apply column_closed in Hx. apply qualified_closed in Hy. specialize (Hx b). specialize (Hy b).
    destruct (1 <? _); [apply any_sql_closed; [by left..|by left]|solve_closed].
Qed.

Lemma and_frag b x y : closed b x -> frag b y -> frag b (cat [x; " AND "; y]).
Proof. intros Hx Hy. solve_frag. Qed.

Lemma wrap_exists_frag b parent steps leaf e :
  Forall step_ok steps -> frag b leaf -> wrap_exists self parent steps leaf = Ok e -> frag b e.
Proof.
  intros Hs Hleaf. revert parent e; induction Hs as [|step rest Hstep Hrest IH]; intros parent e.
  { by intros [= <-]. }
  intros He. cbn [wrap_exists] in He. bind_ok He as w Hw. bind_ok He as j Hj. injection He as <-.
  apply closed_frag, exists_closed; [done|]. apply and_frag; [|by eapply IH].
  by eapply join_condition_closed.
Qed.

(** ** Dotted paths *)
Definition resolved_ok (r : _ResolvedPath) : Prop :=
  Forall step_ok (steps r) /\ always_closed (sql r).

Lemma step_from_info_ok segment info s : _step_from_info segment info = Ok s -> step_ok s.
Proof.
  intros Hs. unfold _step_from_info in Hs. cbv zeta in Hs. bind_ok Hs as tt Ht.
  apply sanitize_ok in Ht as [-> Ht]. bind_ok Hs as ms Hms. bind_ok Hs as sf Hsf. bind_ok Hs as bf Hbf.
  destruct (_ && _); [done|]. bind_ok Hs as rk Hrk. injection Hs as <-. exact Ht.
Qed.

Lemma unresolved_not_some safe_parts acc allow context r :
  unresolved_segment safe_parts acc allow context <> Ok (Some r).
Proof. unfold unresolved_segment. destruct acc, allow; done. Qed.

Lemma resolve_segments_ok safe_parts rest flat table relations fields acc allow optimize context r :
  Forall step_ok acc ->
  resolve_segments self safe_parts rest flat table relations fields acc allow optimize context
  = Ok (Some r) -> resolved_ok r.
Proof.
  revert table relations fields acc; induction rest as [|part tail IH];
    intros table relations fields acc Hacc; [done|]. cbn [resolve_segments].
  destruct tail as [|next after].
  { intros He. bind_ok He as c Hc. injection He as <-. split; [done|]. by eapply column_closed. }
  destruct (_ || _).
  { intros He. bind_ok He as c Hc. bind_ok He as q Hq. injection He as <-. split; [done|].
    eapply json_extract_closed; [|exact Hq]. by eapply column_closed. }
  destruct (match flat with Some _ => _ | None => _ end) as [info|];
    [|by intros ?%unresolved_not_some].
  destruct (dict_mem "table" info); [|by intros ?%unresolved_not_some].
  intros He. bind_ok He as s Hs. apply step_from_info_ok in Hs.
  destruct (_ && _).
  - bind_ok He as c Hc. injection He as <-. split; [done|]. by eapply column_closed.
  - eapply IH; [|exact He]. apply Forall_app. by split; [|constructor].
Qed.

Lemma resolve_dotted_path_ok parts start relations fields allow optimize context r :
  _resolve_dotted_path self parts start relations fields allow optimize context = Ok (Some r) ->
  resolved_ok r.
Proof.
  unfold _resolve_dotted_path. intros He. bind_ok He as safe Hsafe.
  destruct safe; [done|]. bind_ok He as t Ht. by apply resolve_segments_ok in He.
Qed.

(** ** Operands *)
Definition node_ok (n : node) : Prop :=
  match n with
  | SqlRef sql _ _ => always_closed sql
  | RelationRef steps sql _ _ => Forall step_ok steps /\ always_closed sql
  | CollectionRefNode c _ _ => str_forall is_safe c = true
  | _ => True
  end.

Lemma map_sanitize_ok l l' : map_result _sanitize_ident l = Ok l' -> Forall (fun s => str_forall is_safe s = true) l'.
Proof.
  rewrite map_result_ok. induction 1 as [|x y l l' Hx _ IH]; constructor; [|done].
  by apply sanitize_ok in Hx as [-> ?].
Qed.

Lemma macro_ok name n : macro name = Ok n -> node_ok n.
Proof.
  unfold macro. destruct (negb _); [by intros [= <-]|].
  destruct (split_on _ _) as [|x [|[|c coll] [|[|c2 p] rest]]]; try done.
  intros Hn. bind_ok Hn as [cn gk] Hc. bind_ok Hn as fp Hfp. destruct fp; [done|]. injection Hn as <-.
  cbn. destruct (contains_char _ _).
  - destruct (split_first_colon _). bind_ok Hc as a Ha. bind_ok Hc as b Hb. simplify_eq.
    by apply sanitize_ok in Ha as [-> ?].
  - bind_ok Hc as a Ha. simplify_eq. by apply sanitize_ok in Ha as [-> ?].
Qed.

Lemma field_path_ok items n : field_path self items = Ok n -> node_ok n.
Proof.
  unfold field_path. destruct (rev items); [done|]. destruct (_split_modifier _) as [base md].
  intros Hn. bind_ok Hn as r Hr.
  assert (match r with Some r => resolved_ok r | None => True end) as Hok.
  { destruct r as [r|]; [|done]. destruct (_ && _); [|done]. by eapply resolve_dotted_path_ok. }
  destruct r as [r|].
  - destruct (steps r) eqn:E; [destruct (is_json r)|].
    + injection Hn as <-. apply Hok.
    + destruct md; [|bind_ok Hn as t Ht]; by injection Hn as <-.
    + injection Hn as <-. unfold resolved_ok in Hok. by rewrite E in Hok.
  - destruct md; [|bind_ok Hn as t Ht]; by injection Hn as <-.
Qed.

Lemma number_ok raw n : number raw = Ok n -> node_ok n.
Proof. unfold number. repeat case_match; intros; by simplify_eq. Qed.

Lemma transform_operand_ok o n : transform_operand self o = Ok n -> node_ok n.
Proof.
  destruct o; cbn; try by intros [= <-].
  - apply number_ok.
  - apply macro_ok.
  - apply field_path_ok.
Qed.

Lemma coerce_ok l r l' r' :
  node_ok l -> node_ok r -> _coerce_comparison_literals self l r = Ok (l', r') ->
  node_ok l' /\ node_ok r'.
Proof.
  assert (forall n t n', node_ok n -> _literal_for_field_type n t = Ok n' -> node_ok n') as Hlit.
  { intros n t n' Hn. unfold _literal_for_field_type.
    repeat case_match; intros Hu; try (bind_ok Hu as u Hu'); by injection Hu as <-. }
  intros Hl Hr He. unfold _coerce_comparison_literals in He. bind_ok He as lt Hlt. bind_ok He as rt Hrt.
  bind_ok He as r1 Hr1. bind_ok He as l1 Hl1. simplify_eq.
  split; [destruct (is_datetime_type rt)|destruct (is_datetime_type lt)]; simplify_eq; eauto.
Qed.
End Pure.

(** ** The transformer's state *)

(** The parameters are [_fp1], [_fp2], ... in the order they were made. *)
Definition state_ok (s : state) : Prop :=
  0 <= _param_counter s /\
  (_params s).*1 = (fun k => param_name (Z.of_nat k)) <$> seq 1 (Z.to_nat (_param_counter s)).

Definition bnd (s : state) : string -> bool := fun n => dict_mem n (_params s).

Record ext (s s' : state) : Prop := {
  ext_bnd : forall n, bnd s n = true -> bnd s' n = true;
  ext_ok : state_ok s -> state_ok s';
}.
#[export] Instance ext_preorder : PreOrder ext.
Proof. split; [by intros s; split|]. intros s1 s2 s3 [] []; split; auto. Qed.

Abbreviation M := (stm state exn).

(** What holds of a result and of the state it comes with. *)
Definition ens {A} (m : M A) (Q : state -> A -> Prop) (s : state) : Prop :=
  state_ok s -> forall a s', m s = (Ok a, s') -> ext s s' /\ Q s' a.

Lemma ens_ret {A} (a : A) (Q : state -> A -> Prop) s : Q s a -> ens (mret a) Q s.
Proof. intros HQ _ a' s' H. injection H as <- <-. by split. Qed.
Lemma ens_lift {A} (r : result exn A) (Q : state -> A -> Prop) s :
  (forall a, r = Ok a -> Q s a) -> ens (lift r) Q s.
Proof. intros HQ _ a s' H. injection H as -> ->. split; [done|auto]. Qed.
Lemma ens_raise {A} e (Q : state -> A -> Prop) s : ens (stm_raise e) Q s.
Proof. by intros _ a s' H. Qed.
Lemma ens_bind {A B} (m : M A) (f : A -> M B) (R : state -> A -> Prop) (Q : state -> B -> Prop) s :
  ens m R s -> (forall a s1, ext s s1 -> R s1 a -> ens (f a) Q s1) -> ens (m ≫= f) Q s.
Proof.
  intros Hm Hf Hs b s' H. sbind_ok H as a s1 Ha. apply Hm in Ha as [He Ha]; [|done].
  apply (Hf a s1 He Ha) in H as [He' HQ]; [|by apply He]. split; [by etrans|done].
Qed.

Lemma ens_lift_bind {A B} (r : result exn A) (f : A -> M B) (Q : state -> B -> Prop) s :
  (forall a, r = Ok a -> ens (f a) Q s) -> ens (lift r ≫= f) Q s.
Proof.
  intros Hf. eapply (ens_bind _ _ (fun s1 a => r = Ok a /\ s1 = s)).
  - by apply ens_lift.
  - intros a s1 _ [Hr ->]. auto.
Qed.
Lemma ens_weaken {A} (m : M A) (R Q : state -> A -> Prop) s :
  ens m R s -> (forall s' a, ext s s' -> R s' a -> Q s' a) -> ens m Q s.
Proof. intros Hm HQ Hs a s' H. apply Hm in H as [He HR]; [|done]. split; auto. Qed.

Lemma ext_operand s s' e : ext s s' -> operand_frag (bnd s) e -> operand_frag (bnd s') e.
Proof. intros [Hb _]. by apply operand_mono. Qed.
Lemma ext_frag s s' e : ext s s' -> frag (bnd s) e -> frag (bnd s') e.
Proof. intros [Hb _]. by apply frag_mono. Qed.
Lemma ext_closed s s' e : ext s s' -> closed (bnd s) e -> closed (bnd s') e.
Proof. intros [Hb _]. by apply closed_mono. Qed.
#[export] Hint Resolve ext_operand ext_frag ext_closed : sql.

(** *** Numerals and parameter names *)
Lemma digit_safe c : is_ascii_digit c = true -> is_safe c = true.
Proof. intros H. unfold is_safe. by rewrite H, orb_true_r. Qed.

Lemma str_of_Z_closed b z : closed b (str_of_Z z).
Proof.
  destruct (str_of_Z_numeral z) as (ds & Hd & _ & Hz & _).
  assert (str_forall is_safe ds = true) as Hs by (by eapply str_forall_impl, Hd; apply digit_safe).
  destruct Hz as [-> | ->]; [by apply safe_closed|].
  intros d. cbn [scan step]. change (code_step d Other "-") with (Some (Code d Minus)). cbv beta iota.
  by apply scan_safe.
Qed.

Lemma param_name_inj x y : param_name x = param_name y -> x = y.
Proof. unfold param_name, cat. cbn. intros H. simplify_eq. rewrite !append_nil_r in *. by apply str_of_Z_inj. Qed.

Lemma param_name_safe n : 0 <= n -> str_forall is_safe (param_name n) = true.
Proof.
  intros Hn. destruct (str_of_Z_numeral n) as (ds & Hd & _ & _ & Heq). unfold param_name, cat.
  cbn [fold_right]. rewrite Heq, append_nil_r by done. rewrite str_forall_app. cbn.
  by eapply str_forall_impl, Hd; apply digit_safe.
Qed.

Lemma next_param_ok s : state_ok s -> param_name (_param_counter s + 1) ∉ (_params s).*1.
Proof.
  intros [Hc Hk] Hin. rewrite Hk in Hin. apply list_elem_of_fmap in Hin as (k & Heq & Hin).
  apply param_name_inj in Heq. apply elem_of_seq in Hin. lia.
Qed.

Lemma ens_next_param v s : ens (_next_param v) (fun s' n => name_ok (bnd s') n) s.
Proof.
  intros Hs n s' H. unfold _next_param in H. cbn in H. injection H as <- <-.
  pose proof (next_param_ok _ Hs) as Hnew. destruct Hs as [Hc Hk].
  set (name := param_name (_param_counter s + 1)) in *.
  assert (state_ok (mkState (_param_counter s + 1) (dict_set name v (_params s)))) as Hok.
  { split; cbn; [lia|]. rewrite dict_set_keys. unfold dict_mem.
    apply dict_get_none in Hnew as ->. rewrite Hk, Z2Nat.inj_add, seq_app, fmap_app by lia. cbn.
    unfold name. f_equal. change (Z.to_nat 1) with 1%nat. cbn. do 2 f_equal. lia. }
  split; [split|split_and!]; try done.
  - intros m Hm. unfold bnd, dict_mem in *. cbn. destruct (String.eqb_spec name m) as [<-|Hne].
    + by rewrite dict_get_set_eq.
    + by rewrite dict_get_set_ne.
  - unfold name. apply param_name_safe. lia.
  - unfold bnd, dict_mem. cbn. by rewrite dict_get_set_eq.
Qed.

Lemma ens_bind_param v s : ens (bind_param v) (fun s' e => hole (bnd s') e) s.
Proof.
  unfold bind_param. eapply ens_bind; [by apply ens_next_param|].
  intros n s1 _ Hn. apply ens_ret. unfold cat. cbn. rewrite append_nil_r. by apply name_hole.
Qed.

(** *** Float literals *)
Fixpoint float_text (after_minus : bool) (s : string) : bool :=
  match s with
  | EmptyString => true
  | String c s' =>
      if (code c =? 45)%N then negb after_minus && float_text true s'
      else (is_safe c || contains_char c ".+") && float_text false s'
  end.

(** Python writes a float with digits, letters, a point and signs, never two
    minus signs in a row. *)
Class FloatTextLaws `{FloatText} : Prop :=
  float_repr_text : forall f, float_text false (float_repr f) = true.

Lemma float_closed `{FloatTextLaws} b f : closed b (float_repr f).
Proof.
  pose proof (float_repr_text f) as Hf. intros d. revert Hf.
  enough (forall s am p, p <> Minus \/ am = true -> float_text am s = true ->
            exists p', scan b (Code d p) s = Some (Code d p')) as Hg.
  { apply Hg. by left. }
  clear f. induction s as [|c s IH]; intros am p Hp Hs; [by eexists|]. cbn in Hs.
  cbn [scan step]. unfold code_step. destruct (code c =? 45)%N eqn:E.
  - apply andb_true_iff in Hs as [Ham Hs]. destruct am; [done|]. destruct Hp as [Hp|Hp]; [|done].
    apply N.eqb_eq in E. assert (c = char 45) as -> by (unfold char, code in *; by rewrite <- E, ascii_N_embedding).
    change (is_safe (char 45)) with false. change (is_punct (char 45)) with false. cbn.
    destruct p; [..|done]; apply (IH true); auto.
  - apply andb_true_iff in Hs as [Hc Hs]. apply orb_true_iff in Hc.
    destruct (is_safe c); [apply (IH false); [by left|done]|].
    destruct Hc as [Hc|Hc]; [done|]. replace (is_punct c) with true; [apply (IH false); [by left|done]|].
    symmetry. unfold is_punct. cbn in Hc |- *. rewrite orb_false_r, orb_true_iff in Hc.
    destruct Hc as [->| ->]; by rewrite ?orb_true_r.
Qed.

(** ** Operands and conditions *)
Section Conditions.
Context `{FloatTextLaws, IsoFormat} (self : config).
Hint Resolve always_at always_operand : sql.

(** The value of [e] is SQL with its placeholders bound. *)
Abbreviation ens_operand m := (ens m (fun s e => operand_frag (bnd s) e)).
Abbreviation ens_frag m := (ens m (fun s e => frag (bnd s) e)).

Lemma ens_hole v s : ens_operand (bind_param v) s.
Proof. eapply ens_weaken; [apply ens_bind_param|]. by right. Qed.

Lemma changed_closed b f n : closed b f -> name_ok b n -> closed b (changed_sql f n).
Proof. intros Hf Hn. unfold changed_sql. solve_closed. Qed.

Lemma date_macro_closed b name e : dict_get name date_macros = Some e -> closed b e.
Proof.
  intros He. apply dict_get_elem, (list_elem_of_fmap_2 snd) in He. cbn in He.
  rewrite !elem_of_cons, elem_of_nil in He.
  repeat destruct He as [->|He]; [intros d; exists Other; reflexivity..|done].
Qed.

Lemma field_modifier_ens name modifier s :
  ens_operand (_resolve_field_modifier self name modifier) s.
Proof.
  unfold _resolve_field_modifier. apply ens_lift_bind. intros f Hf. apply field_expr_closed in Hf.
  repeat case_match; try apply ens_raise; try (apply ens_ret; left; specialize (Hf (bnd s)); solve_closed).
  eapply ens_bind; [apply ens_next_param|]. intros n s1 _ Hn. apply ens_ret. left.
  by apply changed_closed.
Qed.

Lemma body_macro_ens name s : ens_operand (resolve_body_macro self name) s.
Proof.
  unfold resolve_body_macro. destruct (_split_modifier _) as [field md]. cbv zeta.
  generalize (match request_data self with Some data => dict_get field data | None => None end).
  intros found. destruct md as [md|]; [|apply ens_hole].
  destruct (String.eqb md "isset"); [apply ens_hole|].
  destruct (String.eqb md "length"); [apply ens_hole|].
  destruct (String.eqb md "changed").
  { destruct found; cbn; [|apply ens_ret; left; by eexists].
    apply ens_lift_bind. intros f Hf. apply sanitize_ok in Hf as [-> Hf].
    eapply ens_bind; [apply ens_next_param|]. intros n s1 _ Hn. apply ens_ret. left.
    apply changed_closed; auto with sql. }
  destruct (String.eqb md "each"); [|destruct (String.eqb md "lower"); apply ens_hole].
  eapply ens_bind; [apply ens_next_param|]. intros n s1 _ Hn. apply ens_ret. left. solve_closed.
Qed.

Lemma macro_ens name s : ens_operand (_resolve_macro self name) s.
Proof.
  unfold _resolve_macro. destruct (_ ≫= _); [apply ens_hole|].
  destruct (dict_get _ date_macros) eqn:Hd.
  { apply ens_ret. left. by eapply date_macro_closed. }
  repeat case_match; try apply ens_hole; try apply body_macro_ens.
  all: unfold section_value; repeat case_match; try apply ens_hole; apply ens_raise.
Qed.

Lemma operand_ens n s :
  node_ok n -> is_relation_ref n = false -> ens_operand (_operand_to_sql self n) s.
Proof.
  intros Hok Hrel. destruct n as [v| |name|c p k|f t|f md|st q j t|q j t]; cbn [_operand_to_sql].
  - destruct v as [[|b|z|f|x|l|d]|u]; try apply ens_hole; apply ens_ret; left.
    + destruct b; by eexists.
    + apply str_of_Z_closed.
    + apply float_closed.
  - apply ens_ret. left. by eexists.
  - apply macro_ens.
  - apply ens_ret. left. by apply safe_closed.
  - apply ens_lift. intros e He. left. by eapply field_expr_closed.
  - apply field_modifier_ens.
  - done.
  - apply ens_ret. left. apply Hok.
Qed.

Lemma like_pattern_ens n sql s :
  operand_frag (bnd s) sql -> ens_frag (_like_pattern_sql n sql) s.
Proof.
  intros Hs. destruct n; cbn [_like_pattern_sql].
  1: by eapply ens_weaken; [apply ens_bind_param|]; auto with sql.
  1: by apply ens_ret, closed_frag; eexists.
  all: apply ens_ret, closed_frag; pose proof (text_cast_closed _ _ Hs).
  all: intros d; unfold cat; cbn [fold_right];
    rewrite (scan_lit _ _ (Code (S d) Other) "('%' || ") by reflexivity; scan_pieces; by eexists.
Qed.

Lemma like_comparison_ens m n p o s :
  operand_frag (bnd s) m -> operand_frag (bnd s) p -> is_op o ->
  ens_frag (_like_comparison_sql m n p o) s.
Proof.
  intros Hm Hp Ho. unfold _like_comparison_sql. eapply ens_bind; [by apply like_pattern_ens|].
  intros e s1 Hext He. apply ens_ret. pose proof (text_cast_closed _ _ (ext_operand _ _ _ Hext Hm)).
  pose proof (op_closed (bnd s1) _ Ho). solve_frag.
Qed.

Lemma is_op_standard op o : dict_get op _STANDARD_OPS = Some o -> is_op o.
Proof. intros Ho. apply (table_op op). by rewrite dict_get_app, Ho. Qed.
Lemma is_op_like op o : dict_get op _LIKE_OPS = Some o -> is_op o.
Proof.
  intros Ho%dict_get_elem%(list_elem_of_fmap_2 snd). unfold is_op. cbn in Ho. set_solver.
Qed.
Lemma is_op_any op o : dict_get op _ANY_STANDARD_OPS = Some o -> is_op o.
Proof.
  intros Ho%dict_get_elem%(list_elem_of_fmap_2 snd). unfold is_op. cbn in Ho. set_solver.
Qed.
Lemma is_op_any_like op o : dict_get op _ANY_LIKE_OPS = Some o -> is_op o.
Proof.
  intros Ho%dict_get_elem%(list_elem_of_fmap_2 snd). unfold is_op. cbn in Ho. set_solver.
Qed.
Lemma is_op_eq : is_op "=".
Proof. unfold is_op. set_solver. Qed.
Hint Resolve is_op_standard is_op_like is_op_any is_op_any_like is_op_eq
  infix_frag any_sql_closed like_array_closed : sql.

Lemma like_condition_ens r o other os left s :
  operand_frag (bnd s) r -> operand_frag (bnd s) os -> is_op o ->
  ens_frag (like_condition r o other os left) s.
Proof. intros Hr Hos Ho. unfold like_condition. destruct left; by apply like_comparison_ens. Qed.

Lemma ref_condition_ens n r op other os left s :
  always_closed r -> operand_frag (bnd s) os -> ens_frag (ref_condition self n r op other os left) s.
Proof.
  intros Hr Hos. assert (operand_frag (bnd s) r) as Hro by (by left).
  unfold ref_condition. destruct (dict_get op _STANDARD_OPS) as [o|] eqn:E1.
  { apply ens_lift. intros e He. eapply standard_condition_frag; [..|exact He]; eauto with sql. }
  destruct (dict_get op _LIKE_OPS) as [o|] eqn:E2; [apply like_condition_ens; eauto with sql|].
  destruct (dict_get op _ANY_STANDARD_OPS) as [o|] eqn:E3.
  { apply ens_ret. destruct left; eauto with sql. }
  destruct (dict_get op _ANY_LIKE_OPS) as [o|] eqn:E4.
  - destruct left; (eapply ens_bind; [by apply like_pattern_ens|]); intros p s1 Hext Hp;
      apply ens_ret; eauto with sql.
  - apply ens_ret. eauto with sql.
Qed.

(** *** [@collection] *)
Definition ref_ok (r : _CollectionRef) : Prop :=
  str_forall is_safe (ref_table_name r) = true /\ Forall step_ok (relation_steps r) /\
  (forall c, column_sql r = Some c -> always_closed c) /\
  (forall l, leaf_sql r = Some l -> always_closed l).

Lemma resolve_collection_ref_ok c p k r :
  _resolve_collection_ref self c p k = Ok r -> ref_ok r.
Proof.
  unfold _resolve_collection_ref. intros Hr. bind_ok Hr as cn Hc. bind_ok Hr as fp Hfp.
  apply sanitize_ok in Hc as [-> Hc].
  assert (forall k' c' t, always_closed c' -> ref_ok (mkCollectionRef c k' (Some c') [] None false t)) as Hcol.
  { intros k' c' t Hcl. split_and!; cbn; [done|constructor|intros ? [= <-]; done|done]. }
  destruct fp as [|f [|f2 fp]].
  2: { bind_ok Hr as ft Hft. bind_ok Hr as col Hq. injection Hr as <-. apply Hcol.
       by eapply qualified_closed. }
  all: bind_ok Hr as res Hres; destruct res as [res|]; [|done];
    apply resolve_dotted_path_ok in Hres as [Hst Hq];
    destruct (steps res) eqn:E; injection Hr as <-; [by apply Hcol|];
    split_and!; cbn; [done|done|done|intros ? [= <-]; done].
Qed.

Lemma ref_sql_closed r e : ref_ok r -> ref_sql r = Ok e -> always_closed e.
Proof.
  intros (_ & _ & Hc & Hl). unfold ref_sql, _collection_relation_leaf_sql.
  destruct (column_sql r) as [c|]; [intros [= <-]; auto|].
  destruct (relation_steps r), (leaf_sql r) as [[|]|]; try done. intros [= <-]. auto.
Qed.

Lemma wrap_unless_frag b r c e : ref_ok r -> frag b c -> wrap_unless_column self r c = Ok e -> frag b e.
Proof.
  intros (_ & Hs & _) Hc. unfold wrap_unless_column, _wrap_collection_relation_exists.
  destruct (column_sql r); [by intros [= <-]|]. by apply wrap_exists_frag.
Qed.

Lemma literal_for_field_ok n t n' :
  _literal_for_field_type n t = Ok n' ->
  (node_ok n -> node_ok n') /\ is_relation_ref n' = is_relation_ref n.
Proof.
  unfold _literal_for_field_type. repeat case_match; intros Hu; try (bind_ok Hu as u Hu');
    by injection Hu as <-.
Qed.

Lemma collection_condition_ens r op other left s :
  ref_ok r -> node_ok other -> is_relation_ref other = false ->
  ens_frag (_collection_ref_condition self r op other left) s.
Proof.
  intros Hr Hn Hrel. unfold _collection_ref_condition. apply ens_lift_bind. intros sql Hsql.
  apply ens_lift_bind. intros other' Ho.
  assert (node_ok other' /\ is_relation_ref other' = false) as [Hn' Hrel'].
  { destruct (is_datetime_type _); [|by injection Ho as <-].
    apply literal_for_field_ok in Ho as [Ho1 ->]. auto. }
  eapply ens_bind; [by apply operand_ens|]. intros os s1 _ Hos.
  eapply ens_bind; [apply ref_condition_ens; [by eapply ref_sql_closed|done]|]. intros c s2 _ Hc.
  apply ens_lift. intros e He. exact (wrap_unless_frag _ _ _ _ Hr Hc He).
Qed.

(** *** Items *)
Definition item_ok (b : string -> bool) (i : item) : Prop :=
  match i with
  | Sql e => frag b e
  | CollItem c => str_forall is_safe (cc_table_name c) = true /\ frag b (inner_sql c)
  | RelItem r =>
      str_forall is_safe (rc_target_table r) = true /\ closed b (join_cond r) /\ frag b (where_cond r)
  end.
Lemma item_sql_ok b e : frag b e -> item_ok b (Sql e).
Proof. done. Qed.
Abbreviation ens_item m := (ens m (fun s i => item_ok (bnd s) i)).

Lemma standard_or_eq_op op : is_op (standard_or_eq op).
Proof. unfold standard_or_eq. destruct (dict_get _ _) eqn:E; cbn; eauto with sql. Qed.

Lemma two_collections_ok b l r op i :
  ref_ok l -> ref_ok r -> two_collections self l r op = Ok i -> item_ok b i.
Proof.
  intros Hl Hr He. unfold two_collections in He. bind_ok He as lc Hlc. bind_ok He as rc Hrc.
  apply ref_sql_closed in Hlc, Hrc; [|done..]. specialize (Hlc b). specialize (Hrc b).
  pose proof (op_closed b _ (standard_or_eq_op op)).
  bind_ok He as i1 Hi1. bind_ok He as i2 Hi2. injection He as <-.
  apply (wrap_unless_frag b) in Hi1; [|done|solve_frag]. apply (wrap_unless_frag b) in Hi2; [|done|done].
  destruct (String.eqb _ _); [split; [apply Hl|done]|].
  pose proof (quoted_closed b _ (proj1 Hl)). pose proof (quoted_closed b _ (proj1 Hr)).
  apply item_sql_ok. solve_frag.
Qed.

Lemma collection_comparison_ens left op right s :
  node_ok left -> node_ok right -> is_relation_ref left = false -> is_relation_ref right = false ->
  ens_item (_collection_comparison self left op right) s.
Proof.
  intros Hl Hr Hlr Hrr. unfold _collection_comparison.
  assert (forall c ref, resolve_ref self c = Ok ref -> ref_ok ref) as Href.
  { intros [[c p] k] ref. apply resolve_collection_ref_ok. }
  assert (forall ref other coll_left, ref_ok ref -> node_ok other -> is_relation_ref other = false ->
    ens_item (one_collection self ref op other coll_left) s) as Hone.
  { intros ref other cl Hok Hn Hrel. unfold one_collection.
    eapply ens_bind; [by apply collection_condition_ens|]. intros c s1 _ Hc. apply ens_ret.
    split; [apply Hok|done]. }
  destruct (as_collection_ref left), (as_collection_ref right); [..|apply ens_raise];
    apply ens_lift_bind; intros lr Hlrf%Href; [|by apply Hone..].
  apply ens_lift_bind; intros rr Hrrf%Href. apply ens_lift. intros i Hi. exact (two_collections_ok _ _ _ _ _ Hlrf Hrrf Hi).
Qed.

(** *** Relation traversals *)
Lemma relation_condition_ok b steps leaf i :
  Forall step_ok steps -> frag b leaf -> _relation_condition_for_steps self steps leaf = Ok i ->
  item_ok b i.
Proof.
  intros Hs Hleaf. unfold _relation_condition_for_steps. destruct Hs as [|first rest Hf Hs]; [done|].
  intros He. bind_ok He as j Hj. bind_ok He as w Hw. injection He as <-. split_and!; cbn; [done|..].
  - by eapply join_condition_closed.
  - by eapply wrap_exists_frag.
Qed.

Lemma two_relations_ok b ls lc rs rc op i :
  Forall step_ok ls -> always_closed lc -> Forall step_ok rs -> always_closed rc ->
  two_relations self ls lc rs rc op = Ok i -> item_ok b i.
Proof.
  intros Hls Hlc Hrs Hrc. unfold two_relations.
  destruct Hls as [|l1 ls Hl1 Hls]; [destruct Hrs as [|? ? ? []]; done|].
  destruct Hls; [|done]. destruct Hrs as [|r1 rs Hr1 Hrs]; [done|]. destruct Hrs; [|done].
  intros He. bind_ok He as lj Hlj. bind_ok He as rj Hrj. injection He as <-.
  apply join_condition_closed in Hlj, Hrj. specialize (Hlj b). specialize (Hrj b).
  specialize (Hlc b). specialize (Hrc b). pose proof (op_closed b _ (standard_or_eq_op op)).
  pose proof (quoted_closed b _ Hl1). pose proof (quoted_closed b _ Hr1). apply item_sql_ok. solve_frag.
Qed.

Lemma relation_comparison_ens left op right s :
  node_ok left -> node_ok right -> ens_item (_relation_comparison self left op right) s.
Proof.
  intros Hl Hr. unfold _relation_comparison.
  assert (forall n st c other rel_left, Forall step_ok st -> always_closed c -> node_ok other ->
    as_relation_ref other = None -> ens_item (one_relation self n st c op other rel_left) s) as Hone.
  { intros n st c other rl Hst Hc Hn Hrel. unfold one_relation.
    eapply ens_bind; [apply operand_ens; [done|by destruct other]|]. intros os s1 _ Hos.
    eapply ens_bind; [by apply ref_condition_ens|]. intros w s2 _ Hw.
    apply ens_lift. intros i Hi. exact (relation_condition_ok _ _ _ _ Hst Hw Hi). }
  destruct left; destruct right; cbn [as_relation_ref]; try apply ens_raise;
    try (by apply Hone; [apply Hl|apply Hl|..]); try (by apply Hone; [apply Hr|apply Hr|..]).
  apply ens_lift. intros i Hi. destruct Hl as [Hl1 Hl2], Hr as [Hr1 Hr2].
  exact (two_relations_ok _ _ _ _ _ _ _ Hl1 Hl2 Hr1 Hr2 Hi).
Qed.

(** *** [:each] and regular comparisons *)
Lemma extract_each_ens n s :
  ens (_extract_each_operand self n)
    (fun s o => match o with Some (_, e) => closed (bnd s) e | None => True end) s.
Proof.
  unfold _extract_each_operand. destruct n; try by apply ens_ret.
  - cbv zeta. destruct (is_body_macro _); [|by apply ens_ret]. destruct (_split_modifier _) as [f [md|]];
      [|by apply ens_ret]. destruct (String.eqb md "each"); [|by apply ens_ret].
    destruct (_extract_request_data_field_value _ _). eapply ens_bind; [apply ens_next_param|].
    intros n s1 _ Hn. apply ens_ret. solve_closed.
  - destruct (String.eqb _ _); [|by apply ens_ret]. apply ens_lift_bind. intros f Hf.
    apply field_expr_closed in Hf. specialize (Hf (bnd s)). apply ens_ret. solve_closed.
Qed.

Lemma each_item_ens op other left s :
  node_ok other -> is_relation_ref other = false ->
  ens_frag (_build_each_item_condition self "_elem" op other left) s.
Proof.
  intros Hn Hrel. unfold _build_each_item_condition. eapply ens_bind; [by apply operand_ens|].
  intros os s1 _ Hos. assert (always_closed "_elem") as Hel by (intros b; by apply safe_closed).
  assert (operand_frag (bnd s1) "_elem") by (by left).
  destruct (dict_get op _STANDARD_OPS) as [o|] eqn:E1.
  { apply ens_lift. intros e He. eapply standard_condition_frag; [..|exact He]; eauto with sql. }
  destruct (dict_get op _LIKE_OPS) as [o|] eqn:E2; [apply like_condition_ens; eauto with sql|].
  apply ens_ret. eauto with sql.
Qed.

Lemma each_ens left op right le re s :
  node_ok left -> node_ok right -> is_relation_ref left = false -> is_relation_ref right = false ->
  match le with Some (_, e) => closed (bnd s) e | None => True end ->
  match re with Some (_, e) => closed (bnd s) e | None => True end ->
  ens_frag (_each_comparison self left op right le re) s.
Proof.
  intros Hl Hr Hlr Hrr Hle Hre. unfold _each_comparison.
  assert (forall array cond s1, closed (bnd s1) array -> frag (bnd s1) cond ->
    ens_frag (mret (cat ["NOT EXISTS (SELECT 1 FROM unnest("; array;
      ") AS _elem WHERE NOT COALESCE(("; cond; "), FALSE))"])) s1) as Hlast.
  { intros a c s1 Ha Hc. apply ens_ret. solve_frag. }
  destruct le as [[k1 a1]|], re as [[k2 a2]|]; [apply ens_raise|..];
    (eapply (ens_bind _ _ (fun s '(a, c) => closed (bnd s) a /\ frag (bnd s) c));
     [eapply ens_bind; [by apply each_item_ens|];
      intros c s1 Hext Hc; apply ens_ret; split; [|done]|
      intros [a c] s1 _ [Ha Hc]; by apply Hlast]); eauto with sql.
  by intros d; exists Other.
Qed.

Lemma regular_standard_frag b l ls o r rs e :
  operand_frag b ls -> operand_frag b rs -> is_op o ->
  regular_standard self l ls o r rs = Ok e -> frag b e.
Proof.
  intros Hl Hr Ho He. unfold regular_standard in He. bind_ok He as em Hem. injection He as <-.
  destruct em as [em|]; [eapply closed_frag, empty_equality_closed; [exact Hl|exact Hr|exact Hem]|].
  pose proof (op_closed b _ Ho). pose proof (operand_frag_frag _ _ Hl). pose proof (operand_frag_frag _ _ Hr).
  destruct l, r; cbn [default]; repeat case_match; simplify_eq; cbn [default]; unfold id; solve_frag.
Qed.

Lemma regular_ens left op right s :
  node_ok left -> node_ok right -> is_relation_ref left = false -> is_relation_ref right = false ->
  ens_frag (regular_comparison self left op right) s.
Proof.
  intros Hl Hr Hlr Hrr. unfold regular_comparison. eapply ens_bind; [by apply operand_ens|].
  intros ls s0 _ Hls. eapply ens_bind; [by apply operand_ens|]. intros rs s1 Hext Hrs.
  apply (ext_operand _ _ _ Hext) in Hls. clear Hext.
  destruct (dict_get op _STANDARD_OPS) as [o|] eqn:E1.
  { apply ens_lift. intros e He. eapply regular_standard_frag; [..|exact He]; eauto with sql. }
  destruct (dict_get op _LIKE_OPS) as [o|] eqn:E2; [apply like_comparison_ens; eauto with sql|].
  destruct (dict_get op _ANY_STANDARD_OPS) as [o|] eqn:E3; [apply ens_ret; eauto with sql|].
  destruct (dict_get op _ANY_LIKE_OPS) as [o|] eqn:E4.
  - eapply ens_bind; [by apply like_pattern_ens|]. intros p s2 Hext Hp. apply ens_ret. eauto with sql.
  - apply ens_ret. pose proof (operand_frag_frag _ _ Hls). pose proof (operand_frag_frag _ _ Hrs). solve_frag.
Qed.

Lemma comparison_ens left op right s :
  node_ok left -> node_ok right -> ens_item (comparison self left op right) s.
Proof.
  intros Hl Hr. unfold comparison. cbv zeta. apply ens_lift_bind. intros [l r] Hlr.
  assert (node_ok l /\ node_ok r) as [Hl' Hr'].
  { destruct (dict_mem _ _); [exact (coerce_ok _ _ _ _ _ Hl Hr Hlr)|by simplify_eq]. }
  clear Hl Hr Hlr left right. destruct (is_relation_ref l || is_relation_ref r) eqn:Hrel.
  { by apply relation_comparison_ens. }
  apply orb_false_iff in Hrel as [Hrl Hrr]. destruct (_ || _); [by apply collection_comparison_ens|].
  eapply ens_bind; [apply extract_each_ens|]. intros le s1 _ Hle.
  eapply ens_bind; [apply extract_each_ens|]. intros re s2 Hext Hre.
  assert (match le with Some (_, e) => closed (bnd s2) e | None => True end) as Hle'.
  { destruct le as [[k e]|]; [by eapply ext_closed|done]. }
  destruct le, re; (eapply ens_bind; [first [by apply each_ens|by apply regular_ens]|]);
    intros e s3 _ He; by apply ens_ret.
Qed.
End Conditions.

(** ** Groups *)
Section Groups.
Variable b : string -> bool.

Lemma frag_nil : frag b "".
Proof. intros d. exists (Code d Other). split; [done|apply Nat.eqb_refl]. Qed.

Lemma join_frag sep l :
  (forall d, scan b (Code d Other) sep = Some (Code d Other)) -> starts_sep sep = true ->
  Forall (frag b) l -> frag b (join sep l).
Proof.
  intros Hsep Hst. induction 1 as [|e l He Hl IH]; [apply frag_nil|].
  destruct l as [|e2 l]; [done|]. cbn [join] in *. intros d.
  rewrite (frag_sep b e d _ He) by (by destruct sep).
  rewrite (scan_lit _ _ _ _ _ (Hsep d)). apply IH.
Qed.

Lemma group_frag sep parts :
  (forall d, scan b (Code d Other) sep = Some (Code d Other)) -> starts_sep sep = true ->
  Forall (frag b) parts -> frag b (group_sql sep parts).
Proof.
  intros Hsep Hst Hp. pose proof (join_frag sep parts Hsep Hst Hp) as Hj.
  unfold group_sql. destruct Hp as [|p parts Hp Hps]; [solve_frag|].
  destruct Hps; [done|solve_frag].
Qed.

Lemma or_part_frag i : item_ok b i -> frag b (or_part i).
Proof.
  destruct i as [e|c|r]; cbn [item_ok or_part]; [done|..].
  - intros [Ht Hi]. by apply closed_frag, exists_closed.
  - intros (Ht & Hj & Hw). apply closed_frag, exists_closed, join_frag; [done..|].
    repeat constructor; [by apply closed_frag|done].
Qed.

Lemma or_expr_frag items : Forall (item_ok b) items -> frag b (or_expr items).
Proof.
  intros Hi. apply group_frag; [done..|]. apply Forall_fmap. eapply Forall_impl; [exact Hi|].
  apply or_part_frag.
Qed.

Definition rel_ok (r : _RelationCondition) : Prop := item_ok b (RelItem r).
Definition values_ok {A} (P : A -> Prop) (d : list (string * A)) : Prop := Forall (fun kv => P kv.2) d.

Lemma values_set {A} (P : A -> Prop) k v d : values_ok P d -> P v -> values_ok P (dict_set k v d).
Proof.
  intros Hd Hv. induction Hd as [|[k' w] d Hw Hd IH]; cbn; [by constructor|].
  destruct (String.eqb k' k); by constructor.
Qed.
Lemma values_push {A} (P : A -> Prop) k x d :
  values_ok (Forall P) d -> P x -> values_ok (Forall P) (dict_push k x d).
Proof.
  intros Hd Hx. apply values_set; [done|]. apply Forall_app. split; [|by constructor].
  destruct (dict_get k d) eqn:Hk; [|constructor]. apply dict_get_elem in Hk.
  unfold values_ok in Hd. rewrite Forall_forall in Hd. by apply Hd in Hk.
Qed.

Record groups_ok (g : groups) : Prop := {
  ok_coll : values_ok (Forall (frag b)) (coll_groups g);
  ok_tables : values_ok (fun t => str_forall is_safe t = true) (coll_tables g);
  ok_rel : values_ok (Forall rel_ok) (rel_groups g);
  ok_regular : Forall (frag b) (regular_parts g);
}.

Lemma collect_ok g i : groups_ok g -> item_ok b i -> groups_ok (collect g i).
Proof.
  intros [Hc Ht Hr Hp] Hi. destruct i as [e|c|r]; split; cbn; try done.
  - apply Forall_app. split; [done|by constructor].
  - apply values_push; [done|apply Hi].
  - unfold dict_setdefault. destruct (dict_mem _ _); [done|]. apply values_set; [done|apply Hi].
  - by apply values_push.
Qed.

Lemma and_expr_frag items : Forall (item_ok b) items -> frag b (and_expr items).
Proof.
  intros Hi. unfold and_expr. cbv zeta.
  assert (groups_ok (foldl collect (mkGroups [] [] [] []) items)) as [Hc Ht Hr Hp].
  { assert (groups_ok (mkGroups [] [] [] [])) as Hg by (by split; constructor).
    revert Hg. generalize (mkGroups [] [] [] []). induction Hi as [|i items Hi1 _ IH]; intros g Hg; [done|].
    cbn. by apply IH, collect_ok. }
  apply group_frag; [done..|]. apply Forall_app. split; [done|]. apply Forall_app. split.
  - apply Forall_fmap. eapply Forall_impl; [exact Hc|]. intros [k conds] Hconds.
    apply closed_frag, exists_closed; [|by apply join_frag].
    destruct (dict_get k _) as [t|] eqn:Hk; [|done]. apply dict_get_elem in Hk.
    unfold values_ok in Ht. rewrite Forall_forall in Ht. by apply Ht in Hk.
  - apply Forall_fmap. eapply Forall_impl; [exact Hr|]. intros [k rs] Hrs. unfold compose, rel_part. cbn [snd] in *.
    destruct Hrs as [|r rs (Htab & Hj & Hw) Hrs]; [apply frag_nil|].
    apply closed_frag, exists_closed, join_frag; [done..|]. constructor; [by apply closed_frag|].
    rewrite fmap_cons. constructor; [done|]. apply Forall_fmap. eapply Forall_impl; [exact Hrs|]. by intros r' (_ & _ & ?).
Qed.
End Groups.

(** ** Trees *)
Section Trees.
Context `{FloatTextLaws, IsoFormat}.

Lemma ext_item s s' i : ext s s' -> item_ok (bnd s) i -> item_ok (bnd s') i.
Proof.
  intros He. destruct i; cbn; [eauto with sql|..].
  - intros [? ?]. eauto with sql.
  - intros (? & ? & ?). eauto with sql.
Qed.

Lemma children_ens_aux self l s :
  Forall (fun t => forall s, ens (transform self t) (fun s i => item_ok (bnd s) i) s) l ->
  ens (transform_children self l) (fun s l => Forall (item_ok (bnd s)) l) s.
Proof.
  intros Hl. revert s. induction Hl as [|t l Ht Hl IH]; intros s; [by apply ens_ret|].
  cbn [transform_children]. eapply ens_bind; [apply Ht|]. intros i s1 _ Hi.
  eapply ens_bind; [apply IH|]. intros rest s2 Hext Hrest. apply ens_ret. constructor; [|done].
  by eapply ext_item.
Qed.

Lemma transform_ens self t s : ens (transform self t) (fun s i => item_ok (bnd s) i) s.
Proof.
  revert s. induction t as [l Hl|l Hl|l op r] using tree_induction; intros s.
  - rewrite transform_or. eapply ens_bind; [by apply children_ens_aux|].
    intros its s1 _ Hits. apply ens_ret. by apply or_expr_frag.
  - rewrite transform_and. eapply ens_bind; [by apply children_ens_aux|].
    intros its s1 _ Hits. apply ens_ret. by apply and_expr_frag.
  - cbn [transform]. apply ens_lift_bind. intros ln Hln%transform_operand_ok.
    apply ens_lift_bind. intros rn Hrn%transform_operand_ok. by apply comparison_ens.
Qed.

Lemma children_ens self l s :
  ens (transform_children self l) (fun s l => Forall (item_ok (bnd s)) l) s.
Proof. apply children_ens_aux, Forall_true. intros t. apply transform_ens. Qed.

Context `{FilterGrammar}.

Lemma initial_ok : state_ok initial.
Proof. by split. Qed.

Lemma parse_filter_inv filter_str ctx rel coll table sql params :
  parse_filter filter_str ctx rel coll table = Ok (sql, params) ->
  exists s, state_ok s /\ params = _params s /\ frag (bnd s) sql.
Proof.
  unfold parse_filter. destruct (String.eqb _ _).
  { intros [= <- <-]. exists initial. split_and!; [apply initial_ok|done|].
    intros d. eexists. split; [reflexivity|apply Nat.eqb_refl]. }
  destruct (lark_parse filter_str) as [root|]; [|done].
  destruct (make_config _ _ _ _) as [self|]; [|done].
  destruct (transform_children self root initial) as [[items|e] s] eqn:Ht; [|done].
  intros [= <- <-]. apply children_ens in Ht as [Hext Hi]; [|apply initial_ok].
  exists s. split_and!; [apply Hext, initial_ok|done|]. by apply or_expr_frag.
Qed.

(** C1: no filter can inject SQL.  Whatever the filter text, the request and
    the resolver metadata hold, the condition [parse_filter] returns is a
    self-contained fragment: its quotes and parentheses match, it holds no
    semicolon, comment, dollar or backslash, quoted text and identifiers are
    made of safe characters, and every placeholder is bound by [params].
    Embedded at any depth of a query, it leaves the scanner where it was, so
    it cannot close a parenthesis it did not open. *)
Theorem filter_sql_contained filter_str ctx rel coll table sql params :
  parse_filter filter_str ctx rel coll table = Ok (sql, params) ->
  let bound name := dict_mem name params in
  well_scanned bound sql = true /\
  forall depth rest, scan bound (Code depth Other) (sql +:+ (")" +:+ rest))
                     = scan bound (Code depth Other) (")" +:+ rest).
Proof.
  intros (s & Hs & -> & Hf)%parse_filter_inv. cbv zeta. split.
  - unfold well_scanned. destruct (Hf O) as (m & Hm & Hset). unfold bnd in *. by rewrite Hm.
  - intros d rest. by apply frag_sep.
Qed.

(** The parameters of a filter are [_fp1], ..., [_fpN], each once and in
    order: a name that the caller adds ([_rule_rec_id], [limit], ...) never
    meets one of them. *)
Theorem filter_params_named filter_str ctx rel coll table sql params :
  parse_filter filter_str ctx rel coll table = Ok (sql, params) ->
  params.*1 = (fun k => param_name (Z.of_nat k)) <$> seq 1 (length params) /\
  NoDup params.*1 /\ "_rule_rec_id" ∉ params.*1.
Proof.
  intros (s & [Hc Hk] & -> & _)%parse_filter_inv.
  assert (length (_params s) = Z.to_nat (_param_counter s)) as Hlen.
  { apply (f_equal length) in Hk. by rewrite !length_fmap, length_seq in Hk. }
  rewrite Hlen, Hk. split_and!; [done|..].
  - apply NoDup_fmap_2_strong; [|apply NoDup_seq]. intros x y _ _ Heq%param_name_inj. lia.
  - intros (k & Heq & _)%list_elem_of_fmap. discriminate Heq.
Qed.
End Trees.

(** ** Witnesses *)
#[local] Existing Instance Demo.float_text.
#[local] Existing Instance Demo.iso_format.
#[local] Existing Instance Demo.grammar.
Lemma demo_float_laws : FloatTextLaws.
Proof. by intros f. Qed.
#[local] Existing Instance demo_float_laws.

Definition demo_filter : string :=
  "author.name = '); DROP TABLE users; --' && created > 'soon' || n ?~ 1.5".
Definition demo_result : result filter_error (string * list (string * value)) :=
  parse_filter demo_filter None (Some Demo.relations) None (Some "posts").

Lemma filter_sql_contained_witness :
  match demo_result with
  | Ok (sql, params) => well_scanned (fun name => dict_mem name params) sql = true
  | Err _ => False
  end.
Proof.
  destruct demo_result as [[sql params]|e] eqn:Hr; [|vm_compute in Hr; discriminate].
  exact (proj1 (filter_sql_contained _ _ _ _ _ _ _ Hr)).
Defined.

Lemma filter_params_named_witness :
  match demo_result with Ok (_, params) => NoDup params.*1 | Err _ => False end.
Proof.
  destruct demo_result as [[sql params]|e] eqn:Hr; [|vm_compute in Hr; discriminate].
  exact (proj1 (proj2 (filter_params_named _ _ _ _ _ _ _ Hr))).
Defined.
