(* ===== verification/FilterPrivacy.v ===== *)
(** * The SQL of a filter does not depend on its data

    Two runs of the transformer on filters that differ only in the text of
    their string literals, for requests that differ only in the values they
    hold, build the same SQL with the same placeholders: text and request
    data reach the database as bound parameters and in no other way. *)
From Stdlib Require Import Ascii String.
From S2P Require Import Prelude PyText PyVal FilterParser.
#[local] Open Scope string_scope.
#[local] Open Scope list_scope.
#[local] Open Scope Z_scope.

(** ** What is hidden *)

(** A literal of the same kind: numbers and booleans as they are, the empty
    text, or some text. *)
Definition hide_value (v : value) : value :=
  match v with
  | Val (PBool _) | Val (PInt _) | Val (PFloat _) => v
  | Val (PStr s) => if String.eqb s "" then v else Val (PStr "x")
  | _ => Val (PStr "x")
  end.
Definition hide_node (n : node) : node :=
  match n with Literal v => Literal (hide_value v) | _ => n end.

Definition hide_operand (o : operand) : operand :=
  match o with
  | string_node item =>
      string_node (if String.eqb (_unescape_text (inner item)) "" then "''" else "'x'")
  | _ => o
  end.
Fixpoint hide (t : tree) : tree :=
  match t with
  | or_node l => or_node (hide <$> l)
  | and_node l => and_node (hide <$> l)
  | comparison_node l op r => comparison_node (hide_operand l) op (hide_operand r)
  end.

(** The field names of a section of the request; a section that is no dict
    has none to show. *)
Definition section_keys (section : string) (context : dict) : option (list string) :=
  match dict_get section context with
  | None => Some []
  | Some (PDict d) => Some d.*1
  | Some _ => None
  end.

(** Requests with the same fields. *)
Definition same_fields (context1 context2 : dict) : Prop :=
  Forall (fun section => section_keys section context1 = section_keys section context2)
    ["resolved_macros"; "data"; "auth"; "query"].

(** ** Runs that agree *)

(** Results of two runs: the same, or one of them met a date that has no UTC
    time.  The parameters have the same names. *)
Definition agree {A} (r1 r2 : result exn A * state) : Prop :=
  r1.1 = Err OverflowError \/ r2.1 = Err OverflowError \/
  r1.1 = r2.1 /\
  (is_ok r1.1 = true -> _param_counter r1.2 = _param_counter r2.2 /\ (_params r1.2).*1 = (_params r2.2).*1).

Definition same_state (s1 s2 : state) : Prop :=
  _param_counter s1 = _param_counter s2 /\ (_params s1).*1 = (_params s2).*1.

Abbreviation M := (stm state exn).
Definition rel {A} (m1 m2 : M A) : Prop := forall s1 s2, same_state s1 s2 -> agree (m1 s1) (m2 s2).

Lemma rel_refl_lift {A} (r : result exn A) : rel (lift r) (lift r).
Proof. intros s1 s2 Hs. right. right. split; [done|]. by intros _. Qed.
Lemma rel_ret {A} (a : A) : rel (mret a) (mret a).
Proof. intros s1 s2 Hs. right. right. split; [done|]. by intros _. Qed.
Lemma rel_raise {A} e : rel (stm_raise e : M A) (stm_raise e).
Proof. intros s1 s2 Hs. right. right. by split. Qed.

Lemma rel_raise_message {A} msg : rel (raise msg : M A) (raise msg).
Proof. apply rel_raise. Qed.

(** Two pure computations that agree up to the overflow. *)
Lemma rel_lift {A} (r1 r2 : result exn A) :
  r1 = Err OverflowError \/ r2 = Err OverflowError \/ r1 = r2 -> rel (lift r1) (lift r2).
Proof.
  intros Hr s1 s2 Hs. destruct Hr as [Hr|[Hr|Hr]]; [by left|by right; left|].
  right. right. split; [done|]. by intros _.
Qed.

Lemma rel_bind_R {A B} (R : A -> A -> Prop) (m1 m2 : M A) (f1 f2 : A -> M B) :
  (forall s1 s2, same_state s1 s2 ->
     (m1 s1).1 = Err OverflowError \/ (m2 s2).1 = Err OverflowError \/
     (exists e, (m1 s1).1 = Err e /\ (m2 s2).1 = Err e) \/
     exists a1 a2, (m1 s1).1 = Ok a1 /\ (m2 s2).1 = Ok a2 /\ R a1 a2 /\
       same_state (m1 s1).2 (m2 s2).2) ->
  (forall a1 a2, R a1 a2 -> rel (f1 a1) (f2 a2)) -> rel (m1 ≫= f1) (m2 ≫= f2).
Proof.
  intros Hm Hf s1 s2 Hs. specialize (Hm s1 s2 Hs). unfold mbind, stm_bind.
  destruct (m1 s1) as [[a1|e1] t1], (m2 s2) as [[a2|e2] t2]; cbn in Hm;
    destruct Hm as [Hm|[Hm|[(e & Hm1 & Hm2)|(b1 & b2 & Hm1 & Hm2 & HR & Ht)]]]; simplify_eq.
  all: try (by left); try (by right; left).
  - by apply (Hf _ _ HR).
  - right. right. by split.
Qed.

Lemma rel_bind {A B} (m1 m2 : M A) (f1 f2 : A -> M B) :
  rel m1 m2 -> (forall a, rel (f1 a) (f2 a)) -> rel (m1 ≫= f1) (m2 ≫= f2).
Proof.
  intros Hm Hf. apply (rel_bind_R eq); [|by intros a ? <-].
  intros s1 s2 Hs. destruct (Hm s1 s2 Hs) as [H|[H|[H Hst]]]; [by left|by right; left|].
  right. right. destruct (m1 s1) as [[a|e] t1]; cbn in *.
  - right. exists a, a. split_and!; [done|done|done|by apply Hst..].
  - left. by exists e.
Qed.

Lemma rel_bind_lift {A B} (R : A -> A -> Prop) (r1 r2 : result exn A) (f1 f2 : A -> M B) :
  r1 = Err OverflowError \/ r2 = Err OverflowError \/ (exists e, r1 = Err e /\ r2 = Err e) \/
  (exists a1 a2, r1 = Ok a1 /\ r2 = Ok a2 /\ R a1 a2) ->
  (forall a1 a2, R a1 a2 -> rel (f1 a1) (f2 a2)) -> rel (lift r1 ≫= f1) (lift r2 ≫= f2).
Proof.
  intros Hr Hf. eapply rel_bind_R; [|exact Hf]. intros s1 s2 Hs. cbn.
  destruct Hr as [Hr|[Hr|[Hr|(a1 & a2 & ? & ? & ?)]]]; [by left|by right; left|by right; right; left|].
  right. right. right. by exists a1, a2.
Qed.

Lemma rel_next_param v1 v2 : rel (_next_param v1) (_next_param v2).
Proof.
  intros s1 s2 [Hc Hk]. right. right.
  unfold _next_param, mbind, stm_bind, stm_get, stm_put, mret, stm_ret.
  cbn [fst snd _param_counter _params]. rewrite Hc. split; [done|]. intros _. split; [done|].
  rewrite !dict_set_keys. unfold dict_mem. rewrite Hk.
  destruct (dict_get _ (_params s1)) eqn:E1, (dict_get _ (_params s2)) eqn:E2; try done; exfalso.
  - apply dict_get_none in E2. apply E2. rewrite <- Hk. apply dict_get_elem in E1.
    by apply (list_elem_of_fmap_2 fst) in E1.
  - apply dict_get_none in E1. apply E1. rewrite Hk. apply dict_get_elem in E2.
    by apply (list_elem_of_fmap_2 fst) in E2.
Qed.

Lemma rel_bind_param v1 v2 : rel (bind_param v1) (bind_param v2).
Proof. apply rel_bind; [apply rel_next_param|]. intros n. apply rel_ret. Qed.

Create HintDb rel.
#[export] Hint Resolve rel_refl_lift rel_ret rel_raise rel_raise_message rel_next_param rel_bind_param : rel.

(** Split a run into its calls, keeping the two sides together. *)
Ltac rel_step :=
  match goal with
  | |- rel (_ ≫= _) (_ ≫= _) => apply rel_bind; [|intros ?]
  | |- rel (match ?x with _ => _ end) (match ?x with _ => _ end) => destruct x
  | |- rel _ _ => solve [auto with rel]
  end.
Ltac rel_auto := repeat (cbv zeta; rel_step).

(** ** The pure parts *)
Section Privacy.
Context `{FloatText, IsoFormat} (self : config) (context : dict).

(** The same transformer for another request. *)
Definition self' : config :=
  mkConfig context (_relation_resolver self) (_collection_resolver self) (_current_table self).

Hypothesis Hfields : same_fields (_request_context self) context.

Lemma fields_of section :
  section ∈ ["resolved_macros"; "data"; "auth"; "query"] ->
  section_keys section (_request_context self) = section_keys section context.
Proof. unfold same_fields in Hfields. rewrite Forall_forall in Hfields. auto. Qed.

Lemma mem_keys {A B} k (d1 : list (string * A)) (d2 : list (string * B)) :
  d1.*1 = d2.*1 -> match dict_get k d1 with Some _ => true | None => false end
                   = match dict_get k d2 with Some _ => true | None => false end.
Proof.
  revert d2; induction d1 as [|[k1 v1] d1 IH]; intros [|[k2 v2] d2]; cbn; try done.
  intros [= -> Hd]. destruct (String.eqb k2 k); [done|auto].
Qed.

Lemma request_data_same :
  match request_data self, request_data self' with
  | Some d1, Some d2 => d1.*1 = d2.*1
  | None, None => True
  | _, _ => False
  end.
Proof.
  pose proof (fields_of "data" ltac:(set_solver)) as Hk. unfold section_keys in Hk.
  unfold request_data, request_get. cbn [self' _request_context].
  destruct (dict_get "data" (_request_context self)) as [[]|], (dict_get "data" context) as [[]|]; cbn;
    try done; by injection Hk.
Qed.

Lemma data_mem field :
  match match request_data self with Some d => dict_get field d | None => None end with
  | Some _ => true | None => false end
  = match match request_data self' with Some d => dict_get field d | None => None end with
    | Some _ => true | None => false end.
Proof.
  pose proof request_data_same as Hd. destruct (request_data self), (request_data self'); try done.
  by apply mem_keys.
Qed.

Lemma data_field_mem field :
  (_extract_request_data_field_value self field).1 = (_extract_request_data_field_value self' field).1.
Proof.
  pose proof request_data_same as Hd. unfold _extract_request_data_field_value.
  destruct (request_data self) as [d1|], (request_data self') as [d2|]; try done.
  pose proof (mem_keys field _ _ Hd) as H1. pose proof (mem_keys (last_segment field) _ _ Hd) as H2.
  destruct (dict_get field d1), (dict_get field d2); try done.
  by destruct (dict_get (last_segment field) d1), (dict_get (last_segment field) d2).
Qed.

Lemma macro_resolved name :
  match as_dict (request_get self "resolved_macros") ≫= dict_get name with
  | Some _ => true | None => false end
  = match as_dict (request_get self' "resolved_macros") ≫= dict_get name with
    | Some _ => true | None => false end.
Proof.
  pose proof (fields_of "resolved_macros" ltac:(set_solver)) as Hk. unfold section_keys in Hk.
  unfold request_get. cbn [self' _request_context].
  destruct (dict_get "resolved_macros" (_request_context self)) as [[]|],
    (dict_get "resolved_macros" context) as [[]|]; cbn; try done; injection Hk as Hk; try by destruct d.
  by apply mem_keys.
Qed.

(** ** The stateful parts *)
Lemma rel_section section field :
  section ∈ ["auth"; "query"] -> rel (section_value self section field) (section_value self' section field).
Proof.
  intros Hs. pose proof (fields_of section ltac:(set_solver)) as Hk. unfold section_keys in Hk.
  unfold section_value, request_get. cbn [self' _request_context].
  destruct (dict_get section (_request_context self)) as [[]|], (dict_get section context) as [[]|];
    try done; auto with rel.
Qed.

Lemma rel_field_modifier name md :
  rel (_resolve_field_modifier self name md) (_resolve_field_modifier self' name md).
Proof.
  unfold _resolve_field_modifier. change (_field_expr self' name) with (_field_expr self name).
  apply rel_bind; [auto with rel|]. intros f. pose proof (data_field_mem name) as Hd.
  destruct (_extract_request_data_field_value self name), (_extract_request_data_field_value self' name).
  cbn in Hd. subst b0.
  repeat match goal with
  | |- rel (if String.eqb md ?k then _ else _) _ => destruct (String.eqb md k)
  end; auto with rel.
  destruct b; cbn; [|auto with rel]. apply rel_bind; auto with rel.
Qed.

Lemma rel_body_macro name : rel (resolve_body_macro self name) (resolve_body_macro self' name).
Proof.
  unfold resolve_body_macro. destruct (_split_modifier _) as [field md]. cbv zeta.
  pose proof (data_mem field) as Hd. revert Hd.
  generalize (match request_data self with Some d => dict_get field d | None => None end).
  generalize (match request_data self' with Some d => dict_get field d | None => None end).
  intros f2 f1 Hd. destruct md as [md|]; [|auto with rel]. rewrite Hd.
  repeat match goal with
  | |- rel (if String.eqb md ?k then _ else _) _ => destruct (String.eqb md k)
  end; auto with rel.
  - destruct f2; cbn; [|auto with rel]. apply rel_bind; [auto with rel|]. intros sf.
    apply rel_bind; auto with rel.
  - apply rel_bind; auto with rel.
Qed.

Lemma rel_macro name : rel (_resolve_macro self name) (_resolve_macro self' name).
Proof.
  unfold _resolve_macro. cbv zeta. pose proof (macro_resolved (lstrip_at name)) as Hr.
  destruct (as_dict (request_get self "resolved_macros") ≫= dict_get (lstrip_at name)),
    (as_dict (request_get self' "resolved_macros") ≫= dict_get (lstrip_at name));
    try done; auto with rel.
  repeat match goal with
  | |- rel (match dict_get ?n date_macros with _ => _ end) _ => destruct (dict_get n date_macros)
  | |- rel (if ?b then _ else _) (if ?b then _ else _) => destruct b
  end; auto with rel; [apply rel_section; set_solver|apply rel_body_macro|apply rel_section; set_solver].
Qed.

(** ** Operands *)
Definition like (n1 n2 : node) : Prop := hide_node n1 = hide_node n2.

Lemma like_cases n1 n2 :
  like n1 n2 ->
  (exists v1 v2, n1 = Literal v1 /\ n2 = Literal v2 /\ hide_value v1 = hide_value v2) \/ n1 = n2.
Proof.
  unfold like. intros Hn. destruct n1, n2; try discriminate Hn; [left|right; apply Hn..].
  eexists _, _. split_and!; [done..|]. by injection Hn.
Qed.

(** What the pure functions see of a node. *)
Lemma hide_empty n : _is_empty_operand (hide_node n) = _is_empty_operand n.
Proof. destruct n as [[[]|]| | | | | | |]; cbn; try done. by destruct (String.eqb_spec s ""); subst. Qed.
Lemma hide_type n : _operand_field_type self (hide_node n) = _operand_field_type self n.
Proof. by destruct n. Qed.
Lemma hide_json n : _is_json_operand self (hide_node n) = _is_json_operand self n.
Proof. by destruct n as [| | | | | |? ? []|? []]. Qed.
Lemma hide_empty_equality o l ls r rs :
  _empty_equality_sql self o (hide_node l) ls (hide_node r) rs = _empty_equality_sql self o l ls r rs.
Proof.
  unfold _empty_equality_sql. rewrite !hide_empty.
  destruct (negb _); [done|]. destruct (_ && _); [done|]. destruct (_ && _); [done|].
  destruct (_is_empty_operand l); [by destruct r|by destruct l].
Qed.

Lemma like_empty_equality o l1 l2 ls r1 r2 rs :
  like l1 l2 -> like r1 r2 ->
  _empty_equality_sql self o l1 ls r1 rs = _empty_equality_sql self o l2 ls r2 rs.
Proof. intros Hl Hr. rewrite <- hide_empty_equality, Hl, Hr. apply hide_empty_equality. Qed.

Lemma like_standard n r o o1 o2 os left :
  like o1 o2 -> standard_condition self n r o o1 os left = standard_condition self n r o o2 os left.
Proof.
  intros Ho. unfold standard_condition. rewrite (like_empty_equality _ n n _ o1 o2) by done.
  destruct (_empty_equality_sql _ _ _ _ _ _) as [[|]|]; [done| |done].
  by destruct o1, o2; try discriminate Ho.
Qed.

Lemma like_regular l1 l2 ls o r1 r2 rs :
  like l1 l2 -> like r1 r2 -> regular_standard self l1 ls o r1 rs = regular_standard self l2 ls o r2 rs.
Proof.
  intros Hl Hr. unfold regular_standard. rewrite (like_empty_equality _ l1 l2 _ r1 r2) by done.
  destruct (_empty_equality_sql _ _ _ _ _ _) as [[|]|]; [done| |done].
  destruct l1, l2; try discriminate Hl; destruct r1, r2; try discriminate Hr; done.
Qed.

Lemma hide_value_exact v1 v2 :
  hide_value v1 = hide_value v2 ->
  match v1 with
  | Val (PBool _) | Val (PInt _) | Val (PFloat _) => v2 = v1
  | _ => match v2 with Val (PBool _) | Val (PInt _) | Val (PFloat _) => False | _ => True end
  end.
Proof.
  destruct v1 as [[| | | |s| |]|], v2 as [[| | | |t| |]|]; cbn; try done;
    repeat case_match; congruence || done.
Qed.

Lemma rel_operand n1 n2 : like n1 n2 -> rel (_operand_to_sql self n1) (_operand_to_sql self' n2).
Proof.
  intros [(v1 & v2 & -> & -> & Hv%hide_value_exact)| ->]%like_cases.
  - destruct v1 as [[]|], v2 as [[]|]; try done; simplify_eq; cbn [_operand_to_sql]; auto with rel.
  - destruct n2 as [[[]|]| | | | | | |]; cbn [_operand_to_sql]; auto with rel.
    + apply rel_macro.
    + apply rel_field_modifier.
Qed.

Lemma rel_like_pattern n1 n2 sql : like n1 n2 -> rel (_like_pattern_sql n1 sql) (_like_pattern_sql n2 sql).
Proof. intros Hn. destruct n1, n2; try discriminate Hn; cbn [_like_pattern_sql]; auto with rel. Qed.

Lemma rel_like_comparison m n1 n2 p o :
  like n1 n2 -> rel (_like_comparison_sql m n1 p o) (_like_comparison_sql m n2 p o).
Proof. intros Hn. apply rel_bind; [by apply rel_like_pattern|]. auto with rel. Qed.

Lemma rel_like_condition r o o1 o2 os left :
  like o1 o2 -> rel (like_condition r o o1 os left) (like_condition r o o2 os left).
Proof. intros Ho. unfold like_condition. destruct left; by apply rel_like_comparison. Qed.

Lemma rel_ref_condition n r op o1 o2 os left :
  like o1 o2 -> rel (ref_condition self n r op o1 os left) (ref_condition self' n r op o2 os left).
Proof.
  intros Ho. unfold ref_condition. destruct (dict_get op _STANDARD_OPS) as [o|].
  { change (standard_condition self' n r o o2 os left) with (standard_condition self n r o o2 os left).
    rewrite (like_standard _ _ _ o1 o2) by done. auto with rel. }
  destruct (dict_get op _LIKE_OPS); [by apply rel_like_condition|].
  destruct (dict_get op _ANY_STANDARD_OPS); [auto with rel|].
  destruct (dict_get op _ANY_LIKE_OPS); [|auto with rel].
  destruct left; (apply rel_bind; [by apply rel_like_pattern|auto with rel]).
Qed.

(** A date literal stays a text or becomes a date; either is bound. *)
Lemma literal_hidden n t :
  _literal_for_field_type n t = Err OverflowError \/
  exists n', _literal_for_field_type n t = Ok n' /\ hide_node n' = hide_node n.
Proof.
  unfold _literal_for_field_type. destruct (negb _); [right; by exists n|].
  destruct n as [[[| | | |s| |]|]| | | | | | |]; try (right; by eexists).
  destruct (String.eqb (py_strip s) "") eqn:Hs; [right; by eexists|].
  destruct (fromisoformat _) as [d|]; [|right; by eexists].
  assert (String.eqb s "" = false) as Hne by (by destruct s).
  unfold to_utc. destruct (utcoffset d) as [o|]; [destruct (_ && _)|]; [|by left|];
    right; eexists; (split; [reflexivity|]); cbn; by rewrite Hne.
Qed.

Lemma rel_literal {B} n1 n2 t (f1 f2 : node -> M B) :
  like n1 n2 -> (forall m1 m2, like m1 m2 -> rel (f1 m1) (f2 m2)) ->
  rel (lift (if is_datetime_type t then _literal_for_field_type n1 t else Ok n1) ≫= f1)
      (lift (if is_datetime_type t then _literal_for_field_type n2 t else Ok n2) ≫= f2).
Proof.
  intros Hn Hf. apply (rel_bind_lift like); [|done]. destruct (is_datetime_type t).
  - destruct (literal_hidden n1 t) as [H1|(m1 & H1 & Hm1)]; [by left|].
    destruct (literal_hidden n2 t) as [H2|(m2 & H2 & Hm2)]; [by right; left|].
    right. right. right. exists m1, m2. split_and!; [done..|]. unfold like in *. congruence.
  - right. right. right. by exists n1, n2.
Qed.

(** ** Comparisons *)
Lemma rel_collection_condition ref op o1 o2 left :
  like o1 o2 ->
  rel (_collection_ref_condition self ref op o1 left) (_collection_ref_condition self' ref op o2 left).
Proof.
  intros Ho. unfold _collection_ref_condition. apply rel_bind; [auto with rel|]. intros sql.
  apply rel_literal; [done|]. intros m1 m2 Hm. apply rel_bind; [by apply rel_operand|]. intros os.
  apply rel_bind; [by apply rel_ref_condition|]. intros c.
  change (wrap_unless_column self' ref c) with (wrap_unless_column self ref c). auto with rel.
Qed.

Lemma like_collection_ref n1 n2 : like n1 n2 -> as_collection_ref n1 = as_collection_ref n2.
Proof. by intros [(? & ? & -> & -> & _)| ->]%like_cases. Qed.
Lemma like_relation_ref n1 n2 : like n1 n2 -> as_relation_ref n1 = as_relation_ref n2.
Proof. by intros [(? & ? & -> & -> & _)| ->]%like_cases. Qed.

Lemma rel_collection_comparison l1 l2 op r1 r2 :
  like l1 l2 -> like r1 r2 ->
  rel (_collection_comparison self l1 op r1) (_collection_comparison self' l2 op r2).
Proof.
  intros Hl Hr. unfold _collection_comparison. rewrite (like_collection_ref _ _ Hl), (like_collection_ref _ _ Hr).
  change (resolve_ref self') with (resolve_ref self).
  change (two_collections self') with (two_collections self).
  destruct (as_collection_ref l2), (as_collection_ref r2); [..|auto with rel].
  - apply rel_bind; [auto with rel|]. intros lr. apply rel_bind; auto with rel.
  - apply rel_bind; [auto with rel|]. intros ref. apply rel_bind; [by apply rel_collection_condition|].
    auto with rel.
  - apply rel_bind; [auto with rel|]. intros ref. apply rel_bind; [by apply rel_collection_condition|].
    auto with rel.
Qed.

Lemma rel_one_relation n1 n2 st c op o1 o2 left :
  like n1 n2 -> as_relation_ref n1 = Some (st, c) -> like o1 o2 ->
  rel (one_relation self n1 st c op o1 left) (one_relation self' n2 st c op o2 left).
Proof.
  intros Hn Hrel Ho. assert (n1 = n2) as <-.
  { destruct (like_cases _ _ Hn) as [(? & ? & -> & -> & _)|]; done. }
  apply rel_bind; [by apply rel_operand|]. intros os.
  apply rel_bind; [by apply rel_ref_condition|]. intros w.
  change (_relation_condition_for_steps self') with (_relation_condition_for_steps self). auto with rel.
Qed.

Lemma rel_relation_comparison l1 l2 op r1 r2 :
  like l1 l2 -> like r1 r2 ->
  rel (_relation_comparison self l1 op r1) (_relation_comparison self' l2 op r2).
Proof.
  intros Hl Hr. unfold _relation_comparison.
  rewrite <- (like_relation_ref _ _ Hl), <- (like_relation_ref _ _ Hr).
  change (two_relations self') with (two_relations self).
  destruct (as_relation_ref l1) as [[ls lc]|] eqn:El, (as_relation_ref r1) as [[rs rc]|] eqn:Er;
    auto with rel; by apply rel_one_relation.
Qed.

Lemma rel_extract_each n1 n2 :
  like n1 n2 -> rel (_extract_each_operand self n1) (_extract_each_operand self' n2).
Proof.
  intros [(? & ? & -> & -> & _)| ->]%like_cases; [cbn; auto with rel|].
  unfold _extract_each_operand. destruct n2; auto with rel.
  - cbv zeta. destruct (is_body_macro _); [|auto with rel]. destruct (_split_modifier _) as [f [md|]];
      [|auto with rel]. destruct (String.eqb md "each"); [|auto with rel].
    destruct (_extract_request_data_field_value self f), (_extract_request_data_field_value self' f).
    apply rel_bind; auto with rel.
  - destruct (String.eqb _ _); [|auto with rel].
    change (_field_expr self' name) with (_field_expr self name). apply rel_bind; auto with rel.
Qed.

Lemma rel_each_item item op o1 o2 left :
  like o1 o2 ->
  rel (_build_each_item_condition self item op o1 left) (_build_each_item_condition self' item op o2 left).
Proof.
  intros Ho. apply rel_bind; [by apply rel_operand|]. intros os.
  destruct (dict_get op _STANDARD_OPS) as [o|].
  { change (standard_condition self' ?n item o o2 os left) with (standard_condition self n item o o2 os left).
    rewrite (like_standard _ _ _ o1 o2) by done. auto with rel. }
  destruct (dict_get op _LIKE_OPS); [by apply rel_like_condition|auto with rel].
Qed.

Lemma rel_each l1 l2 op r1 r2 le re :
  like l1 l2 -> like r1 r2 ->
  rel (_each_comparison self l1 op r1 le re) (_each_comparison self' l2 op r2 le re).
Proof.
  intros Hl Hr. unfold _each_comparison. destruct le as [[? ?]|], re as [[? ?]|]; auto with rel;
    (apply rel_bind; [apply rel_bind; [by apply rel_each_item|auto with rel]|intros []; auto with rel]).
Qed.

Lemma rel_regular l1 l2 op r1 r2 :
  like l1 l2 -> like r1 r2 ->
  rel (regular_comparison self l1 op r1) (regular_comparison self' l2 op r2).
Proof.
  intros Hl Hr. unfold regular_comparison. apply rel_bind; [by apply rel_operand|]. intros ls.
  apply rel_bind; [by apply rel_operand|]. intros rs.
  destruct (dict_get op _STANDARD_OPS) as [o|].
  { change (regular_standard self' l2 ls o r2 rs) with (regular_standard self l2 ls o r2 rs).
    rewrite (like_regular l1 l2 _ _ r1 r2) by done. auto with rel. }
  destruct (dict_get op _LIKE_OPS); [by apply rel_like_comparison|].
  destruct (dict_get op _ANY_STANDARD_OPS); [auto with rel|].
  destruct (dict_get op _ANY_LIKE_OPS); [|auto with rel].
  apply rel_bind; [by apply rel_like_pattern|auto with rel].
Qed.

Definition like_pair (p1 p2 : node * node) : Prop := like p1.1 p2.1 /\ like p1.2 p2.2.

Lemma coerce_like l1 l2 r1 r2 :
  like l1 l2 -> like r1 r2 ->
  let c1 := _coerce_comparison_literals self l1 r1 in
  let c2 := _coerce_comparison_literals self l2 r2 in
  c1 = Err OverflowError \/ c2 = Err OverflowError \/ (exists e, c1 = Err e /\ c2 = Err e) \/
  (exists p1 p2, c1 = Ok p1 /\ c2 = Ok p2 /\ like_pair p1 p2).
Proof.
  intros Hl Hr. cbv zeta. unfold _coerce_comparison_literals.
  rewrite <- (hide_type l1), <- (hide_type l2), Hl, <- (hide_type r1), <- (hide_type r2), Hr.
  destruct (_operand_field_type self (hide_node l2)) as [lt|e]; cbn; [|right; right; left; by eexists].
  destruct (_operand_field_type self (hide_node r2)) as [rt|e]; cbn; [|right; right; left; by eexists].
  assert (forall n1 n2 t, like n1 n2 ->
    let v n := if is_datetime_type t then _literal_for_field_type n t else Ok n in
    v n1 = Err OverflowError \/ v n2 = Err OverflowError \/
    exists m1 m2, v n1 = Ok m1 /\ v n2 = Ok m2 /\ like m1 m2) as Hlit.
  { intros n1 n2 t Hn. cbv zeta. destruct (is_datetime_type t).
    - destruct (literal_hidden n1 t) as [H1|(m1 & H1 & Hm1)]; [by left|].
      destruct (literal_hidden n2 t) as [H2|(m2 & H2 & Hm2)]; [by right; left|].
      right. right. exists m1, m2. split_and!; [done..|]. unfold like in *. congruence.
    - right. right. by exists n1, n2. }
  destruct (Hlit r1 r2 lt Hr) as [-> |[-> |(m1 & m2 & -> & -> & Hm)]]; cbn; [by left|by right; left|].
  destruct (Hlit l1 l2 rt Hl) as [-> |[-> |(k1 & k2 & -> & -> & Hk)]]; cbn; [by left|by right; left|].
  right. right. right. by eexists _, _.
Qed.

Lemma rel_comparison l1 l2 op r1 r2 :
  like l1 l2 -> like r1 r2 -> rel (comparison self l1 op r1) (comparison self' l2 op r2).
Proof.
  intros Hl Hr. unfold comparison. cbv zeta.
  change (_coerce_comparison_literals self') with (_coerce_comparison_literals self).
  apply (rel_bind_lift like_pair).
  { destruct (dict_mem _ _); [by apply coerce_like|]. right. right. right. by eexists _, _. }
  clear l1 l2 r1 r2 Hl Hr. intros [l1 r1] [l2 r2] [Hl Hr]. cbn in Hl, Hr.
  assert (forall n1 n2, like n1 n2 -> is_relation_ref n1 = is_relation_ref n2 /\
                                      is_collection_ref n1 = is_collection_ref n2) as Hk.
  { by intros n1 n2 [(? & ? & -> & -> & _)| ->]%like_cases. }
  destruct (Hk _ _ Hl) as [-> ->], (Hk _ _ Hr) as [-> ->].
  destruct (_ || _); [by apply rel_relation_comparison|].
  destruct (_ || _); [by apply rel_collection_comparison|].
  apply rel_bind; [by apply rel_extract_each|]. intros le.
  apply rel_bind; [by apply rel_extract_each|]. intros re.
  destruct le, re; (apply rel_bind; [first [by apply rel_each|by apply rel_regular]|auto with rel]).
Qed.

(** ** Trees *)
Lemma operand_like o1 o2 :
  hide_operand o1 = hide_operand o2 ->
  (exists e, transform_operand self o1 = Err e /\ transform_operand self' o2 = Err e) \/
  (exists n1 n2, transform_operand self o1 = Ok n1 /\ transform_operand self' o2 = Ok n2 /\ like n1 n2).
Proof.
  intros Ho. change (transform_operand self') with (transform_operand self).
  destruct o1 as [s1| | | | | |], o2 as [s2| | | | | |]; try discriminate Ho.
  { right. eexists _, _. split_and!; [done..|]. unfold like, string_. cbn in *.
    by destruct (String.eqb (_unescape_text (inner s1)) "") eqn:E1,
      (String.eqb (_unescape_text (inner s2)) "") eqn:E2; simplify_eq;
      [apply String.eqb_eq in E1 as ->; apply String.eqb_eq in E2 as ->|]. }
  all: injection Ho as <- || clear Ho.
  all: destruct (transform_operand self _) as [n|e]; [right|left]; [by exists n, n|by exists e].
Qed.

Lemma rel_children_aux l1 :
  Forall (fun t1 => forall t2, hide t1 = hide t2 -> rel (transform self t1) (transform self' t2)) l1 ->
  forall l2, hide <$> l1 = hide <$> l2 -> rel (transform_children self l1) (transform_children self' l2).
Proof.
  induction 1 as [|t1 l1 Ht Hl IH]; intros [|t2 l2] Heq; try done; cbn [transform_children].
  { auto with rel. }
  injection Heq as Heq Heql. apply rel_bind; [by apply Ht|]. intros i.
  apply rel_bind; [by apply IH|]. auto with rel.
Qed.

Lemma rel_transform t1 t2 : hide t1 = hide t2 -> rel (transform self t1) (transform self' t2).
Proof.
  revert t2. induction t1 as [l Hl|l Hl|l op r] using tree_induction; intros [l2|l2|l2 op2 r2] Heq;
    try discriminate Heq.
  - rewrite !transform_or. injection Heq as Heq. apply rel_bind; [by apply rel_children_aux|]. auto with rel.
  - rewrite !transform_and. injection Heq as Heq. apply rel_bind; [by apply rel_children_aux|]. auto with rel.
  - injection Heq as Hl <- Hr. cbn [transform].
    apply (rel_bind_lift like); [right; right; by apply operand_like|]. intros ln1 ln2 Hln.
    apply (rel_bind_lift like); [right; right; by apply operand_like|]. intros rn1 rn2 Hrn.
    by apply rel_comparison.
Qed.

Lemma rel_children l1 l2 :
  hide <$> l1 = hide <$> l2 -> rel (transform_children self l1) (transform_children self' l2).
Proof. apply rel_children_aux, Forall_true. intros t. apply rel_transform. Qed.
End Privacy.

(** ** Non-interference *)

(** The outcome of two calls, as a client of the database sees it: the same
    SQL and placeholders, or the same error, unless a date overflows. *)
Definition same_outcome (r1 r2 : result filter_error (string * list (string * value))) : Prop :=
  match r1, r2 with
  | Err (VisitError OverflowError), _ | _, Err (VisitError OverflowError) => True
  | Ok (sql1, params1), Ok (sql2, params2) => sql1 = sql2 /\ params1.*1 = params2.*1
  | Err e1, Err e2 => e1 = e2
  | _, _ => False
  end.

(** C2: no data in the SQL.  Take two filters whose parses differ only in
    the text of string literals (empty ones stay empty), and two requests
    that differ only in the values of their fields: [parse_filter] gives both
    the same SQL text and the same placeholder names, or fails on both with
    the same error; nothing is said when one of them
    ends in a [VisitError] around an [OverflowError] (a date beyond the calendar). *)
Theorem filter_noninterference `{FloatText, IsoFormat, FilterGrammar}
    filter1 filter2 root1 root2 context1 context2 rel coll table :
  lark_parse filter1 = Some root1 -> lark_parse filter2 = Some root2 ->
  py_strip filter1 <> "" -> py_strip filter2 <> "" ->
  hide <$> root1 = hide <$> root2 -> same_fields context1 context2 ->
  same_outcome (parse_filter filter1 (Some context1) rel coll table)
               (parse_filter filter2 (Some context2) rel coll table).
Proof.
  intros Hp1 Hp2 Hs1%String.eqb_neq Hs2%String.eqb_neq Hroot Hctx. unfold parse_filter.
  rewrite Hs1, Hs2, Hp1, Hp2. unfold make_config.
  destruct (match table with Some _ => _ | None => _ end) as [t|e]; cbn; [|by destruct e].
  set (self := mkConfig context1 _ _ _).
  pose proof (rel_children self context2 Hctx root1 root2 Hroot initial initial) as Hrel.
  unfold self' in Hrel. cbn in Hrel. destruct Hrel as [Hr|[Hr|[Hr Hst]]]; [done|..].
  - destruct (transform_children self root1 initial) as [[]]; cbn in Hr; by simplify_eq.
  - destruct (transform_children self root1 initial) as [[items|e] s1],
      (transform_children _ root2 initial) as [[]]; cbn in Hr; simplify_eq; cbn; [|by destruct e].
    by repeat case_match.
  - destruct (transform_children self root1 initial) as [[items|e] s1],
      (transform_children _ root2 initial) as [[items'|e'] s2]; cbn in Hr, Hst; simplify_eq; cbn.
    + split; [done|]. by apply Hst.
    + by destruct e'.
Qed.

#[local] Existing Instance Demo.float_text.
#[local] Existing Instance Demo.iso_format.
#[local] Existing Instance Demo.grammar.

(** An ordinary name and an injection attempt. *)
Lemma filter_noninterference_witness :
  let f1 := "author.name = 'O\'x' && created > '2024-01-02 03:04:05+02:00' || n ?~ 1.5" in
  let f2 := "author.name = '); DROP TABLE users; --' && created > 'soon' || n ?~ 1.5" in
  same_outcome
    (parse_filter f1 (Some [("data", PDict [("a", PInt 1)])]) (Some Demo.relations) None (Some "posts"))
    (parse_filter f2 (Some [("data", PDict [("a", PStr "'")])]) (Some Demo.relations) None (Some "posts")).
Proof.
  cbv zeta. eapply filter_noninterference; [vm_compute; reflexivity|vm_compute; reflexivity|..].
  - vm_compute. discriminate.
  - vm_compute. discriminate.
  - reflexivity.
  - vm_compute. repeat constructor.
Defined.
