(* ===== verification/FilterGroups.v ===== *)
(** * What the filter transformer computes

    The grouping of conditions under [&&], the literals a quoted text can
    denote, the columns of [parse_sort], and four behaviours of the
    transformer that a reader of its comments would not expect. *)
From Stdlib Require Import Ascii String.
From S2P Require Import Prelude PyText PyVal FilterParser FilterSafety.
#[local] Open Scope string_scope.
#[local] Open Scope list_scope.
#[local] Open Scope Z_scope.

(** ** Grouping *)

(** The keys in the order of their first appearance. *)
Fixpoint first_seen (keys : list string) : list string :=
  match keys with
  | [] => []
  | k :: keys' => k :: filter (fun k' => k' <> k) (first_seen keys')
  end.
Definition values_of {A} (k : string) (l : list (string * A)) : list A :=
  (filter (fun p => p.1 = k) l).*2.
Definition group_by {A} (l : list (string * A)) : list (string * list A) :=
  (fun k => (k, values_of k l)) <$> first_seen l.*1.

Lemma elem_of_first_seen k keys : k ∈ first_seen keys <-> k ∈ keys.
Proof.
  induction keys as [|k' keys IH]; cbn; [done|]. rewrite !elem_of_cons, list_elem_of_filter, IH.
  destruct (decide (k = k')); naive_solver.
Qed.

Lemma first_seen_snoc keys k :
  first_seen (keys ++ [k]) = if decide (k ∈ keys) then first_seen keys else first_seen keys ++ [k].
Proof.
  induction keys as [|k' keys IH]; [done|]. cbn [app first_seen]. rewrite IH.
  destruct (decide (k ∈ keys)) as [Hin|Hin].
  - rewrite decide_True by (by right). done.
  - rewrite filter_app. destruct (decide (k = k')) as [->|Hne].
    + rewrite decide_True by (by left). rewrite filter_cons_False by (by intros []). by rewrite app_nil_r.
    + rewrite decide_False by (by rewrite elem_of_cons; intros [|]).
      by rewrite filter_cons_True by done.
Qed.

Lemma values_of_snoc {A} k l k' (x : A) :
  values_of k (l ++ [(k', x)]) = if decide (k' = k) then values_of k l ++ [x] else values_of k l.
Proof.
  unfold values_of. rewrite filter_app, fmap_app. destruct (decide (k' = k)) as [->|Hne].
  - by rewrite filter_cons_True.
  - rewrite filter_cons_False by done. by rewrite app_nil_r.
Qed.

Lemma values_of_none {A} k (l : list (string * A)) : k ∉ l.*1 -> values_of k l = [].
Proof.
  unfold values_of. induction l as [|[k' x] l IH]; intros Hk; [done|].
  rewrite fmap_cons in Hk. cbn [fst] in Hk.
  rewrite filter_cons_False; [apply IH|cbn]; set_solver.
Qed.

Lemma first_seen_nodup keys : NoDup (first_seen keys).
Proof.
  induction keys as [|k keys IH]; cbn; constructor.
  - rewrite list_elem_of_filter. naive_solver.
  - by apply NoDup_filter.
Qed.

(** Appending to the group of a key, over any list of keys. *)
Lemma dict_push_map {A} (f : string -> list A) keys k x :
  NoDup keys -> (k ∉ keys -> f k = []) ->
  dict_push k x ((fun k' => (k', f k')) <$> keys)
  = (fun k' => (k', if decide (k = k') then f k' ++ [x] else f k'))
      <$> (if decide (k ∈ keys) then keys else keys ++ [k]).
Proof.
  unfold dict_push. intros Hnd. revert k; induction Hnd as [|k' keys Hk' Hnd IH]; intros k Hf.
  { rewrite (decide_False (P := k ∈ [])) by set_solver. cbn.
    by rewrite decide_True, Hf by set_solver. }
  cbn [fmap list_fmap dict_get dict_set]. destruct (String.eqb_spec k' k) as [->|Hne].
  - rewrite (decide_True (P := k ∈ _)) by set_solver. cbn. rewrite decide_True by done. f_equal.
    apply list_fmap_ext. intros i k1 Hi. rewrite decide_False; [done|]. intros ->.
    by apply list_elem_of_lookup_2 in Hi.
  - rewrite IH by set_solver. destruct (decide (k ∈ keys)) as [Hin|Hin].
    + rewrite decide_True by set_solver. cbn. by rewrite decide_False by done.
    + rewrite decide_False by set_solver. cbn. by rewrite decide_False by done.
Qed.

Lemma group_by_snoc {A} k x (l : list (string * A)) :
  dict_push k x (group_by l) = group_by (l ++ [(k, x)]).
Proof.
  unfold group_by. rewrite (dict_push_map (fun k' => values_of k' l)); [|apply first_seen_nodup|].
  2: { rewrite elem_of_first_seen. apply values_of_none. }
  rewrite fmap_app. cbn. rewrite first_seen_snoc.
  assert (forall keys : list string, (fun k' => (k', if decide (k = k') then values_of k' l ++ [x] else values_of k' l)) <$> keys
                 = (fun k0 => (k0, values_of k0 (l ++ [(k, x)]))) <$> keys) as Heq.
  { intros keys. apply list_fmap_ext. intros i k1 _. by rewrite values_of_snoc. }
  rewrite Heq. f_equal. destruct (decide (k ∈ l.*1)) as [Hin|Hin].
  - by rewrite decide_True by (by apply elem_of_first_seen).
  - by rewrite decide_False by (by rewrite elem_of_first_seen).
Qed.

(** What the items of a conjunction contribute. *)
Definition sql_items (items : list item) : list string :=
  omap (fun i => match i with Sql s => Some s | _ => None end) items.
Definition coll_items (items : list item) : list (string * _CollectionCondition) :=
  omap (fun i => match i with CollItem c => Some (cc_group_key c, c) | _ => None end) items.
Definition rel_items (items : list item) : list (string * _RelationCondition) :=
  omap (fun i => match i with RelItem r => Some (rc_relation_key r, r) | _ => None end) items.

(** One EXISTS for all the conditions of a group, over the table (and the
    join) of its first condition. *)
Definition one_exists (table : string) (conditions : list string) : string :=
  "EXISTS (SELECT 1 FROM " +:+ dq +:+ table +:+ dq +:+ " WHERE " +:+ join " AND " conditions +:+ ")".
Definition coll_exists (group : string * list _CollectionCondition) : string :=
  match group.2 with
  | [] => ""
  | first :: _ => one_exists (cc_table_name first) ((fun c => inner_sql c) <$> group.2)
  end.
Definition rel_exists (group : string * list _RelationCondition) : string :=
  match group.2 with
  | [] => ""
  | first :: _ => one_exists (rc_target_table first) (join_cond first :: ((fun r => where_cond r) <$> group.2))
  end.
(** One part stands alone, several are joined in parentheses. *)
Definition conjunction (parts : list string) : string :=
  match parts with [part] => part | _ => "(" +:+ join " AND " parts +:+ ")" end.
Lemma exists_sql_text table conditions : exists_sql table (join " AND " conditions) = one_exists table conditions.
Proof. unfold exists_sql, one_exists, quoted, cat. cbn [fold_right]. by rewrite !append_nil_r, !append_assoc. Qed.
Lemma group_sql_text parts : group_sql " AND " parts = conjunction parts.
Proof. unfold group_sql, conjunction, cat. destruct parts as [|p [|q parts]]; [done..|]. cbn [fold_right]. by rewrite append_nil_r. Qed.

Lemma omap_snoc {A B} (f : A -> option B) l x :
  omap f (l ++ [x]) = omap f l ++ match f x with Some y => [y] | None => [] end.
Proof. rewrite omap_app. cbn. by destruct (f x). Qed.

Lemma dict_get_snoc {A} k (l : list (string * A)) k' x :
  dict_get k (l ++ [(k', x)])
  = match dict_get k l with Some v => Some v | None => if String.eqb k' k then Some x else None end.
Proof. rewrite dict_get_app. done. Qed.

Lemma collect_groups items :
  let g := foldl collect (mkGroups [] [] [] []) items in
  regular_parts g = sql_items items /\
  coll_groups g = group_by ((fun '(k, c) => (k, inner_sql c)) <$> coll_items items) /\
  (forall k, dict_get k (coll_tables g) = cc_table_name <$> dict_get k (coll_items items)) /\
  rel_groups g = group_by (rel_items items).
Proof.
  cbv zeta. induction items as [|i items IH] using rev_ind; [done|].
  rewrite foldl_snoc. destruct IH as (Hr & Hc & Ht & Hrel).
  unfold sql_items, coll_items, rel_items in *. rewrite !omap_snoc.
  destruct i as [s|c|r]; cbn; rewrite ?app_nil_r, ?Hr, ?Hc, ?Hrel; split_and!; try done.
  - by rewrite group_by_snoc, fmap_app.
  - intros k. rewrite dict_get_snoc. unfold dict_setdefault, dict_mem. rewrite Ht.
    destruct (dict_get (cc_group_key c) _) as [c0|] eqn:Hk; cbn.
    + rewrite Ht. destruct (dict_get k _) eqn:Hk'; [done|].
      destruct (String.eqb_spec (cc_group_key c) k) as [<-|]; [by rewrite Hk in Hk'|done].
    + destruct (String.eqb_spec (cc_group_key c) k) as [<-|Hne].
      * by rewrite dict_get_set_eq, Hk.
      * rewrite dict_get_set_ne, Ht by done. by destruct (dict_get k _).
  - by rewrite group_by_snoc.
Qed.

Lemma values_of_fmap {A B} (f : A -> B) k l :
  values_of k ((fun '(k', x) => (k', f x)) <$> l) = f <$> values_of k l.
Proof.
  unfold values_of. induction l as [|[k' x] l IH]; [done|]. rewrite fmap_cons.
  destruct (decide (k' = k)).
  - rewrite !filter_cons_True by done. cbn. by rewrite IH.
  - by rewrite !filter_cons_False by done.
Qed.

Lemma keys_fmap {A B} (f : A -> B) (l : list (string * A)) :
  ((fun '(k', x) => (k', f x)) <$> l).*1 = l.*1.
Proof. rewrite <- list_fmap_compose. by apply list_fmap_ext; intros i [] _. Qed.

Lemma dict_get_values {A} k (l : list (string * A)) : dict_get k l = head (values_of k l).
Proof.
  unfold values_of. induction l as [|[k' x] l IH]; [done|]. cbn [dict_get].
  destruct (String.eqb_spec k' k) as [->|Hne].
  - by rewrite filter_cons_True.
  - by rewrite filter_cons_False.
Qed.

(** C32: conditions on the same row.  Under [&&] all conditions on one
    [@collection] alias, and all conditions through one relation field, end
    in a single EXISTS that holds them all in their order, after the join
    condition of the relation; the groups follow
    the plain conditions in the order of their first member. *)
Theorem and_expr_groups items :
  and_expr items =
  conjunction (sql_items items ++ (coll_exists <$> group_by (coll_items items)) ++ (rel_exists <$> group_by (rel_items items))).
Proof.
  unfold and_expr. cbv zeta. destruct (collect_groups items) as (-> & -> & Ht & ->). rewrite group_sql_text.
  f_equal. f_equal. f_equal; [|by apply list_fmap_ext; intros i [k [|r rs]] _; [|apply (exists_sql_text _ (_ :: _))]].
  unfold group_by. rewrite keys_fmap, <- !list_fmap_compose.
  apply list_fmap_ext. intros i k Hi. cbn. rewrite Ht, values_of_fmap, dict_get_values.
  unfold coll_exists. cbn. apply list_elem_of_lookup_2 in Hi. rewrite elem_of_first_seen in Hi.
  destruct (values_of k (coll_items items)) as [|c cs] eqn:Hv; [|exact (exists_sql_text (cc_table_name c) (inner_sql <$> (c :: cs)))].
  exfalso. assert (dict_get k (coll_items items) = None) as Hk by (by rewrite dict_get_values, Hv).
  by apply dict_get_none in Hk.
Qed.

(** ** Quoted text *)

(** A text as a single-quoted literal, every backslash and quote escaped;
    and the quoting of the JavaScript SDK, which escapes quotes alone. *)
Definition backslash : ascii := char 92.
Definition quote_char : ascii := char 39.
Fixpoint escape_text (s : string) : string :=
  match s with
  | EmptyString => ""
  | String c s' =>
      (if Ascii.eqb c backslash || Ascii.eqb c quote_char then String backslash (String c "")
       else String c "") +:+ escape_text s'
  end.
Definition quote_text (s : string) : string := cat ["'"; escape_text s; "'"].
Definition sdk_quote (s : string) : string :=
  cat ["'"; replace_char quote_char (String backslash "'") s; "'"].

Lemma str_take_app s t : str_take (String.length s) (s +:+ t) = s.
Proof. induction s as [|c s IH]; [done|]. cbn. by rewrite IH. Qed.

Lemma inner_quoted s : inner (cat ["'"; s; "'"]) = s.
Proof.
  unfold inner, cat. cbn [fold_right]. rewrite append_nil_r. cbn.
  rewrite append_length. cbn. replace (String.length s + 1 - 1)%nat with (String.length s) by lia.
  apply str_take_app.
Qed.

Lemma unescape_cons c s : Ascii.eqb c backslash = false -> unescape_go (String c s) = String c (unescape_go s).
Proof.
  intros Hc. cbn [unescape_go]. replace (code c =? 92)%N with false; [done|].
  symmetry. apply N.eqb_neq. intros H. apply Ascii.eqb_neq in Hc. apply Hc.
  unfold backslash, char. by rewrite <- H; unfold code; rewrite ascii_N_embedding.
Qed.

Lemma unescape_escape s : unescape_go (escape_text s) = s.
Proof.
  induction s as [|c s IH]; [done|]. cbn [escape_text].
  destruct (Ascii.eqb_spec c backslash) as [->|Hb]; [by cbn; rewrite IH|].
  destruct (Ascii.eqb_spec c quote_char) as [->|Hq]; [by cbn; rewrite IH|].
  cbn [orb String.append]. rewrite unescape_cons, IH; [done|]. by apply Ascii.eqb_neq.
Qed.

Lemma unescape_plain s : contains_char backslash s = false -> unescape_go s = s.
Proof.
  induction s as [|c s IH]; [done|]. cbn. intros [Hc Hs]%orb_false_iff.
  change (unescape_go (String c s) = String c s). by rewrite unescape_cons, IH.
Qed.

Lemma unescape_text_go s : _unescape_text s = unescape_go s.
Proof.
  unfold _unescape_text. change (char 92) with backslash.
  destruct (contains_char backslash s) eqn:H; [done|]. by rewrite unescape_plain.
Qed.

Lemma unescape_sdk s :
  contains_char backslash s = false ->
  unescape_go (replace_char quote_char (String backslash "'") s) = s.
Proof.
  induction s as [|c s IH]; [done|]. cbn [contains_char replace_char]. intros [Hc Hs]%orb_false_iff.
  destruct (Ascii.eqb_spec c quote_char) as [->|Hq].
  { transitivity (String quote_char (unescape_go (replace_char quote_char (String backslash "'") s)));
      [reflexivity|by rewrite IH]. }
  cbn [String.append]. by rewrite unescape_cons, IH.
Qed.

(** Quoting and unquoting.  Every text has a literal that denotes it,
    and the SDK's quoting, which escapes apostrophes only, denotes the text
    whenever it holds no backslash. *)
Theorem quoted_text_roundtrip s :
  string_ (quote_text s) = Literal (Val (PStr s)) /\
  (contains_char backslash s = false -> string_ (sdk_quote s) = Literal (Val (PStr s))).
Proof.
  unfold string_, quote_text, sdk_quote. rewrite !inner_quoted, !unescape_text_go.
  split; [by rewrite unescape_escape|]. intros Hs. by rewrite unescape_sdk.
Qed.

(** ** Sorting *)

(** A sort term: a field and whether it is descending. *)
Definition print_term (t : string * bool) : string := cat [if t.2 then "-" else ""; t.1].
Definition print_sort (terms : list (string * bool)) : string := join "," (print_term <$> terms).
Definition sort_field (f : string) : Prop := f <> "" /\ str_forall is_safe f = true.

Lemma safe_not c d : is_safe c = true -> is_safe d = false -> c <> d.
Proof. by intros Hc Hd ->; rewrite Hc in Hd. Qed.

Lemma safe_not_space c : is_safe c = true -> is_space c = false.
Proof.
  intros Hc. destruct (is_space c) eqn:Hs; [|done]. exfalso. revert Hc Hs.
  unfold is_safe, is_space, is_ascii_alpha, is_ascii_lower, is_ascii_upper, is_ascii_digit, in_range.
  rewrite !orb_true_iff, !andb_true_iff, !N.leb_le, !N.eqb_eq. lia.
Qed.

Lemma split_on_none sep s : contains_char sep s = false -> split_on sep s = [s].
Proof.
  induction s as [|c s IH]; [done|]. cbn. intros [Hc Hs]%orb_false_iff. by rewrite Hc, IH.
Qed.
Lemma split_on_cons sep s t : contains_char sep s = false ->
  split_on sep (s +:+ String sep t) = s :: split_on sep t.
Proof.
  induction s as [|c s IH]; cbn.
  - intros _. by rewrite Ascii.eqb_refl.
  - intros [Hc Hs]%orb_false_iff. by rewrite Hc, IH.
Qed.

Lemma split_join sep l :
  l <> [] -> Forall (fun s => contains_char sep s = false) l -> split_on sep (join (String sep "") l) = l.
Proof.
  intros Hne Hl. induction Hl as [|s l Hs Hl IH]; [done|]. destruct l as [|s2 l]; [by apply split_on_none|].
  cbn [join] in *. cbn [String.append]. rewrite split_on_cons by done. f_equal. by apply IH.
Qed.

Lemma rstrip_safe_go s : str_forall (fun c => negb (is_space c)) s = true -> py_rstrip s = s.
Proof.
  induction s as [|c s IH]; [done|]. cbn. intros [Hc Hs]%andb_true_iff. apply negb_true_iff in Hc.
  rewrite IH by done. by rewrite Hc; destruct s.
Qed.
Lemma strip_no_space s : str_forall (fun c => negb (is_space c)) s = true -> py_strip s = s.
Proof.
  intros Hs. unfold py_strip. rewrite rstrip_safe_go by done. destruct s as [|c s]; [done|].
  cbn in *. apply andb_true_iff in Hs as [Hc _]. apply negb_true_iff in Hc. by rewrite Hc.
Qed.

Definition term_char (c : ascii) : bool := is_safe c || Ascii.eqb c (char 45).

Lemma term_chars t : sort_field t.1 -> str_forall term_char (print_term t) = true.
Proof.
  intros [_ Hs]. unfold print_term, cat. cbn [fold_right]. rewrite append_nil_r, str_forall_app.
  apply andb_true_iff. split; [by destruct t.2|].
  eapply str_forall_impl; [|exact Hs]. intros c Hc. unfold term_char. by rewrite Hc.
Qed.

Lemma term_no_char c s : term_char c = false -> str_forall term_char s = true -> contains_char c s = false.
Proof.
  intros Hc. induction s as [|a s IH]; [done|]. cbn. intros [Ha Hs]%andb_true_iff.
  rewrite IH, orb_false_r by done. apply Ascii.eqb_neq. intros ->. by rewrite Ha in Hc.
Qed.

Lemma term_strip s : str_forall term_char s = true -> py_strip s = s.
Proof.
  intros Hs. apply strip_no_space. eapply str_forall_impl; [|exact Hs]. intros c Hc.
  apply negb_true_iff. unfold term_char in Hc. apply orb_true_iff in Hc as [Hc|Hc%Ascii.eqb_eq].
  - by apply safe_not_space.
  - by subst.
Qed.

Lemma starts_with_other c d s : c <> d -> starts_with (String d "") (String c s) = false.
Proof. intros Hne. cbn [starts_with]. by destruct (Ascii.eqb_spec d c) as [->|]. Qed.

Lemma sort_part_term t :
  sort_field t.1 -> sort_part (print_term t) = Ok [(quoted t.1, if t.2 then "DESC" else "ASC")].
Proof.
  destruct t as [f desc]. intros [Hne Hs]. cbn [fst snd] in *. destruct f as [|c f]; [done|].
  pose proof Hs as Hs'. cbn in Hs'. apply andb_true_iff in Hs' as [Hc _].
  assert (c <> char 64 /\ c <> char 45 /\ c <> char 43) as (Hat & Hminus & Hplus).
  { split_and!; by apply safe_not. }
  assert (first_bad sort_char (String c f) = None) as Hbad.
  { apply first_bad_none. eapply str_forall_impl; [|exact Hs]. intros a Ha. unfold sort_char. by rewrite Ha. }
  assert (contains_char dot (String c f) = false) as Hdot.
  { clear -Hs. induction (String c f) as [|a s IH]; [done|]. cbn in *. apply andb_true_iff in Hs as [Ha Hs].
    rewrite IH, orb_false_r by done. apply Ascii.eqb_neq. by apply safe_not. }
  unfold print_term, cat. cbn [fold_right snd fst]. rewrite append_nil_r. destruct desc.
  - transitivity (match first_bad sort_char (String c f) with
                  | Some ch => Err (ValueError ("Invalid character in sort field: "
                                                  +:+ py_repr_str (String ch "")))
                  | None => Ok [(if contains_char dot (String c f) then String c f
                                 else quoted (String c f), "DESC")]
                  end : result exn _); [reflexivity|by rewrite Hbad, Hdot].
  - cbn [String.append]. unfold sort_part.
    assert (forall s, String.eqb (String c f) (String (char 64) s) = false) as Hk.
    { intros s. apply String.eqb_neq. by intros [= -> _]. }
    change "@random" with (String (char 64) "random"). change "@rowid" with (String (char 64) "rowid").
    change "-" with (String (char 45) ""). change "+" with (String (char 43) "").
    rewrite !Hk, !starts_with_other by done.
    cbn [orb String.eqb]. by rewrite Hbad, Hdot.
Qed.

Lemma map_result_all {E A B} (f : A -> result E B) (g : A -> B) l :
  Forall (fun x => f x = Ok (g x)) l -> map_result f l = Ok (g <$> l).
Proof. induction 1 as [|x l Hx _ IH]; [done|]. cbn. by rewrite Hx, IH. Qed.

Lemma strip_head c s : is_space c = false -> py_strip (String c s) <> "".
Proof.
  intros Hc. unfold py_strip. cbn [py_rstrip].
  destruct (py_rstrip s); [rewrite Hc|]; cbn; by rewrite Hc.
Qed.

Lemma term_head t :
  sort_field t.1 -> exists c s, print_term t = String c s /\ is_space c = false.
Proof.
  destruct t as [f desc]. intros [Hne Hs]. unfold print_term, cat. cbn [fold_right fst snd].
  destruct desc; [by eexists _, _|]. destruct f as [|c f]; [done|]. eexists c, _. split; [done|].
  cbn in Hs. apply andb_true_iff in Hs as [Hc _]. by apply safe_not_space.
Qed.

(** A sort expression means its terms: printed and parsed, any list of
    field names and directions comes back in order, quoted. *)
Theorem parse_sort_roundtrip terms :
  Forall (fun t : string * bool => sort_field t.1) terms ->
  parse_sort (print_sort terms)
  = Ok ((fun t : string * bool => (quoted t.1, if t.2 then "DESC" else "ASC")) <$> terms).
Proof.
  intros Ht. destruct (decide (terms = [])) as [->|Hne]; [reflexivity|].
  assert (Forall (fun s => str_forall term_char s = true) (print_term <$> terms)) as Hc.
  { apply Forall_fmap. eapply Forall_impl; [exact Ht|]. apply term_chars. }
  unfold parse_sort, print_sort. change "," with (String (char 44) "").
  rewrite split_join.
  3: { eapply Forall_impl; [exact Hc|]. intros s Hs. by apply term_no_char. }
  2: { by destruct terms. }
  rewrite map_result_fmap.
  rewrite (map_result_all _ (fun t : string * bool => [(quoted t.1, if t.2 then "DESC" else "ASC")])).
  2: { eapply Forall_impl; [exact Ht|]. intros t Hf. rewrite term_strip by (by apply term_chars).
       by apply sort_part_term. }
  replace (String.eqb (py_strip _) "") with false.
  - cbn. f_equal. clear. induction terms as [|t terms IH]; [done|]. rewrite !fmap_cons. cbn. by rewrite IH.
  - symmetry. apply String.eqb_neq. destruct Ht as [|t terms Hf _]; [done|]. rewrite fmap_cons.
    destruct (term_head t Hf) as (c & s & Heq & Hsp). rewrite Heq.
    destruct (print_term <$> terms); by apply strip_head.
Qed.

(** ** Four surprises *)

Section Surprises.
#[local] Existing Instance Demo.float_text.
#[local] Existing Instance Demo.iso_format.

Definition run_filter (relations : dict) (table : string) (children : list tree)
  : result exn string :=
  self ← make_config None (Some relations) None (Some table);
  (transform_children self children initial).1 ≫= fun items => Ok (or_expr items).

(** A relation to the collection itself: the subquery selects from a table of
    the same name as the outer query, so its join condition compares two
    columns of the inner row, and the outer row is not mentioned at all. *)
Lemma self_relation_captured :
  run_filter [("parent", PDict [("table", PStr "pages")])] "pages"
    [and_node [comparison_node (field_path_node ["parent"; "title"]) "=" true_val]]
  = Ok (cat ["EXISTS (SELECT 1 FROM "; quoted "pages"; " WHERE "; quoted "pages"; "."; quoted "id";
             " = "; quoted "pages"; "."; quoted "parent"; " AND "; quoted "pages"; "."; quoted "title";
             " = TRUE)"]).
Proof. reflexivity. Qed.

(** A relation path compared with an [@collection] path: the second operand
    is rendered as the bare name of the collection. *)
Lemma relation_against_collection :
  run_filter Demo.relations "posts"
    [and_node [comparison_node (field_path_node ["author"; "name"]) "=" (macro_node "@collection.teams.owner")]]
  = Ok (cat ["EXISTS (SELECT 1 FROM "; quoted "users"; " WHERE "; quoted "users"; "."; quoted "id";
             " = "; quoted "posts"; "."; quoted "author"; " AND "; quoted "users"; "."; quoted "name";
             " = teams)"]).
Proof. reflexivity. Qed.

(** Two aliases of one collection: both sides of the comparison name the same
    table, which the FROM list holds twice. *)
Lemma aliases_of_one_collection :
  run_filter [] "posts"
    [and_node [comparison_node (macro_node "@collection.teams:a.owner") "="
                 (macro_node "@collection.teams:b.owner")]]
  = Ok (cat ["EXISTS (SELECT 1 FROM "; quoted "teams"; ", "; quoted "teams"; " WHERE ";
             quoted "teams"; "."; quoted "owner"; " = "; quoted "teams"; "."; quoted "owner"; ")"]).
Proof. reflexivity. Qed.

(** A number with an exponent and no point, which the grammar accepts. *)
Lemma exponent_without_point :
  number "1e5" = Err (ValueError "invalid literal for int() with base 10: '1e5'").
Proof. reflexivity. Qed.
End Surprises.

(** ** Witnesses *)
Lemma quoted_text_roundtrip_witness : string_ (sdk_quote "O'Brien") = Literal (Val (PStr "O'Brien")).
Proof. apply (quoted_text_roundtrip "O'Brien"). reflexivity. Defined.

Lemma parse_sort_roundtrip_witness :
  parse_sort "-created,title" = Ok [(quoted "created", "DESC"); (quoted "title", "ASC")].
Proof.
  exact (parse_sort_roundtrip [("created", true); ("title", false)]
           ltac:(repeat constructor; discriminate)).
Defined.
