(* ===== verification/SqlConsole.v ===== *)
(** * The SQL console (ppbase/services/sql_console.py)

    The splitter, the static classification of statements and the execution
    of a script on one database session.  The session is modelled by the
    sequence of commands sent to it; the server's answers are a parameter,
    a function of that sequence.  Durations are left out of the results. *)
From Stdlib Require Import Ascii String.
From S2P Require Import Prelude PyText PyVal.
#[local] Open Scope string_scope.
#[local] Open Scope list_scope.
#[local] Open Scope Z_scope.

(** ** Tables *)
Definition DEFAULT_MAX_ROWS : Z := 500.
Definition STATEMENT_TIMEOUT_MS : Z := 30000.
Definition _READ_ONLY_SQLSTATE : string := "25006".
Definition _READ_COMMANDS : list string := ["SELECT"; "VALUES"; "TABLE"; "SHOW"].
Definition _MODIFY_COMMANDS : list string := ["INSERT"; "UPDATE"; "MERGE"; "UPSERT"].
Definition _DELETE_COMMANDS : list string := ["DELETE"; "TRUNCATE"; "DROP"].
Definition _SCHEMA_COMMANDS : list string :=
  ["CREATE"; "ALTER"; "COMMENT"; "GRANT"; "REVOKE"; "SECURITY"; "IMPORT"; "REASSIGN"].
Definition _MAINTENANCE_COMMANDS : list string :=
  ["VACUUM"; "ANALYZE"; "ANALYSE"; "CLUSTER"; "REINDEX"; "REFRESH"; "CHECKPOINT"].
Definition _TRANSACTION_COMMANDS : list string :=
  ["BEGIN"; "START"; "COMMIT"; "END"; "ROLLBACK"; "ABORT"; "SAVEPOINT"; "RELEASE"].
Definition _CREATE_MODIFIERS : list string :=
  ["OR"; "REPLACE"; "UNIQUE"; "TEMP"; "TEMPORARY"; "UNLOGGED"; "GLOBAL"; "LOCAL"; "TRUSTED";
   "PROCEDURAL"; "DEFAULT"; "CONSTRAINT"; "RECURSIVE"].
Definition _TWO_WORD_OBJECTS : list string :=
  ["MATERIALIZED"; "FOREIGN"; "EVENT"; "TEXT"; "USER"; "ACCESS"; "OPERATOR"].
Definition MUTATING_KINDS : list string := ["modify"; "delete"; "schema"; "maintenance"].

Definition mem (x : string) (l : list string) : bool := existsb (String.eqb x) l.
Definition char (n : N) : ascii := ascii_of_N n.
Definition is_char (n : N) (c : ascii) : bool := (code c =? n)%N.

(** ** Splitting *)

(** Characters consumed after the opening quote, the closing one included. *)
Fixpoint _skip_quoted (quote : ascii) (backslash_escapes : bool) (s : string) : nat :=
  match s with
  | EmptyString => 0
  | String ch s' =>
      if backslash_escapes && is_char 92 ch
      then match s' with EmptyString => 1 | String _ s'' => 2 + _skip_quoted quote backslash_escapes s'' end
      else if Ascii.eqb ch quote
      then match s' with
           | String c2 s'' => if Ascii.eqb c2 quote then 2 + _skip_quoted quote backslash_escapes s'' else 1
           | EmptyString => 1
           end
      else 1 + _skip_quoted quote backslash_escapes s'
  end%nat.

(** Characters of the rest of a line, the newline included. *)
Fixpoint skip_line (s : string) : nat :=
  match s with
  | EmptyString => 0
  | String c s' => if is_char 10 c then 1 else S (skip_line s')
  end%nat.

(** Characters up to the end of a block comment at nesting [depth]. *)
Fixpoint skip_comment (depth : nat) (s : string) : nat :=
  match depth, s with
  | O, _ | _, EmptyString => 0
  | S d, String c s' =>
      match s' with
      | String c2 s'' =>
          if is_char 47 c && is_char 42 c2 then 2 + skip_comment (S depth) s''
          else if is_char 42 c && is_char 47 c2 then 2 + skip_comment d s''
          else 1 + skip_comment depth s'
      | EmptyString => 1
      end
  end%nat.

(** [s.find(needle)]: the position of the first occurrence. *)
Fixpoint find (needle s : string) : option nat :=
  if starts_with needle s then Some O else
  match s with
  | EmptyString => None
  | String _ s' => S <$> find needle s'
  end.

(** [_DOLLAR_TAG_RE.match]: the whole tag of a dollar quote. *)
Definition is_tag_start (c : ascii) : bool := is_ascii_alpha c || is_char 95 c.
Definition is_tag_char (c : ascii) : bool := is_tag_start c || is_ascii_digit c.
Definition dollar_tag (s : string) : option string :=
  match s with
  | String d s' =>
      if negb (is_char 36 d) then None else
      let '(name, rest) := span is_tag_char s' in
      let name_ok := match name with EmptyString => true | String c _ => is_tag_start c end in
      match rest with
      | String e _ => if is_char 36 e && name_ok then Some (String d (name +:+ String e "")) else None
      | EmptyString => None
      end
  | EmptyString => None
  end.

(** What one iteration of the loop finds, with the number of characters. *)
Inductive lexeme : Type :=
| Comment (n : nat)
| Content (n : nat)           (* a literal, a quoted identifier, a number, a symbol *)
| WordLexeme (word : string) (n : nat)
| Paren (c : ascii)
| Semicolon
| Blank.

(** The tests of one iteration, in order.  [prev] and [before_prev] are the
    two characters before the position.  [None] is the [AttributeError] of a
    digit that [_NUMBER_RE] does not know. *)
Definition is_number_char (c : ascii) : bool :=
  is_ascii_digit c || is_ascii_alpha c || is_char 95 c || is_char 46 c.
Definition is_word_char (c : ascii) : bool := is_word c || is_char 36 c.

Definition escape_prefix (prev before_prev : option ascii) : bool :=
  match prev with None => true | Some c => is_char 101 c || is_char 69 c end
  && negb (match before_prev with None => false | Some c => is_alnum c || is_char 95 c end).

Definition next_lexeme (prev before_prev : option ascii) (s : string) : option lexeme :=
  match s with
  | EmptyString => None
  | String ch s' =>
      if is_char 45 ch && starts_with "-" s' then Some (Comment (skip_line s))
      else if is_char 47 ch && starts_with "*" s' then Some (Comment (2 + skip_comment 1 (str_drop 2 s)))
      else if is_char 39 ch then Some (Content (1 + _skip_quoted ch (escape_prefix prev before_prev) s'))
      else if is_char 34 ch then Some (Content (1 + _skip_quoted ch false s'))
      else
        match dollar_tag s with
        | Some tag =>
            let body := str_drop (String.length tag) s in
            Some (Content match find tag body with
                          | None => String.length s
                          | Some k => String.length tag + k + String.length tag
                          end)
        | None =>
            if is_char 59 ch then Some Semicolon
            else if is_digit ch then
              if is_ascii_digit ch then Some (Content (String.length (fst (span is_number_char s)))) else None
            else if is_alpha ch || is_char 95 ch then
              let word := fst (span is_word_char s) in
              Some (WordLexeme (py_upper word) (String.length word))
            else if is_char 40 ch || is_char 41 ch then Some (Paren ch)
            else if is_space ch then Some Blank
            else Some (Content 1)
        end
  end%nat.

Definition width (l : lexeme) : nat :=
  match l with Comment n | Content n | WordLexeme _ n => n | _ => 1 end.

(** The loop's variables: [piece] is [sql[start:i]]. *)
Record split_state : Type := mkSplit {
  statements : list (string * list string);
  words : list string;
  has_content : bool;
  piece : string;
}.

Definition flush (st : split_state) : split_state :=
  let text := py_strip (piece st) in
  mkSplit (if has_content st && negb (String.eqb text "")
           then statements st ++ [(text, words st)] else statements st)
    [] false "".

Definition take_lexeme (l : lexeme) (text : string) (st : split_state) : split_state :=
  let piece' := piece st +:+ text in
  match l with
  | Comment _ | Blank => mkSplit (statements st) (words st) (has_content st) piece'
  | Content _ => mkSplit (statements st) (words st) true piece'
  | WordLexeme w _ => mkSplit (statements st) (words st ++ [w]) true piece'
  | Paren c => mkSplit (statements st) (words st ++ [String c ""]) true piece'
  | Semicolon => flush st
  end.

(** The last two characters of the text read so far. *)
Fixpoint last_two (p1 p2 : option ascii) (text : string) : option ascii * option ascii :=
  match text with
  | EmptyString => (p1, p2)
  | String c text' => last_two (Some c) p1 text'
  end.

Fixpoint split_loop (fuel : nat) (prev before_prev : option ascii) (s : string) (st : split_state)
  : option split_state :=
  match s, fuel with
  | EmptyString, _ => Some (flush st)
  | _, O => None
  | _, S fuel' =>
      match next_lexeme prev before_prev s with
      | None => None
      | Some l =>
          let text := str_take (width l) s in
          let '(p1, p2) := last_two prev before_prev text in
          split_loop fuel' p1 p2 (str_drop (width l) s) (take_lexeme l text st)
      end
  end.

(** [None] is the [AttributeError]. *)
Definition split_statements (sql : string) : option (list (string * list string)) :=
  statements <$> split_loop (String.length sql) None None sql (mkSplit [] [] false "").

(** ** Classification *)

(** Words outside of any parentheses. *)
Fixpoint top_level_go (depth : nat) (ws : list string) : list string :=
  match ws with
  | [] => []
  | w :: ws' =>
      if String.eqb w "(" then top_level_go (S depth) ws'
      else if String.eqb w ")" then top_level_go (pred depth) ws'
      else if (depth =? 0)%nat then w :: top_level_go depth ws'
      else top_level_go depth ws'
  end.
Definition _top_level_words (ws : list string) : list string := top_level_go 0 ws.

Fixpoint drop_while {A} (p : A -> bool) (l : list A) : list A :=
  match l with [] => [] | x :: l' => if p x then drop_while p l' else l end.

(** [w in "()"]: a substring of that text. *)
Definition in_parens (w : string) : bool := contains w "()".

Definition _object_command (verb : string) (rest : list string) : string :=
  match drop_while (fun w => mem w _CREATE_MODIFIERS) rest with
  | [] => verb
  | w :: ws =>
      if in_parens w then verb else
      let label := verb +:+ " " +:+ w in
      if mem w _TWO_WORD_OBJECTS
      then match ws with
           | w2 :: _ => if in_parens w2 then label else label +:+ " " +:+ w2
           | [] => label
           end
      else label
  end.

Record classification : Type := mkClass {
  command : string;
  kind : string;
  warning : option string;
  forbidden_reason : option string;
}.
Definition plain (command kind : string) : classification := mkClass command kind None None.
Definition forbid (command reason : string) : classification :=
  mkClass command "forbidden" None (Some reason).
Definition warned (command kind text : string) : classification := mkClass command kind (Some text) None.

Definition is_analyze (w : string) : bool := mem w ["ANALYZE"; "ANALYSE"].

(** The options of an EXPLAIN: whether it analyzes, and the words after. *)
Fixpoint explain_parens (analyze : bool) (ws : list string) : bool * list string :=
  match ws with
  | [] => (analyze, [])
  | w :: ws' =>
      if String.eqb w ")" then (analyze, ws') else explain_parens (analyze || is_analyze w) ws'
  end.
Fixpoint explain_words (analyze : bool) (ws : list string) : bool * list string :=
  match ws with
  | [] => (analyze, [])
  | w :: ws' =>
      if is_analyze w || String.eqb w "VERBOSE" then explain_words (analyze || is_analyze w) ws'
      else (analyze, ws)
  end.
Definition explain_options (rest : list string) : bool * list string :=
  match rest with
  | w :: _ => if String.eqb w "(" then explain_parens false rest else explain_words false rest
  | [] => (false, [])
  end.

Definition set_transaction (rest : list string) : bool :=
  match rest with
  | w :: ws =>
      String.eqb w "TRANSACTION"
      || (String.eqb w "SESSION" && match ws with w2 :: _ => String.eqb w2 "CHARACTERISTICS" | [] => false end)
  | [] => false
  end || existsb (fun w => mem w ["TRANSACTION_READ_ONLY"; "DEFAULT_TRANSACTION_READ_ONLY"]) rest.

Definition transaction_reason (first : string) : string :=
  first +:+ " is not allowed: the console already runs the whole script in a single transaction (committed on success, rolled back on error).".

Definition classify_delete (first : string) (rest top : list string) : classification :=
  if String.eqb first "DROP" then
    let command := _object_command "DROP" rest in
    warned command "delete"
      (command +:+ " permanently removes the object and all its data."
       +:+ (if mem "CASCADE" top then " CASCADE also drops every dependent object." else ""))
  else if String.eqb first "TRUNCATE"
  then warned first "delete" "TRUNCATE removes every row of the table(s)."
  else if negb (mem "WHERE" top)
  then warned first "delete" "DELETE without a WHERE clause removes every row of the table."
  else plain first "delete".

Definition classify_schema (first : string) (rest top : list string) : classification :=
  let command := if mem first ["CREATE"; "ALTER"] then _object_command first rest else first in
  if String.eqb first "ALTER" && mem "DROP" top
  then warned command "schema" ("This " +:+ command +:+ " drops a column, constraint or other part of the object.")
  else plain command "schema".

(** [fuel] bounds the nesting of EXPLAIN ANALYZE; the number of words is
    enough. *)
Fixpoint classify_go (fuel : nat) (all_words : list string) : classification :=
  match drop_while (String.eqb "(") all_words with
  | [] => plain "UNKNOWN" "other"
  | (first :: rest) as ws =>
      let top := _top_level_words ws in
      let next k := match rest with w :: _ => String.eqb w k | [] => false end in
      if mem first _TRANSACTION_COMMANDS || (String.eqb first "PREPARE" && next "TRANSACTION")
      then forbid first (transaction_reason first)
      else if String.eqb first "SET" && set_transaction rest
      then forbid "SET TRANSACTION" "Changing the transaction mode is not allowed in the SQL console."
      else if String.eqb first "COPY"
      then forbid "COPY" "COPY is not supported in the SQL console. Use INSERT ... SELECT or SELECT instead."
      else if String.eqb first "EXPLAIN" then
        let '(analyze, after) := explain_options rest in
        if negb analyze then plain "EXPLAIN" "read" else
        match fuel with
        | O => plain "EXPLAIN" "read"
        | S fuel' =>
            let inner := classify_go fuel' after in
            mkClass (py_strip ("EXPLAIN ANALYZE " +:+ command inner))
              (if String.eqb (kind inner) "other" then "read" else kind inner)
              (warning inner) (forbidden_reason inner)
        end
      else if String.eqb first "WITH" then
        if mem "DELETE" ws then plain "WITH ... DELETE" "delete"
        else if existsb (fun w => mem w ws) ["INSERT"; "UPDATE"; "MERGE"] then plain "WITH ... MODIFY" "modify"
        else plain "SELECT" "read"
      else if mem first _READ_COMMANDS then
        if String.eqb first "SELECT" && mem "INTO" top
        then warned "SELECT INTO" "schema" "SELECT INTO creates a new table."
        else plain first "read"
      else if mem first _MODIFY_COMMANDS then
        if String.eqb first "UPDATE" && negb (mem "WHERE" top)
        then warned first "modify" "UPDATE without a WHERE clause modifies every row of the table."
        else plain first "modify"
      else if mem first _DELETE_COMMANDS then classify_delete first rest top
      else if mem first _SCHEMA_COMMANDS then classify_schema first rest top
      else if mem first _MAINTENANCE_COMMANDS then plain first "maintenance"
      else plain first "other"
  end.
Definition _classify (ws : list string) : classification := classify_go (length ws) ws.

(** ** Statements *)
Record SqlStatement : Type := mkStatement {
  index : Z;
  sql : string;
  class : classification;
}.

Definition mutating (stmt : SqlStatement) : bool := mem (kind (class stmt)) MUTATING_KINDS.

Definition opt_text (o : option string) : pyval := match o with Some s => PStr s | None => PNone end.

Definition describe (stmt : SqlStatement) : list (string * pyval) :=
  [("index", PInt (index stmt)); ("sql", PStr (sql stmt)); ("command", PStr (command (class stmt)));
   ("kind", PStr (kind (class stmt))); ("mutating", PBool (mutating stmt));
   ("warning", opt_text (warning (class stmt)))].

Fixpoint number_statements (i : Z) (l : list (string * list string)) : list SqlStatement :=
  match l with
  | [] => []
  | (text, ws) :: l' => mkStatement i text (_classify ws) :: number_statements (i + 1) l'
  end.
Definition analyze_script (script : string) : option (list SqlStatement) :=
  number_statements 0 <$> split_statements script.

(** ** Cells and rows *)

(** [json.loads]; [None] is the [ValueError]. *)
Class JsonLoads : Type := json_loads : string -> option pyval.

Definition isfinite (f : spec_float) : bool :=
  match f with S754_zero _ | S754_finite _ _ _ => true | _ => false end.

(** The driver's values that are Python scalars, lists and dicts; the other
    classes are shown by their text and are not modelled. *)
Fixpoint _jsonable `{FloatText} (v : pyval) : pyval :=
  match v with
  | PFloat f => if isfinite f then v else PStr (py_str v)
  | PDict d => PDict ((fun '(k, x) => (k, _jsonable x)) <$> d)
  | PList l => PList (_jsonable <$> l)
  | _ => v
  end.

Definition _decode_cell `{FloatText, JsonLoads} (v : pyval) (type_name : string) : pyval :=
  match v with
  | PStr s => if mem type_name ["json"; "jsonb"] then default v (json_loads s) else v
  | _ => _jsonable v
  end.

(** ** The session *)
Record pg_error : Type := mkPgError {
  sqlstate : option string;
  message : string;                    (* the message attribute, or the text *)
  class_name : string;
  detail : list (string * pyval);      (* detail, hint and position, as set *)
}.

Inductive cmd : Type :=
| Connect
| AcquireBarrier | CommitBarrier | ReleaseBarrier
| Start (read_only : bool)
| Execute (sql : string)               (* a command of the console itself *)
| Run (sql : string)                   (* prepare and fetch a statement *)
| Rollback | Commit
| Invalidate.

Record reply : Type := mkReply {
  attributes : list (string * string);  (* name and type of each column *)
  records : list (list pyval);
  statusmsg : string;
}.

(** The server: the answer to a statement and the failure of any other
    command, given the commands sent before. *)
Class Server : Type := {
  answer : list cmd -> string -> result pg_error reply;
  fails : list cmd -> cmd -> option pg_error;
}.

Inductive console_error : Type :=
| SqlConsoleError (message : string) (data : list (string * pyval))
| DriverError (e : pg_error)
| AttributeError.

Definition _error_message (e : pg_error) : string :=
  let m := py_strip (message e) in if String.eqb m "" then class_name e else m.

Definition _error_data (e : pg_error) (stmt : SqlStatement) : list (string * pyval) :=
  [("statementIndex", PInt (index stmt)); ("sql", PStr (sql stmt)); ("sqlstate", opt_text (sqlstate e))]
  ++ filter (fun kv => truthy kv.2 = true) (detail e).

(** [None] of the code is [Ok None]; [Err] is the [ValueError] of [int]. *)
Definition _status_row_count (status : string) : result pg_error (option Z) :=
  let parts := split_ws status in
  let last := List.last parts "" in
  if negb (match parts with [] => true | _ => false end) && py_isdigit last
     && mem (List.hd "" parts) ["INSERT"; "UPDATE"; "DELETE"; "MERGE"; "SELECT"; "MOVE"; "FETCH"]
  then match int_of_str last with
       | Some z => Ok (Some z)
       | None => Err (mkPgError None ("invalid literal for int() with base 10: " +:+ py_repr_str last)
                        "ValueError" [])
       end
  else Ok None.

Section Session.
Context `{FloatText, JsonLoads, Server}.

Definition session : Type -> Type := stm (list cmd) console_error.

(** Send a command other than a statement. *)
Definition send (c : cmd) : session unit := fun history =>
  (match fails history c with Some e => Err (DriverError e) | None => Ok tt end, history ++ [c]).

(** [try: m except BaseException: handler; raise] *)
Definition on_error {A} (m : session A) (handler : session unit) : session A := fun s =>
  match m s with
  | (Ok a, s1) => (Ok a, s1)
  | (Err e, s1) => match handler s1 with (Ok _, s2) => (Err e, s2) | (Err e2, s2) => (Err e2, s2) end
  end.

(** [try: m finally: cleanup] *)
Definition finally {A} (m : session A) (cleanup : session unit) : session A := fun s =>
  match m s with
  | (r, s1) => match cleanup s1 with (Ok _, s2) => (r, s2) | (Err e2, s2) => (Err e2, s2) end
  end.

(** The rows shown, at most [max_rows], and whether there were more. *)
Definition take_rows (max_rows : Z) (rows : list (list pyval)) : list (list pyval) * bool :=
  let n := Z.to_nat max_rows in (take n rows, (n <? length rows)%nat).

Definition decode_record (columns : list (string * string)) (record : list pyval) : pyval :=
  PList (zip_with (fun c v => _decode_cell v c.2) columns record).

(** What a statement returns, or the exception it raises. *)
Definition statement_result (stmt : SqlStatement) (max_rows : Z) (r : reply)
  : result pg_error (list (string * pyval)) :=
  match attributes r with
  | _ :: _ =>
      let '(rows, truncated) := take_rows max_rows (records r) in
      let status := command (class stmt) +:+ " " +:+ str_of_Z (zlen rows)
                    +:+ (if truncated then "+" else "") in
      Ok (describe stmt ++
          [("columns", PList ((fun '(n, t) => PDict [("name", PStr n); ("type", PStr t)]) <$> attributes r));
           ("rows", PList (decode_record (attributes r) <$> rows)); ("rowCount", PInt (zlen rows));
           ("truncated", PBool truncated); ("status", PStr status)])
  | [] =>
      let status := if String.eqb (statusmsg r) "" then command (class stmt) else statusmsg r in
      count ← _status_row_count status;
      Ok (describe stmt ++
          [("columns", PList []); ("rows", PList []);
           ("rowCount", match count with Some z => PInt z | None => PNone end);
           ("truncated", PBool false); ("status", PStr status)])
  end.

Definition _run_statement (stmt : SqlStatement) (max_rows : Z)
  : list cmd -> result pg_error (list (string * pyval)) * list cmd := fun history =>
  (answer history (sql stmt) ≫= statement_result stmt max_rows, history ++ [Run (sql stmt)]).

Definition read_only_violation (e : pg_error) : bool :=
  match sqlstate e with Some s => String.eqb s _READ_ONLY_SQLSTATE | None => false end.

(** The statement PostgreSQL refused, with its kind and warning updated. *)
Definition refuse (stmt : SqlStatement) (e : pg_error) : SqlStatement :=
  if mutating stmt then stmt else
  mkStatement (index stmt) (sql stmt)
    (mkClass (command (class stmt)) "modify"
       (Some ("PostgreSQL detected that this statement writes to the database: " +:+ _error_message e))
       (forbidden_reason (class stmt))).

(** The loop over the statements: the results, or the refused statement. *)
Fixpoint run_statements (read_only : bool) (max_rows : Z) (stmts : list SqlStatement)
  : session (list (list (string * pyval)) + SqlStatement) :=
  match stmts with
  | [] => mret (inl [])
  | stmt :: rest => fun history =>
      match _run_statement stmt max_rows history with
      | (Ok r, h) =>
          match run_statements read_only max_rows rest h with
          | (Ok (inl rs), h') => (Ok (inl (r :: rs)), h')
          | other => other
          end
      | (Err e, h) =>
          if read_only && read_only_violation e then (Ok (inr (refuse stmt e)), h)
          else (Err (SqlConsoleError (_error_message e) (_error_data e stmt)), h)
      end
  end.

Definition timeout_sql : string := "SET LOCAL statement_timeout = " +:+ str_of_Z STATEMENT_TIMEOUT_MS.

Definition _execute_on_connection (stmts : list SqlStatement) (read_only : bool) (max_rows : Z)
  : session (list (list (string * pyval)) + SqlStatement) :=
  send (Start read_only) ≫= fun _ =>
  outcome ← on_error
    (send (Execute timeout_sql) ≫= fun _ =>
     (if read_only then send (Execute "SELECT 1") else mret tt) ≫= fun _ =>
     run_statements read_only max_rows stmts)
    (send Rollback);
  (if read_only || match outcome with inr _ => true | inl _ => false end
   then send Rollback else send Commit) ≫= fun _ =>
  mret outcome.

Definition forbidden_error (stmt : SqlStatement) : console_error :=
  SqlConsoleError (default (command (class stmt) +:+ " is not allowed.") (forbidden_reason (class stmt)))
    [("statementIndex", PInt (index stmt)); ("sql", PStr (sql stmt))].

Definition confirmation_response (stmts : list SqlStatement) : list (string * pyval) :=
  [("requiresConfirmation", PBool true); ("executed", PBool false); ("committed", PBool false);
   ("statements", PList ((fun s => PDict (describe s)) <$> stmts))].

(** The statement object is shared with the list it came from. *)
Definition update_statement (stmts : list SqlStatement) (refused : SqlStatement) : list SqlStatement :=
  (fun s => if index s =? index refused then refused else s) <$> stmts.

(** [async with mutation_write_barrier_on_connection(conn)] *)
Definition with_barrier {A} (m : session A) : session A :=
  send AcquireBarrier ≫= fun _ => finally m (send ReleaseBarrier).

Definition is_forbidden (stmt : SqlStatement) : bool := String.eqb (kind (class stmt)) "forbidden".

Definition execute_script (script : string) (confirm : bool) (max_rows : Z)
  : session (list (string * pyval)) :=
  match analyze_script script with
  | None => stm_raise AttributeError
  | Some [] => stm_raise (SqlConsoleError "The SQL query is empty." [])
  | Some stmts =>
      match List.find is_forbidden stmts with
      | Some stmt => stm_raise (forbidden_error stmt)
      | None =>
          if negb confirm && existsb mutating stmts then mret (confirmation_response stmts) else
          send Connect ≫= fun _ =>
          outcome ← finally
            (if confirm
             then with_barrier (send CommitBarrier ≫= fun _ => _execute_on_connection stmts false max_rows)
             else _execute_on_connection stmts true max_rows)
            (send Invalidate);
          match outcome with
          | inr refused => mret (confirmation_response (update_statement stmts refused))
          | inl results =>
              mret [("requiresConfirmation", PBool false); ("executed", PBool true);
                    ("committed", PBool confirm); ("statements", PList (PDict <$> results))]
          end
      end
  end.
End Session.

(** * Properties of the splitter *)

Lemma str_take_length n s : (n <= String.length s)%nat -> String.length (str_take n s) = n.
Proof.
  revert s; induction n as [|n IH]; intros [|c s]; cbn; try lia. intros. f_equal. apply IH. lia.
Qed.
Lemma str_take_drop n s : str_take n s +:+ str_drop n s = s.
Proof. revert s; induction n as [|n IH]; intros [|c s]; cbn; try done. by rewrite IH. Qed.
Lemma str_drop_length n s : String.length (str_drop n s) = (String.length s - n)%nat.
Proof. revert s; induction n as [|n IH]; intros [|c s]; cbn; try done; apply IH. Qed.
Lemma str_take_exact s t : str_take (String.length s) (s +:+ t) = s.
Proof. induction s as [|c s IH]; cbn; [done|]. by rewrite IH. Qed.
Lemma str_drop_exact s t : str_drop (String.length s) (s +:+ t) = t.
Proof. induction s as [|c s IH]; cbn; [done|]. apply IH. Qed.

(** Every iteration consumes a character. *)
Lemma skip_line_pos c s : (1 <= skip_line (String c s))%nat.
Proof. cbn. destruct (is_char 10 c); lia. Qed.
Lemma dollar_tag_length s tag : dollar_tag s = Some tag -> (2 <= String.length tag)%nat.
Proof.
  unfold dollar_tag. destruct s as [|d s]; [done|]. destruct (negb _); [done|].
  destruct (span is_tag_char s) as [name rest]. destruct rest as [|e rest]; [done|].
  destruct (_ && _); [|done]. intros [= <-]. cbn. rewrite append_length. cbn. lia.
Qed.
Lemma next_lexeme_width p1 p2 s l : next_lexeme p1 p2 s = Some l -> (1 <= width l)%nat.
Proof.
  unfold next_lexeme. destruct s as [|c s]; [done|].
  destruct (_ && _); [intros [= <-]; apply skip_line_pos|]. destruct (_ && _); [by intros [= <-]; cbn; lia|].
  destruct (is_char 39 c); [intros [= <-]; cbn; lia|]. destruct (is_char 34 c); [intros [= <-]; cbn; lia|].
  destruct (dollar_tag _) as [tag|] eqn:Hd.
  { apply dollar_tag_length in Hd. intros [= <-]. cbn. destruct (find _ _); lia. }
  destruct (is_char 59 c); [intros [= <-]; cbn; lia|].
  destruct (is_digit c).
  { destruct (is_ascii_digit c) eqn:Ha; [|done]. intros [= <-]. cbn [span width]. unfold is_number_char.
    rewrite Ha. cbn [orb]. destruct (span _ s). cbn. lia. }
  destruct (is_alpha c || is_char 95 c) eqn:Hw.
  { intros [= <-]. cbn [span width]. replace (is_word_char c) with true.
    - destruct (span _ s). cbn. lia.
    - symmetry. unfold is_word_char, is_word, is_alnum. apply orb_true_iff in Hw as [->|Hw]; [done|].
      unfold is_char in Hw. by rewrite Hw, !orb_true_r. }
  destruct (is_char 40 c || is_char 41 c); [intros [= <-]; cbn; lia|].
  destruct (is_space c); intros [= <-]; cbn; lia.
Qed.

Lemma split_loop_fuel f1 f2 p1 p2 s st :
  (String.length s <= f1)%nat -> (String.length s <= f2)%nat ->
  split_loop f1 p1 p2 s st = split_loop f2 p1 p2 s st.
Proof.
  revert f2 p1 p2 s st; induction f1 as [|f1 IH]; intros f2 p1 p2 s st H1 H2.
  { destruct s; [by destruct f2|cbn in H1; lia]. }
  destruct s as [|c s]; [by destruct f2|]. destruct f2 as [|f2]; [cbn in H2; lia|].
  cbn [split_loop]. destruct (next_lexeme p1 p2 (String c s)) as [l|] eqn:Hl; [|done].
  apply next_lexeme_width in Hl. destruct (last_two _ _ _) as [q1 q2].
  apply IH; rewrite str_drop_length; cbn in *; lia.
Qed.

(** The loop with enough fuel. *)
Definition split_all (p : option ascii * option ascii) (s : string) (st : split_state) : option split_state :=
  split_loop (String.length s) p.1 p.2 s st.

Lemma split_all_step p t r st l :
  t <> "" -> next_lexeme p.1 p.2 (t +:+ r) = Some l -> width l = String.length t ->
  split_all p (t +:+ r) st = split_all (last_two p.1 p.2 t) r (take_lexeme l t st).
Proof.
  intros Hne Hl Hw. unfold split_all. destruct t as [|c t]; [done|]. cbn [String.append String.length split_loop].
  change (String c (t +:+ r)) with (String c t +:+ r). rewrite Hl, Hw, str_take_exact, str_drop_exact.
  destruct (last_two p.1 p.2 (String c t)) as [q1 q2]. cbn [fst snd].
  apply split_loop_fuel; [|done]. rewrite append_length. lia.
Qed.

(** The splitter answers every script whose digits are ASCII: its loop
    ends within as many iterations as the script has characters, and the only
    failure left is a superscript digit outside a literal. *)
Theorem split_statements_total script :
  str_forall (fun c => negb (is_digit c) || is_ascii_digit c) script = true ->
  exists l, split_statements script = Some l.
Proof.
  intros Hs. unfold split_statements.
  enough (forall f p1 p2 s st, (String.length s <= f)%nat ->
            str_forall (fun c => negb (is_digit c) || is_ascii_digit c) s = true ->
            exists st', split_loop f p1 p2 s st = Some st') as Hg.
  { destruct (Hg _ None None script (mkSplit [] [] false "") (le_n _) Hs) as [st' ->]. by eexists. }
  clear Hs. induction f as [|f IH]; intros p1 p2 s st Hf Hs.
  { destruct s; [by eexists|cbn in Hf; lia]. }
  destruct s as [|c s]; [by eexists|]. cbn [split_loop].
  destruct (next_lexeme p1 p2 (String c s)) as [l|] eqn:Hl.
  - apply next_lexeme_width in Hl. destruct (last_two _ _ _) as [q1 q2].
    apply IH; [rewrite str_drop_length; cbn in *; lia|].
    rewrite <- (str_take_drop (width l) (String c s)), str_forall_app in Hs.
    by apply andb_true_iff in Hs as [_ Hs].
  - exfalso. unfold next_lexeme in Hl. cbn in Hs. apply andb_true_iff in Hs as [Hc _].
    repeat (case_match; try done).
Qed.

(** ** Scripts written token by token *)

(** The lexical elements of a script. *)
Inductive token : Type :=
| TWord (w : string)
| TNumber (n : string)
| TString (body : string)              (* '...', every quote doubled *)
| TEscape (body : string)              (* E'...', quotes and backslashes escaped *)
| TIdent (body : string)
| TDollar (tag body : string)
| TLine (body : string)                (* a comment to the end of the line *)
| TBlock (body : string)
| TParen (opening : bool)
| TSymbol (c : ascii).

Fixpoint double (q : ascii) (s : string) : string :=
  match s with
  | EmptyString => ""
  | String c s' => if Ascii.eqb c q then String q (String q (double q s')) else String c (double q s')
  end.
Fixpoint escape (s : string) : string :=
  match s with
  | EmptyString => ""
  | String c s' =>
      if is_char 39 c || is_char 92 c then String (char 92) (String c (escape s'))
      else String c (escape s')
  end.

Definition tag_text (tag : string) : string := String (char 36) (tag +:+ String (char 36) "").

Definition print (t : token) : string :=
  match t with
  | TWord w => w
  | TNumber n => n
  | TString b => String (char 39) (double (char 39) b +:+ String (char 39) "")
  | TEscape b => "E" +:+ String (char 39) (escape b +:+ String (char 39) "")
  | TIdent b => String (char 34) (double (char 34) b +:+ String (char 34) "")
  | TDollar tag b => tag_text tag +:+ b +:+ tag_text tag
  | TLine b => "--" +:+ b +:+ String (char 10) ""
  | TBlock b => "/*" +:+ b +:+ "*/"
  | TParen opening => if opening then "(" else ")"
  | TSymbol c => String c ""
  end.

(** The text of a block comment: its slashes and asterisks only open and
    close nested comments. *)
Inductive comment_text : string -> Prop :=
| comment_nil : comment_text ""
| comment_char c s : is_char 47 c = false -> is_char 42 c = false -> comment_text s ->
    comment_text (String c s)
| comment_nested a s : comment_text a -> comment_text s -> comment_text ("/*" +:+ a +:+ "*/" +:+ s).

(** A symbol that means nothing to the splitter. *)
Definition symbol_ok (c : ascii) : bool :=
  negb (is_char 39 c || is_char 34 c || is_char 36 c || is_char 59 c || is_char 40 c || is_char 41 c
        || is_digit c || is_alpha c || is_char 95 c || is_space c).

Definition token_ok (t : token) : Prop :=
  match t with
  | TWord w => match w with
               | String c _ => is_ascii_alpha c = true /\ str_forall is_word_char w = true
               | EmptyString => False
               end
  | TNumber n => match n with
                 | String c _ => is_ascii_digit c = true /\ str_forall is_number_char n = true
                 | EmptyString => False
                 end
  | TDollar tag b =>
      str_forall is_tag_char tag = true /\
      match tag with String c _ => is_tag_start c = true | EmptyString => True end /\
      find (tag_text tag) (b +:+ tag_text tag) = Some (String.length b)
  | TLine b => contains_char (char 10) b = false
  | TBlock b => comment_text b
  | TSymbol c => symbol_ok c = true
  | _ => True
  end.

Definition token_words (t : token) : list string :=
  match t with
  | TWord w => [py_upper w]
  | TEscape _ => ["E"]
  | TParen opening => [if opening then "(" else ")"]
  | _ => []
  end.
Definition token_content (t : token) : bool :=
  match t with TLine _ | TBlock _ => false | _ => true end.

(** Every token after a blank, every statement closed by a semicolon. *)
Definition print_tokens (ts : list token) : string :=
  fold_right (fun t s => String (char 32) (print t) +:+ s) "" ts.
Definition print_script (script : list (list token)) : string :=
  fold_right (fun ts s => print_tokens ts +:+ String (char 59) s) "" script.

Definition statement_of (ts : list token) : option (string * list string) :=
  if existsb token_content ts then Some (py_strip (print_tokens ts), concat (token_words <$> ts)) else None.

(** *** One token *)
Lemma is_char_eq n c : is_char n c = true -> c = char n.
Proof. unfold is_char, code, char. intros <-%N.eqb_eq. by rewrite ascii_N_embedding. Qed.

Lemma skip_double q b r : is_char 92 q = false ->
  match r with String c _ => Ascii.eqb c q = false | EmptyString => True end ->
  _skip_quoted q false (double q b +:+ String q r) = S (String.length (double q b)).
Proof.
  intros Hq Hr. induction b as [|c b IH]; cbn.
  - rewrite Ascii.eqb_refl. by destruct r as [|c r]; [|rewrite Hr].
  - destruct (Ascii.eqb c q) eqn:Hc; cbn.
    + rewrite !Ascii.eqb_refl, IH. done.
    + by rewrite Hc, IH.
Qed.

Lemma skip_escape b r :
  match r with String c _ => is_char 39 c = false | EmptyString => True end ->
  _skip_quoted (char 39) true (escape b +:+ String (char 39) r) = S (String.length (escape b)).
Proof.
  intros Hr. induction b as [|c b IH].
  - cbn. destruct r as [|c r]; [done|]. replace (Ascii.eqb c "'") with false; [done|].
    symmetry. apply Ascii.eqb_neq. intros ->. discriminate Hr.
  - cbn [escape]. destruct (is_char 39 c || is_char 92 c) eqn:Hc.
    + cbn. cbn in IH. by rewrite IH.
    + apply orb_false_iff in Hc as [H1 H2]. cbn. unfold is_char in H2 at 1. fold (is_char 92 c) in H2.
      cbn in IH. rewrite H2. replace (Ascii.eqb c "'") with false; [by rewrite IH|].
      symmetry. apply Ascii.eqb_neq. intros ->. discriminate H1.
Qed.

Lemma find_length n s k : find n s = Some k -> (k + String.length n <= String.length s)%nat.
Proof.
  revert k; induction s as [|c s IH]; intros k; cbn [find].
  - destruct n; [by intros [= <-]|done].
  - destruct (starts_with n (String c s)) eqn:Hs.
    + intros [= <-]. apply starts_with_app in Hs as [u ->]. rewrite append_length. lia.
    + destruct (find n s) as [k'|]; [|done]. intros [= <-]. specialize (IH _ eq_refl). cbn. lia.
Qed.

Lemma starts_with_short n s t :
  (String.length n <= String.length s)%nat -> starts_with n (s +:+ t) = starts_with n s.
Proof.
  revert s; induction n as [|a n IH]; intros s Hl; [done|]. destruct s as [|c s]; cbn in Hl; [lia|].
  cbn. by rewrite IH by lia.
Qed.

Lemma find_app n s t k : find n s = Some k -> find n (s +:+ t) = Some k.
Proof.
  intros Hk. pose proof (find_length _ _ _ Hk) as Hl. revert k Hk Hl.
  induction s as [|c s IH]; intros k; cbn [find].
  - destruct n as [|a n]; cbn; [|done]. intros [= <-] _. by destruct t.
  - rewrite append_cons. cbn [find]. rewrite <- append_cons. intros Hk Hl.
    rewrite starts_with_short by lia. destruct (starts_with n (String c s)); [done|].
    destruct (find n s) as [k'|] eqn:Hf; [|done]. injection Hk as <-.
    by rewrite (IH _ eq_refl (find_length _ _ _ Hf)).
Qed.

Lemma skip_comment_0 r : skip_comment 0 r = 0%nat.
Proof. by destruct r. Qed.

Lemma skip_comment_plain c s d :
  is_char 47 c = false -> is_char 42 c = false ->
  skip_comment (S d) (String c s) = S (skip_comment (S d) s).
Proof. intros H1 H2. destruct s as [|c2 s]; [done|]. by cbn; rewrite H1, H2. Qed.

Lemma skip_comment_text b d r :
  comment_text b -> skip_comment (S d) (b +:+ "*/" +:+ r) = (String.length b + 2 + skip_comment d r)%nat.
Proof.
  intros Hb. revert d r. induction Hb as [|c s H1 H2 Hs IH|a s Ha IHa Hs IHs]; intros d r; [done|..].
  - by rewrite append_cons, skip_comment_plain, IH.
  - rewrite !append_assoc. change ("/*" +:+ ?x) with (String "/" (String "*" x)).
    transitivity (2 + skip_comment (S (S d)) (a +:+ "*/" +:+ (s +:+ "*/" +:+ r)))%nat; [done|].
    rewrite IHa, IHs. cbn. rewrite append_length. cbn. lia.
Qed.

Lemma skip_line_body b r : contains_char (char 10) b = false ->
  skip_line (b +:+ String (char 10) r) = S (String.length b).
Proof.
  induction b as [|c b IH]; [done|]. cbn [contains_char]. intros [Hc Hb]%orb_false_iff.
  rewrite append_cons. cbn [skip_line]. destruct (is_char 10 c) eqn:E; [|by rewrite IH].
  apply is_char_eq in E as ->. discriminate Hc.
Qed.

(** What may follow a token: a blank or a semicolon. *)
Definition follows (r : string) : Prop :=
  match r with String c _ => c = char 32 \/ c = char 59 | EmptyString => False end.
Lemma follows_inv r : follows r -> exists r', r = String (char 32) r' \/ r = String (char 59) r'.
Proof. destruct r as [|c r]; [done|]. intros [-> | ->]; eexists; eauto. Qed.

Lemma dollar_none c s : is_char 36 c = false -> dollar_tag (String c s) = None.
Proof. intros Hc. unfold dollar_tag. by rewrite Hc. Qed.

Lemma dollar_tag_print tag r :
  str_forall is_tag_char tag = true ->
  match tag with String c _ => is_tag_start c = true | EmptyString => True end ->
  dollar_tag (tag_text tag +:+ r) = Some (tag_text tag).
Proof.
  intros Ht Hs. unfold tag_text. rewrite append_cons, append_assoc. unfold dollar_tag. cbn [is_char negb].
  change (is_char 36 (char 36)) with true. cbn [negb].
  rewrite (span_exact is_tag_char tag) by done. change (String (char 36) "" +:+ r) with (String (char 36) r).
  replace (match tag with EmptyString => true | String c _ => is_tag_start c end) with true; [done|].
  by destruct tag.
Qed.

(** The characters that the early tests look for. *)
Definition plain_char (c : ascii) : bool :=
  negb (is_char 45 c || is_char 47 c || is_char 39 c || is_char 34 c || is_char 36 c || is_char 59 c).

Lemma next_plain p1 p2 c s :
  plain_char c = true ->
  next_lexeme p1 p2 (String c s) =
  if is_digit c then
    if is_ascii_digit c then Some (Content (String.length (fst (span is_number_char (String c s))))) else None
  else if is_alpha c || is_char 95 c then
    Some (WordLexeme (py_upper (fst (span is_word_char (String c s))))
            (String.length (fst (span is_word_char (String c s)))))
  else if is_char 40 c || is_char 41 c then Some (Paren c)
  else if is_space c then Some Blank
  else Some (Content 1).
Proof.
  unfold plain_char. rewrite negb_true_iff, !orb_false_iff. intros [[[[[H1 H2] H3] H4] H5] H6].
  unfold next_lexeme. rewrite H1, H2, H3, H4, H6, dollar_none by done. done.
Qed.

Ltac char_class :=
  unfold plain_char, is_char, is_space, is_alpha, is_digit, is_ascii_alpha, is_ascii_lower,
    is_ascii_upper, is_ascii_digit, in_range in *;
  rewrite ?negb_true_iff, ?orb_false_iff, ?orb_true_iff, ?andb_true_iff, ?andb_false_iff, ?N.leb_le,
    ?N.leb_gt, ?N.eqb_eq, ?N.eqb_neq in *; lia.

Lemma follows_word r : follows r -> match r with String c _ => is_word_char c = false | EmptyString => True end.
Proof. by intros [r' [-> | ->]]%follows_inv. Qed.
Lemma follows_number r : follows r -> match r with String c _ => is_number_char c = false | EmptyString => True end.
Proof. by intros [r' [-> | ->]]%follows_inv. Qed.

(** The state after a token. *)
Definition after_token (t : token) (st : split_state) : split_state :=
  mkSplit (statements st) (words st ++ token_words t) (has_content st || token_content t)
    (piece st +:+ print t).

Definition blank : option ascii := Some (char 32).

Lemma one_lexeme p l t r st :
  print t <> "" -> next_lexeme p.1 p.2 (print t +:+ r) = Some l -> width l = String.length (print t) ->
  take_lexeme l (print t) st = after_token t st ->
  exists q, split_all p (print t +:+ r) st = split_all q r (after_token t st).
Proof. intros Hne Hl Hw <-. eexists. by apply split_all_step. Qed.

Lemma word_step x w r st :
  token_ok (TWord w) -> follows r ->
  exists q, split_all (blank, x) (w +:+ r) st = split_all q r (after_token (TWord w) st).
Proof.
  destruct w as [|c w]; [done|]. intros [Hc Hw] Hr%follows_word.
  apply (one_lexeme _ (WordLexeme (py_upper (String c w)) (String.length (String c w))) (TWord (String c w)));
    [done| |done|]; cbn [print].
  - rewrite append_cons, next_plain by char_class. rewrite <- append_cons.
    rewrite (span_exact is_word_char (String c w)) by done. cbn [fst].
    replace (is_digit c) with false by (symmetry; char_class).
    by replace (is_alpha c) with true by (symmetry; char_class).
  - unfold after_token. cbn. by rewrite orb_true_r.
Qed.

Lemma number_step x n r st :
  token_ok (TNumber n) -> follows r ->
  exists q, split_all (blank, x) (n +:+ r) st = split_all q r (after_token (TNumber n) st).
Proof.
  destruct n as [|c n]; [done|]. intros [Hc Hn] Hr%follows_number.
  apply (one_lexeme _ (Content (String.length (String c n))) (TNumber (String c n))); [done| |done|]; cbn [print].
  - rewrite append_cons, next_plain by char_class. rewrite <- append_cons.
    rewrite (span_exact is_number_char (String c n)) by done.
    replace (is_digit c) with true by (symmetry; char_class). by rewrite Hc.
  - unfold after_token. cbn. by rewrite app_nil_r, orb_true_r.
Qed.

(** A token whose text is one content lexeme. *)
Lemma content_step p t r st n :
  print t <> "" -> token_words t = [] -> token_content t = true ->
  next_lexeme p.1 p.2 (print t +:+ r) = Some (Content n) -> n = String.length (print t) ->
  exists q, split_all p (print t +:+ r) st = split_all q r (after_token t st).
Proof.
  intros Hne Hw Hc Hl Hn. apply (one_lexeme _ (Content n)); [done..|].
  unfold after_token. by rewrite Hw, Hc, app_nil_r, orb_true_r.
Qed.
Lemma comment_step p t r st n :
  print t <> "" -> token_words t = [] -> token_content t = false ->
  next_lexeme p.1 p.2 (print t +:+ r) = Some (Comment n) -> n = String.length (print t) ->
  exists q, split_all p (print t +:+ r) st = split_all q r (after_token t st).
Proof.
  intros Hne Hw Hc Hl Hn. apply (one_lexeme _ (Comment n)); [done..|].
  unfold after_token. by rewrite Hw, Hc, app_nil_r, orb_false_r.
Qed.

Lemma follows_quote q r : q = char 39 \/ q = char 34 -> follows r ->
  match r with String c _ => Ascii.eqb c q = false | EmptyString => True end.
Proof. by intros [-> | ->] [r' [-> | ->]]%follows_inv. Qed.

(** An escape string is the word [E] and a literal. *)
Lemma escape_step x b r st :
  follows r ->
  exists q, split_all (blank, x) (print (TEscape b) +:+ r) st = split_all q r (after_token (TEscape b) st).
Proof.
  intros Hr. set (lit := String (char 39) (escape b +:+ String (char 39) "")).
  change (print (TEscape b)) with ("E" +:+ lit). rewrite append_assoc.
  rewrite (split_all_step _ "E" _ _ (WordLexeme "E" 1)) by done.
  rewrite (split_all_step _ lit r _ (Content (String.length lit))); [|done| |done].
  - eexists. unfold after_token, take_lexeme. cbn [statements words has_content piece token_words].
    rewrite append_assoc, orb_true_r. done.
  - unfold lit. rewrite append_cons, append_assoc. change (String (char 39) "" +:+ r) with (String (char 39) r).
    transitivity (Some (Content (1 + _skip_quoted (char 39) true (escape b +:+ String (char 39) r)))).
    { unfold next_lexeme. by destruct (escape b). }
    rewrite skip_escape by (by destruct (follows_inv _ Hr) as [r' [-> | ->]]).
    do 2 f_equal. cbn [String.length]. rewrite append_length. cbn. lia.
Qed.

Lemma string_step x b r st :
  follows r ->
  exists q, split_all (blank, x) (print (TString b) +:+ r) st = split_all q r (after_token (TString b) st).
Proof.
  intros Hr. eapply content_step; [done..| |reflexivity]. cbn [print fst snd].
  rewrite append_cons, append_assoc. change (String (char 39) "" +:+ r) with (String (char 39) r).
  transitivity (Some (Content (1 + _skip_quoted (char 39) false (double (char 39) b +:+ String (char 39) r)))).
  { unfold next_lexeme. by destruct (double (char 39) b). }
  rewrite skip_double by (done || by apply follows_quote; [left|]).
  do 2 f_equal. cbn [String.length]. rewrite append_length. cbn. lia.
Qed.

Lemma ident_step x b r st :
  follows r ->
  exists q, split_all (blank, x) (print (TIdent b) +:+ r) st = split_all q r (after_token (TIdent b) st).
Proof.
  intros Hr. eapply content_step; [done..| |reflexivity]. cbn [print fst snd].
  rewrite append_cons, append_assoc. change (String (char 34) "" +:+ r) with (String (char 34) r).
  transitivity (Some (Content (1 + _skip_quoted (char 34) false (double (char 34) b +:+ String (char 34) r)))).
  { unfold next_lexeme. by destruct (double (char 34) b). }
  rewrite skip_double by (done || by apply follows_quote; [right|]).
  do 2 f_equal. cbn [String.length]. rewrite append_length. cbn. lia.
Qed.

Lemma dollar_step x tag b r st :
  token_ok (TDollar tag b) -> 
  exists q, split_all (blank, x) (print (TDollar tag b) +:+ r) st
            = split_all q r (after_token (TDollar tag b) st).
Proof.
  intros (Ht & Hs & Hf). eapply content_step; [done..| |reflexivity]. cbn [print fst snd].
  rewrite !append_assoc. pose proof (dollar_tag_print tag (b +:+ tag_text tag +:+ r) Ht Hs) as Hd.
  unfold next_lexeme. change (tag_text tag +:+ ?s) with (String (char 36) ((tag +:+ String (char 36) "") +:+ s)) at 1.
  cbv beta iota. change (is_char 45 (char 36)) with false. change (is_char 47 (char 36)) with false.
  change (is_char 39 (char 36)) with false. change (is_char 34 (char 36)) with false. cbn [andb].
  change (String (char 36) ((tag +:+ String (char 36) "") +:+ ?s)) with (tag_text tag +:+ s).
  rewrite Hd, str_drop_exact, <- append_assoc, (find_app _ _ _ _ Hf).
  do 2 f_equal. rewrite !append_length. lia.
Qed.

Lemma line_step x b r st :
  token_ok (TLine b) ->
  exists q, split_all (blank, x) (print (TLine b) +:+ r) st = split_all q r (after_token (TLine b) st).
Proof.
  intros Hb. eapply comment_step; [done..| |reflexivity]. cbn [print fst snd].
  rewrite append_assoc. rewrite append_assoc. change (String (char 10) "" +:+ r) with (String (char 10) r).
  transitivity (Some (Comment (2 + skip_line (b +:+ String (char 10) r)))); [done|].
  rewrite skip_line_body by done. do 2 f_equal. rewrite !append_length. cbn. lia.
Qed.

Lemma block_step x b r st :
  token_ok (TBlock b) ->
  exists q, split_all (blank, x) (print (TBlock b) +:+ r) st = split_all q r (after_token (TBlock b) st).
Proof.
  intros Hb. eapply comment_step; [done..| |reflexivity]. cbn [print fst snd].
  rewrite !append_assoc.
  transitivity (Some (Comment (2 + skip_comment 1 (b +:+ "*/" +:+ r)))); [done|].
  rewrite skip_comment_text, skip_comment_0 by done. do 2 f_equal. rewrite !append_length. cbn. lia.
Qed.

Lemma symbol_step x c r st :
  token_ok (TSymbol c) -> follows r ->
  exists q, split_all (blank, x) (print (TSymbol c) +:+ r) st = split_all q r (after_token (TSymbol c) st).
Proof.
  intros Hc [r' Hr]%follows_inv. apply (content_step _ _ _ _ 1); [done..| |done]. cbn [print fst snd].
  cbn in Hc. unfold symbol_ok in Hc. rewrite negb_true_iff, !orb_false_iff in Hc.
  destruct Hc as [[[[[[[[[H39 H34] H36] H59] H40] H41] Hd] Ha] H95] Hs].
  assert (starts_with "-" r = false /\ starts_with "*" r = false) as [Hm Hst] by (by destruct Hr as [-> | ->]).
  change (String c "" +:+ r) with (String c r). unfold next_lexeme.
  rewrite Hm, Hst, !andb_false_r, H39, H34, dollar_none, H59, Hd, Ha, H95, H40, H41, Hs by done. done.
Qed.

Lemma token_step x t r st :
  token_ok t -> follows r ->
  exists q, split_all (blank, x) (print t +:+ r) st = split_all q r (after_token t st).
Proof.
  intros Ht Hr. destruct t as [w|n|b|b|b|tag b|b|b|o|c].
  - by apply word_step.
  - by apply number_step.
  - by apply string_step.
  - by apply escape_step.
  - by apply ident_step.
  - by apply dollar_step.
  - by apply line_step.
  - by apply block_step.
  - apply (one_lexeme _ (Paren (if o then char 40 else char 41))); [by destruct o..|].
    unfold after_token. by destruct o; cbn; rewrite orb_true_r.
  - by apply symbol_step.
Qed.

(** *** A whole script *)
Lemma blank_step p r st :
  exists x, split_all p (String (char 32) r) st
            = split_all (blank, x) r (mkSplit (statements st) (words st) (has_content st)
                                        (piece st +:+ String (char 32) "")).
Proof. eexists. change (String (char 32) r) with (String (char 32) "" +:+ r). by rewrite (split_all_step _ _ _ _ Blank). Qed.

Lemma print_tokens_follows ts r : follows (print_tokens ts +:+ String (char 59) r).
Proof. destruct ts; cbn; auto. Qed.

Definition after_tokens (ts : list token) (st : split_state) : split_state :=
  mkSplit (statements st) (words st ++ concat (token_words <$> ts))
    (has_content st || existsb token_content ts) (piece st +:+ print_tokens ts).

Lemma tokens_step ts r : forall p st,
  Forall token_ok ts ->
  exists q, split_all p (print_tokens ts +:+ String (char 59) r) st
            = split_all q (String (char 59) r) (after_tokens ts st).
Proof.
  induction ts as [|t ts IH]; intros p st Hts.
  { exists p. replace (after_tokens [] st) with st; [done|]. destruct st as [a b c d].
    unfold after_tokens. cbn. by rewrite app_nil_r, orb_false_r, append_nil_r. }
  apply Forall_cons in Hts as [Ht Hts].
  replace (print_tokens (t :: ts) +:+ String (char 59) r)
    with (String (char 32) (print t +:+ print_tokens ts +:+ String (char 59) r))
    by (cbn; by rewrite append_assoc).
  destruct (blank_step p (print t +:+ print_tokens ts +:+ String (char 59) r) st) as [x ->].
  destruct (token_step x t (print_tokens ts +:+ String (char 59) r)
              (mkSplit (statements st) (words st) (has_content st) (piece st +:+ String (char 32) "")) Ht
              (print_tokens_follows ts r)) as [q ->].
  destruct (IH q (after_token t (mkSplit (statements st) (words st) (has_content st)
                                   (piece st +:+ String (char 32) ""))) Hts) as [q' ->].
  exists q'. f_equal. unfold after_tokens, after_token. cbn.
  rewrite <- !app_assoc, orb_assoc, !append_assoc. done.
Qed.

(** What stripping can remove. *)
Lemma rstrip_spaces s : str_forall is_space (py_rstrip s) = true -> py_rstrip s = "".
Proof.
  induction s as [|c s IH]; [done|]. cbn. destruct (py_rstrip s) as [|c2 r] eqn:E.
  - destruct (is_space c) eqn:Hc; [done|]. cbn. by rewrite Hc.
  - cbn. intros [_ H]%andb_true_iff. by specialize (IH H).
Qed.
Lemma rstrip_nil s : py_rstrip s = "" -> str_forall is_space s = true.
Proof.
  induction s as [|c s IH]; [done|]. cbn. destruct (py_rstrip s) eqn:E; [|done].
  destruct (is_space c); [|done]. intros _. by apply IH.
Qed.
Lemma lstrip_nil s : py_lstrip s = "" -> str_forall is_space s = true.
Proof. induction s as [|c s IH]; [done|]. cbn. by destruct (is_space c). Qed.
Lemma strip_nil s : py_strip s = "" -> str_forall is_space s = true.
Proof. intros H%lstrip_nil%rstrip_spaces. by apply rstrip_nil. Qed.

Lemma content_not_blank t : token_ok t -> token_content t = true -> str_forall is_space (print t) = false.
Proof.
  destruct t as [w|n|b|b|b|tag b|b|b|o|c]; cbn [token_ok token_content print]; try done.
  - destruct w as [|c w]; [done|]. intros [Hc _] _. cbn [str_forall].
    by replace (is_space c) with false by (symmetry; char_class).
  - destruct n as [|c w]; [done|]. intros [Hc _] _. cbn [str_forall].
    by replace (is_space c) with false by (symmetry; char_class).
  - by destruct o.
  - unfold symbol_ok. rewrite negb_true_iff, !orb_false_iff. intros [_ Hc] _. cbn [str_forall]. by rewrite Hc.
Qed.

Lemma tokens_not_blank ts :
  Forall token_ok ts -> existsb token_content ts = true -> String.eqb (py_strip (print_tokens ts)) "" = false.
Proof.
  intros Hts Hc. apply String.eqb_neq. intros Hs%strip_nil.
  induction Hts as [|t ts Ht Hts IH]; [done|]. cbn [existsb] in Hc.
  change (print_tokens (t :: ts)) with (String (char 32) (print t +:+ print_tokens ts)) in Hs.
  cbn [str_forall] in Hs. rewrite str_forall_app in Hs. apply andb_true_iff in Hs as [_ [Hp Hs]%andb_true_iff].
  destruct (token_content t) eqn:Htc; [by rewrite content_not_blank in Hp|]. auto.
Qed.

Lemma script_step script : forall p l,
  Forall (Forall token_ok) script ->
  split_all p (print_script script) (mkSplit l [] false "")
  = Some (mkSplit (l ++ omap statement_of script) [] false "").
Proof.
  induction script as [|ts script IH]; intros p l Hs.
  { cbn. rewrite app_nil_r. done. }
  apply Forall_cons in Hs as [Hts Hs]. cbn [print_script fold_right]. fold (print_script script).
  destruct (tokens_step ts (print_script script) p (mkSplit l [] false "") Hts) as [q ->].
  change (String (char 59) (print_script script)) with (String (char 59) "" +:+ print_script script).
  rewrite (split_all_step q _ _ _ Semicolon) by done. cbn [take_lexeme]. unfold flush, after_tokens.
  cbn [statements words has_content piece orb app String.append]. 
  cbn [omap list_omap]. unfold statement_of at 1. destruct (existsb token_content ts) eqn:Hc.
  - rewrite tokens_not_blank by done. cbn [negb andb]. rewrite IH by done. by rewrite <- app_assoc.
  - cbn [andb]. by rewrite IH.
Qed.

(** C33: the splitter cuts a script exactly at the semicolons that end its
    statements.  For any script written from words, numbers, strings, escape
    strings, quoted identifiers, dollar-quoted bodies, line comments, nested
    block comments, parentheses and symbols, whatever semicolons and quotes
    those contain, the result is the statements that are more than comments,
    in order, each with its own text and keywords. *)
Theorem split_statements_roundtrip script :
  Forall (Forall token_ok) script ->
  split_statements (print_script script) = Some (omap statement_of script).
Proof.
  intros Hs. unfold split_statements.
  change (split_loop _ None None ?s ?st) with (split_all (None, None) s st).
  by rewrite script_step.
Qed.

Lemma split_statements_roundtrip_witness :
  split_statements (print_script
    [[TWord "select"; TString "a;'b"; TBlock ";/*;*/;"];
     [TLine "; drop table t"];
     [TWord "do"; TDollar "tag" "begin; $$;$$ end"; TSymbol "*"; TEscape "';"]])
  = Some [("select 'a;''b' /*;/*;*/;*/", ["SELECT"]);
          ("do $tag$begin; $$;$$ end$tag$ * E'\';'", ["DO"; "E"])].
Proof.
  assert (comment_text ";/*;*/;") as Hc.
  { apply (comment_char ";"); [reflexivity..|]. apply (comment_nested ";" ";"); repeat constructor. }
  rewrite split_statements_roundtrip; [reflexivity|].
  repeat (apply Forall_cons; split); try apply Forall_nil; try exact Hc; repeat split; reflexivity.
Defined.

Lemma split_statements_total_witness : exists l, split_statements "select 1; select 2" = Some l.
Proof. apply split_statements_total. reflexivity. Defined.

(** * Properties of the execution *)
Section Execution.
Context {ft : FloatText} {jl : JsonLoads} {srv : Server}.

(** The statements of [stmts], sent one after the other from [history], were
    all answered. *)
Fixpoint all_answered (max_rows : Z) (history : list cmd) (stmts : list SqlStatement) : Prop :=
  match stmts with
  | [] => True
  | stmt :: rest =>
      is_ok (_run_statement stmt max_rows history).1 = true /\
      all_answered max_rows (history ++ [Run (sql stmt)]) rest
  end.

Definition runs (stmts : list SqlStatement) : list cmd := (fun s => Run (sql s)) <$> stmts.

Lemma run_statements_trace ro mr stmts h r h' :
  run_statements ro mr stmts h = (r, h') ->
  exists sent rest, stmts = sent ++ rest /\ h' = h ++ runs sent /\
    match r with
    | Ok (inl results) => rest = [] /\ length results = length stmts /\ all_answered mr h stmts
    | Ok (inr refused) => ro = true /\ exists e stmt, stmt ∈ stmts /\ refused = refuse stmt e
    | Err _ => True
    end.
Proof.
  revert h r h'; induction stmts as [|stmt stmts IH]; intros h r h'; cbn.
  { intros [= <- <-]. exists [], []. cbn. by rewrite app_nil_r. }
  destruct (answer h (sql stmt) ≫= statement_result stmt mr) as [x|e] eqn:Ha.
  - destruct (run_statements ro mr stmts (h ++ [Run (sql stmt)])) as [q h1] eqn:Hr.
    specialize (IH _ _ _ Hr) as (sent & rest & Hs & Hh & Hq). intros Heq.
    assert (h' = h1) as ->. { by destruct q as [[|]|]; simplify_eq. }
    exists (stmt :: sent), rest. rewrite Hs. split_and!; [done|by rewrite Hh, <- app_assoc|].
    destruct q as [[rs|refused]|e]; simplify_eq.
    + destruct Hq as (-> & Hl & Hall). rewrite app_nil_r in *. cbn. by rewrite Hl.
    + destruct Hq as (-> & e & s & Hin & ->). split; [done|]. exists e, s. split; [by right|done].
    + done.
  - intros Heq. exists [stmt], stmts. destruct (ro && _) eqn:Hro; simplify_eq; split_and!; try done.
    + by apply andb_true_iff in Hro as [-> _].
    + exists e, stmt. split; [by left|done].
Qed.

Definition is_statement (c : cmd) : bool := match c with Execute _ | Run _ => true | _ => false end.

Lemma runs_statements stmts : Forall (fun c => is_statement c = true) (runs stmts).
Proof. apply Forall_fmap, Forall_true. done. Qed.

Lemma send_inv c h r h' : send c h = (r, h') -> h' = h ++ [c].
Proof. unfold send. by intros [= _ <-]. Qed.
Lemma send_ok c h u h' : send c h = (Ok u, h') -> fails h c = None.
Proof. unfold send. by destruct (fails h c). Qed.

(** The server did not fail [c] after the commands of [h], nor any of [cs]. *)
Definition answered (h : list cmd) (c : cmd) : Prop :=
  match c with Run s => exists r, answer h s = Ok r | _ => fails h c = None end.
Fixpoint each_answered (h : list cmd) (cs : list cmd) : Prop :=
  match cs with [] => True | c :: cs => answered h c /\ each_answered (h ++ [c]) cs end.
Lemma each_answered_app h a b : each_answered h (a ++ b) <-> each_answered h a /\ each_answered (h ++ a) b.
Proof.
  revert h. induction a as [|c a IH]; intros h; cbn; [rewrite app_nil_r; tauto|]. rewrite IH, <- app_assoc. cbn. tauto.
Qed.
Lemma runs_answered mr h stmts : all_answered mr h stmts -> each_answered h (runs stmts).
Proof.
  revert h. induction stmts as [|stmt stmts IH]; intros h; [done|]. cbn. intros [Hr Hs]. split; [|by apply IH].
  destruct (answer h (sql stmt)) as [r|e]; [by exists r|done].
Qed.

(** How a transaction can end: not started, rolled back, or committed with
    every statement answered. *)
Definition ending (ro : bool) (stmts : list SqlStatement) (h : list cmd)
    (body : list cmd) (fin : list cmd) : Prop :=
  fin = [] /\ body = [] \/ fin = [Rollback] \/
  fin = [Commit] /\ ro = false /\ body = Execute timeout_sql :: runs stmts /\
  each_answered h (Start ro :: body).

(** The body of the [try]: the timeout, the snapshot of a read-only
    transaction and the statements. *)
Definition transaction_body (stmts : list SqlStatement) (ro : bool) (mr : Z)
  : session (list (list (string * pyval)) + SqlStatement) :=
  send (Execute timeout_sql) ≫= fun _ =>
  (if ro then send (Execute "SELECT 1") else mret tt) ≫= fun _ =>
  run_statements ro mr stmts.

Lemma transaction_body_trace stmts ro mr h r h' :
  transaction_body stmts ro mr h = (r, h') ->
  exists body, h' = h ++ body /\ Forall (fun c => is_statement c = true) body /\
    (forall outcome, r = Ok outcome ->
       match outcome with
       | inl results =>
           body = Execute timeout_sql :: (if ro then [Execute "SELECT 1"] else []) ++ runs stmts /\
           length results = length stmts /\ each_answered h body
       | inr refused => ro = true /\ exists e stmt, stmt ∈ stmts /\ refused = refuse stmt e
       end).
Proof.
  unfold transaction_body, mbind, stm_bind.
  destruct (send (Execute timeout_sql) h) as [[[]|e] h1] eqn:H1; pose proof H1 as Hsent; apply send_inv in H1 as ->.
  2: { intros [= <- <-]. eexists. split; [done|]. split; [by repeat constructor|done]. }
  destruct ((if ro then send (Execute "SELECT 1") else mret tt) (h ++ [Execute timeout_sql])) as [[[]|e] h2] eqn:H2.
  2: { intros [= <- <-]. destruct ro; [|done]. apply send_inv in H2 as ->. rewrite <- app_assoc.
       eexists. split; [done|]. split; [by repeat constructor|done]. }
  assert (h2 = h ++ Execute timeout_sql :: (if ro then [Execute "SELECT 1"] else [])) as ->.
  { destruct ro; [apply send_inv in H2 as ->; by rewrite <- app_assoc|by injection H2 as <-]. }
  intros Hrun. apply run_statements_trace in Hrun as (sent & rest & Hs & -> & Hr).
  rewrite <- app_assoc. eexists. split; [done|]. split.
  { cbn. constructor; [done|]. apply Forall_app. split; [destruct ro; by repeat constructor|apply runs_statements]. }
  intros outcome ->. destruct outcome as [results|refused]; [|done].
  destruct Hr as (-> & Hl & Hall). rewrite app_nil_r in Hs. subst sent. split; [done|]. split; [done|].
  apply runs_answered in Hall. rewrite each_answered_app. split; [|done].
  split; [by apply send_ok in Hsent|]. destruct ro; [|done]. apply send_ok in H2. by split.
Qed.

Lemma execute_on_connection_trace stmts ro mr h r h' :
  _execute_on_connection stmts ro mr h = (r, h') ->
  exists body fin, h' = h ++ Start ro :: body ++ fin /\
    Forall (fun c => is_statement c = true) body /\ ending ro stmts h body fin /\
    (is_ok r = true -> ro = false -> fin = [Commit] /\ fails (h ++ Start ro :: body) Commit = None).
Proof.
  unfold _execute_on_connection. fold (transaction_body stmts ro mr). unfold mbind, stm_bind, on_error.
  destruct (send (Start ro) h) as [[[]|e] h1] eqn:H1; pose proof H1 as Hstart; apply send_inv in H1 as ->.
  2: { intros [= <- <-]. exists [], []. split_and!; [done|done|by left|done]. }
  destruct (transaction_body stmts ro mr (h ++ [Start ro])) as [[outcome|e] h2] eqn:H2;
    apply transaction_body_trace in H2 as (body & -> & Hb & Hout).
  - specialize (Hout outcome eq_refl).
    destruct (ro || match outcome with inr _ => true | inl _ => false end) eqn:Hro.
    + destruct (send Rollback ((h ++ [Start ro]) ++ body)) as [[[]|e] h3] eqn:H3;
        apply send_inv in H3 as ->; intros [= <- <-]; exists body, [Rollback];
        (split_and!; [by rewrite <- !app_assoc|done|by right; left|]); [|done].
      intros _ ->. destruct outcome as [results|refused]; [done|]. by destruct Hout.
    + apply orb_false_iff in Hro as [-> Hro]. destruct outcome as [results|]; [|done].
      destruct Hout as (-> & _ & Hall).
      destruct (send Commit _) as [[[]|e] h3] eqn:H3; pose proof H3 as Hcommit; apply send_inv in H3 as ->; intros [= <- <-];
        exists (Execute timeout_sql :: runs stmts), [Commit];
        (split_and!; [by rewrite <- !app_assoc|done| |
           first [done|intros _ _; split; [done|]; apply send_ok in Hcommit; by rewrite <- app_assoc in Hcommit]]);
        right; right; split_and!; try done; (split; [by apply send_ok in Hstart|exact Hall]).
  - destruct (send Rollback ((h ++ [Start ro]) ++ body)) as [[[]|e2] h3] eqn:H3;
      apply send_inv in H3 as ->; intros [= <- <-]; exists body, [Rollback];
      (split_and!; [by rewrite <- !app_assoc|done|by right; left|done]).
Qed.

Lemma finally_trace {A} (m : session A) h r h' :
  finally m (send Invalidate) h = (r, h') ->
  exists h1, h' = h1 ++ [Invalidate] /\ exists r1, m h = (r1, h1) /\
    (forall a, r = Ok a -> r1 = Ok a /\ fails h1 Invalidate = None).
Proof.
  unfold finally. destruct (m h) as [r1 h1].
  destruct (send Invalidate h1) as [[u|e] h2] eqn:H2; pose proof H2 as Hsent; apply send_inv in H2 as ->; intros [= <- <-];
    exists h1; (split; [done|]); exists r1; (split; [done|]); [|done]. apply send_ok in Hsent. by split.
Qed.

Lemma with_barrier_trace {A} (m : session A) h r h' :
  with_barrier m h = (r, h') ->
  h' = h ++ [AcquireBarrier] /\ is_ok r = false \/
  fails h AcquireBarrier = None /\ exists r1 h1, m (h ++ [AcquireBarrier]) = (r1, h1) /\ h' = h1 ++ [ReleaseBarrier] /\
    (forall a, r = Ok a -> r1 = Ok a /\ fails h1 ReleaseBarrier = None).
Proof.
  unfold with_barrier, mbind, stm_bind.
  destruct (send AcquireBarrier h) as [[[]|e] h1] eqn:H1; pose proof H1 as Hsent; apply send_inv in H1 as ->; [|intros [= <- <-]; by left].
  apply send_ok in Hsent. unfold finally. destruct (m (h ++ [AcquireBarrier])) as [r1 h1].
  destruct (send ReleaseBarrier h1) as [[u|e] h2] eqn:H2; pose proof H2 as Hrel; apply send_inv in H2 as ->; intros [= <- <-];
    right; (split; [done|]); exists r1, h1; split_and!; try done. apply send_ok in Hrel. by split.
Qed.

(** The session of a script that reaches the server. *)
Definition session_of (stmts : list SqlStatement) (confirm : bool) (mr : Z)
  : session (list (list (string * pyval)) + SqlStatement) :=
  finally
    (if confirm
     then with_barrier (send CommitBarrier ≫= fun _ => _execute_on_connection stmts false mr)
     else _execute_on_connection stmts true mr)
    (send Invalidate).

(** A committing transaction has a result for each statement. *)
Lemma execute_on_connection_results stmts mr h r h' : _execute_on_connection stmts false mr h = (r, h') ->
  forall outcome, r = Ok outcome -> exists results, outcome = inl results /\ length results = length stmts.
Proof.
  unfold _execute_on_connection. fold (transaction_body stmts false mr). unfold mbind, stm_bind, on_error.
  destruct (send (Start false) h) as [[[]|e] h1]; [|by intros [= <- <-]].
  destruct (transaction_body stmts false mr h1) as [[outcome|e] h2] eqn:H2.
  - apply transaction_body_trace in H2 as (body & _ & _ & Hout). specialize (Hout outcome eq_refl).
    destruct outcome as [results|refused]; [|by destruct Hout]. cbn [orb].
    destruct (send Commit h2) as [[[]|e] h3]; intros [= <- <-]; [|done]. intros outcome [= <-]. exists results. split; [done|apply Hout].
  - destruct (send Rollback h2) as [[[]|e2] h3]; by intros [= <- <-].
Qed.

(** The ways a run can go: nothing is sent, or one session is opened. *)
Lemma execute_script_trace script confirm mr stmts r trace :
  analyze_script script = Some stmts ->
  execute_script script confirm mr [] = (r, trace) ->
  (trace = [] /\ (confirm = true -> exists e, r = Err e)) \/
  (stmts <> [] /\ existsb is_forbidden stmts = false /\ (confirm = false -> existsb mutating stmts = false) /\
   (trace = [Connect] /\ (exists e, r = Err e) \/
    fails [] Connect = None /\ exists r1, session_of stmts confirm mr [Connect] = (r1, trace) /\
      match r1 with
      | Err e => r = Err e
      | Ok (inl results) =>
          r = Ok [("requiresConfirmation", PBool false); ("executed", PBool true);
                  ("committed", PBool confirm); ("statements", PList (PDict <$> results))]
      | Ok (inr refused) => r = Ok (confirmation_response (update_statement stmts refused))
      end)).
Proof.
  intros Ha. unfold execute_script. rewrite Ha. destruct stmts as [|s0 stmts0] eqn:Hst.
  { intros [= <- <-]. left. split; [done|]. by eexists. }
  rewrite <- Hst. assert (stmts <> []) as Hne by (by rewrite Hst). clear s0 stmts0 Hst Ha.
  destruct (List.find is_forbidden stmts) as [bad|] eqn:Hf.
  { intros [= <- <-]. left. split; [done|]. by eexists. }
  assert (existsb is_forbidden stmts = false) as Hnf.
  { apply not_true_iff_false. intros (x & Hin & Hx)%existsb_exists.
    by rewrite (List.find_none _ _ Hf x Hin) in Hx. }
  destruct (negb confirm && existsb mutating stmts) eqn:Hm.
  { intros [= <- <-]. left. split; [done|]. by destruct confirm. }
  assert (confirm = false -> existsb mutating stmts = false) as Hmut by (by intros ->).
  fold (session_of stmts confirm mr). unfold mbind at 1, stm_bind at 1.
  destruct (send Connect []) as [[[]|e] h1] eqn:H1; pose proof H1 as Hsent; apply send_inv in H1 as ->; cbn [app].
  2: { intros [= <- <-]. right. split_and!; [done..|]. left. split; [done|]. by eexists. }
  unfold mbind, stm_bind. destruct (session_of stmts confirm mr [Connect]) as [[[results|refused]|e] h2];
    intros [= <- <-]; right; (split_and!; [done..|]); right; (split; [by apply send_ok in Hsent|]); eexists; by split.
Qed.

(** Nothing is written without confirmation.  An unconfirmed script
    with a statement classified as a change, or any script with a forbidden
    statement, sends no command at all.  Any other unconfirmed script runs in
    one READ ONLY transaction, takes no write barrier, commits nothing, and
    its session is invalidated at the end, whatever the server answers. *)
Theorem unconfirmed_is_read_only script mr stmts :
  analyze_script script = Some stmts ->
  let trace := (execute_script script false mr []).2 in
  (existsb mutating stmts || existsb is_forbidden stmts = true -> trace = []) /\
  (trace = [] \/ trace = [Connect] \/
   exists body fin, trace = Connect :: Start true :: body ++ fin ++ [Invalidate] /\
     Forall (fun c => is_statement c = true) body /\ (fin = [] \/ fin = [Rollback])).
Proof.
  intros Ha. cbv zeta. destruct (execute_script script false mr []) as [r trace] eqn:He. cbn.
  apply (execute_script_trace _ _ _ _ _ _ Ha) in He as [[-> _]|(Hne & Hf & Hm & Ht)].
  { split; [done|by left]. }
  split; [rewrite Hf, (Hm eq_refl); done|].
  destruct Ht as [[-> _]|(_ & r1 & Hs & _)]; [by right; left|]. right. right.
  apply finally_trace in Hs as (h1 & -> & r2 & Hx & _).
  apply execute_on_connection_trace in Hx as (body & fin & -> & Hb & Hend & _).
  exists body, fin. split_and!; [by cbn; rewrite <- !app_assoc|done|].
  destruct Hend as [[-> _]|[-> |(_ & ? & _)]]; [by left|by right|done].
Qed.

(** The commands of a confirmed script before its COMMIT, and after it. *)
Definition before_commit (stmts : list SqlStatement) : list cmd :=
  [Connect; AcquireBarrier; CommitBarrier; Start false; Execute timeout_sql] ++ runs stmts.
Definition after_commit : list cmd := [ReleaseBarrier; Invalidate].
(** What a successful script answers: one result per statement. *)
Definition reports_commit (stmts : list SqlStatement) (response : list (string * pyval)) : Prop :=
  dict_get "requiresConfirmation" response = Some (PBool false) /\ dict_get "committed" response = Some (PBool true) /\
  exists results, dict_get "statements" response = Some (PList results) /\ length results = length stmts.

(** C34: all or nothing.  A confirmed script sends COMMIT only when the
    connection, the acquisition of the write barrier and its commit, the start
    of a read-write transaction, its timeout and then every statement in order
    were each answered without error; and it succeeds, with one result for each
    statement, only when the COMMIT, the release of the barrier and the invalidation of the
    connection were answered without error too.  When COMMIT is not sent
    the answer is an error. *)
Theorem confirmed_all_or_nothing script mr stmts :
  analyze_script script = Some stmts ->
  let '(r, trace) := execute_script script true mr [] in
  (Commit ∈ trace -> trace = before_commit stmts ++ Commit :: after_commit /\ each_answered [] (before_commit stmts)) /\
  (forall response, r = Ok response -> Commit ∈ trace /\ each_answered [] trace /\ reports_commit stmts response).
Proof.
  intros Ha. destruct (execute_script script true mr []) as [r trace] eqn:He.
  apply (execute_script_trace _ _ _ _ _ _ Ha) in He as [[-> Hr]|(_ & _ & _ & Ht)].
  { destruct (Hr eq_refl) as [e ->]. split; [set_solver|done]. }
  destruct Ht as [[-> [e ->]]|(Hconn & r1 & Hs & Hr)]; [split; [set_solver|done]|].
  apply finally_trace in Hs as (h1 & -> & r2 & Hx & Hr12).
  apply with_barrier_trace in Hx as [[-> Hno]|(Hacq & r3 & h3 & Hx & -> & Hr23)].
  { split; [set_solver|]. intros response ->. destruct r1 as [o|]; [|done]. destruct (Hr12 _ eq_refl) as [-> _]. done. }
  unfold mbind, stm_bind in Hx. cbn [app] in Hx.
  destruct (send CommitBarrier [Connect; AcquireBarrier]) as [[[]|e] h4] eqn:H4; pose proof H4 as Hcb; apply send_inv in H4 as ->.
  2: { injection Hx as <- <-. split; [set_solver|]. intros response ->. destruct r1 as [o|]; [|done].
       destruct (Hr12 _ eq_refl) as [-> _]. by destruct (Hr23 _ eq_refl). }
  apply send_ok in Hcb. pose proof (execute_on_connection_results _ _ _ _ _ Hx) as Hres.
  apply execute_on_connection_trace in Hx as (body & fin & -> & Hb & Hend & Hfin).
  assert (Hcommit : Commit ∈ fin -> fin = [Commit] /\ body = Execute timeout_sql :: runs stmts /\ each_answered [] (before_commit stmts)).
  { destruct Hend as [[-> _]|[-> |(-> & _ & -> & Hall)]]; [set_solver..|]. intros _. split_and!; [done..|].
    apply (each_answered_app [] [Connect; AcquireBarrier; CommitBarrier]). split; [by split_and!|exact Hall]. }
  split.
  - intros Hin. assert (Commit ∈ fin) as Hf.
    { assert (Commit ∉ body) as Hnb by (intros Hc; rewrite Forall_forall in Hb; by specialize (Hb _ Hc)). set_solver. }
    destruct (Hcommit Hf) as (-> & -> & Hans). split; [|exact Hans]. unfold before_commit, after_commit. cbn. by rewrite <- !app_assoc.
  - intros response ->. destruct r1 as [o|]; [|done]. destruct (Hr12 _ eq_refl) as [-> Hinv]. destruct (Hr23 _ eq_refl) as [-> Hrel].
    destruct (Hfin eq_refl eq_refl) as [-> Hc]. destruct (Hcommit ltac:(by left)) as (_ & -> & Hans).
    destruct (Hres _ eq_refl) as (results & -> & Hlen). split_and!; [set_solver| |].
    + change (each_answered [] (((before_commit stmts ++ [Commit]) ++ [ReleaseBarrier]) ++ [Invalidate])).
      rewrite !each_answered_app. split; [split; [split; [exact Hans|by split]|by split]|by split].
    + injection Hr as ->. split_and!; [done..|]. eexists. split; [done|]. by rewrite length_fmap.
Qed.
End Execution.

(** * Properties of the classification *)
Definition write_commands : list string :=
  _MODIFY_COMMANDS ++ _DELETE_COMMANDS ++ _SCHEMA_COMMANDS ++ _MAINTENANCE_COMMANDS.

(** A statement that changes data or schema, by its words. *)
Inductive writes (ws : list string) : Prop :=
| writes_command first rest :
    drop_while (String.eqb "(") ws = first :: rest -> first ∈ write_commands -> writes ws
| writes_with rest w :
    drop_while (String.eqb "(") ws = "WITH" :: rest -> w ∈ ["DELETE"; "INSERT"; "UPDATE"; "MERGE"] ->
    w ∈ rest -> writes ws
| writes_into rest :
    drop_while (String.eqb "(") ws = "SELECT" :: rest ->
    "INTO" ∈ _top_level_words ("SELECT" :: rest) -> writes ws
| writes_explain rest inner :
    drop_while (String.eqb "(") ws = "EXPLAIN" :: rest -> explain_options rest = (true, inner) ->
    writes inner -> writes ws.

Lemma mem_elem x l : mem x l = true <-> x ∈ l.
Proof.
  unfold mem. rewrite existsb_exists. setoid_rewrite String.eqb_eq. setoid_rewrite <- list_elem_of_In.
  naive_solver.
Qed.

Lemma drop_while_length {A} p (l : list A) : (length (drop_while p l) <= length l)%nat.
Proof. induction l as [|x l IH]; cbn; [done|]. destruct (p x); cbn; lia. Qed.

Lemma explain_parens_length b ws : (length (explain_parens b ws).2 <= length ws)%nat.
Proof.
  revert b; induction ws as [|w ws IH]; intros b; cbn [explain_parens length snd]; [done|].
  destruct (String.eqb w ")"); cbn [snd]; [lia|]. specialize (IH (b || is_analyze w)). lia.
Qed.
Lemma explain_words_length b ws : (length (explain_words b ws).2 <= length ws)%nat.
Proof.
  revert b; induction ws as [|w ws IH]; intros b; cbn [explain_words length snd]; [done|].
  destruct (is_analyze w || _); cbn [snd length]; [|lia]. specialize (IH (b || is_analyze w)). lia.
Qed.
Lemma explain_options_length rest : (length (explain_options rest).2 <= length rest)%nat.
Proof.
  unfold explain_options. destruct rest as [|w rest]; [done|].
  destruct (String.eqb w "("); [apply explain_parens_length|apply explain_words_length].
Qed.

Lemma writes_first ws first rest :
  drop_while (String.eqb "(") ws = first :: rest ->
  writes ws <->
    first ∈ write_commands \/
    (first = "WITH" /\ exists w, w ∈ ["DELETE"; "INSERT"; "UPDATE"; "MERGE"] /\ w ∈ rest) \/
    (first = "SELECT" /\ "INTO" ∈ _top_level_words (first :: rest)) \/
    (first = "EXPLAIN" /\ exists inner, explain_options rest = (true, inner) /\ writes inner).
Proof.
  intros Hd. split.
  - destruct 1; rewrite Hd in *; simplify_eq; naive_solver.
  - intros [?|[[-> (w & ? & ?)]|[[-> ?]|[-> (inner & ? & ?)]]]].
    + by eapply writes_command.
    + by eapply writes_with.
    + by eapply writes_into.
    + by eapply writes_explain.
Qed.

Definition kind_mutates (c : classification) : bool := mem (kind c) MUTATING_KINDS.

Definition writes_directly (first : string) (rest : list string) : bool :=
  mem first write_commands
  || (String.eqb first "WITH" && existsb (fun w => mem w rest) ["DELETE"; "INSERT"; "UPDATE"; "MERGE"])
  || (String.eqb first "SELECT" && mem "INTO" (_top_level_words (first :: rest))).

Definition known_commands : list string :=
  ["SET"; "COPY"; "WITH"; "EXPLAIN"; "PREPARE"] ++ _TRANSACTION_COMMANDS ++ _READ_COMMANDS ++ write_commands.

Lemma mem_app x l1 l2 : mem x (l1 ++ l2) = mem x l1 || mem x l2.
Proof. apply existsb_app. Qed.

Lemma classify_unknown fuel ws first rest :
  drop_while (String.eqb "(") ws = first :: rest -> mem first known_commands = false ->
  classify_go fuel ws = plain first "other".
Proof.
  intros Hd Hk. unfold known_commands, write_commands in Hk. rewrite !mem_app, !orb_false_iff in Hk.
  destruct Hk as (Hm & Ht & Hr & Hmo & Hde & Hsc & Hma). cbn in Hm. rewrite !orb_false_iff in Hm.
  destruct Hm as (H1 & H2 & H3 & H4 & H5 & _).
  destruct fuel; cbn [classify_go]; rewrite Hd;
    by rewrite Ht, Hr, Hmo, Hde, Hsc, Hma, H1, H2, H3, H4, H5.
Qed.

Ltac table_cbn :=
  cbn [mem existsb String.eqb Ascii.eqb Bool.eqb orb andb negb app _TRANSACTION_COMMANDS _READ_COMMANDS
       _MODIFY_COMMANDS _DELETE_COMMANDS _SCHEMA_COMMANDS _MAINTENANCE_COMMANDS MUTATING_KINDS kind plain
       forbid warned].

Lemma classify_delete_kind first rest top : kind (classify_delete first rest top) = "delete".
Proof. unfold classify_delete. by repeat case_match. Qed.
Lemma classify_schema_kind first rest top : kind (classify_schema first rest top) = "schema".
Proof. unfold classify_schema. by repeat case_match. Qed.

Lemma classify_with fuel ws rest :
  drop_while (String.eqb "(") ws = "WITH" :: rest ->
  kind_mutates (classify_go fuel ws)
  = existsb (fun w => mem w rest) ["DELETE"; "INSERT"; "UPDATE"; "MERGE"].
Proof.
  intros Hd. assert (kind_mutates (classify_go fuel ws)
    = kind_mutates (if mem "DELETE" rest then plain "WITH ... DELETE" "delete"
        else if existsb (fun w => mem w rest) ["INSERT"; "UPDATE"; "MERGE"]
        then plain "WITH ... MODIFY" "modify" else plain "SELECT" "read")) as ->
    by (destruct fuel; cbn [classify_go]; by rewrite Hd).
  cbn [existsb]. by destruct (mem "DELETE" rest), (mem "INSERT" rest), (mem "UPDATE" rest), (mem "MERGE" rest).
Qed.

Lemma classify_direct fuel ws first rest :
  drop_while (String.eqb "(") ws = first :: rest -> first <> "EXPLAIN" ->
  kind_mutates (classify_go fuel ws) = writes_directly first rest.
Proof.
  intros Hd Hne. destruct (decide (first = "WITH")) as [->|Hnw].
  { rewrite (classify_with _ _ _ Hd). unfold writes_directly. by rewrite orb_false_r. }
  destruct (mem first known_commands) eqn:Hk.
  - apply mem_elem in Hk. unfold known_commands, write_commands in Hk. cbn in Hk.
    destruct fuel; cbn [classify_go]; rewrite Hd; unfold writes_directly, write_commands, kind_mutates;
      generalize (_top_level_words (first :: rest)); intros top;
      repeat (apply elem_of_cons in Hk as [->|Hk];
        [try (exfalso; exact (Hne eq_refl) || exact (Hnw eq_refl)); table_cbn; rewrite ?classify_delete_kind, ?classify_schema_kind;
         repeat (case_match; table_cbn); reflexivity|]);
      by apply elem_of_nil in Hk.
  - rewrite (classify_unknown _ _ _ _ Hd Hk). unfold writes_directly.
    unfold known_commands in Hk. rewrite !mem_app, !orb_false_iff in Hk.
    destruct Hk as (Hm & _ & Hr & ->). cbn in Hm, Hr. rewrite !orb_false_iff in Hm, Hr.
    destruct Hm as (_ & _ & -> & _). by destruct Hr as (-> & _).
Qed.

Lemma writes_directly_spec first rest :
  writes_directly first rest = true <->
    first ∈ write_commands \/
    (first = "WITH" /\ exists w, w ∈ ["DELETE"; "INSERT"; "UPDATE"; "MERGE"] /\ w ∈ rest) \/
    (first = "SELECT" /\ "INTO" ∈ _top_level_words (first :: rest)).
Proof.
  unfold writes_directly. rewrite !orb_true_iff, !andb_true_iff, !mem_elem, !String.eqb_eq, existsb_exists.
  setoid_rewrite mem_elem. setoid_rewrite <- list_elem_of_In. tauto.
Qed.

Lemma classify_explain fuel ws rest :
  drop_while (String.eqb "(") ws = "EXPLAIN" :: rest ->
  kind_mutates (classify_go (S fuel) ws)
  = (explain_options rest).1 && kind_mutates (classify_go fuel (explain_options rest).2).
Proof.
  intros Hd. cbn [classify_go]. rewrite Hd. cbn -[classify_go explain_options].
  destruct (explain_options rest) as [[] inner]; cbn -[classify_go]; [|done].
  unfold kind_mutates. cbn [kind].
  by destruct (String.eqb_spec (kind (classify_go fuel inner)) "other") as [->|].
Qed.

Lemma classify_go_writes fuel ws :
  (length ws <= fuel)%nat -> kind_mutates (classify_go fuel ws) = true <-> writes ws.
Proof.
  revert ws; induction fuel as [fuel IH] using lt_wf_ind; intros ws Hlen.
  pose proof (drop_while_length (String.eqb "(") ws) as Hdl.
  destruct (drop_while (String.eqb "(") ws) as [|first rest] eqn:Hd.
  { split; [destruct fuel; cbn [classify_go]; rewrite ?Hd; done|]. by destruct 1; rewrite Hd in *. }
  rewrite (writes_first _ _ _ Hd). destruct (decide (first = "EXPLAIN")) as [->|Hexp].
  - destruct fuel as [|fuel]; [cbn in *; lia|]. rewrite (classify_explain _ _ _ Hd), andb_true_iff.
    pose proof (explain_options_length rest) as Hl. cbn [length] in Hdl.
    destruct (explain_options rest) as [an inner] eqn:Ho. cbn [fst snd] in *.
    rewrite IH by lia. split.
    + intros [-> Hw]. right. right. right. split; [done|]. by exists inner.
    + intros [Hin|[[? _]|[[? _]|[_ (inner' & ? & Hw)]]]]; [|done|done|by simplify_eq].
      apply mem_elem in Hin. by vm_compute in Hin.
  - rewrite (classify_direct _ _ _ _ Hd Hexp), writes_directly_spec. naive_solver.
Qed.

(** The console's warning is complete.  A statement is classified as a
    change, and so held back until it is confirmed, exactly when its words
    say it writes: a modifying, deleting, schema or maintenance command after
    any opening parentheses, a WITH whose words name a writing command, a
    SELECT with INTO outside of parentheses, or an EXPLAIN ANALYZE of such a
    statement, to any depth. *)
Theorem classify_writes ws : kind_mutates (_classify ws) = true <-> writes ws.
Proof. by apply classify_go_writes. Qed.

(** ** Witnesses *)
Module ConsoleDemo.
(** A server that answers every statement with one affected row. *)
Definition float_text : FloatText := fun _ => "1.5".
Definition loads : JsonLoads := fun _ => None.
Definition server : Server :=
  {| answer := fun _ _ => Ok (mkReply [] [] "INSERT 0 1"); fails := fun _ _ => None |}.
Definition script : string := "INSERT INTO t VALUES (1); EXPLAIN ANALYZE WITH d AS (DELETE FROM t) SELECT 1".
Definition reading : string := "SELECT 1; SHOW all".
Definition statements (s : string) : list SqlStatement := default [] (analyze_script s).

Example script_kinds : (fun s => kind (class s)) <$> statements script = ["modify"; "delete"].
Proof. vm_compute. reflexivity. Qed.
End ConsoleDemo.
#[local] Existing Instances ConsoleDemo.float_text ConsoleDemo.loads ConsoleDemo.server.

Lemma unconfirmed_is_read_only_witness :
  let trace := (execute_script ConsoleDemo.reading false 10 []).2 in
  analyze_script ConsoleDemo.reading = Some (ConsoleDemo.statements ConsoleDemo.reading) /\
  trace = [Connect; Start true; Execute timeout_sql; Execute "SELECT 1"; Run "SELECT 1"; Run "SHOW all";
           Rollback; Invalidate] /\
  (trace = [] \/ trace = [Connect] \/
   exists body fin, trace = Connect :: Start true :: body ++ fin ++ [Invalidate] /\
     Forall (fun c => is_statement c = true) body /\ (fin = [] \/ fin = [Rollback])).
Proof.
  assert (analyze_script ConsoleDemo.reading = Some (ConsoleDemo.statements ConsoleDemo.reading)) as Ha
    by (vm_compute; reflexivity).
  split; [exact Ha|]. split; [vm_compute; reflexivity|].
  exact (proj2 (unconfirmed_is_read_only ConsoleDemo.reading 10 _ Ha)).
Defined.

Lemma confirmed_all_or_nothing_witness : exists response trace,
  execute_script ConsoleDemo.script true 10 [] = (Ok response, trace) /\ Commit ∈ trace /\ each_answered [] trace /\
  reports_commit (ConsoleDemo.statements ConsoleDemo.script) response.
Proof.
  assert (analyze_script ConsoleDemo.script = Some (ConsoleDemo.statements ConsoleDemo.script)) as Ha
    by (vm_compute; reflexivity).
  pose proof (confirmed_all_or_nothing ConsoleDemo.script 10 _ Ha) as Hx.
  assert (is_ok (execute_script ConsoleDemo.script true 10 []).1 = true) as Hok by (vm_compute; reflexivity).
  destruct (execute_script ConsoleDemo.script true 10 []) as [[response|e] trace]; [|discriminate Hok].
  exists response, trace. split; [reflexivity|]. exact (proj2 Hx response eq_refl).
Defined.
