(* ===== verification/HookChain.v ===== *)
(** * Extension hooks (ppbase/ext/hooks.py, the chaining of ppbase/ext/events.py)

    A chain of handlers shares one event object, whose [_next_handler] and
    [_next_called] say what [await event.next()] does.  A handler is a finite
    program over the event and the rest of the program's state ([P]): it may
    read and write that state, await [event.next()] and go on with what came
    back, an exception included, and end with a value or an exception.
    Handlers are awaited one after the other; a handler that starts
    [event.next()] without awaiting it is outside the model.  The registry of
    a [Hook] holds references to binding objects of a shared store, because
    a caller may bind one [HookBinding] object more than once. *)
From Stdlib Require Import Ascii String.
From S2P Require Import Prelude PyText PyVal.
#[local] Open Scope string_scope.
#[local] Open Scope list_scope.
#[local] Open Scope Z_scope.

Section Chain.
(** Results, the exceptions of the handlers, and the state they work on. *)
Context {V X P : Type} (none : V).

Inductive exn : Type :=
| RuntimeError (message : string)
| Raised (x : X).
Definition outcome : Type := result exn V.

Inductive handler : Type :=
| Return (v : V)
| Raise (e : exn)
| Update (f : P -> P) (k : P -> handler)
| Next (k : outcome -> handler).

(** ** The event *)

(** [_next] of [run_hook_chain] is the closure [dispatch (index + 1)]: it is
    represented by that index. *)
Record HookEvent : Type := mkEvent {
  payload : P;
  _next_handler : option nat;
  _next_called : bool;
}.
Definition new_event (p : P) : HookEvent := mkEvent p None false.
Definition _set_next_handler (index : nat) (ev : HookEvent) : HookEvent :=
  mkEvent (payload ev) (Some index) false.
Definition _clear_next_handler (ev : HookEvent) : HookEvent := mkEvent (payload ev) None false.

Definition not_available : exn := RuntimeError "next() is not available in the current hook context.".
Definition only_once : exn := RuntimeError "next() can be called only once per hook handler.".

(** The awaited computations; [None] is a run that needs more fuel. *)
Definition run : Type := HookEvent -> option (outcome * HookEvent).

Definition next (dispatch : nat -> run) : run := fun ev =>
  match _next_handler ev with
  | None => Some (Err not_available, ev)
  | Some index =>
      if _next_called ev then Some (Err only_once, ev)
      else dispatch index (mkEvent (payload ev) (Some index) true)
  end.

Fixpoint run_handler (next : run) (h : handler) (ev : HookEvent) : option (outcome * HookEvent) :=
  match h with
  | Return v => Some (Ok v, ev)
  | Raise e => Some (Err e, ev)
  | Update f k =>
      let p := f (payload ev) in
      run_handler next (k p) (mkEvent p (_next_handler ev) (_next_called ev))
  | Next k =>
      match next ev with
      | None => None
      | Some (r, ev') => run_handler next (k r) ev'
      end
  end.

(** ** The chain *)
Fixpoint dispatch (fuel : nat) (handlers : list handler) (default_handler : option handler) (index : nat)
  : run := fun ev =>
  match fuel with
  | O => None
  | S fuel' =>
      let next := next (dispatch fuel' handlers default_handler) in
      match handlers !! index with
      | None =>
          match default_handler with
          | None => Some (Ok none, ev)
          | Some h => run_handler next h ev
          end
      | Some h =>
          match run_handler next h (_set_next_handler (S index) ev) with
          | None => None
          | Some (r, ev') => Some (r, _clear_next_handler ev')
          end
      end
  end.

(** One level of [dispatch] per handler, and one for the default handler. *)
Definition chain_fuel (handlers : list handler) : nat := S (length handlers).
Definition run_hook_chain (handlers : list handler) (default_handler : option handler) : run :=
  dispatch (chain_fuel handlers) handlers default_handler 0.

(** * The specification: nested layers *)

(** A handler of which every [next()] raises [e]. *)
Fixpoint blocked (e : exn) (h : handler) (p : P) : outcome * P :=
  match h with
  | Return v => (Ok v, p)
  | Raise x => (Err x, p)
  | Update f k => blocked e (k (f p)) (f p)
  | Next k => blocked e (k (Err e)) p
  end.

(** A handler of which the first [next()] is [inner] and any other raises. *)
Fixpoint layer (inner : P -> outcome * P) (again : exn) (h : handler) (p : P) : outcome * P :=
  match h with
  | Return v => (Ok v, p)
  | Raise x => (Err x, p)
  | Update f k => layer inner again (k (f p)) (f p)
  | Next k => let '(r, p') := inner p in blocked again (k r) p'
  end.

Definition innermost (e : exn) (default_handler : option handler) (p : P) : outcome * P :=
  match default_handler with None => (Ok none, p) | Some h => blocked e h p end.

Fixpoint onion (handlers : list handler) (default_handler : option handler) : P -> outcome * P :=
  match handlers with
  | [] => innermost only_once default_handler
  | h :: rest =>
      layer (onion rest default_handler)
        (match rest with [] => only_once | _ => not_available end) h
  end.

(** A handler that cannot go on runs as [blocked], whatever the chain. *)
Lemma run_blocked n h e : forall ev,
  (forall p, n (mkEvent p (_next_handler ev) (_next_called ev))
             = Some (Err e, mkEvent p (_next_handler ev) (_next_called ev))) ->
  run_handler n h ev
  = Some ((blocked e h (payload ev)).1,
          mkEvent (blocked e h (payload ev)).2 (_next_handler ev) (_next_called ev)).
Proof.
  induction h as [v|x|f k IH|k IH]; intros [p nh nc] Hn; cbn in *; [done..| |].
  - by apply IH.
  - rewrite Hn. by apply (IH (Err e) (mkEvent p nh nc)).
Qed.

Lemma next_cleared d p c : next d (mkEvent p None c) = Some (Err not_available, mkEvent p None c).
Proof. done. Qed.
Lemma next_called d p i : next d (mkEvent p (Some i) true) = Some (Err only_once, mkEvent p (Some i) true).
Proof. done. Qed.

(** What a chain leaves on the event: its innermost part (the default
    handler, or nothing) leaves the flags as they are, any handler clears
    them. *)
Definition chain_event (rest : list handler) (p : P) (ev : HookEvent) : HookEvent :=
  match rest with
  | [] => mkEvent p (_next_handler ev) (_next_called ev)
  | _ => mkEvent p None false
  end.

(** A handler runs as a layer around what its first [next()] does. *)
Lemma run_layer d inner rest h i : forall p,
  (forall p, d i (mkEvent p (Some i) true)
             = Some ((inner p).1, chain_event rest (inner p).2 (mkEvent p (Some i) true))) ->
  exists nh nc,
    run_handler (next d) h (mkEvent p (Some i) false)
    = Some ((layer inner (match rest with [] => only_once | _ => not_available end) h p).1,
            mkEvent (layer inner (match rest with [] => only_once | _ => not_available end) h p).2 nh nc).
Proof.
  induction h as [v|x|f k IH|k IH]; intros p Hd; cbn [run_handler layer]; [by eexists _, _..| |].
  - by apply IH.
  - cbn [next payload _next_handler _next_called]. rewrite Hd.
    destruct (inner p) as [r p']. destruct rest as [|h' rest']; cbn [chain_event fst snd];
      (erewrite run_blocked; [by eexists _, _|done]).
Qed.

Lemma dispatch_onion all default_handler : forall rest fuel done ev,
  all = done ++ rest -> (length rest < fuel)%nat ->
  (rest = [] -> exists i, _next_handler ev = Some i /\ _next_called ev = true) ->
  dispatch fuel all default_handler (length done) ev
  = Some ((onion rest default_handler (payload ev)).1,
          chain_event rest (onion rest default_handler (payload ev)).2 ev).
Proof.
  induction rest as [|h rest IH]; intros [|fuel] done ev -> Hf Hev; try (cbn in Hf; lia); cbn [dispatch].
  - rewrite app_nil_r, lookup_ge_None_2 by done. destruct (Hev eq_refl) as (i & Hi & Hc).
    destruct ev as [p nh nc]; cbn in Hi, Hc; subst. cbn [onion innermost].
    destruct default_handler as [h|]; [|done]. cbn [payload innermost].
    by rewrite (run_blocked _ _ only_once).
  - rewrite list_lookup_middle by done.
    destruct (run_layer (dispatch fuel (done ++ h :: rest) default_handler) (onion rest default_handler)
                rest h (S (length done)) (payload ev)) as (nh & nc & Hr).
    { intros p. replace (S (length done)) with (length (done ++ [h])) by (rewrite length_app; cbn; lia).
      rewrite IH; [done|by rewrite <- app_assoc|cbn in Hf; lia|by eexists]. }
    unfold _set_next_handler. rewrite Hr. done.
Qed.

(** The whole chain: a default handler on its own has no [next()]. *)
Definition chain_spec (handlers : list handler) (default_handler : option handler) : P -> outcome * P :=
  match handlers with
  | [] => innermost not_available default_handler
  | _ => onion handlers default_handler
  end.

(** C36: a chain is nested layers.  Whatever the handlers do, a chain ends with
    the outcome and the state of its specification: each handler runs once,
    around the rest of the chain, which its first [next()] runs; the default
    handler is innermost; any further [next()] raises; and the event comes
    back with no next handler. *)
Theorem run_hook_chain_onion handlers default_handler p :
  run_hook_chain handlers default_handler (new_event p)
  = Some ((chain_spec handlers default_handler p).1,
          new_event (chain_spec handlers default_handler p).2).
Proof.
  destruct handlers as [|h rest].
  - cbn. destruct default_handler as [h|]; [|done]. by rewrite (run_blocked _ _ not_available).
  - unfold run_hook_chain, chain_fuel. by apply (dispatch_onion (h :: rest) default_handler (h :: rest) _ []); [|lia|].
Qed.
End Chain.

Arguments exn : clear implicits.
Arguments handler : clear implicits.

(** ** The registry *)
Section Registry.
Context {V X P : Type} (none : V).

Record HookBinding : Type := mkBinding {
  id : string;
  binding_handler : handler V X P;
  priority : Z;
  order : Z;
  predicate : option (P -> result (exn X) bool);
}.

Definition matches (b : HookBinding) (p : P) : result (exn X) bool :=
  match predicate b with None => Ok true | Some f => f p end.

(** A hook and the store of binding objects its dict refers to. *)
Record Hook : Type := mkHook {
  name : string;
  _bindings : list (string * nat);
  _next_order : Z;
  _next_id : Z;
  objects : list HookBinding;
}.
Definition new_hook (name : string) (objects : list HookBinding) : Hook := mkHook name [] 0 0 objects.

Definition _generate_id (self : Hook) : string * Hook :=
  (name self +:+ ":" +:+ str_of_Z (_next_id self + 1),
   mkHook (name self) (_bindings self) (_next_order self) (_next_id self + 1) (objects self)).

(** The caller's arguments: a function, or a binding object of the store. *)
Inductive bindable : Type :=
| Func (f : handler V X P)
| Binding (ref : nat).

Definition register (self : Hook) (b : HookBinding) (ref : nat) (objects : list HookBinding) : string * Hook :=
  let b := mkBinding (id b) (binding_handler b) (priority b) (_next_order self) (predicate b) in
  (id b, mkHook (name self) (dict_set (id b) ref (_bindings self)) (_next_order self + 1) (_next_id self)
           (<[ref := b]> objects)).

(** [id or self._generate_id()] *)
Definition given_id (self : Hook) (id' : option string) : string * Hook :=
  match id' with
  | Some s => if String.eqb s "" then _generate_id self else (s, self)
  | None => _generate_id self
  end.

(** [None]: there is no such object, which Python's references exclude. *)
Definition bind (self : Hook) (f : bindable) (id' : option string) (prio : Z)
    (pred : option (P -> result (exn X) bool)) : option (string * Hook) :=
  match f with
  | Binding ref =>
      b ← objects self !! ref;
      let b := mkBinding (default (id b) id') (binding_handler b)
                 (if negb (prio =? 0) then prio else priority b) (order b)
                 (match pred with Some _ => pred | None => predicate b end) in
      Some (register self b ref (objects self))
  | Func f =>
      let '(i, self) := given_id self id' in
      Some (register self (mkBinding i f prio 0 pred) (length (objects self))
              (objects self ++ [mkBinding i f prio 0 pred]))
  end.
Definition bind_func (self : Hook) (f : handler V X P) := bind self (Func f).

Definition with_bindings (self : Hook) (l : list (string * nat)) : Hook :=
  mkHook (name self) l (_next_order self) (_next_id self) (objects self).
Definition unbind (self : Hook) (i : string) : Hook := with_bindings self (dict_del i (_bindings self)).
Definition unbind_all (self : Hook) : Hook := with_bindings self [].

(** The objects of the dict, in its order. *)
Definition bound (self : Hook) : list HookBinding :=
  omap (fun kr : string * nat => objects self !! kr.2) (_bindings self).

(** [key=lambda b: (-b.priority, b.order)] *)
Definition binding_leb (a b : HookBinding) : bool :=
  (priority b <? priority a) || ((priority a =? priority b) && (order a <=? order b)).

Fixpoint filter_matching (l : list HookBinding) (p : P) : result (exn X) (list HookBinding) :=
  match l with
  | [] => Ok []
  | b :: l' =>
      m ← matches b p;
      rest ← filter_matching l' p;
      Ok (if m : bool then b :: rest else rest)
  end.

Definition _ordered_bindings (self : Hook) (p : P) : result (exn X) (list HookBinding) :=
  filtered ← filter_matching (bound self) p;
  Ok (py_sorted binding_leb filtered).

Definition trigger (self : Hook) (default_handler : option (handler V X P)) (ev : @HookEvent P)
  : option (result (exn X) V * @HookEvent P) :=
  match _ordered_bindings self (payload ev) with
  | Err e => Some (Err e, ev)
  | Ok bindings => run_hook_chain none (binding_handler <$> bindings) default_handler ev
  end.

(** ** The order of a trigger *)
Inductive call : Type :=
| CBind (f : bindable) (i : option string) (prio : Z) (pred : option (P -> result (exn X) bool))
| CUnbind (i : string)
| CUnbindAll
| CObject (b : HookBinding).            (* the caller makes a binding object *)

Definition apply_call (self : Hook) (c : call) : option Hook :=
  match c with
  | CBind f i prio pred => snd <$> bind self f i prio pred
  | CUnbind i => Some (unbind self i)
  | CUnbindAll => Some (unbind_all self)
  | CObject b => Some (mkHook (name self) (_bindings self) (_next_order self) (_next_id self)
                         (objects self ++ [b]))
  end.

(** The registries a program can build with calls that satisfy [ok]. *)
Inductive reachable (ok : Hook -> call -> Prop) (n : string) : Hook -> Prop :=
| reach_new : reachable ok n (new_hook n [])
| reach_call self c self' :
    reachable ok n self -> ok self c -> apply_call self c = Some self' -> reachable ok n self'.

Definition any_call (self : Hook) (c : call) : Prop := True.

(** Every reference of the dict is an object registered before
    [_next_order], and two of them have one order only if they are one
    object. *)
Record registered (self : Hook) : Prop := {
  reg_keys : NoDup (_bindings self).*1;
  reg_ref k r : (k, r) ∈ _bindings self ->
    exists b, objects self !! r = Some b /\ order b < _next_order self;
  reg_order k1 r1 b1 k2 r2 b2 :
    (k1, r1) ∈ _bindings self -> objects self !! r1 = Some b1 ->
    (k2, r2) ∈ _bindings self -> objects self !! r2 = Some b2 ->
    order b1 = order b2 -> r1 = r2;
}.

Lemma register_registered self b ref objs :
  registered self -> (ref < length objs)%nat ->
  (forall r b, objects self !! r = Some b -> objs !! r = Some b) ->
  registered (register self b ref objs).2.
Proof.
  intros [Hk Hr Ho] Hlt Hext.
  assert (forall k r, (k, r) ∈ dict_set (id b) ref (_bindings self) -> forall b',
    <[ref := mkBinding (id b) (binding_handler b) (priority b) (_next_order self) (predicate b)]> objs !! r
      = Some b' -> (r = ref /\ order b' = _next_order self) \/
                   (r <> ref /\ (k, r) ∈ _bindings self /\ objects self !! r = Some b' /\
                    order b' < _next_order self)) as Hcase.
  { intros k r Hin b' Hb. destruct (decide (r = ref)) as [->|Hne].
    - left. split; [done|]. rewrite list_lookup_insert_eq in Hb by done. by injection Hb as <-.
    - right. apply dict_set_elem in Hin as [[_ ->]|Hin]; [done|].
      destruct (Hr _ _ Hin) as (b2 & Hb2 & Hlt2).
      rewrite list_lookup_insert_ne in Hb by done.
      assert (b' = b2) as -> by (apply Hext in Hb2; congruence). done. }
  split; cbn.
  - by apply dict_set_nodup.
  - intros k r Hin. destruct (decide (r = ref)) as [->|Hne].
    + rewrite list_lookup_insert_eq by done. eexists. split; [done|]. cbn. lia.
    + rewrite list_lookup_insert_ne by done. apply dict_set_elem in Hin as [[_ ->]|Hin]; [done|].
      destruct (Hr _ _ Hin) as (b2 & Hb2 & Hlt2). exists b2. split; [by apply Hext|lia].
  - intros k1 r1 b1 k2 r2 b2 Hin1 Hb1 Hin2 Hb2 Heq.
    destruct (Hcase _ _ Hin1 _ Hb1) as [[-> H1]|(H1 & Hi1 & Hx1 & Hlt1)],
      (Hcase _ _ Hin2 _ Hb2) as [[-> H2]|(H2 & Hi2 & Hx2 & Hlt2)]; try done; try lia.
    by eapply Ho.
Qed.

Lemma bind_registered self f i prio pred j self' :
  registered self -> bind self f i prio pred = Some (j, self') -> registered self'.
Proof.
  intros Hreg. unfold bind. destruct f as [f|ref].
  - destruct (given_id self i) as [i' self1] eqn:Hi.
    intros Hb. apply (inj Some), (f_equal snd) in Hb. change self' with (j, self').2. rewrite <- Hb. clear Hb.
    assert (registered self1 /\ objects self1 = objects self) as [Hreg1 Hobj].
    { destruct i as [i0|]; cbn in Hi; [destruct (String.eqb i0 "")|]; injection Hi as _ <-; split; try done;
        destruct Hreg; by split. }
    apply register_registered; [done|rewrite length_app; cbn; lia|].
    intros r b Hr. by apply lookup_app_l_Some.
  - destruct (objects self !! ref) as [b|] eqn:Hb; [|done]. intros Hj.
    apply (inj Some), (f_equal snd) in Hj. change self' with (j, self').2. rewrite <- Hj.
    apply register_registered; [done|by apply lookup_lt_is_Some_1; eexists|done].
Qed.

Lemma reachable_registered ok n self : reachable ok n self -> registered self.
Proof.
  induction 1 as [|self c self' _ IH _ Hc].
  { split; cbn; [constructor|..]; intros; set_solver. }
  destruct c as [f i prio pred|i| |b]; cbn in Hc.
  - destruct (bind self f i prio pred) as [[j self1]|] eqn:Hb; [|done]. injection Hc as <-.
    by eapply bind_registered.
  - injection Hc as <-. destruct IH as [Hk Hr Ho]. split; cbn; [by apply dict_del_nodup|..].
    + intros k r Hin%dict_del_elem. by eapply Hr.
    + intros k1 r1 b1 k2 r2 b2 Hin1%dict_del_elem ? Hin2%dict_del_elem. by eapply Ho.
  - injection Hc as <-. split; cbn; [constructor|..]; intros; set_solver.
  - injection Hc as <-. destruct IH as [Hk Hr Ho]. split; cbn; [done|..].
    + intros k r Hin. destruct (Hr _ _ Hin) as (b' & Hb & Hlt). exists b'. split; [|done].
      by apply lookup_app_l_Some.
    + intros k1 r1 b1 k2 r2 b2 Hin1 Hb1 Hin2 Hb2.
      destruct (Hr _ _ Hin1) as (b1' & Hb1' & _), (Hr _ _ Hin2) as (b2' & Hb2' & _).
      rewrite (lookup_app_l_Some _ _ _ _ Hb1') in Hb1. rewrite (lookup_app_l_Some _ _ _ _ Hb2') in Hb2.
      simplify_eq. by eapply Ho.
Qed.

Lemma bound_elem self b : b ∈ bound self <-> exists k r, (k, r) ∈ _bindings self /\ objects self !! r = Some b.
Proof. unfold bound. rewrite list_elem_of_omap. split; [intros ([k r] & ? & ?)|intros (k & r & ? & ?)]; eauto. Qed.

(** Whether a binding's predicate holds of the event. *)
Definition is_match (p : P) (b : HookBinding) : bool :=
  match matches b p with Ok m => m | Err _ => false end.

Lemma filter_matching_ok l p fl :
  filter_matching l p = Ok fl ->
  fl = List.filter (is_match p) l /\ Forall (fun b => exists m, matches b p = Ok m) l.
Proof.
  revert fl; induction l as [|b l IH]; intros fl; cbn; [by intros [= <-]|].
  unfold is_match at 1. destruct (matches b p) as [m|e] eqn:Hm; [|done].
  destruct (filter_matching l p) as [rest|e]; [|done]. cbn. intros [= <-].
  destruct (IH rest eq_refl) as [-> Hall]. split; [by destruct m|]. constructor; [by eexists|done].
Qed.
Lemma filter_matching_total l p :
  Forall (fun b => exists m, matches b p = Ok m) l -> exists fl, filter_matching l p = Ok fl.
Proof.
  induction 1 as [|b l [m Hm] _ [fl IH]]; cbn; [by eexists|]. rewrite Hm. cbn. rewrite IH. by eexists.
Qed.

Lemma strongly_sorted_impl {A} (R S : A -> A -> Prop) l :
  StronglySorted R l -> (forall x y, x ∈ l -> y ∈ l -> R x y -> S x y) -> StronglySorted S l.
Proof.
  induction 1 as [|x l Hl IH Hx]; intros HS; constructor.
  - apply IH. intros y z Hy Hz. apply HS; by right.
  - rewrite Forall_forall in Hx |- *. intros y Hy. apply HS; [by left|by right|by apply Hx].
Qed.

Lemma binding_leb_total a b : binding_leb a b = false -> binding_leb b a = true.
Proof. unfold binding_leb. rewrite orb_false_iff, orb_true_iff, andb_false_iff, andb_true_iff. lia. Qed.
Lemma binding_leb_trans a b c :
  binding_leb a b = true -> binding_leb b c = true -> binding_leb a c = true.
Proof. unfold binding_leb. rewrite !orb_true_iff, !andb_true_iff. lia. Qed.

(** [a] goes before [b]: a higher priority, or the same and registered
    earlier; or they are one object that was bound under two ids. *)
Definition goes_before (a b : HookBinding) : Prop :=
  priority b < priority a \/ (priority a = priority b /\ order a < order b) \/ a = b.

(** The order of a trigger.  In any registry a program can build, when no
    predicate raises, [trigger] runs the chain of exactly the bindings whose
    predicate holds, by decreasing priority and, for one priority, in the
    order of registration; its result is the one of the nested layers. *)
Theorem trigger_order n self default_handler p :
  reachable any_call n self ->
  Forall (fun b => exists m, matches b p = Ok m) (bound self) ->
  exists bs,
    bs ≡ₚ List.filter (is_match p) (bound self) /\ StronglySorted goes_before bs /\
    trigger self default_handler (new_event p)
    = Some ((chain_spec none (binding_handler <$> bs) default_handler p).1,
            new_event (chain_spec none (binding_handler <$> bs) default_handler p).2).
Proof.
  intros Hr Hp. apply reachable_registered in Hr.
  destruct (filter_matching_total _ _ Hp) as [fl Hfl].
  exists (py_sorted binding_leb fl). pose proof (filter_matching_ok _ _ _ Hfl) as [Heq _].
  pose proof (py_sorted_perm binding_leb fl) as Hperm.
  split_and!; [by rewrite Hperm, Heq| |].
  - apply (strongly_sorted_impl (fun a b => binding_leb a b = true)).
    { apply py_sorted_sorted; [apply binding_leb_total|apply binding_leb_trans]. }
    assert (forall a, a ∈ py_sorted binding_leb fl -> a ∈ bound self) as Hin.
    { intros a. rewrite Hperm, Heq, !list_elem_of_In. by intros [? _]%filter_In. }
    intros a b (k1 & r1 & Hk1 & Ha)%Hin%bound_elem (k2 & r2 & Hk2 & Hb)%Hin%bound_elem Hle.
    assert (order a = order b -> a = b) as Heq'.
    { intros Ho. pose proof (reg_order _ Hr _ _ _ _ _ _ Hk1 Ha Hk2 Hb Ho) as ->. congruence. }
    unfold goes_before. unfold binding_leb in Hle. rewrite orb_true_iff, andb_true_iff in Hle.
    destruct (Z.eq_dec (order a) (order b)) as [He|He]; [by right; right; apply Heq'|]. lia.
  - unfold trigger, _ordered_bindings. cbn [payload new_event]. rewrite Hfl. cbn.
    apply run_hook_chain_onion.
Qed.

(** Binding and unbinding.  A bound handler is found under the id that is
    returned, after every other handler of its priority, and the handlers of
    other ids are untouched; unbinding that id removes it, and only it. *)
Theorem bind_unbind n self f i prio pred j self' :
  reachable any_call n self -> bind self (Func f) i prio pred = Some (j, self') ->
  (exists r b, dict_get j (_bindings self') = Some r /\ objects self' !! r = Some b /\
     binding_handler b = f /\ priority b = prio /\ predicate b = pred /\
     forall k r' b', (k, r') ∈ _bindings self' -> k <> j -> objects self' !! r' = Some b' ->
       order b' < order b) /\
  (forall k, k <> j -> dict_get k (_bindings self') = dict_get k (_bindings self)) /\
  dict_get j (_bindings (unbind self' j)) = None /\
  (forall k, k <> j -> dict_get k (_bindings (unbind self' j)) = dict_get k (_bindings self)).
Proof.
  intros Hr Hb. apply reachable_registered in Hr. pose proof (bind_registered _ _ _ _ _ _ _ Hr Hb) as Hr'.
  unfold bind in Hb. destruct (given_id self i) as [i' self1] eqn:Hi.
  assert (_bindings self1 = _bindings self /\ objects self1 = objects self /\ _next_order self1 = _next_order self)
    as (Hb1 & Ho1 & Hn1).
  { destruct i as [i0|]; cbn in Hi; [destruct (String.eqb i0 "")|]; by injection Hi as _ <-. }
  unfold register in Hb. apply (inj Some) in Hb. pose proof (f_equal fst Hb) as Hj. cbn in Hj. subst j.
  apply (f_equal snd) in Hb. cbn [snd id] in Hb.
  assert (_bindings self' = dict_set i' (length (objects self)) (_bindings self)) as Hd
    by (rewrite <- Hb; cbn; by rewrite Hb1, Ho1).
  assert (forall r, objects self' !! r
          = if decide (r = length (objects self)) then Some (mkBinding i' f prio (_next_order self) pred)
            else objects self !! r) as Hobj.
  { intros r. rewrite <- Hb. cbn. rewrite Ho1, Hn1. destruct (decide (r = _)) as [->|Hne].
    - apply list_lookup_insert_eq. rewrite length_app; cbn; lia.
    - rewrite list_lookup_insert_ne by done. destruct (decide (r < length (objects self))%nat).
      + by apply lookup_app_l.
      + rewrite !lookup_ge_None_2; [done|lia|rewrite length_app; cbn; lia]. }
  split_and!.
  - exists (length (objects self)), (mkBinding i' f prio (_next_order self) pred).
    rewrite Hobj, decide_True by done. split_and!; [by rewrite Hd, dict_get_set_eq|done..|].
    intros k r' b'. rewrite Hd, Hobj. intros [[-> _]|Hin]%dict_set_elem Hk; [done|].
    destruct (reg_ref _ Hr _ _ Hin) as (b2 & Hb2 & Hlt).
    rewrite decide_False; [by intros; simplify_eq|]. intros ->. by rewrite lookup_ge_None_2 in Hb2.
  - intros k Hk. by rewrite Hd, dict_get_set_ne.
  - apply dict_get_del_eq, Hr'.
  - intros k Hk. cbn. by rewrite dict_get_del_ne, Hd, dict_get_set_ne.
Qed.

(** ** Generated ids *)
Definition generated (n : string) (z : Z) : string := n +:+ ":" +:+ str_of_Z z.
Lemma generated_inj n z1 z2 : generated n z1 = generated n z2 -> z1 = z2.
Proof.
  unfold generated. induction n as [|c n IH]; cbn; intros H; injection H; [apply str_of_Z_inj|exact IH].
Qed.

(** A caller that binds functions, with ids of its own that do not look like
    generated ones. *)
Definition own_ids (self : Hook) (c : call) : Prop :=
  match c with
  | CBind (Func _) (Some s) _ _ => forall z, s <> generated (name self) z
  | CBind (Binding _) _ _ _ => False
  | _ => True
  end.

Lemma own_ids_invariant n self :
  reachable own_ids n self ->
  name self = n /\ forall k z, k ∈ (_bindings self).*1 -> k = generated n z -> z <= _next_id self.
Proof.
  induction 1 as [|self c self' _ [IHn IH] Hok Hc]; [split; [done|]; intros k z Hk; by apply elem_of_nil in Hk|].
  destruct c as [[f|ref] i prio pred|i| |b]; cbn in Hc, Hok.
  - destruct (given_id self i) as [i' self1] eqn:Hi. injection Hc as <-. cbn.
    assert (name self1 = name self /\ _bindings self1 = _bindings self /\ _next_id self <= _next_id self1 /\
            ((forall z, i' <> generated n z) \/ i' = generated n (_next_id self1))) as (Hn & Hb & Hle & Hnew).
    { rewrite IHn in Hok. destruct i as [i0|]; cbn in Hi; [destruct (String.eqb_spec i0 "")|];
        injection Hi as <- <-; cbn; rewrite ?IHn; split_and!; try done; try lia; by auto. }
    rewrite Hn. split; [done|]. intros k z Hk ->. rewrite Hb in Hk.
    apply list_elem_of_fmap in Hk as ([k r] & Heq & [[-> ->]|Hin]%dict_set_elem); cbn in Heq; subst.
    + destruct Hnew as [Hnew|Hnew]; [by destruct (Hnew z)|]. apply generated_inj in Hnew. lia.
    + transitivity (_next_id self); [|done]. eapply IH; [|done]. apply list_elem_of_fmap. by eexists (_, _).
  - done.
  - injection Hc as <-. split; [done|]. cbn. intros k z Hk. apply IH.
    apply list_elem_of_fmap in Hk as (kr & -> & Hin%dict_del_elem).
    apply list_elem_of_fmap. by exists kr.
  - injection Hc as <-. split; [done|]. cbn. intros k z Hk. by apply elem_of_nil in Hk.
  - by injection Hc as <-.
Qed.

(** As long as the callers' own ids do not look like generated ones, a
    function bound without an id never replaces a binding. *)
Theorem generated_id_fresh n self f prio pred :
  reachable own_ids n self ->
  exists j self', bind self (Func f) None prio pred = Some (j, self') /\
    dict_mem j (_bindings self) = false.
Proof.
  intros Hr. apply own_ids_invariant in Hr as [Hn Hle]. eexists _, _. split; [done|]. cbn.
  unfold dict_mem. destruct (dict_get _ (_bindings self)) as [r|] eqn:Hd; [|done].
  apply dict_get_elem in Hd. exfalso. enough (_next_id self + 1 <= _next_id self) by lia.
  eapply Hle; [apply list_elem_of_fmap; eexists (_, _); split; [|exact Hd]; done|]. by rewrite Hn.
Qed.
End Registry.

(** ** Witnesses *)
Module HookDemo.
(** Handlers over a log; [around i] writes before and after the rest. *)
Definition around (i : Z) : handler Z unit (list Z) :=
  Update (fun l => l ++ [i]) (fun _ => Next (fun r => Update (fun l => l ++ [- i])
    (fun _ => match r with Ok v => Return v | Err e => Raise e end))).
Definition twice : handler Z unit (list Z) :=
  Next (fun _ => Next (fun r => match r with Ok v => Return v | Err e => Raise e end)).
Definition default_handler : handler Z unit (list Z) := Update (fun l => l ++ [0]) (fun _ => Return 7).
Definition large (l : list Z) : result (exn unit) bool := Ok (1 <? zlen l).

Definition calls : list (@call Z unit (list Z)) :=
  [CBind (Func (around 1)) None 0 None; CBind (Func (around 2)) None 5 None;
   CBind (Func (around 3)) (Some "own") 0 None; CBind (Func (around 4)) None 9 (Some large);
   CBind (Func (around 5)) None 0 None; CUnbind "on_create:1"].
Definition build (cs : list (@call Z unit (list Z))) : Hook :=
  fold_left (fun self c => default self (apply_call self c)) cs (new_hook "on_create" []).

(** The higher priority first, then the order of registration; the handler
    whose predicate fails and the one that was unbound are left out. *)
Example trigger_runs :
  trigger 0 (build calls) (Some default_handler) (new_event []) = Some (Ok 7, new_event [2; 3; 5; 0; -5; -3; -2]).
Proof. vm_compute. reflexivity. Qed.

(** A second [next()] raises in the last handler because it was called, and
    in any other because the rest of the chain cleared the event. *)
Example second_next_last :
  run_hook_chain 0 [twice] (Some default_handler) (new_event []) = Some (Err (only_once), new_event [0]).
Proof. vm_compute. reflexivity. Qed.
Example second_next_before :
  run_hook_chain 0 [twice; around 1] (Some default_handler) (new_event [])
  = Some (Err (not_available), new_event [1; 0; -1]).
Proof. vm_compute. reflexivity. Qed.

Lemma build_reachable : reachable any_call "on_create" (build calls).
Proof.
  unfold build. assert (reachable any_call "on_create" (@new_hook Z unit (list Z) "on_create" [])) as H
    by apply reach_new.
  revert H. generalize (@new_hook Z unit (list Z) "on_create" []). induction calls as [|c cs IH]; [done|].
  intros self H. cbn [fold_left]. apply IH.
  destruct (apply_call self c) as [self'|] eqn:Hc; [|done]. by apply (reach_call _ _ self c).
Qed.
End HookDemo.

Lemma trigger_order_witness :
  Forall (fun b => exists m, matches b [1; 2] = Ok m) (bound (HookDemo.build HookDemo.calls)) /\
  exists bs,
    bs ≡ₚ List.filter (is_match [1; 2]) (bound (HookDemo.build HookDemo.calls)) /\
    StronglySorted goes_before bs /\
    trigger 0 (HookDemo.build HookDemo.calls) None (new_event [1; 2])
    = Some ((chain_spec 0 (binding_handler <$> bs) None [1; 2]).1,
            new_event (chain_spec 0 (binding_handler <$> bs) None [1; 2]).2).
Proof.
  assert (Forall (fun b => exists m, matches b [1; 2] = Ok m) (bound (HookDemo.build HookDemo.calls))) as H.
  { vm_compute. repeat constructor; by eexists. }
  split; [exact H|]. exact (trigger_order 0 "on_create" _ None [1; 2] HookDemo.build_reachable H).
Defined.

Lemma bind_unbind_witness :
  exists j self',
    bind (HookDemo.build HookDemo.calls) (Func HookDemo.default_handler) (Some "own") 3 None = Some (j, self') /\
    dict_get j (_bindings (unbind self' j)) = None.
Proof.
  eexists _, _. split; [reflexivity|].
  exact (proj1 (proj2 (proj2 (bind_unbind "on_create" (HookDemo.build HookDemo.calls)
    HookDemo.default_handler (Some "own") 3 None _ _ HookDemo.build_reachable eq_refl)))).
Defined.

Lemma generated_id_fresh_witness :
  reachable own_ids "h" (@new_hook Z unit (list Z) "h" []) /\
  exists j self', bind (new_hook "h" []) (Func HookDemo.twice) None 1 None = Some (j, self') /\
    dict_mem j (_bindings (@new_hook Z unit (list Z) "h" [])) = false.
Proof.
  assert (reachable own_ids "h" (@new_hook Z unit (list Z) "h" [])) as H by apply reach_new.
  split; [exact H|]. exact (generated_id_fresh "h" _ HookDemo.twice 1 None H).
Defined.
