(* ===== verification/RequestMacros.v ===== *)
(** * Macros that need the database (ppbase/services/request_macros.py)

    [@request.auth.<path>] and [@request.body.<path>] are resolved before the
    filter is parsed: a path starts at the record of the request's token, or
    at its payload, and follows relation fields.  The database is a parameter
    whose state may change between two queries; what a [_Loader] has read
    once it keeps. *)
From Stdlib Require Import Ascii String.
From S2P Require Import Prelude PyText PyVal FilterParser.
#[local] Open Scope string_scope.
#[local] Open Scope list_scope.
#[local] Open Scope Z_scope.

(** ** Collections and rows *)
Record Collection : Type := mkCollection {
  c_id : string;
  c_name : string;
  c_type : string;
  schema : list dict;                  (* the definitions of its fields *)
  options : pyval;
}.

(** A column of a row; a row; or a value that came from the request. *)
Inductive cell : Type :=
| Plain (v : pyval)
| Stamp (d : datetime)
| Row (columns : list (string * cell)).

Inductive macro_exn : Type :=
| MacroValueError (message : string)
| MacroTypeError
| MacroAttributeError
| MacroOverflowError
| DatabaseError.

(** [SELECT ... FROM "_collections"] and [SELECT * FROM "<name>"] by id. *)
Class Database : Type := {
  db : Type;
  fetch_collection : string -> db -> result unit (option Collection) * db;
  fetch_record : string -> string -> db -> result unit (option (list (string * cell))) * db;
}.

(** ** Reading values *)
Definition offset_text (o : Z) : string :=
  let a := Z.abs o in
  let s := a / 10 ^ 6 in
  cat [if o <? 0 then "-" else "+"; zfill 2 (s / 3600); ":"; zfill 2 (s / 60 mod 60);
       (if (s mod 60 =? 0) && (a mod 10 ^ 6 =? 0) then "" else cat [":"; zfill 2 (s mod 60)]);
       (if a mod 10 ^ 6 =? 0 then "" else cat ["."; zfill 6 (a mod 10 ^ 6)])].
Definition wall_text (w : Z) : string :=
  let '(y, m, d) := civil_of_days (w / DAY_US) in
  let us := w mod DAY_US in
  let s := us / 10 ^ 6 in
  cat [zfill 4 y; "-"; zfill 2 m; "-"; zfill 2 d; " ";
       zfill 2 (s / 3600); ":"; zfill 2 (s / 60 mod 60); ":"; zfill 2 (s mod 60);
       (if us mod 10 ^ 6 =? 0 then "" else cat ["."; zfill 6 (us mod 10 ^ 6)])].

Fixpoint cell_str `{FloatText} (c : cell) : string :=
  match c with
  | Plain v => py_str v
  | Stamp d => cat [wall_text (wall d); match utcoffset d with Some o => offset_text o | None => "" end]
  | Row r => "{" +:+ join ", " ((fun kc : string * cell => py_repr_str kc.1 +:+ ": " +:+ cell_str kc.2) <$> r) +:+ "}"
  end.

Definition cell_truthy (c : cell) : bool :=
  match c with
  | Plain v => truthy v
  | Stamp _ => true
  | Row r => match r with [] => false | _ => true end
  end.

(** [value.strftime("%Y-%m-%d %H:%M:%S.") + f"{ms:03d}Z"] in UTC. *)
Definition stamp_text (utc : Z) : string :=
  let '(y, m, d) := civil_of_days (utc / DAY_US) in
  let us := utc mod DAY_US in
  let s := us / 10 ^ 6 in
  cat [str_of_Z y; "-"; zfill 2 m; "-"; zfill 2 d; " ";
       zfill 2 (s / 3600); ":"; zfill 2 (s / 60 mod 60); ":"; zfill 2 (s mod 60); ".";
       zfill 3 (us mod 10 ^ 6 / 1000); "Z"].

(** A row cannot reach [_to_param] whole: it would fail in [json.dumps] or
    be written as an object; the model takes the failure. *)
Definition _to_param `{FloatText} (c : cell) : result macro_exn pyval :=
  match c with
  | Plain (PList l) => Ok (PStr (json_dumps (PList l)))
  | Plain (PDict d) => Ok (PStr (json_dumps (PDict d)))
  | Plain v => Ok v
  | Stamp d =>
      match to_utc d with
      | Ok utc => Ok (PStr (stamp_text utc))
      | Err _ => Err MacroOverflowError
      end
  | Row _ => Err MacroTypeError
  end.

(** [isinstance(record, dict)]: its columns. *)
Definition as_record (c : cell) : option (list (string * cell)) :=
  match c with
  | Row r => Some r
  | Plain (PDict d) => Some ((fun kv => (kv.1, Plain kv.2)) <$> d)
  | _ => None
  end.

(** ** The loader *)
Section Loader.
Context {ft : FloatText} {server : Database}.

Record loader : Type := mkLoader {
  database : db;
  _collections : list (string * option Collection);
  _records : list ((string * string) * option (list (string * cell)));
}.
Definition new_loader (d : db) : loader := mkLoader d [] [].
Abbreviation L := (stm loader macro_exn).

(** Reading fails or not, the answer is kept. *)
Definition collection (id_or_name : string) : L (option Collection) := fun self =>
  match dict_get id_or_name (_collections self) with
  | Some c => (Ok c, self)
  | None =>
      let '(r, d) := fetch_collection id_or_name (database self) in
      let c := match r with Ok c => c | Err _ => None end in
      (Ok c, mkLoader d (_collections self ++ [(id_or_name, c)]) (_records self))
  end.

(** The argument is a value of a schema: a text, or something else that the
    query cannot find; an unhashable one cannot be a key. *)
Definition collection_of (v : pyval) : L (option Collection) :=
  match v with
  | PStr s => collection s
  | _ => if hashable v then mret None else stm_raise MacroTypeError
  end.

Fixpoint record_get (key : string * string) (l : list ((string * string) * option (list (string * cell))))
  : option (option (list (string * cell))) :=
  match l with
  | [] => None
  | (k, r) :: l' =>
      if String.eqb k.1 key.1 && String.eqb k.2 key.2 then Some r else record_get key l'
  end.

Definition record (c : Collection) (record_id : string) : L cell := fun self =>
  let key := (c_name c, record_id) in
  let give r := match r with Some row => Row row | None => Plain PNone end in
  match record_get key (_records self) with
  | Some r => (Ok (give r), self)
  | None =>
      match fetch_record (c_name c) record_id (database self) with
      | (Ok r, d) =>
          let r := match r with Some [] => None | _ => r end in
          (Ok (give r), mkLoader d (_collections self) (_records self ++ [(key, r)]))
      | (Err _, d) => (Err DatabaseError, mkLoader d (_collections self) (_records self))
      end
  end.

(** [definition.get("options") or {}], then its entry or the definition's. *)
Definition options_entry (definition : dict) (key : string) : result macro_exn pyval :=
  match opt_or (dict_get "options" definition) (PDict []) with
  | PDict options => Ok (opt_or (dict_get key options) (default PNone (dict_get key definition)))
  | _ => Err MacroAttributeError
  end.

Definition is_text (s : string) (v : option pyval) : bool :=
  match v with Some (PStr t) => String.eqb t s | _ => false end.

Fixpoint relation_target (fields : list dict) (field_name : string) : result macro_exn pyval :=
  match fields with
  | [] => Ok PNone
  | definition :: rest =>
      if negb (is_text field_name (dict_get "name" definition)) || negb (is_text "relation" (dict_get "type" definition))
      then relation_target rest field_name
      else options_entry definition "collectionId"
  end.
Definition _relation_target (c : Collection) (field_name : string) : result macro_exn pyval :=
  relation_target (schema c) field_name.

(** [value[0] if isinstance(value, list) and value else value] *)
Definition target_id (value : cell) : cell :=
  match value with Plain (PList (x :: _)) => Plain x | _ => value end.

Definition step_into (rec : cell) (segment : string) : option cell :=
  match as_record rec with Some r => dict_get segment r | None => None end.

Fixpoint walk (c : Collection) (value : cell) (field_name : option string) (segments : list string) : L cell :=
  match segments with
  | [] => mret value
  | segment :: rest =>
      match field_name with
      | None =>
          match step_into value segment with
          | None => mret (Plain PNone)
          | Some v => walk c v (Some segment) rest
          end
      | Some f =>
          target ← stm_lift (_relation_target c f);
          let id := target_id value in
          if negb (truthy target) || negb (cell_truthy id) then mret (Plain PNone)
          else if String.eqb segment "id" then walk c id None rest
          else
            found ← collection_of target;
            match found with
            | None => mret (Plain PNone)
            | Some c' =>
                rec ← record c' (cell_str id);
                match step_into rec segment with
                | None => mret (Plain PNone)
                | Some v => walk c' v (Some segment) rest
                end
            end
      end
  end.
Definition _walk (c : Collection) (value : cell) (segments : list string) : L cell :=
  walk c value None segments.

(** ** Finding the macros of a filter *)

(** The longest match of [[A-Za-z0-9_]+(\.[A-Za-z0-9_]+)*]; [seen] says that
    the current segment has a character.  A shorter match is followed by a
    character the lookahead forbids, so the expression never backtracks to
    one. *)
Fixpoint macro_path (seen : bool) (s : string) : string :=
  match s with
  | EmptyString => ""
  | String c s' =>
      if is_safe c then String c (macro_path true s')
      else if seen && Ascii.eqb c dot && match s' with String c' _ => is_safe c' | EmptyString => false end
      then String c (macro_path false s')
      else ""
  end.

Definition lookahead (s : string) : bool :=
  match s with
  | EmptyString => true
  | String c _ => negb (is_safe c || Ascii.eqb c dot || Ascii.eqb c colon)
  end.

Definition macro_at (s : string) : option ((string * string) * nat) :=
  if negb (starts_with "@request." s) then None else
  let r := str_drop 9 s in
  match List.find (fun k => starts_with (k +:+ ".") r) ["auth"; "body"; "data"] with
  | None => None
  | Some source =>
      let path := macro_path false (str_drop 5 r) in
      if String.eqb path "" || negb (lookahead (str_drop (5 + String.length path) r)) then None
      else Some ((source, path), (14 + String.length path)%nat)
  end.

(** [_MACRO_RE.findall(s)]; [skip] characters belong to the last match. *)
Fixpoint findall (skip : nat) (s : string) : list (string * string) :=
  match s with
  | EmptyString => []
  | String _ s' =>
      match skip with
      | S skip' => findall skip' s'
      | O =>
          match macro_at s with
          | Some (m, n) => m :: findall (pred n) s'
          | None => findall 0 s'
          end
      end
  end.

(** ** Resolution *)
Definition _TOKEN_AUTH_FIELDS : list string := ["id"; "collectionId"; "type"].
Definition macro_key (m : string * string) : string := cat ["request."; m.1; "."; m.2].

#[local] Arguments macro_key : simpl never.

(** The part of an iteration for [@request.auth.*]; [None] leaves the macro
    unresolved. *)
Definition resolve_auth (request_context : dict) (path : string) : L (option pyval) :=
  let segments := split_on dot path in
  if bool_decide (List.hd "" segments ∈ _TOKEN_AUTH_FIELDS) && (zlen segments =? 1) then mret None else
  match opt_or (dict_get "auth" request_context) (PDict []) with
  | PDict auth =>
      let id := default PNone (dict_get "id" auth) in
      let collection_id := default PNone (dict_get "collectionId" auth) in
      if negb (truthy id) || negb (truthy collection_id)
      then mret (Some (if String.eqb path "collectionName" then PStr "" else PNone))
      else
        auth_collection ← collection (py_str collection_id);
        match auth_collection with
        | None => mret None
        | Some c =>
            if String.eqb path "collectionName" then mret (Some (PStr (c_name c))) else
            rec ← record c (py_str id);
            v ← _walk c rec segments;
            p ← stm_lift (_to_param v);
            mret (Some p)
        end
  | _ => stm_raise MacroAttributeError
  end.

Definition resolve_body (request_context : dict) (target : option Collection) (path : string)
  : L (option pyval) :=
  let segments := split_on dot path in
  if zlen segments =? 1 then mret None else
  match target, opt_or (dict_get "data" request_context) (PDict []) with
  | Some c, PDict data =>
      let first := List.hd "" segments in
      match dict_get first data with
      | None => mret (Some PNone)
      | Some x =>
          v ← _walk c (Plain (PDict [(first, x)])) segments;
          p ← stm_lift (_to_param v);
          mret (Some p)
      end
  | _, _ => mret None
  end.

Definition resolve_macro (request_context : dict) (target : option Collection) (m : string * string)
  : L (option pyval) :=
  if String.eqb m.1 "auth" then resolve_auth request_context m.2
  else resolve_body request_context target m.2.

(** The loop over the matches; [resolved] is the dict of the context. *)
Fixpoint resolve_matches (request_context : dict) (target : option Collection)
    (matches : list (string * string)) (resolved : dict) : L dict :=
  match matches with
  | [] => mret resolved
  | m :: rest =>
      if dict_mem (macro_key m) resolved then resolve_matches request_context target rest resolved else
      v ← resolve_macro request_context target m;
      resolve_matches request_context target rest
        (match v with Some p => dict_set (macro_key m) p resolved | None => resolved end)
  end.

(** The iteration order of [set(matches)] is a parameter.  The result is the
    changed context; [None] stands for a context that is no dict. *)
Definition resolve_request_macros (set_order : list (string * string) -> list (string * string))
    (filter_str : option string) (request_context : option dict) (target : option Collection)
  : L (option dict) :=
  match filter_str, request_context with
  | Some f, Some context =>
      if negb (contains "@request." f) then mret request_context else
      match findall 0 f with
      | [] => mret request_context
      | found =>
          resolved ← match dict_get "resolved_macros" context with
                     | None => mret []
                     | Some (PDict d) => mret d
                     | Some _ => stm_raise MacroTypeError
                     end;
          resolved' ← resolve_matches context target (set_order (remove_dups found)) resolved;
          mret (Some (dict_set "resolved_macros" (PDict resolved') context))
      end
  | _, _ => mret request_context
  end.

(** * One snapshot per resolution *)

(** What a loader has read, as functions. *)
Definition known_collection (ld : loader) (id : string) : option Collection :=
  default None (dict_get id (_collections ld)).
Definition known_record (ld : loader) (name id : string) : cell :=
  match default None (record_get (name, id) (_records ld)) with
  | Some row => Row row
  | None => Plain PNone
  end.

(** [ld'] knows all that [ld] knows. *)
Record extends (ld ld' : loader) : Prop := {
  ext_collections id c : dict_get id (_collections ld) = Some c -> dict_get id (_collections ld') = Some c;
  ext_records key r : record_get key (_records ld) = Some r -> record_get key (_records ld') = Some r;
}.
#[export] Instance extends_preorder : PreOrder extends.
Proof.
  split.
  - by intros ld.
  - intros a b c [H1 H2] [H3 H4]. split; eauto.
Qed.

(** A computation that only reads through the loader: whatever it answers, an
    exception included, it answers the same over what any later state of the
    loader knows.  A failed query of a record is the one exception that is
    not kept. *)
Definition reads {A} (m : L A) (spec : loader -> result macro_exn A) : Prop :=
  forall ld r ld', m ld = (r, ld') -> r <> Err DatabaseError ->
    extends ld ld' /\ forall later, extends ld' later -> spec later = r.

Lemma reads_ret {A} (a : A) : reads (mret a) (fun _ => Ok a).
Proof. intros ld r ld' Hm _. injection Hm as <- <-. by split. Qed.
Lemma reads_lift {A} (r : result macro_exn A) : reads (stm_lift r) (fun _ => r).
Proof. intros ld r' ld' Hm _. injection Hm as -> <-. by split. Qed.
Lemma reads_raise {A} e : reads (stm_raise e : L A) (fun _ => Err e).
Proof. intros ld r ld' Hm _. injection Hm as <- <-. by split. Qed.
Lemma reads_bind {A B} (m : L A) (f : A -> L B) spec (specf : A -> loader -> result macro_exn B) :
  reads m spec -> (forall a, reads (f a) (specf a)) ->
  reads (m ≫= f) (fun later => spec later ≫= fun a => specf a later).
Proof.
  intros Hm Hf ld r ld' H Hr. unfold mbind, stm_bind in H.
  destruct (m ld) as [[a|e] ld1] eqn:Hx.
  - destruct (Hm _ _ _ Hx) as [He1 Hs1]; [done|]. destruct (Hf _ _ _ _ H Hr) as [He2 Hs2].
    split; [by transitivity ld1|]. intros later Hl. rewrite Hs1 by (by transitivity ld'). by apply Hs2.
  - injection H as <- <-. destruct (Hm _ _ _ Hx) as [He1 Hs1]; [congruence|].
    split; [done|]. intros later Hl. by rewrite Hs1.
Qed.

Lemma record_get_app k l1 l2 :
  record_get k (l1 ++ l2) = match record_get k l1 with Some v => Some v | None => record_get k l2 end.
Proof. induction l1 as [|[k' v] l1 IH]; cbn; [done|]. by destruct (_ && _). Qed.

Lemma reads_collection id : reads (collection id) (fun later => Ok (known_collection later id)).
Proof.
  intros ld c ld' Hm _. unfold collection in Hm.
  destruct (dict_get id (_collections ld)) as [c0|] eqn:Hc.
  - injection Hm as <- <-. split; [done|]. intros later [He _]. unfold known_collection. by rewrite (He _ _ Hc).
  - destruct (fetch_collection id (database ld)) as [r d]. injection Hm as <- <-. split.
    + split; cbn; [|done]. intros id' c' H. by rewrite dict_get_app, H.
    + intros later [He _]. unfold known_collection. erewrite He; [done|]. cbn.
      rewrite dict_get_app, Hc. cbn. by rewrite String.eqb_refl.
Qed.

Lemma reads_record c id : reads (record c id) (fun later => Ok (known_record later (c_name c) id)).
Proof.
  intros ld v ld' Hm Hr. unfold record in Hm.
  destruct (record_get (c_name c, id) (_records ld)) as [r0|] eqn:Hc.
  - injection Hm as <- <-. split; [done|]. intros later [_ He]. unfold known_record. by rewrite (He _ _ Hc).
  - destruct (fetch_record (c_name c) id (database ld)) as [[r|e] d]; [|by injection Hm as <- _]. injection Hm as <- <-. split.
    + split; cbn; [done|]. intros k' r' H. by rewrite record_get_app, H.
    + intros later [_ He]. unfold known_record. erewrite He; [done|]. cbn.
      rewrite record_get_app, Hc. cbn. by rewrite !String.eqb_refl.
Qed.

Lemma reads_collection_then {B} id (f : option Collection -> L B) specf :
  (forall c, reads (f c) (specf c)) ->
  reads (collection id ≫= f) (fun ld => specf (known_collection ld id) ld).
Proof. exact (reads_bind _ _ _ _ (reads_collection id)). Qed.

(** ** The value of a path over a snapshot *)
Section Snapshot.
Context (ld : loader).

Definition collection_of_in (v : pyval) : result macro_exn (option Collection) :=
  match v with
  | PStr s => Ok (known_collection ld s)
  | _ => if hashable v then Ok None else Err MacroTypeError
  end.

(** The record a relation value points to, in the collection that the field
    [f] of [c] names; [None] when there is none. *)
Definition related (c : Collection) (f : string) (value : cell) : result macro_exn (option (Collection * cell)) :=
  target ← _relation_target c f;
  if negb (truthy target) || negb (cell_truthy (target_id value)) then Ok None else
  found ← collection_of_in target;
  match found with
  | Some c' => Ok (Some (c', known_record ld (c_name c') (cell_str (target_id value))))
  | None => Ok None
  end.

Fixpoint walk_in (c : Collection) (value : cell) (field_name : option string) (segments : list string)
  : result macro_exn cell :=
  match segments with
  | [] => Ok value
  | segment :: rest =>
      match field_name with
      | None =>
          match step_into value segment with
          | None => Ok (Plain PNone)
          | Some v => walk_in c v (Some segment) rest
          end
      | Some f =>
          if String.eqb segment "id" then
            target ← _relation_target c f;
            if negb (truthy target) || negb (cell_truthy (target_id value)) then Ok (Plain PNone)
            else walk_in c (target_id value) None rest
          else
            found ← related c f value;
            match found with
            | None => Ok (Plain PNone)
            | Some (c', rec) =>
                match step_into rec segment with
                | None => Ok (Plain PNone)
                | Some v => walk_in c' v (Some segment) rest
                end
            end
      end
  end.

Definition auth_in (request_context : dict) (path : string) : result macro_exn (option pyval) :=
  let segments := split_on dot path in
  if bool_decide (List.hd "" segments ∈ _TOKEN_AUTH_FIELDS) && (zlen segments =? 1) then Ok None else
  match opt_or (dict_get "auth" request_context) (PDict []) with
  | PDict auth =>
      let id := default PNone (dict_get "id" auth) in
      let collection_id := default PNone (dict_get "collectionId" auth) in
      if negb (truthy id) || negb (truthy collection_id)
      then Ok (Some (if String.eqb path "collectionName" then PStr "" else PNone))
      else
        match known_collection ld (py_str collection_id) with
        | None => Ok None
        | Some c =>
            if String.eqb path "collectionName" then Ok (Some (PStr (c_name c)))
            else
             v ← walk_in c (known_record ld (c_name c) (py_str id)) None segments;
             p ← _to_param v;
             Ok (Some p)
        end
  | _ => Err MacroAttributeError
  end.

Definition body_in (request_context : dict) (target : option Collection) (path : string)
  : result macro_exn (option pyval) :=
  let segments := split_on dot path in
  if zlen segments =? 1 then Ok None else
  match target, opt_or (dict_get "data" request_context) (PDict []) with
  | Some c, PDict data =>
      match dict_get (List.hd "" segments) data with
      | None => Ok (Some PNone)
      | Some x =>
          v ← walk_in c (Plain (PDict [(List.hd "" segments, x)])) None segments;
          p ← _to_param v;
          Ok (Some p)
      end
  | _, _ => Ok None
  end.

Definition macro_in (request_context : dict) (target : option Collection) (m : string * string)
  : result macro_exn (option pyval) :=
  if String.eqb m.1 "auth" then auth_in request_context m.2 else body_in request_context target m.2.
End Snapshot.

Lemma reads_collection_of v : reads (collection_of v) (fun ld => collection_of_in ld v).
Proof.
  destruct v; cbn -[hashable]; try (case_ifs; [apply reads_ret|apply reads_raise]). apply reads_collection.
Qed.

(** Rewriting the specification of [reads]. *)
Lemma reads_ext {A} (m : L A) spec spec' : reads m spec -> (forall ld, spec ld = spec' ld) -> reads m spec'.
Proof. intros Hm He ld r ld' H Hr. destruct (Hm _ _ _ H Hr). split; [done|]. intros. rewrite <- He. auto. Qed.

Lemma reads_walk segments : forall c value f,
  reads (walk c value f segments) (fun ld => walk_in ld c value f segments).
Proof.
  induction segments as [|segment rest IH]; intros c value f; cbn [walk walk_in]; [apply reads_ret|].
  destruct f as [f|].
  2: { destruct (step_into value segment); [apply IH|apply reads_ret]. }
  destruct (String.eqb segment "id").
  - eapply reads_ext.
    { apply reads_bind; [apply reads_lift|]. intros target.
      instantiate (1 := fun target ld => if negb (truthy target) || negb (cell_truthy (target_id value))
        then Ok (Plain PNone) else walk_in ld c (target_id value) None rest).
      cbv beta. destruct (_ || _); [apply reads_ret|apply IH]. }
    intros ld. done.
  - eapply reads_ext.
    { apply reads_bind; [apply reads_lift|]. intros target.
      instantiate (1 := fun target ld => if negb (truthy target) || negb (cell_truthy (target_id value))
        then Ok (Plain PNone)
        else found ← collection_of_in ld target;
             match found with
             | None => Ok (Plain PNone)
             | Some c' =>
                 rec ← Ok (known_record ld (c_name c') (cell_str (target_id value)));
                 match step_into rec segment with
                 | None => Ok (Plain PNone)
                 | Some v => walk_in ld c' v (Some segment) rest
                 end
             end).
      cbv beta. destruct (_ || _); [apply reads_ret|]. apply reads_bind; [apply reads_collection_of|].
      intros [c'|]; [|apply reads_ret].
      apply (reads_bind _ _ _ (fun rec ld => match step_into rec segment with
        | None => Ok (Plain PNone) | Some v => walk_in ld c' v (Some segment) rest end)); [apply reads_record|].
      intros rec. destruct (step_into rec segment); [apply IH|apply reads_ret]. }
    intros ld. unfold related. destruct (_relation_target c f) as [target|e]; [cbn|done].
    destruct (_ || _); [done|]. by destruct (collection_of_in ld target) as [[c'|]|e].
Qed.

Lemma reads_to_param {A} (m : L cell) (spec : loader -> result macro_exn cell) (k : pyval -> A) :
  reads m spec ->
  reads (v ← m; p ← stm_lift (_to_param v); mret (k p)) (fun ld => v ← spec ld; p ← _to_param v; Ok (k p)).
Proof.
  intros Hm. apply (reads_bind _ _ _ (fun v _ => p ← _to_param v; Ok (k p)) Hm). intros v.
  apply (reads_bind _ _ _ (fun p _ => Ok (k p))); [apply reads_lift|intros p; apply reads_ret].
Qed.

Lemma reads_macro request_context target m :
  reads (resolve_macro request_context target m) (fun ld => macro_in ld request_context target m).
Proof.
  unfold resolve_macro, macro_in. destruct (String.eqb m.1 "auth").
  - unfold resolve_auth, auth_in. destruct (_ && _); [apply reads_ret|].
    destruct (opt_or _ _) as [| | | | | |auth]; try apply reads_raise.
    destruct (_ || _); [apply reads_ret|].
    eapply reads_ext.
    { apply reads_bind; [apply reads_collection|]. intros c.
      instantiate (1 := fun c ld => match c with
        | None => Ok None
        | Some c => if String.eqb m.2 "collectionName" then Ok (Some (PStr (c_name c))) else
            rec ← Ok (known_record ld (c_name c) (py_str (default PNone (dict_get "id" auth))));
            v ← walk_in ld c rec None (split_on dot m.2);
            p ← _to_param v; Ok (Some p) end).
      destruct c as [c|]; [|apply reads_ret].
      destruct (String.eqb m.2 "collectionName"); [apply reads_ret|].
      apply (reads_bind _ _ _ (fun rec ld => v ← walk_in ld c rec None (split_on dot m.2);
        p ← _to_param v; Ok (Some p))); [apply reads_record|].
      intros rec. apply (reads_to_param _ _ Some), reads_walk. }
    intros ld. done.
  - unfold resolve_body, body_in. destruct (_ =? _); [apply reads_ret|].
    destruct target as [c|]; [|apply reads_ret].
    destruct (opt_or _ _) as [| | | | | |data]; try apply reads_ret.
    destruct (dict_get _ data); [|apply reads_ret]. apply (reads_to_param _ _ Some), reads_walk.
Qed.

(** The loop leaves the entries it finds, and gives every macro the value of
    one snapshot. *)
Lemma resolve_matches_spec request_context target ms : forall resolved ld resolved' ld',
  NoDup (macro_key <$> ms) ->
  resolve_matches request_context target ms resolved ld = (Ok resolved', ld') ->
  extends ld ld' /\
  (forall key v, dict_get key resolved = Some v -> dict_get key resolved' = Some v) /\
  (forall m later, m ∈ ms -> dict_get (macro_key m) resolved = None -> extends ld' later ->
     macro_in later request_context target m = Ok (dict_get (macro_key m) resolved')) /\
  (forall key, key ∉ macro_key <$> ms -> dict_get key resolved' = dict_get key resolved).
Proof.
  induction ms as [|m ms IH]; intros resolved ld resolved' ld' Hnd Hm; cbn in Hm.
  { injection Hm as <- <-. split_and!; [done|done|intros ? ? ?%elem_of_nil; done|done]. }
  rewrite fmap_cons in Hnd. apply NoDup_cons in Hnd as [Hnew Hnd]. unfold dict_mem in Hm.
  destruct (dict_get (macro_key m) resolved) as [v0|] eqn:Hk.
  { destruct (IH _ _ _ _ Hnd Hm) as (He & Hkeep & Hval & Hother). split_and!; [done|done| |].
    - intros m' later [-> |Hin]%elem_of_cons Hnone Hl; [congruence|by apply Hval].
    - intros key Hkey. apply Hother. rewrite fmap_cons in Hkey. set_solver. }
  sbind_ok Hm as v ld1 Hv. destruct (reads_macro _ _ _ _ _ _ Hv) as [He1 Hs1]; [done|].
  destruct (IH _ _ _ _ Hnd Hm) as (He & Hkeep & Hval & Hother). clear IH.
  assert (forall key, key <> macro_key m ->
    dict_get key (match v with Some p => dict_set (macro_key m) p resolved | None => resolved end)
    = dict_get key resolved) as Hne.
  { intros key Hkey. destruct v; [by rewrite dict_get_set_ne|done]. }
  split_and!.
  - by transitivity ld1.
  - intros key w Hw. apply Hkeep. rewrite Hne; [done|]. congruence.
  - intros m' later [-> |Hin]%elem_of_cons Hnone Hl.
    + rewrite Hs1 by (by transitivity ld'). rewrite Hother by done. f_equal.
      destruct v; [by rewrite dict_get_set_eq|done].
    + apply Hval; [done| |done]. rewrite Hne; [done|]. intros Heq. apply Hnew. rewrite <- Heq.
      apply list_elem_of_fmap. by exists m'.
  - intros key Hkey. rewrite fmap_cons in Hkey. rewrite Hother by set_solver. apply Hne. set_solver.
Qed.

Lemma findall_source skip s m : m ∈ findall skip s -> m.1 ∈ ["auth"; "body"; "data"].
Proof.
  revert skip; induction s as [|c s IH]; intros skip; [by intros ?%elem_of_nil|]. cbn [findall].
  destruct skip; [|apply IH]. destruct (macro_at (String c s)) as [[m' n]|] eqn:Hm; [|apply IH].
  intros [-> |Hin]%elem_of_cons; [|by eapply IH]. unfold macro_at in Hm.
  destruct (negb _); [done|]. destruct (List.find _ _) as [source|] eqn:Hf; [|done].
  destruct (_ || _); [done|]. injection Hm as <- _. cbn.
  apply List.find_some in Hf as [Hf _]. by apply list_elem_of_In.
Qed.

Lemma macro_key_inj m1 m2 :
  m1.1 ∈ ["auth"; "body"; "data"] -> m2.1 ∈ ["auth"; "body"; "data"] -> macro_key m1 = macro_key m2 -> m1 = m2.
Proof.
  destruct m1 as [s1 p1], m2 as [s2 p2]. cbn [fst]. rewrite !elem_of_cons, !elem_of_nil.
  unfold macro_key. intros [-> |[-> |[-> |[]]]] [-> |[-> |[-> |[]]]]; cbn; intros Heq; try discriminate Heq;
    injection Heq as Heq; rewrite !append_nil_r in Heq; by subst.
Qed.

(** Every macro is resolved, on one snapshot.  Whatever changes between
    its queries, when [resolve_request_macros] returns, every macro of the
    filter that the context had not resolved has the value of its path over
    what the loader knows at the end: the record of the token or the payload,
    then one related record per segment, NULL from the first segment that
    leads nowhere.  The macros the context had resolved, and every other
    entry, are untouched. *)
Theorem macros_resolved_on_snapshot set_order f context target ld context' ld' :
  (forall l, set_order l ≡ₚ l) -> contains "@request." f = true ->
  resolve_request_macros set_order (Some f) (Some context) target ld = (Ok (Some context'), ld') ->
  findall 0 f = [] /\ context' = context \/
  exists before after,
    dict_get "resolved_macros" context = PDict <$> before /\
    context' = dict_set "resolved_macros" (PDict after) context /\
    (forall key v, dict_get key (default [] before) = Some v -> dict_get key after = Some v) /\
    (forall m, m ∈ findall 0 f -> dict_get (macro_key m) (default [] before) = None ->
       macro_in ld' context target m = Ok (dict_get (macro_key m) after)) /\
    (forall key, key ∉ macro_key <$> findall 0 f -> dict_get key after = dict_get key (default [] before)).
Proof.
  intros Hord Hc. unfold resolve_request_macros. rewrite Hc. cbn [negb].
  pose proof (findall_source 0 f) as Hsrc. destruct (findall 0 f) as [|m0 ms0] eqn:Hf.
  { intros [= <- <-]. by left. }
  rewrite <- Hf in *. clear Hf m0 ms0. intros H. right. sbind_ok H as resolved ld0 Hb.
  sbind_ok H as after ld1 Hr. injection H as <- <-.
  assert (exists before, dict_get "resolved_macros" context = PDict <$> before /\ resolved = default [] before)
    as (before & Hbefore & ->).
  { destruct (dict_get "resolved_macros" context) as [[| | | | | |d]|]; try discriminate Hb;
      injection Hb as <- _; [by exists (Some d)|by exists None]. }
  exists before, after. split; [done|]. split; [done|].
  assert (forall m, m ∈ set_order (remove_dups (findall 0 f)) <-> m ∈ findall 0 f) as Hin.
  { intros m. by rewrite Hord, elem_of_remove_dups. }
  apply resolve_matches_spec in Hr as (_ & Hkeep & Hval & Hother).
  - split_and!; [done| |].
    + intros m Hm Hnone. by apply Hval; [apply Hin| |].
    + intros key Hkey. apply Hother. intros (m & -> & Hm%Hin)%list_elem_of_fmap.
      apply Hkey, list_elem_of_fmap. by exists m.
  - apply NoDup_fmap_2_strong.
    + intros m1 m2 H1%Hin%Hsrc H2%Hin%Hsrc. by apply macro_key_inj.
    + rewrite Hord. apply NoDup_remove_dups.
Qed.
End Loader.
