(* ===== verification/ClientFilterGuard.v ===== *)
(** * Access to records (ppbase/services/rule_engine.py,
      ppbase/services/client_filter_guard.py, and the list handler of
      ppbase/api/records.py that puts them together)

    The rule of a collection decides whether a request may list it; the guard
    checks the client's own filter and sort before they are parsed.  Lark's
    parser and the order of its [iter_subtrees] are parameters; the database
    and the loader are those of [RequestMacros]. *)
From Stdlib Require Import Ascii String.
From S2P Require Import Prelude PyText PyVal FilterParser RequestMacros.
#[local] Open Scope string_scope.
#[local] Open Scope list_scope.
#[local] Open Scope Z_scope.

(** ** Rules (rule_engine.py) *)

(** [True], [False] or the filter to apply. *)
Inductive access : Type :=
| Allowed
| Denied
| Filtered (rule : string).

Definition is_admin (auth_context : option dict) : bool :=
  match auth_context with
  | Some context => truthy (default PNone (dict_get "is_admin" context))
  | None => false
  end.

Definition check_rule (rule : option string) (auth_context : option dict) : access :=
  match rule with
  | None => if is_admin auth_context then Allowed else Denied
  | Some r =>
      if String.eqb r "" then Allowed
      else if is_admin auth_context then Allowed
      else Filtered r
  end.

Definition claim (payload : dict) (key : string) : pyval := default (PStr "") (dict_get key payload).

(** [admin] is the id and the e-mail of an [AdminRecord]. *)
Definition build_auth_context (token_payload : option dict) (admin : option (string * string)) : option dict :=
  match admin with
  | Some (id, email) =>
      Some [("is_admin", PBool true); ("@request.auth.id", PStr id); ("@request.auth.email", PStr email)]
  | None =>
      match token_payload with
      | None => None
      | Some p =>
          Some [("is_admin", PBool false); ("@request.auth.id", claim p "id");
                ("@request.auth.collectionId", claim p "collectionId"); ("@request.auth.type", claim p "type")]
      end
  end.

(** The auth context that the record handlers use (records.py). *)
Definition superuser_payload (p : dict) : bool :=
  is_text "admin" (dict_get "type" p)
  || (is_text "authRecord" (dict_get "type" p) && is_text "_superusers" (dict_get "collectionName" p)).
Definition rule_auth_context (token_payload : option dict) : option dict :=
  match token_payload with
  | None => None
  | Some p =>
      if superuser_payload p
      then Some [("is_admin", PBool true); ("@request.auth.id", claim p "id");
                 ("@request.auth.email", claim p "email")]
      else Some [("is_admin", PBool false); ("@request.auth.id", claim p "id");
                 ("@request.auth.collectionId", claim p "collectionId");
                 ("@request.auth.collectionName", claim p "collectionName");
                 ("@request.auth.type", claim p "type")]
  end.

(** ** The guard (client_filter_guard.py) *)
Definition PROTECTED_FIELDS : list string := ["password"; "password_hash"; "passwordHash"; "tokenKey"; "token_key"].
Definition _BASE_FIELDS : list string := ["id"; "created"; "updated"].
Definition _AUTH_FIELDS : list string := ["email"; "emailVisibility"; "email_visibility"; "verified"].

(** Names are texts: another truthy value is a key no segment equals. *)
Fixpoint schema_fields_go (fields : list dict) (acc : list (string * dict)) : result macro_exn (list (string * dict)) :=
  match fields with
  | [] => Ok acc
  | definition :: rest =>
      match dict_get "name" definition with
      | Some v =>
          if negb (truthy v) then schema_fields_go rest acc
          else if negb (hashable v) then Err MacroTypeError
          else match v with
               | PStr name => schema_fields_go rest (dict_set name definition acc)
               | _ => schema_fields_go rest acc
               end
      | None => schema_fields_go rest acc
      end
  end.
Definition _schema_fields (c : Collection) : result macro_exn (list (string * dict)) :=
  schema_fields_go (schema c) [].

(** [s.split(":", 1)[0]] *)
Definition before_colon (s : string) : string := (py_partition ":" s).1.

(** A reference: the collection it starts in ([None] for the one that is
    listed) and its segments. *)
Definition reference : Type := option string * list string.

Fixpoint lstrip_at (s : string) : string :=
  match s with
  | String c s' => if Ascii.eqb c (char 64) then lstrip_at s' else s
  | EmptyString => ""
  end.

Definition operand_reference (o : operand) : option reference :=
  match o with
  | field_path_node items => Some (None, before_colon <$> items)
  | macro_node item =>
      let name := lstrip_at item in
      if negb (starts_with "collection." name) then None else
      match split_on dot name with
      | _ :: target :: ((_ :: _) as segments) =>
          Some (Some (before_colon target),
                before_colon <$> List.filter (fun p => negb (String.eqb p "")) segments)
      | _ => None
      end
  | _ => None
  end.

(** The operands of a tree, left to right. *)
Fixpoint tree_operands (t : tree) : list operand :=
  let all := fix all (l : list tree) : list operand :=
    match l with [] => [] | t :: l' => tree_operands t ++ all l' end in
  match t with
  | or_node children => all children
  | and_node children => all children
  | comparison_node l _ r => [l; r]
  end.

(** What the guard takes from Lark besides the tree: the order in which
    [iter_subtrees] visits it, and the text of a syntax error. *)
Class SubtreeOrder : Type := {
  subtree_order : list operand -> list operand;
  syntax_text : string -> string;
}.

Section Guard.
Context {ft : FloatText} {server : Database} {grammar : FilterGrammar} {visit : SubtreeOrder}.
Abbreviation L := (stm loader macro_exn).

Definition invalid {A} (what name : string) : L A :=
  stm_raise (MacroValueError (cat ["Invalid filter "; what; ": "; name; "."])).

Definition _paths (filter_str : string) : result macro_exn (list reference) :=
  match lark_parse filter_str with
  | None => Err (MacroValueError ("Invalid filter syntax: " +:+ syntax_text filter_str))
  | Some root => Ok (omap operand_reference (subtree_order (concat (tree_operands <$> root))))
  end.

Definition plus_or_minus (c : ascii) : bool := Ascii.eqb c (char 43) || Ascii.eqb c (char 45).
Definition _sort_paths (sort_str : string) : list (list string) :=
  omap (fun part =>
    let part := py_lstrip_chars plus_or_minus (py_strip part) in
    if String.eqb part "" || starts_with "@" part then None else Some (split_on dot part))
  (split_on (char 44) sort_str).

Definition system_fields (c : Collection) : list string :=
  _BASE_FIELDS ++ (if String.eqb (c_type c) "auth" then _AUTH_FIELDS else []).

#[local] Arguments system_fields : simpl never.

(** The identifier of a relation's target, or the empty text. *)
Definition guard_target (definition : dict) : result macro_exn pyval :=
  target ← options_entry definition "collectionId";
  Ok (py_or target (PStr "")).

Fixpoint _check_path (current : Collection) (segments : list string) (allow_hidden : bool) : L unit :=
  match segments with
  | [] => mret tt
  | segment :: rest =>
      if bool_decide (segment ∈ PROTECTED_FIELDS) then invalid "field" segment
      else if contains "_via_" segment then
        let '(target_name, via_field) := py_partition "_via_" segment in
        target ← collection target_name;
        match target with
        | None => invalid "field" segment
        | Some t =>
            fields ← stm_lift (_schema_fields t);
            if negb (dict_mem via_field fields) then invalid "field" segment
            else _check_path t rest allow_hidden
        end
      else
        fields ← stm_lift (_schema_fields current);
        if bool_decide (segment ∈ system_fields current) then mret tt else
        match dict_get segment fields with
        | None => invalid "field" segment
        | Some definition =>
            if truthy (default PNone (dict_get "hidden" definition)) && negb allow_hidden
            then invalid "field" segment
            else
              match rest with
              | [] => mret tt
              | _ =>
                  if negb (is_text "relation" (dict_get "type" definition)) then mret tt else
                  id ← stm_lift (guard_target definition);
                  target ← collection_of id;
                  match target with
                  | None => invalid "field" segment
                  | Some t => _check_path t rest allow_hidden
                  end
              end
        end
  end.

(** One iteration of the loop over the references. *)
Definition check_reference (c : Collection) (is_superuser : bool) (r : reference) : L unit :=
  match r.2 with
  | [] => mret tt
  | _ =>
      start ← match r.1 with None => mret (Some c) | Some name => collection name end;
      match start with
      | None => invalid "collection" (default "None" r.1)
      | Some s => _check_path s r.2 is_superuser
      end
  end.

(** The references of a client's filter and sort. *)
Definition text_given (s : option string) : option string :=
  match s with Some t => if String.eqb t "" then None else Some t | None => None end.
Definition references (filter_str sort_str : option string) : result macro_exn (list reference) :=
  from_filter ← match text_given filter_str with Some f => _paths f | None => Ok [] end;
  Ok (from_filter ++ match text_given sort_str with
                     | Some s => (fun path => (None, path)) <$> _sort_paths s
                     | None => []
                     end).

Definition assert_client_query_allowed (c : Collection) (filter_str sort_str : option string)
    (is_superuser : bool) : L unit :=
  refs ← stm_lift (references filter_str sort_str);
  stm_iter (check_reference c is_superuser) refs.

(** ** The list handler (records.py) *)
Inductive list_answer : Type :=
| Forbidden                            (* 403 *)
| BadRequest (message : string)        (* 400 *)
| ListRecords (effective_filter : option string).

Definition effective_filter (rule : access) (client : option string) : option string :=
  match rule with
  | Filtered r =>
      match text_given client with
      | Some f => Some (cat ["("; r; ") && ("; f; ")"])
      | None => Some r
      end
  | _ => client
  end.

(** The handler up to its call of [list_records], over a new loader. *)
Definition list_query (c : Collection) (list_rule : option string) (token_payload : option dict)
    (filter_str sort_str : option string) (d : db) : result macro_exn list_answer :=
  let auth := rule_auth_context token_payload in
  match check_rule list_rule auth with
  | Denied => Ok Forbidden
  | rule =>
      match (assert_client_query_allowed c filter_str sort_str (is_admin auth) (new_loader d)).1 with
      | Err (MacroValueError m) => Ok (BadRequest m)
      | Err e => Err e
      | Ok _ => Ok (ListRecords (effective_filter rule filter_str))
      end
  end.

(** * What the guard allows *)
Section Snapshot.
Context (ld : loader) (allow_hidden : bool).

Definition hidden (definition : dict) : bool := truthy (default PNone (dict_get "hidden" definition)).
Definition is_relation (definition : dict) : bool := is_text "relation" (dict_get "type" definition).
(** The names that no client may use, and those of every collection. *)
Definition secret_names : list string := ["password"; "password_hash"; "passwordHash"; "tokenKey"; "token_key"].
Definition system_names (c : Collection) : list string :=
  ["id"; "created"; "updated"] ++ (if String.eqb (c_type c) "auth" then ["email"; "emailVisibility"; "email_visibility"; "verified"] else []).
#[local] Arguments system_names : simpl never.
(** The collection that a relation names, in its options or beside them. *)
Definition truthy_or (v : option pyval) (other : pyval) : pyval :=
  match v with Some v => if truthy v then v else other | None => other end.
Definition relation_to (definition : dict) (id : pyval) : Prop :=
  dict_get "type" definition = Some (PStr "relation") /\
  exists options, truthy_or (dict_get "options" definition) (PDict []) = PDict options /\
    id = truthy_or (dict_get "collectionId" options) (truthy_or (dict_get "collectionId" definition) (PStr "")).

(** A path from a collection, over what the loader knows: every segment it
    visits is a known field that is not protected, and not hidden unless that
    is allowed; it follows relations and back-relations, and it stops at a
    system field or at a field that is no relation. *)
Inductive allowed : Collection -> list string -> Prop :=
| allowed_end c : allowed c []
| allowed_back_relation c segment rest target fields :
    segment ∉ secret_names -> contains "_via_" segment = true ->
    known_collection ld (py_partition "_via_" segment).1 = Some target ->
    _schema_fields target = Ok fields -> dict_mem (py_partition "_via_" segment).2 fields = true ->
    allowed target rest -> allowed c (segment :: rest)
| allowed_system c segment rest fields :
    segment ∉ secret_names -> contains "_via_" segment = false -> _schema_fields c = Ok fields ->
    segment ∈ system_names c -> allowed c (segment :: rest)
| allowed_field c segment rest fields definition :
    segment ∉ secret_names -> contains "_via_" segment = false -> _schema_fields c = Ok fields ->
    dict_get segment fields = Some definition -> hidden definition && negb allow_hidden = false ->
    rest = [] \/ dict_get "type" definition <> Some (PStr "relation") -> allowed c (segment :: rest)
| allowed_relation c segment rest fields definition id target :
    segment ∉ secret_names -> contains "_via_" segment = false -> _schema_fields c = Ok fields ->
    dict_get segment fields = Some definition -> hidden definition && negb allow_hidden = false ->
    relation_to definition id ->
    collection_of_in ld id = Ok (Some target) -> allowed target rest -> allowed c (segment :: rest).

Definition reference_allowed (c : Collection) (r : reference) : Prop :=
  r.2 = [] \/
  exists start, match r.1 with None => Some c | Some name => known_collection ld name end = Some start /\
    allowed start r.2.





End Snapshot.







(** ** What the guard does not look at *)

Lemma first_bad_app p s t :
  first_bad p (s +:+ t) = match first_bad p s with Some c => Some c | None => first_bad p t end.
Proof.
  induction s as [|c s IH]; [done|]. change (String c s +:+ t) with (String c (s +:+ t)). cbn.
  by destruct (p c).
Qed.
Lemma first_bad_weaker (p q : ascii -> bool) s :
  (forall c, p c = true -> q c = true) -> first_bad p s = None -> first_bad q s = None.
Proof.
  intros Hpq. induction s as [|c s IH]; [done|]. cbn. destruct (p c) eqn:Hc; [|done].
  by rewrite (Hpq _ Hc).
Qed.
Lemma sanitized s : _sanitize_ident s = Ok s -> first_bad is_safe s = None.
Proof. unfold _sanitize_ident. by destruct (first_bad is_safe s). Qed.
Lemma rsplit_safe s : first_bad is_safe s = None -> rsplit_colon s = None.
Proof.
  induction s as [|c s IH]; [done|]. cbn [first_bad rsplit_colon]. destruct (is_safe c) eqn:Hc; [|done].
  intros H1.
  rewrite (IH H1). destruct (Ascii.eqb_spec c colon) as [->|]; [by vm_compute in Hc|done].
Qed.

(** A path through a field that is no relation is not checked further,
    and the parser writes it into the SQL as it is.  In a collection with a
    visible field [f] that is neither a relation nor JSON, the guard accepts
    [f.g] for every [g], a protected name included, and the parser's operand
    is the text [f.g] unquoted: when [f] is also the name of a table of the
    query, that is a column of it. *)
Theorem table_qualified_path (self : config) `{IsoFormat} c f g fields definition t :
  _schema_fields c = Ok fields -> dict_get f fields = Some definition ->
  f ∉ PROTECTED_FIELDS -> contains "_via_" f = false ->
  hidden definition = false -> is_relation definition = false ->
  _sanitize_ident f = Ok f -> _sanitize_ident g = Ok g ->
  _current_table self = Some t -> _sanitize_ident t = Ok t ->
  _is_flat_resolver (_relation_resolver self) = true ->
  dict_get f (_flat_fields (_relation_resolver self) t) = Some (PDict definition) ->
  (exists type, dict_get "type" definition = Some (PStr type) /\ type <> "json" /\ type <> "geoPoint") ->
  _flat_relation_info (_relation_resolver self) t f = None ->
  (forall ld is_superuser, reference_allowed ld is_superuser c (None, [f; g])) /\
  field_path self [f; g] = Ok (Field (join "." [f; g]) "") /\
  _field_expr self (join "." [f; g]) = Ok (join "." [f; g]).
Proof.
  intros Hf Hd Hp Hv Hh Hr Hsf Hsg Ht Hst Hflat Hff (type & Hty & Hj & Hgeo) Hinfo. split_and!.
  - intros ld b. right. exists c. split; [done|].
    apply (allowed_field _ _ _ _ _ _ _ Hp Hv Hf Hd); [by rewrite Hh|right].
    intros Hrel. unfold is_relation in Hr. by rewrite Hrel in Hr.
  - unfold field_path. cbn [rev app]. unfold _split_modifier. rewrite (rsplit_safe g) by (by apply sanitized).
    assert (_relation_resolver self <> []) as Hne by (intros Hn; rewrite Hn in Hflat; discriminate Hflat).
    change (2 <=? zlen [f; g]) with true. cbn [andb].
    replace (match _relation_resolver self with [] => false | _ => true end) with true
      by (by destruct (_relation_resolver self)).
    unfold _resolve_dotted_path, table_or_empty. rewrite Ht. cbn [map_result default]. rewrite Hsf, Hsg.
    cbn -[resolve_segments join]. rewrite Hst. cbn -[resolve_segments join]. rewrite Hflat.
    cbn [resolve_segments]. unfold dict in *. rewrite Hff. cbn [as_dict]. rewrite Hty. cbn [default id].
    change (py_str (PStr type)) with type.
    destruct (String.eqb_spec type "json"); [done|]. destruct (String.eqb_spec type "geoPoint"); [done|].
    cbn [orb]. by rewrite Hinfo.
  - unfold _field_expr. change (join "." [f; g]) with (f +:+ String dot g).
    rewrite contains_char_app, first_bad_app.
    assert (forall s, _sanitize_ident s = Ok s ->
              first_bad (fun c => is_safe c || Ascii.eqb c dot) s = None) as Hb.
    { intros s Hs%sanitized. eapply first_bad_weaker; [|exact Hs]. by intros ch ->. }
    assert (first_bad (fun c => is_safe c || Ascii.eqb c dot) (String dot g) = None) as Hdg by exact (Hb g Hsg).
    by rewrite (Hb f Hsf), Hdg.
Qed.

Lemma request_macro_unseen item :
  starts_with "request." (lstrip_at item) = true -> operand_reference (macro_node item) = None.
Proof.
  intros Hs. unfold operand_reference. destruct (lstrip_at item) as [|ch s]; [done|].
  destruct (Ascii.eqb_spec ch (char 114)) as [->|Hne]; [done|]. exfalso. apply Hne.
  apply andb_true_iff in Hs as [Hs%Ascii.eqb_eq _]. by rewrite <- Hs.
Qed.

(** [@request.auth.*] reads any column of a related record.  The guard
    sees no reference in a macro of the request, and the value of
    [@request.auth.f.s] is the column [s], whatever its name, of the record
    that the relation [f] of the authenticated record points to. *)
Theorem request_macros_unguarded ld context listed auth id collection_id c row f s value target target_c target_row v p path :
  dict_get "auth" context = Some (PDict auth) ->
  dict_get "id" auth = Some (PStr id) -> id <> "" ->
  dict_get "collectionId" auth = Some (PStr collection_id) -> collection_id <> "" ->
  known_collection ld collection_id = Some c -> known_record ld (c_name c) id = Row row ->
  dict_get f row = Some (Plain (PStr value)) -> value <> "" ->
  _relation_target c f = Ok (PStr target) -> target <> "" ->
  known_collection ld target = Some target_c -> known_record ld (c_name target_c) value = Row target_row ->
  dict_get s target_row = Some v -> s <> "id" -> _to_param v = Ok p ->
  split_on dot path = [f; s] ->
  operand_reference (macro_node (cat ["@request.auth."; path])) = None /\
  macro_in ld context listed ("auth", path) = Ok (Some p).
Proof.
  intros Ha Hid Hidn Hcid Hcidn Hc Hrow Hf Hvn Hrel Htn Htc Htrow Hs Hsid Hp Hpath.
  split; [by apply request_macro_unseen|].
  assert (forall t, t <> "" -> truthy (PStr t) = true) as Ht.
  { intros t Hne. cbn. by destruct (String.eqb_spec t ""). }
  assert (path <> "collectionName") as Hpn by (by intros ->).
  unfold macro_in, auth_in. cbn [fst snd String.eqb Ascii.eqb Bool.eqb]. rewrite Hpath. cbn [zlen length List.hd].
  rewrite andb_false_r. unfold opt_or, py_or. rewrite Ha.
  assert (truthy (default PNone (Some (PDict auth))) = true) as -> by (by destruct auth).
  change (default PNone (Some (PDict auth))) with (PDict auth). cbv beta iota. rewrite Hid, Hcid.
  change (default PNone (Some (PStr id))) with (PStr id).
  change (default PNone (Some (PStr collection_id))) with (PStr collection_id). rewrite !Ht by done.
  cbn [negb orb py_str]. rewrite Hc. destruct (String.eqb_spec path "collectionName"); [done|]. rewrite Hrow.
  cbn [walk_in step_into as_record]. rewrite Hf. destruct (String.eqb_spec s "id"); [done|].
  unfold related. rewrite Hrel. cbn [mbind]. unfold result_bind. cbn [target_id cell_truthy]. rewrite !Ht by done.
  cbn [negb orb collection_of_in]. rewrite Htc. cbn [mbind result_bind].
  change (cell_str (Plain (PStr value))) with value. rewrite Htrow.
  unfold step_into. cbn [as_record mbind result_bind]. rewrite Hs. cbn [mbind result_bind]. by rewrite Hp.
Qed.
End Guard.

(** ** Witnesses *)
Module GuardDemo.
Definition field (name type : string) (more : dict) : dict :=
  [("name", PStr name); ("type", PStr type)] ++ more.
(** An auth collection with a relation to itself, a hidden field, and a text
    field that has the name of the collection. *)
Definition users : Collection :=
  mkCollection "u1" "users" "auth"
    [field "manager" "relation" [("options", PDict [("collectionId", PStr "u1")])];
     field "nickname" "text" []; field "salary" "number" [("hidden", PBool true)]; field "users" "text" []]
    (PDict []).
Definition float_text : FloatText := fun _ => "1.5".
Definition iso_format : IsoFormat := fun _ => None.
Definition server : Database := {|
  db := unit;
  fetch_collection := fun name d =>
    (Ok (if String.eqb name "u1" || String.eqb name "users" then Some users else None), d);
  fetch_record := fun _ i d =>
    (Ok (if String.eqb i "me" then Some [("id", Plain (PStr "me")); ("manager", Plain (PStr "boss"))]
         else if String.eqb i "boss" then Some [("id", Plain (PStr "boss")); ("token_key", Plain (PStr "s3cr3t"))]
         else None), d) |}.
Definition grammar : FilterGrammar := fun s =>
  if String.eqb s "manager.nickname = 'x'" then
    Some [and_node [comparison_node (field_path_node ["manager"; "nickname"]) "=" (string_node "'x'")]]
  else if String.eqb s "manager.token_key ~ 'a%'" then
    Some [and_node [comparison_node (field_path_node ["manager"; "token_key"]) "~" (string_node "'a%'")]]
  else if String.eqb s "@request.auth.manager.token_key ~ 'a%'" then
    Some [and_node [comparison_node (macro_node "@request.auth.manager.token_key") "~" (string_node "'a%'")]]
  else if String.eqb s "users.password_hash ~ 'a%'" then
    Some [and_node [comparison_node (field_path_node ["users"; "password_hash"]) "~" (string_node "'a%'")]]
  else None.
Definition visit : SubtreeOrder := {| subtree_order := @rev operand; syntax_text := fun _ => "unexpected input" |}.
End GuardDemo.
#[local] Existing Instances GuardDemo.float_text GuardDemo.iso_format GuardDemo.server GuardDemo.grammar
  GuardDemo.visit.

Module GuardDemoRuns.
Import GuardDemo.
Definition new : loader := new_loader (tt : @db server).
Definition guard (f : string) : result macro_exn unit :=
  (assert_client_query_allowed users (Some f) None false new).1.
Definition token : dict := [("id", PStr "me"); ("collectionId", PStr "u1"); ("type", PStr "authRecord")].
Definition resolver : dict :=
  [("__flat__", PBool true);
   ("collections", PDict [("users", PDict [("fields", PDict [("users", PDict (field "users" "text" []))])])])].
Definition self : config := mkConfig [] resolver [] (Some "users").

Example guard_runs :
  (guard "manager.nickname = 'x'", guard "manager.token_key ~ 'a%'",
   guard "@request.auth.manager.token_key ~ 'a%'", guard "users.password_hash ~ 'a%'")
  = (Ok tt, Err (MacroValueError "Invalid filter field: token_key."), Ok tt, Ok tt).
Proof. vm_compute. reflexivity. Qed.

(** The secret of the related record reaches the context of the filter. *)
Example macro_leak :
  (resolve_request_macros (fun l => l) (Some "@request.auth.manager.token_key ~ 'a%'")
     (Some [("auth", PDict token)]) None new).1
  = Ok (Some [("auth", PDict token);
              ("resolved_macros", PDict [("request.auth.manager.token_key", PStr "s3cr3t")])]).
Proof. vm_compute. reflexivity. Qed.

(** The unquoted column of the listed table in the SQL of a filter. *)
Example column_leak :
  parse_filter "users.password_hash ~ 'a%'" None (Some resolver) None (Some "users")
  = Ok ("users.password_hash::text ILIKE :_fp2",
        [("_fp1", Val (PStr "a%")); ("_fp2", Val (PStr "%a%%"))]).
Proof. vm_compute. reflexivity. Qed.
End GuardDemoRuns.


Lemma table_qualified_path_witness :
  (forall ld b, reference_allowed ld b GuardDemo.users (None, ["users"; "password_hash"])) /\
  field_path GuardDemoRuns.self ["users"; "password_hash"] = Ok (Field "users.password_hash" "") /\
  _field_expr GuardDemoRuns.self "users.password_hash" = Ok "users.password_hash".
Proof.
  apply (table_qualified_path GuardDemoRuns.self GuardDemo.users "users" "password_hash"
           (match _schema_fields GuardDemo.users with Ok l => l | Err _ => [] end)
           (GuardDemo.field "users" "text" []) "users"); try (vm_compute; reflexivity).
  - apply (bool_decide_unpack ("users" ∉ PROTECTED_FIELDS)). vm_compute. exact I.
  - exists "text". by split_and!.
Defined.

(** What the loader knows once it has resolved the macro. *)
Definition guard_demo_loader : loader :=
  (resolve_request_macros (fun l => l) (Some "@request.auth.manager.token_key ~ 'a%'")
     (Some [("auth", PDict GuardDemoRuns.token)]) None GuardDemoRuns.new).2.

Lemma request_macros_unguarded_witness :
  operand_reference (macro_node "@request.auth.manager.token_key") = None /\
  macro_in guard_demo_loader [("auth", PDict GuardDemoRuns.token)] None ("auth", "manager.token_key")
  = Ok (Some (PStr "s3cr3t")).
Proof.
  apply (request_macros_unguarded guard_demo_loader [("auth", PDict GuardDemoRuns.token)] None
           GuardDemoRuns.token "me" "u1" GuardDemo.users
           [("id", Plain (PStr "me")); ("manager", Plain (PStr "boss"))] "manager" "token_key" "boss" "u1"
           GuardDemo.users [("id", Plain (PStr "boss")); ("token_key", Plain (PStr "s3cr3t"))]
           (Plain (PStr "s3cr3t")) (PStr "s3cr3t") "manager.token_key"); try (vm_compute; reflexivity); discriminate.
Defined.

Lemma macros_resolved_on_snapshot_witness :
  let f := "@request.auth.manager.token_key ~ 'a%'" in
  let context := [("auth", PDict GuardDemoRuns.token)] in
  findall 0 f = [("auth", "manager.token_key")] /\
  exists context' ld',
    resolve_request_macros (fun l => l) (Some f) (Some context) None GuardDemoRuns.new
    = (Ok (Some context'), ld') /\
    (findall 0 f = [] /\ context' = context \/
     exists before after,
       dict_get "resolved_macros" context = PDict <$> before /\
       context' = dict_set "resolved_macros" (PDict after) context /\
       (forall key v, dict_get key (default [] before) = Some v -> dict_get key after = Some v) /\
       (forall m, m ∈ findall 0 f -> dict_get (macro_key m) (default [] before) = None ->
          macro_in ld' context None m = Ok (dict_get (macro_key m) after)) /\
       (forall key, key ∉ macro_key <$> findall 0 f -> dict_get key after = dict_get key (default [] before))).
Proof.
  cbv zeta. split; [vm_compute; reflexivity|].
  destruct (resolve_request_macros (fun l => l) (Some "@request.auth.manager.token_key ~ 'a%'")
     (Some [("auth", PDict GuardDemoRuns.token)]) None GuardDemoRuns.new) as [r ld'] eqn:Hr.
  assert (exists context', r = Ok (Some context')) as [context' ->]
    by (vm_compute in Hr; injection Hr as <- _; by eexists).
  exists context', ld'. split; [reflexivity|].
  exact (macros_resolved_on_snapshot (fun l => l) "@request.auth.manager.token_key ~ 'a%'" _ _ _ _ _ (fun l => Permutation_refl l) eq_refl Hr).
Defined.
