(* ===== verification/WriteBarrier.v ===== *)
(** * The write barrier (ppbase/services/write_barrier.py, and the migration
      lock of ppbase/services/migration_runner.py it nests)

    A lease is a session-level advisory lock on one connection.  PostgreSQL,
    the connection pool, the clock and cancellation are an environment: it
    answers every operation, given all that happened before, with a value or
    an exception.  A run is therefore a function of the environment, and its
    trace records every operation with its answer.  Lease objects, the
    context variable, the current task and the process fence are the state.
    Durations are integer nanoseconds.  Waiting for a lock is a polling loop:
    [fuel] bounds its iterations. *)
From Stdlib Require Import Ascii String.
From S2P Require Import Prelude PyText PyVal.
#[local] Open Scope string_scope.
#[local] Open Scope list_scope.
#[local] Open Scope Z_scope.

(** ** Errors *)
Inductive barrier_exn : Type :=
| WriteBarrierError (message : string)
| WriteBarrierTimeoutError (message : string)
| WriteBarrierConnectionLostError (message : string)
| MigrationLockError (message : string)
| BarrierValueError (message : string)
| AsyncTimeout                          (* TimeoutError *)
| DriverError (message : string)        (* any other Exception *)
| CancelledError                        (* a BaseException *)
| OutOfFuel.                            (* of the model: no answer yet *)

(** [except Exception] *)
Definition is_exception (e : barrier_exn) : bool :=
  match e with CancelledError | OutOfFuel => false | _ => true end.
Definition is_barrier_error (e : barrier_exn) : bool :=
  match e with
  | WriteBarrierError _ | WriteBarrierTimeoutError _ | WriteBarrierConnectionLostError _ => true
  | _ => false
  end.

Inductive WriteBarrierMode : Type := SHARED | EXCLUSIVE.
#[export] Instance mode_eq_dec : EqDecision WriteBarrierMode.
Proof. solve_decision. Defined.
Definition mode_value (m : WriteBarrierMode) : string :=
  match m with SHARED => "shared" | EXCLUSIVE => "exclusive" end.

Definition _WRITE_BARRIER_POLL_SECONDS : Z := 50 * 10 ^ 6.
Definition _MIGRATION_LOCK_POLL_SECONDS : Z := 100 * 10 ^ 6.

(** ** The environment *)

(** A connection is numbered by its place among the connections opened. *)
Abbreviation answer := (result barrier_exn).
Inductive event : Type :=
| EConnect (seconds : Z) (r : answer unit)
| EIdentity (c : nat) (r : answer (Z * Z))
| EMigrationKey (c : nat) (r : answer Z)
| ETryLock (c : nat) (mode : WriteBarrierMode) (key : Z) (r : answer bool)
| EWaitLock (c : nat) (key seconds : Z) (r : answer unit)
| EUnlock (c : nat) (mode : WriteBarrierMode) (key : Z) (r : answer (Z * bool))
| EOwnsLock (c : nat) (mode : WriteBarrierMode) (class_id object_id : Z) (r : answer (Z * bool))
| ECommit (c : nat) (r : answer unit)
| ERollback (c : nat) (r : answer unit)
| EInvalidate (c : nat) (r : answer unit)
| EClose (c : nat) (r : answer unit)
| EGone (c : nat) (gone : bool)         (* closed or invalidated *)
| EClosed (c : nat) (closed : bool)
| EInTransaction (c : nat) (b : bool)
| EExpired (b : bool)                   (* asyncio.timeout(...).expired() *)
| ETime (t : Z)
| ESleep (seconds : Z) (r : answer unit)
| EUser (c : nat) (what : string).      (* a statement of the caller *)

Class Environment : Type := {
  connect_answer : list event -> Z -> answer unit;
  identity_answer : list event -> nat -> answer (Z * Z);
  migration_key_answer : list event -> nat -> answer Z;
  try_answer : list event -> nat -> WriteBarrierMode -> Z -> answer bool;
  wait_answer : list event -> nat -> Z -> Z -> answer unit;
  unlock_answer : list event -> nat -> WriteBarrierMode -> Z -> answer (Z * bool);
  owns_answer : list event -> nat -> WriteBarrierMode -> Z -> Z -> answer (Z * bool);
  commit_answer : list event -> nat -> answer unit;
  rollback_answer : list event -> nat -> answer unit;
  invalidate_answer : list event -> nat -> answer unit;
  close_answer : list event -> nat -> answer unit;
  is_gone : list event -> nat -> bool;
  is_closed : list event -> nat -> bool;
  in_transaction : list event -> nat -> bool;
  expired : list event -> bool;
  monotonic : list event -> Z;
  sleep_answer : list event -> Z -> answer unit;
  seconds_text : Z -> string;           (* f"{timeout_seconds:g}" *)
}.

(** ** State *)
Record WriteBarrierLease : Type := mkLease {
  connection : nat;
  mode : WriteBarrierMode;
  backend_pid : Z;
  barrier_key : Z;
  source_engine : option nat;
  owns_connection : bool;
  _barrier_acquired : bool;
  _active : bool;
  _owner_task : option nat;
}.
Record RetainedBackupWriteBarrier : Type := mkRetained {
  r_lease : nat;
  migration_key : Z;                    (* held by [_migration_context] *)
  _loop : nat;
  _closed : bool;
  _process_fence_active : bool;
}.

Record world : Type := mkWorld {
  trace : list event;
  connections : nat;                    (* opened so far *)
  leases : list WriteBarrierLease;
  retained : list RetainedBackupWriteBarrier;
  _current_write_barrier : option nat;
  _cutover_fence_count : Z;
  current_task : nat;
  running_loop : nat;
}.
Definition M : Type -> Type := stm world barrier_exn.

Definition with_trace (f : list event -> list event) (w : world) : world :=
  mkWorld (f (trace w)) (connections w) (leases w) (retained w) (_current_write_barrier w)
    (_cutover_fence_count w) (current_task w) (running_loop w).
Definition with_connections (f : nat -> nat) (w : world) : world :=
  mkWorld (trace w) (f (connections w)) (leases w) (retained w) (_current_write_barrier w)
    (_cutover_fence_count w) (current_task w) (running_loop w).
Definition with_leases (f : list WriteBarrierLease -> list WriteBarrierLease) (w : world) : world :=
  mkWorld (trace w) (connections w) (f (leases w)) (retained w) (_current_write_barrier w)
    (_cutover_fence_count w) (current_task w) (running_loop w).
Definition with_retained (f : list RetainedBackupWriteBarrier -> list RetainedBackupWriteBarrier) (w : world)
  : world :=
  mkWorld (trace w) (connections w) (leases w) (f (retained w)) (_current_write_barrier w)
    (_cutover_fence_count w) (current_task w) (running_loop w).
Definition with_current (cur : option nat) (w : world) : world :=
  mkWorld (trace w) (connections w) (leases w) (retained w) cur
    (_cutover_fence_count w) (current_task w) (running_loop w).
Definition with_fence (f : Z -> Z) (w : world) : world :=
  mkWorld (trace w) (connections w) (leases w) (retained w) (_current_write_barrier w)
    (f (_cutover_fence_count w)) (current_task w) (running_loop w).

Definition log (e : event) : world -> world := with_trace (fun t => t ++ [e]).

(** One operation: its answer is asked of the environment and recorded. *)
Definition operation {A} (ask : list event -> answer A) (record : answer A -> event) : M A := fun w =>
  let r := ask (trace w) in (r, log (record r) w).
Definition observe {A} (ask : list event -> A) (record : A -> event) : M A := fun w =>
  let a := ask (trace w) in (Ok a, log (record a) w).

(** [try]: the outcome as a value. *)
Definition attempt {A} (m : M A) : M (answer A) := fun w => let '(r, w') := m w in (Ok r, w').
(** [except Exception as exc: raise other from exc] *)
Definition translate {A} (m : M A) (other : barrier_exn) : M A :=
  r ← attempt m;
  match r with
  | Ok a => mret a
  | Err e => stm_raise (if is_exception e then other else e)
  end.

Section Barrier.
Context {env : Environment} (fuel : nat).

Definition engine_connect (seconds : Z) : M nat := fun w =>
  let r := connect_answer (trace w) seconds in
  let w' := log (EConnect seconds r) w in
  match r with
  | Ok _ => (Ok (connections w), with_connections S w')
  | Err e => (Err e, w')
  end.
Definition identity_query (c : nat) : M (Z * Z) := operation (fun t => identity_answer t c) (EIdentity c).
Definition migration_key_query (c : nat) : M Z := operation (fun t => migration_key_answer t c) (EMigrationKey c).
Definition try_lock (c : nat) (m : WriteBarrierMode) (key : Z) : M bool :=
  operation (fun t => try_answer t c m key) (ETryLock c m key).
Definition wait_lock (c : nat) (key seconds : Z) : M unit :=
  operation (fun t => wait_answer t c key seconds) (EWaitLock c key seconds).
Definition unlock (c : nat) (m : WriteBarrierMode) (key : Z) : M (Z * bool) :=
  operation (fun t => unlock_answer t c m key) (EUnlock c m key).
Definition commit (c : nat) : M unit := operation (fun t => commit_answer t c) (ECommit c).
Definition rollback (c : nat) : M unit := operation (fun t => rollback_answer t c) (ERollback c).
Definition close_connection (c : nat) : M unit := operation (fun t => close_answer t c) (EClose c).
Definition gone (c : nat) : M bool := observe (fun t => is_gone t c) (EGone c).
Definition closed_ (c : nat) : M bool := observe (fun t => is_closed t c) (EClosed c).
Definition in_tx (c : nat) : M bool := observe (fun t => in_transaction t c) (EInTransaction c).
Definition now : M Z := observe monotonic ETime.
Definition sleep (seconds : Z) : M unit := operation (fun t => sleep_answer t seconds) (ESleep seconds).

(** The shielded invalidation is awaited until it is done, whatever
    cancellations arrive; its failure is logged. *)
Definition _cleanup_connection (c : nat) : M unit := fun w =>
  (Ok tt, log (EInvalidate c (invalidate_answer (trace w) c)) w).

(** ** The process fence *)
Definition _activate_process_cutover_fence : M unit := stm_modify (with_fence (fun n => n + 1)).
Definition _release_process_cutover_fence : M unit := stm_modify (with_fence (fun n => Z.max 0 (n - 1))).
Definition process_cutover_is_fenced (w : world) : bool := 0 <? _cutover_fence_count w.
Definition _reject_process_cutover_mutation : M unit :=
  w ← stm_get;
  if process_cutover_is_fenced w
  then stm_raise (WriteBarrierError "DB/file mutations are fenced while destructive restore replaces the current PPBase process.")
  else mret tt.

(** ** Lease objects *)
Definition no_lease : WriteBarrierLease := mkLease 0 SHARED 0 0 None false false false None.
Definition lease_at (w : world) (ref : nat) : WriteBarrierLease := default no_lease (leases w !! ref).
Definition get_lease (ref : nat) : M WriteBarrierLease := fun w => (Ok (lease_at w ref), w).
Definition set_lease (ref : nat) (f : WriteBarrierLease -> WriteBarrierLease) : M unit :=
  stm_modify (with_leases (alter f ref)).
Definition new_lease (l : WriteBarrierLease) : M nat := fun w =>
  (Ok (length (leases w)), with_leases (fun ls => ls ++ [l]) w).

Definition set_acquired (b : bool) (l : WriteBarrierLease) : WriteBarrierLease :=
  mkLease (connection l) (mode l) (backend_pid l) (barrier_key l) (source_engine l) (owns_connection l)
    b (_active l) (_owner_task l).
Definition set_owner (active : bool) (owner : option nat) (l : WriteBarrierLease) : WriteBarrierLease :=
  mkLease (connection l) (mode l) (backend_pid l) (barrier_key l) (source_engine l) (owns_connection l)
    (_barrier_acquired l) active owner.

Definition owned_by_current_task (w : world) (l : WriteBarrierLease) : bool :=
  match _owner_task l with Some t => (t =? current_task w)%nat | None => false end.
Definition active (w : world) (l : WriteBarrierLease) : bool :=
  _active l && _barrier_acquired l && owned_by_current_task w l.

Definition current_write_barrier_lease : M (option nat) := fun w =>
  (Ok (match _current_write_barrier w with
       | Some ref => if active w (lease_at w ref) then Some ref else None
       | None => None
       end), w).

Definition require_write_barrier (wanted : WriteBarrierMode) (missing wrong : string) (lease : option nat) : M nat :=
  current ← current_write_barrier_lease;
  w ← stm_get;
  match match lease with Some ref => Some ref | None => current end with
  | None => stm_raise (WriteBarrierError missing)
  | Some ref =>
      if negb (active w (lease_at w ref)) then stm_raise (WriteBarrierError missing)
      else if negb (bool_decide (mode (lease_at w ref) = wanted)) then stm_raise (WriteBarrierError wrong)
      else mret ref
  end.
Definition require_mutation_write_barrier : option nat -> M nat :=
  require_write_barrier SHARED
    "A live shared PPBase write-barrier lease owned by the current asyncio task is required."
    "Storage mutations are forbidden inside the exclusive PPBase write barrier.".
Definition require_exclusive_write_barrier : option nat -> M nat :=
  require_write_barrier EXCLUSIVE
    "A live exclusive PPBase write-barrier lease owned by the current asyncio task is required."
    "An exclusive PPBase write-barrier lease is required.".

(** ** Acquisition and release *)

(** [None] is a timeout that is not finite. *)
Definition _validate_timeout (timeout : option Z) : M Z :=
  match timeout with
  | Some t => if t <? 0 then stm_raise (BarrierValueError "Write barrier timeout must be a finite non-negative value.")
              else mret t
  | None => stm_raise (BarrierValueError "Write barrier timeout must be a finite non-negative value.")
  end.

Definition _remaining (deadline : Z) : M Z := t ← now; mret (Z.max 0 (deadline - t)).

Definition lost (while_ label : string) : barrier_exn :=
  WriteBarrierConnectionLostError ("Lost the PostgreSQL session while " +:+ while_ +:+ " " +:+ label +:+ ".").
Definition timed_out (label : string) : barrier_exn :=
  WriteBarrierTimeoutError ("Timed out waiting for " +:+ label +:+ ".").

Definition commit_if (b : bool) (c : nat) : M unit := if b then commit c else mret tt.

(** Joining PostgreSQL's queue for the exclusive lock. *)
Definition wait_in_queue (c : nat) (key remaining : Z) (label : string) (finish_transaction : bool) : M unit :=
  r ← attempt (wait_lock c key remaining ≫= fun _ => commit_if finish_transaction c);
  match r with
  | Ok _ => mret tt
  | Err AsyncTimeout =>
      e ← observe expired EExpired;
      stm_raise (if e : bool then timed_out label else lost "acquiring" label)
  | Err e => stm_raise (if is_exception e then lost "acquiring" label else e)
  end.

Fixpoint acquire_loop (n : nat) (c : nat) (key : Z) (mode : WriteBarrierMode) (deadline : Z) (label : string)
    (finish_transaction : bool) : M unit :=
  match n with
  | O => stm_raise OutOfFuel
  | S n' =>
      acquired ← translate (b ← try_lock c mode key; commit_if finish_transaction c ≫= fun _ => mret b)
                   (lost "acquiring" label);
      if acquired : bool then mret tt else
      remaining ← _remaining deadline;
      if remaining <=? 0 then stm_raise (timed_out label) else
      match mode with
      | EXCLUSIVE => wait_in_queue c key remaining label finish_transaction
      | SHARED =>
          sleep (Z.min _WRITE_BARRIER_POLL_SECONDS remaining) ≫= fun _ =>
          acquire_loop n' c key mode deadline label finish_transaction
      end
  end.
Definition _acquire_lock := acquire_loop fuel.

Definition _release_lock (ref : nat) (key : Z) (m : WriteBarrierMode) (label : string)
    (finish_transaction : bool) : M unit :=
  l ← get_lease ref;
  row ← translate (row ← unlock (connection l) m key; commit_if finish_transaction (connection l) ≫= fun _ => mret row)
          (lost "releasing" label);
  if negb (row.1 =? backend_pid l) || negb row.2
  then stm_raise (WriteBarrierConnectionLostError
                    ("The PostgreSQL session holding " +:+ label +:+ " was lost or replaced."))
  else set_lease ref (set_acquired false).

Definition barrier_label (m : WriteBarrierMode) : string := "the " +:+ mode_value m +:+ " PPBase write barrier".

Definition release_steps (ref : nat) : M unit :=
  l ← get_lease ref;
  t ← (if owns_connection l then in_tx (connection l) else mret false);
  (if t : bool then rollback (connection l) else mret tt) ≫= fun _ =>
  if _barrier_acquired l
  then _release_lock ref (barrier_key l) (mode l) (barrier_label (mode l)) (owns_connection l)
  else mret tt.

(** [except BaseException: await _cleanup_connection(connection); raise] *)
Definition or_cleanup {A} (c : nat) (m : M A) : M A :=
  r ← attempt m;
  match r with
  | Ok a => mret a
  | Err e => _cleanup_connection c ≫= fun _ => stm_raise e
  end.

Definition _release_lease (ref : nat) : M unit :=
  l ← get_lease ref;
  g ← gone (connection l);
  if g : bool
  then stm_raise (WriteBarrierConnectionLostError "The PostgreSQL session holding the write barrier was lost.")
  else or_cleanup (connection l) (release_steps ref).

(** The handler of a failed acquisition; [lease] is set once it exists. *)
Definition abandon (c : nat) (lease : option nat) : M unit :=
  w ← stm_get;
  match lease with
  | Some ref =>
      if _barrier_acquired (lease_at w ref) then attempt (_release_lease ref) ≫= fun _ => mret tt
      else _cleanup_connection c
  | None => _cleanup_connection c
  end.

(** From the identity of the session to the lock: the lease, and the error. *)
Definition lease_steps (c : nat) (mode : WriteBarrierMode) (deadline : Z) (engine : option nat) (owns : bool)
  : M (option nat * answer nat) :=
  id ← attempt
    (if owns
     then translate (kp ← identity_query c; commit c ≫= fun _ => mret kp)
            (WriteBarrierConnectionLostError "Could not establish the PostgreSQL write-barrier session.")
     else identity_query c);
  match id with
  | Err e => mret (None, Err e)
  | Ok (key, pid) =>
      ref ← new_lease (mkLease c mode pid key engine owns false false None);
      r ← attempt (_acquire_lock c key mode deadline (barrier_label mode) owns);
      match r with
      | Err e => mret (Some ref, Err e)
      | Ok _ => set_lease ref (set_acquired true) ≫= fun _ => mret (Some ref, Ok ref)
      end
  end.

Definition _open_lease (engine : nat) (mode : WriteBarrierMode) (timeout : option Z) : M nat :=
  seconds ← _validate_timeout timeout;
  t ← now;
  let deadline := t + seconds in
  remaining ← _remaining deadline;
  connected ← attempt (engine_connect (Z.max remaining (10 ^ 6)));
  match connected with
  | Err AsyncTimeout =>
      stm_raise (WriteBarrierTimeoutError "Timed out waiting for the dedicated PostgreSQL write-barrier connection.")
  | Err e =>
      stm_raise (if is_exception e
                 then WriteBarrierConnectionLostError "Could not open the dedicated PostgreSQL write-barrier connection."
                 else e)
  | Ok c =>
      steps ← lease_steps c mode deadline (Some engine) true;
      match steps.2 with
      | Ok ref => mret ref
      | Err e =>
          abandon c steps.1 ≫= fun _ =>
          attempt (close_connection c) ≫= fun _ =>
          stm_raise e
      end
  end.

Definition _open_lease_on_connection (c : nat) (mode : WriteBarrierMode) (timeout : option Z) : M nat :=
  seconds ← _validate_timeout timeout;
  g ← gone c;
  if g : bool
  then stm_raise (WriteBarrierConnectionLostError "The supplied PostgreSQL write-barrier connection is not open.")
  else
    t ← now;
    steps ← lease_steps c mode (t + seconds) None false;
    match steps.2 with
    | Ok ref => mret ref
    | Err e => abandon c steps.1 ≫= fun _ => stm_raise e
    end.

(** ** Contexts: [body] is the block of the [async with] *)

(** The error of the block first, then of the release, then of the close. *)
Definition leave_outcome {A} (ended : answer A) (released closed : answer unit) : M A :=
  match ended, released, closed with
  | Err e, _, _ => stm_raise e
  | _, Err e, _ => stm_raise e
  | _, _, Err e => stm_raise e
  | Ok a, _, _ => mret a
  end.
(** The [finally] of [_active_lease], after a block that ended with [ended]. *)
Definition leave_lease {A} (ref : nat) (previous : option nat) (ended : answer A) : M A :=
  set_lease ref (set_owner false None) ≫= fun _ =>
  stm_modify (with_current previous) ≫= fun _ =>
  released ← attempt (_release_lease ref);
  l ← get_lease ref;
  closed ← (if owns_connection l then attempt (close_connection (connection l)) else mret (Ok tt));
  leave_outcome ended released closed.
Definition _active_lease {A} (ref : nat) (body : M A) : M A :=
  w ← stm_get;
  stm_modify (with_current (Some ref)) ≫= fun _ =>
  set_lease ref (set_owner true (Some (current_task w))) ≫= fun _ =>
  ended ← attempt body;
  leave_lease ref (_current_write_barrier w) ended.

Definition _lease_context {A} (engine : nat) (mode : WriteBarrierMode) (timeout : option Z) (body : nat -> M A)
  : M A :=
  ref ← _open_lease engine mode timeout;
  _active_lease ref (body ref).

Definition mutation_write_barrier {A} (engine : nat) (timeout : option Z) (body : nat -> M A) : M A :=
  _reject_process_cutover_mutation ≫= fun _ =>
  current ← current_write_barrier_lease;
  w ← stm_get;
  match current with
  | Some ref =>
      if negb (bool_decide (mode (lease_at w ref) = SHARED))
      then stm_raise (WriteBarrierError "Cannot start a storage mutation inside the exclusive backup barrier.")
      else if match source_engine (lease_at w ref) with Some e => negb (e =? engine)%nat | None => false end
      then stm_raise (WriteBarrierError "A nested mutation cannot switch PostgreSQL engines while a write-barrier lease is active.")
      else body ref
  | None =>
      _lease_context engine SHARED timeout (fun ref =>
        _reject_process_cutover_mutation ≫= fun _ => body ref)
  end.

Definition mutation_write_barrier_on_connection {A} (c : nat) (timeout : option Z) (body : nat -> M A) : M A :=
  _reject_process_cutover_mutation ≫= fun _ =>
  current ← current_write_barrier_lease;
  w ← stm_get;
  match current with
  | Some ref =>
      if negb (bool_decide (mode (lease_at w ref) = SHARED))
      then stm_raise (WriteBarrierError "Cannot start a storage mutation inside the exclusive backup barrier.")
      else if negb (connection (lease_at w ref) =? c)%nat
      then stm_raise (WriteBarrierError "A nested mutation cannot switch PostgreSQL connections while a write-barrier lease is active.")
      else body ref
  | None =>
      ref ← _open_lease_on_connection c SHARED timeout;
      _active_lease ref (_reject_process_cutover_mutation ≫= fun _ => body ref)
  end.

(** ** The migration lock (migration_runner.py) *)

(** The polling loop of [migration_lock_on_connection]: the value of
    [acquired] when it ends, and how. *)
Fixpoint migration_loop (n : nat) (c : nat) (key : Z) (timeout deadline : Z) : M (bool * answer unit) :=
  match n with
  | O => mret (false, Err OutOfFuel)
  | S n' =>
      r ← attempt (try_lock c EXCLUSIVE key);
      match r with
      | Err e => mret (false, Err e)
      | Ok acquired =>
          r ← attempt (commit c);
          match r with
          | Err e => mret (acquired, Err e)
          | Ok _ =>
              if acquired : bool then mret (true, Ok tt) else
              r ← attempt (t ← now;
                if deadline <=? t
                then stm_raise (MigrationLockError
                  ("Timed out waiting for the PPBase migration lock after " +:+ seconds_text timeout +:+ " seconds."))
                else sleep _MIGRATION_LOCK_POLL_SECONDS);
              match r with
              | Err e => mret (false, Err e)
              | Ok _ => migration_loop n' c key timeout deadline
              end
          end
      end
  end.

(** The [finally] of the context: the error of an unlock that failed. *)
Definition migration_cleanup (c : nat) (key : Z) (acquired : bool) : M (option barrier_exn) :=
  closed ← (if acquired then closed_ c else mret false);
  if acquired && negb closed then
    r ← attempt (
      t ← in_tx c;
      (if t : bool then rollback c else mret tt) ≫= fun _ =>
      row ← unlock c EXCLUSIVE key;
      commit c ≫= fun _ =>
      if negb row.2
      then stm_raise (MigrationLockError "PostgreSQL reported that the PPBase migration lock was no longer owned by its reserved connection.")
      else mret tt);
    match r with
    | Ok _ => mret None
    | Err e => _cleanup_connection c ≫= fun _ => mret (Some e)
    end
  else
    g ← gone c;
    (if g : bool then mret tt else _cleanup_connection c) ≫= fun _ => mret None.

(** What is raised once the [finally] is through. *)
Definition migration_result {A} (r : answer A) (body_failed : bool) (unlock_error : option barrier_exn) : M A :=
  match (if body_failed then None else unlock_error) with
  | Some (MigrationLockError m) => stm_raise (MigrationLockError m)
  | Some _ =>
      stm_raise (MigrationLockError "The PostgreSQL session holding the PPBase migration lock was lost while releasing it.")
  | None => stm_lift r
  end.

(** [__aenter__]: the key of the lock that is held. *)
Definition migration_enter (c : nat) (timeout : Z) : M Z :=
  if timeout <? 0
  then stm_raise (BarrierValueError "Migration lock timeout must be a finite non-negative value.") else
  g ← gone c;
  if g : bool
  then stm_raise (MigrationLockError "The dedicated PostgreSQL migration-lock connection is not open.") else
  t ← in_tx c;
  if t : bool
  then stm_raise (MigrationLockError "The dedicated PostgreSQL migration-lock connection must not have an active transaction.")
  else
    started_at ← now;
    key ← attempt (key ← migration_key_query c; commit c ≫= fun _ => mret key);
    match key with
    | Err e =>
        u ← migration_cleanup c 0 false;
        migration_result (Err e) false u
    | Ok key =>
        ended ← migration_loop fuel c key timeout (started_at + timeout);
        match ended.2 with
        | Ok _ => mret key
        | Err e =>
            u ← migration_cleanup c key ended.1;
            migration_result (Err e) false u
        end
    end.

(** [__aexit__] after a block that ended with [r]. *)
Definition migration_exit {A} (c : nat) (key : Z) (r : answer A) : M A :=
  u ← migration_cleanup c key true;
  migration_result r (negb (is_ok r)) u.

Definition migration_lock_on_connection {A} (c : nat) (timeout : Z) (body : M A) : M A :=
  key ← migration_enter c timeout;
  r ← attempt body;
  migration_exit c key r.

(** ** The exclusive barrier *)
Definition not_nested (message : string) : M unit :=
  current ← current_write_barrier_lease;
  match current with Some _ => stm_raise (WriteBarrierError message) | None => mret tt end.

(** The errors of the migration lock, for a caller of the barrier. *)
Definition ordered_lock_error (what : string) (e : barrier_exn) : barrier_exn :=
  match e with
  | MigrationLockError m =>
      if contains "Timed out" m
      then WriteBarrierTimeoutError "Timed out waiting for the PPBase migration lock."
      else WriteBarrierConnectionLostError ("The PostgreSQL session holding the ordered " +:+ what +:+ " locks was lost.")
  | e => e
  end.

(** Inside the lease: the migration lock around the block.  An error of the
    block itself passes unchanged. *)
Definition under_migration_lock {A} (ref : nat) (deadline : Z) (body : nat -> M A) : M A :=
  remaining ← _remaining deadline;
  l ← get_lease ref;
  entered ← attempt (migration_enter (connection l) remaining);
  match entered with
  | Err e => stm_raise (ordered_lock_error "backup" e)
  | Ok key =>
      r ← attempt (body ref);
      ended ← attempt (migration_exit (connection l) key r);
      match ended, r with
      | Ok a, _ => mret a
      | Err e, Err _ => stm_raise e
      | Err e, Ok _ => stm_raise (ordered_lock_error "backup" e)
      end
  end.

Definition backup_write_barrier {A} (engine : nat) (timeout : option Z) (body : nat -> M A) : M A :=
  not_nested "The exclusive backup barrier cannot be nested or promoted from a shared mutation lease." ≫= fun _ =>
  seconds ← _validate_timeout timeout;
  t ← now;
  _lease_context engine EXCLUSIVE timeout (fun ref => under_migration_lock ref (t + seconds) body).

Definition storage_runtime_switch_barrier {A} (engine : nat) (timeout : option Z) (body : nat -> M A) : M A :=
  backup_write_barrier engine timeout body.

(** ** Verification of a lease *)

(** The two 32-bit halves of an advisory-lock key in [pg_locks]. *)
Definition lock_ids (key : Z) : Z * Z :=
  let unsigned_key := Z.land key (Z.shiftl 1 64 - 1) in
  (Z.land (Z.shiftr unsigned_key 32) 4294967295, Z.land unsigned_key 4294967295).

Definition assert_write_barrier_held (ref : nat) : M unit :=
  w ← stm_get;
  if negb (active w (lease_at w ref))
  then stm_raise (WriteBarrierConnectionLostError "The PostgreSQL write-barrier lease is no longer active in its owning asyncio task.")
  else
    let l := lease_at w ref in
    let c := connection l in
    g ← gone c;
    if g : bool
    then stm_raise (WriteBarrierConnectionLostError "The PostgreSQL session holding the write barrier was lost.")
    else
      let ids := lock_ids (barrier_key l) in
      r ← attempt (operation (fun t => owns_answer t c (mode l) ids.1 ids.2) (EOwnsLock c (mode l) ids.1 ids.2));
      match r with
      | Err e =>
          if is_exception e
          then _cleanup_connection c ≫= fun _ =>
               stm_raise (WriteBarrierConnectionLostError "Could not verify the PostgreSQL write-barrier lease.")
          else stm_raise e
      | Ok row =>
          if negb (row.1 =? backend_pid l) || negb row.2
          then _cleanup_connection c ≫= fun _ =>
               stm_raise (WriteBarrierConnectionLostError "The PostgreSQL session holding the write barrier was lost or replaced.")
          else mret tt
      end.

(** ** The retained barrier of a cutover *)
Definition retained_at (w : world) (k : nat) : RetainedBackupWriteBarrier :=
  default (mkRetained 0 0 0 true false) (retained w !! k).
Definition set_retained (k : nat) (f : RetainedBackupWriteBarrier -> RetainedBackupWriteBarrier) : M unit :=
  stm_modify (with_retained (alter f k)).
Definition set_closed (b : bool) (x : RetainedBackupWriteBarrier) : RetainedBackupWriteBarrier :=
  mkRetained (r_lease x) (migration_key x) (_loop x) b (_process_fence_active x).
Definition set_fence_active (b : bool) (x : RetainedBackupWriteBarrier) : RetainedBackupWriteBarrier :=
  mkRetained (r_lease x) (migration_key x) (_loop x) (_closed x) b.

Definition verify_held (k : nat) : M unit :=
  w ← stm_get;
  let x := retained_at w k in
  if negb (running_loop w =? _loop x)%nat || _closed x
  then stm_raise (WriteBarrierConnectionLostError "The retained PostgreSQL write barrier is no longer available.")
  else
    let ref := r_lease x in
    let previous := lease_at w ref in
    set_lease ref (set_owner true (Some (current_task w))) ≫= fun _ =>
    r ← attempt (assert_write_barrier_held ref ≫= fun _ => commit (connection previous));
    r' ← (match r with
          | Ok _ => mret (Ok tt)
          | Err e =>
              if is_barrier_error e || negb (is_exception e) then mret (Err e)
              else _cleanup_connection (connection previous) ≫= fun _ =>
                   mret (Err (WriteBarrierConnectionLostError "Could not finish verification of the retained write barrier."))
          end);
    set_lease ref (set_owner (_active previous) (_owner_task previous)) ≫= fun _ =>
    stm_lift r'.

(** The first error of the three steps of a close. *)
Definition first_error (rs : list (answer unit)) : option barrier_exn :=
  head (omap (fun r => match r with Err e => Some e | Ok _ => None end) rs).

Definition close_retained (k : nat) : M unit :=
  w ← stm_get;
  let x := retained_at w k in
  if negb (running_loop w =? _loop x)%nat
  then stm_raise (WriteBarrierError "The retained write barrier must be released on its owning loop.")
  else if _closed x then mret tt
  else
    let ref := r_lease x in
    let c := connection (lease_at w ref) in
    set_retained k (set_closed true) ≫= fun _ =>
    set_lease ref (set_owner false None) ≫= fun _ =>
    r1 ← attempt (migration_exit c (migration_key x) (Ok tt));
    r2 ← attempt (_release_lease ref);
    r3 ← attempt (close_connection c);
    (if _process_fence_active x
     then set_retained k (set_fence_active false) ≫= fun _ => _release_process_cutover_fence
     else mret tt) ≫= fun _ =>
    match first_error [r1; r2; r3] with
    | None => mret tt
    | Some e =>
        stm_raise (if is_barrier_error e then e
                   else WriteBarrierConnectionLostError "The retained PostgreSQL write barrier could not be released cleanly.")
    end.

Definition new_retained (x : RetainedBackupWriteBarrier) : M nat := fun w =>
  (Ok (length (retained w)), with_retained (fun xs => xs ++ [x]) w).

Definition acquire_retained_backup_write_barrier (engine : nat) (timeout : option Z) : M nat :=
  not_nested "The retained backup barrier cannot be nested or promoted from a shared mutation lease." ≫= fun _ =>
  seconds ← _validate_timeout timeout;
  t ← now;
  ref ← _open_lease engine EXCLUSIVE timeout;
  remaining ← _remaining (t + seconds);
  l ← get_lease ref;
  entered ← attempt (migration_enter (connection l) remaining);
  match entered with
  | Err e =>
      attempt (_release_lease ref) ≫= fun _ =>
      attempt (close_connection (connection l)) ≫= fun _ =>
      stm_raise (ordered_lock_error "cutover" e)
  | Ok key =>
      w ← stm_get;
      k ← new_retained (mkRetained ref key (running_loop w) false false);
      verified ← attempt (verify_held k);
      match verified with
      | Err e => attempt (close_retained k) ≫= fun _ => stm_raise e
      | Ok _ =>
          _activate_process_cutover_fence ≫= fun _ =>
          set_retained k (set_fence_active true) ≫= fun _ =>
          mret k
      end
  end.
End Barrier.
