(* ===== verification/WriteBarrierSafety.v ===== *)
(** * What the write barrier guarantees

    A small program logic for runs ([wp]), the locks a session may hold as a
    function of the trace, and the theorems: no connection is given back to
    the pool while its session may hold a lock, the exclusive block runs only
    under both locks and its result stands only when both unlocks were
    confirmed, the polling loops end, and the fence of a cutover rejects
    writers until it is closed. *)
From Stdlib Require Import Ascii String.
From S2P Require Import Prelude PyText PyVal WriteBarrier.
#[local] Open Scope string_scope.
#[local] Open Scope list_scope.
#[local] Open Scope Z_scope.

(** * A program logic for runs *)

(** What holds of the outcome and the state after a run. *)
Definition wp {A} (m : M A) (Q : answer A -> world -> Prop) (w : world) : Prop := Q (m w).1 (m w).2.

Section Wp.
Context {A B : Type}.
Lemma wp_run (m : M A) Q w r w' : wp m Q w -> m w = (r, w') -> Q r w'.
Proof. unfold wp. intros H Hm. by rewrite Hm in H. Qed.
Lemma wp_mono (m : M A) (Q Q' : answer A -> world -> Prop) w :
  wp m Q w -> (forall r w', Q r w' -> Q' r w') -> wp m Q' w.
Proof. unfold wp. auto. Qed.
Lemma wp_ret (a : A) Q w : Q (Ok a) w -> wp (mret a) Q w.
Proof. done. Qed.
Lemma wp_raise e (Q : answer A -> world -> Prop) w : Q (Err e) w -> wp (stm_raise e) Q w.
Proof. done. Qed.
Lemma wp_lift r (Q : answer A -> world -> Prop) w : Q r w -> wp (stm_lift r) Q w.
Proof. done. Qed.
Lemma wp_bind (m : M A) (f : A -> M B) Q w :
  wp m (fun r w' => match r with Ok a => wp (f a) Q w' | Err e => Q (Err e) w' end) w -> wp (m ≫= f) Q w.
Proof. unfold wp, mbind, M, stm_bind. by destruct (m w) as [[a|e] w']. Qed.
Lemma wp_attempt (m : M A) Q w : wp m (fun r w' => Q (Ok r) w') w -> wp (attempt m) Q w.
Proof. unfold wp, attempt. by destruct (m w). Qed.
Lemma wp_operation (ask : list event -> answer A) record Q w :
  (forall r, r = ask (trace w) -> Q r (log (record r) w)) -> wp (operation ask record) Q w.
Proof. intros H. by apply H. Qed.
Lemma wp_observe (ask : list event -> A) record (Q : answer A -> world -> Prop) w :
  (forall a, a = ask (trace w) -> Q (Ok a) (log (record a) w)) -> wp (observe ask record) Q w.
Proof. intros H. by apply H. Qed.
End Wp.
Lemma wp_translate {A} (m : M A) other Q w :
  wp m (fun r w' => match r with
    | Ok a => Q (Ok a) w'
    | Err e => Q (Err (if is_exception e then other else e)) w'
    end) w -> wp (translate m other) Q w.
Proof.
  intros H. unfold translate. apply wp_bind, wp_attempt. eapply wp_mono; [exact H|].
  by intros [a|e] w'.
Qed.
Lemma wp_get (Q : answer world -> world -> Prop) w : Q (Ok w) w -> wp stm_get Q w.
Proof. done. Qed.
Lemma wp_modify f (Q : answer unit -> world -> Prop) w : Q (Ok tt) (f w) -> wp (stm_modify f) Q w.
Proof. done. Qed.
Lemma wp_get_lease ref (Q : answer WriteBarrierLease -> world -> Prop) w :
  Q (Ok (lease_at w ref)) w -> wp (get_lease ref) Q w.
Proof. done. Qed.
Lemma wp_cleanup {env : Environment} c (Q : answer unit -> world -> Prop) w :
  Q (Ok tt) (log (EInvalidate c (invalidate_answer (trace w) c)) w) -> wp (_cleanup_connection c) Q w.
Proof. done. Qed.

(** * The locks a session may hold *)

Definition lock : Type := WriteBarrierMode * Z.

(** Without one entry of [x]. *)
Fixpoint release_one (x : lock) (held : list lock) : list lock :=
  match held with
  | [] => []
  | y :: l => if bool_decide (x = y) then l else y :: release_one x l
  end.

(** A request whose answer never came may have been granted; only a confirmed
    unlock, and the end of the session, release. *)
Definition may_step (c : nat) (held : list lock) (e : event) : list lock :=
  match e with
  | ETryLock c' m k r =>
      if (c' =? c)%nat then match r with Ok false => held | _ => (m, k) :: held end else held
  | EWaitLock c' k _ _ => if (c' =? c)%nat then (EXCLUSIVE, k) :: held else held
  | EUnlock c' m k (Ok (_, true)) => if (c' =? c)%nat then release_one (m, k) held else held
  | EInvalidate c' (Ok _) => if (c' =? c)%nat then [] else held
  | EGone c' true | EClosed c' true => if (c' =? c)%nat then [] else held
  | _ => held
  end.
Definition may_hold (c : nat) (t : list event) : list lock := fold_left (may_step c) t [].

(** No connection is given back to the pool while its session may hold a
    lock. *)
Definition pooled_free (t : list event) : Prop :=
  forall before c r after, t = before ++ EClose c r :: after -> may_hold c before = [].

#[local] Arguments may_hold : simpl never.

Lemma may_hold_snoc c t e : may_hold c (t ++ [e]) = may_step c (may_hold c t) e.
Proof. unfold may_hold. by rewrite fold_left_app. Qed.

Lemma pooled_free_snoc t e :
  pooled_free t -> (forall c r, e = EClose c r -> may_hold c t = []) -> pooled_free (t ++ [e]).
Proof.
  intros Ht He before c r after Heq. destruct after as [|x after _] using rev_ind.
  - apply app_inj_tail in Heq as [-> ->]. by eapply He.
  - rewrite app_comm_cons, app_assoc in Heq. apply app_inj_tail in Heq as [-> _]. by eapply Ht.
Qed.

(** What a run keeps: the connections given back are free, and no event is
    about a connection that is not open yet. *)
Record wf (w : world) : Prop := {
  wf_pool : pooled_free (trace w);
  wf_fresh c : (connections w <= c)%nat -> may_hold c (trace w) = [];
}.

Definition same_objects (w w' : world) : Prop :=
  leases w' = leases w /\ retained w' = retained w /\ _current_write_barrier w' = _current_write_barrier w /\
  _cutover_fence_count w' = _cutover_fence_count w /\ current_task w' = current_task w /\
  running_loop w' = running_loop w.

(** A run on one open connection: elsewhere nothing changes. *)
Record frame (c : nat) (w w' : world) : Prop := {
  frame_wf : (c < connections w)%nat -> wf w -> wf w';
  frame_other c' : c' <> c -> may_hold c' (trace w') = may_hold c' (trace w);
  frame_connections : connections w' = connections w;
  frame_trace : exists t, trace w' = trace w ++ t;
}.
#[export] Instance frame_preorder c : PreOrder (frame c).
Proof.
  split.
  - intros w. split; [done|done|done|]. exists []. by rewrite app_nil_r.
  - intros w1 w2 w3 [A1 B1 C1 [t1 D1]] [A2 B2 C2 [t2 D2]]. split.
    + intros Hc Hw. apply A2; [by rewrite C1|by apply A1].
    + intros c' Hne. by rewrite B2, B1.
    + by rewrite C2, C1.
    + exists (t1 ++ t2). by rewrite D2, D1, app_assoc.
Qed.

(** Events about [c], or about no connection. *)
Definition about (c : nat) (e : event) : Prop :=
  forall c' held, c' <> c -> may_step c' held e = held.

Lemma frame_log c e w :
  about c e -> (forall c' r, e = EClose c' r -> c' = c /\ may_hold c (trace w) = []) -> frame c w (log e w).
Proof.
  intros Ha Hc. split; cbn.
  - intros Hlt [Hp Hf]. split; cbn.
    + apply pooled_free_snoc; [done|]. intros c' r He. by destruct (Hc _ _ He) as [-> ?].
    + intros c' Hge. rewrite may_hold_snoc, Ha by lia. by apply Hf.
  - intros c' Hne. by rewrite may_hold_snoc, Ha.
  - done.
  - by eexists.
Qed.

(** A run on one connection that changes no object: [f] is its effect on
    what the session may hold. *)
Definition moves (c : nat) (f : list lock -> list lock) (w w' : world) : Prop :=
  frame c w w' /\ may_hold c (trace w') = f (may_hold c (trace w)) /\ same_objects w w'.

Lemma moves_refl c w : moves c id w w.
Proof. split_and!; [done|done|by split_and!]. Qed.
Lemma moves_trans c f g w1 w2 w3 : moves c f w1 w2 -> moves c g w2 w3 -> moves c (fun h => g (f h)) w1 w3.
Proof.
  intros (A1 & B1 & C1 & C2 & C3 & C4 & C5 & C6) (A2 & B2 & D1 & D2 & D3 & D4 & D5 & D6).
  split_and!; [by transitivity w2|by rewrite B2, B1|split_and!; congruence].
Qed.
Lemma moves_log c e w :
  about c e -> (forall c' r, e <> EClose c' r) -> moves c (fun h => may_step c h e) w (log e w).
Proof.
  intros Ha Hc. split_and!; [|cbn; by rewrite may_hold_snoc|by split_and!].
  apply frame_log; [done|]. intros c' r He. by destruct (Hc c' r).
Qed.

Ltac about_event :=
  intros c' held Hne; cbn; repeat case_match; try done;
  match goal with H : (_ =? _)%nat = true |- _ => apply Nat.eqb_eq in H; congruence end.
Ltac logged := apply moves_log; [about_event|done].

(** [e] happened between the two states. *)
Definition logged (e : event) (w w' : world) : Prop := exists t, trace w' = trace w ++ t /\ e ∈ t.
Lemma logged_after c e w1 w2 w3 : frame c w1 w2 -> logged e w2 w3 -> logged e w1 w3.
Proof. intros [_ _ _ [t E]] [t' [E' H]]. exists (t ++ t'). rewrite E', E, app_assoc. set_solver. Qed.
Lemma logged_before c e w1 w2 w3 : logged e w1 w2 -> frame c w2 w3 -> logged e w1 w3.
Proof. intros [t' [E' H]] [_ _ _ [t E]]. exists (t' ++ t). rewrite E, E', app_assoc. set_solver. Qed.
(** The connection was once seen closed. *)
Definition was_closed `{Environment} (c : nat) (w : world) : Prop :=
  exists t t', trace w = t ++ t' /\ is_closed t c = true.
Lemma was_closed_frame `{Environment} c c' w w' : frame c' w w' -> was_closed c w -> was_closed c w'.
Proof. intros [_ _ _ [t E]] (t1 & t2 & E' & H'). exists t1, (t2 ++ t). by rewrite E, E', app_assoc. Qed.

Section Specs.
Context {env : Environment}.

Lemma moves_quiet c e w : (forall held, may_step c held e = held) -> about c e -> (forall c' r, e <> EClose c' r) ->
  moves c id w (log e w).
Proof.
  intros Hq Ha Hc. destruct (moves_log c e w Ha Hc) as (A & B & C). split_and!; [done| |done].
  rewrite B, Hq. done.
Qed.
Ltac quiet := apply moves_quiet; [done|done|done].

Lemma commit_spec c (Q : answer unit -> world -> Prop) w :
  (forall r w', moves c id w w' -> Q r w') -> wp (commit c) Q w.
Proof. intros H. apply wp_operation. intros r _. apply H. quiet. Qed.
Lemma commit_if_spec b c (Q : answer unit -> world -> Prop) w :
  (forall r w', moves c id w w' -> Q r w') -> wp (commit_if b c) Q w.
Proof. intros H. destruct b; [by apply commit_spec|]. apply wp_ret, H, moves_refl. Qed.
Lemma rollback_spec c (Q : answer unit -> world -> Prop) w :
  (forall r w', moves c id w w' -> Q r w') -> wp (rollback c) Q w.
Proof. intros H. apply wp_operation. intros r _. apply H. quiet. Qed.
Lemma in_tx_spec c (Q : answer bool -> world -> Prop) w :
  (forall b w', moves c id w w' -> Q (Ok b) w') -> wp (in_tx c) Q w.
Proof. intros H. apply wp_observe. intros b _. apply H. quiet. Qed.
Lemma now_spec c (Q : answer Z -> world -> Prop) w :
  (forall t w', moves c id w w' -> Q (Ok t) w') -> wp now Q w.
Proof. intros H. apply wp_observe. intros b _. apply H. quiet. Qed.
Lemma expired_spec c (Q : answer bool -> world -> Prop) w :
  (forall b w', moves c id w w' -> Q (Ok b) w') -> wp (observe expired EExpired) Q w.
Proof. intros H. apply wp_observe. intros b _. apply H. quiet. Qed.
Lemma sleep_spec c d (Q : answer unit -> world -> Prop) w :
  (forall r w', moves c id w w' -> Q r w') -> wp (sleep d) Q w.
Proof. intros H. apply wp_operation. intros r _. apply H. quiet. Qed.
Lemma remaining_spec c d (Q : answer Z -> world -> Prop) w :
  (forall t w', moves c id w w' -> Q (Ok t) w') -> wp (_remaining d) Q w.
Proof. intros H. apply wp_bind, (now_spec c). intros t w' Hm. by apply wp_ret, H. Qed.
Lemma identity_spec c (Q : answer (Z * Z) -> world -> Prop) w :
  (forall r w', moves c id w w' -> EIdentity c r ∈ trace w' -> Q r w') -> wp (identity_query c) Q w.
Proof. intros H. apply wp_operation. intros r _. apply H; [quiet|cbn; set_solver]. Qed.
Lemma migration_key_spec c (Q : answer Z -> world -> Prop) w :
  (forall r w', moves c id w w' -> Q r w') -> wp (migration_key_query c) Q w.
Proof. intros H. apply wp_operation. intros r _. apply H. quiet. Qed.
Lemma owns_spec c m i j (Q : answer (Z * bool) -> world -> Prop) w :
  (forall r w', moves c id w w' -> Q r w') ->
  wp (operation (fun t => owns_answer t c m i j) (EOwnsLock c m i j)) Q w.
Proof. intros H. apply wp_operation. intros r _. apply H. quiet. Qed.

Lemma gone_spec c (Q : answer bool -> world -> Prop) w :
  (forall w', moves c id w w' -> Q (Ok false) w') -> (forall w', moves c (fun _ => []) w w' -> Q (Ok true) w') ->
  wp (gone c) Q w.
Proof.
  intros Hf Ht. apply wp_observe. intros [] _; [apply Ht|apply Hf; quiet].
  destruct (moves_log c (EGone c true) w) as (A & B & C); [about_event|done|].
  split_and!; [done| |done]. rewrite B. cbn. by rewrite Nat.eqb_refl.
Qed.
Lemma gone_spec' c (Q : answer bool -> world -> Prop) w :
  (forall w', moves c id w w' -> is_gone (trace w) c = false -> Q (Ok false) w') ->
  (forall w', moves c (fun _ => []) w w' -> Q (Ok true) w') ->
  wp (gone c) Q w.
Proof.
  intros Hf Ht. apply wp_observe. intros b Hb. destruct b; [apply Ht|apply Hf; [quiet|done]].
  destruct (moves_log c (EGone c true) w) as (A & B & C); [about_event|done|].
  split_and!; [done| |done]. rewrite B. cbn. by rewrite Nat.eqb_refl.
Qed.
Lemma closed_spec c (Q : answer bool -> world -> Prop) w :
  (forall w', moves c id w w' -> Q (Ok false) w') -> (forall w', moves c (fun _ => []) w w' -> Q (Ok true) w') ->
  wp (closed_ c) Q w.
Proof.
  intros Hf Ht. apply wp_observe. intros [] _; [apply Ht|apply Hf; quiet].
  destruct (moves_log c (EClosed c true) w) as (A & B & C); [about_event|done|].
  split_and!; [done| |done]. rewrite B. cbn. by rewrite Nat.eqb_refl.
Qed.
Lemma cleanup_spec c (Q : answer unit -> world -> Prop) w :
  (forall t c, invalidate_answer t c = Ok tt) ->
  (forall w', moves c (fun _ => []) w w' -> Q (Ok tt) w') -> wp (_cleanup_connection c) Q w.
Proof.
  intros works H. apply wp_cleanup. rewrite works. apply H.
  destruct (moves_log c (EInvalidate c (Ok tt)) w) as (A & B & C); [about_event|done|].
  split_and!; [done| |done]. rewrite B. cbn. by rewrite Nat.eqb_refl.
Qed.
Lemma try_lock_spec c m k (Q : answer bool -> world -> Prop) w :
  (forall w', moves c id w w' -> Q (Ok false) w') ->
  (forall r w', r <> Ok false -> moves c (cons (m, k)) w w' -> ETryLock c m k r ∈ trace w' -> Q r w') ->
  wp (try_lock c m k) Q w.
Proof.
  intros Hf Ht. apply wp_operation. intros r _.
  assert (r = Ok false \/ r <> Ok false) as [->|Hr] by (destruct r as [[]|]; auto).
  - apply Hf. apply moves_quiet; [|about_event|done]. intros held. cbn. by case_match.
  - apply Ht; [done| |cbn; set_solver].
    destruct (moves_log c (ETryLock c m k r) w) as (A & B & C); [about_event|done|].
    split_and!; [done| |done]. rewrite B. cbn. rewrite Nat.eqb_refl. by destruct r as [[]|].
Qed.
Lemma wait_lock_spec c k d (Q : answer unit -> world -> Prop) w :
  (forall r w', moves c (cons (EXCLUSIVE, k)) w w' -> EWaitLock c k d r ∈ trace w' -> Q r w') ->
  wp (wait_lock c k d) Q w.
Proof.
  intros Ht. apply wp_operation. intros r _. apply Ht; [|cbn; set_solver].
  destruct (moves_log c (EWaitLock c k d r) w) as (A & B & C); [about_event|done|].
  split_and!; [done| |done]. rewrite B. cbn. by rewrite Nat.eqb_refl.
Qed.
Lemma unlock_spec c m k (Q : answer (Z * bool) -> world -> Prop) w :
  (forall r w', (forall p, r <> Ok (p, true)) -> moves c id w w' -> Q r w') ->
  (forall p w', moves c (release_one (m, k)) w w' -> logged (EUnlock c m k (Ok (p, true))) w w' -> Q (Ok (p, true)) w') ->
  wp (unlock c m k) Q w.
Proof.
  intros Hf Ht. apply wp_operation. intros r _. destruct r as [[p []]|e].
  - apply Ht; [|eexists; split; [done|]; set_solver].
    destruct (moves_log c (EUnlock c m k (Ok (p, true))) w) as (A & B & C); [about_event|done|].
    split_and!; [done| |done]. rewrite B. cbn. by rewrite Nat.eqb_refl.
  - apply Hf; [done|quiet].
  - apply Hf; [done|quiet].
Qed.
End Specs.

(** ** Runs that also write lease objects *)

(** The lease [i] of [P] is what it was, but for its current owner. *)
Definition agree (P : nat -> Prop) (w w' : world) : Prop :=
  forall i, P i -> set_owner false None <$> leases w' !! i = set_owner false None <$> leases w !! i.
Definition older (w : world) (i : nat) : Prop := (i < length (leases w))%nat.

Lemma agree_refl P w : agree P w w.
Proof. by intros i _. Qed.
Lemma agree_trans P w1 w2 w3 : agree P w1 w2 -> agree P w2 w3 -> agree P w1 w3.
Proof. intros A B i Hi. by rewrite (B i Hi), (A i Hi). Qed.
Lemma agree_weaken (P P' : nat -> Prop) w w' : (forall i, P i -> P' i) -> agree P' w w' -> agree P w w'.
Proof. intros H A i Hi. by apply A, H. Qed.
Lemma agree_older w w' i : agree (older w) w w' -> older w i -> older w' i.
Proof.
  intros A Hi. specialize (A i Hi). unfold older in *.
  destruct (lookup_lt_is_Some_2 _ _ Hi) as [l Hl]. rewrite Hl in A.
  apply lookup_lt_is_Some_1. destruct (leases w' !! i); [by eexists|done].
Qed.

(** On one connection, and with every lease of [P] as it was. *)
Definition local (c : nat) (P : nat -> Prop) (w w' : world) : Prop := frame c w w' /\ agree P w w'.
#[export] Instance local_preorder c P : PreOrder (local c P).
Proof.
  split; [by split; [|apply agree_refl]|]. intros w1 w2 w3 [A B] [C D].
  split; [by transitivity w2|by eapply agree_trans].
Qed.
Lemma moves_local c f P w w' : moves c f w w' -> local c P w w'.
Proof. intros (A & _ & (B & _)). split; [done|]. intros i _. by rewrite B. Qed.
Lemma local_weaken c (P P' : nat -> Prop) w w' : (forall i, P i -> P' i) -> local c P' w w' -> local c P w w'.
Proof. intros H [A B]. split; [done|by eapply agree_weaken]. Qed.

(** What a block that uses the barrier leaves behind. *)
Record keeps (w w' : world) : Prop := {
  keeps_wf : wf w';
  keeps_connections : (connections w <= connections w')%nat;
  keeps_locks c : may_hold c (trace w') = may_hold c (trace w) \/ may_hold c (trace w') = [];
  keeps_leases : agree (older w) w w';
}.
(** From any state with at least [n] connections. *)
Definition keeping {A} (n : nat) (m : M A) : Prop :=
  forall w, wf w -> (n <= connections w)%nat -> wp m (fun _ w' => keeps w w') w.

Lemma keeps_refl w : wf w -> keeps w w.
Proof. split; [done|done|by left|apply agree_refl]. Qed.
Lemma keeps_trans w1 w2 w3 : keeps w1 w2 -> keeps w2 w3 -> keeps w1 w3.
Proof.
  intros [A1 B1 C1 D1] [A2 B2 C2 D2]. split; [done|lia| |].
  - intros c. destruct (C2 c) as [->| ->]; [apply C1|by right].
  - intros i Hi. rewrite D2 by (by apply (agree_older w1)). by apply D1.
Qed.

(** The lease [ref] holds its lock on [c], beyond the locks [held], unless its
    session has ended. *)
Definition leased (w : world) (ref c : nat) (held : list lock) : Prop :=
  exists l, leases w !! ref = Some l /\ connection l = c /\ _barrier_acquired l = true /\
    (owns_connection l = true -> held = []) /\
    (may_hold c (trace w) = (mode l, barrier_key l) :: held \/ may_hold c (trace w) = []).

(** The server answered that the session was granted the lock. *)
Definition granted (c : nat) (m : WriteBarrierMode) (key : Z) (t : list event) : Prop :=
  ETryLock c m key (Ok true) ∈ t \/ (m = EXCLUSIVE /\ exists d, EWaitLock c key d (Ok tt) ∈ t).

Lemma frame_in c e w w' : frame c w w' -> e ∈ trace w -> e ∈ trace w'.
Proof. intros [_ _ _ [t ->]]. set_solver. Qed.
Lemma granted_frame c c' m key w w' :
  frame c' w w' -> granted c m key (trace w) -> granted c m key (trace w').
Proof. intros F [H|[-> [d H]]]; [left|right; split; [done|exists d]]; by eapply frame_in. Qed.

Section Acquiring.
Context {env : Environment}.

Lemma wait_in_queue_spec c key d label ft (Q : answer unit -> world -> Prop) w :
  (forall w', moves c (cons (EXCLUSIVE, key)) w w' -> granted c EXCLUSIVE key (trace w') -> Q (Ok tt) w') ->
  (forall e f w', moves c f w w' -> Q (Err e) w') ->
  wp (wait_in_queue c key d label ft) Q w.
Proof.
  intros Hok Herr. unfold wait_in_queue. apply wp_bind, wp_attempt, wp_bind, wait_lock_spec.
  intros [u|e] w1 H1 Hin.
  - apply commit_if_spec. intros [u'|[]] w2 H2; pose proof (moves_trans _ _ _ _ _ _ H1 H2) as H3;
      try (by apply wp_raise; eapply Herr); 
      [destruct u; apply wp_ret, Hok; [done|];
       eapply granted_frame; [apply H2|]; right; by eauto|].
    apply wp_bind, (expired_spec c). intros b w4 H4. apply wp_raise.
    destruct b; eapply Herr, (moves_trans _ _ _ _ _ _ H3 H4).
  - destruct e; try (by apply wp_raise; eapply Herr).
    apply wp_bind, (expired_spec c). intros b w4 H4. apply wp_raise.
    destruct b; eapply Herr, (moves_trans _ _ _ _ _ _ H1 H4).
Qed.

Lemma acquire_loop_spec n c key m d label ft (Q : answer unit -> world -> Prop) w :
  (forall w', moves c (cons (m, key)) w w' -> granted c m key (trace w') -> Q (Ok tt) w') ->
  (forall e f w', moves c f w w' -> Q (Err e) w') ->
  wp (acquire_loop n c key m d label ft) Q w.
Proof.
  revert w. induction n as [|n IH]; intros w Hok Herr; cbn [acquire_loop].
  { apply wp_raise. eapply Herr, moves_refl. }
  apply wp_bind, wp_translate, wp_bind, try_lock_spec.
  - intros w1 H1. apply wp_bind, commit_if_spec. intros [u|e] w2 H2;
      pose proof (moves_trans _ _ _ _ _ _ H1 H2) as H3; [|by eapply Herr].
    apply wp_ret, wp_bind, (remaining_spec c). intros t w4 H4.
    pose proof (moves_trans _ _ _ _ _ _ H3 H4) as H5. case_match.
    { apply wp_raise. by eapply Herr. }
    destruct m.
    + apply wp_bind, (sleep_spec c). intros r w6 H6. pose proof (moves_trans _ _ _ _ _ _ H5 H6) as H7.
      destruct r; [|by eapply Herr]. apply IH.
      * intros w8 H8. by apply Hok, (moves_trans _ _ _ _ _ _ H7 H8).
      * intros e f w8 H8. eapply Herr, (moves_trans _ _ _ _ _ _ H7 H8).
    + apply wait_in_queue_spec.
      * intros w8 H8. by apply Hok, (moves_trans _ _ _ _ _ _ H5 H8).
      * intros e f w8 H8. eapply Herr, (moves_trans _ _ _ _ _ _ H5 H8).
  - intros r w1 Hr H1 Hin. destruct r as [[]|e]; [|done|by eapply Herr].
    apply wp_bind, commit_if_spec. intros [u|e] w2 H2; pose proof (moves_trans _ _ _ _ _ _ H1 H2) as H3.
    + apply wp_ret, wp_ret, Hok; [done|]. eapply granted_frame; [apply H2|by left].
    + by eapply Herr.
Qed.
End Acquiring.

(** ** Writing lease objects *)
Lemma frame_same_trace c w w' :
  trace w' = trace w -> connections w' = connections w -> frame c w w'.
Proof.
  intros Ht Hc. split; [|by rewrite Ht|done|exists []; by rewrite app_nil_r].
  intros _ [Hp Hf]. split; [by rewrite Ht|]. rewrite Hc, Ht. apply Hf.
Qed.
Lemma local_set_lease c P ref f w :
  (forall i, P i -> i <> ref) -> local c P w (with_leases (alter f ref) w).
Proof.
  intros HP. split; [by apply frame_same_trace|]. intros i Hi. cbn.
  rewrite list_lookup_alter_ne; [done|]. intros ->. by destruct (HP i).
Qed.
Lemma local_set_owner c P ref a o w : local c P w (with_leases (alter (set_owner a o) ref) w).
Proof.
  split; [by apply frame_same_trace|]. intros i _. cbn.
  destruct (decide (i = ref)) as [->|Hne]; [|by rewrite list_lookup_alter_ne by congruence].
  rewrite list_lookup_alter_eq. by destruct (leases w !! ref).
Qed.
Lemma wp_set_lease ref f (Q : answer unit -> world -> Prop) w :
  Q (Ok tt) (with_leases (alter f ref) w) -> wp (set_lease ref f) Q w.
Proof. done. Qed.
Lemma local_new_lease c l w : local c (older w) w (with_leases (fun ls => ls ++ [l]) w).
Proof. split; [by apply frame_same_trace|]. intros i Hi. cbn. by rewrite lookup_app_l by exact Hi. Qed.
Lemma lease_at_lookup w ref l : leases w !! ref = Some l -> lease_at w ref = l.
Proof. unfold lease_at. by intros ->. Qed.

Lemma keeps_of_local c w w' :
  (c < connections w)%nat -> wf w -> local c (older w) w w' ->
  may_hold c (trace w') = may_hold c (trace w) \/ may_hold c (trace w') = [] -> keeps w w'.
Proof.
  intros Hc Hw [HF Ha] Hm. split; [by eapply frame_wf|by rewrite (frame_connections _ _ _ HF)| |done].
  intros c'. destruct (decide (c' = c)) as [->|Hne]; [done|]. left. by eapply frame_other.
Qed.

(** [wf] after an event about no session. *)
Lemma wf_log e w : (forall c held, may_step c held e = held) -> (forall c r, e <> EClose c r) -> wf w -> wf (log e w).
Proof.
  intros Hq Hc [Hp Hf]. split; cbn.
  - apply pooled_free_snoc; [done|]. intros c r He. by destruct (Hc c r).
  - intros c Hge. rewrite may_hold_snoc, Hq. by apply Hf.
Qed.
Lemma keeps_log e w :
  (forall c held, may_step c held e = held) -> (forall c r, e <> EClose c r) -> wf w -> keeps w (log e w).
Proof.
  intros Hq Hc Hw. split; [by apply wf_log|done| |by intros i _]. intros c. left. cbn.
  by rewrite may_hold_snoc, Hq.
Qed.

(** Closing a connection whose session holds nothing. *)
Lemma close_spec {env : Environment} c (Q : answer unit -> world -> Prop) w :
  may_hold c (trace w) = [] ->
  (forall r w', frame c w w' -> may_hold c (trace w') = [] -> same_objects w w' -> Q r w') ->
  wp (close_connection c) Q w.
Proof.
  intros Hm H. apply wp_operation. intros r _. apply H; [|cbn; by rewrite may_hold_snoc|by split_and!].
  apply frame_log; [about_event|]. intros c' r' [= -> ->]. done.
Qed.

(** ** Releasing *)
Section Releasing.
Context {env : Environment}.

(** On success the lock was given up, and the lease says so. *)
Definition released (ref : nat) (l : WriteBarrierLease) (w : world) : Prop :=
  exists b, leases w !! ref = Some (set_acquired b l).

Lemma released_moves ref l c f w w' : leases w !! ref = Some l -> moves c f w w' -> released ref l w'.
Proof. intros Hl (_ & _ & E & _). exists (_barrier_acquired l). rewrite E, Hl. by destruct l. Qed.

Lemma release_steps_spec ref l (Q : answer unit -> world -> Prop) w :
  leases w !! ref = Some l -> _barrier_acquired l = true ->
  (forall w', local (connection l) (fun i => i <> ref) w w' ->
     may_hold (connection l) (trace w') = release_one (mode l, barrier_key l) (may_hold (connection l) (trace w)) ->
     logged (EUnlock (connection l) (mode l) (barrier_key l) (Ok (backend_pid l, true))) w w' ->
     released ref l w' -> Q (Ok tt) w') ->
  (forall e w', local (connection l) (fun i => i <> ref) w w' -> released ref l w' -> Q (Err e) w') ->
  wp (release_steps ref) Q w.
Proof.
  intros Hl Ha Hok Herr. set (c := connection l) in *.
  unfold release_steps. apply wp_bind, wp_get_lease. rewrite (lease_at_lookup _ _ _ Hl). fold c.
  apply wp_bind.
  enough (forall b w1, moves c id w w1 -> wp
    ((if b : bool then rollback c else mret tt) ≫= (fun _ => if _barrier_acquired l
      then _release_lock ref (barrier_key l) (mode l) (barrier_label (mode l)) (owns_connection l) else mret tt)) Q w1)
    as H by (destruct (owns_connection l); [by apply in_tx_spec|by apply wp_ret, (H false), moves_refl]).
  rewrite Ha. intros b w1 H1. apply wp_bind.
  enough (forall w2, moves c id w w2 ->
    wp (_release_lock ref (barrier_key l) (mode l) (barrier_label (mode l)) (owns_connection l)) Q w2) as H.
  { destruct b; [|by apply wp_ret, H]. apply rollback_spec. intros [u|e] w2 H2;
      pose proof (moves_trans _ _ _ _ _ _ H1 H2) as H3; [by apply H|].
    eapply Herr; [eapply moves_local, H3|by eapply released_moves]. }
  clear b w1 H1. intros w2 H2. unfold _release_lock. apply wp_bind, wp_get_lease.
  assert (Hl2 : leases w2 !! ref = Some l) by (destruct H2 as (_ & _ & E & _); by rewrite E).
  rewrite (lease_at_lookup _ _ _ Hl2). fold c.
  assert (Herr' : forall e f w', moves c f w2 w' -> Q (Err e) w').
  { intros e f w' Hm. eapply Herr; [|by eapply released_moves].
    eapply moves_local, moves_trans; [exact H2|exact Hm]. }
  apply wp_bind, wp_translate, wp_bind, unlock_spec.
  - intros r w3 Hr H3. destruct r as [row|e]; [|by eapply Herr'].
    apply wp_bind, commit_if_spec. intros [u|e] w4 H4;
      pose proof (moves_trans _ _ _ _ _ _ H3 H4) as H5; [|by eapply Herr'].
    apply wp_ret. destruct row as [p []]; [by destruct (Hr p)|]. cbn [fst snd negb].
    rewrite orb_true_r. apply wp_raise. by eapply Herr'.
  - intros p w3 H3 Hev. apply wp_bind, commit_if_spec. intros [u|e] w4 H4;
      pose proof (moves_trans _ _ _ _ _ _ H3 H4) as H5; [|by eapply Herr'].
    apply wp_ret. cbn [fst snd negb]. rewrite orb_false_r. case_match eqn:Hp; [apply wp_raise; by eapply Herr'|].
    apply negb_false_iff, Z.eqb_eq in Hp as ->. apply wp_set_lease.
    destruct (moves_trans _ _ _ _ _ _ H2 H5) as (F & B & C). apply Hok.
    + transitivity w4; [eapply moves_local; by split_and!|]. by apply local_set_lease.
    + exact B.
    + exact (logged_after c _ _ _ _ (proj1 H2) (logged_before c _ _ _ _ Hev (proj1 H4))).
    + exists false. cbn. by rewrite list_lookup_alter_eq, (proj1 C), Hl.
Qed.

Context (invalidation_works : forall t c, invalidate_answer t c = Ok tt).

Lemma or_cleanup_spec {A} c (m : M A) (Q : answer A -> world -> Prop) w :
  wp m (fun r w' => match r with
    | Ok a => Q (Ok a) w'
    | Err e => forall w'', moves c (fun _ => []) w' w'' -> Q (Err e) w''
    end) w -> wp (or_cleanup c m) Q w.
Proof.
  intros H. apply wp_bind, wp_attempt. eapply wp_mono; [exact H|]. intros [a|e] w' HQ; [done|].
  apply wp_bind, cleanup_spec; [done|]. intros w'' Hm. by apply wp_raise, HQ.
Qed.

Lemma release_lease_spec ref l (Q : answer unit -> world -> Prop) w :
  leases w !! ref = Some l -> _barrier_acquired l = true ->
  (forall w', local (connection l) (fun i => i <> ref) w w' ->
     may_hold (connection l) (trace w') = release_one (mode l, barrier_key l) (may_hold (connection l) (trace w)) ->
     logged (EUnlock (connection l) (mode l) (barrier_key l) (Ok (backend_pid l, true))) w w' ->
     is_gone (trace w) (connection l) = false -> released ref l w' -> Q (Ok tt) w') ->
  (forall e w', local (connection l) (fun i => i <> ref) w w' -> may_hold (connection l) (trace w') = [] ->
     released ref l w' -> Q (Err e) w') ->
  wp (_release_lease ref) Q w.
Proof.
  intros Hl Ha Hok Herr. unfold _release_lease. apply wp_bind, wp_get_lease.
  rewrite (lease_at_lookup _ _ _ Hl). apply wp_bind, gone_spec'.
  - intros w1 H1 Hgone. apply or_cleanup_spec.
    assert (Hl1 : leases w1 !! ref = Some l) by (destruct H1 as (_ & _ & E & _); by rewrite E).
    assert (Hm : may_hold (connection l) (trace w1) = may_hold (connection l) (trace w)) by apply H1.
    assert (F1 : frame (connection l) w w1) by apply H1.
    eapply moves_local in H1. eapply release_steps_spec; [done..| |].
    + intros w2 H2 Hm2 Hev Hr. rewrite Hm in Hm2.
      apply Hok; [by transitivity w1|done|by eapply logged_after|done..].
    + intros e w2 H2 Hr w3 H3. apply Herr; [|apply H3|].
      * transitivity w1; [done|]. transitivity w2; [done|]. by eapply moves_local.
      * destruct Hr as [b Hr], H3 as (_ & _ & E & _). exists b. by rewrite E.
  - intros w1 H1. apply wp_raise. apply Herr; [by eapply moves_local|apply H1|by eapply released_moves].
Qed.

(** ** Opening a lease *)

(** A failed acquisition ends the session. *)
Lemma abandon_spec c lease (Q : answer unit -> world -> Prop) w :
  (forall ref, lease = Some ref -> _barrier_acquired (lease_at w ref) = false) ->
  (forall w', moves c (fun _ => []) w w' -> Q (Ok tt) w') -> wp (abandon c lease) Q w.
Proof.
  intros Hl H. unfold abandon. apply wp_bind, wp_get. destruct lease as [ref|]; [|by apply cleanup_spec].
  rewrite Hl by done. by apply cleanup_spec.
Qed.

(** What [lease_steps] returns: the lease holding its lock, or one that was
    never granted. *)
Definition steps_outcome (c : nat) (m : WriteBarrierMode) (owns : bool) (held : list lock) (steps : option nat * answer nat)
    (w : world) : Prop :=
  match steps with
  | (Some ref, Ok ref') => ref' = ref /\ exists l, leases w !! ref = Some l /\ connection l = c /\ mode l = m /\
      owns_connection l = owns /\ _barrier_acquired l = true /\
      granted c m (barrier_key l) (trace w) /\ may_hold c (trace w) = (m, barrier_key l) :: held
  | (None, Ok _) => False
  | (Some ref, Err _) => _barrier_acquired (lease_at w ref) = false
  | (None, Err _) => True
  end.

Lemma lease_steps_spec fuel c m d engine owns (Q : answer (option nat * answer nat) -> world -> Prop) w :
  (forall steps w', local c (older w) w w' -> (forall ref, fst steps = Some ref -> ref = length (leases w)) ->
     steps_outcome c m owns (may_hold c (trace w)) steps w' -> Q (Ok steps) w') ->
  wp (lease_steps fuel c m d engine owns) Q w.
Proof.
  clear invalidation_works. intros H. unfold lease_steps. apply wp_bind, wp_attempt.
  enough (HI : forall r w1, moves c id w w1 -> wp (match r with
    | Ok (key, pid) => ref ← new_lease (mkLease c m pid key engine owns false false None);
        r ← attempt (_acquire_lock fuel c key m d (barrier_label m) owns);
        match r with
        | Ok _ => set_lease ref (set_acquired true) ≫= (fun _ => mret (Some ref, Ok ref))
        | Err e => mret (Some ref, Err e)
        end
    | Err e => mret (None, Err e)
    end) Q w1).
  { destruct owns.
    - apply wp_translate, wp_bind, identity_spec. intros r w1 H1 _. destruct r as [kp|e]; [|by apply (HI (Err _))].
      apply wp_bind, commit_spec. intros [u|e] w2 H2; pose proof (moves_trans _ _ _ _ _ _ H1 H2) as H3.
      + by apply wp_ret, (HI (Ok kp)).
      + by apply (HI (Err _)).
    - apply identity_spec. intros r w1 H1 _. by apply HI. }
  intros r w1 (F1 & B1 & C1 & C2). destruct r as [[key pid]|e].
  2:{ apply wp_ret, H; [|done|done]. eapply moves_local. by split_and!. }
  assert (Hlt : older w1 = older w) by (unfold older; by rewrite C1).
  assert (L1 : local c (older w) w w1) by (eapply moves_local; by split_and!).
  apply wp_bind. unfold wp at 1. cbn.
  set (l := mkLease c m pid key engine owns false false None).
  set (w2 := with_leases (fun ls => ls ++ [l]) w1).
  assert (L2 : local c (older w) w w2).
  { transitivity w1; [done|]. rewrite <- Hlt. apply local_new_lease. }
  assert (Hl2 : leases w2 !! length (leases w1) = Some l) by (cbn; by rewrite lookup_app_r, Nat.sub_diag by lia).
  apply wp_bind, wp_attempt, acquire_loop_spec.
  - intros w3 (F3 & B3 & C3 & C4) G3. apply wp_bind, wp_set_lease, wp_ret, H.
    + transitivity w2; [done|]. transitivity w3; [eapply moves_local; by split_and!|].
      apply local_set_lease. unfold older. rewrite C1. intros i Hi. lia.
    + intros ref [= <-]. by rewrite C1.
    + split; [done|]. exists (set_acquired true l). split_and!; try done.
      * cbn. rewrite list_lookup_alter_eq, C3, Hl2. done.
      * cbn. rewrite B3. cbn. by rewrite B1.
  - intros e f w3 H3. apply wp_ret, H; [transitivity w2; [done|by eapply moves_local]|..].
    + intros ref [= <-]. by rewrite C1.
    + destruct H3 as (_ & _ & C3 & _). cbn. by rewrite (lease_at_lookup _ _ l) by (by rewrite C3).
Qed.

(** A lease [ref] on [c] was opened since [w]. *)
Record opened (m : WriteBarrierMode) (w w' : world) (ref c : nat) : Prop := {
  opened_wf : wf w';
  opened_connections : (connections w <= connections w')%nat;
  opened_open : (c < connections w')%nat;
  opened_other c' : c' <> c -> may_hold c' (trace w') = may_hold c' (trace w);
  opened_older : agree (older w) w w';
  opened_new : ~ older w ref;
  opened_leased : leased w' ref c (may_hold c (trace w));
  opened_granted : exists l, leases w' !! ref = Some l /\ mode l = m /\ granted c m (barrier_key l) (trace w') /\
    may_hold c (trace w') = (m, barrier_key l) :: may_hold c (trace w);
}.

Lemma opened_steps c m owns w w1 w' ref :
  wf w1 -> (connections w <= connections w1)%nat -> (c < connections w1)%nat ->
  leases w1 = leases w -> (forall c', may_hold c' (trace w1) = may_hold c' (trace w)) ->
  (owns = true -> may_hold c (trace w) = []) ->
  local c (older w1) w1 w' -> ref = length (leases w1) ->
  steps_outcome c m owns (may_hold c (trace w1)) (Some ref, Ok ref) w' -> opened m w w' ref c.
Proof.
  clear invalidation_works.
  intros Hw1 Hle Hc Hl Hm Hown [HF Ha] Href [_ (l & Hlk & E1 & E2 & E3 & E4 & E5 & E6)]. split.
  - by eapply frame_wf.
  - by rewrite (frame_connections _ _ _ HF).
  - by rewrite (frame_connections _ _ _ HF).
  - intros c' Hne. by rewrite (frame_other _ _ _ HF), Hm.
  - intros i Hi. rewrite <- Hl. apply Ha. unfold older in *. by rewrite Hl.
  - unfold older. rewrite Href, Hl. lia.
  - exists l. subst m owns. split_and!; try done. rewrite E6, Hm. by left.
  - exists l. split_and!; [done..|]. by rewrite E6, Hm.
Qed.

(** Whichever step failed, no lock of the new connection is left. *)
Lemma open_lease_spec fuel engine m timeout (Q : answer nat -> world -> Prop) w :
  wf w ->
  (forall ref w', opened m w w' ref (connections w) -> Q (Ok ref) w') -> (forall e w', keeps w w' -> Q (Err e) w') ->
  wp (_open_lease fuel engine m timeout) Q w.
Proof.
  intros Hw Hok Herr. unfold _open_lease, _validate_timeout.
  assert (Herr0 : forall e, Q (Err e) w) by (intros e; by apply Herr, keeps_refl).
  apply wp_bind. destruct timeout as [t|]; [|by apply wp_raise].
  case_match; [by apply wp_raise|]. apply wp_ret, wp_bind.
  set (c := connections w) in *.
  apply wp_observe. intros t0 _. set (w1 := log (ETime t0) w).
  apply wp_bind, wp_bind, wp_observe. intros t2 _. set (w2 := log (ETime t2) w1).
  assert (Hw1 : keeps w w1) by by apply keeps_log.
  assert (Hw2 : keeps w w2) by (eapply keeps_trans; [exact Hw1|apply keeps_log; [done|done|apply Hw1]]).
  apply wp_ret, wp_bind, wp_attempt. unfold wp at 1, engine_connect.
  destruct (connect_answer (trace w2) _) as [u|e] eqn:Hc.
  2:{ assert (keeps w (log (EConnect (Z.max (Z.max 0 (t0 + t - t2)) (10 ^ 6)) (Err e)) w2)) as Hk.
      { eapply keeps_trans; [exact Hw2|]. apply keeps_log; [done|done|apply Hw2]. }
      cbn [fst snd]. destruct e; by apply wp_raise, Herr. }
  cbn [fst snd]. set (w3 := with_connections S _).
  assert (Hm3 : forall c', may_hold c' (trace w3) = may_hold c' (trace w)).
  { intros c'. subst w3 w2 w1. cbn. by rewrite !may_hold_snoc. }
  assert (Hw3 : wf w3).
  { split; cbn; [apply pooled_free_snoc; [apply Hw2|done]|].
    intros c' Hge. change (may_hold c' (trace w3) = []). rewrite Hm3. apply Hw. lia. }
  assert (Hfree : may_hold c (trace w) = []) by (by apply Hw).
  apply wp_bind, lease_steps_spec. intros steps w4 H4 Href Hout.
  destruct steps as [lease [ref|e]]; cbn [fst snd] in *.
  - apply wp_ret, Hok. destruct lease as [ref'|]; [|done]. destruct Hout as [-> Hl].
    eapply (opened_steps c m true w w3 w4); try done; first [by apply Href|by split|cbn; lia].
  - apply wp_bind, abandon_spec; [by intros ref ->|]. intros w5 H5. apply wp_bind, wp_attempt, close_spec; [apply H5|].
    intros r w6 F6 M6 O6. apply wp_raise, Herr.
    assert (L6 : local c (older w3) w3 w6).
    { transitivity w4; [done|]. transitivity w5; [by eapply moves_local|]. split; [done|].
      intros i _. by rewrite (proj1 O6). }
    destruct L6 as [F A]. split.
    + eapply frame_wf; [done|cbn; lia|done].
    + rewrite (frame_connections _ _ _ F). cbn. lia.
    + intros c'. destruct (decide (c' = c)) as [->|Hne]; [by right|].
      left. by rewrite (frame_other _ _ _ F), Hm3.
    + exact A.
Qed.

Lemma open_lease_on_connection_spec fuel c m timeout (Q : answer nat -> world -> Prop) w :
  wf w -> (c < connections w)%nat ->
  (forall ref w', opened m w w' ref c -> Q (Ok ref) w') -> (forall e w', keeps w w' -> Q (Err e) w') ->
  wp (_open_lease_on_connection fuel c m timeout) Q w.
Proof.
  intros Hw Hc Hok Herr. unfold _open_lease_on_connection, _validate_timeout. apply wp_bind.
  assert (Herr0 : forall e, Q (Err e) w) by (intros e; by apply Herr, keeps_refl).
  destruct timeout as [t|]; [|by apply wp_raise]. case_match; [by apply wp_raise|]. apply wp_ret.
  assert (Hk : forall f w', moves c f w w' -> (f (may_hold c (trace w)) = may_hold c (trace w) \/ f (may_hold c (trace w)) = []) ->
    keeps w w').
  { intros f w' Hm Hf. eapply keeps_of_local; [done|done|by eapply moves_local|].
    destruct Hm as (_ & -> & _). done. }
  apply wp_bind, gone_spec; [|intros w1 H1; apply wp_raise, Herr, (Hk _ _ H1); by right].
  intros w1 H1. apply wp_bind, (now_spec c). intros t2 w2 H2. pose proof (moves_trans _ _ _ _ _ _ H1 H2) as H3.
  assert (K2 : keeps w w2) by (apply (Hk _ _ H3); by left). destruct H3 as (F3 & M3 & (C3 & _)).
  apply wp_bind, lease_steps_spec. intros steps w4 H4 Href Hout.
  destruct steps as [lease [ref|e]]; cbn [fst snd] in *.
  - apply wp_ret, Hok. destruct lease as [ref'|]; [|done]. destruct Hout as [-> Hl].
    eapply (opened_steps c m false w w2 w4); try done;
      try first [apply K2|by rewrite (frame_connections _ _ _ F3)|by apply Href|by split].
    intros c'. destruct (decide (c' = c)) as [->|Hne]; [done|by eapply frame_other].
  - apply wp_bind, abandon_spec; [by intros ref ->|]. intros w5 H5. apply wp_raise, Herr.
    eapply keeps_trans; [exact K2|]. eapply keeps_of_local; [by rewrite (frame_connections _ _ _ F3)|apply K2|..|by right; apply H5].
    transitivity w4; [done|by eapply moves_local].
Qed.

(** ** The block under a lease *)

(** The state the block starts in. *)
Definition activated (ref : nat) (w : world) : world :=
  with_leases (alter (set_owner true (Some (current_task w))) ref) (with_current (Some ref) w).

Lemma keeps_same_trace w w' :
  trace w' = trace w -> connections w' = connections w -> agree (older w) w w' -> wf w -> keeps w w'.
Proof.
  intros Ht Hc Ha [Hp Hf]. split; [|by rewrite Hc|intros c; left; by rewrite Ht|done].
  split; rewrite Ht; [done|]. by rewrite Hc.
Qed.
Lemma agree_set_owner P ref a o w : agree P w (with_leases (alter (set_owner a o) ref) w).
Proof. apply (local_set_owner 0). Qed.

Lemma release_one_head x l : release_one x (x :: l) = l.
Proof. cbn. by rewrite bool_decide_true. Qed.

(** The lease is released and its own connection closed, whatever the block
    did; a normal exit means the session confirmed the unlock. *)
Lemma leave_lease_spec {A} ref l previous held (ended : answer A) (Q : answer A -> world -> Prop) w :
  leases w !! ref = Some l -> _barrier_acquired l = true ->
  (owns_connection l = true -> held = []) ->
  (may_hold (connection l) (trace w) = (mode l, barrier_key l) :: held \/ may_hold (connection l) (trace w) = []) ->
  (forall r w', local (connection l) (fun i => i <> ref) w w' ->
     (may_hold (connection l) (trace w') = held \/ may_hold (connection l) (trace w') = []) ->
     match r with
     | Ok a => ended = Ok a /\ is_gone (trace w) (connection l) = false /\
         logged (EUnlock (connection l) (mode l) (barrier_key l) (Ok (backend_pid l, true))) w w'
     | Err _ => True
     end -> Q r w') ->
  wp (leave_lease ref previous ended) Q w.
Proof.
  intros Hl Ha Ho Hm H. unfold leave_lease. apply wp_bind, wp_set_lease, wp_bind, wp_modify.
  set (w1 := with_current _ _). set (c := connection l) in *.
  assert (Hl1 : leases w1 !! ref = Some (set_owner false None l)) by (cbn; by rewrite list_lookup_alter_eq, Hl).
  assert (L1 : local c (fun i => i <> ref) w w1).
  { split; [by apply frame_same_trace|]. exact (agree_set_owner _ ref false None w). }
  enough (Hclose : forall rel w2, local c (fun i => i <> ref) w1 w2 -> released ref (set_owner false None l) w2 ->
    (may_hold c (trace w2) = held \/ may_hold c (trace w2) = []) ->
    (rel = Ok tt -> is_gone (trace w) c = false /\ logged (EUnlock c (mode l) (barrier_key l) (Ok (backend_pid l, true))) w w2) ->
    wp (l ← get_lease ref;
        closed ← (if owns_connection l then attempt (close_connection (connection l)) else mret (Ok tt));
        leave_outcome ended rel closed) Q w2).
  { apply wp_bind, wp_attempt. eapply release_lease_spec; [exact Hl1|done|..].
    - intros w2 L2 M2 E2 G2 R2. apply Hclose; [done..| |done]. cbn in M2. fold c in M2. cbn. rewrite M2.
      destruct Hm as [->| ->]; [left; apply release_one_head|by right].
    - intros e w2 L2 M2 R2. apply Hclose; [done..|by right|done]. }
  intros rel w2 L2 [b R2] M2 E2. apply wp_bind, wp_get_lease. rewrite (lease_at_lookup _ _ _ R2). cbn.
  fold c. apply wp_bind.
  enough (HI : forall closed w3, frame c w2 w3 -> leases w3 = leases w2 ->
    (may_hold c (trace w3) = held \/ may_hold c (trace w3) = []) ->
    wp (leave_outcome ended rel closed) Q w3).
  { destruct (owns_connection l) eqn:Hown; [|apply wp_ret; by apply (HI (Ok tt))].
    apply wp_attempt, close_spec; [destruct M2 as [->| ->]; [by apply Ho|done]|].
    intros r w3 F3 M3 O3. apply HI; [done|apply O3|by right]. }
  intros closed w3 F3 O3 M3.
  assert (L3 : local c (fun i => i <> ref) w w3).
  { transitivity w1; [done|]. transitivity w2; [done|]. split; [done|]. intros i _. by rewrite O3. }
  destruct ended as [a|e], rel as [[]|e'], closed as [u|e'']; try by apply wp_raise, H.
  apply wp_ret, H; [done..|]. destruct E2 as [G2 E2]; [done|].
  split_and!; [done..|]. by eapply logged_before.
Qed.

(** An open lease, seen from inside its block. *)
Lemma activated_keeps ref w : wf w -> keeps w (activated ref w).
Proof.
  intros Hw. apply keeps_same_trace; try done. exact (agree_set_owner _ ref true (Some (current_task w)) w).
Qed.
Lemma keeps_lease w w' ref l : keeps w w' -> leases w !! ref = Some l ->
  exists a o, leases w' !! ref = Some (set_owner a o l).
Proof.
  intros K Hl. pose proof (keeps_leases _ _ K ref (lookup_lt_Some _ _ _ Hl)) as E. rewrite Hl in E.
  destruct (leases w' !! ref) as [l'|]; [|done]. exists (_active l'), (_owner_task l').
  destruct l, l'. cbn in E. by simplify_eq.
Qed.

Lemma active_lease_spec {A} ref c m (body : M A) (Q : answer A -> world -> Prop) w w1 :
  opened m w w1 ref c ->
  wp body (fun r w2 => keeps (activated ref w1) w2 /\
    forall r' w3, keeps w w3 -> (exists t, trace w3 = trace w2 ++ t) ->
      match r' with
      | Ok a => r = Ok a /\ exists l, leases w1 !! ref = Some l /\
          is_gone (trace w2) c = false /\
          logged (EUnlock c (mode l) (barrier_key l) (Ok (backend_pid l, true))) w2 w3
      | Err _ => True
      end -> Q r' w3) (activated ref w1) ->
  wp (_active_lease ref body) Q w1.
Proof.
  intros [Hwf1 Hcon Hc Hother Hold Hnew (l & Hl & El & Ea & Eo & Em) _] Hbody.
  unfold _active_lease. apply wp_bind, wp_get, wp_bind, wp_modify, wp_bind, wp_set_lease. fold (activated ref w1).
  apply wp_bind, wp_attempt. eapply wp_mono; [exact Hbody|]. clear Hbody. intros ended w2 (K2 & HQ).
  assert (K : keeps w1 w2) by (eapply keeps_trans; [by apply activated_keeps|exact K2]).
  destruct (keeps_lease _ _ _ _ K Hl) as (o1 & o2 & Hl2).
  eapply (leave_lease_spec _ _ _ (may_hold c (trace w))); [exact Hl2|done|done| |]; cbn; rewrite El.
  { destruct (keeps_locks _ _ K c) as [->| ->]; [done|by right]. }
  intros r w3 [F3 A3] M3 Hr. apply HQ.
  - pose proof (keeps_connections _ _ K). split.
    + eapply frame_wf; [exact F3|lia|apply K].
    + rewrite (frame_connections _ _ _ F3). lia.
    + intros c'. destruct (decide (c' = c)) as [->|Hne]; [done|].
      rewrite (frame_other _ _ _ F3), <- (Hother c') by done. apply K.
    + intros i Hi. rewrite A3 by (intros ->; done). rewrite (keeps_leases _ _ K i) by (by apply (agree_older w)).
      by apply Hold.
  - apply F3.
  - destruct r; [|done]. destruct Hr as [-> Hr]. by eauto.
Qed.

(** ** The migration lock *)
Lemma migration_loop_spec n c key timeout d (Q : answer (bool * answer unit) -> world -> Prop) w :
  (forall r w', moves c (cons (EXCLUSIVE, key)) w w' -> (r = Ok tt -> ETryLock c EXCLUSIVE key (Ok true) ∈ trace w') ->
     Q (Ok (true, r)) w') ->
  (forall e f w', moves c f w w' -> Q (Ok (false, Err e)) w') ->
  wp (migration_loop n c key timeout d) Q w.
Proof.
  clear invalidation_works. revert w. induction n as [|n IH]; intros w Htrue Hfalse; cbn [migration_loop].
  { eapply wp_ret, Hfalse, moves_refl. }
  apply wp_bind, wp_attempt, try_lock_spec.
  - intros w1 H1. apply wp_bind, wp_attempt, commit_spec. intros [u|e] w2 H2;
      pose proof (moves_trans _ _ _ _ _ _ H1 H2) as H3; [|by eapply wp_ret, Hfalse].
    apply wp_bind, wp_attempt, wp_bind, (now_spec c). intros t w4 H4.
    pose proof (moves_trans _ _ _ _ _ _ H3 H4) as H5. case_match.
    { apply wp_raise. by eapply wp_ret, Hfalse. }
    apply (sleep_spec c). intros r w6 H6. pose proof (moves_trans _ _ _ _ _ _ H5 H6) as H7.
    destruct r; [|by eapply wp_ret, Hfalse]. apply IH.
    + intros r w8 H8 Hr. apply Htrue; [|done]. exact (moves_trans _ _ _ _ _ _ H7 H8).
    + intros e f w8 H8. eapply Hfalse, (moves_trans _ _ _ _ _ _ H7 H8).
  - intros r w1 Hr H1 Hin. destruct r as [[]|e]; [|done|by eapply wp_ret, Hfalse].
    apply wp_bind, wp_attempt, commit_spec. intros [u|e] w2 H2;
      pose proof (moves_trans _ _ _ _ _ _ H1 H2) as H3; apply wp_ret, Htrue; try done.
    intros _. exact (frame_in c _ _ _ (proj1 H2) Hin).
Qed.

(** The lock is given back to the server, or the session is ended. *)
Lemma migration_cleanup_spec c key acquired (Q : answer (option barrier_exn) -> world -> Prop) w :
  (forall p w', acquired = true -> moves c (release_one (EXCLUSIVE, key)) w w' ->
     logged (EUnlock c EXCLUSIVE key (Ok (p, true))) w w' -> Q (Ok None) w') ->
  (forall u w', moves c (fun _ => []) w w' ->
     (acquired = true -> u = None -> was_closed c w') -> Q (Ok u) w') ->
  wp (migration_cleanup c key acquired) Q w.
Proof.
  intros Hrel Hend. unfold migration_cleanup. apply wp_bind.
  assert (Hgone : forall f w1, moves c f w w1 -> (acquired = true -> was_closed c w1) ->
    wp (g ← gone c; (if g : bool then mret tt else _cleanup_connection c) ≫= (fun _ => mret None)) Q w1).
  { intros f w1 H1 Hcl. apply wp_bind, gone_spec; intros w2 H2.
    - apply wp_bind, cleanup_spec; [done|]. intros w3 H3. apply wp_ret, Hend.
      + exact (moves_trans _ _ _ _ _ _ (moves_trans _ _ _ _ _ _ H1 H2) H3).
      + intros Ha _. eapply was_closed_frame, was_closed_frame; [apply H3|apply H2|by apply Hcl].
    - apply wp_bind, wp_ret, wp_ret, Hend; [exact (moves_trans _ _ _ _ _ _ H1 H2)|].
      intros Ha _. eapply was_closed_frame; [apply H2|by apply Hcl]. }
  destruct acquired; [|apply wp_ret; eapply Hgone; [apply moves_refl|done]].
  apply wp_observe. intros b Hb.
  assert (H1 : moves c (fun h => if b then [] else h) w (log (EClosed c b) w)).
  { destruct (moves_log c (EClosed c b) w) as (A & B & C); [about_event|done|].
    split_and!; [done| |done]. rewrite B. cbn. rewrite Nat.eqb_refl. by destruct b. }
  destruct b; cbn [andb negb]; [eapply Hgone; [exact H1|]; intros _; by eexists _, [_]|].
  clear Hb. set (w1 := log _ w) in *. clearbody w1. apply wp_bind, wp_attempt, wp_bind, in_tx_spec.
  assert (Hbad : forall e f w2, moves c f w1 w2 ->
    wp (_cleanup_connection c ≫= (fun _ => mret (Some e))) Q w2).
  { intros e f w2 H2. apply wp_bind, cleanup_spec; [done|]. intros w3 H3. apply wp_ret, Hend; [|done].
    exact (moves_trans _ _ _ _ _ _ (moves_trans _ _ _ _ _ _ H1 H2) H3). }
  intros b w2 H2. apply wp_bind.
  enough (HI : forall w3, moves c id w1 w3 -> wp (row ← unlock c EXCLUSIVE key;
      commit c ≫= fun _ => if negb row.2
      then stm_raise (MigrationLockError "PostgreSQL reported that the PPBase migration lock was no longer owned by its reserved connection.")
      else mret tt)
    (fun r w' => wp (match r with
      | Ok _ => mret None
      | Err e => _cleanup_connection c ≫= fun _ => mret (Some e)
      end) Q w') w3).
  { destruct b; [|by apply wp_ret, HI]. apply rollback_spec. intros [u|e] w3 H3;
      pose proof (moves_trans _ _ _ _ _ _ H2 H3) as H4; [by apply HI|by eapply Hbad]. }
  clear b w2 H2. intros w2 H2. apply wp_bind, unlock_spec.
  - intros [row|e] w3 Hr H3; pose proof (moves_trans _ _ _ _ _ _ H2 H3) as H4; [|by eapply Hbad].
    apply wp_bind, commit_spec. intros [u|e] w5 H5; pose proof (moves_trans _ _ _ _ _ _ H4 H5) as H6; [|by eapply Hbad].
    destruct row as [p []]; [by destruct (Hr p)|]. apply wp_raise. by eapply Hbad.
  - intros p w3 H3 Hin. apply wp_bind, commit_spec.
    pose proof (moves_trans _ _ _ _ _ _ H2 H3) as H4.
    intros [u|e] w5 H5; pose proof (moves_trans _ _ _ _ _ _ H4 H5) as H6; [|by eapply Hbad].
    apply wp_ret, wp_ret, (Hrel p); [done| |].
    + exact (moves_trans _ _ _ _ _ _ H1 H6).
    + eapply (logged_after c); [apply H1|]. eapply (logged_after c), (logged_before c); [apply H2|exact Hin|apply H5].
Qed.

Lemma migration_result_spec {A} (r : answer A) failed u (Q : answer A -> world -> Prop) w :
  (forall e, Q (Err e) w) -> (u = None \/ failed = true -> Q r w) -> wp (migration_result r failed u) Q w.
Proof.
  intros Herr Hr. unfold migration_result.
  destruct failed; [by apply wp_lift, Hr; right|]. destruct u as [[]|]; [by apply wp_raise..|].
  by apply wp_lift, Hr; left.
Qed.

Lemma migration_enter_spec fuel c timeout (Q : answer Z -> world -> Prop) w :
  (forall key w', moves c (cons (EXCLUSIVE, key)) w w' -> ETryLock c EXCLUSIVE key (Ok true) ∈ trace w' ->
     Q (Ok key) w') ->
  (forall e f w', moves c f w w' -> (forall h, f h = h \/ f h = []) -> Q (Err e) w') ->
  wp (migration_enter fuel c timeout) Q w.
Proof.
  intros Hok Herr. unfold migration_enter. case_match.
  { apply wp_raise. eapply Herr; [apply moves_refl|by left]. }
  apply wp_bind, gone_spec; [|intros w1 H1; eapply wp_raise, Herr; [exact H1|by right]].
  intros w1 H1. apply wp_bind, in_tx_spec. intros b w2 H2. pose proof (moves_trans _ _ _ _ _ _ H1 H2) as H3.
  destruct b; [eapply wp_raise, Herr; [exact H3|by left]|].
  apply wp_bind, (now_spec c). intros t w4 H4. pose proof (moves_trans _ _ _ _ _ _ H3 H4) as H5.
  assert (Hend : forall e f w6, moves c f w w6 ->
    wp (u ← migration_cleanup c 0 false; migration_result (Err e) false u) Q w6).
  { intros e f w6 H6. apply wp_bind, migration_cleanup_spec; [done|]. intros u w7 H7 _.
    pose proof (moves_trans _ _ _ _ _ _ H6 H7) as H8.
    apply migration_result_spec; [intros e'|intros _]; (eapply Herr; [exact H8|by right]). }
  apply wp_bind, wp_attempt, wp_bind, migration_key_spec.
  intros [key|e] w6 H6; pose proof (moves_trans _ _ _ _ _ _ H5 H6) as H7; [|by eapply Hend].
  apply wp_bind, commit_spec.
  intros [u|e] w8 H8; pose proof (moves_trans _ _ _ _ _ _ H7 H8) as H9; [|by eapply Hend].
  apply wp_ret, wp_bind, migration_loop_spec; cbn [fst snd].
  - intros r w10 H10 Hin. pose proof (moves_trans _ _ _ _ _ _ H9 H10) as H11.
    destruct r as [[]|e]; [by apply wp_ret, Hok; [|apply Hin]|].
    apply wp_bind, migration_cleanup_spec.
    + intros p w12 _ H12 _. pose proof (moves_trans _ _ _ _ _ _ H11 H12) as H13.
      apply migration_result_spec; [intros e'|intros _]; (eapply Herr; [exact H13|]; intros h; left; apply release_one_head).
    + intros u' w12 H12 _. pose proof (moves_trans _ _ _ _ _ _ H11 H12) as H13.
      apply migration_result_spec; [intros e'|intros _]; (eapply Herr; [exact H13|by right]).
  - intros e f w10 H10. pose proof (moves_trans _ _ _ _ _ _ H9 H10) as H11.
    apply wp_bind, migration_cleanup_spec; [done|]. intros u' w12 H12 _.
    pose proof (moves_trans _ _ _ _ _ _ H11 H12) as H13.
    apply migration_result_spec; [intros e'|intros _]; (eapply Herr; [exact H13|by right]).
Qed.

Lemma migration_exit_spec {A} c key (r : answer A) (Q : answer A -> world -> Prop) w :
  (forall r' w' f, moves c f w w' -> (forall h, f h = release_one (EXCLUSIVE, key) h \/ f h = []) ->
     match r' with
     | Ok a => r = Ok a /\ ((exists p, logged (EUnlock c EXCLUSIVE key (Ok (p, true))) w w') \/ was_closed c w')
     | Err _ => True
     end -> Q r' w') ->
  wp (migration_exit c key r) Q w.
Proof.
  intros H. unfold migration_exit. apply wp_bind, migration_cleanup_spec.
  - intros p w1 _ H1 Hin. apply migration_result_spec.
    + intros e. eapply H; [exact H1|by left|done].
    + intros _. eapply H; [exact H1|by left|]. destruct r; [|done]. split; [done|]. left. by exists p.
  - intros u w1 H1 Hin. apply migration_result_spec.
    + intros e. eapply H; [exact H1|by right|done].
    + intros Hu. eapply H; [exact H1|by right|]. destruct r; [|done]. split; [done|].
      right. destruct Hu as [->|Hu]; [by apply Hin|done].
Qed.

(** ** The barriers *)

(** The exclusive barrier and the migration lock, both granted to one session
    that holds nothing else, under a lease of the running task. *)
Definition under_both_locks (ref : nat) (key : Z) (w : world) : Prop :=
  let l := lease_at w ref in let c := connection l in
  mode l = EXCLUSIVE /\ active w l = true /\ granted c EXCLUSIVE (barrier_key l) (trace w) /\
  ETryLock c EXCLUSIVE key (Ok true) ∈ trace w /\
  may_hold c (trace w) = [(EXCLUSIVE, key); (EXCLUSIVE, barrier_key l)].

(** Both locks of the lease were given back between the two states: the server
    confirmed each unlock, the barrier's from the process that took it. *)
Definition both_confirmed (l : WriteBarrierLease) (key : Z) (w w' : world) : Prop :=
  (exists p, logged (EUnlock (connection l) EXCLUSIVE key (Ok (p, true))) w w') /\
  logged (EUnlock (connection l) EXCLUSIVE (barrier_key l) (Ok (backend_pid l, true))) w w'.

Lemma keeps_moves c f w w' : (c < connections w)%nat -> wf w -> moves c f w w' ->
  f (may_hold c (trace w)) = may_hold c (trace w) \/ f (may_hold c (trace w)) = [] -> keeps w w'.
Proof.
  intros Hc Hw Hm Hf. eapply keeps_of_local; [done|done|by eapply moves_local|].
  destruct Hm as (_ & -> & _). done.
Qed.
Lemma connection_lost_while_open c w : was_closed c w ->
  (forall t t', is_closed t c = true -> is_gone (t ++ t') c = true) -> is_gone (trace w) c = true.
Proof. intros (t & t' & -> & H) Hlaw. by apply Hlaw. Qed.
Lemma was_closed_prefix c w t w' : was_closed c w -> trace w' = trace w ++ t -> was_closed c w'.
Proof. intros (t1 & t2 & E & H) E'. exists t1, (t2 ++ t). by rewrite E', E, app_assoc. Qed.

(** [keeps] on all connections but one. *)
Record keeps_but (c : nat) (w w' : world) : Prop := {
  kb_wf : wf w';
  kb_connections : (connections w <= connections w')%nat;
  kb_locks c' : c' <> c -> may_hold c' (trace w') = may_hold c' (trace w) \/ may_hold c' (trace w') = [];
  kb_leases : agree (older w) w w';
}.
Lemma keeps_but_trans c w1 w2 w3 : keeps_but c w1 w2 -> keeps_but c w2 w3 -> keeps_but c w1 w3.
Proof.
  intros [A1 B1 C1 D1] [A2 B2 C2 D2]. split; [done|lia| |].
  - intros c' Hne. destruct (C2 c' Hne) as [->| ->]; [by apply C1|by right].
  - intros i Hi. rewrite D2 by (by apply (agree_older w1)). by apply D1.
Qed.
Lemma keeps_but_keeps c w w' : keeps w w' -> keeps_but c w w'.
Proof. intros [A B C D]. by split. Qed.
Lemma keeps_of_but c w w' : keeps_but c w w' ->
  may_hold c (trace w') = may_hold c (trace w) \/ may_hold c (trace w') = [] -> keeps w w'.
Proof.
  intros [A B C D] H. split; [done..| |done]. intros c'. destruct (decide (c' = c)) as [->|Hne]; [done|by apply C].
Qed.
Lemma keeps_but_moves c f w w' : (c < connections w)%nat -> wf w -> moves c f w w' -> keeps_but c w w'.
Proof.
  intros Hc Hw (F & _ & O & _). split; [by eapply frame_wf|by rewrite (frame_connections _ _ _ F)| |].
  - intros c' Hne. left. by eapply frame_other.
  - intros i _. by rewrite O.
Qed.

Lemma not_nested_spec message (Q : answer unit -> world -> Prop) w :
  (forall r, Q r w) -> wp (not_nested message) Q w.
Proof.
  intros H. unfold not_nested, current_write_barrier_lease, wp. cbn. unfold mbind, M, stm_bind.
  repeat case_match; simplify_eq; apply H.
Qed.
Lemma validate_timeout_spec timeout (Q : answer Z -> world -> Prop) w :
  (forall r, Q r w) -> wp (_validate_timeout timeout) Q w.
Proof. intros H. unfold _validate_timeout. repeat case_match; apply H. Qed.

Section Exclusive.
Context {A : Type} (fuel : nat) (closed_stays : forall c t t', is_closed t c = true -> is_gone (t ++ t') c = true).

(** What the block must do, in the states it may start in. *)
Definition body_does (ref : nat) (l : WriteBarrierLease) (body : nat -> M A) (n : nat) (R : Z -> A -> world -> Prop)
  : Prop :=
  forall key w, wf w -> under_both_locks ref key w -> lease_at w ref = l -> (n <= connections w)%nat ->
    wp (body ref) (fun r w' => keeps w w' /\ forall a, r = Ok a -> R key a w') w.

Lemma under_migration_lock_spec ref l d (body : nat -> M A) (R : Z -> A -> world -> Prop)
    (Q : answer A -> world -> Prop) w :
  let c := connection l in
  wf w -> (c < connections w)%nat -> leases w !! ref = Some l -> mode l = EXCLUSIVE ->
  active w l = true -> granted c EXCLUSIVE (barrier_key l) (trace w) ->
  may_hold c (trace w) = [(EXCLUSIVE, barrier_key l)] ->
  body_does ref l body (connections w) R ->
  (forall r w', keeps w w' ->
     match r with
     | Ok a => exists key w2, R key a w2 /\ (exists t, trace w' = trace w2 ++ t) /\
         ((exists p, logged (EUnlock c EXCLUSIVE key (Ok (p, true))) w2 w') \/ was_closed c w')
     | Err _ => True
     end -> Q r w') ->
  wp (under_migration_lock fuel ref d body) Q w.
Proof.
  intros c Hw Hc Hl Em Hact Hg Hm Hbody H. unfold under_migration_lock.
  apply wp_bind, (remaining_spec c). intros t w1 H1. apply wp_bind, wp_get_lease.
  rewrite (lease_at_lookup _ _ l) by (by rewrite (proj1 (proj2 (proj2 H1)))). fold c.
  apply wp_bind, wp_attempt, migration_enter_spec.
  2:{ intros e f w2 H2 Hf. apply wp_raise, H; [|done].
      eapply keeps_moves; [done|done|exact (moves_trans _ _ _ _ _ _ H1 H2)|]. apply Hf. }
  intros key w2 H2 Hin. apply wp_bind, wp_attempt.
  pose proof (moves_trans _ _ _ _ _ _ H1 H2) as (F3 & M3 & O3 & _ & _ & _ & O4 & _).
  assert (Hw2 : wf w2) by (by eapply frame_wf).
  assert (Hc2 : connections w2 = connections w) by (by rewrite (frame_connections _ _ _ F3)).
  assert (Hl2 : lease_at w2 ref = l) by (apply lease_at_lookup; by rewrite O3).
  eapply wp_mono; [apply (Hbody key w2); [done| |done|by rewrite Hc2]|].
  { unfold under_both_locks. rewrite Hl2. split_and!; try done.
    - unfold active, owned_by_current_task in *. by rewrite O4.
    - by eapply granted_frame.
    - fold c. rewrite M3. cbn. by rewrite Hm. }
  intros r w4 [K4 HR]. apply wp_bind, wp_attempt, migration_exit_spec.
  intros r' w5 f H5 Hf Hr'.
  assert (Hc4 : (c < connections w4)%nat) by (pose proof (keeps_connections _ _ K4); lia).
  assert (K5 : keeps w w5).
  { apply (keeps_of_but c).
    - eapply keeps_but_trans; [by eapply keeps_but_moves; [..|exact (moves_trans _ _ _ _ _ _ H1 H2)]|].
      eapply keeps_but_trans; [by eapply keeps_but_keeps|]. eapply keeps_but_moves; [done|apply K4|exact H5].
    - destruct H5 as (_ & -> & _). destruct (Hf (may_hold c (trace w4))) as [->| ->]; [|by right].
      destruct (keeps_locks _ _ K4 c) as [->| ->]; [|by right]. left. rewrite M3. apply release_one_head. }
  destruct r' as [a|e].
  - apply wp_ret, H; [done|]. destruct Hr' as [-> Hr']. exists key, w4. split; [by apply HR|].
    destruct H5 as ([_ _ _ Ht] & _). destruct Hr' as [[p Hp]|Hcl]; eauto 7.
  - destruct r; by apply wp_raise, H.
Qed.

(** The block of the exclusive barrier runs only under both locks, and its
    result is returned only when both were given back as confirmed. *)
Lemma backup_write_barrier_spec engine timeout (body : nat -> M A) w :
  wf w ->
  (forall ref key w1, wf w1 -> (connections w < connections w1)%nat -> under_both_locks ref key w1 ->
     wp (body ref) (fun _ w2 => keeps w1 w2) w1) ->
  wp (backup_write_barrier fuel engine timeout body) (fun r w' => keeps w w' /\
    match r with
    | Ok a => exists ref key w1 w2, under_both_locks ref key w1 /\ body ref w1 = (Ok a, w2) /\
        both_confirmed (lease_at w1 ref) key w2 w'
    | Err _ => True
    end) w.
Proof using All.
  intros Hw Hbody.
  assert (K0 : keeps w w) by by apply keeps_refl.
  unfold backup_write_barrier. apply wp_bind, not_nested_spec. intros [[]|e]; [|done].
  apply wp_bind, validate_timeout_spec. intros [tm|e]; [|done]. apply wp_bind, wp_observe.
  intros t _. set (w1 := log (ETime t) w). assert (K1 : keeps w w1) by by apply keeps_log.
  unfold _lease_context. apply wp_bind, open_lease_spec; [apply K1| |].
  2:{ intros e w2 K2. split; [by eapply keeps_trans|done]. }
  intros ref w2 O2. destruct (opened_granted _ _ _ _ _ O2) as (l & Hl & Em & Hg & Hm).
  destruct (opened_leased _ _ _ _ _ O2) as (l' & Hl' & El & Ea & Eo & _).
  rewrite Hl in Hl'. injection Hl' as <-.
  assert (Hfree : may_hold (connections w1) (trace w1) = []) by (by apply (wf_fresh _ (keeps_wf _ _ K1))).
  eapply active_lease_spec; [exact O2|].
  set (l3 := set_owner true (Some (current_task w2)) l).
  assert (Hl3 : leases (activated ref w2) !! ref = Some l3) by (cbn; by rewrite list_lookup_alter_eq, Hl).
  eapply (under_migration_lock_spec ref l3 _ _
    (fun key a w' => exists w3, under_both_locks ref key w3 /\ lease_at w3 ref = l3 /\ body ref w3 = (Ok a, w'))).
  - apply activated_keeps, O2.
  - cbn. rewrite El. apply O2.
  - exact Hl3.
  - exact Em.
  - unfold active, owned_by_current_task. cbn. by rewrite Ea, Nat.eqb_refl.
  - cbn. by rewrite El.
  - cbn. by rewrite El, Hm, Hfree.
  - intros key w3 W3 U3 E3 C3. pose proof (opened_open _ _ _ _ _ O2) as Hopen. cbn in C3, Hopen.
    destruct (body ref w3) as [r w4] eqn:Hrun. assert (K4 : keeps w3 w4).
    { pose proof (Hbody ref key w3 W3 ltac:(lia) U3) as K. unfold wp in K. by rewrite Hrun in K. }
    unfold wp. rewrite Hrun. cbn. split; [done|]. intros a ->. by exists w3.
  - intros r w5 K5 Hr. split; [done|]. intros r' w6 K6 Ht Hr'. split; [by eapply keeps_trans|].
    destruct r' as [a|e]; [|done]. destruct Hr' as (-> & l' & Hl' & Hgone & Hun).
    rewrite Hl in Hl'. injection Hl' as <-.
    destruct Hr as (key & w4 & (w3 & U3 & E3 & Hrun) & [t5 T5] & Hrel).
    exists ref, key, w3, w4. split_and!; try done. unfold both_confirmed. rewrite E3. cbn. rewrite El.
    destruct Ht as [t6 T6]. destruct Hrel as [[p Hp]|Hcl].
    + split.
      * exists p. destruct Hp as (t7 & E & Hin). exists (t7 ++ t6).
        split; [by rewrite T6, E, app_assoc|]. apply elem_of_app. left. cbn in Hin. by rewrite El in Hin.
      * rewrite Em in Hun. destruct Hun as (t7 & E & Hin). exists (t5 ++ t7).
        split; [by rewrite E, T5, app_assoc|]. apply elem_of_app. by right.
    + exfalso. cbn in Hcl. rewrite El in Hcl. 
      by rewrite (connection_lost_while_open _ _ Hcl (closed_stays _)) in Hgone.
Qed.
End Exclusive.

(** Every barrier keeps what its block keeps. *)
Section Shared.
Context {A : Type} (fuel n : nat) (body : nat -> M A).
Context (body_keeps : forall ref, keeping n (body ref)).

Lemma reject_spec (Q : answer unit -> world -> Prop) w : (forall r, Q r w) -> wp _reject_process_cutover_mutation Q w.
Proof.
  intros H. unfold _reject_process_cutover_mutation. apply wp_bind, wp_get. case_match; [by apply wp_raise|by apply wp_ret].
Qed.
Lemma current_spec (Q : answer (option nat) -> world -> Prop) w :
  (forall o, Q (Ok o) w) -> wp current_write_barrier_lease Q w.
Proof. intros H. unfold current_write_barrier_lease, wp. cbn. apply H. Qed.

Lemma active_lease_keeps ref c m (block : M A) w w1 :
  opened m w w1 ref c -> (n <= connections w)%nat -> keeping n block ->
  wp (_active_lease ref block) (fun _ w' => keeps w w') w1.
Proof using invalidation_works.
  intros O Hn Hb. eapply active_lease_spec; [exact O|].
  eapply wp_mono; [apply Hb|].
  - apply activated_keeps, O.
  - cbn. pose proof (opened_connections _ _ _ _ _ O). lia.
  - intros r w2 K. split; [exact K|]. by intros.
Qed.
Lemma rejecting_keeps ref : keeping n (_reject_process_cutover_mutation ≫= fun _ => body ref).
Proof using body_keeps.
  intros w Hw Hn. apply wp_bind, reject_spec. intros [[]|e]; [by apply body_keeps|by apply keeps_refl].
Qed.

Lemma mutation_keeps engine timeout : keeping n (mutation_write_barrier fuel engine timeout body).
Proof using All.
  intros w Hw Hn. pose proof (keeps_refl w Hw) as K0. unfold mutation_write_barrier.
  apply wp_bind, reject_spec. intros [[]|e]; [|done]. apply wp_bind, current_spec. intros o.
  apply wp_bind, wp_get. destruct o as [ref|].
  { repeat (case_match; [by apply wp_raise|]). by apply body_keeps. }
  unfold _lease_context. apply wp_bind, open_lease_spec; [done| |done].
  intros ref w1 O. eapply active_lease_keeps; [exact O|done|apply rejecting_keeps].
Qed.
Lemma mutation_on_connection_keeps c timeout : (c < n)%nat ->
  keeping n (mutation_write_barrier_on_connection fuel c timeout body).
Proof using All.
  intros Hc w Hw Hn. pose proof (keeps_refl w Hw) as K0. unfold mutation_write_barrier_on_connection.
  apply wp_bind, reject_spec. intros [[]|e]; [|done]. apply wp_bind, current_spec. intros o.
  apply wp_bind, wp_get. destruct o as [ref|].
  { repeat (case_match; [by apply wp_raise|]). by apply body_keeps. }
  apply wp_bind, open_lease_on_connection_spec; [done|lia| |done].
  intros ref w1 O. eapply active_lease_keeps; [exact O|done|apply rejecting_keeps].
Qed.
End Shared.
End Releasing.

(** * The polling loops end *)
Section Polling.
Context {env : Environment}.
(** The clock does not go back, a sleep takes its time, and no answer is the
    model's own error. *)
Context (clock_forward : forall t e, monotonic t <= monotonic (t ++ [e])).
Context (sleep_takes : forall t d r, monotonic t + d <= monotonic (t ++ [ESleep d r])).
Context (real_try : forall t c m k, try_answer t c m k <> Err OutOfFuel).
Context (real_wait : forall t c k d, wait_answer t c k d <> Err OutOfFuel).
Context (real_commit : forall t c, commit_answer t c <> Err OutOfFuel).
Context (real_sleep : forall t d, sleep_answer t d <> Err OutOfFuel).

(** A run that gives an answer, with the clock at least where it was. *)
Definition answers {A} (w : world) (r : answer A) (w' : world) : Prop :=
  r <> Err OutOfFuel /\ monotonic (trace w) <= monotonic (trace w').

Lemma answers_operation {A} (ask : list event -> answer A) record w :
  (forall t, ask t <> Err OutOfFuel) -> wp (operation ask record) (answers w) w.
Proof using clock_forward. intros H. apply wp_operation. intros r ->. split; [apply H|apply clock_forward]. Qed.
Lemma answers_commit_if b c w : wp (commit_if b c) (answers w) w.
Proof using clock_forward real_commit.
  destruct b; [|by apply wp_ret; split]. apply answers_operation. intros t. apply real_commit.
Qed.

(** One attempt. *)
Lemma answers_try c m key ft other w : other <> OutOfFuel ->
  wp (translate (b ← try_lock c m key; commit_if ft c ≫= fun _ => mret b) other) (answers w) w.
Proof using clock_forward real_commit real_try.
  intros Hother. assert (Hcase : forall (e : barrier_exn) w', answers w (Err (A:=bool) e) w' ->
    answers w (Err (A:=bool) (if is_exception e then other else e)) w').
  { intros e w' [He Ht]. split; [|done]. case_match; congruence. }
  apply wp_translate, wp_bind. eapply wp_mono; [apply answers_operation; intros t; apply real_try|].
  intros [b|e] w1 [H1 T1]; [|by apply Hcase; split; congruence].
  apply wp_bind. eapply wp_mono; [apply answers_commit_if|].
  intros [u|e] w2 [H2 T2]; [apply wp_ret; split; [done|lia]|].
  apply Hcase. split; [congruence|lia].
Qed.

Lemma acquire_loop_answers n c key m deadline label ft w :
  deadline - monotonic (trace w) <= _WRITE_BARRIER_POLL_SECONDS * (Z.of_nat n - 1) -> (0 < n)%nat ->
  wp (acquire_loop n c key m deadline label ft) (fun r _ => r <> Err OutOfFuel) w.
Proof using All.
  revert w. induction n as [|n IH]; intros w Hgap Hn; [lia|]. cbn [acquire_loop].
  apply wp_bind. eapply wp_mono; [by apply answers_try|].
  intros [acquired|e] w1 [H1 T1]; [|congruence].
  destruct acquired; [by apply wp_ret|]. apply wp_bind, wp_bind, wp_observe. intros t ->. apply wp_ret.
  destruct (_ <=? 0) eqn:Hrem; [by apply wp_raise|]. apply Z.leb_gt in Hrem.
  destruct m.
  - apply wp_bind, wp_operation. intros r ->. destruct (sleep_answer _ _) as [u|e] eqn:Hs.
    2:{ intros [= ->]. by eapply real_sleep. }
    pose proof (clock_forward (trace w1) (ETime (monotonic (trace w1)))) as T2.
    set (w2 := log _ _). apply IH.
    + assert (T3 : monotonic (trace w1 ++ [ETime (monotonic (trace w1))]) +
        Z.min _WRITE_BARRIER_POLL_SECONDS (Z.max 0 (deadline - monotonic (trace w1))) <= monotonic (trace w2))
        by apply sleep_takes.
      unfold _WRITE_BARRIER_POLL_SECONDS in *. lia.
    + unfold _WRITE_BARRIER_POLL_SECONDS in *. lia.
  - unfold wait_in_queue. apply wp_bind, wp_attempt, wp_bind, wp_operation. intros r ->.
    destruct (wait_answer _ _ _ _) as [u|e] eqn:Hw.
    + eapply wp_mono; [apply answers_commit_if|]. intros [u'|e] w2 [H2 _]; [by apply wp_ret|].
      destruct e; try (by apply wp_raise). apply wp_bind, wp_observe. intros b _. apply wp_raise. by destruct b.
    + destruct e; try (by apply wp_raise).
      * apply wp_bind, wp_observe. intros b _. apply wp_raise. by destruct b.
      * by apply real_wait in Hw.
Qed.

Lemma migration_loop_answers n c key timeout deadline w :
  deadline - monotonic (trace w) <= _MIGRATION_LOCK_POLL_SECONDS * (Z.of_nat n - 1) -> (0 < n)%nat ->
  wp (migration_loop n c key timeout deadline) (fun r _ => forall b, r <> Ok (b, Err OutOfFuel)) w.
Proof using All.
  revert w. induction n as [|n IH]; intros w Hgap Hn; [lia|]. cbn [migration_loop].
  apply wp_bind, wp_attempt. eapply wp_mono; [apply answers_operation; intros t; apply real_try|].
  intros [acquired|e] w1 [H1 T1]; [|apply wp_ret; intros b; congruence].
  apply wp_bind, wp_attempt. eapply wp_mono; [apply answers_operation; intros t; apply real_commit|].
  intros [u|e] w2 [H2 T2]; [|apply wp_ret; intros b; congruence].
  destruct acquired; [by apply wp_ret|]. apply wp_bind, wp_attempt, wp_bind, wp_observe. intros t ->.
  case_match eqn:Hd; [by apply wp_raise, wp_ret|]. apply Z.leb_gt in Hd.
  apply wp_operation. intros r ->. destruct (sleep_answer _ _) as [u'|e] eqn:Hs.
  2:{ apply wp_ret. intros b [= _ ->]. by eapply real_sleep. }
  pose proof (clock_forward (trace w2) (ETime (monotonic (trace w2)))) as T4.
  set (w3 := log _ _). apply IH.
  - assert (T3 : monotonic (trace w2 ++ [ETime (monotonic (trace w2))]) + _MIGRATION_LOCK_POLL_SECONDS
      <= monotonic (trace w3)) by apply sleep_takes.
    unfold _MIGRATION_LOCK_POLL_SECONDS in *. lia.
  - unfold _MIGRATION_LOCK_POLL_SECONDS in *. lia.
Qed.
End Polling.

(** * The fence of a cutover *)

(** Runs that touch neither the fence nor the retained barriers. *)
Definition same_fence (w w' : world) : Prop :=
  retained w' = retained w /\ _cutover_fence_count w' = _cutover_fence_count w /\ running_loop w' = running_loop w.
Definition stable {A} (m : M A) : Prop := forall w, same_fence w (m w).2.

Create HintDb stable.
Section Stable.
Context {A B : Type}.
Lemma stable_bind (m : M A) (f : A -> M B) : stable m -> (forall a, stable (f a)) -> stable (m ≫= f).
Proof.
  intros Hm Hf w. unfold mbind, M, stm_bind. specialize (Hm w). destruct (m w) as [[a|e] w1]; [|done].
  destruct (Hf a w1) as (A1 & A2 & A3), Hm as (B1 & B2 & B3). cbn in *. split_and!; congruence.
Qed.
Lemma stable_attempt (m : M A) : stable m -> stable (attempt m).
Proof. intros Hm w. specialize (Hm w). unfold attempt. by destruct (m w). Qed.
Lemma stable_ret (a : A) : stable (mret a).
Proof. done. Qed.
Lemma stable_raise e : stable (stm_raise e : M A).
Proof. done. Qed.
Lemma stable_lift r : stable (stm_lift r : M A).
Proof. done. Qed.
Lemma stable_operation (ask : list event -> answer A) record : stable (operation ask record).
Proof. done. Qed.
Lemma stable_observe (ask : list event -> A) record : stable (observe ask record).
Proof. done. Qed.
End Stable.
Lemma stable_get : stable stm_get.
Proof. done. Qed.
Lemma stable_get_lease ref : stable (get_lease ref).
Proof. done. Qed.
Lemma stable_set_lease ref f : stable (set_lease ref f).
Proof. done. Qed.
Lemma stable_new_lease l : stable (new_lease l).
Proof. done. Qed.
#[export] Hint Resolve stable_attempt stable_ret stable_raise stable_lift stable_operation stable_observe stable_get
  stable_get_lease stable_set_lease stable_new_lease : stable.

Ltac stable :=
  repeat first
    [ progress auto with stable nocore
    | apply stable_bind; [|intros ?]
    | apply stable_attempt
    | match goal with |- stable (match ?x with _ => _ end) => destruct x end
    | progress cbv beta zeta ].

Section StableRuns.
Context {env : Environment} (fuel : nat).
Lemma stable_translate {A} (m : M A) e : stable m -> stable (translate m e).
Proof. intros H. unfold translate. stable. Qed.
Lemma stable_connect d : stable (engine_connect d).
Proof. intros w. unfold engine_connect. by case_match. Qed.
Lemma stable_cleanup c : stable (_cleanup_connection c).
Proof. done. Qed.
Lemma stable_commit_if b c : stable (commit_if b c).
Proof. unfold commit_if, commit. stable. Qed.
#[local] Hint Resolve stable_translate stable_connect stable_cleanup stable_commit_if : stable.
#[local] Hint Unfold gone closed_ in_tx rollback commit unlock wait_lock try_lock close_connection now sleep
  identity_query migration_key_query _remaining _validate_timeout : stable.

Lemma stable_or_cleanup {A} c (m : M A) : stable m -> stable (or_cleanup c m).
Proof. intros H. unfold or_cleanup. stable. Qed.
Lemma stable_release_lease ref : stable (_release_lease ref).
Proof.
  unfold _release_lease. stable.
Qed.
Lemma stable_acquire n c key m d label ft : stable (acquire_loop n c key m d label ft).
Proof.
  induction n as [|n IH]; cbn [acquire_loop]; [stable|].
  apply stable_bind; [apply stable_translate; stable|]. intros acquired. destruct acquired; [stable|].
  apply stable_bind; [stable|]. intros r. destruct (_ <=? 0); [stable|]. destruct m; [stable|].
  unfold wait_in_queue. stable.
Qed.
#[local] Hint Resolve stable_release_lease stable_acquire : stable.
Lemma stable_validate t : stable (_validate_timeout t).
Proof. unfold _validate_timeout. stable. Qed.
#[local] Hint Resolve stable_validate : stable.
Lemma stable_open_lease engine m timeout : stable (_open_lease fuel engine m timeout).
Proof.
  unfold _open_lease, lease_steps, _acquire_lock, abandon. stable.
Qed.
Lemma stable_migration_cleanup c key b : stable (migration_cleanup c key b).
Proof. unfold migration_cleanup. stable. Qed.
Lemma stable_migration_result {A} (r : answer A) b u : stable (migration_result r b u).
Proof. unfold migration_result. stable. Qed.
#[local] Hint Resolve stable_migration_cleanup stable_migration_result : stable.
Lemma stable_migration_exit {A} c key (r : answer A) : stable (migration_exit c key r).
Proof. unfold migration_exit. stable. Qed.
Lemma stable_migration_loop n c key t d : stable (migration_loop n c key t d).
Proof. induction n as [|n IH]; cbn [migration_loop]; stable. Qed.
#[local] Hint Resolve stable_migration_loop : stable.
Lemma stable_migration_enter c t : stable (migration_enter fuel c t).
Proof. unfold migration_enter. stable. Qed.
Lemma stable_verify k : stable (verify_held k).
Proof. unfold verify_held, assert_write_barrier_held. stable. Qed.
Lemma stable_current : stable current_write_barrier_lease.
Proof. done. Qed.
End StableRuns.

#[export] Hint Resolve stable_current stable_validate stable_open_lease stable_migration_enter stable_migration_exit
  stable_release_lease stable_verify : stable.

Lemma same_fence_trans w1 w2 w3 : same_fence w1 w2 -> same_fence w2 w3 -> same_fence w1 w3.
Proof. intros (A1 & A2 & A3) (B1 & B2 & B3). split_and!; congruence. Qed.

Section Fence.
Context {env : Environment} (fuel : nat).

(** A quiet first step, of a run that ends well or of any run. *)
Lemma stable_ok_bind {A B} (m : M A) (f : A -> M B) w b w' : stable m -> (m ≫= f) w = (Ok b, w') ->
  exists a w1, same_fence w w1 /\ f a w1 = (Ok b, w').
Proof.
  intros Hm. specialize (Hm w). unfold mbind, M, stm_bind. destruct (m w) as [[a|e] w1]; [|done].
  by exists a, w1.
Qed.
Lemma stable_attempt_bind {A B} (m : M A) (f : answer A -> M B) w : stable m ->
  exists r w1, same_fence w w1 /\ (attempt m ≫= f) w = f r w1.
Proof.
  intros Hm. specialize (Hm w). unfold attempt, mbind, M, stm_bind. destruct (m w) as [r w1]. by exists r, w1.
Qed.

Ltac quietly H S :=
  let w := fresh "w" in let a := fresh "a" in
  apply stable_ok_bind in H as (a & w & S & H); [|solve [unfold not_nested, now; stable]].

Lemma acquire_retained_fence engine timeout w k w' :
  acquire_retained_backup_write_barrier fuel engine timeout w = (Ok k, w') ->
  _cutover_fence_count w' = _cutover_fence_count w + 1 /\ running_loop w' = running_loop w /\
  exists x, retained w' !! k = Some x /\ _closed x = false /\ _process_fence_active x = true /\
    _loop x = running_loop w.
Proof.
  unfold acquire_retained_backup_write_barrier. intros H.
  quietly H S1. quietly H S2. quietly H S3. quietly H S4. quietly H S5. quietly H S6. quietly H S7.
  assert (S : same_fence w w6) by (repeat (eapply same_fence_trans; [eassumption|]); done).
  destruct a5 as [key|e]; [|quietly H S8; quietly H S9; done].
  cbn in H. unfold mbind, M, stm_bind, new_retained in H. cbn in H.
  set (x := mkRetained _ _ _ _ _) in H. set (w7 := with_retained _ w6) in H.
  pose proof (stable_verify (length (retained w6)) w7) as (V1 & V2 & V3).
  unfold attempt in H. destruct (verify_held _ w7) as [[u|e] w8]; cbn in V1, V2, V3, H.
  2:{ by destruct (close_retained _ _). }
  destruct S as (R1 & R2 & R3). unfold mret, stm_ret in H. simplify_eq. cbn. split_and!; [by rewrite V2, R2|by rewrite V3, R3|].
  exists (set_fence_active true x). split_and!; [|done..|exact R3].
  by rewrite list_lookup_alter_eq, V1, lookup_app_r, Nat.sub_diag by lia.
Qed.

Lemma wp_stable {A} (m : M A) (Q : answer A -> world -> Prop) w :
  stable m -> (forall r w', same_fence w w' -> Q r w') -> wp m Q w.
Proof. intros Hm H. apply H, Hm. Qed.

Lemma close_retained_fence k x w : retained w !! k = Some x -> _closed x = false -> running_loop w = _loop x ->
  wp (close_retained k) (fun _ w' =>
    _cutover_fence_count w' =
      (if _process_fence_active x then Z.max 0 (_cutover_fence_count w - 1) else _cutover_fence_count w) /\
    running_loop w' = running_loop w /\
    retained w' !! k = Some (set_fence_active false (set_closed true x))) w.
Proof.
  intros Hx Hc Hl. unfold close_retained. apply wp_bind, wp_get. cbn zeta.
  assert (Hr : retained_at w k = x) by (unfold retained_at; by rewrite Hx). rewrite Hr, Hl, Nat.eqb_refl, Hc.
  cbn [negb]. apply wp_bind, wp_modify, wp_bind, wp_set_lease. set (w1 := with_leases _ _).
  apply wp_bind, wp_attempt, wp_stable; [stable|]. intros r1 w2 S2.
  apply wp_bind, wp_attempt, wp_stable; [stable|]. intros r2 w3 S3. pose proof (same_fence_trans _ _ _ S2 S3) as S4.
  apply wp_bind, wp_attempt, wp_stable; [unfold close_connection; stable|]. intros r3 w5 S5.
  pose proof (same_fence_trans _ _ _ S4 S5) as (A1 & A2 & A3). apply wp_bind.
  assert (Hk : retained w5 !! k = Some (set_closed true x)) by (rewrite A1; cbn; by rewrite list_lookup_alter_eq, Hx).
  destruct (_process_fence_active x) eqn:Hf.
  - apply wp_bind, wp_modify, wp_modify, wp_stable; [stable|]. intros r w6 (B1 & B2 & B3). cbn in B1, B2, B3.
    rewrite B1, B2, B3, A2, A3, list_lookup_alter_eq, Hk. by split_and!.
  - apply wp_ret, wp_stable; [stable|]. intros r w6 (B1 & B2 & B3).
    rewrite B1, B2, B3, A2, A3, Hk. split_and!; [done..|]. f_equal. destruct x; cbn in *. by subst.
Qed.

Lemma close_retained_again k x w : retained w !! k = Some x -> _closed x = true -> running_loop w = _loop x ->
  close_retained k w = (Ok tt, w).
Proof.
  intros Hx Hc Hl. unfold close_retained, mbind, M, stm_bind. cbn. unfold retained_at.
  rewrite Hx. cbn. by rewrite Hl, Nat.eqb_refl, Hc.
Qed.
End Fence.

(** * The guarantees *)

(** A server that grants what is asked, or refuses every [try]; each step
    takes a nanosecond and a sleep as long as it was asked to. *)
Definition elapsed (t : list event) : Z :=
  foldr (fun e n => 1 + (match e with ESleep d _ => Z.max 0 d | _ => 0 end) + n) 0 t.
Definition demo (free : bool) : Environment := {|
  connect_answer _ _ := Ok tt;
  identity_answer _ _ := Ok (7, 42);
  migration_key_answer _ _ := Ok 9;
  try_answer _ _ _ _ := Ok free;
  wait_answer _ _ _ _ := Ok tt;
  unlock_answer _ _ _ _ := Ok (42, true);
  owns_answer _ _ _ _ _ := Ok (42, true);
  commit_answer _ _ := Ok tt;
  rollback_answer _ _ := Ok tt;
  invalidate_answer _ _ := Ok tt;
  close_answer _ _ := Ok tt;
  is_gone _ _ := false;
  is_closed _ _ := false;
  in_transaction _ _ := false;
  expired _ := false;
  monotonic := elapsed;
  sleep_answer _ _ := Ok tt;
  seconds_text _ := "30";
|}.
Definition idle : world := mkWorld [] 1 [] [] None 0 1 1.
(** A statement on the connection of the lease. *)
Definition writes (ref : nat) : M unit :=
  l ← get_lease ref; observe (fun _ => tt) (fun _ => EUser (connection l) "UPDATE posts").

Lemma writes_keep n ref : keeping n (writes ref).
Proof. intros w Hw _. apply wp_bind, wp_get_lease, wp_observe. intros [] _. by apply keeps_log. Qed.
Lemma idle_wf : wf idle.
Proof. split; [|done]. intros [|? ?] c r after; by cbn. Qed.
Lemma elapsed_snoc t e : elapsed (t ++ [e]) = elapsed t + 1 + match e with ESleep d _ => Z.max 0 d | _ => 0 end.
Proof.
  induction t as [|x t IH]; [cbn; lia|].
  change (elapsed ((x :: t) ++ [e])) with (1 + (match x with ESleep d _ => Z.max 0 d | _ => 0 end) + elapsed (t ++ [e])).
  change (elapsed (x :: t)) with (1 + (match x with ESleep d _ => Z.max 0 d | _ => 0 end) + elapsed t).
  lia.
Qed.
Lemma elapsed_grows t e : elapsed t <= elapsed (t ++ [e]).
Proof. rewrite elapsed_snoc. case_match; lia. Qed.
Lemma elapsed_sleep t d r : elapsed t + d <= elapsed (t ++ [ESleep d r]).
Proof. rewrite elapsed_snoc. lia. Qed.

(** C37: Whatever PostgreSQL, the pool, the clock and cancellation do, as long
    as invalidating a connection works: a block that leaves no lock behind,
    run under a mutation barrier of its own connection or of the caller's,
    leaves no lock behind.  No connection goes back to the pool while its
    session may hold a lock, every session holds what it held before or has
    ended, and the leases of enclosing blocks are untouched. *)
Theorem no_lock_in_pool (env : Environment) {A} (fuel n c engine : nat) (timeout : option Z) (body : nat -> M A) w
  (invalidation_works : forall t c, invalidate_answer t c = Ok tt)
  (body_keeps : forall ref, keeping n (body ref))
  (Hw : wf w) (Hn : (n <= connections w)%nat) (Hc : (c < n)%nat) :
  keeps w (mutation_write_barrier fuel engine timeout body w).2 /\
  keeps w (mutation_write_barrier_on_connection fuel c timeout body w).2.
Proof.
  split; [by apply (mutation_keeps invalidation_works fuel n)|].
  by apply (mutation_on_connection_keeps invalidation_works fuel n).
Qed.

Lemma no_lock_in_pool_witness :
  keeps idle (@mutation_write_barrier (demo true) 3 _ 0 (Some 5) writes idle).2 /\
  keeps idle (@mutation_write_barrier_on_connection (demo false) 3 _ 0 (Some 5) writes idle).2.
Proof.
  split.
  - by apply (no_lock_in_pool (demo true) 3 1 0 0 (Some 5) writes idle); [|apply writes_keep|apply idle_wf|cbn; lia..].
  - by apply (no_lock_in_pool (demo false) 3 1 0 0 (Some 5) writes idle); [|apply writes_keep|apply idle_wf|cbn; lia..].
Defined.

(** The block of the exclusive barrier (and of a storage switch) starts
    only when the server has granted the exclusive barrier lock and then the
    migration lock to one session that may hold nothing else, under an active
    lease of the running task.  The barrier fails closed: it returns a result
    only when the block returned it, and after the block the server confirmed
    the release of both locks, the barrier's from the process that took it. *)
Theorem backup_fails_closed (env : Environment) {A} (fuel engine : nat) (timeout : option Z) (body : nat -> M A) w
  (invalidation_works : forall t c, invalidate_answer t c = Ok tt)
  (closed_stays : forall c t t', is_closed t c = true -> is_gone (t ++ t') c = true)
  (body_keeps : forall ref key w1, wf w1 -> (connections w < connections w1)%nat -> under_both_locks ref key w1 ->
     keeps w1 (body ref w1).2)
  (Hw : wf w) :
  let '(r, w') := storage_runtime_switch_barrier fuel engine timeout body w in
  keeps w w' /\
  match r with
  | Ok a => exists ref key w1 w2, under_both_locks ref key w1 /\ body ref w1 = (Ok a, w2) /\
      both_confirmed (lease_at w1 ref) key w2 w'
  | Err _ => True
  end.
Proof.
  pose proof (backup_write_barrier_spec invalidation_works fuel closed_stays engine timeout body w Hw body_keeps) as H.
  unfold wp in H. unfold storage_runtime_switch_barrier. by destruct (backup_write_barrier _ _ _ _ _).
Qed.

Lemma backup_fails_closed_witness :
  is_ok (@storage_runtime_switch_barrier (demo true) 3 _ 0 (Some 5) writes idle).1 = true /\
  let '(r, w') := @storage_runtime_switch_barrier (demo true) 3 _ 0 (Some 5) writes idle in
  keeps idle w' /\
  match r with
  | Ok a => exists ref key w1 w2, under_both_locks ref key w1 /\ writes ref w1 = (Ok a, w2) /\
      both_confirmed (lease_at w1 ref) key w2 w'
  | Err _ => True
  end.
Proof.
  split; [vm_compute; reflexivity|].
  apply (backup_fails_closed (demo true) 3 0 (Some 5) writes idle); [done|done| |apply idle_wf].
  intros ref key w1 Hw1 _ _. by apply (writes_keep 0); [|lia].
Defined.

(** Waiting for a lock ends.  With a clock that does not go back and
    sleeps that last as long as asked, one iteration per poll interval of the
    time left, and one more, is enough for the polling loop of the barrier
    lock and for the one of the migration lock: each returns or raises. *)
Theorem polling_terminates (env : Environment) (n c : nat) key m timeout deadline label ft w
  (clock_forward : forall t e, monotonic t <= monotonic (t ++ [e]))
  (sleep_takes : forall t d r, monotonic t + d <= monotonic (t ++ [ESleep d r]))
  (real_answers : forall t c m k d, try_answer t c m k <> Err OutOfFuel /\ wait_answer t c k d <> Err OutOfFuel /\
     commit_answer t c <> Err OutOfFuel /\ sleep_answer t d <> Err OutOfFuel)
  (Hn : (0 < n)%nat) :
  (deadline - monotonic (trace w) <= _WRITE_BARRIER_POLL_SECONDS * (Z.of_nat n - 1) ->
   (acquire_loop n c key m deadline label ft w).1 <> Err OutOfFuel) /\
  (deadline - monotonic (trace w) <= _MIGRATION_LOCK_POLL_SECONDS * (Z.of_nat n - 1) ->
   forall b, (migration_loop n c key timeout deadline w).1 <> Ok (b, Err OutOfFuel)).
Proof.
  split; intros Hgap; [apply acquire_loop_answers|apply migration_loop_answers]; try done;
    intros; apply real_answers; exact 0%nat || exact SHARED || exact 0.
Qed.

Lemma polling_terminates_witness :
  (@acquire_loop (demo false) 5 0 7 SHARED (200 * 10 ^ 6) "the lock" true idle).1 <> Err OutOfFuel /\
  forall b, (@migration_loop (demo false) 5 0 9 0 (200 * 10 ^ 6) idle).1 <> Ok (b, Err OutOfFuel).
Proof.
  split.
  - apply (polling_terminates (demo false) 5 0 7 SHARED 0 (200 * 10 ^ 6) "the lock" true idle);
      [apply elapsed_grows|apply elapsed_sleep|done|lia|vm_compute; discriminate].
  - apply (polling_terminates (demo false) 5 0 9 SHARED 0 (200 * 10 ^ 6) "the lock" true idle);
      [apply elapsed_grows|apply elapsed_sleep|done|lia|vm_compute; discriminate].
Defined.

(** A retained barrier fences the process.  Acquiring it raises the fence
    by one; while the fence is up a mutation is refused before it touches the
    database; closing the barrier, whatever fails on the way, lowers the fence
    to what it was, and closing it again does nothing. *)
Theorem cutover_fence (env : Environment) {A} (fuel engine c : nat) (timeout : option Z) (body : nat -> M A) k w w'
  (Hacquired : acquire_retained_backup_write_barrier fuel engine timeout w = (Ok k, w'))
  (Hfence : 0 <= _cutover_fence_count w) :
  _cutover_fence_count w' = _cutover_fence_count w + 1 /\
  (exists message, mutation_write_barrier fuel engine timeout body w' = (Err (WriteBarrierError message), w') /\
     mutation_write_barrier_on_connection fuel c timeout body w' = (Err (WriteBarrierError message), w')) /\
  let '(_, w2) := close_retained k w' in
  _cutover_fence_count w2 = _cutover_fence_count w /\ close_retained k w2 = (Ok tt, w2).
Proof.
  destruct (acquire_retained_fence _ _ _ _ _ _ Hacquired) as (F1 & R1 & x & X1 & X2 & X3 & X4).
  split_and!; [done| |].
  - eexists. unfold mutation_write_barrier, mutation_write_barrier_on_connection, _reject_process_cutover_mutation.
    unfold mbind, M, stm_bind. cbn. unfold process_cutover_is_fenced. rewrite F1.
    destruct (0 <? _) eqn:E; [by split|]. apply Z.ltb_ge in E. lia.
  - pose proof (close_retained_fence k x w' X1 X2 ltac:(by rewrite X4)) as H. unfold wp in H.
    destruct (close_retained k w') as [r w2]. cbn in H. destruct H as (F2 & R2 & X5). rewrite X3 in F2.
    split; [lia|]. eapply close_retained_again; [exact X5|done|]. cbn. by rewrite R2, X4.
Qed.

Lemma cutover_fence_witness :
  let w' := (@acquire_retained_backup_write_barrier (demo true) 3 0 (Some 5) idle).2 in
  _cutover_fence_count w' = 1 /\
  (exists message, @mutation_write_barrier (demo true) 3 _ 0 (Some 5) writes w' = (Err (WriteBarrierError message), w') /\
     @mutation_write_barrier_on_connection (demo true) 3 _ 0 (Some 5) writes w' = (Err (WriteBarrierError message), w')) /\
  let '(_, w2) := @close_retained (demo true) 0 w' in
  _cutover_fence_count w2 = 0 /\ @close_retained (demo true) 0 w2 = (Ok tt, w2).
Proof.
  apply (cutover_fence (demo true) 3 0 0 (Some 5) writes 0 idle); [vm_compute; reflexivity|cbn; lia].
Defined.
