(* ===== verification/StorageSafety.v ===== *)
(** * Storage path components (ppbase/core/storage_safety.py)

    The validation of identifiers and filenames that become one component of
    a local path or of an object key, and the local name of an identifier.
    Characters are those of PyText (U+0000..U+00FF), with their UTF-8
    encoding; [urlsplit] is a parameter. *)
From Stdlib Require Import Ascii String.
From S2P Require Import Prelude PyText PyVal.
#[local] Open Scope string_scope.
#[local] Open Scope list_scope.

Definition MAX_STORAGE_IDENTIFIER_LENGTH : nat := 15.
Definition MAX_STORAGE_FILENAME_BYTES : nat := 255.
Definition LOCAL_STORAGE_ID_ESCAPE_PREFIX : string := "__ppbase_storage_id_v1__".

(** [StorageSafetyError], a [ValueError]. *)
Inductive StorageSafetyError : Type := StorageSafetyError_ (message : string).

(** [[_a-z0-9]] of [_POCKETBASE_STORAGE_ID_PATTERN]. *)
Definition is_id_char (c : ascii) : bool := is_ascii_lower c || is_ascii_digit c || (code c =? 95)%N.
Definition pocketbase_storage_id (s : string) : bool :=
  match s with EmptyString => false | _ => str_forall is_id_char s end.
(** [_WINDOWS_DRIVE_PREFIX.match] *)
Definition windows_drive_prefix (s : string) : bool :=
  match s with String a (String b _) => is_ascii_alpha a && (code b =? 58)%N | _ => false end.
(** The category [Cc]; a text of these characters has no surrogates. *)
Definition is_control (c : ascii) : bool := in_range 0 31 c || in_range 127 159 c.
Definition _has_control_character (value : string) : bool := negb (str_forall (fun c => negb (is_control c)) value).
Definition is_separator (c : ascii) : bool := (code c =? 47)%N || (code c =? 92)%N.
Definition has_separator (value : string) : bool := negb (str_forall (fun c => negb (is_separator c)) value).

(** [value.encode("utf-8")] *)
Definition utf8_char (c : ascii) : list N :=
  let n := code c in if (n <? 128)%N then [n] else [192 + n / 64; 128 + n mod 64]%N.
Fixpoint utf8 (s : string) : list N :=
  match s with EmptyString => [] | String c s' => utf8_char c ++ utf8 s' end.
(** [.hex()] *)
Definition hex_byte (n : N) : string := String (hex_digit (n / 16)) (String (hex_digit (n mod 16)) "").
Fixpoint hex (bytes : list N) : string :=
  match bytes with [] => "" | n :: l => (hex_byte n +:+ hex l)%string end.

Definition _validate_single_component (value : pyval) (label : string) (max_length max_utf8_bytes : option nat)
    (reject_windows_drive_prefix : bool) : result StorageSafetyError string :=
  let fail what := Err (StorageSafetyError_ (label +:+ what)) in
  match value with
  | PStr s =>
      if String.eqb s "" || negb (String.eqb s (py_strip s)) then fail " must be a non-empty trimmed value."
      else if String.eqb s "." || String.eqb s ".." then fail " cannot be a relative path segment."
      else if has_separator s then fail " cannot contain path separators."
      else if reject_windows_drive_prefix && windows_drive_prefix s then fail " cannot contain a drive prefix."
      else if _has_control_character s then fail " cannot contain control characters."
      else
        match max_length with
        | Some n => if (n <? String.length s)%nat
                    then fail (" must contain at most " +:+ str_of_nat n +:+ " characters.") else
            match max_utf8_bytes with
            | Some b => if (b <? length (utf8 s))%nat
                        then fail (" must contain at most " +:+ str_of_nat b +:+ " UTF-8 bytes.") else Ok s
            | None => Ok s
            end
        | None =>
            match max_utf8_bytes with
            | Some b => if (b <? length (utf8 s))%nat
                        then fail (" must contain at most " +:+ str_of_nat b +:+ " UTF-8 bytes.") else Ok s
            | None => Ok s
            end
        end
  | _ => fail " must be a string."
  end.

Definition validate_collection_id (value : pyval) : result StorageSafetyError string :=
  _validate_single_component value "collection_id" (Some MAX_STORAGE_IDENTIFIER_LENGTH) None false.
Definition validate_record_id (value : pyval) : result StorageSafetyError string :=
  _validate_single_component value "record_id" (Some MAX_STORAGE_IDENTIFIER_LENGTH) None false.
Definition validate_file_reference (value : pyval) : result StorageSafetyError string :=
  _validate_single_component value "filename" None (Some MAX_STORAGE_FILENAME_BYTES) true.

Definition escaped_name (identifier : string) : string :=
  if pocketbase_storage_id identifier then identifier
  else (LOCAL_STORAGE_ID_ESCAPE_PREFIX +:+ hex (utf8 identifier))%string.
Definition local_storage_id_name (value : pyval) : result StorageSafetyError string :=
  identifier ← _validate_single_component value "storage_id" (Some MAX_STORAGE_IDENTIFIER_LENGTH) None false;
  Ok (escaped_name identifier).

(** [urlsplit(value)]: the scheme and the network location; [None] is the
    [ValueError]. *)
Class UrlSplit : Type := urlsplit : string -> option (string * string).
Definition is_remote_file_reference `{UrlSplit} (value : pyval) : bool :=
  match value with
  | PStr s =>
      match urlsplit s with
      | Some (scheme, netloc) =>
          (String.eqb (py_lower scheme) "http" || String.eqb (py_lower scheme) "https") && negb (String.eqb netloc "")
      | None => false
      end
  | _ => false
  end.

(** ** What an accepted component is *)
Record component (s : string) : Prop := {
  component_nonempty : s <> "";
  component_trimmed : py_strip s = s;
  component_not_relative : s <> "." /\ s <> "..";
  component_no_separator : str_forall (fun c => negb (is_separator c)) s = true;
  component_no_control : str_forall (fun c => negb (is_control c)) s = true;
}.

Lemma single_component_ok value label n b w s :
  _validate_single_component value label n b w = Ok s ->
  value = PStr s /\ component s /\ (forall k, n = Some k -> (String.length s <= k)%nat) /\
  (forall k, b = Some k -> (length (utf8 s) <= k)%nat) /\ (w = true -> windows_drive_prefix s = false).
Proof.
  unfold _validate_single_component. intros H. destruct value as [| | | |v| |]; try done.
  destruct (_ || _) eqn:E1; [done|]. apply orb_false_iff in E1 as [E1 E1'%negb_false_iff].
  apply String.eqb_neq in E1. apply String.eqb_eq in E1'.
  destruct (_ || _) eqn:E2; [done|]. apply orb_false_iff in E2 as [E2%String.eqb_neq E2'%String.eqb_neq].
  destruct (has_separator v) eqn:E3; [done|]. destruct (w && _) eqn:E4; [done|].
  destruct (_has_control_character v) eqn:E5; [done|].
  apply negb_false_iff in E3, E5.
  assert (Hs : v = s /\ (forall k, n = Some k -> (String.length s <= k)%nat) /\ (forall k, b = Some k -> (length (utf8 s) <= k)%nat)).
  { destruct n as [n|], b as [b|]; repeat case_match; simplify_eq; split_and!; try done; intros ? [= <-];
      by apply Nat.ltb_ge. }
  destruct Hs as (-> & Hn & Hb). split_and!; try done. intros ->. by destruct (windows_drive_prefix s).
Qed.

Lemma single_component_complete s label n b w :
  component s -> (forall k, n = Some k -> (String.length s <= k)%nat) ->
  (forall k, b = Some k -> (length (utf8 s) <= k)%nat) -> (w = true -> windows_drive_prefix s = false) ->
  _validate_single_component (PStr s) label n b w = Ok s.
Proof.
  intros [H1 H2 [H3 H4] H5 H6] Hn Hb Hw. unfold _validate_single_component.
  rewrite H2, String.eqb_refl. apply String.eqb_neq in H1 as ->. cbn [negb orb].
  apply String.eqb_neq in H3 as ->. apply String.eqb_neq in H4 as ->. cbn [orb].
  unfold has_separator, _has_control_character. rewrite H5, H6. cbn [negb].
  assert (w && windows_drive_prefix s = false) as -> by (destruct w; [by apply Hw|done]).
  destruct n as [n|], b as [b|]; repeat case_match; try done; exfalso;
    repeat match goal with H : (_ <? _)%nat = true |- _ => apply Nat.ltb_lt in H end;
    try (specialize (Hn _ eq_refl)); try (specialize (Hb _ eq_refl)); lia.
Qed.

(** ** The hexadecimal text of an identifier determines it *)
Definition hex_value (c : ascii) : N := let n := code c in if (n <? 58)%N then n - 48 else n - 87.
Definition unhex_char (s : string) : option (ascii * string) :=
  match s with
  | String a (String b s') =>
      let n := (16 * hex_value a + hex_value b)%N in
      if (n <? 128)%N then Some (ascii_of_N n, s')
      else match s' with
           | String c (String d s'') =>
               Some (ascii_of_N (64 * (n - 192) + (16 * hex_value c + hex_value d - 128)), s'')
           | _ => None
           end
  | _ => None
  end.

Lemma unhex_char_hex c s : unhex_char (hex (utf8_char c) +:+ s) = Some (c, s).
Proof. destruct c as [[] [] [] [] [] [] [] []]; reflexivity. Qed.
Lemma hex_app a b : hex (a ++ b) = (hex a +:+ hex b)%string.
Proof. induction a as [|n a IH]; cbn; [done|]. by rewrite IH. Qed.
Lemma hex_utf8_inj a b : hex (utf8 a) = hex (utf8 b) -> a = b.
Proof.
  revert b. induction a as [|c a IH]; intros [|d b]; cbn [utf8]; rewrite ?hex_app; [done|..].
  - intros H. pose proof (unhex_char_hex d (hex (utf8 b))) as E. by rewrite <- H in E.
  - intros H. pose proof (unhex_char_hex c (hex (utf8 a))) as E. by rewrite H in E.
  - intros H. pose proof (unhex_char_hex c (hex (utf8 a))) as E. rewrite H, unhex_char_hex in E.
    injection E as -> E. f_equal. by apply IH.
Qed.
Lemma hex_digit_id n : (n < 16)%N -> is_id_char (hex_digit n) = true.
Proof.
  intros H. destruct n as [|p]; [done|]. do 4 (destruct p as [p|p|]; try done; try lia).
Qed.
Lemma hex_id bytes : Forall (fun n => (n < 256)%N) bytes -> str_forall is_id_char (hex bytes) = true.
Proof.
  induction 1 as [|n l Hn _ IH]; [done|]. cbn. unfold hex_byte.
  assert (n / 16 < 16)%N by (apply N.Div0.div_lt_upper_bound; lia).
  rewrite !hex_digit_id by (try done; apply N.mod_lt; lia). by rewrite IH.
Qed.
Lemma utf8_bytes s : Forall (fun n => (n < 256)%N) (utf8 s).
Proof.
  induction s as [|c s IH]; cbn; [constructor|]. apply Forall_app. split; [|done].
  destruct c as [[] [] [] [] [] [] [] []]; repeat constructor.
Qed.

Lemma id_text_component s : s <> "" -> str_forall is_id_char s = true -> component s.
Proof.
  intros Hne Hs.
  assert (Hp : forall p, (forall c, is_id_char c = true -> p c = true) -> str_forall p s = true)
    by (intros p Hp; by eapply str_forall_impl).
  split; [done| | | |].
  - assert (Hsp : str_forall (fun c => negb (is_space c)) s = true)
      by (apply Hp; by intros [[] [] [] [] [] [] [] []]).
    unfold py_strip. assert (py_rstrip s = s) as ->.
    { clear Hne Hs Hp. induction s as [|c s IH]; [done|]. cbn in Hsp. apply andb_true_iff in Hsp as [Hc Hsp].
      cbn. rewrite IH by done. apply negb_true_iff in Hc. rewrite Hc. by destruct s. }
    destruct s as [|c s]; [done|]. cbn in Hsp. apply andb_true_iff in Hsp as [Hc _]. cbn.
    apply negb_true_iff in Hc. by rewrite Hc.
  - split; intros ->; done.
  - apply Hp. by intros [[] [] [] [] [] [] [] []].
  - apply Hp. by intros [[] [] [] [] [] [] [] []].
Qed.

Lemma local_name_text s : component s ->
  escaped_name s <> "" /\ str_forall is_id_char (escaped_name s) = true.
Proof.
  intros Hs. unfold escaped_name. destruct (pocketbase_storage_id s) eqn:E.
  - split; [apply Hs|]. by destruct s.
  - split; [done|]. rewrite str_forall_app, hex_id; [done|apply utf8_bytes].
Qed.

(** The local name of an identifier is always one safe path component of
    lower-case letters, digits and underscores, so no identifier reaches
    outside of its directory, and two identifiers share a name only when they
    are the same, on a case-insensitive file system too. *)
Theorem local_storage_id_name_safe v n (Hv : local_storage_id_name v = Ok n) :
  component n /\ py_lower n = n /\
  forall v' n', local_storage_id_name v' = Ok n' -> py_lower n = py_lower n' -> v = v'.
Proof.
  unfold local_storage_id_name in Hv. bind_ok Hv as s Hs. injection Hv as <-.
  apply single_component_ok in Hs as (-> & Cs & Ls & _). specialize (Ls _ eq_refl).
  destruct (local_name_text s Cs) as [Hne Hid].
  assert (Hlow : forall t, str_forall is_id_char t = true -> py_lower t = t).
  { induction t as [|c t IH]; [done|]. cbn. intros [Hc Ht]%andb_true_iff. rewrite IH by done. f_equal.
    revert Hc. by destruct c as [[] [] [] [] [] [] [] []]. }
  split_and!; [by apply id_text_component|by apply Hlow|].
  intros v' n' Hv'. unfold local_storage_id_name in Hv'. bind_ok Hv' as s' Hs'. injection Hv' as <-.
  apply single_component_ok in Hs' as (-> & Cs' & Ls' & _). specialize (Ls' _ eq_refl).
  destruct (local_name_text s' Cs') as [_ Hid']. rewrite (Hlow _ Hid), (Hlow _ Hid'). clear Hlow Hid Hid' Hne.
  assert (Hlong : forall a b, (String.length a <= 15)%nat -> a <> (LOCAL_STORAGE_ID_ESCAPE_PREFIX +:+ b)%string).
  { intros a b Hl ->. cbn in Hl. lia. }
  unfold escaped_name. destruct (pocketbase_storage_id s), (pocketbase_storage_id s'); intros H.
  - by subst.
  - by apply Hlong in H.
  - symmetry in H. by apply Hlong in H.
  - f_equal. apply hex_utf8_inj. by repeat (injection H as H).
Qed.

Lemma local_storage_id_name_safe_witness :
  component "__ppbase_storage_id_v1__61423a" /\ py_lower "__ppbase_storage_id_v1__61423a" = "__ppbase_storage_id_v1__61423a" /\
  forall v' n', local_storage_id_name v' = Ok n' -> py_lower "__ppbase_storage_id_v1__61423a" = py_lower n' -> PStr "aB:" = v'.
Proof. apply (local_storage_id_name_safe (PStr "aB:")). reflexivity. Defined.
