(* ===== verification/FieldTypes.v ===== *)
(** * Field types and value validation (ppbase/models/field_types.py)

    One validator per field type, each a function from the field definition
    and a raw value to the cleaned value or an exception.  A raw value is a
    Python value or a [datetime].  [re.search] on a pattern of the schema,
    [json.loads], [float(text)], [datetime.fromisoformat] and the URL parser
    are parameters; [float(int)] rounds to binary64 and overflows as Python's
    does. *)
From Stdlib Require Import Ascii String SpecFloat.
From S2P Require Import Prelude PyText PyVal StorageSafety.
From S2P Require FilterParser RequestMacros.
#[local] Open Scope string_scope.
#[local] Open Scope list_scope.

Inductive FieldType : Type :=
| TEXT | EDITOR | NUMBER | BOOL | EMAIL | URL | DATE | AUTODATE | SELECT | FILE | RELATION | JSON | PASSWORD | GEO_POINT.
#[export] Instance FieldType_eq_dec : EqDecision FieldType.
Proof. solve_decision. Defined.
Definition FieldType_value (t : FieldType) : string :=
  match t with
  | TEXT => "text" | EDITOR => "editor" | NUMBER => "number" | BOOL => "bool" | EMAIL => "email" | URL => "url"
  | DATE => "date" | AUTODATE => "autodate" | SELECT => "select" | FILE => "file" | RELATION => "relation"
  | JSON => "json" | PASSWORD => "password" | GEO_POINT => "geoPoint"
  end.

Record FieldDefinition : Type := mkField {
  field_id : string;
  name : string;
  type : FieldType;
  required : bool;
  system : bool;
  hidden : bool;
  presentable : bool;
  options : list (string * pyval);
}.

(** A [datetime] is microseconds on its own clock ([wall]), and its UTC offset
    when it has one. *)
Abbreviation datetime := FilterParser.datetime.
Abbreviation mkDatetime := FilterParser.mkDatetime.
Abbreviation wall := FilterParser.wall.
Abbreviation utcoffset := FilterParser.utcoffset.
Inductive value : Type :=
| Plain (v : pyval)
| Datetime (d : datetime).
#[local] Coercion Plain : pyval >-> value.

Inductive field_exn : Type :=
| FieldValidationError (field_name code message : string)
| PyException (kind : string).           (* any other exception *)

Class FieldLib : Type := {
  field_float_text :: FloatText;
  re_search : string -> string -> option bool;              (* None: re.error *)
  json_loads : string -> option pyval;                      (* None: ValueError *)
  float_of_text : string -> option spec_float;              (* None: ValueError *)
  field_iso :: FilterParser.IsoFormat;                      (* None: ValueError *)
  url_hostname : string -> string;                          (* "" when urlparse raises *)
  field_urlsplit :: UrlSplit;
}.

(** [str(d)], and [strftime] with the milliseconds. *)
Definition datetime_str `{FieldLib} (d : datetime) : string := RequestMacros.cell_str (RequestMacros.Stamp d).
Definition format_stamp (d : datetime) : string := RequestMacros.stamp_text (wall d).
Definition datetime_fromisoformat `{FieldLib} (s : string) : option datetime := FilterParser.fromisoformat s.

(** ** Python helpers *)

Definition field_str `{FieldLib} (v : value) : string :=
  match v with Plain p => py_str p | Datetime d => datetime_str d end.
Definition is_none (v : value) : bool := match v with Plain PNone => true | _ => false end.
Definition value_truthy (v : value) : bool := match v with Plain p => truthy p | Datetime _ => true end.
(** [str(value) if value is not None else ""] *)
Definition text_of `{FieldLib} (v : value) : string := if is_none v then "" else field_str v.

(** Binary64. *)
Definition float_of_Z (z : Z) : option spec_float :=
  match binary_normalize 53 1024 z 0 false with
  | S754_infinity _ | S754_nan => None                      (* OverflowError *)
  | f => Some f
  end.
Definition is_finite (f : spec_float) : bool := match f with S754_infinity _ | S754_nan => false | _ => true end.
Inductive float_exn : Type := TypeOrValueError | OverflowError.
(** [float(v)] *)
Definition py_float `{FieldLib} (v : value) : result float_exn spec_float :=
  match v with
  | Plain (PBool b) => Ok (if b then S754_finite false 4503599627370496 (-52) else S754_zero false)
  | Plain (PInt z) => match float_of_Z z with Some f => Ok f | None => Err OverflowError end
  | Plain (PFloat f) => Ok f
  | Plain (PStr s) => match float_of_text s with Some f => Ok f | None => Err TypeOrValueError end
  | _ => Err TypeOrValueError
  end.
Definition float_error (e : float_exn) : field_exn :=
  PyException (match e with TypeOrValueError => "TypeError or ValueError" | OverflowError => "OverflowError" end).
(** An uncaught [float(v)] and [int(v)]. *)
Definition float_or_raise `{FieldLib} (v : pyval) : result field_exn spec_float :=
  match py_float v with Ok f => Ok f | Err e => Err (float_error e) end.
Definition int_or_raise (v : pyval) : result field_exn Z :=
  match py_int v with Some z => Ok z | None => Err (PyException "TypeError, ValueError or OverflowError") end.

(** [n < v] for an int [n] and a number of the schema; exact while [n] is
    below 2^53. *)
Definition int_lt (n : Z) (v : pyval) : result field_exn bool :=
  match v with
  | PBool b => Ok (n <? if b then 1 else 0)%Z
  | PInt z => Ok (n <? z)%Z
  | PFloat f => Ok (SFltb (binary_normalize 53 1024 n 0 false) f)
  | _ => Err (PyException "TypeError")
  end.
(** [n > v] *)
Definition int_gt (n : Z) (v : pyval) : result field_exn bool :=
  match v with
  | PBool b => Ok ((if b then 1 else 0) <? n)%Z
  | PInt z => Ok (z <? n)%Z
  | PFloat f => Ok (SFltb f (binary_normalize 53 1024 n 0 false))
  | _ => Err (PyException "TypeError")
  end.

(** [options.get(key)], and with a default. *)
Definition opt (field : FieldDefinition) (key : string) : pyval := default PNone (dict_get key (options field)).
Definition opt_or (field : FieldDefinition) (key : string) (d : pyval) : pyval := default d (dict_get key (options field)).
(** [a or b] *)
Definition py_or (a b : pyval) : pyval := if truthy a then a else b.
Definition not_none (v : pyval) : bool := match v with PNone => false | _ => true end.

(** [for x in v] *)
Fixpoint chars (s : string) : list pyval :=
  match s with EmptyString => [] | String c s' => PStr (String c "") :: chars s' end.
Definition py_iter (v : pyval) : result field_exn (list pyval) :=
  match v with
  | PList l => Ok l
  | PDict d => Ok (PStr <$> d.*1)
  | PStr s => Ok (chars s)
  | _ => Err (PyException "TypeError")
  end.
(** [[d.lower() for d in v]] *)
Definition lowered (v : pyval) : result field_exn (list string) :=
  l ← py_iter v;
  map_result (fun x => match x with PStr s => Ok (py_lower s) | _ => Err (PyException "AttributeError") end) l.
(** [s in v] for a text [s] *)
Definition str_in (s : string) (v : pyval) : result field_exn bool :=
  match v with
  | PList l => Ok (existsb (fun x => match x with PStr t => String.eqb t s | _ => false end) l)
  | PDict d => Ok (existsb (fun k => String.eqb k s) d.*1)
  | PStr t => Ok (contains s t)
  | _ => Err (PyException "TypeError")
  end.

(** [s.replace(old, new)] for one character [old]. *)
Fixpoint replace_char (old : ascii) (new s : string) : string :=
  match s with
  | EmptyString => ""
  | String c s' => ((if Ascii.eqb c old then new else String c "") +:+ replace_char old new s')%string
  end.

(** ** The regular expressions, on a text without surrounding blanks *)

(** [[^@\s]] *)
Definition email_char (c : ascii) : bool := negb (Ascii.eqb c "@") && negb (is_space c).
Fixpoint dot_then_more (s : string) : bool :=
  match s with
  | EmptyString => false
  | String c s' => (Ascii.eqb c "." && negb (String.eqb s' "")) || dot_then_more s'
  end.
(** [^[^@\s]+@[^@\s]+\.[^@\s]+$] *)
Definition _EMAIL_RE (s : string) : bool :=
  let '(local, rest) := span email_char s in
  match rest with
  | String at_ (String d domain) =>
      negb (String.eqb local "") && Ascii.eqb at_ "@" && str_forall email_char (String d domain) && dot_then_more domain
  | _ => false
  end.
(** [^https?://\S+$], ignoring case *)
Definition _URL_RE (s : string) : bool :=
  let low := py_lower s in
  let rest := if starts_with "http://" low then Some (str_drop 7 s)
              else if starts_with "https://" low then Some (str_drop 8 s) else None in
  match rest with
  | Some r => negb (String.eqb r "") && str_forall (fun c => negb (is_space c)) r
  | None => false
  end.

(** ** The validators *)
Section Validators.
Context {lib : FieldLib}.
Abbreviation validated := (result field_exn value).

Definition fail (field : FieldDefinition) (code message : string) : validated :=
  Err (FieldValidationError (name field) code message).
Definition blank (field : FieldDefinition) : validated := fail field "validation_required" "Cannot be blank.".

(** The length and pattern constraints of a text or a password. *)
Definition text_constraints (field : FieldDefinition) (min_len max_len pattern : pyval) (val : string) : validated :=
  short ← (if not_none min_len then n ← int_or_raise min_len; Ok (Z.of_nat (String.length val) <? n)%Z else Ok false);
  if short : bool
  then fail field "validation_min_text_constraint" ("Must be at least " +:+ py_str min_len +:+ " character(s).") else
  long ← (if not_none max_len then n ← int_or_raise max_len; Ok (n <? Z.of_nat (String.length val))%Z else Ok false);
  if long : bool
  then fail field "validation_max_text_constraint" ("Must be at most " +:+ py_str max_len +:+ " character(s).") else
  matched ← (if truthy pattern
             then match pattern with
                  | PStr p => match re_search p val with
                              | Some b => Ok b
                              | None => Err (PyException "re.error")
                              end
                  | _ => Err (PyException "TypeError")
                  end
             else Ok true);
  if matched : bool then Ok (Plain (PStr val))
  else fail field "validation_invalid_format" ("Must match pattern: " +:+ py_str pattern).

Definition _validate_text (field : FieldDefinition) (v : value) : validated :=
  let val := text_of v in
  if required field && String.eqb val "" then blank field
  else if String.eqb val "" then Ok (Plain (PStr val))
  else text_constraints field (opt field "min") (opt field "max") (opt field "pattern") val.

(** [max_size not in (None, "", 0)] *)
Definition size_set (max_size : pyval) : bool :=
  match max_size with
  | PNone | PBool false | PInt 0 | PFloat (S754_zero _) => false
  | PStr s => negb (String.eqb s "")
  | _ => true
  end.
Definition utf8_length (s : string) : Z := zlen (utf8 s).

Definition _validate_editor (field : FieldDefinition) (v : value) : validated :=
  let val := text_of v in
  let max_size := opt field "maxSize" in
  if required field && String.eqb val "" then blank field
  else if String.eqb val "" then Ok (Plain (PStr val))
  else
    too_long ← (if size_set max_size then n ← int_or_raise max_size; Ok (n <? utf8_length val)%Z else Ok false);
    if too_long : bool
    then fail field "validation_max_size_constraint" ("Must be at most " +:+ py_str max_size +:+ " byte(s).")
    else Ok (Plain (PStr val)).

(** The float of a number field, before its checks. *)
Definition number_of (field : FieldDefinition) (v : value) : result field_exn spec_float :=
  let blank_value := match v with
    | Plain PNone => true
    | Plain (PStr s) => String.eqb (py_strip s) ""
    | _ => false
    end in
  if blank_value then Ok (S754_zero false) else
  match py_float v with
  | Ok f => Ok f
  | Err TypeOrValueError => Err (FieldValidationError (name field) "validation_not_a_number" "Must be a valid number.")
  | Err OverflowError => Err (float_error OverflowError)
  end.
Definition f_zero : spec_float := S754_zero false.

Definition _validate_number (field : FieldDefinition) (v : value) : validated :=
  val ← number_of field v;
  if negb (is_finite val) then fail field "validation_not_a_number" "NaN and Inf are not allowed." else
  let only_int := truthy (opt_or field "onlyInt" (PBool false)) in
  if required field && SFeqb val f_zero then blank field else
  integral ← (if only_int
              then z ← int_or_raise (PFloat val); f ← float_or_raise (PInt z); Ok (SFeqb val f)
              else Ok true);
  if negb integral then fail field "validation_only_int" "Must be an integer value." else
  let min_val := opt field "min" in
  let max_val := opt field "max" in
  below ← (if not_none min_val then m ← float_or_raise min_val; Ok (SFltb val m) else Ok false);
  if below : bool then fail field "validation_min_number_constraint" ("Must be >= " +:+ py_str min_val +:+ ".") else
  above ← (if not_none max_val then m ← float_or_raise max_val; Ok (SFltb m val) else Ok false);
  if above : bool then fail field "validation_max_number_constraint" ("Must be <= " +:+ py_str max_val +:+ ".") else
  if only_int then z ← int_or_raise (PFloat val); Ok (Plain (PInt z)) else Ok (Plain (PFloat val)).

Definition _validate_bool (field : FieldDefinition) (v : value) : validated :=
  let val := if is_none v then false else value_truthy v in
  if required field && negb val then fail field "validation_required" "Must be true."
  else Ok (Plain (PBool val)).

(** [val.rsplit("@", 1)[-1]] *)
Definition after_at (s : string) : string := List.last (split_on "@" s) "".

(** The allow and deny lists of an email or URL domain. *)
Definition domain_constraints (field : FieldDefinition) (domain code only_message except_message val : string)
  : validated :=
  let only_domains := py_or (opt_or field "onlyDomains" (PList [])) (PList []) in
  let except_domains := py_or (opt_or field "exceptDomains" (PList [])) (PList []) in
  outside ← (if truthy only_domains then l ← lowered only_domains; Ok (negb (existsb (String.eqb domain) l)) else Ok false);
  if outside : bool
  then
    l ← py_iter only_domains;
    fail field code (only_message +:+ join ", " (py_str <$> l) +:+ ".")
  else
  denied ← (if truthy except_domains then l ← lowered except_domains; Ok (existsb (String.eqb domain) l) else Ok false);
  if denied : bool then fail field code except_message else Ok (Plain (PStr val)).

Definition _validate_email (field : FieldDefinition) (v : value) : validated :=
  let val := if is_none v then "" else py_strip (field_str v) in
  if required field && String.eqb val "" then blank field
  else if String.eqb val "" then Ok (Plain (PStr val))
  else if negb (_EMAIL_RE val) then fail field "validation_invalid_email" "Must be a valid email address."
  else domain_constraints field (py_lower (after_at val)) "validation_invalid_email_domain"
         "Email domain must be one of: " "Email domain is not allowed." val.

Definition _validate_url (field : FieldDefinition) (v : value) : validated :=
  let val := if is_none v then "" else py_strip (field_str v) in
  if required field && String.eqb val "" then blank field
  else if String.eqb val "" then Ok (Plain (PStr val))
  else if negb (_URL_RE val) then fail field "validation_invalid_url" "Must be a valid URL."
  else domain_constraints field (py_lower (url_hostname val)) "validation_invalid_url_domain"
         "URL domain must be one of: " "URL domain is not allowed." val.

(** [a < b]; comparing a naive and an aware [datetime] raises. *)
Definition datetime_lt (a b : datetime) : result field_exn bool :=
  match utcoffset a, utcoffset b with
  | None, None => Ok (wall a <? wall b)%Z
  | Some x, Some y => Ok (wall a - x <? wall b - y)%Z
  | _, _ => Err (PyException "TypeError")
  end.
Definition iso_bound (v : pyval) : result field_exn datetime :=
  match datetime_fromisoformat (replace_char "Z" "+00:00" (py_str v)) with
  | Some d => Ok d
  | None => Err (PyException "ValueError")
  end.

Definition date_bounds (field : FieldDefinition) (dt : datetime) : validated :=
  let min_date := opt field "min" in
  let max_date := opt field "max" in
  early ← (if truthy min_date then m ← iso_bound min_date; datetime_lt dt m else Ok false);
  if early : bool then fail field "validation_min_date_constraint" ("Must be >= " +:+ py_str min_date +:+ ".") else
  late ← (if truthy max_date then m ← iso_bound max_date; datetime_lt m dt else Ok false);
  if late : bool then fail field "validation_max_date_constraint" ("Must be <= " +:+ py_str max_date +:+ ".")
  else Ok (Datetime dt).

Definition _validate_date (field : FieldDefinition) (v : value) : validated :=
  match v with
  | Datetime d => date_bounds field d
  | Plain p =>
      let val_str := if not_none p then py_strip (py_str p) else "" in
      if String.eqb val_str "" then if required field then blank field else Ok (Plain PNone)
      else match datetime_fromisoformat (replace_char "Z" "+00:00" val_str) with
           | Some d => date_bounds field d
           | None => fail field "validation_invalid_date" "Must be a valid datetime string."
           end
  end.

Definition _validate_autodate (field : FieldDefinition) (v : value) : validated :=
  match v with
  | Datetime d => Ok (Plain (PStr (format_stamp d)))
  | Plain PNone => Ok (Plain (PStr ""))
  | Plain p => Ok (Plain (PStr (py_str p)))
  end.

Definition max_select (field : FieldDefinition) : pyval := py_or (opt_or field "maxSelect" (PInt 1)) (PInt 1).

(** Without repetitions, in order of first appearance. *)
Fixpoint unique_from (seen l : list string) : list string :=
  match l with
  | [] => []
  | x :: l' => if existsb (String.eqb x) seen then unique_from seen l' else x :: unique_from (x :: seen) l'
  end.
Definition strs (l : list string) : value := Plain (PList (PStr <$> l)).

Fixpoint check_allowed (field : FieldDefinition) (allowed : pyval) (l : list string) : result field_exn unit :=
  match l with
  | [] => Ok tt
  | x :: l' =>
      ok ← (if truthy allowed then str_in x allowed else Ok true);
      if ok : bool then check_allowed field allowed l'
      else Err (FieldValidationError (name field) "validation_invalid_select_value"
                  ("'" +:+ x +:+ "' is not an allowed value."))
  end.

Definition _validate_select (field : FieldDefinition) (v : value) : validated :=
  let allowed := py_or (opt_or field "values" (PList [])) (PList []) in
  is_multi ← int_lt 1 (max_select field);
  if is_multi : bool then
    let val_list := match v with
      | Plain PNone => []
      | Plain (PList l) => py_str <$> l
      | _ => [field_str v]
      end in
    if required field && match val_list with [] => true | _ => false end then blank field else
    let val_list := unique_from [] val_list in
    too_many ← int_gt (zlen val_list) (max_select field);
    if too_many : bool
    then fail field "validation_max_select_constraint"
           ("Must select at most " +:+ py_str (max_select field) +:+ " value(s).")
    else check_allowed field allowed val_list ≫= fun _ => Ok (strs val_list)
  else
    let val := text_of v in
    if required field && String.eqb val "" then blank field else
    if String.eqb val "" then Ok (Plain (PStr val)) else
    check_allowed field allowed [val] ≫= fun _ => Ok (Plain (PStr val)).

(** [[str(v) for v in raw if v]] of a list, the text of anything else. *)
Definition reference_list (v : value) : list string :=
  match v with
  | Plain (PList l) => py_str <$> filter (fun x => truthy x = true) l
  | _ => if value_truthy v then [field_str v] else []
  end.
Definition valid_reference (filename : string) : bool :=
  is_remote_file_reference (PStr filename) || is_ok (validate_file_reference (PStr filename)).

Definition _validate_file (field : FieldDefinition) (v : value) : validated :=
  is_multi ← int_lt 1 (max_select field);
  let values := reference_list v in
  if negb (forallb valid_reference values)
  then fail field "validation_invalid_filename" "Must be a valid stored filename."
  else if is_multi : bool then
    if required field && match values with [] => true | _ => false end then blank field else
    too_many ← int_gt (zlen values) (max_select field);
    if too_many : bool
    then fail field "validation_max_select_constraint"
           ("Must select at most " +:+ py_str (max_select field) +:+ " file(s).")
    else Ok (strs values)
  else
    let val := List.last values "" in
    if required field && String.eqb val "" then blank field else Ok (Plain (PStr val)).

Definition _validate_relation (field : FieldDefinition) (v : value) : validated :=
  is_multi ← int_lt 1 (max_select field);
  if is_multi : bool then
    let val_list := reference_list v in
    if required field && match val_list with [] => true | _ => false end then blank field else
    too_many ← int_gt (zlen val_list) (max_select field);
    if too_many : bool
    then fail field "validation_max_select_constraint"
           ("Must select at most " +:+ py_str (max_select field) +:+ " relation(s).")
    else Ok (strs val_list)
  else
    let val := text_of v in
    if required field && String.eqb val "" then blank field else Ok (Plain (PStr val)).

(** [json.dumps(value, separators=(",", ":"))] *)
Fixpoint json_compact (v : pyval) : string :=
  match v with
  | PNone => "null"
  | PBool b => if b then "true" else "false"
  | PInt z => str_of_Z z
  | PFloat f => json_float f
  | PStr s => json_str s
  | PList l => "[" +:+ join "," (json_compact <$> l) +:+ "]"
  | PDict d => "{" +:+ join "," ((fun kv => json_str kv.1 +:+ ":" +:+ json_compact kv.2) <$> d) +:+ "}"
  end.

(** A text that looks like JSON is read as JSON when it is. *)
Definition may_be_json (stripped : string) : bool :=
  match stripped with
  | EmptyString => false
  | String c _ =>
      existsb (Ascii.eqb c) [ascii_of_N 34; "{"; "["; "t"; "f"; "n"]%char || is_digit c || Ascii.eqb c "-"
  end.
Definition json_value (v : value) : value :=
  match v with
  | Plain (PStr s) =>
      if may_be_json (py_strip s)
      then match json_loads (py_strip s) with Some j => Plain j | None => v end
      else v
  | _ => v
  end.
Definition _validate_json (field : FieldDefinition) (v : value) : validated :=
  if required field && is_none v then blank field
  else if is_none v then Ok (Plain PNone)
  else
    let v := json_value v in
    let max_size := opt field "maxSize" in
    if size_set max_size then
      encoded ← (match v with Plain p => Ok (json_compact p) | Datetime _ => Err (PyException "TypeError") end);
      n ← int_or_raise max_size;
      if (n <? utf8_length encoded)%Z
      then fail field "validation_max_size_constraint" ("Must be at most " +:+ py_str max_size +:+ " byte(s).")
      else Ok v
    else Ok v.

Definition _validate_password (field : FieldDefinition) (v : value) : validated :=
  let val := text_of v in
  if required field && String.eqb val "" then blank field
  else if String.eqb val "" then Ok (Plain (PStr val))
  else text_constraints field (opt_or field "min" (PInt 8)) (opt_or field "max" (PInt 71)) (opt field "pattern") val.

(** [-n <= f <= n] *)
Definition f_of_Z (z : Z) : spec_float := binary_normalize 53 1024 z 0 false.
Definition within (n : Z) (f : spec_float) : bool := SFleb (f_of_Z (- n)) f && SFleb f (f_of_Z n).
Definition coordinate (d : list (string * pyval)) (key : string) : result float_exn spec_float :=
  py_float (Plain (default (PInt 0) (dict_get key d))).
Definition bad_point (field : FieldDefinition) (message : string) : validated :=
  fail field "validation_invalid_geo_point" message.
Definition point (lon lat : spec_float) : value := Plain (PDict [("lon", PFloat lon); ("lat", PFloat lat)]).
Definition quoted (s : string) : string := (dq +:+ s +:+ dq)%string.

Definition _validate_geo_point (field : FieldDefinition) (v : value) : validated :=
  match v with
  | Plain PNone => if required field then blank field else Ok (point f_zero f_zero)
  | Plain (PDict d) =>
      match lon ← coordinate d "lon"; lat ← coordinate d "lat"; Ok (lon, lat) with
      | Err TypeOrValueError => bad_point field (quoted "lon" +:+ " and " +:+ quoted "lat" +:+ " must be numbers.")
      | Err OverflowError => Err (float_error OverflowError)
      | Ok (lon, lat) =>
          if negb (within 180 lon) then bad_point field (quoted "lon" +:+ " must be between -180 and 180.")
          else if negb (within 90 lat) then bad_point field (quoted "lat" +:+ " must be between -90 and 90.")
          else if required field && SFeqb lon f_zero && SFeqb lat f_zero
          then fail field "validation_required" "A non-zero coordinate is required."
          else Ok (point lon lat)
      end
  | _ => bad_point field ("Must be an object with " +:+ quoted "lon" +:+ " and " +:+ quoted "lat" +:+ " keys.")
  end.

Definition _VALIDATORS (t : FieldType) : FieldDefinition -> value -> validated :=
  match t with
  | TEXT => _validate_text
  | EDITOR => _validate_editor
  | NUMBER => _validate_number
  | BOOL => _validate_bool
  | EMAIL => _validate_email
  | URL => _validate_url
  | DATE => _validate_date
  | AUTODATE => _validate_autodate
  | SELECT => _validate_select
  | FILE => _validate_file
  | RELATION => _validate_relation
  | JSON => _validate_json
  | PASSWORD => _validate_password
  | GEO_POINT => _validate_geo_point
  end.
Definition validate_field_value (field_def : FieldDefinition) (v : value) : validated :=
  _VALIDATORS (type field_def) field_def v.
End Validators.

(** * What a stored value of a field is *)
Section Conforms.
Context {lib : FieldLib}.

(** The check [test n] applies when [b] holds, with [n] computed by [r]. *)
Definition when {A} (b : bool) (r : result field_exn A) (test : A -> bool) : Prop :=
  b = true -> exists n, r = Ok n /\ test n = true.

Definition text_ok (field : FieldDefinition) (min_len max_len : pyval) (s : string) : Prop :=
  (required field = true -> s <> "") /\
  (s <> "" ->
     when (not_none min_len) (int_or_raise min_len) (fun n => n <=? Z.of_nat (String.length s))%Z /\
     when (not_none max_len) (int_or_raise max_len) (fun n => Z.of_nat (String.length s) <=? n)%Z /\
     (truthy (opt field "pattern") = true -> exists p, opt field "pattern" = PStr p /\ re_search p s = Some true)).

Definition domain_ok (field : FieldDefinition) (domain : string) : Prop :=
  let only_domains := py_or (opt_or field "onlyDomains" (PList [])) (PList []) in
  let except_domains := py_or (opt_or field "exceptDomains" (PList [])) (PList []) in
  when (truthy only_domains) (lowered only_domains) (fun l => existsb (String.eqb domain) l) /\
  when (truthy except_domains) (lowered except_domains) (fun l => negb (existsb (String.eqb domain) l)).

Definition bounds_ok (field : FieldDefinition) (f : spec_float) : Prop :=
  is_finite f = true /\ (required field = true -> SFeqb f f_zero = false) /\
  when (not_none (opt field "min")) (float_or_raise (opt field "min")) (fun m => negb (SFltb f m)) /\
  when (not_none (opt field "max")) (float_or_raise (opt field "max")) (fun m => negb (SFltb m f)).

Definition dates_ok (field : FieldDefinition) (d : datetime) : Prop :=
  (truthy (opt field "min") = true -> exists m, iso_bound (opt field "min") = Ok m /\ datetime_lt d m = Ok false) /\
  (truthy (opt field "max") = true -> exists m, iso_bound (opt field "max") = Ok m /\ datetime_lt m d = Ok false).

(** A single value, or a list of at most [maxSelect]. *)
Definition one_or_many (field : FieldDefinition) (item : string -> Prop) (single : string -> Prop)
    (many : list string -> Prop) (v : value) : Prop :=
  (int_lt 1 (max_select field) = Ok true /\ exists l, v = strs l /\ (required field = true -> l <> []) /\
     int_gt (zlen l) (max_select field) = Ok false /\ Forall item l /\ many l) \/
  (int_lt 1 (max_select field) = Ok false /\ exists s, v = Plain (PStr s) /\ (required field = true -> s <> "") /\
     (s <> "" -> single s)).

Definition conforms (field : FieldDefinition) (v : value) : Prop :=
  match type field with
  | TEXT => exists s, v = Plain (PStr s) /\ text_ok field (opt field "min") (opt field "max") s
  | PASSWORD => exists s, v = Plain (PStr s) /\
      text_ok field (opt_or field "min" (PInt 8)) (opt_or field "max" (PInt 71)) s
  | EDITOR => exists s, v = Plain (PStr s) /\ (required field = true -> s <> "") /\
      (s <> "" -> when (size_set (opt field "maxSize")) (int_or_raise (opt field "maxSize"))
                    (fun n => utf8_length s <=? n)%Z)
  | NUMBER =>
      if truthy (opt_or field "onlyInt" (PBool false))
      then exists z f, v = Plain (PInt z) /\ float_of_Z z = Some f /\ int_of_float f = Some z /\ bounds_ok field f
      else exists f, v = Plain (PFloat f) /\ bounds_ok field f
  | BOOL => exists b, v = Plain (PBool b) /\ (required field = true -> b = true)
  | EMAIL => exists s, v = Plain (PStr s) /\ py_strip s = s /\ (required field = true -> s <> "") /\
      (s <> "" -> _EMAIL_RE s = true /\ domain_ok field (py_lower (after_at s)))
  | URL => exists s, v = Plain (PStr s) /\ py_strip s = s /\ (required field = true -> s <> "") /\
      (s <> "" -> _URL_RE s = true /\ domain_ok field (py_lower (url_hostname s)))
  | DATE => (v = Plain PNone /\ required field = false) \/ exists d, v = Datetime d /\ dates_ok field d
  | AUTODATE => exists s, v = Plain (PStr s)
  | SELECT =>
      let allowed := py_or (opt_or field "values" (PList [])) (PList []) in
      let item x := truthy allowed = true -> str_in x allowed = Ok true in
      one_or_many field item item (fun l => NoDup l) v
  | FILE =>
      one_or_many field (fun x => x <> "" /\ valid_reference x = true) (fun x => valid_reference x = true) (fun _ => True) v
  | RELATION => one_or_many field (fun x => x <> "") (fun _ => True) (fun _ => True) v
  | JSON => v <> Plain PNone -> size_set (opt field "maxSize") = true ->
      exists p n, v = Plain p /\ int_or_raise (opt field "maxSize") = Ok n /\ (utf8_length (json_compact p) <= n)%Z
  | GEO_POINT => exists lon lat, v = point lon lat /\ within 180 lon = true /\ within 90 lat = true /\
      (required field = true -> SFeqb lon f_zero = false \/ SFeqb lat f_zero = false)
  end.

(** ** Validation as a conjunction of checks *)
Lemma check_ok {A} (m : result field_exn bool) e (k : result field_exn A) v :
  (b ← m; if b : bool then Err e else k) = Ok v <-> m = Ok false /\ k = Ok v.
Proof. destruct m as [[]|]; cbn; naive_solver. Qed.
Lemma if_err {A} (b : bool) (e : field_exn) (k : result field_exn A) v :
  (if b then Err e else k) = Ok v <-> b = false /\ k = Ok v.
Proof. destruct b; naive_solver. Qed.
Lemma guard_ok {A} (b : bool) (r : result field_exn A) (test : A -> bool) :
  (if b then n ← r; Ok (test n) else Ok false) = Ok false <-> when b r (fun n => negb (test n)).
Proof.
  unfold when. destruct b; [|naive_solver]. destruct r as [n|]; cbn; [|naive_solver].
  split; [intros [= E] _; exists n; by rewrite E|]. intros H. destruct (H eq_refl) as (? & [= <-] & H'). 
  by apply negb_true_iff in H' as ->.
Qed.
Lemma when_ext {A} b (r : result field_exn A) test test' : (forall n, test n = test' n) -> when b r test <-> when b r test'.
Proof.
  intros E. unfold when. split; intros H Hb; destruct (H Hb) as (n & Hr & Ht); exists n; split; try done;
    congruence.
Qed.

Lemma text_constraints_ok field mn mx pattern val v :
  text_constraints field mn mx pattern val = Ok v <->
  v = Plain (PStr val) /\
  when (not_none mn) (int_or_raise mn) (fun n => n <=? Z.of_nat (String.length val))%Z /\
  when (not_none mx) (int_or_raise mx) (fun n => Z.of_nat (String.length val) <=? n)%Z /\
  (truthy pattern = true -> exists p, pattern = PStr p /\ re_search p val = Some true).
Proof.
  unfold text_constraints, fail. rewrite !check_ok, !guard_ok.
  rewrite (when_ext _ (int_or_raise mn) _ (fun n => n <=? Z.of_nat (String.length val))%Z) by (intros; lia).
  rewrite (when_ext _ (int_or_raise mx) _ (fun n => Z.of_nat (String.length val) <=? n)%Z) by (intros; lia).
  destruct (truthy pattern) eqn:Hp; cbn; [|naive_solver].
  destruct pattern; cbn; try naive_solver.
  destruct (re_search _ _) as [[]|] eqn:Hr; cbn; naive_solver.
Qed.
Lemma if_bind_err {A B} (b : bool) (m : result field_exn B) e (k : result field_exn A) v :
  (if b then _ ← m; Err e else k) = Ok v <-> b = false /\ k = Ok v.
Proof. destruct b, m; cbn; naive_solver. Qed.
Lemma domain_constraints_ok field domain c m1 m2 val v :
  domain_constraints field domain c m1 m2 val = Ok v <-> v = Plain (PStr val) /\ domain_ok field domain.
Proof.
  unfold domain_constraints, domain_ok, fail. set (only := py_or _ _). set (exc := py_or (opt_or field "exceptDomains" _) _).
  assert (Hb : forall (m : result field_exn bool) k,
    (outside ← m; if outside : bool then l ← py_iter only;
       Err (FieldValidationError (name field) c (m1 +:+ join ", " (py_str <$> l) +:+ ".")) else k) = Ok v <->
    m = Ok false /\ k = Ok v).
  { intros [[]|] k; cbn; [destruct (py_iter only); naive_solver..|naive_solver]. }
  rewrite Hb, check_ok, (guard_ok _ (lowered only) (fun l => negb (existsb (String.eqb domain) l))), guard_ok.
  rewrite (when_ext _ (lowered only) _ (fun l => existsb (String.eqb domain) l)) by (intros; apply negb_involutive).
  naive_solver.
Qed.

Lemma blank_if {A} (b : bool) (e : field_exn) (val : string) (x : A) k v :
  (if b && String.eqb val "" then Err e else if String.eqb val "" then Ok x else k) = Ok v <->
  (val = "" /\ b = false /\ v = x) \/ (val <> "" /\ k = Ok v).
Proof. destruct b, (String.eqb_spec val ""); cbn; naive_solver. Qed.

Lemma validate_text_ok field v v' :
  _validate_text field v = Ok v' <->
  v' = Plain (PStr (text_of v)) /\ text_ok field (opt field "min") (opt field "max") (text_of v).
Proof.
  unfold _validate_text, blank, fail, text_ok. rewrite blank_if, text_constraints_ok.
  destruct (String.eqb_spec (text_of v) "") as [->|Hne]; [|naive_solver]. destruct (required field); naive_solver.
Qed.
Lemma validate_password_ok field v v' :
  _validate_password field v = Ok v' <->
  v' = Plain (PStr (text_of v)) /\ text_ok field (opt_or field "min" (PInt 8)) (opt_or field "max" (PInt 71)) (text_of v).
Proof.
  unfold _validate_password, blank, fail, text_ok. rewrite blank_if, text_constraints_ok.
  destruct (String.eqb_spec (text_of v) "") as [->|Hne]; [|naive_solver]. destruct (required field); naive_solver.
Qed.

Lemma validate_editor_ok field v v' :
  _validate_editor field v = Ok v' <->
  v' = Plain (PStr (text_of v)) /\ (required field = true -> text_of v <> "") /\
  (text_of v <> "" -> when (size_set (opt field "maxSize")) (int_or_raise (opt field "maxSize"))
                        (fun n => utf8_length (text_of v) <=? n)%Z).
Proof.
  unfold _validate_editor, blank, fail. rewrite blank_if, check_ok, guard_ok.
  rewrite (when_ext _ (int_or_raise _) _ (fun n => utf8_length (text_of v) <=? n)%Z) by (intros; lia).
  destruct (String.eqb_spec (text_of v) "") as [->|Hne]; [|naive_solver]. destruct (required field); naive_solver.
Qed.

Lemma validate_bool_ok field v v' :
  _validate_bool field v = Ok v' <->
  exists b, b = (if is_none v then false else value_truthy v) /\ v' = Plain (PBool b) /\ (required field = true -> b = true).
Proof.
  unfold _validate_bool, fail. set (b := if is_none v then _ else _). rewrite if_err.
  destruct (required field), b; cbn; naive_solver.
Qed.

Definition trimmed_of (v : value) : string := if is_none v then "" else py_strip (field_str v).
Lemma validate_email_ok field v v' :
  _validate_email field v = Ok v' <->
  v' = Plain (PStr (trimmed_of v)) /\ (required field = true -> trimmed_of v <> "") /\
  (trimmed_of v <> "" -> _EMAIL_RE (trimmed_of v) = true /\ domain_ok field (py_lower (after_at (trimmed_of v)))).
Proof.
  unfold _validate_email, blank, fail. fold (trimmed_of v). rewrite blank_if, if_err, domain_constraints_ok, negb_false_iff.
  destruct (String.eqb_spec (trimmed_of v) "") as [->|Hne]; [|naive_solver]. destruct (required field); naive_solver.
Qed.
Lemma validate_url_ok field v v' :
  _validate_url field v = Ok v' <->
  v' = Plain (PStr (trimmed_of v)) /\ (required field = true -> trimmed_of v <> "") /\
  (trimmed_of v <> "" -> _URL_RE (trimmed_of v) = true /\ domain_ok field (py_lower (url_hostname (trimmed_of v)))).
Proof.
  unfold _validate_url, blank, fail. fold (trimmed_of v). rewrite blank_if, if_err, domain_constraints_ok, negb_false_iff.
  destruct (String.eqb_spec (trimmed_of v) "") as [->|Hne]; [|naive_solver]. destruct (required field); naive_solver.
Qed.

Lemma bind2_ok {A B} (b : bool) (m : result field_exn A) (k : A -> result field_exn B) (d : B) v :
  (if b then x ← m; k x else Ok d) = Ok v <->
  (b = true /\ exists x, m = Ok x /\ k x = Ok v) \/ (b = false /\ v = d).
Proof. destruct b, m; cbn; naive_solver. Qed.
Lemma date_bounds_ok field d v' : date_bounds field d = Ok v' <-> v' = Datetime d /\ dates_ok field d.
Proof.
  unfold date_bounds, dates_ok, fail. rewrite !check_ok, !bind2_ok.
  destruct (truthy (opt field "min")), (truthy (opt field "max")); naive_solver.
Qed.

(** ** Numbers *)
Lemma float_cases (f g : spec_float) : is_finite f = true -> SFeqb f g = true ->
  f = g \/ exists b b', f = S754_zero b /\ g = S754_zero b'.
Proof.
  unfold SFeqb, SFcompare. destruct f as [b| | |b m e]; try done; intros _; destruct g as [b'|b'| |b' m' e']; try done.
  - right. by exists b, b'.
  - by destruct b'.
  - by destruct b'.
  - by destruct b.
  - by destruct b, b'.
  - destruct b, b'; try done; destruct (e ?= e')%Z eqn:E; try done;
      change (Pos.compare_cont Eq m m') with (m ?= m')%positive; destruct (m ?= m')%positive eqn:M; try done;
      intros _; left; apply Z.compare_eq in E as ->; f_equal; by apply Pos.compare_eq.
Qed.
Lemma SFeqb_refl f : is_finite f = true -> SFeqb f f = true.
Proof.
  unfold SFeqb, SFcompare. destruct f as [b| | |b m e]; try done. intros _.
  rewrite Z.compare_refl. change (Pos.compare_cont Eq m m) with (m ?= m)%positive. rewrite Pos.compare_refl. by destruct b.
Qed.
Lemma bounds_ok_eq field f g : SFeqb f g = true -> bounds_ok field f -> bounds_ok field g.
Proof.
  intros E Hb. destruct (float_cases f g (proj1 Hb) E) as [->|(b & b' & -> & ->)]; [done|exact Hb].
Qed.
Lemma int_of_float_eq f g : is_finite f = true -> SFeqb f g = true -> int_of_float g = int_of_float f.
Proof. intros Hf E. by destruct (float_cases f g Hf E) as [->|(b & b' & -> & ->)]. Qed.

Lemma validate_number_ok field v v' :
  _validate_number field v = Ok v' <->
  exists f, number_of field v = Ok f /\ bounds_ok field f /\
    if truthy (opt_or field "onlyInt" (PBool false))
    then exists z g, int_of_float f = Some z /\ float_of_Z z = Some g /\ SFeqb f g = true /\ v' = Plain (PInt z)
    else v' = Plain (PFloat f).
Proof.
  unfold _validate_number, blank, fail, bounds_ok. destruct (number_of field v) as [f|e]; cbn; [|naive_solver].
  set (only := truthy _). rewrite !if_err, negb_false_iff.
  assert (Hi : forall (m : result field_exn bool) k, (integral ← m; if negb integral then Err (FieldValidationError (name field)
      "validation_only_int" "Must be an integer value.") else k) = Ok v' <-> m = Ok true /\ k = Ok v').
  { intros [[]|] k; cbn; naive_solver. }
  rewrite Hi, !check_ok, !guard_ok. clear Hi.
  assert (Hr : required field && SFeqb f f_zero = false <-> (required field = true -> SFeqb f f_zero = false))
    by (destruct (required field); naive_solver).
  rewrite Hr. clear Hr. destruct only.
  - assert (H1 : (z ← int_or_raise (PFloat f); g ← float_or_raise (PInt z); Ok (SFeqb f g)) = Ok true <->
      exists z g, int_of_float f = Some z /\ float_of_Z z = Some g /\ SFeqb f g = true).
    { unfold int_or_raise, float_or_raise. cbn. destruct (int_of_float f) as [z|]; cbn; [|naive_solver].
      destruct (float_of_Z z) as [g|] eqn:Eg; cbn; split.
      - intros [= E]. by exists z, g.
      - intros (? & ? & [= <-] & [= <-]%(eq_trans (eq_sym Eg)) & E). by rewrite E.
      - done.
      - intros (? & ? & [= <-] & ? & _). congruence. }
    assert (H2 : (z ← int_or_raise (PFloat f); Ok (Plain (PInt z))) = Ok v' <->
      exists z, int_of_float f = Some z /\ v' = Plain (PInt z)).
    { unfold int_or_raise. cbn. destruct (int_of_float f) as [z|]; cbn; naive_solver. }
    rewrite H1, H2. clear H1 H2. split.
    + intros (A1 & A2 & (z & g & B1 & B2 & B3) & A4 & A5 & z' & C1 & C2). exists f. split; [done|]. split; [done|].
      exists z, g. rewrite B1 in C1. injection C1 as <-. done.
    + intros (? & [= <-] & (A1 & A2 & A3 & A4) & z & g & B1 & B2 & B3 & B4). split_and!; eauto.
  - split.
    + intros (A1 & A2 & _ & A4 & A5 & [= <-]). by exists f.
    + intros (? & [= <-] & (A1 & A2 & A3 & A4) & ->). by split_and!.
Qed.

(** ** Lists of references *)
Lemma unique_from_spec seen l : NoDup (unique_from seen l) /\ forall x, x ∈ unique_from seen l <-> x ∈ l /\ x ∉ seen.
Proof.
  revert seen. induction l as [|x l IH]; intros seen; cbn; [split; [constructor|set_solver]|].
  destruct (existsb (String.eqb x) seen) eqn:E.
  - apply existsb_exists in E as (y & Hy & ->%String.eqb_eq). rewrite <- list_elem_of_In in Hy.
    destruct (IH seen) as [Hn Hi]. split; [done|]. intros z. rewrite Hi. set_solver.
  - assert (Hx : x ∉ seen).
    { intros Hx. rewrite list_elem_of_In in Hx. apply not_true_iff_false in E. apply E, existsb_exists.
      exists x. by rewrite String.eqb_refl. }
    destruct (IH (x :: seen)) as [Hn Hi]. split.
    + constructor; [|done]. rewrite Hi. set_solver.
    + intros z. rewrite elem_of_cons, Hi. destruct (decide (z = x)) as [->|]; set_solver.
Qed.
Lemma unique_from_id seen l : NoDup l -> (forall x, x ∈ l -> x ∉ seen) -> unique_from seen l = l.
Proof.
  revert seen. induction l as [|x l IH]; intros seen Hl Hs; cbn; [done|]. apply NoDup_cons in Hl as [Hx Hl].
  destruct (existsb (String.eqb x) seen) eqn:E.
  - apply existsb_exists in E as (y & Hy & ->%String.eqb_eq). rewrite <- list_elem_of_In in Hy.
    by destruct (Hs y (list_elem_of_here _ _)).
  - f_equal. apply IH; [done|]. intros y Hy [->|Hin]%elem_of_cons; [done|]. by apply (Hs y); [right|].
Qed.
Lemma unique_from_nil l : unique_from [] l = [] -> l = [].
Proof.
  destruct l as [|x l]; [done|]. intros H. pose proof (proj2 (unique_from_spec [] (x :: l)) x) as [_ Hx].
  rewrite H in Hx. by apply elem_of_nil in Hx; [|set_solver].
Qed.

Lemma check_allowed_ok field allowed l :
  check_allowed field allowed l = Ok tt <-> Forall (fun x => truthy allowed = true -> str_in x allowed = Ok true) l.
Proof.
  induction l as [|x l IH]; cbn; [by split|]. rewrite Forall_cons, <- IH.
  destruct (truthy allowed); [|naive_solver]. destruct (str_in x allowed) as [[]|]; cbn; naive_solver.
Qed.
Lemma check_allowed_bind field allowed l (x v : value) :
  (check_allowed field allowed l ≫= fun _ => Ok x) = Ok v <-> check_allowed field allowed l = Ok tt /\ v = x.
Proof. destruct (check_allowed field allowed l) as [[]|]; cbn; naive_solver. Qed.

Lemma strs_text (l : list string) : py_str <$> (PStr <$> l) = l.
Proof. induction l as [|x l IH]; cbn; [done|]. by rewrite <- IH at 2. Qed.
Lemma required_list {A} (b : bool) (l : list A) :
  b && match l with [] => true | _ => false end = false <-> (b = true -> l <> []).
Proof. destruct b, l; naive_solver. Qed.
Lemma required_text (b : bool) s : b && String.eqb s "" = false <-> (b = true -> s <> "").
Proof. destruct b, (String.eqb_spec s ""); naive_solver. Qed.

Lemma reference_list_strs l : Forall (fun x => x <> "") l -> reference_list (strs l) = l.
Proof.
  intros H. change (py_str <$> filter (fun x => truthy x = true) (PStr <$> l) = l).
  rewrite <- (strs_text l) at 2. f_equal.
  induction H as [|x l Hx _ IH]; [done|]. apply String.eqb_neq in Hx. rewrite fmap_cons.
  rewrite filter_cons_True by (cbn; by rewrite Hx). by rewrite IH.
Qed.
Lemma reference_list_single s : reference_list (Plain (PStr s)) = if String.eqb s "" then [] else [s].
Proof. cbn. by destruct (String.eqb s ""). Qed.

Lemma validate_select_ok field v v' : _validate_select field v = Ok v' ->
  conforms (mkField (field_id field) (name field) SELECT (required field) (system field) (hidden field)
              (presentable field) (options field)) v'.
Proof.
  unfold _validate_select, blank, fail, conforms, one_or_many. cbn [type]. intros H. bind_ok H as multi Hm.
  change (max_select (mkField _ _ _ _ _ _ _ _)) with (max_select field). rewrite Hm. destruct multi; [left|right].
  - rewrite if_err, required_list, check_ok, check_allowed_bind, check_allowed_ok in H.
    set (l0 := match v with Plain PNone => [] | _ => _ end) in H. destruct H as (Hr & Hs & Ha & ->).
    split; [done|]. exists (unique_from [] l0). split_and!; try done; [|apply unique_from_spec].
    intros Hreq Hnil. by apply Hr, unique_from_nil.
  - split; [done|]. rewrite if_err, required_text in H. destruct H as [Hr H].
    exists (text_of v). destruct (String.eqb_spec (text_of v) "") as [E|E]; [injection H as <-; by rewrite E in *|].
    rewrite check_allowed_bind, check_allowed_ok, Forall_singleton in H. destruct H as [Ha ->]. done.
Qed.
Lemma validate_select_fixed field v : type field = SELECT -> conforms field v -> _validate_select field v = Ok v.
Proof.
  unfold _validate_select, blank, fail, conforms, one_or_many. intros ->.
  intros [(Hm & l & -> & Hr & Hs & Ha & Hn)|(Hm & s & -> & Hr & Ha)]; rewrite Hm; cbn [mbind result_bind].
  - unfold strs. rewrite strs_text, if_err, required_list, unique_from_id by (try done; set_solver).
    rewrite check_ok, check_allowed_bind, check_allowed_ok. done.
  - cbn. rewrite if_err, required_text. split; [done|]. destruct (String.eqb_spec s "") as [->|E]; [done|].
    specialize (Ha E). destruct (truthy _); [rewrite Ha by done|]; done.
Qed.

Lemma forallb_valid l : negb (forallb valid_reference l) = false <-> Forall (fun x => valid_reference x = true) l.
Proof. by rewrite negb_false_iff, forallb_forall, Forall_forall; setoid_rewrite list_elem_of_In. Qed.
Lemma last_in (l : list string) : List.last l "" <> "" -> List.last l "" ∈ l.
Proof.
  induction l as [|x [|y l] IH]; cbn [List.last]; [done|by left|]. intros H. right. by apply IH.
Qed.

Lemma validate_file_fixed field v : type field = FILE -> conforms field v -> _validate_file field v = Ok v.
Proof.
  unfold _validate_file, blank, fail, conforms, one_or_many. intros ->.
  intros [(Hm & l & -> & Hr & Hs & [Hne Hv]%Forall_and & _)|(Hm & s & -> & Hr & Ha)]; rewrite Hm; cbn [mbind result_bind].
  - rewrite reference_list_strs, if_err, forallb_valid, if_err, required_list, check_ok by done. done.
  - rewrite reference_list_single, if_err, forallb_valid, if_err, required_text.
    destruct (String.eqb_spec s "") as [->|E]; cbn; [done|]. split; [|done]. by constructor; [apply Ha|].
Qed.

Lemma validate_relation_fixed field v : type field = RELATION -> conforms field v -> _validate_relation field v = Ok v.
Proof.
  unfold _validate_relation, blank, fail, conforms, one_or_many. intros ->.
  intros [(Hm & l & -> & Hr & Hs & Hne & _)|(Hm & s & -> & Hr & Ha)]; rewrite Hm; cbn [mbind result_bind].
  - rewrite reference_list_strs, if_err, required_list, check_ok by done. done.
  - rewrite if_err, required_text. done.
Qed.

Lemma validate_geo_ok field v v' : type field = GEO_POINT -> _validate_geo_point field v = Ok v' -> conforms field v'.
Proof.
  unfold _validate_geo_point, blank, bad_point, fail, conforms. intros ->.
  destruct v as [[| | | | | |d]|]; try done.
  - rewrite if_err. intros [Hr [= <-]]. exists f_zero, f_zero. split_and!; [done|by vm_compute..|]. by rewrite Hr.
  - destruct (lon ← _; _) as [[lon lat]|[]]; try done. rewrite !if_err, !negb_false_iff.
    intros (H1 & H2 & H3 & [= <-]). exists lon, lat. split_and!; try done. intros Hr. rewrite Hr in H3. cbn in H3.
    by apply andb_false_iff.
Qed.
Lemma validate_geo_fixed field v : type field = GEO_POINT -> conforms field v -> _validate_geo_point field v = Ok v.
Proof.
  unfold _validate_geo_point, blank, bad_point, fail, conforms. intros ->.
  intros (lon & lat & -> & H1 & H2 & H3). cbn. rewrite H1, H2. cbn.
  destruct (required field); [|done]. by destruct (H3 eq_refl) as [->| ->]; [|rewrite andb_false_r].
Qed.
(** The texts of a reference list are not empty, given that no other value
    prints as the empty text. *)
Context (float_repr_text : forall f, float_repr f <> "").
Lemma cat_nonempty x l : x ∈ l -> x <> "" -> FilterParser.cat l <> "".
Proof.
  induction l as [|y l IH]; [by intros ?%elem_of_nil|]. intros [->|Hin]%elem_of_cons Hx; cbn.
  - by destruct y.
  - destruct y; [by apply IH|done].
Qed.
Lemma datetime_text d : datetime_str d <> "".
Proof.
  unfold datetime_str. cbn [RequestMacros.cell_str]. apply (cat_nonempty (RequestMacros.wall_text (wall d))); [by left|].
  unfold RequestMacros.wall_text. destruct (FilterParser.civil_of_days _) as [[y m] day].
  apply (cat_nonempty "-"); [by right; left|done].
Qed.
Lemma py_str_truthy v : truthy v = true -> py_str v <> "".
Proof.
  destruct v as [|[]|z|f|s|l|d]; cbn; try done.
  - intros _. destruct (str_of_Z_numeral z) as (ds & _ & Hne & [->| ->] & _); [exact Hne|done].
  - intros H%negb_true_iff%String.eqb_neq. exact H.
Qed.
Lemma reference_list_nonempty v : Forall (fun x => x <> "") (reference_list v).
Proof.
  destruct v as [p|d].
  2:{ change (reference_list _) with [datetime_str d]. constructor; [apply datetime_text|constructor]. }
  cbn.
  assert (H : truthy p = true -> Forall (fun x => x <> "") [py_str p]) by (intros; repeat constructor; by apply py_str_truthy).
  destruct p as [| | | | |l|]; cbn in *; try (by constructor);
    try (match goal with |- Forall _ (if ?b then _ else _) => destruct b eqn:E; [by apply H|constructor] end).
  clear H. apply Forall_fmap, Forall_forall. intros x [Hx _]%list_elem_of_filter. by apply py_str_truthy.
Qed.
Lemma validate_file_ok field v v' : type field = FILE -> _validate_file field v = Ok v' -> conforms field v'.
Proof.
  unfold _validate_file, blank, fail, conforms, one_or_many. intros ->. intros H. bind_ok H as multi Hm.
  rewrite Hm. rewrite if_err, forallb_valid in H. destruct H as [Hv H].
  pose proof (reference_list_nonempty v) as Hne. destruct multi; [left|right].
  - rewrite if_err, required_list, check_ok in H. destruct H as (Hr & Hs & [= <-]).
    split; [done|]. exists (reference_list v). split_and!; try done. by apply Forall_and.
  - rewrite if_err, required_text in H. destruct H as [Hr [= <-]]. split; [done|].
    exists (List.last (reference_list v) ""). split_and!; [done..|].
    intros H. by eapply (proj1 (Forall_forall _ _) Hv), last_in.
Qed.
Lemma validate_relation_ok field v v' : type field = RELATION -> _validate_relation field v = Ok v' -> conforms field v'.
Proof.
  unfold _validate_relation, blank, fail, conforms, one_or_many. intros ->. intros H. bind_ok H as multi Hm.
  rewrite Hm. pose proof (reference_list_nonempty v) as Hne. destruct multi; [left|right].
  - rewrite if_err, required_list, check_ok in H. destruct H as (Hr & Hs & [= <-]).
    split; [done|]. by exists (reference_list v).
  - rewrite if_err, required_text in H. destruct H as [Hr [= <-]]. split; [done|]. by exists (text_of v).
Qed.

Lemma trimmed_trimmed v : py_strip (trimmed_of v) = trimmed_of v.
Proof. unfold trimmed_of. destruct (is_none v); [done|]. apply strip_idem. Qed.

(** ** The validated value conforms, and a conforming value is kept *)
Lemma validate_conforms field v v' : validate_field_value field v = Ok v' -> conforms field v'.
Proof.
  unfold validate_field_value. destruct (type field) eqn:Ht; cbn [_VALIDATORS]; intros H.
  - apply validate_text_ok in H as [-> H]. unfold conforms. rewrite Ht. eauto.
  - apply validate_editor_ok in H as (-> & H1 & H2). unfold conforms. rewrite Ht. eauto.
  - apply validate_number_ok in H as (f & _ & Hb & H). unfold conforms. rewrite Ht. destruct (truthy _).
    + destruct H as (z & g & Hz & Hg & Heq & ->). exists z, g. split_and!; try done.
      * rewrite <- Hz. by apply int_of_float_eq; [apply Hb|].
      * by eapply bounds_ok_eq.
    + by exists f.
  - apply validate_bool_ok in H as (b & _ & -> & Hb). unfold conforms. rewrite Ht. eauto.
  - apply validate_email_ok in H as (-> & H1 & H2). unfold conforms. rewrite Ht.
    eexists. split_and!; try done. apply trimmed_trimmed.
  - apply validate_url_ok in H as (-> & H1 & H2). unfold conforms. rewrite Ht.
    eexists. split_and!; try done. apply trimmed_trimmed.
  - unfold conforms. rewrite Ht. unfold _validate_date, blank, fail in H.
    destruct v as [p|d]; [|apply date_bounds_ok in H as [-> H]; eauto].
    destruct (String.eqb _ ""); [rewrite if_err in H; destruct H as [Hr [= <-]]; by left|].
    case_match; [|done]. apply date_bounds_ok in H as [-> H]. eauto.
  - unfold conforms. rewrite Ht. unfold _validate_autodate in H. destruct v as [[]|]; injection H as <-; eauto.
  - apply validate_select_ok in H. destruct field. cbn in Ht. subst. exact H.
  - by eapply validate_file_ok.
  - by eapply validate_relation_ok.
  - unfold conforms. rewrite Ht. unfold _validate_json, blank, fail in H. rewrite if_err in H. destruct H as [_ H].
    destruct (is_none v); [by injection H as <-|]. intros _ Hs. rewrite Hs in H.
    destruct (json_value v) as [p|d]; [|done]. cbn [mbind result_bind] in H. bind_ok H as n Hn. rewrite if_err in H.
    destruct H as [Hle%Z.ltb_ge [= <-]]. eauto.
  - apply validate_password_ok in H as [-> H]. unfold conforms. rewrite Ht. eauto.
  - by eapply validate_geo_ok.
Qed.

Lemma conforms_fixed field v : type field <> JSON -> conforms field v -> validate_field_value field v = Ok v.
Proof.
  unfold validate_field_value. intros Hj H. pose proof H as H0. unfold conforms in H.
  destruct (type field) eqn:Ht; cbn [_VALIDATORS]; try done.
  - destruct H as (s & -> & H). by apply validate_text_ok.
  - destruct H as (s & -> & H). by apply validate_editor_ok.
  - apply validate_number_ok. destruct (truthy _).
    + destruct H as (z & f & -> & Hf & Hz & Hb). exists f. cbn. unfold py_float. rewrite Hf. split_and!; [done..|].
      exists z, f. split_and!; [done..| |done]. apply SFeqb_refl, Hb.
    + destruct H as (f & -> & Hb). by exists f.
  - destruct H as (b & -> & Hb). apply validate_bool_ok. by exists b.
  - destruct H as (s & -> & Ht' & H1 & H2). apply validate_email_ok. change (trimmed_of _) with (py_strip s).
    rewrite Ht'. by split_and!.
  - destruct H as (s & -> & Ht' & H1 & H2). apply validate_url_ok. change (trimmed_of _) with (py_strip s).
    rewrite Ht'. by split_and!.
  - destruct H as [[-> Hr]|(d & -> & Hd)]; unfold _validate_date; [cbn; by rewrite Hr|by apply date_bounds_ok].
  - by destruct H as [[|c s] ->].
  - by apply validate_select_fixed.
  - by apply validate_file_fixed.
  - by apply validate_relation_fixed.
  - destruct H as (s & -> & H). by apply validate_password_ok.
  - by apply validate_geo_fixed.
Qed.
End Conforms.

(** * Which exceptions validation can raise *)
Section Errors.
Context {lib : FieldLib}.

(** A schema whose options have the kind of value their checks expect. *)
Definition is_number (v : pyval) : Prop := match v with PBool _ | PInt _ | PFloat _ => True | _ => False end.
Definition int_option (v : pyval) : Prop := not_none v = true -> exists n, int_or_raise v = Ok n.
Definition pattern_option (v : pyval) : Prop :=
  truthy v = true -> exists p, v = PStr p /\ forall s, re_search p s <> None.
Definition domains_option (v : pyval) : Prop := truthy v = true -> exists l, lowered v = Ok l.
Definition well_formed_options (field : FieldDefinition) : Prop :=
  match type field with
  | TEXT => int_option (opt field "min") /\ int_option (opt field "max") /\ pattern_option (opt field "pattern")
  | PASSWORD => int_option (opt_or field "min" (PInt 8)) /\ int_option (opt_or field "max" (PInt 71)) /\
      pattern_option (opt field "pattern")
  | EDITOR | JSON => size_set (opt field "maxSize") = true -> exists n, int_or_raise (opt field "maxSize") = Ok n
  | NUMBER => (not_none (opt field "min") = true -> exists m, float_or_raise (opt field "min") = Ok m) /\
      (not_none (opt field "max") = true -> exists m, float_or_raise (opt field "max") = Ok m)
  | EMAIL | URL => domains_option (py_or (opt_or field "onlyDomains" (PList [])) (PList [])) /\
      domains_option (py_or (opt_or field "exceptDomains" (PList [])) (PList []))
  | DATE => (truthy (opt field "min") = true -> exists m, iso_bound (opt field "min") = Ok m) /\
      (truthy (opt field "max") = true -> exists m, iso_bound (opt field "max") = Ok m)
  | SELECT => is_number (max_select field) /\
      forall s, is_ok (str_in s (py_or (opt_or field "values" (PList [])) (PList []))) = true
  | FILE | RELATION => is_number (max_select field)
  | BOOL | AUTODATE | GEO_POINT => True
  end.

Definition is_aware (d : datetime) : bool := match utcoffset d with Some _ => true | None => false end.
(** The exceptions that leave the validator of a well-formed field: an int no
    float can hold (or, for an [onlyInt] field, a float that is not one of
    binary64), a naive date compared with an aware bound or the other way
    round, a [datetime] in a sized JSON field. *)
Definition escapes (field : FieldDefinition) (v : value) (e : field_exn) : Prop :=
  match type field with
  | NUMBER => e = PyException "OverflowError" /\
      ((exists z, v = Plain (PInt z) /\ float_of_Z z = None) \/
       exists f z, number_of field v = Ok f /\ int_of_float f = Some z /\ float_of_Z z = None)
  | GEO_POINT => e = PyException "OverflowError" /\
      exists d k z, v = Plain (PDict d) /\ k ∈ ["lon"; "lat"] /\ dict_get k d = Some (PInt z) /\ float_of_Z z = None
  | DATE => e = PyException "TypeError" /\
      exists d b k, (v = Datetime d \/ exists p, v = Plain p /\
         datetime_fromisoformat (replace_char "Z" "+00:00" (py_strip (py_str p))) = Some d) /\
        k ∈ ["min"; "max"] /\ iso_bound (opt field k) = Ok b /\ is_aware d <> is_aware b
  | JSON => e = PyException "TypeError" /\ exists d, v = Datetime d
  | _ => False
  end.
Definition reported (field : FieldDefinition) (e : field_exn) : Prop :=
  exists c m, e = FieldValidationError (name field) c m.

(** Sequencing for exceptions. *)
Lemma check_err {A} field (m : result field_exn bool) c s (k : result field_exn A) e (P : Prop) :
  (b ← m; if b : bool then Err (FieldValidationError (name field) c s) else k) = Err e ->
  (m = Err e -> P) -> (m = Ok false -> k = Err e -> P) -> (reported field e -> P) -> P.
Proof. destruct m as [[]|]; cbn; intros H H1 H2 H3; simplify_eq; [apply H3; by do 2 eexists|by apply H2|by apply H1]. Qed.
Lemma if_err_err {A} field (b : bool) c s (k : result field_exn A) e (P : Prop) :
  (if b then Err (FieldValidationError (name field) c s) else k) = Err e ->
  (b = false -> k = Err e -> P) -> (reported field e -> P) -> P.
Proof. destruct b; intros H H1 H2; simplify_eq; [apply H2; by do 2 eexists|by apply H1]. Qed.
Lemma guard_err {A} (b : bool) (r : result field_exn A) (test : A -> bool) e :
  (if b then n ← r; Ok (test n) else Ok false) = Err e -> b = true /\ r = Err e.
Proof. destruct b, r; cbn; naive_solver. Qed.

Lemma text_constraints_err field mn mx pattern val e :
  int_option mn -> int_option mx -> pattern_option pattern -> text_constraints field mn mx pattern val = Err e ->
  reported field e.
Proof.
  intros Hmn Hmx Hp H. unfold text_constraints, fail in H.
  eapply check_err; [exact H|..]; clear H; [|intros _ H|done].
  { intros [Hb He]%guard_err. destruct (Hmn Hb) as [n Hn]. congruence. }
  eapply check_err; [exact H|..]; clear H; [|intros _ H|done].
  { intros [Hb He]%guard_err. destruct (Hmx Hb) as [n Hn]. congruence. }
  destruct (truthy pattern) eqn:Ht; [|done]. destruct (Hp Ht) as (p & -> & Hr). cbn in H.
  specialize (Hr val). destruct (re_search p val) as [[]|]; cbn in H; [done| |done]. injection H as <-. by do 2 eexists.
Qed.
Lemma domain_constraints_err field domain c m1 m2 val e :
  domains_option (py_or (opt_or field "onlyDomains" (PList [])) (PList [])) ->
  domains_option (py_or (opt_or field "exceptDomains" (PList [])) (PList [])) ->
  domain_constraints field domain c m1 m2 val = Err e -> reported field e.
Proof.
  unfold domain_constraints, fail. set (only := py_or _ _). set (exc := py_or (opt_or field "exceptDomains" _) _).
  intros Ho He H. destruct (truthy only) eqn:Ht.
  - destruct (Ho Ht) as [l Hl]. rewrite Hl in H. unfold lowered in Hl. bind_ok Hl as it Hit. rewrite Hit in H.
    cbn [mbind result_bind] in H. destruct (negb _); [injection H as <-; by do 2 eexists|].
    eapply check_err; [exact H|..]; [|done|done]. intros [Hb E]%guard_err. destruct (He Hb) as [l' Hl']. congruence.
  - cbn [mbind result_bind] in H. eapply check_err; [exact H|..]; [|done|done].
    intros [Hb E]%guard_err. destruct (He Hb) as [l' Hl']. congruence.
Qed.
Lemma is_number_lt n v : is_number v -> exists b, int_lt n v = Ok b.
Proof. destruct v; try done; intros _; by eexists. Qed.
Lemma is_number_gt n v : is_number v -> exists b, int_gt n v = Ok b.
Proof. destruct v; try done; intros _; by eexists. Qed.
Lemma datetime_lt_err a b e : datetime_lt a b = Err e -> e = PyException "TypeError" /\ is_aware a <> is_aware b.
Proof. unfold datetime_lt, is_aware. destruct (utcoffset a), (utcoffset b); naive_solver. Qed.
Lemma check_allowed_err field allowed l e : (forall s, is_ok (str_in s allowed) = true) ->
  check_allowed field allowed l = Err e -> reported field e.
Proof.
  intros Ha. induction l as [|x l IH]; cbn; [done|]. specialize (Ha x).
  destruct (truthy allowed); [|done]. destruct (str_in x allowed) as [[]|]; cbn; [done| |done].
  intros [= <-]. by do 2 eexists.
Qed.

Lemma fail_reported {A} field c m e : @Err field_exn A (FieldValidationError (name field) c m) = Err e -> reported field e.
Proof. intros [= <-]. by do 2 eexists. Qed.
Lemma date_bounds_err field d e : type field = DATE -> well_formed_options field -> date_bounds field d = Err e ->
  reported field e \/ e = PyException "TypeError" /\
    exists b k, k ∈ ["min"; "max"] /\ iso_bound (opt field k) = Ok b /\ is_aware d <> is_aware b.
Proof.
  intros Ht Hwf H. unfold well_formed_options in Hwf. rewrite Ht in Hwf. destruct Hwf as [Hmin Hmax].
  unfold date_bounds, fail in H. eapply check_err; [exact H|..]; clear H; [|intros _ H|by left].
  - destruct (truthy (opt field "min")); [|done]. destruct (Hmin eq_refl) as [b Hb]. rewrite Hb. cbn.
    intros [-> Ha]%datetime_lt_err. right. split; [done|]. exists b, "min". split_and!; [set_solver|done|done].
  - eapply check_err; [exact H|..]; clear H; [|done|by left].
    destruct (truthy (opt field "max")); [|done]. destruct (Hmax eq_refl) as [b Hb]. rewrite Hb. cbn.
    intros [-> Ha]%datetime_lt_err. right. split; [done|]. exists b, "max". split_and!; [set_solver|done|congruence].
Qed.
Lemma number_of_err field v e : number_of field v = Err e ->
  reported field e \/ e = PyException "OverflowError" /\ exists z, v = Plain (PInt z) /\ float_of_Z z = None.
Proof.
  unfold number_of. case_match; [done|]. destruct (py_float v) as [f|[]] eqn:Hf; [done|..].
  - intros H'. left. by eapply fail_reported.
  - intros [= <-]. right. split; [done|]. unfold py_float in Hf. repeat case_match; simplify_eq. by eexists.
Qed.
Lemma float_or_raise_int z : float_or_raise (PInt z) =
  match float_of_Z z with Some f => Ok f | None => Err (PyException "OverflowError") end.
Proof. unfold float_or_raise, py_float. by destruct (float_of_Z z). Qed.
Lemma validate_number_err field v e : type field = NUMBER -> well_formed_options field ->
  _validate_number field v = Err e -> reported field e \/ escapes field v e.
Proof.
  intros Ht Hwf H. unfold escapes. unfold well_formed_options in Hwf. rewrite Ht in *. destruct Hwf as [Hmin Hmax].
  unfold _validate_number, blank, fail in H. destruct (number_of field v) as [f|e0] eqn:Hf; cbn [mbind result_bind] in H.
  2:{ injection H as ->. destruct (number_of_err _ _ _ Hf) as [?|[-> ?]]; [by left|right; split; [done|by left]]. }
  eapply if_err_err; [exact H|..]; clear H; [intros Hfin%negb_false_iff H|by left].
  eapply if_err_err; [exact H|..]; clear H; [intros _ H|by left].
  assert (Hint : exists z, int_of_float f = Some z) by (destruct f; try done; by eexists).
  destruct Hint as [z Hz]. set (only := truthy _) in H.
  assert (Hrest : forall k, (below ← (if not_none (opt field "min") then m ← float_or_raise (opt field "min"); Ok (SFltb f m) else Ok false);
     if below : bool then Err (FieldValidationError (name field) "validation_min_number_constraint"
       ("Must be >= " +:+ py_str (opt field "min") +:+ ".")) else
     above ← (if not_none (opt field "max") then m ← float_or_raise (opt field "max"); Ok (SFltb m f) else Ok false);
     if above : bool then Err (FieldValidationError (name field) "validation_max_number_constraint"
       ("Must be <= " +:+ py_str (opt field "max") +:+ ".")) else k) = @Err field_exn value e -> is_ok k = true -> reported field e).
  { intros k H' Hk. eapply check_err; [exact H'|..]; clear H'; [|intros _ H'|done].
    { intros [Hb He]%guard_err. destruct (Hmin Hb) as [m Hm]. congruence. }
    eapply check_err; [exact H'|..]; [|by intros _ ->|done].
    intros [Hb He]%guard_err. destruct (Hmax Hb) as [m Hm]. congruence. }
  destruct only.
  - unfold int_or_raise in H. cbn [py_int] in H. rewrite Hz in H. cbn [mbind result_bind] in H.
    rewrite float_or_raise_int in H. destruct (float_of_Z z) as [g|] eqn:Hg.
    + cbn [mbind result_bind] in H. left. destruct (SFeqb f g); cbn [negb] in H; [by eapply Hrest|by eapply fail_reported].
    + cbn [mbind result_bind] in H. injection H as <-. right. split; [done|]. right. by exists f, z.
  - left. cbn [mbind result_bind negb] in H. by eapply Hrest.
Qed.
Lemma validate_geo_err field v e : type field = GEO_POINT ->
  _validate_geo_point field v = Err e -> reported field e \/ escapes field v e.
Proof.
  intros Ht H. unfold escapes. rewrite Ht. unfold _validate_geo_point, blank, bad_point, fail in H.
  destruct v as [[| | | | | |d]|]; try (left; by eapply fail_reported).
  { left. eapply if_err_err; [exact H|done..]. }
  assert (Hc : forall k, coordinate d k = Err OverflowError -> exists z, dict_get k d = Some (PInt z) /\ float_of_Z z = None).
  { clear H. intros k. unfold coordinate, py_float. destruct (dict_get k d) as [p|]; [|done].
    destruct p; cbn; repeat case_match; try done. intros _. by eexists. }
  destruct (coordinate d "lon") as [lon|[]] eqn:H1; cbn [mbind result_bind] in H; [|left; by eapply fail_reported|].
  2:{ injection H as <-. right. destruct (Hc _ H1) as (z & ? & ?). split; [done|]. exists d, "lon", z. split_and!; [done|set_solver|done|done]. }
  destruct (coordinate d "lat") as [lat|[]] eqn:H2; cbn [mbind result_bind] in H; [|left; by eapply fail_reported|].
  2:{ injection H as <-. right. destruct (Hc _ H2) as (z & ? & ?). split; [done|]. exists d, "lat", z. split_and!; [done|set_solver|done|done]. }
  left. do 3 (eapply if_err_err; [exact H|..]; clear H; [intros _ H|done]). done.
Qed.

Lemma validate_select_err field v e : well_formed_options field -> type field = SELECT ->
  _validate_select field v = Err e -> reported field e.
Proof.
  unfold well_formed_options. intros Hwf Ht. rewrite Ht in Hwf. destruct Hwf as [Hn Ha].
  unfold _validate_select, blank, fail. destruct (is_number_lt 1 _ Hn) as [b ->]. cbn [mbind result_bind]. intros H.
  destruct b.
  - eapply if_err_err; [exact H|..]; clear H; [intros _ H|done].
    destruct (is_number_gt (zlen (unique_from [] match v with Plain PNone => [] | Plain (PList l) => py_str <$> l | _ => [field_str v] end)) _ Hn) as [b Hb].
    rewrite Hb in H. cbn [mbind result_bind] in H. eapply if_err_err; [exact H|..]; clear H; [intros _ H|done].
    destruct (check_allowed _ _ _) as [[]|e'] eqn:Hc; [done|]. injection H as <-. by eapply check_allowed_err.
  - eapply if_err_err; [exact H|..]; clear H; [intros _ H|done]. case_match; [done|].
    destruct (check_allowed _ _ _) as [[]|e'] eqn:Hc; [done|]. injection H as <-. by eapply check_allowed_err.
Qed.
Lemma validate_file_err field v e : well_formed_options field -> type field = FILE ->
  _validate_file field v = Err e -> reported field e.
Proof.
  unfold well_formed_options. intros Hn Ht. rewrite Ht in Hn. unfold _validate_file, blank, fail.
  destruct (is_number_lt 1 _ Hn) as [b ->]. cbn [mbind result_bind]. intros H.
  eapply if_err_err; [exact H|..]; clear H; [intros _ H|done]. destruct b.
  - eapply if_err_err; [exact H|..]; clear H; [intros _ H|done].
    destruct (is_number_gt (zlen (reference_list v)) _ Hn) as [b Hb].
    rewrite Hb in H. cbn [mbind result_bind] in H. by eapply if_err_err; [exact H|..].
  - by eapply if_err_err; [exact H|..].
Qed.
Lemma validate_relation_err field v e : well_formed_options field -> type field = RELATION ->
  _validate_relation field v = Err e -> reported field e.
Proof.
  unfold well_formed_options. intros Hn Ht. rewrite Ht in Hn. unfold _validate_relation, blank, fail.
  destruct (is_number_lt 1 _ Hn) as [b ->]. cbn [mbind result_bind]. intros H. destruct b.
  - eapply if_err_err; [exact H|..]; clear H; [intros _ H|done].
    destruct (is_number_gt (zlen (reference_list v)) _ Hn) as [b Hb].
    rewrite Hb in H. cbn [mbind result_bind] in H. by eapply if_err_err; [exact H|..].
  - by eapply if_err_err; [exact H|..].
Qed.
End Errors.

(** * The guarantees *)

(** A library that knows a few texts. *)
Definition demo_lib : FieldLib := {|
  field_float_text _ := "0.0";
  re_search p s := Some (contains p s);
  json_loads _ := None;
  float_of_text s := if String.eqb s "3" then Some (f_of_Z 3) else None;
  field_iso s :=
    if String.eqb s "2024-01-01" then Some (mkDatetime 0 None)
    else if String.eqb s "2024-01-01+00:00" then Some (mkDatetime 0 (Some 0%Z)) else None;
  url_hostname _ := "";
  field_urlsplit _ := None;
|}.
Definition demo_field (t : FieldType) (options : list (string * pyval)) : FieldDefinition :=
  mkField "f" "f" t true false false false options.

(** C38: Validation types a value: whatever was sent, the value it returns for
    a field satisfies that field's constraints (type, required, length,
    pattern, range, domain, allowed values, number of values without
    repetitions, safe file names).  For every type but JSON those values are
    exactly the ones validation returns unchanged, so a stored value can be
    saved again. *)
Theorem validated_typed (lib : FieldLib) field v v'
  (float_repr_text : forall f, float_repr f <> "")
  (Hv : validate_field_value field v = Ok v') :
  conforms field v' /\
  (type field <> JSON -> forall w, conforms field w <-> validate_field_value field w = Ok w).
Proof.
  split; [by eapply validate_conforms|]. intros Hj w. split; [by apply conforms_fixed|].
  intros Hw. by eapply validate_conforms.
Qed.
Lemma validated_typed_witness :
  @conforms demo_lib (demo_field NUMBER [("onlyInt", PBool true); ("max", PInt 5)]) (Plain (PInt 3)) /\
  (NUMBER <> JSON -> forall w, @conforms demo_lib (demo_field NUMBER [("onlyInt", PBool true); ("max", PInt 5)]) w <->
     @validate_field_value demo_lib (demo_field NUMBER [("onlyInt", PBool true); ("max", PInt 5)]) w = Ok w).
Proof.
  apply (validated_typed demo_lib (demo_field NUMBER [("onlyInt", PBool true); ("max", PInt 5)]) (Plain (PStr "3")));
    [done|vm_compute; reflexivity].
Defined.

(** C39: Validation of a field whose options are well formed raises
    [FieldValidationError] under the field's own name, and nothing else but:
    [OverflowError] for a number or a coordinate that is an int no float
    holds, and [TypeError] for a date without an offset compared with a bound
    that has one, the other way round, or for a [datetime] in a JSON field
    with a size limit. *)
Theorem field_error_contract (lib : FieldLib) field v e
  (Hoptions : well_formed_options field) (He : validate_field_value field v = Err e) :
  reported field e \/ escapes field v e.
Proof.
  unfold validate_field_value in He. pose proof Hoptions as Hwf. unfold well_formed_options in Hwf.
  destruct (type field) eqn:Ht; cbn [_VALIDATORS] in He.
  - left. unfold _validate_text, blank, fail in He. eapply if_err_err; [exact He|..]; clear He; [intros _ He|done].
    case_match; [done|]. destruct Hwf as (H1 & H2 & H3).
    exact (text_constraints_err _ _ _ _ _ _ H1 H2 H3 He).
  - left. unfold _validate_editor, blank, fail in He. eapply if_err_err; [exact He|..]; clear He; [intros _ He|done].
    case_match; [done|]. eapply check_err; [exact He|..]; [|done|done].
    intros [Hb E]%guard_err. destruct (Hwf Hb). congruence.
  - by apply validate_number_err.
  - left. unfold _validate_bool, fail in He. by eapply if_err_err; [exact He|..].
  - left. unfold _validate_email, blank, fail in He. eapply if_err_err; [exact He|..]; clear He; [intros _ He|done].
    case_match; [done|]. eapply if_err_err; [exact He|..]; clear He; [intros _ He|done].
    destruct Hwf as (H1 & H2).
    exact (domain_constraints_err _ _ _ _ _ _ _ H1 H2 He).
  - left. unfold _validate_url, blank, fail in He. eapply if_err_err; [exact He|..]; clear He; [intros _ He|done].
    case_match; [done|]. eapply if_err_err; [exact He|..]; clear He; [intros _ He|done].
    destruct Hwf as (H1 & H2).
    exact (domain_constraints_err _ _ _ _ _ _ _ H1 H2 He).
  - unfold escapes. rewrite Ht. unfold _validate_date, blank, fail in He. destruct v as [p|d].
    + destruct (not_none p) eqn:Hn.
      2:{ cbn in He. left. by eapply if_err_err; [exact He|..]. }
      destruct (String.eqb _ ""); [left; by eapply if_err_err; [exact He|..]|].
      destruct (datetime_fromisoformat _) as [d|] eqn:Hd; [|left; by eapply fail_reported].
      apply date_bounds_err in He as [?|(-> & b & k & ?)]; [by left| |done..]. right. split; [done|].
      exists d, b, k. split; [right; by exists p|done].
    + apply date_bounds_err in He as [?|(-> & b & k & ?)]; [by left| |done..]. right. split; [done|].
      exists d, b, k. split; [by left|done].
  - unfold _validate_autodate in He. by destruct v as [[]|].
  - left. by apply validate_select_err in He.
  - left. by apply validate_file_err in He.
  - left. by apply validate_relation_err in He.
  - unfold escapes. rewrite Ht. unfold _validate_json, blank, fail in He.
    eapply if_err_err; [exact He|..]; clear He; [intros _ He|by left]. destruct (is_none v); [done|].
    destruct (size_set _) eqn:Hs; [|done]. destruct (Hwf eq_refl) as [n Hn]. destruct (json_value v) as [p|d] eqn:Hj.
    + left. cbn [mbind result_bind] in He. rewrite Hn in He. cbn [mbind result_bind] in He.
      by eapply if_err_err; [exact He|..].
    + right. injection He as <-. split; [done|]. exists d. unfold json_value in Hj. repeat case_match; by simplify_eq.
  - left. unfold _validate_password, blank, fail in He. eapply if_err_err; [exact He|..]; clear He; [intros _ He|done].
    case_match; [done|]. destruct Hwf as (H1 & H2 & H3).
    exact (text_constraints_err _ _ _ _ _ _ H1 H2 H3 He).
  - by apply validate_geo_err.
Qed.
Lemma field_error_contract_witness :
  (let big := Plain (PInt (10 ^ 400)) in
   @reported (demo_field NUMBER []) (PyException "OverflowError") \/
   @escapes demo_lib (demo_field NUMBER []) big (PyException "OverflowError")) /\
  (let field := demo_field DATE [("min", PStr "2024-01-01Z")] in
   @reported field (PyException "TypeError") \/
   @escapes demo_lib field (Plain (PStr "2024-01-01")) (PyException "TypeError")).
Proof.
  split.
  - apply (field_error_contract demo_lib (demo_field NUMBER []) (Plain (PInt (10 ^ 400))));
      [split; intros H; discriminate H|vm_compute; reflexivity].
  - apply (field_error_contract demo_lib (demo_field DATE [("min", PStr "2024-01-01Z")]) (Plain (PStr "2024-01-01")));
      [split; [intros _; eexists; reflexivity|intros H; discriminate H]|vm_compute; reflexivity].
Defined.
