(* ===== verification/RecordResponse.v ===== *)
(** * Records on their way out (ppbase/models/record.py, and the reading half
      of ppbase/services/record_service.py)

    The response of a row: system columns, the e-mail of an auth record by
    its visibility, the schema's fields less the hidden ones, and the client's
    choice of fields.  A row is what the database answered.  Pydantic's
    [FieldDefinition] constructor and the iteration order of a set are
    parameters. *)
From Stdlib Require Import Ascii String SpecFloat.
From S2P Require Import Prelude PyText PyVal StorageSafety FieldTypes.
From S2P Require RequestMacros.
#[local] Open Scope string_scope.
#[local] Open Scope list_scope.

Abbreviation dict := (list (string * pyval)).
Abbreviation row := (list (string * value)).
Abbreviation Collection := RequestMacros.Collection.
Abbreviation c_id := RequestMacros.c_id.
Abbreviation c_name := RequestMacros.c_name.
Abbreviation schema := RequestMacros.schema.

Class RecordLib : Type := {
  record_field_lib :: FieldLib;
  build_field : dict -> result field_exn FieldDefinition;   (* FieldDefinition of a dictionary *)
  set_order : list string -> list string;
}.

(** ** Schemas *)
Definition _FIELD_CORE_KEYS : list string :=
  ["id"; "name"; "type"; "required"; "system"; "hidden"; "presentable"; "options"].
Definition is_core (k : string) : bool := existsb (String.eqb k) _FIELD_CORE_KEYS.
(** [{**a, **b}] *)
Definition dict_update (a b : dict) : dict := fold_left (fun d kv => dict_set kv.1 kv.2 d) b a.
Definition as_dict (v : pyval) : dict := match v with PDict d => d | _ => [] end.
Definition _normalize_field (f : dict) : dict :=
  let extra := filter (fun kv => is_core kv.1 = false) f in
  match extra with
  | [] => f
  | _ =>
      let core := filter (fun kv => is_core kv.1 = true) f in
      let existing := as_dict (default PNone (dict_get "options" core)) in
      dict_set "options" (PDict (dict_update extra existing)) (dict_del "options" core)
  end.
Definition text_is (s : string) (v : option pyval) : bool := match v with Some (PStr t) => String.eqb t s | _ => false end.

(** A decidable statement about closed keys. *)
Ltac decided := apply (bool_decide_unpack _); vm_compute; exact I.

Section Reading.
Context {lib : RecordLib}.

(** The avatar of a superuser is a whole number. *)
Definition schema_definition (c : Collection) (definition : dict) : dict :=
  let normalized := _normalize_field definition in
  if String.eqb (c_name c) "_superusers" && text_is "avatar" (dict_get "name" normalized)
     && text_is "number" (dict_get "type" normalized)
  then dict_set "options" (PDict (dict_set "onlyInt" (PBool true) (as_dict (default PNone (dict_get "options" normalized)))))
         normalized
  else normalized.
Definition _get_schema_fields (c : Collection) : result field_exn (list FieldDefinition) :=
  map_result (fun definition => build_field (schema_definition c definition)) (schema c).
Definition _get_hidden_fields (fields : list FieldDefinition) : list string :=
  name <$> filter (fun f => hidden f = true) fields.

Definition nonempty (s : string) : bool := negb (String.eqb s "").
Definition _fields_filter (fields_param : option string) : option (list string) :=
  match fields_param with
  | Some p => if nonempty p
              then Some (filter (fun f => nonempty f = true) (py_strip <$> split_on "," p)) else None
  | None => None
  end.
Definition _collection_type (c : Collection) : string :=
  py_lower (py_strip (if nonempty (RequestMacros.c_type c) then RequestMacros.c_type c else "base")).

(** ** Values *)
Definition format_datetime (v : value) : result field_exn string :=
  match v with
  | Plain PNone => Ok ""
  | Plain (PStr s) => Ok s
  | Datetime d => Ok (format_stamp d)
  | _ => Err (PyException "AttributeError")
  end.
(** A [datetime] as text, a whole float as an int; [int] of an infinity or NaN
    raises. *)
Definition present_value (v : value) : result field_exn value :=
  match v with
  | Datetime d => Ok (Plain (PStr (format_stamp d)))
  | Plain (PFloat f) =>
      match int_of_float f with
      | Some z => Ok (if is_whole f then Plain (PInt z) else v)
      | None => Err (PyException "OverflowError or ValueError")
      end
  | _ => Ok v
  end.
Definition column (r : row) (key : string) (d : value) : value := default d (dict_get key r).
Definition column_or_none (r : row) (key : string) : value := column r key (Plain PNone).
(** [str(v or "")] *)
Definition text_or_empty (v : value) : string := if value_truthy v then field_str v else "".
Definition claim (auth : dict) (key : string) : value := Plain (default (PStr "") (dict_get key auth)).

(** ** The response of a row *)
Definition _AUTH_HIDDEN_COLUMNS : list string := ["password_hash"; "token_key"].
Definition _AUTH_COLUMN_MAP : list (string * string) := [("email_visibility", "emailVisibility")].

Definition _is_superuser_auth (request_auth : option dict) : bool :=
  match request_auth with
  | Some a => text_is "admin" (dict_get "type" a) || text_is "_superusers" (dict_get "collectionName" a)
  | None => false
  end.

Definition _can_view_auth_email (r : row) (collection_id collection_name : string) (request_auth : option dict)
    (apply_email_visibility : bool) : bool :=
  if negb apply_email_visibility then true
  else if value_truthy (column r "email_visibility" (Plain (PBool false))) then true
  else match request_auth with
       | None | Some [] => false
       | Some auth =>
           if text_is "admin" (dict_get "type" auth) then true
           else if negb (text_is "authRecord" (dict_get "type" auth)) then false
           else if negb (String.eqb (text_or_empty (claim auth "id")) (text_or_empty (column r "id" (Plain (PStr ""))))) then false
           else String.eqb (text_or_empty (claim auth "collectionId")) collection_id
                || String.eqb (text_or_empty (claim auth "collectionName")) collection_name
       end.

Definition in_list (s : string) (l : list string) : bool := existsb (String.eqb s) l.
(** Whether a field of the schema is left out. *)
Definition skipped (field_def : dict) (fname : string) (fields_filter : option (list string)) (hidden_fields : list string)
    (request_auth : option dict) (apply_email_visibility : bool) : bool :=
  (in_list fname hidden_fields
   && match fields_filter with
      | None => true
      | Some ff => negb (in_list fname ff) || (apply_email_visibility && negb (_is_superuser_auth request_auth))
      end)
  || text_is "password" (dict_get "type" field_def).
Definition field_name (field_def : dict) : string :=
  match dict_get "name" field_def with Some (PStr s) => s | _ => "" end.

Fixpoint schema_columns (r : row) (fields_filter : option (list string)) (hidden_fields : list string)
    (request_auth : option dict) (apply_email_visibility : bool) (defs : list dict) (result : row)
  : Prelude.result field_exn row :=
  match defs with
  | [] => Ok result
  | field_def :: rest =>
      let fname := field_name field_def in
      if String.eqb fname "" || skipped field_def fname fields_filter hidden_fields request_auth apply_email_visibility
      then schema_columns r fields_filter hidden_fields request_auth apply_email_visibility rest result
      else
        val ← present_value (column_or_none r fname);
        schema_columns r fields_filter hidden_fields request_auth apply_email_visibility rest (dict_set fname val result)
  end.
(** A view without a schema: every column. *)
Fixpoint view_columns (columns : row) (result : row) : Prelude.result field_exn row :=
  match columns with
  | [] => Ok result
  | (key, v) :: rest =>
      if in_list key ["id"; "created"; "updated"] || in_list key _AUTH_HIDDEN_COLUMNS then view_columns rest result
      else
        val ← present_value v;
        view_columns rest (dict_set (default key (dict_get key _AUTH_COLUMN_MAP)) val result)
  end.

(** The auth columns that reached the result through a schema. *)
Definition strip_auth (result : row) : row :=
  let result := fold_left (fun d col => dict_del col d) _AUTH_HIDDEN_COLUMNS result in
  fold_left (fun d kv => if dict_mem kv.1 d && dict_mem kv.2 d then dict_del kv.1 d else d) _AUTH_COLUMN_MAP result.

Definition apply_fields_filter (fields_filter : option (list string)) (result : row) : row :=
  match fields_filter with
  | None | Some [] => result
  | Some ff =>
      if in_list "*" ff then result
      else omap (fun key => (fun v => (key, v)) <$> dict_get key result) (set_order (remove_dups ff))
  end.

Definition build_record_response (r : row) (collection_id collection_name : string) (schema : list dict)
    (fields_filter : option (list string)) (hidden_fields : list string) (is_auth_collection is_view_collection : bool)
    (request_auth : option dict) (apply_email_visibility : bool) : Prelude.result field_exn row :=
  created ← format_datetime (column_or_none r "created");
  updated ← format_datetime (column_or_none r "updated");
  let result := [("id", column r "id" (Plain (PStr ""))); ("collectionId", Plain (PStr collection_id));
                 ("collectionName", Plain (PStr collection_name)); ("created", Plain (PStr created));
                 ("updated", Plain (PStr updated))] in
  let result :=
    if is_auth_collection then
      let result :=
        if _can_view_auth_email r collection_id collection_name request_auth apply_email_visibility
        then dict_set "email" (column r "email" (Plain (PStr ""))) result else result in
      dict_set "verified" (column r "verified" (Plain (PBool false)))
        (dict_set "emailVisibility" (column r "email_visibility" (Plain (PBool false))) result)
    else result in
  result ← (match schema with
            | [] => if is_view_collection then view_columns r result else Ok result
            | _ => schema_columns r fields_filter hidden_fields request_auth apply_email_visibility schema result
            end);
  Ok (apply_fields_filter fields_filter (strip_auth result)).

Definition _SUPERUSERS_HIDDEN_COLUMNS : list string := ["password_hash"; "token_key"; "last_reset_sent_at"].
Definition visible_columns (c : Collection) (r : row) : row :=
  if String.eqb (c_name c) "_superusers"
  then filter (fun kv => in_list kv.1 _SUPERUSERS_HIDDEN_COLUMNS = false) r else r.

(** The response of one fetched row, for a request context that may be
    missing; the same steps in [get_record] and for each row of
    [list_records]. *)
Definition context_auth (request_context : option dict) : option dict :=
  match request_context with
  | Some ctx => match dict_get "auth" ctx with Some (PDict a) => Some a | _ => None end
  | None => None
  end.
Definition record_response (c : Collection) (fields : option string) (request_context : option dict) (r : row)
  : Prelude.result field_exn row :=
  schema_fields ← _get_schema_fields c;
  build_record_response (visible_columns c r) (c_id c) (c_name c) (schema c) (_fields_filter fields)
    (_get_hidden_fields schema_fields) (String.eqb (_collection_type c) "auth") (String.eqb (_collection_type c) "view")
    (context_auth request_context) (match request_context with Some _ => true | None => false end).

(** [get_record], from the row the query answered. *)
Definition get_record (c : Collection) (fetched : option row) (fields : option string) (request_context : option dict)
  : Prelude.result field_exn (option row) :=
  _ ← _get_schema_fields c;
  match fetched with
  | None => Ok None
  | Some r => result ← record_response c fields request_context r; Ok (Some result)
  end.

(** [max(1, math.ceil(total / per_page))] *)
Definition total_pages (total_items per_page : Z) : Z :=
  (if total_items <? 0 then -1 else if per_page <=? 0 then 0
   else Z.max 1 ((total_items + per_page - 1) / per_page))%Z.
Record list_response : Type := mkListResponse {
  lr_page : Z; lr_per_page : Z; lr_total_items : Z; lr_total_pages : Z; lr_items : list row;
}.
Definition build_list_response (items : list row) (page per_page total_items : Z) : list_response :=
  mkListResponse page per_page total_items (total_pages total_items per_page) items.

(** The clamped page size, page and offset of [list_records]. *)
Definition clamp_page (page per_page : Z) : Z * Z * Z :=
  let per_page := if (per_page <=? 0)%Z then 30%Z else per_page in
  let per_page := Z.min 500 per_page in
  let page := Z.max 1 page in
  (page, per_page, ((page - 1) * per_page)%Z).

(** ** What a response reveals *)

Lemma in_list_spec s l : in_list s l = true <-> s ∈ l.
Proof.
  unfold in_list. rewrite existsb_exists. setoid_rewrite <- list_elem_of_In. split.
  - by intros (x & Hx & ->%String.eqb_eq).
  - intros H. exists s. by rewrite String.eqb_refl.
Qed.
Lemma in_list_false s l : in_list s l = false <-> s ∉ l.
Proof. rewrite <- in_list_spec. by destruct (in_list s l). Qed.
Lemma dict_set_key_elem {A} k (v : A) d k' : k' ∈ (dict_set k v d).*1 <-> k' = k \/ k' ∈ d.*1.
Proof.
  rewrite dict_set_keys. destruct (dict_mem k d) eqn:E; [|set_solver].
  apply dict_mem_keys in E. split; [by right|]. by intros [->|].
Qed.
Lemma dict_del_key_elem {A} k (d : list (string * A)) k' : k' ∈ (dict_del k d).*1 -> k' ∈ d.*1.
Proof.
  intros (kv & -> & H)%list_elem_of_fmap. apply list_elem_of_fmap. exists kv. split; [done|]. by eapply dict_del_elem.
Qed.

(** The keys that the schema's loop adds. *)
Lemma schema_columns_keys r ff hid auth api defs res out k :
  schema_columns r ff hid auth api defs res = Ok out -> k ∈ out.*1 ->
  k ∈ res.*1 \/ exists def, def ∈ defs /\ field_name def = k /\ skipped def k ff hid auth api = false.
Proof.
  revert res. induction defs as [|def defs IH]; intros res; cbn; [intros [= <-]; by left|].
  destruct (_ || _) eqn:E.
  - intros H Hk. destruct (IH _ H Hk) as [?|(d & ? & ?)]; [by left|]. right. exists d. split; [by right|done].
  - apply orb_false_iff in E as [_ E]. intros H Hk. bind_ok H as val Hv.
    destruct (IH _ H Hk) as [Hin|(d & ? & ?)]; [|right; exists d; split; [by right|done]].
    apply dict_set_key_elem in Hin as [->|]; [|by left]. right. exists def. split_and!; [by left|done..].
Qed.
Lemma schema_columns_nodup r ff hid auth api defs res out :
  schema_columns r ff hid auth api defs res = Ok out -> NoDup res.*1 -> NoDup out.*1.
Proof.
  revert res. induction defs as [|def defs IH]; intros res; cbn; [by intros [= <-]|].
  destruct (_ || _); [apply IH|]. intros H Hr. bind_ok H as val Hv. eapply IH; [exact H|]. by apply dict_set_nodup.
Qed.
Lemma view_columns_nodup cols res out : view_columns cols res = Ok out -> NoDup res.*1 -> NoDup out.*1.
Proof.
  revert res. induction cols as [|[key v] cols IH]; intros res; cbn; [by intros [= <-]|].
  destruct (_ || _); [apply IH|]. intros H Hr. bind_ok H as val Hv. eapply IH; [exact H|]. by apply dict_set_nodup.
Qed.
Lemma strip_auth_keys res k : NoDup res.*1 -> k ∈ (strip_auth res).*1 -> k ∈ res.*1 /\ k ∉ _AUTH_HIDDEN_COLUMNS.
Proof.
  intros Hn. unfold strip_auth. cbn. set (d2 := dict_del "token_key" _). intros Hk.
  assert (Hk2 : k ∈ d2.*1) by (destruct (_ && _); [by eapply dict_del_key_elem|done]). clear Hk.
  assert (Hn1 : NoDup (dict_del "password_hash" res).*1) by by apply dict_del_nodup.
  split; [by eapply dict_del_key_elem, dict_del_key_elem|]. intros Hin.
  apply elem_of_cons in Hin as [->|Hin%list_elem_of_singleton]; [|subst k].
  - apply dict_del_key_elem in Hk2. revert Hk2. apply dict_get_none. by apply dict_get_del_eq.
  - revert Hk2. apply dict_get_none. by apply dict_get_del_eq.
Qed.
Lemma apply_fields_filter_keys ff res k : k ∈ (apply_fields_filter ff res).*1 -> k ∈ res.*1.
Proof.
  unfold apply_fields_filter. destruct ff as [[|f ff]|]; [done| |done]. destruct (in_list "*" _); [done|].
  intros (kv & -> & Hin)%list_elem_of_fmap. apply list_elem_of_omap in Hin as (x & _ & Hx).
  destruct (dict_get x res) as [v|] eqn:E; [|done]. injection Hx as <-. apply dict_get_elem in E.
  apply list_elem_of_fmap. by exists (x, v).
Qed.

Definition system_keys (c : Collection) : list string :=
  ["id"; "collectionId"; "collectionName"; "created"; "updated"] ++
  (if String.eqb (_collection_type c) "auth" then ["email"; "emailVisibility"; "verified"] else []).
(** A request of the account [a], and one of a superuser. *)
Definition requested_by (ctx a : dict) : Prop := dict_get "auth" ctx = Some (PDict a).
Definition superuser_request (ctx : dict) : Prop := exists a, requested_by ctx a /\
  (dict_get "type" a = Some (PStr "admin") \/ dict_get "collectionName" a = Some (PStr "_superusers")).
(** Who may see the e-mail of an auth record. *)
Definition email_visible (c : Collection) (r : row) (ctx : dict) : Prop :=
  value_truthy (column r "email_visibility" (Plain (PBool false))) = true \/
  exists a, requested_by ctx a /\
    (dict_get "type" a = Some (PStr "admin") \/
     dict_get "type" a = Some (PStr "authRecord") /\
     text_or_empty (claim a "id") = text_or_empty (column r "id" (Plain (PStr ""))) /\
     (text_or_empty (claim a "collectionId") = c_id c \/ text_or_empty (claim a "collectionName") = c_name c)).

Lemma text_is_some s v : text_is s v = true -> v = Some (PStr s).
Proof. destruct v as [[]|]; cbn; try done. by intros ->%String.eqb_eq. Qed.
Lemma context_auth_requested ctx a : context_auth (Some ctx) = Some a -> requested_by ctx a.
Proof. unfold context_auth, requested_by. repeat case_match; naive_solver. Qed.
Lemma superuser_requested ctx : _is_superuser_auth (context_auth (Some ctx)) = true -> superuser_request ctx.
Proof.
  destruct (context_auth (Some ctx)) as [a|] eqn:E; [|done]. apply context_auth_requested in E. cbn.
  intros [H|H]%orb_true_iff; apply text_is_some in H; exists a; tauto.
Qed.
Lemma can_view_visible c r ctx : _can_view_auth_email r (c_id c) (c_name c) (context_auth (Some ctx)) true = true -> email_visible c r ctx.
Proof.
  unfold _can_view_auth_email. cbn [negb]. destruct (value_truthy _) eqn:E; [by left|]. right.
  destruct (context_auth (Some ctx)) as [[|kv a]|] eqn:Ea; [done| |done]. apply context_auth_requested in Ea. exists (kv :: a). split; [done|].
  destruct (text_is "admin" _) eqn:E1; [left; by apply text_is_some|].
  destruct (text_is "authRecord" _) eqn:E2; [|done]. right. cbn [negb] in *.
  destruct (String.eqb (text_or_empty (claim _ "id")) _) eqn:E3; [|done]. cbn [negb] in *.
  split_and!; [by apply text_is_some|by apply String.eqb_eq|].
  apply orb_true_iff in H as [H|H]; [left|right]; by apply String.eqb_eq.
Qed.
Lemma dict_get_filter {A} (P : string * A -> Prop) `{!forall kv, Decision (P kv)} k d :
  (forall v, P (k, v)) -> dict_get k (filter P d) = dict_get k d.
Proof.
  intros HP. induction d as [|[k' v] d IH]; [done|]. rewrite filter_cons. case_decide as Hd; cbn [dict_get].
  - by rewrite IH.
  - destruct (String.eqb_spec k' k) as [->|]; [by destruct Hd|exact IH].
Qed.
Lemma column_visible c r k d : k ∉ _SUPERUSERS_HIDDEN_COLUMNS -> column (visible_columns c r) k d = column r k d.
Proof.
  intros Hk. unfold column, visible_columns. destruct (String.eqb _ _); [|done]. f_equal.
  apply dict_get_filter. intros v. by apply in_list_false.
Qed.

(** The keys of the dictionary before the schema is read. *)
Lemma response_keys c r ff hid auth api out :
  build_record_response r (c_id c) (c_name c) (schema c) ff hid (String.eqb (_collection_type c) "auth")
    (String.eqb (_collection_type c) "view") auth api = Ok out ->
  forall k, k ∈ out.*1 -> k ∉ _AUTH_HIDDEN_COLUMNS /\
    ((k ∈ system_keys c /\ (k = "email" -> _can_view_auth_email r (c_id c) (c_name c) auth api = true)) \/
     (exists def, def ∈ schema c /\ field_name def = k /\ skipped def k ff hid auth api = false) \/
     (schema c = [] /\ _collection_type c = "view")).
Proof.
  unfold build_record_response. intros H k Hk.
  bind_ok H as created Hc. bind_ok H as updated Hu. clear Hc Hu.
  set (base := [("id", _); _; _; _; _]) in H. set (view := _can_view_auth_email _ _ _ _ _) in *.
  set (start := if String.eqb (_collection_type c) "auth" then _ else base) in H.
  assert (Hkeys : forall x, x ∈ start.*1 -> x ∈ system_keys c /\ (x = "email" -> view = true)).
  { intros x. unfold start, system_keys. destruct (String.eqb _ "auth"); [|cbn; set_solver].
    rewrite !dict_set_key_elem. destruct view; [rewrite dict_set_key_elem|]; cbn; set_solver. }
  assert (Hnd : NoDup start.*1).
  { unfold start. destruct (String.eqb _ "auth"); [|decided]. do 2 apply dict_set_nodup.
    destruct view; [apply dict_set_nodup|]; decided. }
  clearbody start. bind_ok H as res Hres. injection H as <-. apply apply_fields_filter_keys in Hk.
  assert (Hres' : NoDup res.*1 /\ forall x, x ∈ res.*1 -> x ∈ start.*1 \/
     (exists def, def ∈ schema c /\ field_name def = x /\ skipped def x ff hid auth api = false) \/
     (schema c = [] /\ _collection_type c = "view")).
  { destruct (schema c) as [|def defs] eqn:Es.
    - destruct (String.eqb_spec (_collection_type c) "view") as [Ev|]; [|injection Hres as <-; by split; [|left]].
      split; [by eapply view_columns_nodup|]. right. right. done.
    - split; [by eapply schema_columns_nodup|]. intros x Hx.
      destruct (schema_columns_keys _ _ _ _ _ _ _ _ _ Hres Hx) as [?|?]; [by left|right; by left]. }
  destruct Hres' as [Hn Hin]. apply strip_auth_keys in Hk as [Hk Hsecret]; [|done]. split; [done|].
  destruct (Hin k Hk) as [Hs|[?|?]]; [left; by apply Hkeys|right; by left|right; by right].
Qed.
End Reading.

(** C30: What the response of a record reveals to a request through the API,
    whatever the row, the schema, the client's list of fields and the request:
    never [password_hash] nor [token_key]; no field marked hidden unless
    the request is a superuser's; no field whose definitions are all of type
    password; and the e-mail of an auth
    record only when the record shows it, to a superuser, or to the record
    itself. The last three are of names that the response does not use for
    its own entries ([id], [created] and the like, [system_keys]), of
    collections with a schema, and of schemas without a field named [email]. *)
Theorem response_confidential (lib : RecordLib) c fields ctx r out
  (Hout : record_response c fields (Some ctx) r = Ok out) :
  ("password_hash" ∉ out.*1 /\ "token_key" ∉ out.*1) /\
  (forall fs f, _get_schema_fields c = Ok fs -> f ∈ fs -> hidden f = true ->
     ~ superuser_request ctx -> name f ∉ system_keys c -> name f ∉ out.*1) /\
  (forall k, schema c <> [] -> k ∉ system_keys c ->
     (forall def, def ∈ schema c -> field_name def = k -> dict_get "type" def = Some (PStr "password")) -> k ∉ out.*1) /\
  (_collection_type c = "auth" -> (forall def, def ∈ schema c -> field_name def <> "email") -> "email" ∈ out.*1 ->
     email_visible c r ctx).
Proof.
  unfold record_response in Hout. bind_ok Hout as fs Hfs.
  pose proof (response_keys _ _ _ _ _ _ _ Hout) as Hkeys. split; [|split_and!].
  - split; intros Hin; destruct (Hkeys _ Hin) as [Hk _]; apply Hk; decided.
  - intros fs' f Hfs' Hf Hh Hsup Hsys Hin. rewrite Hfs in Hfs'.
    assert (_is_superuser_auth (context_auth (Some ctx)) = false) as Hsup' by (apply not_true_is_false; by intros ?%superuser_requested).
    clear Hsup. rename Hsup' into Hsup.
    injection Hfs' as <-.
    destruct (Hkeys _ Hin) as [_ [[? _]|[(def & _ & _ & Hs)|[He _]]]]; [done| |].
    + unfold skipped in Hs. rewrite Hsup in Hs. apply orb_false_iff in Hs as [Hs _].
      assert (in_list (name f) (_get_hidden_fields fs) = true) as E.
      { apply in_list_spec. unfold _get_hidden_fields. apply list_elem_of_fmap. exists f. split; [done|].
        by apply list_elem_of_filter. }
      rewrite E in Hs. cbn in Hs. destruct (_fields_filter fields); [|done]. by rewrite orb_true_r in Hs.
    + unfold _get_schema_fields in Hfs. rewrite He in Hfs. cbn in Hfs. injection Hfs as <-. by apply elem_of_nil in Hf.
  - intros k Hne Hsys Hpw Hin. destruct (Hkeys _ Hin) as [_ [[? _]|[(def & Hd & Hn & Hs)|[He _]]]]; [done| |done].
    unfold skipped in Hs. rewrite (Hpw _ Hd Hn) in Hs. cbn in Hs. by rewrite orb_true_r in Hs.
  - intros Hauth Hne Hin. destruct (Hkeys _ Hin) as [_ [[_ Hv]|[(def & Hd & Hn & _)|[_ Hv]]]].
    + specialize (Hv eq_refl). apply can_view_visible in Hv. unfold email_visible in *.
      by rewrite !column_visible in Hv by (decided).
    + by destruct (Hne _ Hd).
    + congruence.
Qed.

(** A library whose definitions are built from their names and types. *)
Definition demo_record_lib : RecordLib := {|
  record_field_lib := demo_lib;
  build_field d := match dict_get "name" d with
    | Some (PStr s) => Ok (mkField "" s TEXT false false (truthy (default PNone (dict_get "hidden" d))) false [])
    | _ => Err (PyException "ValidationError")
    end;
  set_order l := l;
|}.
Definition demo_users : Collection :=
  RequestMacros.mkCollection "users123" "users" "auth"
    [[("name", PStr "nickname"); ("type", PStr "text")]; [("name", PStr "score"); ("type", PStr "text"); ("hidden", PBool true)]]
    PNone.
Definition demo_row : row :=
  [("id", Plain (PStr "u1")); ("email", Plain (PStr "a@b.c")); ("email_visibility", Plain (PBool false));
   ("password_hash", Plain (PStr "h")); ("token_key", Plain (PStr "k")); ("nickname", Plain (PStr "Al"));
   ("score", Plain (PInt 3))].
Definition demo_context : dict :=
  [("auth", PDict [("type", PStr "authRecord"); ("id", PStr "u2"); ("collectionId", PStr "users123")])].
Definition demo_response : row := [("id", Plain (PStr "u1")); ("collectionId", Plain (PStr "users123"));
  ("collectionName", Plain (PStr "users")); ("created", Plain (PStr "")); ("updated", Plain (PStr ""));
  ("emailVisibility", Plain (PBool false)); ("verified", Plain (PBool false)); ("nickname", Plain (PStr "Al"))].

Lemma response_confidential_witness :
  ("password_hash" ∉ demo_response.*1 /\ "token_key" ∉ demo_response.*1) /\
  (forall fs f, @_get_schema_fields demo_record_lib demo_users = Ok fs -> f ∈ fs -> hidden f = true ->
     ~ superuser_request demo_context -> name f ∉ system_keys demo_users ->
     name f ∉ demo_response.*1) /\
  (forall k, schema demo_users <> [] -> k ∉ system_keys demo_users ->
     (forall def, def ∈ schema demo_users -> field_name def = k -> dict_get "type" def = Some (PStr "password")) ->
     k ∉ demo_response.*1) /\
  (_collection_type demo_users = "auth" -> (forall def, def ∈ schema demo_users -> field_name def <> "email") ->
     "email" ∈ demo_response.*1 -> @email_visible demo_record_lib demo_users demo_row demo_context).
Proof. apply (response_confidential demo_record_lib demo_users None demo_context demo_row). vm_compute. reflexivity. Defined.
