(* ===== verification/RecordWrite.v ===== *)
(** * Records on their way in (ppbase/services/record_service.py)

    [create_record], and what it shares with [update_record] of RecordUpdate:
    the columns it computes, the uploads it saves, and what it does with those
    uploads on every way out.  The
    clock, the password hash, the storage, and the answers of PostgreSQL are an
    environment that is asked with all that happened before; a run leaves the
    list of its effects. *)
From Stdlib Require Import Ascii String SpecFloat.
From Stdlib.Strings Require Import Byte.
From S2P Require Import Prelude PyText PyVal StorageSafety FieldTypes RecordResponse.
From S2P Require RequestMacros.
#[local] Open Scope string_scope.
#[local] Open Scope list_scope.

(** ** Errors and effects *)
Abbreviation errors := (list (string * (string * string))).   (* field: code, message *)
Inductive write_exn : Type :=
| ValidationErrors (e : errors)
| WriteFailed (kind : string)           (* any other Exception *)
| WriteCancelled.                       (* a BaseException *)
Definition is_exception (e : write_exn) : bool := match e with WriteCancelled => false | _ => true end.
Definition of_field_exn (e : field_exn) : write_exn :=
  match e with
  | FieldValidationError f c m => ValidationErrors [(f, (c, m))]
  | PyException k => WriteFailed k
  end.

(** How [async with engine.begin()] around the statement and the notification
    ended; [CommitFailed]: after both, so the write may have happened. *)
Inductive write_answer : Type :=
| Committed
| WriteError (e : write_exn)
| CommitFailed (e : write_exn).

Inductive cleanup_failure : Type := OSError | StorageUnsafe | OtherError (e : write_exn).

Inductive effect : Type :=
| ESaved (field_name : string) (names : list string)
| ECleanup (names : list string)        (* of uploads no record refers to *)
| EWrite (sql : string) (params : row) (payload : string) (a : write_answer)
| EDeleteFiles (names : list string)
| EAsked.                               (* a query *)
Definition uploads : Type := list (string * list Byte.byte).

Class RecordEnv : Type := {
  record_lib :: RecordLib;
  utcnow : list effect -> datetime;
  fresh_id : list effect -> string;
  hash_password : list effect -> pyval -> result write_exn string;
  fresh_token_key : list effect -> string;
  guess_mime : string -> option string;
  save_files : list effect -> string -> string -> string -> uploads -> pyval -> result write_exn (list string);
  email_taken : list effect -> string -> value -> option string -> result write_exn bool;
  delete_stored : list effect -> string -> string -> list string -> option cleanup_failure;
  execute_write : list effect -> string -> row -> string -> write_answer;
  fetch_row : list effect -> string -> string -> result write_exn (option row);
}.
Definition W : Type -> Type := stm (list effect) write_exn.

(** ** Python helpers *)
Definition with_field {A} (r : result field_exn A) : W A := fun t =>
  (match r with Ok a => Ok a | Err e => Err (of_field_exn e) end, t).

(** [datetime] values are equal when they name the same instant, or are both
    naive and the same. *)
Definition value_eqb (a b : value) : bool :=
  match a, b with
  | Plain x, Plain y => py_eqb x y
  | Datetime x, Datetime y =>
      match utcoffset x, utcoffset y with
      | None, None => (wall x =? wall y)%Z
      | Some p, Some q => (wall x - p =? wall y - q)%Z
      | _, _ => false
      end
  | _, _ => false
  end.
(** [len(v)] *)
Definition py_len (v : pyval) : result field_exn Z :=
  match v with
  | PStr s => Ok (Z.of_nat (String.length s))
  | PList l => Ok (zlen l)
  | PDict d => Ok (zlen d)
  | _ => Err (PyException "TypeError")
  end.

(** ** Uploads *)
Definition mime_match (candidate rule : string) : bool :=
  if String.eqb candidate "" || String.eqb rule "" then false
  else if ends_with "/*" rule then starts_with (str_take (String.length rule - 1) rule) candidate
  else String.eqb candidate rule.
Definition mime_text `{FloatText} (v : pyval) : string := py_lower (py_strip (if truthy v then py_str v else "")).
Definition _matches_mime_pattern `{FloatText} (mime_type : string) (pattern : pyval) : bool :=
  mime_match (mime_text (PStr mime_type)) (mime_text pattern).

Definition field_map (schema_fields : list FieldDefinition) : list (string * FieldDefinition) :=
  fold_left (fun m f => dict_set (name f) f m) schema_fields [].
Definition table_name (c : Collection) : string := c_name c.
Definition _AUTH_COLUMNS_HANDLED_SEPARATELY : list string := ["email"; "email_visibility"; "emailVisibility"; "verified"].

Section Writing.
Context {env : RecordEnv}.

Definition _validate_uploaded_file_constraints (field_def : FieldDefinition) (filename : string) (content : list Byte.byte)
  : result field_exn unit :=
  let max_size := opt field_def "maxSize" in
  let limit := if size_set max_size then default 0%Z (py_int max_size) else 0%Z in
  if (0 <? limit)%Z && (limit <? zlen content)%Z
  then Err (FieldValidationError (name field_def) "validation_max_size_constraint"
              ("Must be at most " +:+ str_of_Z limit +:+ " byte(s)."))
  else match opt field_def "mimeTypes" with
       | PList ((_ :: _) as patterns) =>
           let guessed := default "" (guess_mime filename) in
           let mime_type := py_lower (if nonempty guessed then guessed else "application/octet-stream") in
           if existsb (_matches_mime_pattern mime_type) patterns then Ok tt
           else Err (FieldValidationError (name field_def) "validation_invalid_mime_type"
                       ("Unsupported file type: " +:+ mime_type +:+ "."))
       | _ => Ok tt
       end.

(** One file of a field: the errors so far, and whether the field has one. *)
Definition check_upload (field_def : FieldDefinition) (acc : errors * bool) (file : string * list Byte.byte)
  : result field_exn (errors * bool) :=
  match _validate_uploaded_file_constraints field_def file.1 file.2 with
  | Ok _ => Ok acc
  | Err (FieldValidationError f c m) => Ok (dict_set f (c, m) acc.1, true)
  | Err e => Err e
  end.

(** Best effort; what it lets through is not an [OSError] nor a
    [StorageSafetyError]. *)
Definition _cleanup_new_storage_files (c : Collection) (record_id : string) (filenames : list string) : W unit := fun t =>
  match filenames with
  | [] => (Ok tt, t)
  | _ =>
      let r := match delete_stored t (c_id c) record_id filenames with
               | None | Some (OSError | StorageUnsafe) => Ok tt
               | Some (OtherError e) => Err e
               end in
      (r, t ++ [ECleanup filenames])
  end.
Definition cleanup_and_raise {A} (c : Collection) (record_id : string) (saved : list string) (e : write_exn) : W A :=
  _cleanup_new_storage_files c record_id saved ≫= fun _ => stm_raise e.
(** [try: m / except BaseException: cleanup; raise] *)
Definition cleaning_up {A} (c : Collection) (record_id : string) (saved : list string) (m : W A) : W A := fun t =>
  match m t with
  | (Ok a, t') => (Ok a, t')
  | (Err e, t') => cleanup_and_raise c record_id saved e t'
  end.

Definition save_uploads (c : Collection) (record_id field_name : string) (file_list : uploads) (max_select : pyval)
    (saved : list string) : W (list string) := fun t =>
  match save_files t (c_id c) record_id field_name file_list max_select with
  | Ok names => (Ok names, t ++ [ESaved field_name names])
  | Err e => if is_exception e then cleanup_and_raise c record_id saved e t else (Err e, t)
  end.

Definition notify_payload (c : Collection) (record_id action : string) : string :=
  json_compact (PDict [("collection", PStr (c_name c)); ("record_id", PStr record_id); ("action", PStr action)]).
Definition write_record (c : Collection) (record_id action sql : string) (params : row) (saved : list string) : W unit :=
  fun t =>
    let payload := notify_payload c record_id action in
    let answer := execute_write t sql params payload in
    let t := t ++ [EWrite sql params payload answer] in
    match answer with
    | Committed => (Ok tt, t)
    | WriteError e => if is_exception e then cleanup_and_raise c record_id saved e t else (Err e, t)
    | CommitFailed e => (Err e, t)
    end.

Definition reread (c : Collection) (record_id : string) : W (option row) := fun t =>
  match fetch_row t (table_name c) record_id with
  | Err e => (Err e, t ++ [EAsked])
  | Ok r => with_field (get_record c r None None) (t ++ [EAsked])
  end.

Definition _serialize_for_pg (v : value) (field_def : FieldDefinition) : result field_exn value :=
  match type field_def with
  | JSON | GEO_POINT =>
      match v with
      | Plain p => Ok (Plain (PStr (json_compact p)))
      | Datetime _ => Err (PyException "TypeError")
      end
  | _ => Ok v
  end.

(** ** [create_record] *)
Definition set_error (field code message : string) (e : errors) : errors := dict_set field (code, message) e.
Definition too_short : string := "The length must be between 8 and 72.".
Definition item (key : string) (data : dict) : pyval := default PNone (dict_get key data).
(** [data.pop(k, None)] for the keys in order *)
Definition without (keys : list string) (data : dict) : dict := fold_left (fun d k => dict_del k d) keys data.

(** The text of a required e-mail, or its error. *)
Definition checked_email (email_val : pyval) : string + (string * string) :=
  if match email_val with PNone => true | PStr s => String.eqb (py_strip s) "" | _ => false end
  then inr ("validation_required", "Cannot be blank.")
  else
    let email_str := py_strip (py_str email_val) in
    if negb (_EMAIL_RE email_str) then inr ("validation_invalid_email", "Must be a valid email address.")
    else inl email_str.
(** The error of a password that does not have eight characters, or is not
    confirmed. *)
Definition password_errors (password confirm : pyval) : result field_exn errors :=
  n ← py_len password;
  Ok (if (n <? 8)%Z then [("password", ("validation_length_out_of_range", too_short))]
      else if negb (py_eqb confirm password)
      then [("passwordConfirm", ("validation_values_mismatch", "Values don't match."))] else []).

(** [columns["password_hash"]] and [columns["token_key"]] *)
Definition set_password (password : pyval) (columns : row) : W row := fun t =>
  match hash_password t password with
  | Err e => (Err e, t ++ [EAsked])
  | Ok h => (Ok (dict_set "token_key" (Plain (PStr (fresh_token_key (t ++ [EAsked]))))
                   (dict_set "password_hash" (Plain (PStr h)) columns)), t ++ [EAsked; EAsked])
  end.
Definition create_flag (key : string) (acc : dict * row) : dict * row :=
  let '(data, columns) := acc in
  match dict_get key data with
  | None => (data, dict_set key (Plain (PBool false)) columns)
  | Some v => (dict_del key data, dict_set key (Plain (PBool (truthy v))) columns)
  end.
Definition create_auth (c : Collection) (data : dict) (columns : row) : W (dict * row * errors) :=
  let data := without ["password_hash"; "token_key"] data in
  let password := item "password" data in
  let confirm := item "passwordConfirm" data in
  let data := without ["password"; "passwordConfirm"] data in
  errs ← with_field (if truthy password then password_errors password confirm
                     else Ok [("password", ("validation_required", "Cannot be blank."))]);
  columns ← (match errs with [] => set_password password columns | _ => mret columns end);
  let email := checked_email (item "email" data) in
  let data := dict_del "email" data in
  let errs := match email with inr (code, m) => set_error "email" code m errs | inl _ => errs end in
  let columns := match email with inl e => dict_set "email" (Plain (PStr e)) columns | inr _ => columns end in
  mret (if String.eqb (c_name c) "_superusers"
        then (without ["email_visibility"; "emailVisibility"; "verified"] data, columns, errs)
        else (create_flag "verified" (create_flag "email_visibility" (data, columns)), errs)).

Record uploading : Type := mkUploading { u_data : dict; u_errors : errors; u_saved : list string }.
(** What [data] has for the saved names of a field. *)
Definition stored_names (max_select : pyval) (saved_names : list string) : pyval :=
  if py_eqb max_select (PInt 1) then PStr (match saved_names with n :: _ => n | [] => "" end)
  else PList (PStr <$> saved_names).
Definition create_upload (c : Collection) (record_id : string) (fields : list (string * FieldDefinition))
    (u : uploading) (entry : string * uploads) : W uploading :=
  let '(field_name, file_list) := entry in
  match dict_get field_name fields with
  | Some field_def =>
      if decide (type field_def = FILE) then
        checked ← with_field (fold_result (check_upload field_def) file_list (u_errors u, false));
        let '(errs, upload_has_error) := checked in
        if upload_has_error : bool then mret (mkUploading (u_data u) errs (u_saved u))
        else
          saved_names ← save_uploads c record_id field_name file_list (max_select field_def) (u_saved u);
          mret (mkUploading (dict_set field_name (stored_names (max_select field_def) saved_names) (u_data u)) errs
                  (u_saved u ++ saved_names))
      else mret u
  | None => mret u
  end.
Fixpoint fold_uploads {A} (step : A -> string * uploads -> W A) (u : A) (files : list (string * uploads)) : W A :=
  match files with [] => mret u | entry :: files' => step u entry ≫= fun u' => fold_uploads step u' files' end.

Definition create_column (is_auth : bool) (data : dict) (acc : row * errors) (field_def : FieldDefinition)
  : result field_exn (row * errors) :=
  let '(columns, errs) := acc in
  if bool_decide (type field_def = AUTODATE) || (is_auth && in_list (name field_def) _AUTH_COLUMNS_HANDLED_SEPARATELY)
  then Ok acc
  else
    match validated ← validate_field_value field_def (Plain (item (name field_def) data));
          _serialize_for_pg validated field_def with
    | Ok v => Ok (dict_set (name field_def) v columns, errs)
    | Err (FieldValidationError f code m) => Ok (columns, set_error f code m errs)
    | Err e => Err e
    end.

Definition not_unique : errors := [("email", ("validation_not_unique", "The email is already in use."))].
(** The query for another record with the e-mail. *)
Definition unique_email (c : Collection) (record_id : string) (email : option value) (exclude : option string)
    (saved : list string) : W unit :=
  match email with
  | None => mret tt
  | Some e =>
      taken ← cleaning_up c record_id saved (fun t => (email_taken t (table_name c) e exclude, t ++ [EAsked]));
      if taken : bool then cleanup_and_raise c record_id saved (ValidationErrors not_unique) else mret tt
  end.
Definition raise_errors (c : Collection) (record_id : string) (saved : list string) (errs : errors) : W unit :=
  match errs with [] => mret tt | _ => cleanup_and_raise c record_id saved (ValidationErrors errs) end.

Definition column_list (columns : row) : string := join ", " ((fun k => quoted k) <$> columns.*1).
Definition insert_sql (c : Collection) (columns : row) : string :=
  "INSERT INTO " +:+ quoted (table_name c) +:+ " (" +:+ column_list columns +:+ ") VALUES ("
  +:+ join ", " ((fun k => ":" +:+ k) <$> columns.*1) +:+ ")".

Definition bad_record_id : write_exn :=
  ValidationErrors [("id", ("validation_invalid_record_id", "Must be a valid record ID."))].
Definition new_record_id (raw_record_id : pyval) : W string := fun t =>
  match raw_record_id with
  | PNone | PStr "" => (Ok (fresh_id t), t ++ [EAsked])
  | _ => (match validate_record_id raw_record_id with Ok s => Ok s | Err _ => Err bad_record_id end, t)
  end.
Definition ask_now : W datetime := fun t => (Ok (utcnow t), t ++ [EAsked]).

(** From the parsed schema, the id and the columns the code starts with, to
    the columns of the statement. *)
Definition create_columns (c : Collection) (schema_fields : list FieldDefinition) (record_id : string) (data : dict)
    (columns : row) (files : list (string * uploads)) : W (row * list string) :=
  let is_auth := String.eqb (_collection_type c) "auth" in
  prepared ← (if is_auth then create_auth c data columns else mret (data, columns, []));
  let '(data, columns, errs) := prepared in
  u ← fold_uploads (create_upload c record_id (field_map schema_fields)) (mkUploading data errs []) files;
  final ← cleaning_up c record_id (u_saved u)
            (with_field (fold_result (create_column is_auth (u_data u)) schema_fields (columns, u_errors u)));
  let '(columns, errs) := final in
  _ ← raise_errors c record_id (u_saved u) errs;
  _ ← (if is_auth then unique_email c record_id (dict_get "email" columns) None (u_saved u) else mret tt);
  mret (columns, u_saved u).

Definition create_record (c : Collection) (data : dict) (files : list (string * uploads)) : W row :=
  schema_fields ← with_field (_get_schema_fields c);
  now ← ask_now;
  let raw_record_id := item "id" data in
  let data := dict_del "id" data in
  record_id ← new_record_id raw_record_id;
  ready ← create_columns c schema_fields record_id data
            [("id", Plain (PStr record_id)); ("created", Datetime now); ("updated", Datetime now)] files;
  let '(columns, saved) := ready in
  _ ← write_record c record_id "create" (insert_sql c columns) columns saved;
  found ← reread c record_id;
  mret (match found with
        | Some (kv :: rest) => kv :: rest
        | _ => [("id", Plain (PStr record_id)); ("collectionId", Plain (PStr (c_id c)));
                ("collectionName", Plain (PStr (c_name c))); ("created", Plain (PStr (format_stamp now)));
                ("updated", Plain (PStr (format_stamp now)))]
        end).

(** ** What a run did *)
Definition saved_by (e : effect) : list string := match e with ESaved _ names => names | _ => [] end.
Definition cleaned_by (e : effect) : list string := match e with ECleanup names => names | _ => [] end.
Definition saved_of (t : list effect) : list string := t ≫= saved_by.
Definition cleaned_of (t : list effect) : list string := t ≫= cleaned_by.
Definition deleted_by (e : effect) : list string := match e with EDeleteFiles names => names | _ => [] end.
Definition deleted_of (t : list effect) : list string := t ≫= deleted_by.
Definition is_write (e : effect) : bool := match e with EWrite _ _ _ _ | EDeleteFiles _ => true | _ => false end.
(** The statement is in the database, or may be. *)
Definition may_be_stored (e : effect) : bool :=
  match e with EWrite _ _ _ (Committed | CommitFailed _) => true | _ => false end.
Definition wrote (t : list effect) : bool := existsb may_be_stored t.

(** The uploads of a run that has not written yet; a run that gave up. *)
Definition pending (saved : list string) (t : list effect) : Prop :=
  saved_of t = saved /\ cleaned_of t = [] /\ Forall (fun e => is_write e = false) t.
Definition gave_up (e : write_exn) (t : list effect) : Prop :=
  wrote t = false /\ deleted_of t = [] /\ (is_exception e = true -> saved_of t ⊆ cleaned_of t).
(** A run that only asks. *)
Definition quiet {A} (m : W A) : Prop := forall t, exists n, (m t).2 = t ++ replicate n EAsked.

Lemma saved_of_app t t' : saved_of (t ++ t') = saved_of t ++ saved_of t'.
Proof. apply bind_app. Qed.
Lemma cleaned_of_app t t' : cleaned_of (t ++ t') = cleaned_of t ++ cleaned_of t'.
Proof. apply bind_app. Qed.
Lemma wrote_app t t' : wrote (t ++ t') = wrote t || wrote t'.
Proof. apply existsb_app. Qed.
Lemma deleted_of_app t t' : deleted_of (t ++ t') = deleted_of t ++ deleted_of t'.
Proof. apply bind_app. Qed.
Lemma not_written t : Forall (fun e => is_write e = false) t -> wrote t = false /\ deleted_of t = [].
Proof. induction 1 as [|[] t He _ IH]; cbn in *; done. Qed.
Lemma asked_none n : saved_of (replicate n EAsked) = [] /\ cleaned_of (replicate n EAsked) = [] /\
  Forall (fun e => is_write e = false) (replicate n EAsked).
Proof. induction n as [|n (Hs & Hc & Hw)]; [done|]. cbn. split_and!; [done..|by constructor]. Qed.
Lemma pending_asked saved t n : pending saved t -> pending saved (t ++ replicate n EAsked).
Proof.
  intros (Hs & Hc & Hw). destruct (asked_none n) as (Es & Ec & Ew). unfold pending.
  rewrite saved_of_app, cleaned_of_app, Es, Ec, !app_nil_r. split_and!; [done..|by apply Forall_app].
Qed.
Lemma pending_saved saved t f names : pending saved t -> pending (saved ++ names) (t ++ [ESaved f names]).
Proof.
  intros (Hs & Hc & Hw). unfold pending. rewrite saved_of_app, cleaned_of_app, Hs, Hc. cbn. rewrite app_nil_r.
  split_and!; [done..|]. apply Forall_app. split; [done|by constructor].
Qed.
Lemma pending_gave_up t e : pending [] t -> gave_up e t.
Proof.
  intros (Hs & _ & Hw). split_and!; [by apply not_written..|]. intros _. rewrite Hs. set_solver.
Qed.

Lemma quiet_ret {A} (a : A) : quiet (mret a).
Proof. intros t. exists 0. cbn. by rewrite app_nil_r. Qed.
Lemma quiet_with_field {A} (r : result field_exn A) : quiet (with_field r).
Proof. intros t. exists 0. cbn. by rewrite app_nil_r. Qed.
Lemma quiet_bind {A B} (m : W A) (f : A -> W B) : quiet m -> (forall a, quiet (f a)) -> quiet (m ≫= f).
Proof.
  intros Hm Hf t. unfold mbind, stm_bind. specialize (Hm t). destruct (m t) as [[a|e] t']; cbn in Hm; [|done].
  destruct Hm as [n ->]. destruct (Hf a (t ++ replicate n EAsked)) as [k ->]. exists (n + k).
  by rewrite replicate_add, app_assoc.
Qed.
Lemma quiet_post {A} (m : W A) t : quiet m -> pending [] t -> post m t (fun _ => pending []) gave_up.
Proof.
  intros Hm Ht. unfold post. specialize (Hm t). destruct (m t) as [[a|e] t']; cbn in Hm; destruct Hm as [n ->];
    [by apply pending_asked|]. by apply pending_gave_up, pending_asked.
Qed.

Lemma cleanup_post {A} c record_id saved e t t0 : pending saved t0 -> t = t0 \/ (exists w, t = t0 ++ [w] /\ may_be_stored w = false /\ saved_by w = [] /\ deleted_by w = []) ->
  post (cleanup_and_raise (A := A) c record_id saved e) t (fun _ _ => False) gave_up.
Proof.
  intros (Hs & _ & [Hw Hd]%not_written) Ht. assert (H : saved_of t = saved /\ wrote t = false /\ deleted_of t = []).
  { destruct Ht as [->|(w & -> & H1 & H2 & H3)]; [done|].
    rewrite saved_of_app, wrote_app, deleted_of_app, Hw, Hd. cbn. by rewrite H1, H2, H3, app_nil_r. }
  clear Ht Hs Hw Hd. destruct H as (Hs & Hw & Hd). unfold post, cleanup_and_raise, mbind, stm_bind, _cleanup_new_storage_files, stm_raise.
  assert (Hg : forall e', gave_up e' (t ++ [ECleanup saved])).
  { intros e'. unfold gave_up. rewrite wrote_app, deleted_of_app, saved_of_app, cleaned_of_app, Hw, Hd, Hs. cbn. split_and!; [done..|].
    intros _. rewrite !app_nil_r. intros x Hx. apply elem_of_app. by right. }
  destruct saved as [|s saved]; [|destruct (delete_stored _ _ _ _) as [[]|]; apply Hg].
  split_and!; [done..|]. intros _. rewrite Hs. set_solver.
Qed.

Lemma cleaning_up_post {A} c record_id saved (m : W A) t (Q : A -> list effect -> Prop) : quiet m -> pending saved t ->
  (forall a t', m t = (Ok a, t') -> pending saved t' -> Q a t') ->
  post (cleaning_up c record_id saved m) t Q gave_up.
Proof.
  intros Hm Ht HQ. unfold post, cleaning_up. specialize (Hm t). destruct (m t) as [[a|e] t'] eqn:E; cbn in Hm; destruct Hm as [n ->].
  - apply HQ; [done|]. by apply pending_asked.
  - pose proof (cleanup_post (A := A) c record_id saved e _ _ (pending_asked saved t n Ht) (or_introl eq_refl)) as H.
    unfold post in H. by destruct (cleanup_and_raise _ _ _ _ _) as [[a|e'] t'].
Qed.
Lemma save_uploads_post c record_id f fl ms saved t : pending saved t ->
  post (save_uploads c record_id f fl ms saved) t
    (fun names t' => t' = t ++ [ESaved f names] /\ save_files t (c_id c) record_id f fl ms = Ok names /\
                     pending (saved ++ names) t') gave_up.
Proof.
  intros Ht. unfold post, save_uploads. destruct (save_files _ _ _ _ _ _) as [names|e].
  - split_and!; [done..|by apply pending_saved].
  - destruct (is_exception e) eqn:He.
    + pose proof (cleanup_post (A := list string) c record_id saved e _ _ Ht (or_introl eq_refl)) as H. unfold post in H.
      by destruct (cleanup_and_raise _ _ _ _ _) as [[a|e'] t'].
    + split_and!; [by apply not_written, Ht..|]. by rewrite He.
Qed.
Lemma raise_errors_post c record_id saved errs t : pending saved t ->
  post (raise_errors c record_id saved errs) t (fun _ t' => errs = [] /\ t' = t) gave_up.
Proof.
  intros Ht. unfold raise_errors. destruct errs as [|e errs]; [by split|].
  eapply post_conseq; [by apply (cleanup_post _ _ _ _ _ _ Ht (or_introl eq_refl))|done|done].
Qed.
Lemma unique_email_post c record_id email exclude saved t : pending saved t ->
  post (unique_email c record_id email exclude saved) t
    (fun _ t' => pending saved t' /\ (exists n, t' = t ++ replicate n EAsked) /\
       forall e, email = Some e -> email_taken t (table_name c) e exclude = Ok false) gave_up.
Proof.
  intros Ht. unfold unique_email. destruct email as [e|]; [|split_and!; [done|exists 0; by rewrite app_nil_r|done]].
  apply post_bind, cleaning_up_post; [intros t0; by exists 1|done|]. intros taken t' [= E <-] Ht'. destruct taken.
  - eapply post_conseq; [by apply (cleanup_post _ _ _ _ _ _ Ht' (or_introl eq_refl))|done|done].
  - split_and!; [done|by exists 1|]. by intros ? [= <-].
Qed.

(** ** Uploads and the data that names them *)
(** What [save_files] promises of the names it returns. *)
Definition names_ok (max_select : pyval) (names : list string) : Prop :=
  Forall (fun n => n <> "") names /\ (py_eqb max_select (PInt 1) = true -> length names <= 1).
Definition storage_names : Prop := forall t cid rid f fl ms names,
  save_files t cid rid f fl ms = Ok names -> names_ok ms names.
Definition held (fields : list (string * FieldDefinition)) (data : dict) (t : list effect) : Prop :=
  forall f names, ESaved f names ∈ t -> exists fd, dict_get f fields = Some fd /\ type fd = FILE /\
    names_ok (max_select fd) names /\ dict_get f data = Some (stored_names (max_select fd) names).
Definition fresh_fields (files : list (string * uploads)) (t : list effect) : Prop :=
  forall f names, ESaved f names ∈ t -> f ∉ files.*1.

Lemma dict_set_not_nil {A} k (v : A) d : dict_set k v d <> [].
Proof. destruct d as [|[k' w] d]; cbn; [done|]. by destruct (String.eqb k' k). Qed.
Lemma check_upload_errors field_def fl errs b errs' b' :
  fold_result (check_upload field_def) fl (errs, b) = Ok (errs', b') -> errs' = [] -> errs = [].
Proof.
  revert errs b. induction fl as [|file fl IH]; intros errs b; cbn; [by intros [= -> _]|]. unfold check_upload at 1.
  destruct (_validate_uploaded_file_constraints _ _ _) as [?|[f c m|k]]; [apply IH| |done].
  intros H E. by destruct (dict_set_not_nil f (c, m) errs (IH _ _ H E)).
Qed.
Lemma check_upload_total field_def fl acc : exists acc', fold_result (check_upload field_def) fl acc = Ok acc'.
Proof.
  revert acc. induction fl as [|file fl IH]; intros acc; cbn; [by exists acc|].
  assert (exists acc1, check_upload field_def acc file = Ok acc1) as [acc1 ->]; [|apply IH].
  unfold check_upload, _validate_uploaded_file_constraints. case_match eqn:E; [by eexists|].
  repeat case_match; simplify_eq; by eexists.
Qed.
Lemma field_map_elem fields f fd : dict_get f (field_map fields) = Some fd -> fd ∈ fields /\ name fd = f.
Proof.
  unfold field_map. enough (forall m, dict_get f (fold_left (fun m f => dict_set (name f) f m) fields m) = Some fd ->
    fd ∈ fields /\ name fd = f \/ dict_get f m = Some fd) as H by (intros [?|?]%H; done).
  induction fields as [|g fields IH]; intros m; cbn [fold_left]; [by right|]. intros [[? ?]|H]%IH; [left; split; [by right|done]|].
  destruct (decide (name g = f)) as [<-|Hne]; [|rewrite dict_get_set_ne in H by done; by right].
  rewrite dict_get_set_eq in H. injection H as ->. left. split; [by left|done].
Qed.
Lemma held_saved fields data t f fd names : held fields data t -> (forall names', ESaved f names' ∉ t) ->
  dict_get f fields = Some fd -> type fd = FILE -> names_ok (max_select fd) names ->
  held fields (dict_set f (stored_names (max_select fd) names) data) (t ++ [ESaved f names]).
Proof.
  intros Hh Hnew Hfd Hty Hok g names' [Hin|[= -> ->]%list_elem_of_singleton]%elem_of_app.
  - destruct (Hh _ _ Hin) as (fd' & ? & ? & ? & Hg). exists fd'. rewrite dict_get_set_ne; [done|]. intros ->. by eapply Hnew.
  - exists fd. by rewrite dict_get_set_eq.
Qed.

Lemma create_upload_post c record_id fields u entry files t : storage_names ->
  NoDup (entry :: files).*1 -> pending (u_saved u) t -> held fields (u_data u) t -> fresh_fields (entry :: files) t ->
  post (create_upload c record_id fields u entry) t
    (fun u' t' => pending (u_saved u') t' /\ held fields (u_data u') t' /\ fresh_fields files t' /\
       (u_errors u' = [] -> u_errors u = [])) gave_up.
Proof.
  intros Hlaw Hnd Ht Hh Hf. destruct entry as [f fl]. cbn in Hnd. apply NoDup_cons in Hnd as [Hnew Hnd]. cbn.
  assert (Hf' : fresh_fields files t) by (intros g names Hin Hg; apply (Hf g names Hin); by right).
  destruct (dict_get f fields) as [fd|] eqn:Efd; [|done]. case_decide as Hty; [|done].
  apply post_bind. unfold post at 1, with_field. destruct (fold_result _ _ _) as [[errs bad]|e] eqn:Ec;
    [|by destruct (check_upload_total fd fl (u_errors u, false)) as [? [=]%(eq_trans (eq_sym Ec))]].
  pose proof (check_upload_errors _ _ _ _ _ _ Ec) as Herrs. destruct bad; [done|].
  apply post_bind. eapply post_conseq; [by apply save_uploads_post| |done].
  intros names t' (-> & Hs & Hp). cbn. split_and!; [done| | |done].
  - eapply held_saved; try done; [|by eapply Hlaw]. intros names' Hin. apply (Hf f names' Hin). by left.
  - intros g names' [Hin|[= -> ->]%list_elem_of_singleton]%elem_of_app; [by eapply Hf'|done].
Qed.
Lemma create_uploads_post c record_id fields u files t : storage_names ->
  NoDup files.*1 -> pending (u_saved u) t -> held fields (u_data u) t -> fresh_fields files t ->
  post (fold_uploads (create_upload c record_id fields) u files) t
    (fun u' t' => pending (u_saved u') t' /\ held fields (u_data u') t' /\ (u_errors u' = [] -> u_errors u = [])) gave_up.
Proof.
  intros Hlaw. revert u t. induction files as [|entry files IH]; intros u t Hnd Ht Hh Hf; [done|].
  cbn [fold_uploads]. apply post_bind. eapply post_conseq; [by apply create_upload_post| |done].
  intros u' t' (Ht' & Hh' & Hf' & He). apply NoDup_cons in Hnd as [_ Hnd].
  eapply post_conseq; [by apply IH| |done]. cbn. intros u2 t2 (? & ? & He'). split_and!; [done..|]. intros ?. by apply He, He'.
Qed.

(** ** The columns of the schema *)
Definition own_column (is_auth : bool) (field_def : FieldDefinition) : bool :=
  negb (bool_decide (type field_def = AUTODATE)
        || (is_auth && in_list (name field_def) _AUTH_COLUMNS_HANDLED_SEPARATELY)).
(** The column is the text of a value that the field accepts. *)
Definition column_of (data : dict) (field_def : FieldDefinition) (v : value) : Prop :=
  exists stored, validate_field_value field_def (Plain (item (name field_def) data)) = Ok stored /\
                 _serialize_for_pg stored field_def = Ok v.
Lemma create_columns_fold is_auth data fields columns errs columns' :
  fold_result (create_column is_auth data) fields (columns, errs) = Ok (columns', []) -> NoDup (name <$> fields) ->
  errs = [] /\
  (forall f, f ∈ fields -> own_column is_auth f = true ->
     exists v, dict_get (name f) columns' = Some v /\ column_of data f v) /\
  (forall k, (forall f, f ∈ fields -> own_column is_auth f = true -> name f <> k) ->
     dict_get k columns' = dict_get k columns).
Proof.
  revert columns errs. induction fields as [|f fields IH]; intros columns errs; cbn [fold_result].
  { intros [= -> ->] _. split_and!; [done| |done]. by intros f ?%elem_of_nil. }
  unfold create_column at 1. rewrite fmap_cons. destruct (bool_decide (type f = AUTODATE) || _) eqn:Eskip.
  { intros H (_ & Hnd)%NoDup_cons. destruct (IH _ _ H Hnd) as (-> & Hv & Hk). split_and!; [done| |].
    - intros g [->|Hg]%elem_of_cons Hown; [|by apply Hv]. unfold own_column in Hown. by rewrite Eskip in Hown.
    - intros k Hk'. apply Hk. intros g Hg. apply Hk'. by right. }
  destruct (validate_field_value f _ ≫= _) as [v|e] eqn:Ev.
  - intros H (Hnew & Hnd)%NoDup_cons. destruct (IH _ _ H Hnd) as (-> & Hv & Hk). split_and!; [done| |].
    + intros g [->|Hg]%elem_of_cons Hown; [|by apply Hv]. exists v. split.
      * rewrite Hk; [apply dict_get_set_eq|]. intros g' Hg' _ E. apply Hnew. rewrite <- E. by apply list_elem_of_fmap_2.
      * bind_ok Ev as stored Hs. by exists stored.
    + intros k Hk'. rewrite Hk by (intros g Hg; apply Hk'; by right). apply dict_get_set_ne. apply Hk'; [by left|].
      unfold own_column. by rewrite Eskip.
  - destruct e as [g code m|k]; [|done]. intros H (_ & Hnd)%NoDup_cons. destruct (IH _ _ H Hnd) as (E & _).
    by destruct (dict_set_not_nil g (code, m) errs).
Qed.

(** A file field of the schema that stores what is uploaded to it. *)
Definition stores_uploads (is_auth : bool) (f : FieldDefinition) : Prop :=
  own_column is_auth f = true /\ exists n, max_select f = PInt n /\ (1 <= n)%Z.

Lemma file_column data f n names v : type f = FILE -> max_select f = PInt n -> (1 <= n)%Z ->
  names_ok (max_select f) names -> dict_get (name f) data = Some (stored_names (max_select f) names) ->
  column_of data f v -> reference_list v = names.
Proof.
  intros Hty Hms Hn [Hne Hlen] Hd (stored & Hval & Hser). unfold item in Hval. rewrite Hd in Hval. cbn [default] in Hval.
  unfold _serialize_for_pg in Hser. rewrite Hty in Hser. injection Hser as <-.
  unfold validate_field_value in Hval. rewrite Hty in Hval. cbn [_VALIDATORS] in Hval. unfold _validate_file in Hval.
  unfold stored_names in *. rewrite Hms in *. change (py_eqb (PInt n) (PInt 1)) with (n =? 1)%Z in *. cbn [int_lt] in Hval.
  change (mbind (M := result field_exn) ?k (Ok ?b)) with (k b) in Hval. cbv beta iota zeta in Hval.
  destruct (n =? 1)%Z eqn:En.
  - apply Z.eqb_eq in En as ->. specialize (Hlen eq_refl). change (1 <? 1)%Z with false in Hval. cbv iota in Hval.
    destruct names as [|s [|s' names]]; [| |cbn in Hlen; lia].
    + cbn in Hval. destruct (required f); [done|]. by injection Hval as <-.
    + apply Forall_cons in Hne as [Hs%String.eqb_neq _]. rewrite (reference_list_single s), Hs in Hval. cbn in Hval.
      rewrite Hs, andb_false_r in Hval. destruct (negb _); [done|]. injection Hval as <-.
      by rewrite reference_list_single, Hs.
  - apply Z.eqb_neq in En. rewrite (proj2 (Z.ltb_lt 1 n)) in Hval by lia.
    fold (strs names) in Hval. rewrite (reference_list_strs names Hne) in Hval.
    destruct (negb _); [done|]. destruct (required f && _); [done|]. cbn [int_gt] in Hval.
    change (mbind (M := result field_exn) ?k (Ok ?b)) with (k b) in Hval. cbv beta iota in Hval.
    destruct (n <? zlen names)%Z; [done|]. injection Hval as <-. by apply reference_list_strs.
Qed.

(** ** The columns of an auth record *)
Lemma item_without k keys data : k ∉ keys -> item k (without keys data) = item k data.
Proof.
  revert data. induction keys as [|k' keys IH]; intros data Hk; [done|].
  apply not_elem_of_cons in Hk as [Hne Hk]. change (item k (without keys (dict_del k' data)) = item k data). rewrite IH by done. unfold item. by rewrite dict_get_del_ne.
Qed.
(** The credentials that an accepted auth record is written with. *)
Definition auth_ready (data : dict) (columns : row) : Prop := exists n h t e,
  (truthy (item "password" data) = true /\ py_len (item "password" data) = Ok n /\ (8 <= n)%Z /\
   py_eqb (item "passwordConfirm" data) (item "password" data) = true) /\
  hash_password t (item "password" data) = Ok h /\ dict_get "password_hash" columns = Some (Plain (PStr h)) /\
  checked_email (item "email" data) = inl e /\ dict_get "email" columns = Some (Plain (PStr e)).

(** A name, an at sign and a host of at least two non-empty parts, all without
    blanks and without another at sign. *)
Definition mail_char (c : ascii) : bool := match c with "@"%char => false | _ => negb (is_space c) end.
Definition mail_address (s : string) : Prop := exists local host rest, s = local +:+ "@" +:+ host +:+ "." +:+ rest /\
  local <> "" /\ host <> "" /\ rest <> "" /\ Forall (fun part => str_forall mail_char part = true) [local; host; rest].
Lemma dot_then_more_split s : dot_then_more s = true -> exists a b, s = a +:+ "." +:+ b /\ b <> "".
Proof.
  induction s as [|c s IH]; [done|]. cbn. intros [[Hc Hs]%andb_true_iff|H]%orb_true_iff.
  - apply Ascii.eqb_eq in Hc as ->. apply negb_true_iff, String.eqb_neq in Hs. by exists "", s.
  - destruct (IH H) as (a & b & -> & Hb). by exists (String c a), b.
Qed.
Lemma email_char_mail c : email_char c = true -> mail_char c = true.
Proof. destruct c as [[] [] [] [] [] [] [] []]; vm_compute; congruence. Qed.
Lemma email_re_mail s : _EMAIL_RE s = true -> mail_address s.
Proof.
  unfold _EMAIL_RE. destruct (span email_char s) as [local rest] eqn:E. pose proof (span_app email_char s) as Hs. pose proof (span_all email_char s) as Ha.
  rewrite E in Hs, Ha. cbn [fst snd] in Hs, Ha. subst s. destruct rest as [|at_ [|d domain]]; [done..|].
  rewrite !andb_true_iff. intros [[[Hl Hat] Hall] Hdot]. apply Ascii.eqb_eq in Hat as ->. apply negb_true_iff, String.eqb_neq in Hl.
  apply dot_then_more_split in Hdot as (a & b & -> & Hb). exists local, (String d a), b. split; [done|]. split_and!; [done..|].
  change (String d (a +:+ "." +:+ b)) with (String d a +:+ "." +:+ b) in Hall. rewrite !str_forall_app, !andb_true_iff in Hall.
  destruct Hall as (H1 & _ & H2). repeat constructor; (eapply str_forall_impl; [exact email_char_mail|done]).
Qed.

Lemma checked_email_mail v e : checked_email v = inl e -> mail_address e /\ e = py_strip (py_str v).
Proof.
  intros H. assert (_EMAIL_RE (py_strip (py_str v)) = true /\ e = py_strip (py_str v)) as [He ->].
  { unfold checked_email in H. destruct (_EMAIL_RE _) eqn:E; cbn [negb] in H; repeat case_match; by simplify_eq. }
  split; [by apply email_re_mail|done].
Qed.
Lemma item_del_ne k k' data : k <> k' -> item k (dict_del k' data) = item k data.
Proof. intros H. unfold item. by rewrite dict_get_del_ne. Qed.
Lemma password_errors_ok password confirm errs : password_errors password confirm = Ok errs -> errs = [] ->
  exists n, py_len password = Ok n /\ (8 <= n)%Z /\ py_eqb confirm password = true.
Proof.
  unfold password_errors. intros H ->. bind_ok H as n Hn. exists n. split; [done|].
  destruct (n <? 8)%Z eqn:E; [done|]. destruct (py_eqb confirm password); [|done]. split; [lia|done].
Qed.
Lemma set_password_post password columns t : post (set_password password columns) t
  (fun columns' _ => exists h, hash_password t password = Ok h /\ dict_get "password_hash" columns' = Some (Plain (PStr h)) /\
     forall k, k ∉ ["password_hash"; "token_key"] -> dict_get k columns' = dict_get k columns) (fun _ _ => True).
Proof.
  unfold post, set_password. destruct (hash_password t password) as [h|]; [|done]. exists h. split_and!; [done| |].
  - rewrite dict_get_set_ne by done. apply dict_get_set_eq.
  - intros k Hk. rewrite !dict_get_set_ne; [done| |]; intros <-; apply Hk; set_solver.
Qed.
Lemma create_flag_columns key data columns k : k <> key -> dict_get k (create_flag key (data, columns)).2 = dict_get k columns.
Proof. intros Hk. cbn. destruct (dict_get key data); cbn; by rewrite dict_get_set_ne. Qed.
Lemma create_flags_columns k data columns : k <> "email_visibility" -> k <> "verified" ->
  dict_get k (create_flag "verified" (create_flag "email_visibility" (data, columns))).2 = dict_get k columns.
Proof.
  intros H1 H2. destruct (create_flag "email_visibility" (data, columns)) as [data' columns'] eqn:E.
  rewrite create_flag_columns by done. change columns' with (data', columns').2. rewrite <- E. by apply create_flag_columns.
Qed.

Lemma quiet_create_auth c data columns : quiet (create_auth c data columns).
Proof.
  unfold create_auth. apply quiet_bind; [apply quiet_with_field|]. intros errs. apply quiet_bind; [|intros ?; apply quiet_ret].
  destruct errs; [|apply quiet_ret]. intros t. unfold set_password. destruct (hash_password _ _); [by exists 2|by exists 1].
Qed.
Lemma create_auth_post c data columns t : post (create_auth c data columns) t
  (fun '(data', columns', errs) _ => dict_get "id" columns' = dict_get "id" columns /\
     (errs = [] -> auth_ready data columns')) (fun _ _ => True).
Proof.
  unfold create_auth. rewrite !item_without by decided.
  set (password := item "password" data). set (data2 := without _ (without _ data)).
  apply post_bind. unfold post at 1, with_field. destruct (if truthy password then _ else _) as [errs|] eqn:Ee; [|done].
  assert (Hpw : errs = [] -> truthy password = true /\ exists n, py_len password = Ok n /\ (8 <= n)%Z /\
    py_eqb (item "passwordConfirm" data) password = true).
  { intros ->. destruct (truthy password); [|done]. split; [done|]. by eapply password_errors_ok. }
  clear Ee. apply post_bind.
  assert (post (match errs with [] => set_password password columns | _ => mret columns end) t
    (fun columns' _ => (errs = [] -> exists t h, hash_password t password = Ok h /\
        dict_get "password_hash" columns' = Some (Plain (PStr h))) /\
       dict_get "id" columns' = dict_get "id" columns) (fun _ _ => True)) as Hset.
  { destruct errs; [|by split]. eapply post_conseq; [apply set_password_post| |done].
    intros columns' _ (h & Hh & Hg & Hk). split; [intros _; by exists t, h|]. apply Hk. decided. }
  eapply post_conseq; [exact Hset| |done]. cbv beta. intros columns' t' [Hset' Hid]. clear Hset.
  assert (Hgoal : forall (data3 : dict) (columns3 : row),
    (forall k, k <> "email_visibility" -> k <> "verified" -> dict_get k columns3 = dict_get k
       (match checked_email (item "email" data) with
        | inl e => dict_set "email" (Plain (PStr e)) columns' | inr _ => columns' end)) ->
    post (S := list effect) (E := write_exn) (mret (data3, columns3, match checked_email (item "email" data) with
                                | inl _ => errs | inr (code, m) => set_error "email" code m errs end)) t'
      (fun '(data', columns', errs) _ => dict_get "id" columns' = dict_get "id" columns /\
         (errs = [] -> auth_ready data columns')) (fun (_ : write_exn) _ => True)).
  { intros data3 columns3 Hk. unfold post. cbn [mret stm_ret]. destruct (checked_email _) as [e|[code m]] eqn:Ee.
    - rewrite Hk, dict_get_set_ne by done. split; [done|]. intros E.
      destruct (Hpw E) as (Ht & n & Hn & H8 & Hc), (Hset' E) as (t1 & h & Hh & Hg).
      exists n, h, t1, e. split_and!; try done; (rewrite Hk; [|done..]); [by rewrite dict_get_set_ne|apply dict_get_set_eq].
    - rewrite Hk by done. split; [done|]. intros E. by destruct (dict_set_not_nil _ _ _ E). }
  destruct (String.eqb _ _); [by apply Hgoal|].
  set (cols := match checked_email _ with inl _ => _ | inr _ => _ end) in *.
  destruct (create_flag "verified" _) as [data4 columns4] eqn:E4. apply Hgoal. intros k H1 H2.
  change columns4 with (data4, columns4).2. rewrite <- E4. by apply create_flags_columns.
Qed.

(** ** The whole of [create_record] *)
Definition is_auth (c : Collection) : bool := String.eqb (_collection_type c) "auth".
(** The columns of the statement, from the data the uploads left. *)
Record created_columns (c : Collection) (schema_fields : list FieldDefinition) (data : dict) (start columns : row)
    (t : list effect) : Prop := {
  cc_data : exists data', held (field_map schema_fields) data' t /\
    forall f, f ∈ schema_fields -> own_column (is_auth c) f = true ->
      exists v, dict_get (name f) columns = Some v /\ column_of data' f v;
  cc_id : "id" ∉ name <$> schema_fields -> dict_get "id" columns = dict_get "id" start;
  cc_auth : is_auth c = true -> "password_hash" ∉ name <$> schema_fields -> auth_ready data columns;
  cc_email : is_auth c = true -> forall e, dict_get "email" columns = Some e ->
    exists t1, email_taken t1 (table_name c) e None = Ok false;
}.
Lemma held_asked fields data t n : held fields data t -> held fields data (t ++ replicate n EAsked).
Proof.
  intros H f names [Hin|Hin]%elem_of_app; [by eapply H|]. by apply elem_of_replicate in Hin as [? _].
Qed.
Lemma asked_pending t : Forall (eq EAsked) t -> pending [] t /\ forall f names, ESaved f names ∉ t.
Proof.
  intros H. assert (t = replicate (length t) EAsked) as ->.
  { induction H as [|x t <- _ IH]; [done|]. cbn. by f_equal. }
  destruct (asked_none (length t)) as (? & ? & ?). split; [done|]. by intros f names [? _]%elem_of_replicate.
Qed.
Lemma email_not_own f : own_column true f = true -> name f <> "email".
Proof.
  unfold own_column. intros [_ H]%negb_true_iff%orb_false_iff E. rewrite E in H. by cbn in H.
Qed.

Lemma create_columns_post c schema_fields record_id data start files t : storage_names ->
  Forall (eq EAsked) t -> NoDup files.*1 -> NoDup (name <$> schema_fields) ->
  post (create_columns c schema_fields record_id data start files) t
    (fun ready t' => pending ready.2 t' /\ created_columns c schema_fields data start ready.1 t') gave_up.
Proof.
  intros Hlaw Ht Hfiles Hnames. unfold create_columns. fold (is_auth c).
  assert (Hprep : post (if is_auth c then create_auth c data start else mret (data, start, [])) t
    (fun '(_, columns, errs) t' => Forall (eq EAsked) t' /\ dict_get "id" columns = dict_get "id" start /\
       (errs = [] -> is_auth c = true -> auth_ready data columns)) gave_up).
  { destruct (is_auth c); [|by split_and!]. pose proof (create_auth_post c data start t) as Ha.
    pose proof (quiet_create_auth c data start t) as Hq. unfold post in *.
    destruct (create_auth c data start t) as [[[[data' columns] errs]|e] t']; cbn in Hq; destruct Hq as [n ->].
    - destruct Ha as [Hid Ha]. split_and!; [|done|by intros ? _; apply Ha].
      apply Forall_app. split; [done|]. by apply Forall_replicate.
    - apply pending_gave_up, pending_asked. by apply asked_pending. }
  apply post_bind. eapply post_conseq; [exact Hprep| |done]. clear Hprep. intros [[data1 cols1] errs1] t1 (Ht1 & Hid & Hauth).
  destruct (asked_pending t1 Ht1) as [Hp1 Hno]. apply post_bind.
  eapply post_conseq; [apply create_uploads_post; try done| |done]; [by intros f names ?%Hno..|]. cbv beta.
  intros u t2 (Hp2 & Hheld & Herr2). apply post_bind, cleaning_up_post; [apply quiet_with_field|done|].
  intros [cols3 errs3] t3 Hfold Hp3. apply post_bind. eapply post_conseq; [by apply raise_errors_post| |done].
  intros _ t4 [-> ->]. unfold with_field in Hfold. injection Hfold as Hfold <-.
  destruct (fold_result _ _ _) as [[cols errs]|] eqn:Ef; [|done]. injection Hfold as -> ->.
  destruct (create_columns_fold _ _ _ _ _ _ Ef Hnames) as (He & Hown & Hkeep).
  specialize (Hauth (Herr2 He)). apply post_bind.
  assert (Hunique : post (if is_auth c then unique_email c record_id (dict_get "email" cols3) None (u_saved u) else mret tt) t2
    (fun _ t' => pending (u_saved u) t' /\ (exists n, t' = t2 ++ replicate n EAsked) /\ (is_auth c = true ->
       forall e, dict_get "email" cols3 = Some e -> exists t1, email_taken t1 (table_name c) e None = Ok false)) gave_up).
  { destruct (is_auth c).
    - eapply post_conseq; [by apply unique_email_post| |done]. intros _ t' (? & ? & Hu). split_and!; [done..|].
      intros _ e Hg. exists t2. by apply Hu.
    - split_and!; [done| |done]. exists 0. by rewrite app_nil_r. }
  eapply post_conseq; [exact Hunique| |done]. clear Hunique. intros _ t3 (Hp & [n ->] & Hu). split; [done|]. cbn [fst]. split.
  - exists (u_data u). split; [by apply held_asked|done].
  - intros Hid'. rewrite Hkeep; [done|]. intros f Hf _ E. apply Hid'. rewrite <- E. by apply list_elem_of_fmap_2.
  - intros Ha Hpw. destruct (Hauth Ha) as (k & h & t0 & e & (? & ? & ? & ?) & ? & Hph & ? & Hem). exists k, h, t0, e.
    split_and!; try done; (rewrite Hkeep; [done|]); intros f Hf Hf'.
    + intros E. apply Hpw. rewrite <- E. by apply list_elem_of_fmap_2.
    + rewrite Ha in Hf'. by apply email_not_own.
  - done.
Qed.

Lemma write_record_post c record_id action sql params saved t : pending saved t ->
  post (write_record c record_id action sql params saved) t
    (fun _ t' => exists payload, t' = t ++ [EWrite sql params payload Committed])
    (fun e t' => gave_up e t' \/ exists payload e', t' = t ++ [EWrite sql params payload (CommitFailed e')]).
Proof.
  intros Ht. unfold post, write_record. set (payload := notify_payload _ _ _). destruct (execute_write _ _ _ _) as [|e|e] eqn:Ea.
  - by exists payload.
  - destruct (is_exception e) eqn:He.
    + pose proof (cleanup_post (A := unit) c record_id saved e (t ++ [EWrite sql params payload (WriteError e)]) t Ht) as H.
      unfold post in H. destruct (cleanup_and_raise _ _ _ _ _) as [[a|e'] t'].
      * destruct H. right. by eexists.
      * left. apply H. right. by eexists.
    + left. destruct (not_written t) as [Hw Hd]; [by apply Ht|]. unfold gave_up.
      rewrite wrote_app, deleted_of_app, Hw, Hd, He. done.
  - right. by exists payload, e.
Qed.
(** The id of a row is a fresh one, or the client's when it is a component
    of a path of at most 15 characters. *)
Definition accepted_id (data : dict) (id : string) : Prop :=
  (exists t, id = fresh_id t) \/ (item "id" data = PStr id /\ component id /\ String.length id <= 15).
Record stored_row (c : Collection) (schema_fields : list FieldDefinition) (data : dict) (sql : string) (params : row)
    (t : list effect) : Prop := {
  sr_sql : sql = insert_sql c params;
  sr_trace : exists t0 saved payload a rest start id, t = t0 ++ [EWrite sql params payload a] ++ rest /\
    may_be_stored (EWrite sql params payload a) = true /\ Forall (eq EAsked) rest /\ pending saved t0 /\
    dict_get "id" start = Some (Plain (PStr id)) /\ accepted_id data id /\
    created_columns c schema_fields (dict_del "id" data) start params t0;
}.
Lemma new_record_id_post data t : Forall (eq EAsked) t -> post (new_record_id (item "id" data)) t
  (fun id t' => Forall (eq EAsked) t' /\ accepted_id data id) gave_up.
Proof.
  intros Ht. assert (Hg : forall e, gave_up e t) by (intros e; apply pending_gave_up; by apply asked_pending).
  assert (Hf : Forall (eq EAsked) (t ++ [EAsked]) /\ accepted_id data (fresh_id t)).
  { split; [|left; by exists t]. apply Forall_app. split; [done|by constructor]. }
  assert (Hv : post (fun t => (match validate_record_id (item "id" data) with Ok s => Ok s | Err _ => Err bad_record_id end, t)) t
    (fun id t' => Forall (eq EAsked) t' /\ accepted_id data id) gave_up).
  { unfold post. destruct (validate_record_id _) as [s|] eqn:E; [|apply Hg].
    apply single_component_ok in E as (Ei & Hc & Hl & _). split; [done|]. right. split_and!; [done..|].
    by apply (Hl _ eq_refl). }
  unfold post, new_record_id in *. destruct (item "id" data) as [| | | |s| |]; try exact Hv; [exact Hf|].
  destruct s as [|a s]; [exact Hf|exact Hv].
Qed.

Lemma create_record_post c schema_fields data files : storage_names -> _get_schema_fields c = Ok schema_fields ->
  NoDup files.*1 -> NoDup (name <$> schema_fields) ->
  post (create_record c data files) [] (fun _ t => exists sql params, stored_row c schema_fields data sql params t)
    (fun e t => gave_up e t \/ exists sql params, stored_row c schema_fields data sql params t).
Proof.
  intros Hlaw Hs Hfiles Hnames. unfold create_record. apply post_bind. unfold post at 1, with_field. rewrite Hs.
  apply post_bind. unfold post at 1, ask_now. cbn [app].
  apply post_bind. eapply post_conseq; [apply new_record_id_post; by constructor| |by left].
  intros id t (Ht & Hid). apply post_bind. eapply post_conseq; [by apply create_columns_post| |by left].
  intros [columns saved] t0 [Hp Hc]. apply post_bind. cbn [fst snd] in *.
  assert (Hstored : forall payload a, may_be_stored (EWrite (insert_sql c columns) columns payload a) = true ->
    forall rest, Forall (eq EAsked) rest ->
    exists sql params, stored_row c schema_fields data sql params (t0 ++ [EWrite (insert_sql c columns) columns payload a] ++ rest)).
  { intros payload a Ha rest Hr. exists (insert_sql c columns), columns. split; [done|].
    do 7 eexists. split_and!; [done..| |done|done]. reflexivity. }
  eapply post_conseq; [by apply write_record_post| |].
  - intros _ t1 [payload ->]. apply post_bind. unfold post, reread. rewrite <- app_assoc.
    assert (Forall (eq EAsked) [EAsked]) as Ha by by constructor.
    destruct (fetch_row _ _ _) as [found|e]; [|right; by apply Hstored].
    unfold with_field. destruct (get_record _ _ _ _); [|right; by apply Hstored]. by apply Hstored.
  - intros e t1 [Hg|(payload & e' & ->)]; [by left|]. right.
    by apply (Hstored payload (CommitFailed e') eq_refl []).
Qed.
End Writing.

(** ** What [create_record] guarantees *)

(** No upload of a new record is lost: when the statement may be stored
    (committed, or the commit failed ambiguously), nothing that was saved is
    removed and each file column of the statement holds exactly the names that
    were saved for it; when it is not stored, [create_record] raises, and on
    every exception that is not a cancellation every saved upload was handed
    to the cleanup. *)
Theorem create_uploads_accounted (env : RecordEnv) c schema_fields data files r t
  (Hlaw : storage_names) (Hschema : _get_schema_fields c = Ok schema_fields)
  (Hfiles : NoDup files.*1) (Hnames : NoDup (name <$> schema_fields))
  (Hstore : forall f, f ∈ schema_fields -> type f = FILE -> stores_uploads (is_auth c) f)
  (Hrun : create_record c data files [] = (r, t)) :
  (wrote t = true -> cleaned_of t = [] /\ exists sql params payload a, EWrite sql params payload a ∈ t /\
     forall f names, ESaved f names ∈ t -> exists v, dict_get f params = Some v /\ reference_list v = names) /\
  (wrote t = false -> exists e, r = Err e /\ (is_exception e = true -> saved_of t ⊆ cleaned_of t)).
Proof.
  assert (Hsaved : forall sql params, stored_row c schema_fields data sql params t -> wrote t = true /\ cleaned_of t = [] /\
    exists sql params payload a, EWrite sql params payload a ∈ t /\
     forall f names, ESaved f names ∈ t -> exists v, dict_get f params = Some v /\ reference_list v = names).
  { intros sql params [_ (t0 & saved & payload & a & rest & start & id & -> & Ha & Hr & Hp & _ & _ & [[data' [Hh Hown]] _ _ _])].
    destruct (asked_pending rest Hr) as [(_ & Hc & _) Hno]. split_and!.
    - rewrite !wrote_app. cbn -[may_be_stored]. rewrite Ha. by rewrite orb_true_r.
    - rewrite !cleaned_of_app, Hc, (proj1 (proj2 Hp)). done.
    - exists sql, params, payload, a. split; [apply elem_of_app; right; by left|].
      intros f names [Hin|[[=]|Hin%Hno]%elem_of_cons]%elem_of_app; [|done].
      destruct (Hh _ _ Hin) as (fd & Hfd & Hty & Hok & Hg). 
      destruct (field_map_elem _ _ _ Hfd) as [Hin' <-].
      destruct (Hstore fd Hin' Hty) as (Ho & n & Hn & Hn1). destruct (Hown fd Hin' Ho) as (v & Hv & Hcol).
      exists v. split; [done|]. by eapply file_column. }
  pose proof (post_run _ _ _ _ _ _ (create_record_post c schema_fields data files Hlaw Hschema Hfiles Hnames) Hrun) as H.
  destruct r as [a|e].
  - destruct H as (sql & params & H). destruct (Hsaved _ _ H) as (Hw & ?). split; [done|]. by rewrite Hw.
  - destruct H as [(Hw & _ & Hg)|(sql & params & H)].
    + rewrite Hw. split; [done|]. intros _. by exists e.
    + destruct (Hsaved _ _ H) as (Hw & ?). split; [done|]. by rewrite Hw.
Qed.

(** C7: Every row that [create_record] may have stored: its id is a fresh one
    or a client's id that is one component of a path; each column of the
    schema is a value that conforms to its field, in the form PostgreSQL is
    given; and the row of an auth record has a hash of the confirmed password
    of at least eight characters, and the posted e-mail, stripped, which has
    the form of a mail address and which no other record had
    when it was asked for. A schema with a field named [id] or [password_hash]
    is excepted from what is said of that column. *)
Theorem created_row_valid (env : RecordEnv) c schema_fields data files r t sql params payload a
  (Hrepr : forall f, float_repr f <> "") (Hlaw : storage_names) (Hschema : _get_schema_fields c = Ok schema_fields)
  (Hfiles : NoDup files.*1) (Hnames : NoDup (name <$> schema_fields))
  (Hrun : create_record c data files [] = (r, t))
  (Hwrite : EWrite sql params payload a ∈ t) (Hstored : may_be_stored (EWrite sql params payload a) = true) :
  sql = insert_sql c params /\
  ("id" ∉ name <$> schema_fields -> exists id, dict_get "id" params = Some (Plain (PStr id)) /\ accepted_id data id) /\
  (forall f, f ∈ schema_fields -> own_column (is_auth c) f = true ->
     exists v stored, dict_get (name f) params = Some v /\ conforms f stored /\ _serialize_for_pg stored f = Ok v) /\
  (is_auth c = true -> "password_hash" ∉ name <$> schema_fields -> auth_ready (dict_del "id" data) params /\
     exists e t1, dict_get "email" params = Some (Plain (PStr e)) /\ mail_address e /\ e = py_strip (py_str (item "email" data)) /\
       email_taken t1 (table_name c) (Plain (PStr e)) None = Ok false).
Proof.
  assert (Hrow : exists sql' params', stored_row c schema_fields data sql' params' t).
  { pose proof (post_run _ _ _ _ _ _ (create_record_post c schema_fields data files Hlaw Hschema Hfiles Hnames) Hrun) as H.
    destruct r as [x|e]; [done|]. destruct H as [[Hw _]|H]; [|done]. exfalso.
    assert (wrote t = true) by (apply existsb_exists; exists (EWrite sql params payload a); by rewrite <- list_elem_of_In).
    congruence. }
  destruct Hrow as (sql' & params' & [Hsql (t0 & saved & payload' & a' & rest & start & id & -> & _ & Hr & Hp & Hid & Hacc & Hc)]).
  assert (sql = sql' /\ params = params') as [-> ->].
  { apply elem_of_app in Hwrite as [Hin|[[= -> -> _ _]|Hin]%elem_of_cons]; [|done|].
    - destruct Hp as (_ & _ & Hw). rewrite Forall_forall in Hw. by specialize (Hw _ Hin).
    - rewrite Forall_forall in Hr. by specialize (Hr _ Hin). }
  destruct Hc as [[data' [_ Hown]] Hcid Hauth Hemail]. split_and!; [done| | |].
  - intros Hn. exists id. by rewrite Hcid.
  - intros f Hf Ho. destruct (Hown f Hf Ho) as (v & Hv & stored & Hval & Hser). exists v, stored. split_and!; [done| |done].
    by eapply validate_conforms.
  - intros Ha Hpw. specialize (Hauth Ha Hpw). split; [done|]. destruct Hauth as (_ & _ & _ & e & _ & _ & _ & Hc & He).
    destruct (Hemail Ha _ He) as [t1 Ht1]. apply checked_email_mail in Hc as [Hm Hs]. exists e, t1. split_and!; try done.
    by rewrite Hs, item_del_ne.
Qed.

(** ** A run *)
Definition demo_type (s : string) : FieldType := if String.eqb s "file" then FILE else TEXT.
(** A library that reads the name, the type and the options of a field. *)
Definition demo_write_lib : RecordLib := {|
  record_field_lib := demo_lib;
  build_field d := match dict_get "name" d, dict_get "type" d with
    | Some (PStr s), Some (PStr t) =>
        Ok (mkField "" s (demo_type t) false false false false (as_dict (default PNone (dict_get "options" d))))
    | _, _ => Err (PyException "ValidationError")
    end;
  set_order l := l;
|}.
(** Storage that keeps one upload as [up.txt], passwords hashed to [h], and a
    database that answers as told. *)
Definition demo_env (answer : write_answer) : RecordEnv := {|
  record_lib := demo_write_lib;
  utcnow _ := mkDatetime 0 (Some 0%Z);
  fresh_id _ := "abcdefghijklmno";
  hash_password _ _ := Ok "h";
  fresh_token_key _ := "k";
  guess_mime _ := Some "text/plain";
  save_files _ _ _ _ _ _ := Ok ["up.txt"];
  email_taken _ _ _ _ := Ok false;
  delete_stored _ _ _ _ := None;
  execute_write _ _ _ _ := answer;
  fetch_row _ _ _ := Ok None;
|}.
Definition demo_collection : Collection :=
  RequestMacros.mkCollection "c1" "users" "auth"
    [[("name", PStr "nickname"); ("type", PStr "text")]; [("name", PStr "avatar"); ("type", PStr "file")]] PNone.
Definition demo_fields : list FieldDefinition :=
  [mkField "" "nickname" TEXT false false false false []; mkField "" "avatar" FILE false false false false []].
Definition demo_data : dict :=
  [("password", PStr "12345678"); ("passwordConfirm", PStr "12345678"); ("email", PStr "a@b.c"); ("nickname", PStr "Al")].
Definition demo_files : list (string * uploads) := [("avatar", [("a.txt", [])])].
Definition demo_run (answer : write_answer) : result write_exn row * list effect :=
  @create_record (demo_env answer) demo_collection demo_data demo_files [].

Lemma demo_storage answer : @storage_names (demo_env answer).
Proof. intros t cid rid f fl ms names [= <-]. split; [by constructor|cbn; lia]. Qed.
Lemma demo_schema answer : @_get_schema_fields (@record_lib (demo_env answer)) demo_collection = Ok demo_fields.
Proof. vm_compute. reflexivity. Qed.
Lemma demo_stores : forall f, f ∈ demo_fields -> type f = FILE -> stores_uploads (is_auth demo_collection) f.
Proof.
  intros f [->|[->|?%elem_of_nil]%elem_of_cons]%elem_of_cons; [done| |done]. intros _.
  split; [reflexivity|]. exists 1%Z. by split.
Qed.

(** An insert that the database refuses: the upload is cleaned up. *)
Lemma create_uploads_accounted_witness :
  (wrote (demo_run (WriteError (WriteFailed "IntegrityError"))).2 = false -> exists e,
     (demo_run (WriteError (WriteFailed "IntegrityError"))).1 = Err e /\
     (is_exception e = true -> saved_of (demo_run (WriteError (WriteFailed "IntegrityError"))).2
        ⊆ cleaned_of (demo_run (WriteError (WriteFailed "IntegrityError"))).2)) /\
  saved_of (demo_run (WriteError (WriteFailed "IntegrityError"))).2 = ["up.txt"].
Proof.
  split; [|vm_compute; reflexivity].
  refine (proj2 (create_uploads_accounted (demo_env (WriteError (WriteFailed "IntegrityError"))) demo_collection demo_fields
    demo_data demo_files _ _ (demo_storage _) (demo_schema _) _ _ demo_stores _)).
  - decided.
  - decided.
  - vm_compute. reflexivity.
Defined.

Definition demo_params : row :=
  [("id", Plain (PStr "abcdefghijklmno")); ("created", Datetime (mkDatetime 0 (Some 0%Z)));
   ("updated", Datetime (mkDatetime 0 (Some 0%Z))); ("password_hash", Plain (PStr "h")); ("token_key", Plain (PStr "k"));
   ("email", Plain (PStr "a@b.c")); ("email_visibility", Plain (PBool false)); ("verified", Plain (PBool false));
   ("nickname", Plain (PStr "Al")); ("avatar", Plain (PStr "up.txt"))].
Lemma created_row_valid_witness :
  dict_get "avatar" demo_params = Some (Plain (PStr "up.txt")) /\
  (forall f, f ∈ demo_fields -> own_column (is_auth demo_collection) f = true ->
     exists v stored, dict_get (name f) demo_params = Some v /\
       @conforms (@record_field_lib (@record_lib (demo_env Committed))) f stored /\
       @_serialize_for_pg (demo_env Committed) stored f = Ok v).
Proof.
  split; [reflexivity|].
  refine (proj1 (proj2 (proj2 (created_row_valid (demo_env Committed) demo_collection demo_fields demo_data demo_files
    _ _ (@insert_sql demo_collection demo_params) demo_params
    (@notify_payload (demo_env Committed) demo_collection "abcdefghijklmno" "create") Committed
    _ (demo_storage _) (demo_schema _) _ _ _ _ _)))).
  - done.
  - decided.
  - decided.
  - vm_compute. reflexivity.
  - unshelve eapply list_elem_of_In. vm_compute. tauto.
  - reflexivity.
Defined.
