(* ===== verification/RecordUpdate.v ===== *)
(** * Updating a record (ppbase/services/record_service.py, [update_record])

    The body's values and modifiers ([field+], [+field], [field-]) and the
    uploads are applied to the state of the fields in the row; what changed is
    validated and written, and the files the row no longer names are deleted
    after the commit.  A date of the row inside a list (a modifier on a date
    field, which no list can satisfy) is kept as its text. *)
From Stdlib Require Import Ascii String SpecFloat.
From Stdlib.Strings Require Import Byte.
From S2P Require Import Prelude PyText PyVal StorageSafety FieldTypes RecordResponse RecordWrite.
From S2P Require RequestMacros.
#[local] Open Scope string_scope.
#[local] Open Scope list_scope.

Inductive modifier : Type := Append | Prepend | Remove.
Definition _parse_modifier_key (key : string) : string * option modifier :=
  if starts_with "+" key then (str_drop 1 key, Some Prepend)
  else if ends_with "+" key then (str_take (String.length key - 1) key, Some Append)
  else if ends_with "-" key then (str_take (String.length key - 1) key, Some Remove)
  else (key, None).

Section Updating.
Context {env : RecordEnv}.

(** ** Modifiers *)
Definition element (v : value) : pyval := match v with Plain p => p | Datetime d => PStr (datetime_str d) end.
Definition _coerce_modifier_values (v : value) : list pyval :=
  match v with
  | Plain (PList l) => l
  | Plain PNone | Plain (PStr "") => []
  | _ => [element v]
  end.
Definition modifier_values (v : pyval) : list pyval := match v with PList l => l | PNone => [] | _ => [v] end.
Definition float_or_zero (v : value) : result field_exn spec_float :=
  if is_none v then Ok f_zero
  else match py_float v with Ok f => Ok f | Err e => Err (float_error e) end.
(** [cur op new] of a number field *)
Definition arithmetic (op : spec_float -> spec_float -> spec_float) (current : value) (new_values : pyval)
  : result field_exn value :=
  cur ← float_or_zero current;
  inc ← float_or_zero (Plain new_values);
  Ok (Plain (PFloat (op cur inc))).
Definition _apply_append (current : value) (new_values : pyval) (field_def : FieldDefinition) : result field_exn value :=
  if decide (type field_def = NUMBER) then arithmetic (SFadd 53 1024) current new_values
  else Ok (Plain (PList (_coerce_modifier_values current ++ modifier_values new_values))).
Definition _apply_prepend (current : value) (new_values : pyval) (field_def : FieldDefinition) : result field_exn value :=
  if decide (type field_def = NUMBER) then arithmetic (SFadd 53 1024) current new_values
  else Ok (Plain (PList (modifier_values new_values ++ _coerce_modifier_values current))).
Definition _apply_remove (current : value) (remove_values : pyval) (field_def : FieldDefinition) : result field_exn value :=
  if decide (type field_def = NUMBER) then arithmetic (SFsub 53 1024) current remove_values
  else
    let to_remove := py_str <$> modifier_values remove_values in
    Ok (Plain (PList (filter (fun v => in_list (py_str v) to_remove = false) (_coerce_modifier_values current)))).
Definition apply_modifier (m : option modifier) (current : value) (v : pyval) (field_def : FieldDefinition)
  : result field_exn value :=
  match m with
  | Some Append => _apply_append current v field_def
  | Some Prepend => _apply_prepend current v field_def
  | Some Remove => _apply_remove current v field_def
  | None => Ok (Plain v)
  end.

(** ** The state of the fields *)
Definition initial_state (fields : list (string * FieldDefinition)) (raw_row : row) : row :=
  (fun nf => (nf.1, column_or_none raw_row nf.1)) <$> filter (fun nf => type nf.2 <> AUTODATE) fields.
Definition apply_body (fields : list (string * FieldDefinition)) (field_state : row) (kv : string * pyval)
  : result field_exn row :=
  if String.eqb kv.1 "id" then Ok field_state
  else
    let '(field_name, m) := _parse_modifier_key kv.1 in
    match dict_get field_name fields with
    | Some field_def =>
        if decide (type field_def = AUTODATE) then Ok field_state
        else v ← apply_modifier m (column_or_none field_state field_name) kv.2 field_def;
             Ok (dict_set field_name v field_state)
    | None => Ok field_state
    end.

Definition _raw_file_list (v : value) : list string := reference_list v.
Definition _coerce_file_value (field_def : FieldDefinition) (values : list string) : result field_exn value :=
  is_multi ← int_lt 1 (max_select field_def);
  Ok (if is_multi : bool then strs values else Plain (PStr (List.last values ""))).
Definition upload_value (m : option modifier) (current : value) (saved_names : list string) (field_def : FieldDefinition)
  : result field_exn value :=
  match m with
  | Some Append => _apply_append current (PList (PStr <$> saved_names)) field_def
  | Some Prepend => _apply_prepend current (PList (PStr <$> saved_names)) field_def
  | _ => _coerce_file_value field_def saved_names
  end.

Record updating : Type := mkUpdating { p_state : row; p_errors : errors; p_saved : list string }.
Definition update_upload (c : Collection) (record_id : string) (fields : list (string * FieldDefinition))
    (p : updating) (entry : string * uploads) : W updating :=
  let '(field_name, m) := _parse_modifier_key entry.1 in
  match dict_get field_name fields with
  | Some field_def =>
      if decide (type field_def = FILE) then
        checked ← with_field (fold_result (check_upload field_def) entry.2 (p_errors p, false));
        let '(errs, upload_has_error) := checked in
        if upload_has_error : bool then mret (mkUpdating (p_state p) errs (p_saved p))
        else
          saved_names ← save_uploads c record_id field_name entry.2 (max_select field_def) (p_saved p);
          let saved := p_saved p ++ saved_names in
          v ← cleaning_up c record_id saved
                (with_field (upload_value m (column_or_none (p_state p) field_name) saved_names field_def));
          mret (mkUpdating (dict_set field_name v (p_state p)) errs saved)
      else mret p
  | None => mret p
  end.

(** ** What changed *)
Record changes : Type := mkChanges { ch_updates : row; ch_errors : errors; ch_delete : list string }.
Definition change_field (fields : list (string * FieldDefinition)) (raw_row : row) (ch : changes) (kv : string * value)
  : result field_exn changes :=
  let '(field_name, v) := kv in
  match dict_get field_name fields with
  | Some field_def =>
      let raw_current := column_or_none raw_row field_name in
      if bool_decide (type field_def = AUTODATE) || value_eqb v raw_current then Ok ch
      else
        match validated ← validate_field_value field_def v;
              serialized ← _serialize_for_pg validated field_def;
              Ok (validated, serialized) with
        | Ok (validated, serialized) =>
            let removed :=
              if decide (type field_def = FILE)
              then set_order (filter (fun n => n ∉ _raw_file_list validated) (remove_dups (_raw_file_list raw_current)))
              else [] in
            Ok (mkChanges (dict_set field_name serialized (ch_updates ch)) (ch_errors ch) (ch_delete ch ++ removed))
        | Err (FieldValidationError f code m) => Ok (mkChanges (ch_updates ch) (set_error f code m (ch_errors ch)) (ch_delete ch))
        | Err e => Err e
        end
  | None => Ok ch
  end.

(** ** The columns of an auth record *)
Definition update_password (password confirm : pyval) (updates : row) : W (row * errors) :=
  match password with
  | PNone => mret (updates, [])
  | _ =>
      errs ← with_field (password_errors password confirm);
      match errs with
      | [] => updates ← set_password password updates; mret (updates, [])
      | _ => mret (updates, errs)
      end
  end.
Definition update_email (data : dict) (updates : row) (errs : errors) : row * errors :=
  match dict_get "email" data with
  | None => (updates, errs)
  | Some email_val =>
      match checked_email email_val with
      | inl e => (dict_set "email" (Plain (PStr e)) updates, errs)
      | inr (code, m) => (updates, set_error "email" code m errs)
      end
  end.
(** A flag of the body, under the first of the keys it has. *)
Definition update_flag (column : string) (keys : list string) (acc : dict * row) : dict * row :=
  match filter (fun k => dict_mem k acc.1 = true) keys with
  | k :: _ => (dict_del k acc.1, dict_set column (Plain (PBool (truthy (item k acc.1)))) acc.2)
  | [] => acc
  end.
Definition update_auth (c : Collection) (data : dict) (updates : row) : W (dict * row * errors) :=
  let data := without ["password_hash"; "token_key"] data in
  let password := item "password" data in
  let confirm := item "passwordConfirm" data in
  let data := without ["password"; "passwordConfirm"] data in
  changed ← update_password password confirm updates;
  let '(updates, errs) := update_email data changed.1 changed.2 in
  let data := dict_del "email" data in
  mret (if String.eqb (c_name c) "_superusers"
        then (without ["email_visibility"; "emailVisibility"; "verified"] data, updates, errs)
        else (update_flag "verified" ["verified"]
                (update_flag "email_visibility" ["email_visibility"; "emailVisibility"] (data, updates)), errs)).

(** ** [update_record] *)
Definition set_clauses (updates : row) : string :=
  join ", " ((fun k => quoted k +:+ " = :" +:+ k) <$> updates.*1).
Definition update_sql (c : Collection) (updates : row) : string :=
  "UPDATE " +:+ quoted (table_name c) +:+ " SET " +:+ set_clauses updates +:+ " WHERE " +:+ quoted "id" +:+ " = :_rec_id".
(** The e-mail to look for in the other records. *)
Definition changed_email (updates : row) : option value :=
  match dict_get "email" updates with Some v => if value_truthy v then Some v else None | None => None end.

(** From the row to the columns of the statement, the files to delete and the
    uploads. *)
Definition update_columns (c : Collection) (schema_fields : list FieldDefinition) (record_id : string) (raw_row : row)
    (data : dict) (updates : row) (files : list (string * uploads)) : W (row * list string * list string) :=
  let fields := field_map schema_fields in
  let is_auth := String.eqb (_collection_type c) "auth" in
  prepared ← (if is_auth then update_auth c data updates else mret (data, updates, []));
  let '(data, updates, errs) := prepared in
  state ← with_field (fold_result (apply_body fields) data (initial_state fields raw_row));
  p ← fold_uploads (update_upload c record_id fields) (mkUpdating state errs []) files;
  ch ← cleaning_up c record_id (p_saved p)
         (with_field (fold_result (change_field fields raw_row) (p_state p) (mkChanges updates (p_errors p) [])));
  _ ← raise_errors c record_id (p_saved p) (ch_errors ch);
  _ ← (if is_auth then unique_email c record_id (changed_email (ch_updates ch)) (Some record_id) (p_saved p) else mret tt);
  mret (ch_updates ch, ch_delete ch, p_saved p).

(** Deletion of the files the row no longer names; what it lets through is
    not a [StorageSafetyError]. *)
Definition delete_replaced (c : Collection) (record_id : string) (names : list string) : W unit := fun t =>
  match names with
  | [] => (Ok tt, t)
  | _ =>
      let r := match delete_stored t (c_id c) record_id names with
               | None | Some StorageUnsafe => Ok tt
               | Some OSError => Err (WriteFailed "OSError")
               | Some (OtherError e) => Err e
               end in
      (r, t ++ [EDeleteFiles names])
  end.

Definition update_record (c : Collection) (record_id : pyval) (data : dict) (files : list (string * uploads))
  : W (option row) :=
  record_id ← stm_lift (match validate_record_id record_id with
                        | Ok s => Ok s | Err _ => Err (WriteFailed "StorageSafetyError") end);
  schema_fields ← with_field (_get_schema_fields c);
  existing ← reread c record_id;
  match existing with
  | None => mret None
  | Some existing =>
      raw ← (fun t => (fetch_row t (table_name c) record_id, t ++ [EAsked]));
      now ← ask_now;
      ready ← update_columns c schema_fields record_id (default [] raw) data [("updated", Datetime now)] files;
      let '(updates, files_to_delete, saved) := ready in
      if (length updates <=? 1)%nat
      then _ ← _cleanup_new_storage_files c record_id saved; mret (Some existing)
      else
        _ ← write_record c record_id "update" (update_sql c updates)
              (dict_set "_rec_id" (Plain (PStr record_id)) updates) saved;
        _ ← delete_replaced c record_id files_to_delete;
        reread c record_id
  end.

(** ** What changed, as a specification *)
(** A field of the state that is written, with its column. *)
Definition written (fields : list (string * FieldDefinition)) (raw_row : row) (k : string) (v : value)
    (field_def : FieldDefinition) (col : value) : Prop :=
  dict_get k fields = Some field_def /\ type field_def <> AUTODATE /\ value_eqb v (column_or_none raw_row k) = false /\
  exists stored, validate_field_value field_def v = Ok stored /\ _serialize_for_pg stored field_def = Ok col.
Definition replaced (fields : list (string * FieldDefinition)) (raw_row : row) (k : string) (v : value) (n : string) : Prop :=
  exists field_def col, written fields raw_row k v field_def col /\ type field_def = FILE /\
    n ∈ reference_list (column_or_none raw_row k) /\ n ∉ reference_list col.
Definition set_law : Prop := forall l, set_order l ≡ₚ l.

Lemma file_serialized f v col : type f = FILE -> _serialize_for_pg v f = Ok col -> col = v.
Proof. intros H. unfold _serialize_for_pg. rewrite H. by intros [= ->]. Qed.
(** One field: the columns, the errors, the files. *)
Lemma change_field_spec fields raw_row ch k v ch' : set_law ->
  change_field fields raw_row ch (k, v) = Ok ch' -> ch_errors ch' = [] ->
  ch_errors ch = [] /\ (forall k', k' <> k -> dict_get k' (ch_updates ch') = dict_get k' (ch_updates ch)) /\
  (dict_get k (ch_updates ch') = dict_get k (ch_updates ch) /\ (forall f col, ~ written fields raw_row k v f col) \/
   exists f col, written fields raw_row k v f col /\ dict_get k (ch_updates ch') = Some col) /\
  (forall n, n ∈ ch_delete ch' <-> n ∈ ch_delete ch \/ replaced fields raw_row k v n).
Proof.
  intros Hset. cbn. destruct (dict_get k fields) as [f|] eqn:Ef.
  2:{ intros [= <-] ->. assert (Hno : forall f col, ~ written fields raw_row k v f col) by (intros f col [? _]; congruence).
      split_and!; [done..|by left|]. intros n. split; [by left|]. intros [?|(f & col & Hw & _)]; [done|by apply Hno in Hw]. }
  destruct (bool_decide (type f = AUTODATE) || _) eqn:Eskip.
  { intros [= <-] ->. assert (Hno : forall f col, ~ written fields raw_row k v f col).
    { intros g col (Hg & Hty & Hne & _). assert (g = f) as -> by congruence.
      by rewrite bool_decide_eq_false_2, Hne in Eskip. }
    split_and!; [done..|by left|]. intros n. split; [by left|]. intros [?|(g & col & Hw & _)]; [done|by apply Hno in Hw]. }
  apply orb_false_iff in Eskip as [Hty%bool_decide_eq_false Hne].
  destruct (validate_field_value f v) as [stored|[g code m|e]] eqn:Ev; cbn; [| |done].
  2:{ intros [= <-] E. by destruct (dict_set_not_nil _ _ _ E). }
  destruct (_serialize_for_pg stored f) as [col|[g code m|e]] eqn:Es; cbn; [| |done].
  2:{ intros [= <-] E. by destruct (dict_set_not_nil _ _ _ E). }
  intros [= <-] He. cbn in *. assert (Hw : written fields raw_row k v f col) by (split_and!; [done..|by exists stored]).
  split_and!; [done|intros k' Hk; by apply dict_get_set_ne| |].
  - right. exists f, col. split; [done|apply dict_get_set_eq].
  - intros n. rewrite elem_of_app. case_decide as Hfile.
    + rewrite (Hset _), list_elem_of_filter, elem_of_remove_dups. unfold _raw_file_list.
      apply file_serialized in Es as <-; [|done]. split; (intros [?|H]; [by left|right]).
      * exists f, col. by destruct H.
      * destruct H as (g & col' & (Hg & _ & _ & stored & Hv & Hs) & Hfile' & Hold & Hnew).
        assert (g = f) as -> by congruence. apply file_serialized in Hs as ->; [|done].
        assert (stored = col) as -> by congruence. done.
    + split; [intros [?|?%elem_of_nil]; [by left|done]|]. intros [?|(g & col' & (Hg & _) & Hfile' & _)]; [by left|congruence].
Qed.
Lemma change_fields_spec fields raw_row kvs ch ch' : set_law ->
  fold_result (change_field fields raw_row) kvs ch = Ok ch' -> ch_errors ch' = [] -> NoDup kvs.*1 ->
  ch_errors ch = [] /\ (forall k, k ∉ kvs.*1 -> dict_get k (ch_updates ch') = dict_get k (ch_updates ch)) /\
  (forall k v, (k, v) ∈ kvs ->
     dict_get k (ch_updates ch') = dict_get k (ch_updates ch) /\ (forall f col, ~ written fields raw_row k v f col) \/
     exists f col, written fields raw_row k v f col /\ dict_get k (ch_updates ch') = Some col) /\
  (forall n, n ∈ ch_delete ch' <-> n ∈ ch_delete ch \/ exists k v, (k, v) ∈ kvs /\ replaced fields raw_row k v n).
Proof.
  intros Hset. revert ch. induction kvs as [|[k v] kvs IH]; intros ch; cbn [fold_result].
  { intros [= ->] -> _. split_and!; [done..|by intros ? ? ?%elem_of_nil|]. intros n. split; [by left|].
    intros [?|(k & v & ?%elem_of_nil & _)]; done. }
  destruct (change_field fields raw_row ch (k, v)) as [ch1|] eqn:E1; [|done]. intros H He (Hnew & Hnd)%NoDup_cons.
  destruct (IH _ H He Hnd) as (He1 & Hkeep & Hin & Hdel). clear IH H.
  destruct (change_field_spec _ _ _ _ _ _ Hset E1 He1) as (He0 & Hkeep1 & Hk & Hdel1). cbn [fst] in Hnew. split_and!; [done| | |].
  - intros k' [Hne Hk']%not_elem_of_cons. rewrite Hkeep by done. by apply Hkeep1.
  - intros k' v' [[= -> ->]|Hin']%elem_of_cons.
    + rewrite (Hkeep k Hnew). exact Hk.
    + rewrite <- (Hkeep1 k'); [by apply Hin|]. intros ->. apply Hnew. apply list_elem_of_fmap. by exists (k, v').
  - intros n. rewrite Hdel, Hdel1. split.
    + intros [[?|Hr]|(k' & v' & ? & ?)]; [by left| |]; right; [exists k, v; split; [by left|done]|].
      exists k', v'. split; [by right|done].
    + intros [?|(k' & v' & [[= -> ->]|Hin']%elem_of_cons & Hr)]; [left; by left|left; by right|]. right. by exists k', v'.
Qed.

(** ** The state keeps the fields of the schema as its keys *)
Definition state_ok (fields : list (string * FieldDefinition)) (st : row) : Prop := NoDup st.*1 /\ st.*1 ⊆ fields.*1.
Lemma field_map_nodup schema_fields : NoDup (field_map schema_fields).*1.
Proof.
  unfold field_map. assert (NoDup (@nil (string * FieldDefinition)).*1) as H by constructor. revert H.
  generalize (@nil (string * FieldDefinition)). induction schema_fields as [|f fs IH]; intros m Hm; [done|].
  cbn [fold_left]. by apply IH, dict_set_nodup.
Qed.
Lemma initial_state_ok fields raw_row : NoDup fields.*1 -> state_ok fields (initial_state fields raw_row).
Proof.
  intros Hf. unfold initial_state, state_ok. rewrite <- list_fmap_compose. cbn. split.
  - eapply sublist_NoDup; [exact Hf|]. apply fmap_sublist, sublist_filter.
  - intros k (nf & -> & [_ Hin]%list_elem_of_filter)%list_elem_of_fmap. by apply list_elem_of_fmap_2.
Qed.
Lemma state_ok_set fields st k f v : dict_get k fields = Some f -> state_ok fields st -> state_ok fields (dict_set k v st).
Proof.
  intros Hk [Hn Hs]. split; [by apply dict_set_nodup|]. intros k' [->|?]%dict_set_key_elem; [|by apply Hs].
  apply dict_get_elem in Hk. apply list_elem_of_fmap. by exists (k, f).
Qed.
Lemma apply_body_ok fields data st st' : fold_result (apply_body fields) data st = Ok st' -> state_ok fields st -> state_ok fields st'.
Proof.
  revert st. induction data as [|kv data IH]; intros st; cbn [fold_result]; [by intros [= ->]|].
  destruct (apply_body fields st kv) as [st1|] eqn:E; [|done]. intros H Hst. apply (IH _ H). clear IH H.
  unfold apply_body in E. destruct (String.eqb _ "id"); [by injection E as <-|].
  destruct (_parse_modifier_key kv.1) as [k m]. destruct (dict_get k fields) as [f|] eqn:Ef; [|by injection E as <-].
  case_decide; [by injection E as <-|]. bind_ok E as v Hv. injection E as <-. by eapply state_ok_set.
Qed.
Lemma update_upload_post c record_id fields p entry t : pending (p_saved p) t -> state_ok fields (p_state p) ->
  post (update_upload c record_id fields p entry) t
    (fun p' t' => pending (p_saved p') t' /\ state_ok fields (p_state p') /\ (p_errors p' = [] -> p_errors p = [])) gave_up.
Proof.
  intros Ht Hst. unfold update_upload. destruct (_parse_modifier_key entry.1) as [k m].
  destruct (dict_get k fields) as [f|] eqn:Ef; [|done]. case_decide; [|done].
  apply post_bind. unfold post at 1, with_field. destruct (check_upload_total f entry.2 (p_errors p, false)) as [[errs bad] Ec].
  rewrite Ec. pose proof (check_upload_errors _ _ _ _ _ _ Ec) as Herrs. destruct bad; [done|].
  apply post_bind. eapply post_conseq; [by apply save_uploads_post| |done]. intros names t' (_ & _ & Hp).
  apply post_bind, cleaning_up_post; [apply quiet_with_field|done|]. intros v t2 _ Hp2. split_and!; [done|by eapply state_ok_set|done].
Qed.
Lemma update_uploads_post c record_id fields p files t : pending (p_saved p) t -> state_ok fields (p_state p) ->
  post (fold_uploads (update_upload c record_id fields) p files) t
    (fun p' t' => pending (p_saved p') t' /\ state_ok fields (p_state p') /\ (p_errors p' = [] -> p_errors p = [])) gave_up.
Proof.
  revert p t. induction files as [|entry files IH]; intros p t Ht Hst; [done|]. cbn [fold_uploads]. apply post_bind.
  eapply post_conseq; [by apply update_upload_post| |done]. intros p1 t1 (Ht1 & Hst1 & He1).
  eapply post_conseq; [by apply IH| |done]. intros p2 t2 (? & ? & He2). split_and!; [done..|]. intros ?. by apply He1, He2.
Qed.

(** ** Credentials *)
Definition auth_columns : list string := ["password_hash"; "token_key"; "email"; "email_visibility"; "verified"].
(** A password that changes is confirmed, has eight characters and takes the
    token key with it; an e-mail that changes is valid. *)
Record auth_updates (data : dict) (updates : row) : Prop := {
  au_password : forall v, dict_get "password_hash" updates = Some v -> exists n h t1 t2,
    py_len (item "password" data) = Ok n /\ (8 <= n)%Z /\ py_eqb (item "passwordConfirm" data) (item "password" data) = true /\
    hash_password t1 (item "password" data) = Ok h /\ v = Plain (PStr h) /\
    dict_get "token_key" updates = Some (Plain (PStr (fresh_token_key t2)));
  au_email : forall v, dict_get "email" updates = Some v -> exists ev e,
    dict_get "email" data = Some ev /\ checked_email ev = inl e /\ v = Plain (PStr e);
}.
Lemma get_without k keys (data : dict) : k ∉ keys -> dict_get k (without keys data) = dict_get k data.
Proof.
  revert data. induction keys as [|k' keys IH]; intros data Hk; [done|].
  apply not_elem_of_cons in Hk as [Hne Hk]. change (dict_get k (without keys (dict_del k' data)) = dict_get k data).
  rewrite IH by done. by rewrite dict_get_del_ne.
Qed.
Lemma update_flag_get column keys data updates k : k <> column ->
  dict_get k (update_flag column keys (data, updates)).2 = dict_get k updates.
Proof. intros Hk. unfold update_flag. destruct (filter _ _); cbn; [done|]. by rewrite dict_get_set_ne. Qed.
Lemma update_flags_get data updates k : k <> "email_visibility" -> k <> "verified" ->
  dict_get k (update_flag "verified" ["verified"]
    (update_flag "email_visibility" ["email_visibility"; "emailVisibility"] (data, updates))).2 = dict_get k updates.
Proof.
  intros H1 H2. destruct (update_flag "email_visibility" _ _) as [data' updates'] eqn:E. rewrite update_flag_get by done.
  change updates' with (data', updates').2. rewrite <- E. by apply update_flag_get.
Qed.
Lemma quiet_update_auth c data updates : quiet (update_auth c data updates).
Proof.
  unfold update_auth. apply quiet_bind; [|intros ?; destruct (update_email _ _ _); apply quiet_ret].
  assert (H : quiet (errs ← with_field (password_errors (item "password" (without ["password_hash"; "token_key"] data))
              (item "passwordConfirm" (without ["password_hash"; "token_key"] data)));
            match errs with
            | [] => updates ← set_password (item "password" (without ["password_hash"; "token_key"] data)) updates; mret (updates, [])
            | _ => mret (updates, errs)
            end)).
  { apply quiet_bind; [apply quiet_with_field|]. intros [|]; [|apply quiet_ret]. apply quiet_bind; [|intros ?; apply quiet_ret].
    intros t. unfold set_password. destruct (hash_password _ _); [by exists 2|by exists 1]. }
  unfold update_password. by destruct (item "password" (without _ data)) eqn:E; [apply quiet_ret|..].
Qed.

Lemma update_password_post password confirm updates t : dict_get "password_hash" updates = None ->
  post (update_password password confirm updates) t (fun out _ =>
    (forall k, k ∉ ["password_hash"; "token_key"] -> dict_get k out.1 = dict_get k updates) /\
    forall v, dict_get "password_hash" out.1 = Some v -> exists n h t1 t2,
      py_len password = Ok n /\ (8 <= n)%Z /\ py_eqb confirm password = true /\
      hash_password t1 password = Ok h /\ v = Plain (PStr h) /\
      dict_get "token_key" out.1 = Some (Plain (PStr (fresh_token_key t2)))) (fun _ _ => True).
Proof.
  intros Hnone. assert (Hsame : forall errs : errors, (forall k, k ∉ ["password_hash"; "token_key"] ->
      dict_get k (updates, errs).1 = dict_get k updates) /\ forall v, dict_get "password_hash" (updates, errs).1 = Some v ->
      exists n h t1 t2, py_len password = Ok n /\ (8 <= n)%Z /\ py_eqb confirm password = true /\
      hash_password t1 password = Ok h /\ v = Plain (PStr h) /\
      dict_get "token_key" (updates, errs).1 = Some (Plain (PStr (fresh_token_key t2)))).
  { intros errs. cbn. rewrite Hnone. by split. }
  unfold update_password. destruct password eqn:Epw; [apply Hsame|..]; rewrite <- Epw in *; clear Epw;
    (apply post_bind; unfold post at 1, with_field; destruct (password_errors password confirm) as [errs|] eqn:Ee; [|done];
     destruct errs as [|err errs]; [|apply Hsame]; destruct (password_errors_ok _ _ _ Ee eq_refl) as (n & Hn & H8 & Hc);
     apply post_bind; unfold post at 1, set_password; destruct (hash_password t password) as [h|] eqn:Eh; [|done]; split;
     [intros k Hk; cbn [fst]; rewrite !dict_get_set_ne; [done| |]; intros <-; apply Hk; set_solver|];
     cbn [fst]; intros v; rewrite dict_get_set_ne, dict_get_set_eq by done; intros [= <-];
     exists n, h, t, (t ++ [EAsked]); split_and!; try done; apply dict_get_set_eq).
Qed.
Lemma update_email_get data updates errs k : k <> "email" -> dict_get k (update_email data updates errs).1 = dict_get k updates.
Proof.
  intros Hk. unfold update_email. destruct (dict_get "email" data) as [ev|]; [|done].
  destruct (checked_email ev) as [e|[code m]]; cbn; [|done]. by rewrite dict_get_set_ne.
Qed.
Lemma update_email_spec data updates errs v : dict_get "email" updates = None ->
  dict_get "email" (update_email data updates errs).1 = Some v ->
  exists ev e, dict_get "email" data = Some ev /\ checked_email ev = inl e /\ v = Plain (PStr e).
Proof.
  intros Hnone. unfold update_email. destruct (dict_get "email" data) as [ev|]; cbn [fst]; [|congruence].
  destruct (checked_email ev) as [e|[code m]] eqn:E; cbn [fst]; [|congruence]. rewrite dict_get_set_eq. intros [= <-]. by exists ev, e.
Qed.
Lemma update_auth_post c data updates t : dict_get "password_hash" updates = None -> dict_get "email" updates = None ->
  post (update_auth c data updates) t (fun '(_, updates', _) _ =>
    (forall k, k ∉ auth_columns -> dict_get k updates' = dict_get k updates) /\ auth_updates data updates') (fun _ _ => True).
Proof.
  intros Hnp Hne. unfold update_auth. rewrite !item_without by decided. apply post_bind.
  eapply post_conseq; [by apply update_password_post| |done]. cbv beta. intros [upd errs] t' (Hkeep & Hpw). cbn [fst snd] in *.
  set (data2 := without ["password"; "passwordConfirm"] (without ["password_hash"; "token_key"] data)).
  assert (Hem : forall v, dict_get "email" (update_email data2 upd errs).1 = Some v -> exists ev e,
    dict_get "email" data = Some ev /\ checked_email ev = inl e /\ v = Plain (PStr e)).
  { intros v Hv. apply update_email_spec in Hv; [|rewrite Hkeep by decided; done]. unfold data2 in Hv.
    by rewrite !get_without in Hv by decided. }
  pose proof (fun k => update_email_get data2 upd errs k) as Heg. destruct (update_email data2 upd errs) as [upd2 errs2]. cbn [fst] in *.
  assert (Hgoal : forall upd3, (forall k, k <> "email_visibility" -> k <> "verified" -> dict_get k upd3 = dict_get k upd2) ->
    (forall k, k ∉ auth_columns -> dict_get k upd3 = dict_get k updates) /\ auth_updates data upd3).
  { intros upd3 H3. split; [|split].
    - intros k Hk. unfold auth_columns in Hk. rewrite H3, Heg, Hkeep; [done|set_solver..].
    - intros v. rewrite !H3, !Heg by done. apply Hpw.
    - intros v. rewrite H3 by done. apply Hem. }
  destruct (String.eqb _ _); [by apply Hgoal|]. destruct (update_flag "verified" _ _) as [d4 upd4] eqn:E4. unfold post. cbn.
  apply Hgoal. intros k H1 H2. change upd4 with (d4, upd4).2. rewrite <- E4. by apply update_flags_get.
Qed.

(** ** The whole of [update_record] *)
Record updated_columns (c : Collection) (schema_fields : list FieldDefinition) (record_id : string) (raw_row : row)
    (data : dict) (start updates : row) (deleted : list string) : Prop := {
  uc_state : exists st : row, st.*1 ⊆ (field_map schema_fields).*1 /\
    (forall k, k ∉ auth_columns \/ is_auth c = false -> k ∉ st.*1 -> dict_get k updates = dict_get k start) /\
    (forall k v, (k, v) ∈ st ->
       (exists f col, written (field_map schema_fields) raw_row k v f col /\ dict_get k updates = Some col) \/
       (forall f col, ~ written (field_map schema_fields) raw_row k v f col) /\
       (k ∉ auth_columns \/ is_auth c = false -> dict_get k updates = dict_get k start)) /\
    (forall n, n ∈ deleted <-> exists k v, (k, v) ∈ st /\ replaced (field_map schema_fields) raw_row k v n);
  uc_auth : is_auth c = true -> (forall k, k ∈ ["password_hash"; "token_key"; "email"] -> k ∉ name <$> schema_fields) ->
    auth_updates data updates;
  uc_email : is_auth c = true -> forall e, changed_email updates = Some e ->
    exists t1, email_taken t1 (table_name c) e (Some record_id) = Ok false;
}.
Lemma field_map_names schema_fields k : k ∈ (field_map schema_fields).*1 -> k ∈ name <$> schema_fields.
Proof.
  intros ([k' f] & -> & Hin)%list_elem_of_fmap. apply dict_get_nodup in Hin; [|apply field_map_nodup].
  apply field_map_elem in Hin as [Hin <-]. by apply (list_elem_of_fmap_2 name).
Qed.
Lemma field_map_get schema_fields f : NoDup (name <$> schema_fields) -> f ∈ schema_fields ->
  dict_get (name f) (field_map schema_fields) = Some f.
Proof.
  unfold field_map. generalize (@nil (string * FieldDefinition)).
  assert (Hkeep : forall fs m k, k ∉ name <$> fs -> dict_get k (fold_left (fun m f => dict_set (name f) f m) fs m) = dict_get k m).
  { induction fs as [|g fs IH]; intros m k Hk; [done|]. cbn [fold_left]. apply not_elem_of_cons in Hk as [Hne Hk].
    rewrite IH by done. by rewrite dict_get_set_ne. }
  induction schema_fields as [|g fs IH]; intros m Hn Hin; [by apply elem_of_nil in Hin|]. cbn [fold_left].
  apply NoDup_cons in Hn as [Hnew Hn]. apply elem_of_cons in Hin as [->|Hin]; [|by apply IH].
  rewrite Hkeep by done. apply dict_get_set_eq.
Qed.
Lemma update_columns_post c schema_fields record_id raw_row data start files t : set_law -> Forall (eq EAsked) t ->
  dict_get "password_hash" start = None -> dict_get "email" start = None ->
  post (update_columns c schema_fields record_id raw_row data start files) t
    (fun out t' => pending out.2 t' /\ updated_columns c schema_fields record_id raw_row data start out.1.1 out.1.2) gave_up.
Proof.
  intros Hset Ht Hnp Hne. unfold update_columns. fold (is_auth c). set (fields := field_map schema_fields).
  assert (Hprep : post (if is_auth c then update_auth c data start else mret (data, start, [])) t
    (fun '(_, upd, _) t' => Forall (eq EAsked) t' /\
       (forall k, k ∉ auth_columns \/ is_auth c = false -> dict_get k upd = dict_get k start) /\
       (is_auth c = true -> auth_updates data upd)) gave_up).
  { destruct (is_auth c); [|by split_and!]. pose proof (update_auth_post c data start t Hnp Hne) as Ha.
    pose proof (quiet_update_auth c data start t) as Hq. unfold post in *.
    destruct (update_auth c data start t) as [[[[data' upd] errs]|e] t']; cbn in Hq; destruct Hq as [n ->].
    - destruct Ha as [Hk Ha]. split_and!; [|intros k [?|?]; [by apply Hk|done]|done].
      apply Forall_app. split; [done|]. by apply Forall_replicate.
    - apply pending_gave_up, pending_asked. by apply asked_pending. }
  apply post_bind. eapply post_conseq; [exact Hprep| |done]. clear Hprep. intros [[data1 upd1] errs1] t1 (Ht1 & Hkeep1 & Hauth).
  destruct (asked_pending t1 Ht1) as [Hp1 _]. apply post_bind. unfold post at 1, with_field.
  destruct (fold_result (apply_body fields) data1 _) as [st|e] eqn:Ebody; [|by apply pending_gave_up].
  assert (Hst : state_ok fields st) by (eapply apply_body_ok; [exact Ebody|]; apply initial_state_ok, field_map_nodup).
  apply post_bind. eapply post_conseq; [by apply update_uploads_post| |done]. intros p t2 (Hp2 & [Hnd Hsub] & _).
  apply post_bind, cleaning_up_post; [apply quiet_with_field|done|]. intros ch t3 Hfold _. unfold with_field in Hfold.
  injection Hfold as Hfold <-. destruct (fold_result (change_field _ _) _ _) as [ch'|] eqn:Ech; [|done]. injection Hfold as ->.
  apply post_bind. eapply post_conseq; [by apply raise_errors_post| |done]. intros _ t4 [He ->].
  destruct (change_fields_spec _ _ _ _ _ Hset Ech He Hnd) as (_ & Hkeep & Hin & Hdel). cbn [ch_updates ch_delete] in *.
  apply post_bind.
  assert (Hunique : post (if is_auth c then unique_email c record_id (changed_email (ch_updates ch)) (Some record_id) (p_saved p)
      else mret tt) t2 (fun _ t' => pending (p_saved p) t' /\ (is_auth c = true ->
       forall e, changed_email (ch_updates ch) = Some e -> exists t1, email_taken t1 (table_name c) e (Some record_id) = Ok false)) gave_up).
  { destruct (is_auth c); [|by split]. eapply post_conseq; [by apply unique_email_post| |done].
    intros _ t' (? & _ & Hu). split; [done|]. intros _ e Hg. exists t2. by apply Hu. }
  eapply post_conseq; [exact Hunique| |done]. clear Hunique. intros _ t5 (Hp & Hu). split; [done|]. cbn [fst snd].
  assert (Hout : forall k, k ∉ name <$> schema_fields -> dict_get k (ch_updates ch) = dict_get k upd1).
  { intros k Hk. apply Hkeep. intros Hk'. by apply Hk, field_map_names, Hsub. }
  split; [|..|done].
  - exists (p_state p). split_and!; [done| | |].
    + intros k Hk Hk'. rewrite Hkeep by done. by apply Hkeep1.
    + intros k v Hkv. destruct (Hin k v Hkv) as [[Hs Hno]|?]; [right|by left]. split; [done|]. intros Hk. rewrite Hs.
      by apply Hkeep1.
    + intros n. rewrite Hdel. split; [|by right]. by intros [?%elem_of_nil|?].
  - intros Ha Hnames. destruct (Hauth Ha) as [Hpw Hem]. split.
    + intros v. rewrite !Hout by (apply Hnames; decided). apply Hpw.
    + intros v. rewrite Hout by (apply Hnames; decided). apply Hem.
Qed.

(** A statement that may be stored: what it was computed from, and what
    follows it. *)
Definition is_statement (e : effect) : bool := match e with EWrite _ _ _ _ => true | _ => false end.
Record stored_update (c : Collection) (schema_fields : list FieldDefinition) (record_id : string) (raw_row : row)
    (data : dict) (start updates : row) (deleted : list string) (answer : write_answer) (t : list effect) : Prop := {
  su_columns : updated_columns c schema_fields record_id raw_row data start updates deleted;
  su_some : 1 < length updates;
  su_trace : exists t0 saved payload rest,
    t = t0 ++ [EWrite (update_sql c updates) (dict_set "_rec_id" (Plain (PStr record_id)) updates) payload answer] ++ rest /\
    may_be_stored (EWrite (update_sql c updates) (dict_set "_rec_id" (Plain (PStr record_id)) updates) payload answer) = true /\
    pending saved t0 /\ cleaned_of rest = [] /\ saved_of rest = [] /\ Forall (fun e => is_statement e = false) rest /\
    deleted_of rest = match answer with Committed => deleted | _ => [] end;
}.
Definition some_update (c : Collection) (schema_fields : list FieldDefinition) (data : dict) (t : list effect) : Prop :=
  exists record_id t1 raw now updates deleted answer, fetch_row t1 (table_name c) record_id = Ok raw /\
    stored_update c schema_fields record_id (default [] raw) data [("updated", Datetime now)] updates deleted answer t.
Definition settled (t : list effect) : Prop := wrote t = false /\ deleted_of t = [] /\ saved_of t ⊆ cleaned_of t.

Lemma settled_gave_up e t : settled t -> gave_up e t.
Proof. intros (? & ? & ?). by split_and!. Qed.
Lemma asked_settled t : Forall (eq EAsked) t -> settled t.
Proof.
  intros [(Hs & Hc & Hw) _]%asked_pending. destruct (not_written t Hw) as [? ?]. unfold settled. rewrite Hs. split_and!; [done..|]. set_solver.
Qed.
Lemma reread_asks c record_id t : (reread c record_id t).2 = t ++ [EAsked].
Proof. unfold reread. by destruct (fetch_row _ _ _). Qed.
Lemma cleanup_settled c record_id saved t : pending saved t -> settled (_cleanup_new_storage_files c record_id saved t).2.
Proof.
  intros (Hs & _ & [Hw Hd]%not_written). unfold settled, _cleanup_new_storage_files. destruct saved as [|s saved].
  { cbn [snd]. rewrite Hs. split_and!; [done..|]. set_solver. }
  cbn [snd]. rewrite wrote_app, deleted_of_app, saved_of_app, cleaned_of_app, Hw, Hd, Hs. cbn. split_and!; [done..|].
  rewrite !app_nil_r. intros x Hx. apply elem_of_app. by right.
Qed.
Lemma delete_replaced_trace c record_id names t : exists rest, (delete_replaced c record_id names t).2 = t ++ rest /\
  cleaned_of rest = [] /\ saved_of rest = [] /\ Forall (fun e => is_statement e = false) rest /\ deleted_of rest = names.
Proof.
  unfold delete_replaced. destruct names as [|n names]; [exists []; by rewrite app_nil_r|].
  exists [EDeleteFiles (n :: names)]. cbn. rewrite app_nil_r. split_and!; [done..|by constructor|done].
Qed.

Lemma update_record_post c schema_fields record_id data files : set_law -> _get_schema_fields c = Ok schema_fields ->
  post (update_record c record_id data files) []
    (fun _ t => settled t \/ some_update c schema_fields data t) (fun e t => gave_up e t \/ some_update c schema_fields data t).
Proof.
  intros Hset Hs. unfold update_record. apply post_bind. unfold post at 1, stm_lift.
  assert (Hstart : settled []) by by apply asked_settled.
  destruct (validate_record_id record_id) as [rid|]; [|left; by apply settled_gave_up].
  apply post_bind. unfold post at 1, with_field. rewrite Hs. apply post_bind. unfold post at 1.
  pose proof (reread_asks c rid []) as Hr. destruct (reread c rid []) as [[existing|e] t1]; cbn in Hr; subst t1;
    [|left; by apply settled_gave_up, asked_settled; constructor].
  destruct existing as [existing|]; [|left; by apply asked_settled; constructor].
  apply post_bind. unfold post at 1. destruct (fetch_row [EAsked] _ _) as [raw|e] eqn:Eraw;
    [|left; apply settled_gave_up, asked_settled; by repeat constructor].
  apply post_bind. unfold post at 1, ask_now. cbn [app]. apply post_bind.
  eapply post_conseq; [apply update_columns_post; [done|by repeat constructor|done..]| |by left].
  intros [[updates deleted] saved] t0 [Hp Hc]. cbn [fst snd] in *. destruct (length updates <=? 1)%nat eqn:El.
  { apply post_bind. unfold post at 1. pose proof (cleanup_settled c rid saved t0 Hp) as H.
    destruct (_cleanup_new_storage_files _ _ _ _) as [[[]|e] t2]; [by left|]. left. by apply settled_gave_up. }
  apply Nat.leb_gt in El. set (params := dict_set "_rec_id" _ updates).
  assert (Hstored : forall payload a rest, may_be_stored (EWrite (update_sql c updates) params payload a) = true ->
    cleaned_of rest = [] -> saved_of rest = [] -> Forall (fun e => is_statement e = false) rest ->
    deleted_of rest = match a with Committed => deleted | _ => [] end ->
    some_update c schema_fields data (t0 ++ [EWrite (update_sql c updates) params payload a] ++ rest)).
  { intros payload a rest Ha H1 H2 H3 H4. exists rid, [EAsked], raw, (utcnow [EAsked; EAsked]), updates, deleted, a.
    split; [done|]. split; [done..|]. by exists t0, saved, payload, rest. }
  apply post_bind. eapply post_conseq; [by apply write_record_post| |].
  - intros _ t2 [payload ->]. apply post_bind. unfold post at 1.
    destruct (delete_replaced_trace c rid deleted (t0 ++ [EWrite (update_sql c updates) params payload Committed]))
      as (rest & Ht & Hcl & Hsv & Hst & Hdl). rewrite <- app_assoc in Ht.
    destruct (delete_replaced _ _ _ _) as [[[]|e] t3]; cbn [snd] in Ht; subst t3; [|right; by apply Hstored].
    unfold post. pose proof (reread_asks c rid (t0 ++ [EWrite (update_sql c updates) params payload Committed] ++ rest)) as Hr.
    rewrite <- !app_assoc in Hr.
    assert (some_update c schema_fields data (t0 ++ [EWrite (update_sql c updates) params payload Committed] ++ rest ++ [EAsked])) as Hu.
    { apply Hstored; [done| | | |].
      - by rewrite cleaned_of_app, Hcl.
      - by rewrite saved_of_app, Hsv.
      - apply Forall_app. split; [done|by constructor].
      - by rewrite deleted_of_app, Hdl, app_nil_r. }
    destruct (reread _ _ _) as [[x|e] t4]; cbn [snd] in Hr; subst t4; by right.
  - intros e t1 [Hg|(payload & e' & ->)]; [by left|]. right. by apply (Hstored payload (CommitFailed e') []).
Qed.
End Updating.

(** ** What [update_record] guarantees *)

(** C6: Which files an update removes: when the
    statement may be stored, no upload is removed; once it is committed, the
    files deleted are exactly those that a written file field named before and
    does not name any more, and they are not deleted otherwise; when nothing is
    stored no old file is deleted, and unless the run was cancelled every new
    upload was handed to the cleanup.  (So an upload that the stored row does not
    name may stay, and a stored name that moves from one file field to another
    is deleted.) *)
Theorem update_files_in_sync (env : RecordEnv) c schema_fields record_id data files r t
  (Hset : set_law) (Hschema : _get_schema_fields c = Ok schema_fields) (Hnames : NoDup (name <$> schema_fields))
  (Hclash : forall f, f ∈ schema_fields -> type f = FILE -> name f ∉ "updated" :: "_rec_id" :: auth_columns)
  (Hrun : update_record c record_id data files [] = (r, t)) :
  (wrote t = false -> deleted_of t = [] /\
     ((forall e, r = Err e -> is_exception e = true) -> saved_of t ⊆ cleaned_of t)) /\
  (wrote t = true -> cleaned_of t = [] /\ exists sql params payload answer t1 id raw,
     EWrite sql params payload answer ∈ t /\ fetch_row t1 (table_name c) id = Ok raw /\
     (answer <> Committed -> deleted_of t = []) /\
     (answer = Committed -> forall n, n ∈ deleted_of t <-> exists f v, f ∈ schema_fields /\ type f = FILE /\
        n ∈ reference_list (column_or_none (default [] raw) (name f)) /\ dict_get (name f) params = Some v /\
        n ∉ reference_list v)).
Proof.
  pose proof (post_run _ _ _ _ _ _ (update_record_post c schema_fields record_id data files Hset Hschema) Hrun) as H.
  assert (Hq : (wrote t = false /\ deleted_of t = [] /\
      ((forall e, r = Err e -> is_exception e = true) -> saved_of t ⊆ cleaned_of t)) \/ some_update c schema_fields data t).
  { destruct r as [x|e]; (destruct H as [(Hw & Hd & Hs)|?]; [left|by right]); split_and!; try done.
    intros He. by apply Hs, He. }
  clear H. destruct Hq as [(Hw & Hd & Hs)|(rid & t1 & raw & now & updates & deleted & answer & Hraw & [Hc _ Ht])].
  { rewrite Hw. by split. }
  destruct Ht as (t0 & saved & payload & rest & -> & Ha & (Hs0 & Hc0 & [Hw0 Hd0]%not_written) & Hcl & Hsv & Hst & Hdl).
  assert (Hw1 : forall e, may_be_stored e = true -> wrote [e] = true) by (intros e He; unfold wrote; cbn [existsb]; by rewrite He).
  rewrite !wrote_app, !cleaned_of_app, !deleted_of_app, Hw0, (Hw1 _ Ha), Hc0, Hcl, Hd0, Hdl.
  split; [done|]. intros _. split; [done|]. set (params := dict_set "_rec_id" _ updates) in *.
  exists (update_sql c updates), params, payload, answer, t1, rid, raw. split_and!; [apply elem_of_app; right; by left|done|by destruct answer|].
  intros -> n. cbn [app]. change (([] ++ [EWrite (update_sql c updates) params payload Committed] ≫= deleted_by) ++ deleted) with deleted.
  destruct Hc as [(st & Hsub & Hout & Hin & Hdel) _ _]. rewrite Hdel.
  assert (Hget : forall f, f ∈ schema_fields -> type f = FILE -> dict_get (name f) params = dict_get (name f) updates /\
    dict_get (name f) [("updated", Datetime now)] = None /\ (name f ∉ auth_columns \/ is_auth c = false)).
  { intros f Hf Hty. pose proof (Hclash f Hf Hty) as [H1 [H2 H3]%not_elem_of_cons]%not_elem_of_cons. split_and!; [| |by left].
    2:{ cbn [dict_get]. by destruct (String.eqb_spec "updated" (name f)) as [E|_]; [destruct H1|]. }
    unfold params. by rewrite dict_get_set_ne. }
  split.
  - intros (k & v & Hkv & f & col & Hw & Hty & Hold & Hnew). destruct (Hin k v Hkv) as [(g & col' & Hw' & Hu)|[Hno _]]; [|by apply Hno in Hw].
    pose proof (proj1 Hw) as Hf. apply field_map_elem in Hf as [Hf <-]. exists f, col. split_and!; try done.
    rewrite (proj1 (Hget f Hf Hty)), Hu. destruct Hw as (Hg & _ & _ & s1 & Hv1 & Hs1), Hw' as (Hg' & _ & _ & s2 & Hv2 & Hs2). congruence.
  - intros (f & v & Hf & Hty & Hold & Hp & Hnew). destruct (Hget f Hf Hty) as (Hpar & Hnone & Hcl'). rewrite Hpar in Hp.
    destruct (decide (name f ∈ st.*1)) as [Hk|Hk]; [|rewrite Hout in Hp by done; congruence].
    apply list_elem_of_fmap in Hk as ([k w] & Hk & Hkv). cbn in Hk. subst k. exists (name f), w. split; [done|].
    destruct (Hin _ _ Hkv) as [(g & col & Hw & Hu)|[_ Hk]]; [|rewrite Hk in Hp by done; congruence].
    assert (g = f) as -> by (pose proof (field_map_get _ f Hnames Hf); destruct Hw; congruence).
    exists f, col. split_and!; try done. congruence.
Qed.

(** Every statement that [update_record] may have stored sets the update
    time, columns of an auth record, and columns of the schema whose values
    conform to their fields; it changes something; a new password hash is the
    hash of a confirmed password of at least eight characters and comes with a
    new token key, so that the tokens of the old password end; and a new
    e-mail is valid and was no other record's. *)
Theorem updated_row_valid (env : RecordEnv) c schema_fields record_id data files r t sql params payload a
  (Hrepr : forall f, float_repr f <> "") (Hset : set_law) (Hschema : _get_schema_fields c = Ok schema_fields)
  (Hrun : update_record c record_id data files [] = (r, t))
  (Hwrite : EWrite sql params payload a ∈ t) (Hstored : may_be_stored (EWrite sql params payload a) = true) :
  exists id updates, sql = update_sql c updates /\ params = dict_set "_rec_id" (Plain (PStr id)) updates /\
  1 < length updates /\
  (forall k v, dict_get k updates = Some v -> k = "updated" \/ (is_auth c = true /\ k ∈ auth_columns) \/
     exists f stored, f ∈ schema_fields /\ name f = k /\ type f <> AUTODATE /\ conforms f stored /\ _serialize_for_pg stored f = Ok v) /\
  (is_auth c = true -> (forall k, k ∈ ["password_hash"; "token_key"; "email"] -> k ∉ name <$> schema_fields) ->
     auth_updates data updates) /\
  (is_auth c = true -> forall e, changed_email updates = Some e -> exists t1, email_taken t1 (table_name c) e (Some id) = Ok false).
Proof.
  assert (Hrow : some_update c schema_fields data t).
  { pose proof (post_run _ _ _ _ _ _ (update_record_post c schema_fields record_id data files Hset Hschema) Hrun) as H.
    assert (Hw : wrote t = true) by (apply existsb_exists; exists (EWrite sql params payload a); by rewrite <- list_elem_of_In).
    destruct r as [x|e]; (destruct H as [[Hw' _]|H]; [congruence|done]). }
  destruct Hrow as (rid & t1 & raw & now & updates & deleted & answer & _ & [Hc Hlen Ht]).
  destruct Ht as (t0 & saved & payload' & rest & -> & _ & (_ & _ & Hw) & _ & _ & Hst & _). exists rid, updates.
  assert (sql = update_sql c updates /\ params = dict_set "_rec_id" (Plain (PStr rid)) updates) as [-> ->].
  { apply elem_of_app in Hwrite as [Hin|[[= -> -> _ _]|Hin]%elem_of_cons]; [|done|].
    - rewrite Forall_forall in Hw. by specialize (Hw _ Hin).
    - rewrite Forall_forall in Hst. by specialize (Hst _ Hin). }
  destruct Hc as [(st & _ & Hout & Hin & _) Hauth Hemail]. split_and!; [done..| | |]; [|done|done].
  intros k v Hk. destruct (decide (is_auth c = true /\ k ∈ auth_columns)) as [?|Hna]; [right; by left|].
  assert (Hplain : k ∉ auth_columns \/ is_auth c = false).
  { destruct (is_auth c); [|by right]. left. intros ?. by apply Hna. }
  assert (Hstart : dict_get k [("updated", Datetime now)] = Some v -> k = "updated").
  { cbn [dict_get]. destruct (String.eqb_spec "updated" k) as [E|_]; [done|intros [=]]. }
  destruct (decide (k ∈ st.*1)) as [Hks|Hks]; [|left; apply Hstart; by rewrite <- Hout].
  apply list_elem_of_fmap in Hks as ([k' w] & E & Hkv). cbn in E. subst k'.
  destruct (Hin _ _ Hkv) as [(f & col & (Hf & Hty & _ & stored & Hv & Hs) & Hu)|[_ Hsame]]; [|left; apply Hstart; by rewrite <- Hsame].
  apply field_map_elem in Hf as [Hf <-]. right. right. exists f, stored. assert (col = v) as -> by congruence.
  split_and!; [done..| |done]. by eapply validate_conforms.
Qed.

(** ** A run *)
Definition demo_old_row : row :=
  [("id", Plain (PStr "abc")); ("nickname", Plain (PStr "Al")); ("avatar", Plain (PStr "old.txt"))].
(** The environment of [create_record]'s run, with a row in the table. *)
Definition demo_update_env (answer : write_answer) : RecordEnv := {|
  record_lib := demo_write_lib;
  utcnow _ := mkDatetime 0 (Some 0%Z);
  fresh_id _ := "abcdefghijklmno";
  hash_password _ _ := Ok "h2";
  fresh_token_key _ := "k2";
  guess_mime _ := Some "text/plain";
  save_files _ _ _ _ _ _ := Ok ["up.txt"];
  email_taken _ _ _ _ := Ok false;
  delete_stored _ _ _ _ := None;
  execute_write _ _ _ _ := answer;
  fetch_row _ _ _ := Ok (Some demo_old_row);
|}.
Definition demo_update_run (answer : write_answer) : result write_exn (option row) * list effect :=
  @update_record (demo_update_env answer) demo_collection (PStr "abc")
    [("password", PStr "87654321"); ("passwordConfirm", PStr "87654321"); ("nickname", PStr "Bo")] demo_files [].
Lemma demo_set answer : @set_law (demo_update_env answer).
Proof. intros l. reflexivity. Qed.
Lemma demo_update_schema answer : @_get_schema_fields (@record_lib (demo_update_env answer)) demo_collection = Ok demo_fields.
Proof. vm_compute. reflexivity. Qed.
Lemma demo_clash : forall f, f ∈ demo_fields -> type f = FILE -> name f ∉ "updated" :: "_rec_id" :: auth_columns.
Proof. intros f [->|[->|?%elem_of_nil]%elem_of_cons]%elem_of_cons; [done| |done]. intros _. decided. Qed.

(** The old avatar goes when the new one is committed. *)
Lemma update_files_in_sync_witness :
  cleaned_of (demo_update_run Committed).2 = [] /\ deleted_of (demo_update_run Committed).2 = ["old.txt"] /\
  saved_of (demo_update_run Committed).2 = ["up.txt"].
Proof.
  split; [|vm_compute; done].
  refine (proj1 (proj2 (update_files_in_sync (demo_update_env Committed) demo_collection demo_fields (PStr "abc")
    [("password", PStr "87654321"); ("passwordConfirm", PStr "87654321"); ("nickname", PStr "Bo")] demo_files _ _
    (demo_set _) (demo_update_schema _) _ demo_clash _) _)).
  - decided.
  - vm_compute. reflexivity.
  - vm_compute. reflexivity.
Defined.

Definition demo_updates : row :=
  [("updated", Datetime (mkDatetime 0 (Some 0%Z))); ("password_hash", Plain (PStr "h2")); ("token_key", Plain (PStr "k2"));
   ("nickname", Plain (PStr "Bo")); ("avatar", Plain (PStr "up.txt"))].
Lemma updated_row_valid_witness : exists id updates,
  @update_sql demo_collection demo_updates = @update_sql demo_collection updates /\
  dict_set "_rec_id" (Plain (PStr "abc")) demo_updates = dict_set "_rec_id" (Plain (PStr id)) updates /\ 1 < length updates.
Proof.
  edestruct (updated_row_valid (demo_update_env Committed) demo_collection demo_fields (PStr "abc")
    [("password", PStr "87654321"); ("passwordConfirm", PStr "87654321"); ("nickname", PStr "Bo")] demo_files
    (demo_update_run Committed).1 (demo_update_run Committed).2
    (@update_sql demo_collection demo_updates) (dict_set "_rec_id" (Plain (PStr "abc")) demo_updates)
    (@notify_payload (demo_update_env Committed) demo_collection "abc" "update") Committed)
    as (id & updates & Hsql & Hparams & Hlen & _).
  - done.
  - apply demo_set.
  - apply demo_update_schema.
  - vm_compute. reflexivity.
  - apply list_elem_of_In. vm_compute. tauto.
  - reflexivity.
  - exists id, updates. by split_and!.
Defined.
