(* ===== verification/RecordDelete.v ===== *)
(** * Deleting a record (ppbase/services/record_service.py, [delete_record]
      and [_cascade_delete])

    The database is a class: its rows, and what a SELECT, the search for
    references and a DELETE answer about them.  The recursion through the
    records that refer to a deleted one has fuel; running out of it stands for
    Python's unbounded recursion. *)
From Stdlib Require Import Ascii String.
From S2P Require Import Prelude PyText PyVal StorageSafety FieldTypes RecordResponse RecordWrite.
From S2P Require RequestMacros.
#[local] Open Scope string_scope.
#[local] Open Scope list_scope.

Inductive delete_exn : Type :=
| UnsafeId                                (* StorageSafetyError of the id *)
| Raised (kind : string)
| OutOfFuel.

(** [:rid = ANY("f")] and ["f" = :rid] *)
Definition refers (r : row) (field_name : string) (many : bool) (rid : string) : bool :=
  match column_or_none r field_name with
  | Plain (PList l) => many && existsb (text_is rid) (Some <$> l)
  | Plain (PStr s) => negb many && String.eqb s rid
  | _ => false
  end.

(** A database: the queries may raise; a DELETE that raises has or has not
    been committed. *)
Class RecordStore : Type := {
  store_lib :: RecordLib;
  db : Type;
  row_of : db -> string -> string -> option row;
  select_row : db -> string -> string -> result delete_exn (option row);
  select_refs : db -> string -> string -> bool -> string -> result delete_exn (list string);
  delete_row : db -> string -> string -> result delete_exn unit * db;
  remove_files : db -> string -> string -> list string -> option cleanup_failure;
}.
Class RecordStoreLaws (store : RecordStore) : Prop := {
  select_row_ok d t i r : select_row d t i = Ok r -> r = row_of d t i;
  select_refs_ok d t f many rid ids : select_refs d t f many rid = Ok ids ->
    forall i, i ∈ ids <-> exists r, row_of d t i = Some r /\ refers r f many rid = true;
  delete_row_others d t i r d' t' i' : delete_row d t i = (r, d') -> (t', i') <> (t, i) -> row_of d' t' i' = row_of d t' i';
  delete_row_this d t i r d' : delete_row d t i = (r, d') ->
    row_of d' t i = None \/ (r <> Ok tt /\ row_of d' t i = row_of d t i);
  select_row_fuel d t i : select_row d t i <> Err OutOfFuel;
  select_refs_fuel d t f many rid : select_refs d t f many rid <> Err OutOfFuel;
  delete_row_fuel d t i : (delete_row d t i).1 <> Err OutOfFuel;
}.

Section Deleting.
Context {store : RecordStore}.
(** The rows, and the files handed to [delete_files] so far: collection id,
    record id, names. *)
Record store_state : Type := mkState { s_db : db; s_files : list (string * string * list string) }.
Definition D : Type -> Type := stm store_state delete_exn.
Definition asks {A} (q : db -> result delete_exn A) : D A := fun s => (q (s_db s), s).
Definition of_field {A} (r : result field_exn A) : D A := asks (fun _ =>
  match r with Ok a => Ok a | Err (FieldValidationError f _ _) => Err (Raised f) | Err (PyException k) => Err (Raised k) end).
Definition delete_from (c : Collection) (record_id : string) : D unit := fun s =>
  let '(r, d) := delete_row (s_db s) (table_name c) record_id in (r, mkState d (s_files s)).

(** The references of the file fields of a row. *)
Definition file_references (schema_fields : list FieldDefinition) (r : row) : list string :=
  filter (fun f => type f = FILE) schema_fields ≫= fun f => reference_list (column_or_none r (name f)).
Definition delete_stored_files (c : Collection) (record_id : string) (names : list string) : D unit := fun s =>
  (match remove_files (s_db s) (c_id c) record_id names with
   | None | Some StorageUnsafe => Ok tt
   | Some OSError => Err (Raised "OSError")
   | Some (OtherError _) => Err (Raised "Exception")
   end, mkState (s_db s) (s_files s ++ [(c_id c, record_id, names)])).

(** The relation to [c] of a field that cascades: its name, and whether it
    holds a list. *)
Definition cascade_field (c : Collection) (field_raw : dict) : result delete_exn (option (string * bool)) :=
  if negb (text_is "relation" (dict_get "type" field_raw)) then Ok None
  else
    match default (PDict []) (dict_get "options" field_raw) with
    | PDict opts =>
        if negb (text_is (c_id c) (dict_get "collectionId" opts)) then Ok None
        else if negb (truthy (default (PBool false) (dict_get "cascadeDelete" opts))) then Ok None
        else
          let f := field_name field_raw in
          if String.eqb f "" then Ok None
          else match int_lt 1 (py_or (default (PInt 1) (dict_get "maxSelect" opts)) (PInt 1)) with
               | Ok many => Ok (Some (f, many))
               | Err _ => Err (Raised "TypeError")
               end
    | _ => Err (Raised "AttributeError")
    end.

Section Cascade.
Context (delete : Collection -> string -> D bool) (c : Collection) (record_id : string).
Fixpoint delete_each (other_coll : Collection) (related_ids : list string) : D unit :=
  match related_ids with
  | [] => mret tt
  | related_id :: rest => delete other_coll related_id ≫= fun _ => delete_each other_coll rest
  end.
Fixpoint cascade_fields (other_coll : Collection) (fields : list dict) : D unit :=
  match fields with
  | [] => mret tt
  | field_raw :: rest =>
      found ← asks (fun _ => cascade_field c field_raw);
      _ ← match found with
          | Some (f, many) =>
              related_ids ← asks (fun d => select_refs d (table_name other_coll) f many record_id);
              delete_each other_coll related_ids
          | None => mret tt
          end;
      cascade_fields other_coll rest
  end.
Fixpoint _cascade_delete (all_collections : list Collection) : D unit :=
  match all_collections with
  | [] => mret tt
  | other_coll :: rest => cascade_fields other_coll (schema other_coll) ≫= fun _ => _cascade_delete rest
  end.
End Cascade.

Fixpoint delete_record (fuel : nat) (all_collections : list Collection) (c : Collection) (record_id : string) : D bool :=
  match fuel with
  | O => stm_raise OutOfFuel
  | S fuel =>
      _ ← asks (fun _ => match validate_record_id (PStr record_id) with Ok s => Ok s | Err _ => Err UnsafeId end);
      schema_fields ← of_field (_get_schema_fields c);
      found ← asks (fun d => select_row d (table_name c) record_id);
      match found with
      | None => mret false
      | Some r =>
          let files_to_delete := file_references schema_fields r in
          _ ← _cascade_delete (delete_record fuel all_collections) c record_id all_collections;
          _ ← delete_from c record_id;
          _ ← delete_stored_files c record_id files_to_delete;
          mret true
      end
  end.
End Deleting.

(** ** What a schema says *)
(** A relation field [f] to [c] that deletes its records with those of [c]; it
    holds several ids when its [maxSelect] is above one. *)
Definition cascading_relation (c : Collection) (field_raw : dict) (f : string) (many : bool) : Prop :=
  dict_get "type" field_raw = Some (PStr "relation") /\ dict_get "name" field_raw = Some (PStr f) /\ f <> "" /\
  exists opts, dict_get "options" field_raw = Some (PDict opts) /\ dict_get "collectionId" opts = Some (PStr (c_id c)) /\
    (exists v, dict_get "cascadeDelete" opts = Some v /\ truthy v = true) /\
    match dict_get "maxSelect" opts with
    | Some v => if truthy v then int_lt 1 v = Ok many else many = false
    | None => many = false
    end.
Lemma cascade_field_relation c fr f many : cascade_field c fr = Ok (Some (f, many)) <-> cascading_relation c fr f many.
Proof.
  unfold cascade_field, cascading_relation, field_name. split.
  - intros H. destruct (text_is "relation" _) eqn:Et; [|done]. apply text_is_some in Et. cbn [negb] in H.
    destruct (dict_get "options" fr) as [o|]; cbn [default from_option id] in H; [|done]. destruct o as [| | | | | |opts]; try done.
    destruct (text_is (c_id c) _) eqn:Ec; [|done]. apply text_is_some in Ec. cbn [negb] in H.
    destruct (dict_get "cascadeDelete" opts) as [v|] eqn:Ed; cbn [default from_option id] in H; [|done].
    destruct (truthy v) eqn:Ev; [|done]. cbn [negb] in H.
    destruct (dict_get "name" fr) as [[]|]; try done. destruct (String.eqb_spec s ""); [done|].
    unfold py_or in H. destruct (dict_get "maxSelect" opts) as [m|] eqn:Ex; cbn [default from_option id] in H;
      [destruct (truthy m) eqn:Em|]; (destruct (int_lt 1 _) eqn:El in H; [|done]); injection H as -> ->;
      (split; [done|split; [done|split; [done|exists opts; (split; [done|]); (split; [done|]); (split; [by exists v|])]]]);
      rewrite Ex, ?Em; [exact El|by vm_compute in El; injection El as <-..].
  - intros (Ht & Hn & Hne & opts & Ho & Hc & (v & Hv & Htr) & Hm).
    rewrite Ht, Ho, Hn. cbn [default from_option id]. rewrite Hc, Hv. cbn [default from_option id].
    unfold text_is. rewrite !String.eqb_refl, Htr. cbn [negb]. destruct (String.eqb_spec f ""); [done|]. unfold py_or.
    destruct (dict_get "maxSelect" opts) as [m|]; cbn [default from_option id]; [destruct (truthy m)|];
      [by rewrite Hm|subst many; reflexivity..].
Qed.
(** The names that the file fields of a row hold: a text, or a list of texts. *)
Definition holds_name (v : value) (n : string) : Prop :=
  n <> "" /\ (v = Plain (PStr n) \/ exists l, v = Plain (PList l) /\ PStr n ∈ l).
Definition text_column (v : value) : Prop := (exists s, v = Plain (PStr s)) \/ exists ls, v = Plain (PList (PStr <$> ls)).
Definition file_names (fs : list FieldDefinition) (r : row) (names : list string) : Prop :=
  (forall f v n, f ∈ fs -> type f = FILE -> dict_get (name f) r = Some v -> holds_name v n -> n ∈ names) /\
  (forall n, n ∈ names -> exists f v, f ∈ fs /\ type f = FILE /\ dict_get (name f) r = Some v /\ (text_column v -> holds_name v n)).
Section Names.
Context {store : RecordStore}.
Lemma reference_names v n : text_column v -> n ∈ reference_list v -> holds_name v n.
Proof.
  intros [[s ->]|[ls ->]].
  - rewrite reference_list_single. destruct (String.eqb_spec s ""); [by intros ?%elem_of_nil|]. intros ->%list_elem_of_singleton. by split; [|left].
  - cbn. intros (x & -> & [Hx Hin]%list_elem_of_filter)%list_elem_of_fmap. apply list_elem_of_fmap in Hin as (s & -> & Hin).
    split; [by intros E; cbn in E, Hx; subst s|]. right. eexists. split; [done|]. by apply list_elem_of_fmap_2.
Qed.
Lemma names_reference v n : holds_name v n -> n ∈ reference_list v.
Proof.
  intros [Hn [->|(l & -> & Hin)]].
  - rewrite reference_list_single. destruct (String.eqb_spec n ""); [done|]. by apply list_elem_of_singleton.
  - cbn. apply list_elem_of_fmap. exists (PStr n). split; [done|]. apply list_elem_of_filter. split; [|done]. cbn.
    by destruct (String.eqb_spec n "").
Qed.
Lemma file_references_names fs r : file_names fs r (file_references fs r).
Proof.
  unfold file_references. split.
  - intros f v n Hf Ht Hv Hn. apply list_elem_of_bind. exists f. split; [|by apply list_elem_of_filter].
    unfold column_or_none, column. rewrite Hv. by apply names_reference.
  - intros n (f & Hn & [Ht Hf]%list_elem_of_filter)%list_elem_of_bind. unfold column_or_none, column in Hn.
    destruct (dict_get (name f) r) as [v|] eqn:Hv; [|by apply elem_of_nil in Hn]. exists f, v. split_and!; try done.
    intros Htx. by apply reference_names.
Qed.
End Names.

(** ** Reachability and progress *)
Section Progress.
Context {store : RecordStore} {laws : RecordStoreLaws store}.
Context (all : list Collection).
Definition row_at (s : store_state) (x : Collection * string) : option row := row_of (s_db s) (table_name x.1) x.2.
(** [y] refers to [x] through a relation that cascades. *)
Definition cascades (s : store_state) (x y : Collection * string) : Prop :=
  y.1 ∈ all /\ exists field_raw f many r, field_raw ∈ schema y.1 /\ cascading_relation x.1 field_raw f many /\
    row_at s y = Some r /\ refers r f many x.2 = true.
Definition shrinks (s s' : store_state) : Prop :=
  forall t i, row_of (s_db s') t i = row_of (s_db s) t i \/ row_of (s_db s') t i = None.
(** What is removed from [s] to [s'] is reachable in [s0] from [p]. *)
Definition progress (s0 : store_state) (p : Collection * string) (s s' : store_state) : Prop :=
  shrinks s s' /\ forall x, x.1 ∈ all -> row_at s x <> None -> row_at s' x = None -> rtc (cascades s0) p x.
(** With a record, its references and its files are gone. *)
Definition complete (s s' : store_state) : Prop :=
  s_files s `prefix_of` s_files s' /\
  forall x r, x.1 ∈ all -> row_at s x = Some r -> row_at s' x = None ->
    (forall y, cascades s x y -> row_at s' y = None) /\
    exists fs, _get_schema_fields x.1 = Ok fs /\ (c_id x.1, x.2, file_references fs r) ∈ s_files s'.

Lemma shrinks_refl s : shrinks s s.
Proof. intros t i. by left. Qed.
Lemma shrinks_trans s1 s2 s3 : shrinks s1 s2 -> shrinks s2 s3 -> shrinks s1 s3.
Proof. intros H1 H2 t i. destruct (H2 t i) as [->|]; [apply H1|by right]. Qed.
Lemma shrinks_gone s s' x : shrinks s s' -> row_at s x = None -> row_at s' x = None.
Proof. intros H Hx. unfold row_at in *. destruct (H (table_name x.1) x.2) as [->|]; done. Qed.
Lemma shrinks_row s s' x r : shrinks s s' -> row_at s' x = Some r -> row_at s x = Some r.
Proof. intros H Hx. unfold row_at in *. destruct (H (table_name x.1) x.2) as [<-|]; congruence. Qed.
Lemma shrinks_cascades s s' x y : shrinks s s' -> cascades s' x y -> cascades s x y.
Proof.
  intros H (Hy & fr & f & many & r & Hfr & Hc & Hr & Href). split; [done|]. exists fr, f, many, r. split_and!; try done.
  by eapply shrinks_row.
Qed.
Lemma progress_refl s0 p s : progress s0 p s s.
Proof. split; [apply shrinks_refl|]. intros x _ H1 H2. by destruct H1. Qed.
Lemma progress_trans s0 p s1 s2 s3 : progress s0 p s1 s2 -> progress s0 p s2 s3 -> progress s0 p s1 s3.
Proof.
  intros [H1 P1] [H2 P2]. split; [by eapply shrinks_trans|]. intros x Hx Hin Hout.
  destruct (row_at s2 x) eqn:E; [|by apply P1]. apply P2; [done|by rewrite E|done].
Qed.
Lemma progress_weaken s0 p s q s' : shrinks s0 s -> rtc (cascades s0) p q -> progress s q s s' -> progress s0 p s s'.
Proof.
  intros Hs Hq [H P]. split; [done|]. intros x Hx Hin Hout. etrans; [exact Hq|].
  eapply (rtc_subrel (cascades s)); [|by apply P]. intros a b. by apply shrinks_cascades.
Qed.
Lemma complete_refl s : complete s s.
Proof. split; [done|]. intros x r _ H1 H2. congruence. Qed.
Lemma complete_trans s1 s2 s3 : shrinks s1 s2 -> shrinks s2 s3 -> complete s1 s2 -> complete s2 s3 -> complete s1 s3.
Proof.
  intros H1 H2 [F1 C1] [F2 C2]. split; [by etrans|]. intros x r Hx Hin Hout. destruct (row_at s2 x) as [r'|] eqn:E.
  - assert (r' = r) as -> by (apply (shrinks_row _ _ _ _ H1) in E; congruence). destruct (C2 x r Hx E Hout) as [Hy Hf].
    split; [|done]. intros y Hc. destruct (row_at s2 y) as [ry|] eqn:Ey; [|by eapply shrinks_gone].
    apply Hy. destruct Hc as (Hya & fr & f & many & ry' & ? & ? & Hry & ?).
    assert (ry' = ry) as -> by (apply (shrinks_row _ _ _ _ H1) in Ey; congruence). split; [done|]. by exists fr, f, many, ry.
  - destruct (C1 x r Hx Hin E) as (Hy & fs & Hfs & Hlog). split; [|exists fs; split; [done|]].
    + intros y Hc. eapply shrinks_gone; [exact H2|by apply Hy].
    + eapply elem_of_prefix; done.
Qed.

(** A bound of the chains of references below a record. *)
Definition ranked (rank : Collection * string -> nat) (s : store_state) : Prop := forall x y, cascades s x y -> rank y < rank x.
Lemma ranked_shrinks rank s s' : shrinks s s' -> ranked rank s -> ranked rank s'.
Proof. intros H Hr x y Hc. by apply Hr, (shrinks_cascades s s'). Qed.

Section Recursion.
Context (rank : Collection * string -> nat) (n : nat) (delete : Collection -> string -> D bool).
Definition delete_meets (x : Collection * string) (s : store_state) : Prop :=
  post (delete x.1 x.2) s (fun _ s' => progress s x s s' /\ complete s s' /\ row_at s' x = None)
    (fun e s' => progress s x s s' /\ (ranked rank s -> rank x < n -> e <> OutOfFuel)).
Context (Hdelete : forall x s, x.1 ∈ all -> delete_meets x s).
Context (c : Collection) (record_id : string).
Let p : Collection * string := (c, record_id).
(** An exception of the cascade from [s0]. *)
Definition cascade_fails (s0 s : store_state) (e : delete_exn) (s' : store_state) : Prop :=
  progress s0 p s s' /\ (ranked rank s0 -> rank p < S n -> e <> OutOfFuel).
Lemma fails_trans s0 s s1 e s' : progress s0 p s s1 -> cascade_fails s0 s1 e s' -> cascade_fails s0 s e s'.
Proof. intros H [H1 H2]. split; [by eapply progress_trans|done]. Qed.

Lemma delete_each_post s0 other_coll ids s : other_coll ∈ all -> shrinks s0 s ->
  (forall i, i ∈ ids -> cascades s0 p (other_coll, i)) ->
  post (delete_each delete other_coll ids) s
    (fun _ s' => progress s0 p s s' /\ complete s s' /\ forall i, i ∈ ids -> row_at s' (other_coll, i) = None) (cascade_fails s0 s).
Proof.
  intros Ha. revert s. induction ids as [|i ids IH]; intros s Hs Hids.
  { split_and!; [apply progress_refl|apply complete_refl|]. by intros i ?%elem_of_nil. }
  cbn [delete_each]. assert (Hi : cascades s0 p (other_coll, i)) by (apply Hids; by left).
  assert (Hreach : rtc (cascades s0) p (other_coll, i)) by by apply rtc_once.
  apply post_bind. eapply post_conseq; [apply (Hdelete (other_coll, i) s Ha)| |].
  - intros b s1 (H1 & C1 & G1). pose proof (progress_weaken s0 p s _ s1 Hs Hreach H1) as P1.
    eapply post_conseq; [apply IH; [by eapply shrinks_trans; [|apply H1]|intros j Hj; apply Hids; by right]| |].
    + intros _ s2 (P2 & C2 & G2). split_and!; [by eapply progress_trans| |].
      * eapply complete_trans; [apply P1|apply P2|done..].
      * intros j [->|Hj]%elem_of_cons; [|by apply G2]. eapply shrinks_gone; [apply P2|done].
    + intros e s2. by apply fails_trans.
  - intros e s1 [H1 Hf]. split; [by eapply progress_weaken|]. intros Hr Hp. apply Hf; [by eapply ranked_shrinks|].
    specialize (Hr _ _ Hi). lia.
Qed.
Lemma cascade_field_fuel c' fr : cascade_field c' fr <> Err OutOfFuel.
Proof. unfold cascade_field. repeat case_match; done. Qed.

Lemma cascade_fields_post s0 other_coll fields s : other_coll ∈ all -> shrinks s0 s -> fields ⊆ schema other_coll ->
  post (cascade_fields delete c record_id other_coll fields) s
    (fun _ s' => progress s0 p s s' /\ complete s s' /\ forall fr f many i r, fr ∈ fields -> cascade_field c fr = Ok (Some (f, many)) ->
       row_at s (other_coll, i) = Some r -> refers r f many record_id = true -> row_at s' (other_coll, i) = None)
    (cascade_fails s0 s).
Proof.
  intros Ha. revert s. induction fields as [|fr fields IH]; intros s Hs Hsub.
  { split_and!; [apply progress_refl|apply complete_refl|]. by intros ????? ?%elem_of_nil. }
  assert (Hfr : fr ∈ schema other_coll) by (apply Hsub; by left). assert (Hsub' : fields ⊆ schema other_coll) by set_solver.
  cbn [cascade_fields]. apply post_bind. unfold post at 1, asks.
  destruct (cascade_field c fr) as [found|e] eqn:Efr; [|split; [apply progress_refl|intros _ _ ->; by apply cascade_field_fuel in Efr]].
  apply post_bind.
  assert (Hfield : post (match found with
      | Some (f, many) => related_ids ← asks (fun d => select_refs d (table_name other_coll) f many record_id);
                          delete_each delete other_coll related_ids
      | None => mret tt end) s
    (fun _ s' => progress s0 p s s' /\ complete s s' /\ forall f many i r, found = Some (f, many) ->
       row_at s (other_coll, i) = Some r -> refers r f many record_id = true -> row_at s' (other_coll, i) = None)
    (cascade_fails s0 s)).
  { destruct found as [[f many]|]; [|split_and!; [apply progress_refl|apply complete_refl|done]].
    apply post_bind. unfold post at 1, asks. destruct (select_refs _ _ _ _ _) as [ids|e] eqn:Eids.
    2:{ split; [apply progress_refl|]. intros _ _ ->. by apply select_refs_fuel in Eids. }
    pose proof (select_refs_ok _ _ _ _ _ _ Eids) as Hids. eapply post_conseq; [apply (delete_each_post s0); [done|done|]| |done].
    - intros i (r & Hr & Href)%Hids. apply (shrinks_cascades _ _ _ _ Hs). split; [done|]. exists fr, f, many, r.
      by rewrite <- cascade_field_relation.
    - intros _ s1 (P & C & G). split_and!; [done..|]. intros f' many' i r [= <- <-] Hr Href. apply G, Hids. by exists r. }
  eapply post_conseq; [exact Hfield| |done]. clear Hfield. intros _ s1 (P1 & C1 & G1).
  eapply post_conseq; [apply IH; [by eapply shrinks_trans; [|apply P1]|done]| |].
  - intros _ s2 (P2 & C2 & G2). split_and!; [by eapply progress_trans|eapply complete_trans; [apply P1|apply P2|done..]|].
    intros fr' f many i r [->|Hin]%elem_of_cons Hf Hr Href.
    + eapply shrinks_gone; [apply P2|]. apply (G1 f many i r); [congruence|done..].
    + destruct (row_at s1 (other_coll, i)) as [r'|] eqn:E; [|by eapply shrinks_gone; [apply P2|]].
      apply (G2 fr' f many i r'); try done. apply (shrinks_row s s1) in E; [congruence|apply P1].
  - intros e s2. by apply fails_trans.
Qed.
Lemma cascade_delete_post s0 colls s : colls ⊆ all -> shrinks s0 s ->
  post (_cascade_delete delete c record_id colls) s
    (fun _ s' => progress s0 p s s' /\ complete s s' /\ forall y, y.1 ∈ colls -> cascades s p y -> row_at s' y = None)
    (cascade_fails s0 s).
Proof.
  revert s. induction colls as [|c' colls IH]; intros s Hsub Hs.
  { split_and!; [apply progress_refl|apply complete_refl|]. by intros y ?%elem_of_nil. }
  assert (Ha : c' ∈ all) by (apply Hsub; by left). assert (Hsub' : colls ⊆ all) by set_solver.
  cbn [_cascade_delete]. apply post_bind. eapply post_conseq; [by apply (cascade_fields_post s0)| |done].
  intros _ s1 (P1 & C1 & G1). eapply post_conseq; [apply IH; [done|by eapply shrinks_trans; [|apply P1]]| |].
  - intros _ s2 (P2 & C2 & G2). split_and!; [by eapply progress_trans|eapply complete_trans; [apply P1|apply P2|done..]|].
    intros y Hy Hc. pose proof Hc as (Hya & fr & f & many & r & Hfr & Hf%cascade_field_relation & Hr & Href). cbn [fst snd] in Hf, Href.
    apply elem_of_cons in Hy as [Hy|Hy].
    + eapply shrinks_gone; [apply P2|]. destruct y as [y1 i]. cbn [fst] in Hy. subst y1. by apply (G1 fr f many i r).
    + destruct (row_at s1 y) as [r'|] eqn:E; [|by eapply shrinks_gone; [apply P2|]]. apply G2; [done|]. split; [done|].
      exists fr, f, many, r'. split; [done|]. split; [by apply cascade_field_relation|]. split; [done|].
      apply (shrinks_row s s1) in E; [congruence|apply P1].
  - intros e s2. by apply fails_trans.
Qed.
End Recursion.

Context (unique : forall c c', c ∈ all -> c' ∈ all -> table_name c = table_name c' -> c = c').
Lemma same_row (x y : Collection * string) : x.1 ∈ all -> y.1 ∈ all -> x = y \/ x <> y.
Proof.
  intros Hx Hy. destruct (decide ((table_name x.1, x.2) = (table_name y.1, y.2))) as [[= Ht Hi]|Hne].
  - left. destruct x, y. cbn in *. f_equal; [by apply unique|done].
  - right. intros ->. by apply Hne.
Qed.
Lemma delete_from_post s c rid : c ∈ all -> post (delete_from c rid) s
  (fun _ s' => progress s (c, rid) s s' /\ row_at s' (c, rid) = None /\ s_files s' = s_files s /\
     forall x, x.1 ∈ all -> x <> (c, rid) -> row_at s' x = row_at s x)
  (fun e s' => progress s (c, rid) s s' /\ e <> OutOfFuel).
Proof.
  intros Hc. unfold post, delete_from. pose proof (delete_row_fuel (s_db s) (table_name c) rid) as Hfuel.
  destruct (delete_row (s_db s) (table_name c) rid) as [r d'] eqn:E. cbn [fst] in Hfuel.
  pose proof (delete_row_this _ _ _ _ _ E) as Hthis. pose proof (fun t' i' => delete_row_others _ _ _ _ _ t' i' E) as Hothers.
  assert (P : progress s (c, rid) s (mkState d' (s_files s))).
  { split.
    - intros t i. cbn [s_db]. destruct (decide ((t, i) = (table_name c, rid))) as [[= -> ->]|Hne]; [|left; by apply Hothers].
      destruct Hthis as [?|[_ ?]]; [by right|by left].
    - intros [c' i] Hc' Hin Hout. destruct (decide ((table_name c', i) = (table_name c, rid))) as [[= Ht ->]|Hne].
      + rewrite (unique c' c Hc' Hc Ht). apply rtc_refl.
      + unfold row_at in Hout, Hin. cbn [fst snd s_db] in Hout, Hin. by rewrite Hothers in Hout. }
  destruct r as [[]|e]; [|split; [done|congruence]]. split_and!; [done| |done|].
  - destruct Hthis as [?|[[] _]]; done.
  - intros [c' i] Hc' Hne. apply Hothers. intros [= Ht ->]. by rewrite (unique c' c Hc' Hc Ht) in Hne.
Qed.

Lemma delete_record_post rank fuel x s : x.1 ∈ all -> delete_meets rank fuel (delete_record fuel all) x s.
Proof.
  revert x s. induction fuel as [|n IH]; intros [c rid] s Hc; unfold delete_meets; cbn [fst snd delete_record] in *.
  { unfold post, stm_raise. split; [apply progress_refl|lia]. }
  apply post_bind. unfold post at 1, asks. destruct (validate_record_id _); [|split; [apply progress_refl|done]].
  apply post_bind. unfold post at 1, of_field, asks. destruct (_get_schema_fields c) as [fs|[]] eqn:Efs;
    [|split; [apply progress_refl|done]..].
  apply post_bind. unfold post at 1, asks. destruct (select_row _ _ _) as [found|e] eqn:Erow;
    [|split; [apply progress_refl|intros _ _ ->; by apply select_row_fuel in Erow]].
  apply select_row_ok in Erow. destruct found as [r|]; [|split_and!; [apply progress_refl|apply complete_refl|done]].
  apply post_bind. eapply post_conseq; [apply (cascade_delete_post rank n _ IH c rid s); [done|apply shrinks_refl]| |done].
  intros _ s1 (P1 & C1 & G1). apply post_bind. eapply post_conseq; [by apply delete_from_post| |].
  2:{ intros e s2 [P2 He]. split; [|done]. eapply progress_trans; [exact P1|].
      eapply progress_weaken; [apply P1|apply rtc_refl|exact P2]. }
  intros _ s2 (P2 & Hgone & Hlog & Hothers). apply post_bind.
  assert (P : progress s (c, rid) s s2).
  { eapply progress_trans; [exact P1|]. eapply progress_weaken; [apply P1|apply rtc_refl|exact P2]. }
  unfold post, delete_stored_files. set (s3 := mkState _ _).
  assert (P3 : progress s (c, rid) s s3) by exact P. assert (Hrows : forall y, row_at s3 y = row_at s2 y) by done.
  assert (C : complete s s3).
  { destruct C1 as [F1 C1]. split.
    - cbn. rewrite Hlog. etrans; [exact F1|]. by apply prefix_app_r.
    - intros y ry Hy Hin Hout. rewrite Hrows in Hout. destruct (same_row y (c, rid) Hy Hc) as [->|Hne].
      + split; [|exists fs; split; [done|]].
        * intros z Hz. rewrite Hrows. eapply shrinks_gone; [apply P2|]. apply G1; [apply Hz|done].
        * cbn. apply elem_of_app. right. unfold row_at in Hin. cbn in Hin. rewrite <- Erow in Hin. injection Hin as <-. by left.
      + rewrite Hothers in Hout by done. destruct (C1 y ry Hy Hin Hout) as (Hz & fs' & Hfs' & Hf). split.
        * intros z Hc'. rewrite Hrows. eapply shrinks_gone; [apply P2|by apply Hz].
        * exists fs'. split; [done|]. cbn. rewrite Hlog. apply elem_of_app. by left. }
  destruct (remove_files _ _ _ _) as [[]|]; [split; [done|congruence]|by split_and!|split; [done|congruence]|by split_and!].
Qed.
End Progress.

(** C22: Deleting a record with cascades, when no chain of cascading
    references below it is longer than the fuel (in particular none is a
    cycle): it does not run out of fuel; whatever the outcome, errors half way
    included, only records that are reachable through cascading relations are
    removed and every other row is as it was; and when it returns for a record
    that exists, the record and everything reachable from it is gone, and the file references of each
    record it removed were handed to the deletion of files. *)
Theorem cascade_delete_exact (store : RecordStore) (laws : RecordStoreLaws store) all rank fuel c rid s r s'
  (Hunique : forall c c', c ∈ all -> c' ∈ all -> table_name c = table_name c' -> c = c')
  (Hc : c ∈ all) (Hranked : ranked all rank s) (Hfuel : rank (c, rid) < fuel)
  (Hrun : delete_record fuel all c rid s = (r, s')) :
  r <> Err OutOfFuel /\
  (forall t i, row_of (s_db s') t i = row_of (s_db s) t i \/ row_of (s_db s') t i = None) /\
  (forall x, x.1 ∈ all -> row_at s x <> None -> row_at s' x = None -> rtc (cascades all s) (c, rid) x) /\
  (forall b, r = Ok b -> row_at s (c, rid) <> None -> forall x, rtc (cascades all s) (c, rid) x -> row_at s' x = None /\
     forall rx, row_at s x = Some rx ->
       exists fs names, _get_schema_fields x.1 = Ok fs /\ (c_id x.1, x.2, names) ∈ s_files s' /\ file_names fs rx names).
Proof.
  pose proof (post_run _ _ _ _ _ _ (delete_record_post all Hunique rank fuel (c, rid) s Hc) Hrun) as H.
  assert (HP : progress all s (c, rid) s s') by (destruct r; apply H). destruct HP as [Hshrink Hreach]. split_and!; [|done|done|].
  - destruct r as [b|e]; [done|]. intros [= ->]. by apply H.
  - intros b -> Hroot. destruct H as (_ & [_ HC] & Hgone).
    enough (forall x y, rtc (cascades all s) x y -> x.1 ∈ all -> row_at s x <> None -> row_at s' x = None ->
      y.1 ∈ all /\ row_at s' y = None) as Hall.
    { intros x Hx. destruct (Hall _ _ Hx Hc Hroot Hgone) as [Hxa Hx']. split; [done|]. intros rx Hrx.
      destruct (HC x rx Hxa Hrx Hx') as (_ & fs & Hfs & Hlog). exists fs, (file_references fs rx). split_and!; [done..|apply file_references_names]. }
    induction 1 as [x|x y z Hxy _ IH]; [done|]. intros Hx Hin Hx'. destruct (row_at s x) as [rx|] eqn:Erx; [|done].
    apply IH; [apply Hxy| |by eapply (HC x rx)]. destruct Hxy as (_ & _ & _ & _ & ry & _ & _ & Hry & _). congruence.
Qed.

(** ** Cycles *)
Section Cycles.
Context {store : RecordStore} {laws : RecordStoreLaws store}.
Context (all : list Collection) (K : Collection * string -> Prop).
(** Nothing raises: the ids of the rows, schemas and relations are well
    formed, and the database and the storage answer. *)
Definition valid_id (i : string) : Prop := is_ok (validate_record_id (PStr i)) = true.
Definition valid_ids (d : db) : Prop := forall c i, c ∈ all -> row_of d (table_name c) i <> None -> valid_id i.
Record smooth : Prop := {
  sm_schema : forall c, c ∈ all -> exists fs, _get_schema_fields c = Ok fs;
  sm_field : forall c c' fr, c ∈ all -> c' ∈ all -> fr ∈ schema c' -> exists o, cascade_field c fr = Ok o;
  sm_row : forall d t i, exists r, select_row d t i = Ok r;
  sm_refs : forall d t f many rid, exists ids, select_refs d t f many rid = Ok ids;
  sm_delete : forall d t i, exists d', delete_row d t i = (Ok tt, d');
  sm_files : forall d c i names, remove_files d c i names = None;
}.
(** Every record of [K] is there and a record of [K] refers to it. *)
Definition knotted (s : store_state) : Prop := valid_ids (s_db s) /\
  forall x, K x -> x.1 ∈ all /\ row_at s x <> None /\ exists y, K y /\ cascades all s x y.
Definition same_knot (s s' : store_state) : Prop :=
  (valid_ids (s_db s) -> valid_ids (s_db s')) /\ forall x, K x -> row_at s' x = row_at s x.
Lemma same_knot_refl s : same_knot s s.
Proof. done. Qed.
Lemma same_knot_trans s1 s2 s3 : same_knot s1 s2 -> same_knot s2 s3 -> same_knot s1 s3.
Proof. intros [V1 H1] [V2 H2]. split; [eauto|]. intros x Hx. by rewrite H2, H1. Qed.
Lemma knotted_same s s' : same_knot s s' -> knotted s -> knotted s'.
Proof.
  intros [V H] [Hv Hk]. split; [by apply V|]. intros x Hx. destruct (Hk x Hx) as (Ha & Hr & y & Hy & Hya & fr & f & many & r & ? & ? & Hry & ?).
  split_and!; [done|by rewrite H|]. exists y. split; [done|]. split; [done|]. exists fr, f, many, r. by rewrite H.
Qed.

Context (Hsmooth : smooth) (unique : forall c c', c ∈ all -> c' ∈ all -> table_name c = table_name c' -> c = c').
(** The only exception, which leaves the records of [K]. *)
Definition out_of_fuel (s : store_state) (e : delete_exn) (s' : store_state) : Prop := e = OutOfFuel /\ same_knot s s'.
Lemma out_of_fuel_trans s s1 e s2 : same_knot s s1 -> out_of_fuel s1 e s2 -> out_of_fuel s e s2.
Proof. intros H [-> H2]. split; [done|]. by eapply same_knot_trans. Qed.
(** A deletion that comes back was not one of a record of [K]. *)
Definition avoids (m : D bool) (x : Collection * string) (s : store_state) : Prop :=
  post m s (fun _ s' => same_knot s s' /\ ~ K x) (out_of_fuel s).
Section Step.
Context (delete : Collection -> string -> D bool)
  (Hdelete : forall x s, x.1 ∈ all -> valid_id x.2 -> knotted s -> avoids (delete x.1 x.2) x s) (c : Collection) (rid : string).

Lemma delete_each_avoids c' ids s : c' ∈ all -> Forall valid_id ids -> knotted s -> post (delete_each delete c' ids) s
  (fun _ s' => same_knot s s' /\ forall i, i ∈ ids -> ~ K (c', i)) (out_of_fuel s).
Proof.
  intros Hc'. revert s. induction ids as [|i ids IH]; intros s Hv Hs; [split; [done|by intros i ?%elem_of_nil]|].
  apply Forall_cons in Hv as [Hi Hv]. cbn [delete_each]. apply post_bind. eapply post_conseq; [by apply (Hdelete (c', i) s)| |done]. intros _ s1 [H1 HiK].
  eapply post_conseq; [apply IH; [done|by eapply knotted_same]| |intros e s2; by apply out_of_fuel_trans]. intros _ s2 [H2 Hids].
  split; [by eapply same_knot_trans|]. intros j [->|Hj]%elem_of_cons; [done|by apply Hids].
Qed.
Lemma cascade_fields_avoids c' fields s : c ∈ all -> c' ∈ all -> fields ⊆ schema c' -> knotted s ->
  post (cascade_fields delete c rid c' fields) s
    (fun _ s' => same_knot s s' /\ forall fr f many i r, fr ∈ fields -> cascade_field c fr = Ok (Some (f, many)) ->
       row_at s (c', i) = Some r -> refers r f many rid = true -> ~ K (c', i)) (out_of_fuel s).
Proof.
  intros Hc Hc'. revert s. induction fields as [|fr fields IH]; intros s Hsub Hs.
  { split; [done|by intros ????? ?%elem_of_nil]. }
  cbn [cascade_fields]. apply post_bind. unfold post at 1, asks.
  destruct (sm_field Hsmooth c c' fr Hc Hc') as [found Hfound]; [apply Hsub; by left|]. rewrite Hfound.
  apply post_bind.
  assert (Hfield : post (match found with
      | Some (f, many) => related_ids ← asks (fun d => select_refs d (table_name c') f many rid); delete_each delete c' related_ids
      | None => mret tt end) s
    (fun _ s' => same_knot s s' /\ forall f many i r, found = Some (f, many) -> row_at s (c', i) = Some r ->
       refers r f many rid = true -> ~ K (c', i)) (out_of_fuel s)).
  { destruct found as [[f many]|]; [|split; [apply same_knot_refl|done]]. apply post_bind. unfold post at 1, asks.
    destruct (sm_refs Hsmooth (s_db s) (table_name c') f many rid) as [ids Hids]. rewrite Hids.
    pose proof (select_refs_ok _ _ _ _ _ _ Hids) as Hin. eapply post_conseq; [apply delete_each_avoids; [done| |done]| |done].
    { apply Forall_forall. intros i (r & Hr & _)%Hin. apply (proj1 Hs c' i Hc'). congruence. }
    intros _ s1 [H1 Hi]. split; [done|].
    intros f' many' i r [= <- <-] Hr Href. apply Hi, Hin. by exists r. }
  eapply post_conseq; [exact Hfield| |done]. clear Hfield. intros _ s1 [H1 G1].
  eapply post_conseq; [apply IH; [set_solver|by eapply knotted_same]| |intros e s2; by apply out_of_fuel_trans]. intros _ s2 [H2 G2].
  split; [by eapply same_knot_trans|]. intros fr' f many i r [->|Hin]%elem_of_cons Hf Hr Href HK.
  - apply (G1 f many i r); [congruence|done..].
  - apply (G2 fr' f many i r); try done. by rewrite (proj2 H1 _ HK).
Qed.
Lemma cascade_avoids colls s : c ∈ all -> colls ⊆ all -> knotted s -> post (_cascade_delete delete c rid colls) s
  (fun _ s' => same_knot s s' /\ forall y, y.1 ∈ colls -> cascades all s (c, rid) y -> ~ K y) (out_of_fuel s).
Proof.
  intros Hc. revert s. induction colls as [|c' colls IH]; intros s Hsub Hs.
  { split; [done|by intros y ?%elem_of_nil]. }
  assert (Hc' : c' ∈ all) by (apply Hsub; by left). cbn [_cascade_delete]. apply post_bind.
  eapply post_conseq; [by apply cascade_fields_avoids| |done]. intros _ s1 [H1 G1].
  eapply post_conseq; [apply IH; [set_solver|by eapply knotted_same]| |intros e s2; by apply out_of_fuel_trans]. intros _ s2 [H2 G2].
  split; [by eapply same_knot_trans|]. intros y Hy (Hya & fr & f & many & r & Hfr & Hf%cascade_field_relation & Hr & Href) HK.
  apply elem_of_cons in Hy as [Hy|Hy].
  - destruct y as [y1 i]. cbn [fst snd] in *. subst y1. by apply (G1 fr f many i r).
  - apply (G2 y Hy); [|done]. split; [done|]. exists fr, f, many, r.
    by rewrite (proj2 H1 _ HK), <- cascade_field_relation.
Qed.
End Step.

Lemma delete_record_avoids fuel x s : x.1 ∈ all -> valid_id x.2 -> knotted s -> avoids (delete_record fuel all x.1 x.2) x s.
Proof.
  revert x s. induction fuel as [|n IH]; intros [c rid] s Hc Hid Hs; cbn [fst snd delete_record] in *; [done|]. unfold avoids.
  apply post_bind. unfold post at 1, asks. unfold valid_id in Hid.
  destruct (validate_record_id _); [|done].
  apply post_bind. unfold post at 1, of_field, asks. destruct (sm_schema Hsmooth c Hc) as [fs ->].
  apply post_bind. unfold post at 1, asks. destruct (sm_row Hsmooth (s_db s) (table_name c) rid) as [found Hrow]. rewrite Hrow.
  apply select_row_ok in Hrow. destruct found as [r|].
  2:{ split; [done|]. intros HK. by destruct (proj2 Hs _ HK) as (_ & Hin & _). }
  apply post_bind. eapply post_conseq; [by apply (cascade_avoids _ IH)| |done]. intros _ s1 [H1 G1].
  assert (HnK : ~ K (c, rid)) by (intros HK; destruct (proj2 Hs _ HK) as (_ & _ & y & HyK & Hy); apply (G1 y); [apply Hy|done..]).
  apply post_bind. unfold post at 1, delete_from. destruct (sm_delete Hsmooth (s_db s1) (table_name c) rid) as [d' Hd]. rewrite Hd.
  apply post_bind. unfold post at 1, delete_stored_files. rewrite (sm_files Hsmooth).
  split; [|done]. eapply same_knot_trans; [exact H1|]. cbn [s_db]. split.
  { intros Hv c' i Hc' Hin. apply (Hv c' i Hc'). intros E. apply Hin.
    destruct (decide ((table_name c', i) = (table_name c, rid))) as [[= -> ->]|Hne].
    - destruct (delete_row_this _ _ _ _ _ Hd) as [?|[[] _]]; done.
    - etrans; [exact (delete_row_others _ _ _ _ _ _ _ Hd Hne)|exact E]. }
  intros x Hx. unfold row_at. cbn [s_db].
  eapply delete_row_others; [exact Hd|]. intros [= Ht Hi]. apply HnK. destruct (proj2 Hs x Hx) as (Hxa & _).
  destruct x as [x1 x2]. cbn [fst snd] in *. subst x2. by rewrite <- (unique x1 c Hxa Hc Ht).
Qed.
End Cycles.

(** C40: Records that refer to each other in a cycle through cascading
    relations are never deleted: as long as nothing else raises (the ids,
    schemas and relations are well formed, and every query, DELETE and removal
    of files succeeds), deleting one of them runs out of any amount of fuel,
    and every record of the cycle is still there as it was. *)
Theorem cascade_cycle_diverges (store : RecordStore) (laws : RecordStoreLaws store) all (K : Collection * string -> Prop) s x fuel
  (Hsmooth : smooth all) (Hunique : forall c c', c ∈ all -> c' ∈ all -> table_name c = table_name c' -> c = c')
  (Hknot : knotted all K s) (Hx : K x) :
  exists s', delete_record fuel all x.1 x.2 s = (Err OutOfFuel, s') /\ forall y, K y -> row_at s' y = row_at s y.
Proof.
  destruct (proj2 Hknot x Hx) as (Ha & Hin & _). pose proof (proj1 Hknot x.1 x.2 Ha Hin) as Hid.
  pose proof (delete_record_avoids all K Hsmooth Hunique fuel x s Ha Hid Hknot) as H.
  unfold avoids, post in H. destruct (delete_record _ _ _ _ _) as [[b|e] s']; [by destruct H|]. destruct H as [-> H].
  exists s'. split; [done|]. apply H.
Qed.

(** ** A database in memory *)
Definition matching (t f : string) (many : bool) (rid : string) (entry : (string * string) * row) : option string :=
  if String.eqb entry.1.1 t && refers entry.2 f many rid then Some entry.1.2 else None.
Definition mem_store : RecordStore := {|
  store_lib := demo_write_lib;
  db := gmap (string * string) row;
  row_of d t i := d !! (t, i);
  select_row d t i := Ok (d !! (t, i));
  select_refs d t f many rid := Ok (omap (matching t f many rid) (map_to_list d));
  delete_row d t i := (Ok tt, delete (t, i) d);
  remove_files _ _ _ _ := None;
|}.
Lemma mem_laws : RecordStoreLaws mem_store.
Proof.
  split; cbn; try done.
  - congruence.
  - intros d t f many rid ids [= <-] i. rewrite list_elem_of_omap. split.
    + intros ([[t' i'] r] & Hin & Hm). apply elem_of_map_to_list in Hin. unfold matching in Hm. cbn in Hm.
      destruct (String.eqb_spec t' t) as [->|]; [|done]. destruct (refers r f many rid) eqn:E; [|done].
      injection Hm as ->. by exists r.
    + intros (r & Hr & Href). exists ((t, i), r). split; [by apply elem_of_map_to_list|]. unfold matching. cbn.
      by rewrite String.eqb_refl, Href.
  - intros d t i r d' t' i' [= _ <-] Hne. by apply lookup_delete_ne.
  - intros d t i r d' [= _ <-]. left. by apply lookup_delete_eq.
Qed.

Definition relation_field (name target : string) : dict :=
  [("name", PStr name); ("type", PStr "relation"); ("options", PDict [("collectionId", PStr target); ("cascadeDelete", PBool true)])].
Definition posts : Collection :=
  RequestMacros.mkCollection "c_posts" "posts" "base" [[("name", PStr "cover"); ("type", PStr "file")]] PNone.
Definition comments : Collection :=
  RequestMacros.mkCollection "c_comments" "comments" "base" [relation_field "post" "c_posts"] PNone.
Definition nodes : Collection := RequestMacros.mkCollection "c_nodes" "nodes" "base" [relation_field "next" "c_nodes"] PNone.
Definition demo_collections : list Collection := [posts; comments; nodes].
Lemma demo_unique : forall c c', c ∈ demo_collections -> c' ∈ demo_collections -> table_name c = table_name c' -> c = c'.
Proof.
  intros c c' H H'. unfold demo_collections in *. rewrite !elem_of_cons in *.
  destruct H as [->|[->|[->|?%elem_of_nil]]], H' as [->|[->|[->|?%elem_of_nil]]]; done.
Qed.
Definition demo_db : gmap (string * string) row :=
  list_to_map [(("posts", "p1"), [("id", Plain (PStr "p1")); ("cover", Plain (PStr "a.png"))]);
               (("posts", "p2"), [("id", Plain (PStr "p2"))]);
               (("comments", "c1"), [("id", Plain (PStr "c1")); ("post", Plain (PStr "p1"))]);
               (("comments", "c2"), [("id", Plain (PStr "c2")); ("post", Plain (PStr "p2"))])].
Definition demo_state : @store_state mem_store := @mkState mem_store demo_db [].
(** Comments have rank 0, posts 1. *)
Definition demo_rank (x : Collection * string) : nat := if String.eqb (c_id x.1) "c_posts" then 1 else 0.
Definition demo_delete : result delete_exn bool * @store_state mem_store :=
  @delete_record mem_store 2 demo_collections posts "p1" demo_state.

Lemma relation_cascades c name target : cascade_field c (relation_field name target) =
  Ok (if String.eqb target (c_id c) then if String.eqb name "" then None else Some (name, false) else None).
Proof.
  unfold cascade_field, relation_field. cbn. destruct (String.eqb target (c_id c)); [|done]. cbn.
  by destruct (String.eqb name "").
Qed.
Lemma demo_cascade_field c c' fr f many : c' ∈ demo_collections -> fr ∈ schema c' -> cascade_field c fr = Ok (Some (f, many)) ->
  (c' = comments /\ c_id c = "c_posts") \/ (c' = nodes /\ c_id c = "c_nodes" /\ f = "next" /\ many = false).
Proof.
  unfold demo_collections. rewrite !elem_of_cons. intros [->|[->|[->|?%elem_of_nil]]] Hfr; [| | |done];
    apply list_elem_of_singleton in Hfr as ->; [done|..]; rewrite relation_cascades;
    match goal with |- context [String.eqb ?a ?b] => destruct (String.eqb_spec a b) as [E|_]; [|done] end.
  - intros _. by left.
  - intros [= <- <-]. by right.
Qed.
Lemma demo_ranked : @ranked mem_store demo_collections demo_rank demo_state.
Proof.
  intros [c i] [c' i'] (Hc' & fr & f & many & r & Hfr & Hf%cascade_field_relation & Hr & Href). cbn [fst snd] in *. unfold demo_rank. cbn [fst].
  destruct (demo_cascade_field _ _ _ _ _ Hc' Hfr Hf) as [[-> ->]|(-> & _)]; [cbn; lia|]. exfalso.
  change (demo_db !! ("nodes", i') = Some r) in Hr. apply elem_of_list_to_map_2 in Hr. rewrite !elem_of_cons in Hr.
  by destruct Hr as [?|[?|[?|[?|?%elem_of_nil]]]].
Qed.
Lemma cascade_delete_exact_witness :
  (@delete_record mem_store 2 demo_collections posts "p1" demo_state).1 <> Err OutOfFuel /\
  map_to_list (s_db (store := mem_store) demo_delete.2) = map_to_list (list_to_map (M := gmap (string * string) row)
    [(("posts", "p2"), [("id", Plain (PStr "p2"))]); (("comments", "c2"), [("id", Plain (PStr "c2")); ("post", Plain (PStr "p2"))])]) /\
  s_files (store := mem_store) demo_delete.2 = [("c_comments", "c1", []); ("c_posts", "p1", ["a.png"])].
Proof.
  split; [|vm_compute; by split].
  refine (proj1 (cascade_delete_exact mem_store mem_laws demo_collections demo_rank 2 posts "p1" demo_state _ demo_delete.2
    demo_unique _ demo_ranked _ _)).
  - by left.
  - cbn. lia.
  - unfold demo_delete. by destruct (delete_record _ _ _ _ _).
Defined.

(** Two nodes that point at each other. *)
Definition demo_ring_db : gmap (string * string) row :=
  list_to_map [(("nodes", "n1"), [("next", Plain (PStr "n2"))]); (("nodes", "n2"), [("next", Plain (PStr "n1"))])].
Definition demo_ring : @store_state mem_store := @mkState mem_store demo_ring_db [].
Definition ring (x : Collection * string) : Prop := x = (nodes, "n1") \/ x = (nodes, "n2").
Lemma demo_smooth : @smooth mem_store demo_collections.
Proof.
  split; try (intros; by eexists).
  - intros c Hc. unfold demo_collections in Hc. rewrite !elem_of_cons in Hc.
    destruct Hc as [->|[->|[->|?%elem_of_nil]]]; [eexists; vm_compute; reflexivity..|done].
  - unfold demo_collections. intros c c' fr _. rewrite !elem_of_cons. intros [->|[->|[->|?%elem_of_nil]]] Hfr; [| | |done];
      apply list_elem_of_singleton in Hfr as ->; [by eexists|..]; rewrite relation_cascades; by eexists.
Qed.
Lemma demo_knot : @knotted mem_store demo_collections ring demo_ring.
Proof.
  split.
  - intros c i _ Hin. destruct (row_of _ _ _) as [r|] eqn:E in Hin; [|done].
    change (demo_ring_db !! (table_name c, i) = Some r) in E. apply elem_of_list_to_map_2 in E.
    unfold valid_id. rewrite !elem_of_cons in E. destruct E as [E|[E|E]]; [injection E as _ -> _|injection E as _ -> _|by apply elem_of_nil in E];
      vm_compute; done.
  - assert (Hn : nodes ∈ demo_collections) by (unfold demo_collections; set_solver).
    intros x [-> | ->]; (split; [done|split; [vm_compute; done|]]);
      [exists (nodes, "n2")|exists (nodes, "n1")]; (split; [unfold ring; tauto|]); (split; [done|]);
      exists (relation_field "next" "c_nodes"), "next", false; eexists; (split; [by left|]); (split; [by apply cascade_field_relation|]);
      split; vm_compute; reflexivity.
Qed.
Lemma cascade_cycle_diverges_witness : exists s', @delete_record mem_store 100 demo_collections nodes "n1" demo_ring = (Err OutOfFuel, s') /\
  @row_at mem_store s' (nodes, "n1") = Some [("next", Plain (PStr "n2"))].
Proof.
  destruct (cascade_cycle_diverges mem_store mem_laws demo_collections ring demo_ring (nodes, "n1") 100
    demo_smooth demo_unique demo_knot (or_introl eq_refl)) as (s' & Hrun & Hrows).
  exists s'. split; [exact Hrun|]. rewrite (Hrows (nodes, "n1")) by by left. reflexivity.
Defined.
