(* ===== verification/RecordList.v ===== *)
(** * Listing records (ppbase/services/record_service.py, [list_records] and
      [check_record_rule])

    The relation index that a filter needs and its cache, the WHERE and ORDER
    BY of a list, its two queries with one retry each, and the page of
    responses; and the query that checks a rule against one record.  The
    database's answers are an environment; every query is kept in a trace. *)
From Stdlib Require Import Ascii String.
From S2P Require Import Prelude PyText PyVal FieldTypes RecordResponse RecordWrite.
From S2P Require FilterParser FilterSafety RequestMacros.
#[local] Open Scope string_scope.
#[local] Open Scope list_scope.

(** ** The relation index *)
(** A row of [_collections]: the collection, and its [updated] as text. *)
Abbreviation listed := (Collection * string)%type.
Definition RelationIndex : Type := dict.

(** [str(d.get(key) or "")] and [d.get(key) or {}] *)
Definition text_field `{FloatText} (key : string) (d : dict) : string :=
  py_str (py_or (default PNone (dict_get key d)) (PStr "")).
Definition options_field (d : dict) : pyval := py_or (default PNone (dict_get "options" d)) (PDict []).
Definition field_info (type : string) (rest : dict) : pyval := PDict (("type", PStr type) :: rest).

Definition _collection_field_metadata `{FloatText} (c : Collection) : dict :=
  fold_left (fun fields raw =>
      let field := _normalize_field raw in
      let name := text_field "name" field in
      if String.eqb name "" then fields
      else dict_set name (field_info (text_field "type" field) [("options", options_field field)]) fields)
    (schema c)
    [("id", field_info "text" []); ("created", field_info "date" []); ("updated", field_info "date" [])].

Inductive list_exn : Type :=
| ListValueError (message : string)
| ListFilterError (e : FilterParser.filter_error)
| ListSortError (e : FilterParser.exn)
| ListMacroError (e : RequestMacros.macro_exn)
| ListFieldError (e : field_exn)
| ListAttributeError
| ListQueryError (kind : string).

Definition _relation_targets `{FloatText} (c : Collection) (by_id by_name : list (string * Collection))
  : result list_exn (list (string * Collection * Z)) :=
  fold_result (fun targets raw =>
      let field := _normalize_field raw in
      if negb (text_is "relation" (dict_get "type" field)) then Ok targets
      else
        match options_field field with
        | PDict opts =>
            let ref := py_str (default PNone (dict_get "collectionId" opts)) in
            let target := match dict_get ref by_id with Some t => Some t | None => dict_get ref by_name end in
            let name := text_field "name" field in
            match target with
            | Some t =>
                if String.eqb name "" then Ok targets
                else match py_int (py_or (default (PInt 1) (dict_get "maxSelect" opts)) (PInt 1)) with
                     | Some n => Ok (targets ++ [(name, t, n)])
                     | None => Err (ListValueError "maxSelect")
                     end
            | None => Ok targets
            end
        | _ => Err ListAttributeError
        end)
    (schema c) [].

(** [sorted] of the collections' (id, name, updated, number of fields) *)
Definition signature_entry : Type := string * string * string * string.
Definition signature_text (e : signature_entry) : list string := let '(a, b, c, d) := e in [a; b; c; d].
Fixpoint texts_leb (a b : list string) : bool :=
  match a, b with
  | [], _ => true
  | _, [] => false
  | x :: a', y :: b' => match String.compare x y with Lt => true | Gt => false | Eq => texts_leb a' b' end
  end.
Definition _relation_index_signature (collections : list listed) : list signature_entry :=
  py_sorted (fun x y => texts_leb (signature_text x) (signature_text y))
    ((fun l => (c_id l.1, c_name l.1, l.2, str_of_nat (length (schema l.1)))) <$> collections).

Definition dict_at (key : string) (d : dict) : dict := as_dict (default PNone (dict_get key d)).
Definition collection_meta `{FloatText} (c : Collection) : pyval :=
  PDict [("id", PStr (c_id c)); ("table", PStr (table_name c)); ("fields", PDict (_collection_field_metadata c));
         ("relations", PDict [])].
Definition forward_relation (name target_table : string) (max_select : Z) : pyval :=
  PDict [("kind", PStr "forward"); ("field", PStr name); ("table", PStr target_table); ("max_select", PInt max_select)].
Definition back_relation (name table : string) (max_select : Z) : pyval :=
  PDict [("kind", PStr "back"); ("table", PStr table); ("back_field", PStr name); ("max_select", PInt max_select)].
(** [d[k1][k2] = v] *)
Definition set_in (k1 k2 : string) (v : pyval) (d : dict) : dict := dict_set k1 (PDict (dict_set k2 v (dict_at k1 d))) d.
Definition add_relation (c : Collection) (acc : dict * dict) (relation : string * Collection * Z) : dict * dict :=
  let '(collections_meta, back_relations) := acc in
  let '(field_name, target, max_select) := relation in
  let table := table_name c in
  let meta := dict_at table collections_meta in
  (dict_set table (PDict (set_in "relations" field_name (forward_relation field_name (table_name target) max_select) meta))
     collections_meta,
   set_in (table_name target) (table +:+ "_via_" +:+ field_name) (back_relation field_name table max_select) back_relations).
Definition _build_relation_index_from_collections `{FloatText} (collections : list Collection) : result list_exn RelationIndex :=
  let by_id := fold_left (fun m c => dict_set (c_id c) c m) collections [] in
  let by_name := fold_left (fun m c => dict_set (c_name c) c m) collections [] in
  let metas := fold_left (fun m c => dict_set (table_name c) (collection_meta c) m) collections [] in
  filled ← fold_result (fun acc c => targets ← _relation_targets c by_id by_name; Ok (fold_left (add_relation c) targets acc))
             collections (metas, []);
  Ok [("__flat__", PBool true); ("collections", PDict filled.1); ("back_relations", PDict filled.2)].

(** ** Whether a filter needs the whole index *)
Inductive scan_mode : Type := Outside | Quoted (quote : ascii) (escaped : bool).
(** The text outside of quotes, blanks for the rest. *)
Fixpoint unquoted (m : scan_mode) (s : string) : string :=
  match s with
  | EmptyString => ""
  | String c s' =>
      match m with
      | Quoted q escaped =>
          String " " (unquoted (if escaped then Quoted q false
                                else if (code c =? 92)%N then Quoted q true
                                else if Ascii.eqb c q then Outside else Quoted q false) s')
      | Outside =>
          if (code c =? 39)%N || (code c =? 34)%N then String " " (unquoted (Quoted c false) s')
          else String c (unquoted Outside s')
      end
  end.
(** [re.sub(r"//[^\n]*", "", s)] *)
Fixpoint drop_line (s : string) : string :=
  match s with EmptyString => "" | String c s' => if Ascii.eqb c newline then s else drop_line s' end.
Fixpoint without_comments (fuel : nat) (s : string) : string :=
  match fuel with
  | O => ""
  | S fuel =>
      match s with
      | EmptyString => ""
      | String c s' => if starts_with "//" s then without_comments fuel (drop_line s) else String c (without_comments fuel s')
      end
  end.
Definition is_path_start (c : ascii) : bool := is_ascii_alpha c || (code c =? 95)%N.
Definition is_path_char (c : ascii) : bool := is_path_start c || is_ascii_digit c || (code c =? 58)%N.
(** The match of the dotted path's expression at the start of [s]. *)
Definition dotted_here (s : string) : bool :=
  match s with
  | String c s' =>
      is_path_start c && match (span is_path_char s').2 with
                         | String d (String e _) => Ascii.eqb d "." && is_path_start e
                         | _ => false
                         end
  | EmptyString => false
  end.
(** [_DOTTED_FILTER_PATH_RE.search]; [prev] is the character before. *)
Fixpoint dotted_path (prev : option ascii) (s : string) : bool :=
  match s with
  | EmptyString => false
  | String c s' =>
      (match prev with
       | Some p => negb (is_path_char p || Ascii.eqb p "@" || Ascii.eqb p ".")
       | None => true
       end && dotted_here s) || dotted_path (Some c) s'
  end.
Definition _filter_needs_relation_index (filter_expression : string) : bool :=
  let text := unquoted Outside filter_expression in
  let expression := without_comments (S (String.length text)) text in
  contains "@collection." expression || dotted_path None expression.

(** ** The environment *)
Inductive query_exn : Type := NotSupportedError | QueryFailed (kind : string).
Abbreviation params := (list (string * FilterParser.value)).
Inductive query : Type :=
| QCollections
| QCount (sql : string) (p : params)
| QPage (sql : string) (p : params)
| QRule (sql : string) (p : params).

Class ListEnv : Type := {
  list_lib :: RecordLib;
  list_grammar :: FilterParser.FilterGrammar;
  list_database :: RequestMacros.Database;
  macro_order : list (string * string) -> list (string * string);
  ask_collections : list query -> result query_exn (list listed);
  ask_count : list query -> string -> params -> result query_exn (option Z);
  ask_page : list query -> string -> params -> result query_exn (list row);
  ask_rule : list query -> string -> params -> result query_exn bool;
}.

Section Listing.
Context {env : ListEnv}.
(** The queries so far, [_RELATION_INDEX_CACHE] for the engine, and what the
    macros read. *)
Record list_state : Type := mkListState {
  ls_trace : list query;
  ls_cache : option (list signature_entry * RelationIndex);
  ls_db : RequestMacros.db;
}.
Definition S' : Type -> Type := stm list_state list_exn.
Definition query_error (e : query_exn) : list_exn :=
  ListQueryError (match e with NotSupportedError => "NotSupportedError" | QueryFailed k => k end).
(** One query, in the trace before it is answered. *)
Definition ask {A} (q : query) (answer : list query -> result query_exn A) : stm list_state query_exn A := fun s =>
  (answer (ls_trace s), mkListState (ls_trace s ++ [q]) (ls_cache s) (ls_db s)).
Definition once {A} (m : stm list_state query_exn A) : S' A := fun s =>
  match m s with (Ok a, s') => (Ok a, s') | (Err e, s') => (Err (query_error e), s') end.
(** [for _attempt in range(2)]: again after the first [NotSupportedError]. *)
Definition with_retry {A} (m : stm list_state query_exn A) : S' A := fun s =>
  match m s with
  | (Err NotSupportedError, s') => once m s'
  | (Ok a, s') => (Ok a, s')
  | (Err e, s') => (Err (query_error e), s')
  end.

(** The index of the collections, the cached one when its signature is theirs. *)
Definition cached_index (collections : list listed) : S' RelationIndex := fun s =>
  let signature := _relation_index_signature collections in
  let build := match _build_relation_index_from_collections collections.*1 with
               | Ok index => (Ok index, mkListState (ls_trace s) (Some (signature, index)) (ls_db s))
               | Err e => (Err e, s)
               end in
  match ls_cache s with
  | Some (cached, index) => if bool_decide (cached = signature) then (Ok index, s) else build
  | None => build
  end.
Definition _build_relation_index : S' RelationIndex :=
  collections ← once (ask QCollections ask_collections);
  cached_index collections.
Definition _build_filter_resolvers (c : Collection) (filter_expression : string) : S' (RelationIndex * option RelationIndex) :=
  own ← stm_lift (_build_relation_index_from_collections [c]);
  relation_resolver ← (if _filter_needs_relation_index filter_expression then _build_relation_index else mret own);
  mret (relation_resolver, if contains "@collection." filter_expression then Some relation_resolver else None).

(** The context with the values of the filter's macros, read by a new loader. *)
Definition macro_context (c : Collection) (filter_str : string) (request_context : option dict) : S' (option dict) := fun s =>
  let '(r, ld) := RequestMacros.resolve_request_macros macro_order (Some filter_str) request_context (Some c)
                    (RequestMacros.new_loader (ls_db s)) in
  (match r with Ok ctx => Ok ctx | Err e => Err (ListMacroError e) end,
   mkListState (ls_trace s) (ls_cache s) (RequestMacros.database ld)).
(** The condition of a filter, in the collection's table. *)
Definition filter_condition (c : Collection) (filter_str : string) (request_context : option dict) : S' (string * params) :=
  resolvers ← _build_filter_resolvers c filter_str;
  context ← macro_context c filter_str request_context;
  stm_lift (match FilterParser.parse_filter filter_str context (Some resolvers.1) resolvers.2 (Some (table_name c)) with
            | Ok out => Ok out
            | Err e => Err (ListFilterError e)
            end).

(** ** The order *)
Fixpoint strip_quotes_left (s : string) : string :=
  match s with EmptyString => "" | String c s' => if (code c =? 34)%N then strip_quotes_left s' else s end.
Fixpoint strip_quotes_right (s : string) : string :=
  match s with
  | EmptyString => ""
  | String c s' => let t := strip_quotes_right s' in if (code c =? 34)%N && String.eqb t "" then "" else String c t
  end.
Definition column_name (col_expr : string) : string := strip_quotes_left (strip_quotes_right col_expr).
Definition valid_sort_fields (schema_fields : list FieldDefinition) : list string :=
  remove_dups (["id"; "created"; "updated"] ++ (name <$> schema_fields)).
Definition text_leb (a b : string) : bool := texts_leb [a] [b].
Definition bad_sort (valid_fields : list string) (part : string * string) : option string :=
  let col_name := column_name part.1 in
  if negb (in_list col_name valid_fields) && negb (ends_with "()" part.1) && negb (String.eqb col_name "ctid")
  then Some ("Invalid sort field: " +:+ col_name +:+ ". Available fields: "
             +:+ join ", " (py_sorted text_leb valid_fields) +:+ ".") else None.
Definition default_order (c : Collection) (schema_fields : list FieldDefinition) : string :=
  if String.eqb (_collection_type c) "view" && negb (in_list "created" (name <$> schema_fields)) then "1"
  else quoted "created" +:+ " DESC".
Definition order_clause (c : Collection) (schema_fields : list FieldDefinition) (sort : option string) : result list_exn string :=
  match sort with
  | None | Some "" => Ok (default_order c schema_fields)
  | Some sort =>
      match FilterParser.parse_sort sort with
      | Err e => Err (ListSortError e)
      | Ok [] => Ok (default_order c schema_fields)
      | Ok parts =>
          match omap (bad_sort (valid_sort_fields schema_fields)) parts with
          | m :: _ => Err (ListValueError m)
          | [] => Ok (join ", " ((fun p => p.1 +:+ " " +:+ p.2) <$> parts))
          end
      end
  end.

(** ** [list_records] and [check_record_rule] *)
Definition from_where (c : Collection) (where_sql : string) : string :=
  quoted (table_name c) +:+ " WHERE " +:+ where_sql.
Definition count_sql (c : Collection) (where_sql : string) : string := "SELECT COUNT(*) AS cnt FROM " +:+ from_where c where_sql.
Definition page_tail (c : Collection) (where_sql order_sql : string) : string :=
  from_where c where_sql +:+ " ORDER BY " +:+ order_sql +:+ " LIMIT :_limit OFFSET :_offset".
Definition page_sql (c : Collection) (where_sql order_sql : string) : string := "SELECT * FROM " +:+ page_tail c where_sql order_sql.
Definition page_params (p : params) (per_page offset : Z) : params :=
  dict_set "_offset" (FilterParser.Val (PInt offset)) (dict_set "_limit" (FilterParser.Val (PInt per_page)) p).
Definition of_schema {A} (r : result field_exn A) : S' A :=
  stm_lift (match r with Ok a => Ok a | Err e => Err (ListFieldError e) end).

Definition list_records (c : Collection) (page per_page : Z) (sort filter_str fields : option string) (skip_total : bool)
    (request_context : option dict) : S' list_response :=
  schema_fields ← of_schema (_get_schema_fields c);
  condition ← match filter_str with
              | None | Some "" => mret ("1=1", [])
              | Some f => filter_condition c f request_context
              end;
  let '(where_sql, p) := condition in
  order_sql ← stm_lift (order_clause c schema_fields sort);
  let '(page, per_page, offset) := clamp_page page per_page in
  total_items ← (if skip_total : bool then mret (-1)%Z
                 else n ← with_retry (ask (QCount (count_sql c where_sql) p) (fun t => ask_count t (count_sql c where_sql) p));
                      mret (default 0%Z n));
  let p := page_params p per_page offset in
  rows ← with_retry (ask (QPage (page_sql c where_sql order_sql) p) (fun t => ask_page t (page_sql c where_sql order_sql) p));
  items ← of_schema (map_result (record_response c fields request_context) rows);
  mret (build_list_response items page per_page total_items).

Definition rule_tail (c : Collection) (where_sql : string) : string :=
  quoted (table_name c) +:+ " WHERE " +:+ quoted "id" +:+ " = :_rule_rec_id AND (" +:+ where_sql +:+ ") LIMIT 1".
Definition check_record_rule (c : Collection) (record_id rule_filter : string) (request_context : option dict) : S' bool :=
  condition ← filter_condition c rule_filter request_context;
  let '(where_sql, p) := condition in
  let sql := "SELECT 1 FROM " +:+ rule_tail c where_sql in
  let p := dict_set "_rule_rec_id" (FilterParser.Val (PStr record_id)) p in
  once (ask (QRule sql p) (fun t => ask_rule t sql p)).
End Listing.

(** ** The SQL of a list *)
Section Sql.
Context (b : string -> bool).
Abbreviation closed := (FilterSafety.closed b).
Abbreviation frag := (FilterSafety.frag b).

Lemma quoted_same s : quoted s = FilterParser.quoted s.
Proof. unfold quoted, FilterParser.quoted, FilterParser.cat. cbn [fold_right]. by rewrite append_nil_r. Qed.
Lemma scan_quoted d s y : str_forall FilterParser.is_safe s = true ->
  FilterSafety.scan b (FilterSafety.Code d FilterSafety.Other) (quoted s +:+ y) =
  FilterSafety.scan b (FilterSafety.Code d FilterSafety.Other) y.
Proof.
  intros Hs. unfold quoted. rewrite !append_assoc.
  rewrite (FilterSafety.scan_lit b _ (FilterSafety.InIdent d) dq) by reflexivity.
  rewrite FilterSafety.scan_ident by done. by rewrite (FilterSafety.scan_lit b _ (FilterSafety.Code d FilterSafety.Other) dq) by reflexivity.
Qed.
Lemma term_closed col dir : closed col -> dir = "ASC" \/ dir = "DESC" -> closed (col +:+ " " +:+ dir).
Proof.
  intros Hc Hd d. rewrite (FilterSafety.frag_sep b col d) by (by apply FilterSafety.closed_frag || done).
  destruct Hd as [-> | ->]; eexists; reflexivity.
Qed.
Lemma sort_part_closed part l : FilterParser.sort_part part = Ok l -> Forall (fun p => closed (p.1 +:+ " " +:+ p.2)) l.
Proof.
  unfold FilterParser.sort_part. destruct (String.eqb part ""); [intros [= <-]; constructor|].
  destruct (String.eqb part "@random"); [intros [= <-]; constructor; [|constructor]; apply term_closed; [intros d; eexists; reflexivity|by left]|].
  destruct (String.eqb part "@rowid"); [intros [= <-]; constructor; [|constructor]; apply term_closed; [intros d; eexists; reflexivity|by left]|].
  set (dir := if starts_with "-" part then "DESC" else "ASC"). set (col := if _ || _ then _ else part).
  destruct (FilterParser.first_bad _ col) eqn:Hbad; [done|]. apply FilterSafety.first_bad_none in Hbad. intros [= <-].
  constructor; [|constructor]. apply term_closed; [|unfold dir; destruct (starts_with "-" part); [by right|by left]]. cbn [fst].
  destruct (contains_char FilterParser.dot col) eqn:Hdot; [by apply FilterSafety.dotted_closed|].
  apply FilterSafety.quoted_closed. by apply FilterSafety.safe_no_dot.
Qed.
Lemma parse_sort_closed sort parts : FilterParser.parse_sort sort = Ok parts -> Forall (fun p => closed (p.1 +:+ " " +:+ p.2)) parts.
Proof.
  unfold FilterParser.parse_sort. destruct (String.eqb _ ""); [intros [= <-]; constructor|]. intros H.
  bind_ok H as l Hl. injection H as <-. apply map_result_ok in Hl. apply Forall_concat.
  induction Hl as [|part p ps l Hp _ IH]; constructor; [by apply (sort_part_closed _ _ Hp)|done].
Qed.
Lemma order_closed c fs sort order : order_clause c fs sort = Ok order -> closed order.
Proof.
  assert (Hd : closed (default_order c fs)).
  { unfold default_order. destruct (_ && _); intros d; eexists; reflexivity. }
  unfold order_clause. destruct sort as [[|a s]|]; [by intros [= <-]| |by intros [= <-]].
  destruct (FilterParser.parse_sort _) as [parts|] eqn:Ep; [|done]. apply parse_sort_closed in Ep.
  destruct parts as [|p parts]; [by intros [= <-]|]. destruct (omap _ _); [|done]. intros E.
  assert (order = join ", " ((fun q => q.1 +:+ " " +:+ q.2) <$> p :: parts)) as -> by (by injection E as <-).
  apply FilterSafety.join_closed; [done|done|]. by apply Forall_fmap.
Qed.
Lemma from_where_frag c where_sql : str_forall FilterParser.is_safe (table_name c) = true -> frag where_sql ->
  frag (from_where c where_sql).
Proof.
  intros Ht Hw d. unfold from_where. rewrite scan_quoted by done.
  rewrite (FilterSafety.scan_lit b _ (FilterSafety.Code d FilterSafety.Other) " WHERE ") by reflexivity. apply Hw.
Qed.
Lemma frag_scanned e : frag e -> FilterSafety.well_scanned b e = true.
Proof. intros He. unfold FilterSafety.well_scanned. by destruct (He 0) as (m & -> & Hm). Qed.
Lemma page_tail_frag c where_sql order_sql : str_forall FilterParser.is_safe (table_name c) = true -> frag where_sql ->
  closed order_sql -> b "_limit" = true -> b "_offset" = true -> frag (page_tail c where_sql order_sql).
Proof.
  intros Ht Hw Ho Hl Hf d. unfold page_tail. pose proof (from_where_frag c where_sql Ht Hw) as Hfw.
  rewrite (FilterSafety.frag_sep b _ d _ Hfw) by done.
  rewrite (FilterSafety.scan_lit b _ (FilterSafety.Code d FilterSafety.Other) " ORDER BY ") by reflexivity.
  rewrite (FilterSafety.frag_sep b order_sql d) by (done || by apply FilterSafety.closed_frag).
  change " LIMIT :_limit OFFSET :_offset" with (" LIMIT " +:+ ((":" +:+ "_limit") +:+ (" OFFSET " +:+ (":" +:+ "_offset")))).
  rewrite (FilterSafety.scan_lit b _ (FilterSafety.Code d FilterSafety.Other) " LIMIT ") by reflexivity.
  rewrite (FilterSafety.frag_sep b _ d) by (done || by apply FilterSafety.name_frag).
  rewrite (FilterSafety.scan_lit b _ (FilterSafety.Code d FilterSafety.Other) " OFFSET ") by reflexivity.
  by apply FilterSafety.name_frag.
Qed.
Lemma rule_tail_frag c where_sql : str_forall FilterParser.is_safe (table_name c) = true -> frag where_sql ->
  b "_rule_rec_id" = true -> frag (rule_tail c where_sql).
Proof.
  intros Ht Hw Hr d. unfold rule_tail. rewrite scan_quoted by done.
  rewrite (FilterSafety.scan_lit b _ (FilterSafety.Code d FilterSafety.Other) " WHERE ") by reflexivity.
  rewrite scan_quoted by done.
  change (" = :_rule_rec_id AND (" +:+ ?e) with (" = " +:+ ((":" +:+ "_rule_rec_id") +:+ (" AND (" +:+ e))).
  rewrite (FilterSafety.scan_lit b _ (FilterSafety.Code d FilterSafety.Other) " = ") by reflexivity.
  rewrite (FilterSafety.frag_sep b _ d) by (done || by apply FilterSafety.name_frag).
  rewrite (FilterSafety.scan_lit b _ (FilterSafety.Code (S d) FilterSafety.Other) " AND (") by reflexivity.
  rewrite (FilterSafety.frag_sep b _ (S d) _ Hw) by done. eexists. split; [reflexivity|]. cbn. apply Nat.eqb_refl.
Qed.
End Sql.

(** ** What is asked *)
Section Asked.
Context {env : ListEnv}.
(** A query is one closed statement over bound names. *)
Definition bound_in (p : params) (n : string) : bool := dict_mem n p.
(** The condition that the filter is over the table, for the request. *)
Definition parsed (c : Collection) (f : string) (ctx : option dict) (where_sql : string) (p : params) : Prop :=
  exists context ld rel coll, (RequestMacros.resolve_request_macros macro_order (Some f) ctx (Some c) ld).1 = Ok context /\
    FilterParser.parse_filter f context rel coll (Some (table_name c)) = Ok (where_sql, p).
Definition condition_of (c : Collection) (filter_str : option string) (ctx : option dict) (where_sql : string) (p : params) : Prop :=
  match filter_str with
  | None | Some "" => where_sql = "1=1" /\ p = []
  | Some f => parsed c f ctx where_sql p
  end.
(** The newest first, unless the client says otherwise and names columns of the schema. *)
Definition order_of (c : Collection) (sort : option string) (order_sql : string) : Prop :=
  exists fs, _get_schema_fields c = Ok fs /\
    let unsorted := (_collection_type c = "view" /\ "created" ∉ (name <$> fs) -> order_sql = "1") /\
      (_collection_type c <> "view" \/ "created" ∈ (name <$> fs) -> order_sql = dq +:+ "created" +:+ dq +:+ " DESC") in
    match sort with
    | None | Some "" => unsorted
    | Some text => exists parts, FilterParser.parse_sort text = Ok parts /\ (parts = [] -> unsorted) /\
        (parts <> [] -> order_sql = join ", " ((fun part => part.1 +:+ " " +:+ part.2) <$> parts) /\
           forall part, part ∈ parts -> column_name part.1 ∈ ["id"; "created"; "updated"] ++ (name <$> fs) \/
             ends_with "()" part.1 = true \/ column_name part.1 = "ctid")
    end.
(** The parameters of the filter, and the code's own beside them. *)
Definition with_own (p p0 : params) (own : list (string * pyval)) : Prop :=
  (forall n, n ∈ own.*1 -> n ∉ p0.*1) /\
  forall n, dict_get n p = match dict_get n own with Some v => Some (FilterParser.Val v) | None => dict_get n p0 end.
Definition query_spec (c : Collection) (filter_str sort : option string) (ctx : option dict) (page size : Z) (record_id : string) (q : query) : Prop :=
  let table := dq +:+ table_name c +:+ dq in
  match q with
  | QCollections => True
  | QCount sql p => exists where_sql, condition_of c filter_str ctx where_sql p /\
      let tail := table +:+ " WHERE " +:+ where_sql in
      sql = "SELECT COUNT(*) AS cnt FROM " +:+ tail /\ FilterSafety.well_scanned (bound_in p) tail = true
  | QPage sql p => exists where_sql order_sql p0, condition_of c filter_str ctx where_sql p0 /\ order_of c sort order_sql /\
      let tail := (table +:+ " WHERE " +:+ where_sql) +:+ " ORDER BY " +:+ order_sql +:+ " LIMIT :_limit OFFSET :_offset" in
      sql = "SELECT * FROM " +:+ tail /\ FilterSafety.well_scanned (bound_in p) tail = true /\
      with_own p p0 [("_limit", PInt size); ("_offset", PInt ((page - 1) * size))]
  | QRule sql p => exists where_sql p0, (exists f, filter_str = Some f /\ parsed c f ctx where_sql p0) /\
      let tail := table +:+ " WHERE " +:+ (dq +:+ "id" +:+ dq) +:+ " = :_rule_rec_id AND (" +:+ where_sql +:+ ") LIMIT 1" in
      sql = "SELECT 1 FROM " +:+ tail /\ FilterSafety.well_scanned (bound_in p) tail = true /\
      with_own p p0 [("_rule_rec_id", PStr record_id)]
  end.
Definition is_count (q : query) : bool := match q with QCount _ _ => true | _ => false end.
Definition is_rule (q : query) : bool := match q with QRule _ _ => true | _ => false end.
Definition is_page (q : query) : bool := match q with QPage _ _ => true | _ => false end.
Definition count_of (f : query -> bool) (t : list query) : nat := length (filter (fun q => f q = true) t).
Lemma count_of_app f t t' : count_of f (t ++ t') = count_of f t + count_of f t'.
Proof. unfold count_of. by rewrite filter_app, length_app. Qed.
Lemma count_of_replicate f n q : count_of f (replicate n q) = if f q then n else 0.
Proof.
  unfold count_of. induction n as [|n IH]; [by destruct (f q)|]. cbn [replicate]. rewrite filter_cons.
  case_decide as E; cbn [length]; rewrite IH; destruct (f q); done.
Qed.
(** The queries a step adds. *)
Definition added (s s' : list_state) (new : list query) : Prop := ls_trace s' = ls_trace s ++ new.
Definition only_collections (s s' : list_state) : Prop := exists n, added s s' (replicate n QCollections).

Lemma added_nil s s' : ls_trace s' = ls_trace s -> only_collections s s'.
Proof. intros H. exists 0. unfold added. by rewrite H, app_nil_r. Qed.
Lemma collections_trans s1 s2 s3 : only_collections s1 s2 -> only_collections s2 s3 -> only_collections s1 s3.
Proof. intros [n H1] [m H2]. exists (n + m). unfold added in *. by rewrite H2, H1, <- app_assoc, replicate_add. Qed.

Lemma resolvers_asked c f s : only_collections s (_build_filter_resolvers c f s).2.
Proof.
  unfold _build_filter_resolvers, mbind, stm_bind, stm_lift. destruct (_build_relation_index_from_collections [c]); [|by apply added_nil].
  destruct (_filter_needs_relation_index f); [|by apply added_nil].
  unfold _build_relation_index, once, ask, cached_index, mbind, stm_bind. exists 1. unfold added.
  repeat case_match; simplify_eq/=; done.
Qed.
Lemma macro_context_asked c f ctx s : ls_trace (macro_context c f ctx s).2 = ls_trace s.
Proof. unfold macro_context. by destruct (RequestMacros.resolve_request_macros _ _ _ _ _). Qed.

Lemma macro_context_resolved c f ctx s context : (macro_context c f ctx s).1 = Ok context ->
  exists ld, (RequestMacros.resolve_request_macros macro_order (Some f) ctx (Some c) ld).1 = Ok context.
Proof.
  unfold macro_context. intros H. exists (RequestMacros.new_loader (ls_db s)).
  destruct (RequestMacros.resolve_request_macros _ _ _ _ _) as [[x|e] ld]; [by injection H as ->|done].
Qed.

(** A condition is a closed fragment over its own parameters. *)
Definition condition_ok (out : string * params) : Prop :=
  FilterSafety.frag (bound_in out.2) out.1 /\ forall n, n ∈ out.2.*1 -> starts_with "_fp" n = true.
Lemma trivial_condition : condition_ok ("1=1", []).
Proof. split; [|by intros n ?%elem_of_nil]. intros d. eexists. split; [reflexivity|]. cbn. apply Nat.eqb_refl. Qed.
Context {laws : FilterSafety.FloatTextLaws}.
Lemma parsed_condition f ctx rel coll table out : FilterParser.parse_filter f ctx rel coll table = Ok out -> condition_ok out.
Proof.
  destruct out as [sql p]. intros (st & [_ Hk] & -> & Hf)%FilterSafety.parse_filter_inv. split; [done|]. cbn [snd].
  rewrite Hk. by intros n (k & -> & _)%list_elem_of_fmap.
Qed.
Lemma filter_condition_post c f ctx s : post (filter_condition c f ctx) s
  (fun out s' => only_collections s s' /\ condition_ok out /\ parsed c f ctx out.1 out.2) (fun _ s' => only_collections s s').
Proof.
  unfold filter_condition. apply post_bind. unfold post at 1. pose proof (resolvers_asked c f s) as H1.
  destruct (_build_filter_resolvers c f s) as [[resolvers|e] s1]; [|done]. apply post_bind. unfold post at 1.
  pose proof (macro_context_asked c f ctx s1) as H2. pose proof (macro_context_resolved c f ctx s1) as H3.
  destruct (macro_context c f ctx s1) as [[ctx'|e] s2]; cbn [fst snd] in *.
  2:{ eapply collections_trans; [exact H1|by apply added_nil]. }
  assert (H : only_collections s s2) by (eapply collections_trans; [exact H1|by apply added_nil]).
  unfold post, stm_lift. destruct (FilterParser.parse_filter _ _ _ _ _) as [out|e] eqn:Ep; [|done]. split; [done|].
  split; [by apply parsed_condition in Ep|]. destruct (H3 _ eq_refl) as [ld Hld]. destruct out as [w p]. by exists ctx', ld, (Some resolvers.1), resolvers.2.
Qed.
(** A query with a retry: once or twice the same. *)
Lemma with_retry_post {A} q (answer : list query -> result query_exn A) s : 
  post (with_retry (ask q answer)) s
    (fun a s' => exists n, n <= 1 /\ added s s' (replicate (S n) q) /\ answer (ls_trace s ++ replicate n q) = Ok a)
    (fun _ s' => exists n, n <= 1 /\ added s s' (replicate (S n) q)).
Proof.
  unfold post, with_retry, ask, once, added. cbn [ls_trace]. destruct (answer (ls_trace s)) as [a|[|k]] eqn:E1.
  - exists 0. cbn. rewrite app_nil_r. split_and!; [lia|done..].
  - destruct (answer (ls_trace s ++ [q])) as [a|e] eqn:E2; exists 1; cbn; rewrite <- app_assoc; split_and!; try done; lia.
  - exists 0. cbn. split; [lia|done].
Qed.

Section Shape.
Context (c : Collection) (page per_page : Z) (skip_total : bool) (filter_str sort : option string) (ctx : option dict).
(** The queries of a run: the index, the count, the page. *)
Definition asked_shape (s s' : list_state) (k m : nat) (where_sql order_sql : string) (p : params) : Prop :=
  exists n, added s s' (replicate n QCollections ++ replicate k (QCount (count_sql c where_sql) p) ++
    replicate m (QPage (page_sql c where_sql order_sql) (page_params p per_page ((page - 1) * per_page)))) /\
  k <= 2 /\ m <= 2 /\ (skip_total = true -> k = 0) /\ condition_ok (where_sql, p) /\ (forall b, FilterSafety.closed b order_sql) /\
  (0 < k + m -> condition_of c filter_str ctx where_sql p /\ order_of c sort order_sql).
Definition asked_some (s s' : list_state) : Prop := exists k m where_sql order_sql p, asked_shape s s' k m where_sql order_sql p.
Lemma asked_collections s s' : only_collections s s' -> asked_some s s'.
Proof.
  intros [n H]. exists 0, 0, "1=1", "1", [], n. cbn. rewrite app_nil_r. split_and!; try done; [lia..|apply trivial_condition| |lia].
  intros b d. by eexists.
Qed.

Lemma page_param_bound p n : bound_in p n = true \/ n = "_limit" \/ n = "_offset" ->
  bound_in (page_params p per_page ((page - 1) * per_page)) n = true.
Proof.
  unfold bound_in, page_params, dict_mem. intros H. destruct (decide (n = "_offset")) as [->|H1]; [by rewrite dict_get_set_eq|].
  rewrite dict_get_set_ne by done. destruct (decide (n = "_limit")) as [->|H2]; [by rewrite dict_get_set_eq|].
  rewrite dict_get_set_ne by done. by destruct H as [?|[?|?]].
Qed.
Lemma with_own_page p : (forall x, starts_with "_fp" x = false -> x ∉ p.*1) ->
  with_own (page_params p per_page ((page - 1) * per_page)) p [("_limit", PInt per_page); ("_offset", PInt ((page - 1) * per_page))].
Proof.
  intros Hn. split; [by intros n [->|[->|[]%not_elem_of_nil]%elem_of_cons]%elem_of_cons; apply Hn|].
  intros n. unfold page_params. destruct (decide (n = "_offset")) as [->|H2]; [by rewrite dict_get_set_eq|].
  rewrite dict_get_set_ne by done. destruct (decide (n = "_limit")) as [->|H1]; [by rewrite dict_get_set_eq|].
  rewrite dict_get_set_ne by done. cbn [dict_get].
  destruct (String.eqb_spec "_limit" n); [congruence|]. destruct (String.eqb_spec "_offset" n); [congruence|done].
Qed.
Lemma with_own_rule p record_id : (forall x, x ∈ p.*1 -> starts_with "_fp" x = true) ->
  with_own (dict_set "_rule_rec_id" (FilterParser.Val (PStr record_id)) p) p [("_rule_rec_id", PStr record_id)].
Proof.
  intros Hn. split; [by intros n [->|[]%not_elem_of_nil]%elem_of_cons Hin%Hn|].
  intros n. destruct (decide (n = "_rule_rec_id")) as [->|H2]; [by rewrite dict_get_set_eq|].
  rewrite dict_get_set_ne by done. cbn [dict_get]. destruct (String.eqb_spec "_rule_rec_id" n); [congruence|done].
Qed.
Lemma shape_specs s s' k m where_sql order_sql p : str_forall FilterParser.is_safe (table_name c) = true ->
  asked_shape s s' k m where_sql order_sql p ->
  exists n, added s s' (replicate n QCollections ++ replicate k (QCount (count_sql c where_sql) p) ++
      replicate m (QPage (page_sql c where_sql order_sql) (page_params p per_page ((page - 1) * per_page)))) /\
    (0 < k -> query_spec c filter_str sort ctx page per_page "" (QCount (count_sql c where_sql) p)) /\
    (0 < m -> query_spec c filter_str sort ctx page per_page "" (QPage (page_sql c where_sql order_sql) (page_params p per_page ((page - 1) * per_page)))).
Proof.
  intros Ht (n & Ha & _ & _ & _ & [Hf Hn] & Ho & Hspec). cbn [fst snd] in *. exists n. split; [exact Ha|].
  assert (Hnames : forall x, starts_with "_fp" x = false -> x ∉ p.*1) by (intros x Hx Hin; apply Hn in Hin; congruence).
  split.
  - intros Hk. destruct (Hspec ltac:(lia)) as [Hc _]. exists where_sql. split; [done|]. split; [done|]. by apply frag_scanned, from_where_frag.
  - intros Hm. destruct (Hspec ltac:(lia)) as [Hc Hor]. exists where_sql, order_sql, p. split; [done|]. split; [done|].
    split; [done|]. split; [|by apply with_own_page].
    apply frag_scanned, page_tail_frag; [done| |apply Ho|apply page_param_bound; tauto|apply page_param_bound; tauto].
    eapply FilterSafety.frag_mono; [|exact Hf]. intros x Hx. apply page_param_bound. by left.
Qed.
End Shape.
Lemma order_clause_of c fs sort order_sql : _get_schema_fields c = Ok fs -> order_clause c fs sort = Ok order_sql -> order_of c sort order_sql.
Proof.
  intros Hfs Ho. exists fs. split; [done|].
  assert (Hd : forall o, default_order c fs = o -> (_collection_type c = "view" /\ "created" ∉ (name <$> fs) -> o = "1") /\
      (_collection_type c <> "view" \/ "created" ∈ (name <$> fs) -> o = dq +:+ "created" +:+ dq +:+ " DESC")).
  { intros o <-. unfold default_order. destruct (in_list "created" (name <$> fs)) eqn:Ec.
    - apply in_list_spec in Ec. rewrite andb_false_r. split; [by intros []|done].
    - assert ("created" ∉ name <$> fs) by (rewrite <- in_list_spec; congruence). rewrite andb_true_r.
      destruct (String.eqb_spec (_collection_type c) "view"); (split; [naive_solver|]); [by intros []|done]. }
  unfold order_clause in Ho. destruct sort as [[|a t]|]; [injection Ho as Ho; by apply Hd| |injection Ho as Ho; by apply Hd].
  destruct (FilterParser.parse_sort _) as [parts|e] eqn:Ep; [|done]. exists parts. split; [done|].
  destruct parts as [|part parts]; [injection Ho as Ho; split; [intros _; by apply Hd|done]|]. split; [done|]. intros _.
  destruct (omap _ _) eqn:Eb; [|done]. split; [by injection Ho as <-|]. intros q Hq.
  assert (Hbad : bad_sort (valid_sort_fields fs) q = None).
  { destruct (bad_sort (valid_sort_fields fs) q) as [x|] eqn:E; [|done]. assert (x ∈ omap (bad_sort (valid_sort_fields fs)) (part :: parts)) as Hx by (apply list_elem_of_omap; eauto).
    rewrite Eb in Hx. by apply not_elem_of_nil in Hx. }
  unfold bad_sort in Hbad. destruct (in_list _ _) eqn:Ev.
  { left. apply in_list_spec in Ev. unfold valid_sort_fields in Ev. by rewrite elem_of_remove_dups in Ev. }
  cbn [negb andb] in Hbad. destruct (ends_with "()" q.1) eqn:Ee; [by right; left|]. cbn [negb andb] in Hbad.
  right. right. destruct (String.eqb_spec (column_name q.1) "ctid"); [done|]. done.
Qed.

(** The number of pages that so many records fill, at least one; [-1] when the total is not known. *)
Definition pages_filled (total size pages : Z) : Prop :=
  if (total <? 0)%Z then pages = (-1)%Z else (((pages - 1) * size < Z.max 1 total <= pages * size))%Z.
(** What a list returns, from the rows of its page. *)
Definition listed_page (c : Collection) (page per_page : Z) (fields : option string) (ctx : option dict) (rows : list row)
    (resp : list_response) : Prop :=
  lr_page resp = page /\ lr_per_page resp = per_page /\
  Forall2 (fun r item => record_response c fields ctx r = Ok item) rows (lr_items resp) /\
  pages_filled (lr_total_items resp) per_page (lr_total_pages resp).
Lemma total_pages_filled total size : (0 < size)%Z -> pages_filled total size (total_pages total size).
Proof.
  intros Hs. unfold pages_filled, total_pages. destruct (Z.ltb_spec total 0) as [H|H]; [done|].
  rewrite (proj2 (Z.leb_gt _ _)) by lia.
  pose proof (Z.div_mod (total + size - 1) size ltac:(lia)). pose proof (Z.mod_pos_bound (total + size - 1) size ltac:(lia)). nia.
Qed.
(** The total of a response: the answer to a count, unless it is skipped. *)
Definition counted (skip_total : bool) (total : Z) (sql : string) (p : params) : Prop :=
  if skip_total then total = (-1)%Z else exists t n, ask_count t sql p = Ok n /\ total = default 0%Z n.
Lemma condition_post c filter_str ctx s :
  post (match filter_str with None | Some "" => mret ("1=1", []) | Some f => filter_condition c f ctx end) s
    (fun out s' => only_collections s s' /\ condition_ok out /\ condition_of c filter_str ctx out.1 out.2) (fun _ s' => only_collections s s').
Proof.
  destruct filter_str as [[|a f]|]; [|apply filter_condition_post|]; (split; [by apply added_nil|split; [apply trivial_condition|done]]).
Qed.
Lemma count_post (c : Collection) (skip_total : bool) where_sql p n s s1 : added s s1 (replicate n QCollections) ->
  post (if skip_total then mret (-1)%Z
       else n ← with_retry (ask (QCount (count_sql c where_sql) p) (fun t => ask_count t (count_sql c where_sql) p)); mret (default 0%Z n)) s1
    (fun total s2 => exists k, added s s2 (replicate n QCollections ++ replicate k (QCount (count_sql c where_sql) p)) /\ k <= 2 /\
       (skip_total = true -> k = 0) /\ (skip_total = false -> 0 < k) /\ counted skip_total total (count_sql c where_sql) p)
    (fun _ s2 => exists k, added s s2 (replicate n QCollections ++ replicate k (QCount (count_sql c where_sql) p)) /\ k <= 2 /\
       skip_total = false).
Proof.
  intros H1. destruct skip_total.
  - exists 0. split_and!; [|lia|done..]. by rewrite app_nil_r.
  - apply post_bind. eapply post_conseq; [apply with_retry_post| |].
    + intros a s2 (j & Hj & Ha & Hans). exists (S j). unfold added in *. rewrite Ha, H1, <- app_assoc. split_and!; [done|lia|done|lia|].
      by eexists _, a.
    + intros e s2 (j & Hj & Ha). exists (S j). unfold added in *. rewrite Ha, H1, <- app_assoc. split_and!; [done|lia|done].
Qed.
Lemma clamp_page_size page per_page : let size := (if (per_page <=? 0)%Z then 30 else Z.min 500 per_page)%Z in
  clamp_page page per_page = (Z.max 1 page, size, (Z.max 1 page - 1) * size)%Z.
Proof. unfold clamp_page. by destruct (Z.leb_spec per_page 0). Qed.
Lemma list_records_post c page per_page sort filter_str fields skip_total ctx s size :
  size = (if (per_page <=? 0)%Z then 30 else Z.min 500 per_page)%Z ->
  post (list_records c page per_page sort filter_str fields skip_total ctx) s
    (fun resp s' => exists k m where_sql order_sql p t rows,
       asked_shape c (Z.max 1 page) size skip_total filter_str sort ctx s s' k (S m) where_sql order_sql p /\
       ask_page t (page_sql c where_sql order_sql) (page_params p size ((Z.max 1 page - 1) * size)) = Ok rows /\
       listed_page c (Z.max 1 page) size fields ctx rows resp /\ (skip_total = false -> 0 < k) /\
       counted skip_total (lr_total_items resp) (count_sql c where_sql) p)
    (fun _ s' => asked_some c (Z.max 1 page) size skip_total filter_str sort ctx s s').
Proof.
  intros Hsize. assert (Hpos : (0 < size)%Z) by (subst; destruct (Z.leb_spec per_page 0); lia).
  unfold list_records. apply post_bind. unfold post at 1, of_schema, stm_lift.
  destruct (_get_schema_fields c) as [fs|e] eqn:Efs; [|by apply asked_collections, added_nil].
  apply post_bind. eapply post_conseq; [apply condition_post| |intros e s'; apply asked_collections].
  intros [where_sql p] s1 (H1 & Hc & Hcond). apply post_bind. unfold post at 1, stm_lift.
  destruct (order_clause c fs sort) as [order_sql|e] eqn:Eo; [|by apply asked_collections].
  assert (Ho : forall b, FilterSafety.closed b order_sql) by (intros b; by eapply order_closed).
  pose proof (order_clause_of _ _ _ _ Efs Eo) as Hor.
  rewrite (clamp_page_size page per_page), <- Hsize. set (pg := Z.max 1 page) in *.
  destruct H1 as [n H1]. apply post_bind. eapply post_conseq; [by apply count_post| |].
  2:{ intros e s2 (k & Ha & Hk & Hskip). exists k, 0, where_sql, order_sql, p, n. rewrite app_nil_r.
      split_and!; try done; [lia|congruence]. }
  intros total s2 (k & H2 & Hk & Hskip & Hpk & Htot). apply post_bind. eapply post_conseq; [apply with_retry_post| |].
  2:{ intros e s3 (m & Hm & Ha). exists k, (S m), where_sql, order_sql, p, n. split_and!; try done; [|lia].
      unfold added in *. by rewrite Ha, H2, <- !app_assoc. }
  intros rows s3 (m & Hm & Ha & Hrows).
  assert (Hshape : asked_shape c pg size skip_total filter_str sort ctx s s3 k (S m) where_sql order_sql p).
  { exists n. split_and!; try done; [|lia]. unfold added in *. by rewrite Ha, H2, <- !app_assoc. }
  apply post_bind. unfold post at 1, of_schema, stm_lift.
  destruct (map_result _ rows) as [items|e] eqn:Ei; [|by exists k, (S m), where_sql, order_sql, p].
  exists k, m, where_sql, order_sql, p. eexists _, rows. split_and!; [done|exact Hrows| |done|done].
  split_and!; [done..| |by apply total_pages_filled]. by apply map_result_ok in Ei.
Qed.
End Asked.

(** C5: A list of records asks the database nothing but what the parameters
    name. Whatever the filter, sort, page, request and answers: a run reads
    [_collections] and sends at most two counts (none when the total is
    skipped) and two pages. The count is a [SELECT COUNT] from the
    table under the filter's condition, the page is [SELECT *] of the same
    with the sort that was asked for (columns of the schema only) and the size
    and offset of the page under names that no filter uses; the size is 30
    when none is asked for and at most 500; quotes and parentheses match, there
    is no comment or semicolon and every placeholder is bound. A response holds, for each row of
    a page that was answered, that row's response, the total that a count
    answered ([-1] when it is skipped) and the number of pages that the total fills. *)
Theorem list_records_contract (env : ListEnv) (laws : FilterSafety.FloatTextLaws) c page per_page sort filter_str fields skip_total
  ctx s r s' (Htable : str_forall FilterParser.is_safe (table_name c) = true)
  (Hrun : list_records c page per_page sort filter_str fields skip_total ctx s = (r, s')) :
  let size := (if (per_page <=? 0)%Z then 30 else Z.min 500 per_page)%Z in
  exists new, ls_trace s' = ls_trace s ++ new /\
    Forall (query_spec c filter_str sort ctx (Z.max 1 page) size "") new /\
    count_of is_count new <= (if skip_total : bool then 0 else 2) /\ count_of is_page new <= 2 /\
    Forall (fun q => is_rule q = false) new /\
    forall resp, r = Ok resp ->
      (exists sql p t rows, QPage sql p ∈ new /\ ask_page t sql p = Ok rows /\
        listed_page c (Z.max 1 page) size fields ctx rows resp) /\
      if skip_total : bool then lr_total_items resp = (-1)%Z
      else exists sql p t n, QCount sql p ∈ new /\ ask_count t sql p = Ok n /\ lr_total_items resp = default 0%Z n.
Proof.
  intros size.
  pose proof (post_run _ _ _ _ _ _ (list_records_post c page per_page sort filter_str fields skip_total ctx s size eq_refl) Hrun) as H.
  assert (Hsome : exists k m where_sql order_sql p, asked_shape c (Z.max 1 page) size skip_total filter_str sort ctx s s' k m where_sql order_sql p /\
    forall resp, r = Ok resp -> 0 < m /\ (skip_total = false -> 0 < k) /\ counted skip_total (lr_total_items resp) (count_sql c where_sql) p /\ exists t rows,
      ask_page t (page_sql c where_sql order_sql) (page_params p size ((Z.max 1 page - 1) * size)) = Ok rows /\
      listed_page c (Z.max 1 page) size fields ctx rows resp).
  { destruct r as [resp|e].
    - destruct H as (k & m & w & o & p & t & rows & Hs & Hrows & Hl & Hpk & Hc). exists k, (S m), w, o, p. split; [done|].
      intros resp' [= <-]. split; [lia|]. split; [done|]. split; [done|]. by exists t, rows.
    - destruct H as (k & m & w & o & p & Hs). by exists k, m, w, o, p. }
  destruct Hsome as (k & m & w & o & p & Hs & Hr). pose proof Hs as (_ & _ & Hk & Hm & Hskip & _).
  destruct (shape_specs _ _ _ _ _ _ _ _ _ _ _ _ _ _ Htable Hs) as (n & Hnew & Hqc & Hqp). eexists. split; [exact Hnew|]. split_and!.
  - rewrite !Forall_app. split_and!; [by apply Forall_replicate|destruct k|destruct m]; try constructor; try (apply Forall_replicate); auto with lia.
  - rewrite !count_of_app, !count_of_replicate. cbn [is_count]. destruct skip_total; [rewrite Hskip by done|]; lia.
  - rewrite !count_of_app, !count_of_replicate. cbn [is_page]. lia.
  - rewrite !Forall_app. split_and!; by apply Forall_replicate.
  - intros resp Hresp. destruct (Hr resp Hresp) as (Hpos & Hpk & Hc & t & rows & Hrows & Hl). split.
    + eexists _, _, t, rows. split_and!; [|exact Hrows|done]. rewrite !elem_of_app. right. right. apply elem_of_replicate. split; [done|lia].
    + unfold counted in Hc. destruct skip_total; [done|]. destruct Hc as (t' & n' & Ha & Hn). eexists _, _, t', n'. split_and!; [|exact Ha|done].
      rewrite !elem_of_app. right. left. apply elem_of_replicate. specialize (Hpk eq_refl). split; [done|lia].
Qed.

(** C8: A rule is checked against one record: the only query of
    [check_record_rule] besides [_collections] is [SELECT 1] from the
    collection's table [WHERE id = ] the record's id [AND (]the rule's
    condition[)], the condition being what the filter parser makes of the rule
    for this request, closed inside parentheses of its own, and the id bound
    under a name that no rule uses; the answer is the database's. *)
Theorem rule_check_scoped (env : ListEnv) (laws : FilterSafety.FloatTextLaws) c record_id rule_filter ctx s r s'
  (Htable : str_forall FilterParser.is_safe (table_name c) = true)
  (Hrun : check_record_rule c record_id rule_filter ctx s = (r, s')) :
  exists new, ls_trace s' = ls_trace s ++ new /\ Forall (query_spec c (Some rule_filter) None ctx 1 1 record_id) new /\
    Forall (fun q => is_count q = false /\ is_page q = false) new /\
    forall b, r = Ok b -> exists sql p t, List.last new QCollections = QRule sql p /\ ask_rule t sql p = Ok b.
Proof.
  unfold check_record_rule in Hrun. pose proof (filter_condition_post c rule_filter ctx s) as H.
  unfold post in H. unfold mbind, stm_bind in Hrun. destruct (filter_condition c rule_filter ctx s) as [[[w p]|e] s1].
  2:{ injection Hrun as <- <-. destruct H as [n H]. exists (replicate n QCollections). split_and!; [done|by apply Forall_replicate..|done]. }
  destruct H as ([n H] & [Hf Hn] & Hparsed). cbn [fst snd] in *. set (sql := "SELECT 1 FROM " +:+ rule_tail c w) in *.
  set (p' := dict_set "_rule_rec_id" _ p) in *.
  assert (Hq : query_spec c (Some rule_filter) None ctx 1 1 record_id (QRule sql p')).
  { exists w, p. split; [by exists rule_filter|]. split; [done|]. split; [|by apply with_own_rule].
    apply frag_scanned, rule_tail_frag; [done| |].
    - eapply FilterSafety.frag_mono; [|exact Hf]. intros x Hx. unfold bound_in, p', dict_mem in *.
      destruct (decide (x = "_rule_rec_id")) as [->|Hne]; [by rewrite dict_get_set_eq|]. by rewrite dict_get_set_ne.
    - unfold bound_in, p', dict_mem. by rewrite dict_get_set_eq. }
  assert (Hrest : ls_trace s' = ls_trace s ++ replicate n QCollections ++ [QRule sql p'] /\
    forall b, r = Ok b -> ask_rule (ls_trace s1) sql p' = Ok b).
  { unfold once, ask in Hrun. unfold added in H. destruct (ask_rule (ls_trace s1) sql p') as [b|e];
      injection Hrun as <- <-; cbn [ls_trace]; rewrite H, <- app_assoc; (split; [done|]); [by intros b' [= <-]|done]. }
  destruct Hrest as [Ht Hb]. eexists. split; [exact Ht|]. split_and!.
  - rewrite Forall_app. split; [by apply Forall_replicate|]. by constructor.
  - rewrite Forall_app. split; [by apply Forall_replicate|]. by constructor.
  - intros b Hr. exists sql, p', (ls_trace s1). split; [|by apply Hb]. apply List.last_last.
Qed.

(** A quote inside a comment hides the paths of the next lines from
    [_filter_needs_relation_index]. *)
Lemma comment_hides_path :
  _filter_needs_relation_index ("a = 1 // its" +:+ String newline "&& author.name = 2") = true /\
  _filter_needs_relation_index ("a = 1 // it's" +:+ String newline "&& author.name = 2") = false.
Proof. by vm_compute. Qed.

(** ** A run *)
Definition demo_list_env : ListEnv := {|
  list_lib := demo_write_lib;
  list_grammar := FilterParser.Demo.grammar;
  list_database := {| RequestMacros.db := unit; RequestMacros.fetch_collection _ d := (Ok None, d);
                      RequestMacros.fetch_record _ _ d := (Ok None, d) |};
  macro_order l := l;
  ask_collections _ := Ok [];
  ask_count _ _ _ := Ok (Some 31%Z);
  ask_page t _ _ := if bool_decide (count_of is_page t = 0) then Err NotSupportedError else Ok [[("id", Plain (PStr "p1"))]];
  ask_rule _ _ _ := Ok true;
|}.
Definition demo_posts : Collection :=
  RequestMacros.mkCollection "c_posts" "posts" "base"
    [[("name", PStr "author"); ("type", PStr "relation"); ("options", PDict [("collectionId", PStr "c_users")])];
     [("name", PStr "n"); ("type", PStr "number")]] PNone.
Definition demo_filter : string := "author.name = 'O\'x' && created > '2024-01-02 03:04:05+02:00' || n ?~ 1.5".
Definition demo_list_state : @list_state demo_list_env := @mkListState demo_list_env [] None tt.
Lemma demo_list_float_laws : @FilterSafety.FloatTextLaws (@field_float_text (@record_field_lib (@list_lib demo_list_env))).
Proof. intros f. vm_compute. reflexivity. Qed.

(** The page is asked for twice: the first answer is [NotSupportedError]. *)
Definition demo_list : result list_exn list_response * @list_state demo_list_env :=
  @list_records demo_list_env demo_posts 2 30 (Some "-n,@random") (Some demo_filter) None false (Some []) demo_list_state.
Lemma list_records_contract_witness : exists new, ls_trace (env := demo_list_env) demo_list.2 = [] ++ new /\
  count_of is_page new <= 2 /\ length (ls_trace (env := demo_list_env) demo_list.2) = 4.
Proof.
  edestruct (list_records_contract demo_list_env demo_list_float_laws demo_posts 2 30 (Some "-n,@random") (Some demo_filter) None false
    (Some []) demo_list_state demo_list.1 demo_list.2) as (new & Hnew & _ & _ & Hpage & _).
  - reflexivity.
  - vm_compute. reflexivity.
  - exists new. split; [exact Hnew|]. split; [exact Hpage|]. vm_compute. reflexivity.
Defined.

Definition demo_rule : result list_exn bool * @list_state demo_list_env :=
  @check_record_rule demo_list_env demo_posts "p1" demo_filter (Some []) demo_list_state.
Lemma rule_check_scoped_witness : demo_rule.1 = Ok true /\ exists sql p t new,
  ls_trace (env := demo_list_env) demo_rule.2 = [] ++ new /\ List.last new QCollections = QRule sql p /\
  @ask_rule demo_list_env t sql p = Ok true.
Proof.
  split; [vm_compute; reflexivity|].
  edestruct (rule_check_scoped demo_list_env demo_list_float_laws demo_posts "p1" demo_filter (Some []) demo_list_state
    demo_rule.1 demo_rule.2) as (new & Hnew & _ & _ & Hlast).
  - reflexivity.
  - vm_compute. reflexivity.
  - destruct (Hlast true) as (sql & p & t & H1 & H2); [vm_compute; reflexivity|]. exists sql, p, t, new. split; [exact Hnew|]. by split.
Defined.
