(* ===== verification/SchemaSql.v ===== *)
(** * Read-only SQL of a backup (ppbase/backup/schema_contract.py, lexer and guard)

    View definitions and index predicates are the only SQL that a backup's
    [schema.json] carries as text.  [_tokenize_sql] is the lexer and
    [_validate_readonly_sql] the guard over its tokens; the reference is
    [lexes], the reading of a text as blanks and lexemes. *)
From Stdlib Require Import Ascii String.
From S2P Require Import Prelude PyText PyVal.
From S2P Require CopyFormat SqlConsole.
#[local] Open Scope string_scope.
#[local] Open Scope list_scope.

(** ** Errors and vocabularies *)
Inductive contract_exn : Type :=
| SchemaContractError (message : string)
| UnmanagedObjectError (message : string)
| CopyFormatError (e : CopyFormat.copy_error)    (* of a segment *)
| PyTypeError                                     (* an uncaught TypeError *)
| LexerOutOfFuel.                                 (* not an exception *)

Definition _SQL_MAX_LEN : Z := 100000.
Definition _SQL_STRUCTURAL_KEYWORDS : list string :=
  ["select"; "from"; "where"; "and"; "or"; "not"; "in"; "exists"; "any"; "all"; "some"; "over"; "partition"; "values";
   "array"; "case"; "when"; "then"; "else"; "end"; "on"; "using"; "group"; "order"; "by"; "having"; "distinct"; "union";
   "intersect"; "except"; "as"; "between"; "like"; "ilike"; "similar"; "is"; "null"; "true"; "false"; "asc"; "desc";
   "nulls"; "first"; "last"; "limit"; "offset"; "fetch"; "row"; "rows"; "with"; "recursive"; "lateral"; "join"; "inner";
   "outer"; "left"; "right"; "full"; "cross"; "natural"; "filter"; "within"; "grouping"; "collate"; "at"; "time";
   "zone"; "interval"; "cast"; "coalesce"; "nullif"; "greatest"; "least"; "extract"; "substring"; "trim"; "position";
   "overlay"].
Definition _SQL_FORBIDDEN_KEYWORDS : list string :=
  ["insert"; "update"; "delete"; "drop"; "alter"; "create"; "grant"; "revoke"; "truncate"; "copy"; "call"; "do";
   "merge"; "vacuum"; "analyze"; "reindex"; "cluster"; "comment"; "attach"; "detach"; "execute"; "prepare";
   "deallocate"; "set"; "reset"; "savepoint"; "listen"; "notify"; "unlisten"; "load"; "refresh"; "import"; "into";
   "returning"; "begin"; "commit"; "rollback"; "start"; "lock"; "declare"; "open"; "close"; "move"; "discard";
   "checkpoint"; "security"; "definer"; "function"; "procedure"; "trigger"; "rule"; "policy"].
Definition _SQL_FORBIDDEN_TYPES : list string :=
  ["regclass"; "regproc"; "regprocedure"; "regoper"; "regoperator"; "regtype"; "regrole"; "regnamespace"; "regconfig";
   "regdictionary"; "regcollation"].
(** The functions of a view or predicate, in the order of the source. *)
Definition _ALLOWED_FUNCTIONS : list string :=
  ["coalesce"; "nullif"; "greatest"; "least"; "lower"; "upper"; "initcap"; "length"; "char_length"; "character_length";
   "octet_length"; "bit_length"; "trim"; "btrim"; "ltrim"; "rtrim"; "lpad"; "rpad"; "substr"; "substring"; "left";
   "right"; "reverse"; "replace"; "translate"; "concat"; "concat_ws"; "format"; "split_part"; "strpos"; "position";
   "starts_with"; "to_char"; "to_number"; "md5"; "ascii"; "chr"; "repeat"; "regexp_replace"; "regexp_match";
   "regexp_matches"; "regexp_split_to_array"; "abs"; "ceil"; "ceiling"; "floor"; "round"; "trunc"; "sign"; "mod";
   "power"; "sqrt"; "cbrt"; "exp"; "ln"; "log"; "log10"; "div"; "width_bucket"; "gcd"; "lcm"; "date_part"; "date_trunc";
   "extract"; "age"; "to_timestamp"; "to_date"; "make_date"; "make_time"; "make_timestamp"; "make_timestamptz";
   "justify_days"; "justify_hours"; "justify_interval"; "now"; "cast"; "jsonb_array_length"; "json_array_length";
   "jsonb_extract_path"; "jsonb_extract_path_text"; "json_extract_path"; "json_extract_path_text"; "jsonb_typeof";
   "json_typeof"; "jsonb_object_keys"; "jsonb_build_object"; "jsonb_build_array"; "to_jsonb"; "to_json";
   "jsonb_strip_nulls"; "jsonb_pretty"; "array_length"; "array_upper"; "array_lower"; "array_ndims"; "array_position";
   "array_positions"; "array_to_string"; "string_to_array"; "cardinality"; "array_append"; "array_prepend"; "array_cat";
   "array_remove"; "array_replace"; "unnest"; "count"; "sum"; "avg"; "min"; "max"; "array_agg"; "string_agg";
   "jsonb_agg"; "json_agg"; "bool_and"; "bool_or"; "every"; "variance"; "var_samp"; "var_pop"; "stddev"; "stddev_samp";
   "stddev_pop"; "row_number"; "rank"; "dense_rank"; "percent_rank"; "cume_dist"; "ntile"; "lag"; "lead"; "first_value";
   "last_value"; "nth_value"].
Definition among (s : string) (l : list string) : bool := existsb (String.eqb s) l.

(** ** The lexer *)
Inductive token_kind : Type := Word | Qident | Literal | Number | Punct.
#[export] Instance token_kind_eq_dec : EqDecision token_kind.
Proof. solve_decision. Defined.
Abbreviation token := (token_kind * string)%type.

Definition is_blank (c : ascii) : bool := (code c =? 32)%N || in_range 9 13 c.
Definition is_code (n : N) (c : ascii) : bool := (code c =? n)%N.
Definition next_is (p : ascii -> bool) (s : string) : bool := match s with String c _ => p c | EmptyString => false end.

(** The body up to the closing quote and what follows it; a doubled quote, and
    with [escaped] a backslash and its character, are part of the body. *)
Fixpoint until_quote (quote : ascii) (escaped : bool) (s : string) : option (string * string) :=
  match s with
  | EmptyString => None
  | String c s' =>
      if is_code 92 c && escaped
      then match s' with
           | String d s'' => (fun p => (String c (String d p.1), p.2)) <$> until_quote quote escaped s''
           | EmptyString => None
           end
      else if Ascii.eqb c quote
      then match s' with
           | String d s'' =>
               if Ascii.eqb d quote then (fun p => (String c (String d p.1), p.2)) <$> until_quote quote escaped s''
               else Some (EmptyString, s')
           | EmptyString => Some (EmptyString, s')
           end
      else (fun p => (String c p.1, p.2)) <$> until_quote quote escaped s'
  end.
(** [s.replace(qq, q)] *)
Fixpoint undouble (quote : ascii) (s : string) : string :=
  match s with
  | String c (String d s'' as s') =>
      if Ascii.eqb c quote && Ascii.eqb d quote then String quote (undouble quote s'') else String c (undouble quote s')
  | _ => s
  end.
(** The end of a number: a sign only belongs to it after an [e]. *)
Definition number_char (c : ascii) : bool := is_alnum c || is_code 46 c || is_code 95 c || is_code 43 c || is_code 45 c.
Definition is_sign (c : ascii) : bool := is_code 43 c || is_code 45 c.
Definition is_exponent (c : ascii) : bool := is_code 101 c || is_code 69 c.
Fixpoint number_span (prev : ascii) (s : string) : string * string :=
  match s with
  | EmptyString => (EmptyString, EmptyString)
  | String c s' =>
      if number_char c && negb (is_sign c && negb (is_exponent prev))
      then let '(a, b) := number_span c s' in (String c a, b) else (EmptyString, s)
  end.
Definition is_word_start (c : ascii) : bool := is_alpha c || is_code 95 c || (128 <=? code c)%N.
Definition word_char (c : ascii) : bool := is_alnum c || is_code 95 c || is_code 36 c || (128 <=? code c)%N.
Definition string_prefix (c : ascii) : bool := is_code 101 c || is_code 69 c || is_code 98 c || is_code 66 c || is_code 120 c || is_code 88 c.

(** One turn of the loop at [String c s]: a token, or a blank, and the rest. *)
Definition quoted_literal (escaped : bool) (label s : string) : result contract_exn (option token * string) :=
  match until_quote "'" escaped s with
  | Some (body, rest) => Ok (Some (Literal, "'" +:+ body +:+ "'"), rest)
  | None => Err (SchemaContractError (label +:+ " has an unterminated string literal"))
  end.
Definition dollar_literal (label s : string) : result contract_exn (option token * string) :=
  match SqlConsole.dollar_tag s with
  | Some tag =>
      let body := str_drop (String.length tag) s in
      match SqlConsole.find tag body with
      | Some n =>
          let size := (String.length tag + n + String.length tag)%nat in
          Ok (Some (Literal, str_take size s), str_drop size s)
      | None => Err (SchemaContractError (label +:+ " has an unterminated dollar-quoted string"))
      end
  | None => Err (SchemaContractError (label +:+ " must not contain bind parameters"))
  end.
Definition lex_one (label : string) (c : ascii) (s : string) : result contract_exn (option token * string) :=
  if is_blank c then Ok (None, s)
  else if (is_code 45 c && next_is (is_code 45) s) || (is_code 47 c && next_is (is_code 42) s)
  then Err (SchemaContractError (label +:+ " must not contain SQL comments"))
  else if is_code 36 c then dollar_literal label (String c s)
  else if is_code 34 c
  then match until_quote c false s with
       | Some (body, rest) => Ok (Some (Qident, undouble c body), rest)
       | None => Err (SchemaContractError (label +:+ " has an unterminated quoted identifier"))
       end
  else if string_prefix c && next_is (is_code 39) s then quoted_literal (is_exponent c) label (str_drop 1 s)
  else if is_code 39 c then quoted_literal false label s
  else if is_digit c || (is_code 46 c && next_is is_digit s)
  then let '(a, rest) := number_span c s in Ok (Some (Number, String c a), rest)
  else if is_word_start c
  then let '(a, rest) := span word_char s in Ok (Some (Word, py_lower (String c a)), rest)
  else if is_code 0 c then Err (SchemaContractError (label +:+ " contains a NUL byte"))
  else Ok (Some (Punct, String c EmptyString), s).

Fixpoint tokens_of (fuel : nat) (label s : string) : result contract_exn (list token) :=
  match fuel with
  | O => Err LexerOutOfFuel
  | S fuel =>
      match s with
      | EmptyString => Ok []
      | String c s' =>
          found ← lex_one label c s';
          rest ← tokens_of fuel label found.2;
          Ok (match found.1 with Some t => t :: rest | None => rest end)
      end
  end.
Definition _tokenize_sql (s label : string) : result contract_exn (list token) := tokens_of (S (String.length s)) label s.

(** ** The guard *)
Definition is_name (t : token) : bool := match t.1 with Word | Qident => true | _ => false end.
Definition is_punct (p : string) (t : option token) : bool :=
  match t with Some (Punct, q) => String.eqb q p | _ => false end.
(** One turn of the loop over the tokens: [prev] and [next] are the
    neighbours. *)
Definition check_token (label : string) (prev : option token) (t : token) (next : option token) : result contract_exn unit :=
  let '(kind, tok) := t in
  let refuse (m : string) := SchemaContractError (label +:+ m) in
  _ ← ensure (negb (is_punct ";" (Some t))) (refuse " must be a single statement");
  _ ← ensure (negb (bool_decide (kind = Word) && among tok _SQL_FORBIDDEN_KEYWORDS))
        (refuse (" contains forbidden keyword " +:+ py_repr_str tok));
  _ ← ensure (negb (bool_decide (kind = Word) && among tok _SQL_FORBIDDEN_TYPES))
        (refuse (" uses a forbidden catalog cast " +:+ py_repr_str tok));
  _ ← ensure (negb (is_name t && is_punct "." next && among (py_lower tok) ["pg_catalog"; "information_schema"]))
        (refuse (" qualifies a reserved schema " +:+ py_repr_str tok));
  if is_name t && is_punct "(" next
  then _ ← ensure (negb (is_punct "." prev)) (refuse (" calls a schema-qualified function " +:+ py_repr_str tok));
       if bool_decide (kind = Word) && among (py_lower tok) _SQL_STRUCTURAL_KEYWORDS then Ok tt
       else ensure (among (py_lower tok) _ALLOWED_FUNCTIONS)
              (refuse (" calls non-allowlisted function " +:+ py_repr_str tok))
  else Ok tt.
Fixpoint check_tokens (label : string) (prev : option token) (ts : list token) : result contract_exn unit :=
  match ts with
  | [] => Ok tt
  | t :: ts' => _ ← check_token label prev t (head ts'); check_tokens label (Some t) ts'
  end.
Definition is_query_start (t : token) : bool :=
  match t with
  | (Word, w) => String.eqb w "select" || String.eqb w "with"
  | (Punct, p) => String.eqb p "("
  | _ => false
  end.
Definition without_terminator (s : string) : string :=
  let text := py_rstrip s in
  if last_is (is_code 59) text then py_rstrip (str_take (String.length text - 1) text) else text.
Definition _validate_readonly_sql (v : pyval) (label : string) (require_select : bool) : result contract_exn string :=
  match v with
  | PStr s =>
      _ ← ensure (negb (String.eqb (py_strip s) "")) (SchemaContractError (label +:+ " must be a non-empty string"));
      _ ← ensure (CopyFormat.slen s <=? _SQL_MAX_LEN)%Z
            (SchemaContractError (label +:+ " exceeds " +:+ str_of_Z _SQL_MAX_LEN +:+ " characters"));
      let text := without_terminator s in
      ts ← _tokenize_sql text label;
      match ts with
      | [] => Err (SchemaContractError (label +:+ " must be a non-empty statement"))
      | t :: _ =>
          _ ← check_tokens label None ts;
          _ ← ensure (negb require_select || is_query_start t)
                (SchemaContractError "view definition must be a single SELECT");
          Ok text
      end
  | _ => Err (SchemaContractError (label +:+ " must be a non-empty string"))
  end.
Definition _validate_index_predicate (v : pyval) : result contract_exn string :=
  _validate_readonly_sql v "index predicate" false.
Definition _validate_view_definition (v : pyval) : result contract_exn string :=
  _validate_readonly_sql v "view definition" true.

Example guard_view : _validate_view_definition (PStr "select lower(a), 'x;y' from t where b > 1.5e+3;") =
  Ok "select lower(a), 'x;y' from t where b > 1.5e+3".
Proof. by vm_compute. Qed.
Example guard_sleep : is_ok (_validate_view_definition (PStr ("select " +:+ dq +:+ "pg_sleep" +:+ dq +:+ " (10)"))) = false.
Proof. by vm_compute. Qed.
Example guard_hex : _validate_view_definition (PStr "select 0xe+nextval('s')") = Ok "select 0xe+nextval('s')".
Proof. by vm_compute. Qed.
Example guard_reg : is_ok (_validate_view_definition (PStr ("select 's'::" +:+ dq +:+ "regclass" +:+ dq))) = true.
Proof. by vm_compute. Qed.

(** ** The reference: a text as blanks and lexemes *)
(** What stands between two quotes. *)
Inductive quoted_body (quote : ascii) (escaped : bool) : string -> Prop :=
| body_nil : quoted_body quote escaped ""
| body_char c s : c <> quote -> is_code 92 c && escaped = false -> quoted_body quote escaped s ->
    quoted_body quote escaped (String c s)
| body_double s : quoted_body quote escaped s -> quoted_body quote escaped (String quote (String quote s))
| body_escape c d s : is_code 92 c && escaped = true -> quoted_body quote escaped s ->
    quoted_body quote escaped (String c (String d s)).

(** What continues a number: letters, digits, points and underscores, and a sign
    just after an [e]. *)
Inductive number_tail : ascii -> string -> Prop :=
| tail_end before : number_tail before ""
| tail_plain before c s : is_alnum c = true \/ c = "."%char \/ c = "_"%char -> number_tail c s -> number_tail before (String c s)
| tail_sign before c s : before = "e"%char \/ before = "E"%char -> c = "+"%char \/ c = "-"%char -> number_tail c s ->
    number_tail before (String c s).
(** A lexeme and its token. *)
Inductive lexeme : string -> token -> Prop :=
| lex_word c a : is_word_start c = true -> str_forall word_char a = true ->
    lexeme (String c a) (Word, py_lower (String c a))
| lex_qident body : quoted_body (ascii_of_N 34) false body -> lexeme (dq +:+ body +:+ dq) (Qident, undouble (ascii_of_N 34) body)
| lex_string prefix body : (prefix = "" \/ exists c, prefix = String c "" /\ string_prefix c = true) ->
    quoted_body "'" (String.eqb prefix "e" || String.eqb prefix "E") body ->
    lexeme (prefix +:+ "'" +:+ body +:+ "'") (Literal, "'" +:+ body +:+ "'")
| lex_dollar tag body : SqlConsole.dollar_tag tag = Some tag ->
    lexeme (tag +:+ body +:+ tag) (Literal, tag +:+ body +:+ tag)
| lex_number c a : (is_digit c || is_code 46 c) = true -> number_tail c a ->
    lexeme (String c a) (Number, String c a)
| lex_punct c : is_blank c = false -> is_code 36 c = false -> is_code 34 c = false -> is_code 39 c = false ->
    is_digit c = false -> is_word_start c = false -> lexeme (String c "") (Punct, String c "").
(** A name is read to its end. *)
Definition whole (t : token) (rest : string) : Prop :=
  match t.1 with
  | Word => next_is word_char rest = false
  | Qident => next_is (is_code 34) rest = false
  | _ => True
  end.
Inductive lexes : string -> list token -> Prop :=
| lexes_end : lexes "" []
| lexes_blank c s ts : is_blank c = true -> lexes s ts -> lexes (String c s) ts
| lexes_token raw t s ts : lexeme raw t -> whole t s -> lexes s ts -> lexes (raw +:+ s) (t :: ts).

Lemma until_quote_spec q e s body rest : until_quote q e s = Some (body, rest) ->
  s = body +:+ String q rest /\ quoted_body q e body /\ next_is (fun c => Ascii.eqb c q) rest = false.
Proof.
  revert body rest. remember (String.length s) as n eqn:Hn. assert (String.length s <= n)%nat as Hle by lia. clear Hn.
  revert s Hle. induction n as [|n IH]; intros s Hle body rest; destruct s as [|c s]; cbn in Hle; try done; [lia|].
  cbn [until_quote]. destruct (is_code 92 c && e) eqn:He.
  - destruct s as [|d s]; [done|]. destruct (until_quote q e s) as [[b r]|] eqn:E; [|done]. intros [= <- <-].
    apply IH in E as (-> & Hb & Hr); [|cbn in Hle; lia]. split_and!; [done|by apply body_escape|done].
  - destruct (Ascii.eqb_spec c q) as [->|Hc].
    + destruct s as [|d s]; [intros [= <- <-]; by split_and!; [|constructor|]|].
      destruct (Ascii.eqb_spec d q) as [->|Hd].
      * destruct (until_quote q e s) as [[b r]|] eqn:E; [|done]. intros [= <- <-].
        apply IH in E as (-> & Hb & Hr); [|cbn in Hle; lia]. split_and!; [done|by apply body_double|done].
      * intros [= <- <-]. split_and!; [done|constructor|]. by apply Ascii.eqb_neq.
    + destruct (until_quote q e s) as [[b r]|] eqn:E; [|done]. intros [= <- <-].
      apply IH in E as (-> & Hb & Hr); [|lia]. split_and!; [done|by apply body_char|done].
Qed.

Lemma code_inj c n : is_code n c = true -> c = ascii_of_N n.
Proof. unfold is_code, code. intros <-%N.eqb_eq. symmetry. apply ascii_N_embedding. Qed.
Lemma number_char_cases p c : number_char c && negb (is_sign c && negb (is_exponent p)) = true ->
  (is_alnum c = true \/ c = "."%char \/ c = "_"%char) \/ (p = "e"%char \/ p = "E"%char) /\ (c = "+"%char \/ c = "-"%char).
Proof.
  unfold number_char, is_sign, is_exponent. destruct (is_alnum c); [by auto|]. cbn [orb].
  destruct (is_code 46 c) eqn:E1; [apply code_inj in E1; auto|]. destruct (is_code 95 c) eqn:E2; [apply code_inj in E2; auto|].
  destruct (is_code 43 c) eqn:E3; [apply code_inj in E3|destruct (is_code 45 c) eqn:E4; [apply code_inj in E4|done]]; cbn [orb andb];
    (destruct (is_code 101 p) eqn:E5; [apply code_inj in E5; auto|]); (destruct (is_code 69 p) eqn:E6; [apply code_inj in E6; auto|done]).
Qed.
Lemma number_span_spec p s : (number_span p s).1 +:+ (number_span p s).2 = s /\ number_tail p (number_span p s).1.
Proof.
  revert p; induction s as [|c s IH]; intros p; [split; [done|constructor]|]. cbn [number_span].
  destruct (_ && _) eqn:Hc; [|split; [done|constructor]].
  destruct (IH c) as [H1 H2]. destruct (number_span c s) as [a b]. cbn in *. split; [by rewrite H1|].
  apply number_char_cases in Hc as [Hc|[Hp Hc]]; [by apply tail_plain|by apply tail_sign].
Qed.
Lemma number_tail_chars p s : number_tail p s -> str_forall number_char s = true.
Proof.
  unfold number_char. induction 1 as [|p c s Hc _ IH|p c s _ Hc _ IH]; [done|..]; cbn [str_forall]; rewrite IH, andb_true_r.
  - destruct Hc as [->|[->| ->]]; by rewrite ?orb_true_r.
  - destruct Hc as [->| ->]; by rewrite ?orb_true_r.
Qed.

Lemma span_rest p s : next_is p (span p s).2 = false.
Proof.
  induction s as [|c s IH]; [done|]. cbn. destruct (p c) eqn:Hc; [|cbn; done]. by destruct (span p s).
Qed.

Lemma dollar_tag_spec s tag : SqlConsole.dollar_tag s = Some tag ->
  SqlConsole.dollar_tag tag = Some tag /\ s = tag +:+ str_drop (String.length tag) s /\ last_is (is_code 36) tag = true.
Proof.
  unfold SqlConsole.dollar_tag at 1. destruct s as [|d s]; [done|]. destruct (negb _) eqn:Hd; [done|].
  pose proof (span_app SqlConsole.is_tag_char s) as Happ. pose proof (span_all SqlConsole.is_tag_char s) as Hall.
  destruct (span SqlConsole.is_tag_char s) as [nm rest] eqn:Es. cbn in Happ, Hall. destruct rest as [|e rest]; [done|].
  destruct (SqlConsole.is_char 36 e) eqn:He; [|done]. cbn [andb].
  destruct (match nm with "" => true | String c _ => SqlConsole.is_tag_start c end) eqn:Hn; [|done]. intros [= <-].
  assert (Hspan : span SqlConsole.is_tag_char (nm +:+ String e "") = (nm, String e "")).
  { clear -Hall He. induction nm as [|c nm IH]; cbn.
    - unfold SqlConsole.is_char in He. apply N.eqb_eq in He.
      replace e with (ascii_of_N 36); [done|]. unfold code in He. rewrite <- He. apply ascii_N_embedding.
    - cbn in Hall. apply andb_true_iff in Hall as [-> Hall]. by rewrite (IH Hall). }
  split_and!.
  - unfold SqlConsole.dollar_tag. rewrite Hd, Hspan, He. cbn [andb]. by rewrite Hn.
  - replace (String d s) with ((String d (nm +:+ String e "")) +:+ rest) at 2.
    + rewrite SqlConsole.str_drop_exact. rewrite <- Happ. cbn. by rewrite append_assoc.
    + rewrite <- Happ. cbn. by rewrite append_assoc.
  - rewrite last_is_cons. destruct (nm +:+ String e "") eqn:E2; [by destruct nm|]. rewrite <- E2, last_is_app. exact He.
Qed.

Lemma find_split n s k : SqlConsole.find n s = Some k -> exists a b, s = a +:+ n +:+ b /\ String.length a = k.
Proof.
  revert k; induction s as [|c s IH]; intros k; cbn [SqlConsole.find].
  - destruct n; [|done]. intros [= <-]. by exists "", "".
  - destruct (starts_with n (String c s)) eqn:Hs.
    + intros [= <-]. apply starts_with_app in Hs as [u Hu]. by exists "", u.
    + destruct (SqlConsole.find n s) as [k'|]; [|done]. intros [= <-]. destruct (IH _ eq_refl) as (a & b & -> & <-).
      by exists (String c a), b.
Qed.

(** One turn of the loop reads a blank or a lexeme. *)
Definition read_one (c : ascii) (s : string) (found : option token * string) : Prop :=
  match found.1 with
  | None => is_blank c = true /\ found.2 = s
  | Some t => exists raw, String c s = raw +:+ found.2 /\ raw <> "" /\ lexeme raw t /\ whole t found.2
  end.

Lemma quoted_literal_spec e label s found : quoted_literal e label s = Ok found ->
  exists body, found.1 = Some (Literal, "'" +:+ body +:+ "'") /\ s = body +:+ "'" +:+ found.2 /\ quoted_body "'" e body.
Proof.
  unfold quoted_literal. destruct (until_quote _ _ _) as [[b r]|] eqn:E; [|done]. intros [= <-].
  apply until_quote_spec in E as (-> & Hb & _). by exists b.
Qed.

Lemma dollar_literal_spec label c s found : dollar_literal label (String c s) = Ok found -> read_one c s found.
Proof.
  unfold dollar_literal. destruct (SqlConsole.dollar_tag (String c s)) as [tag|] eqn:Ht; [|done].
  apply dollar_tag_spec in Ht as (Htag & Hs & _). set (body := str_drop (String.length tag) (String c s)) in *.
  destruct (SqlConsole.find tag body) as [n|] eqn:Hf; [|done]. intros [= <-].
  apply find_split in Hf as (a & b & Hb & Hn). rewrite Hs, Hb.
  replace (String.length tag + n + String.length tag)%nat with (String.length (tag +:+ a +:+ tag)).
  2: { rewrite !append_length, Hn. lia. }
  assert (Happ : tag +:+ a +:+ tag +:+ b = (tag +:+ a +:+ tag) +:+ b) by (by rewrite !append_assoc).
  unfold read_one. cbn [fst snd]. rewrite Hs, Hb, Happ, SqlConsole.str_take_exact, SqlConsole.str_drop_exact.
  exists (tag +:+ a +:+ tag). split_and!; [done| |by constructor|done]. by destruct tag.
Qed.


Lemma lex_one_spec label c s found : lex_one label c s = Ok found -> read_one c s found.
Proof.
  unfold lex_one. destruct (is_blank c) eqn:Hb; [intros [= <-]; by split|].
  destruct (_ || _) eqn:Hcomment; [done|]. destruct (is_code 36 c) eqn:Hd; [apply dollar_literal_spec|].
  destruct (is_code 34 c) eqn:Hq.
  { apply code_inj in Hq as ->. destruct (until_quote _ _ _) as [[b r]|] eqn:E; [|done]. intros [= <-].
    apply until_quote_spec in E as (-> & Hbody & Hr). exists (dq +:+ b +:+ dq).
    split_and!; [by rewrite !append_assoc|done|by constructor|]. unfold whole. cbn. destruct r as [|d r]; [done|].
    cbn in *. apply Ascii.eqb_neq in Hr. destruct (is_code 34 d) eqn:E; [|done]. by apply code_inj in E. }
  destruct (string_prefix c && next_is (is_code 39) s) eqn:Hp.
  { apply andb_true_iff in Hp as [Hp Hn]. destruct s as [|d s]; [done|]. cbn in Hn. apply code_inj in Hn as ->.
    intros (body & Hf & Hs & Hbody)%quoted_literal_spec. cbn [str_drop] in Hs. unfold read_one. rewrite Hf.
    exists (String c "" +:+ "'" +:+ body +:+ "'"). split_and!; [|done| |done].
    - rewrite Hs. cbn. by rewrite append_assoc.
    - apply lex_string; [right; eauto|]. replace (_ || _) with (is_exponent c); [done|].
      clear. unfold is_exponent, is_code, code. destruct c as [[] [] [] [] [] [] [] []]; reflexivity. }
  destruct (is_code 39 c) eqn:H39.
  { apply code_inj in H39 as ->. intros (body & Hf & Hs & Hbody)%quoted_literal_spec. unfold read_one. rewrite Hf.
    exists ("'" +:+ body +:+ "'"). split_and!; [|done| |done].
    - rewrite Hs. cbn. by rewrite append_assoc.
    - apply (lex_string "" body); [by left|done]. }
  destruct (is_digit c || _) eqn:Hdig.
  { pose proof (number_span_spec c s) as [Happ Hall]. destruct (number_span c s) as [a r]. intros [= <-].
    exists (String c a). cbn in *. split_and!; [by rewrite Happ|done| |done]. constructor; [|done].
    apply orb_true_iff in Hdig as [->|[-> _]%andb_true_iff]; [done|by rewrite orb_true_r]. }
  apply orb_false_iff in Hdig as [Hdig _].
  destruct (is_word_start c) eqn:Hw.
  { pose proof (span_app word_char s) as Happ. pose proof (span_all word_char s) as Hall.
    pose proof (span_rest word_char s) as Hrest. destruct (span word_char s) as [a r]. intros [= <-].
    exists (String c a). cbn [fst snd] in *. split_and!; [by rewrite append_cons, Happ|done|by constructor|done]. }
  destruct (is_code 0 c); [done|]. intros [= <-]. exists (String c ""). split_and!; [done..|by constructor|done].
Qed.

Lemma read_one_shorter c s found : read_one c s found -> (String.length found.2 <= String.length s)%nat.
Proof.
  unfold read_one. destruct found.1 as [t|]; [|by intros [_ ->]]. intros (raw & Happ & Hne & _).
  apply (f_equal String.length) in Happ. rewrite append_length in Happ. destruct raw; [done|]. cbn in Happ. lia.
Qed.

Lemma tokens_of_lexes fuel label s ts : tokens_of fuel label s = Ok ts -> lexes s ts.
Proof.
  revert s ts; induction fuel as [|fuel IH]; intros s ts; [done|]. destruct s as [|c s]; cbn [tokens_of].
  { intros [= <-]. constructor. }
  intros H. bind_ok H as found Hone. bind_ok H as rest Hrest. apply lex_one_spec in Hone. apply IH in Hrest.
  injection H as <-. unfold read_one in Hone. destruct found.1 as [t|].
  - destruct Hone as (raw & -> & _ & Hl & Hw). by constructor.
  - destruct Hone as [Hb Heq]. rewrite Heq in Hrest. by constructor.
Qed.

(** The fuel is enough, so the only errors are the lexer's own. *)
Lemma lex_one_err label c s e : lex_one label c s = Err e -> exists m, e = SchemaContractError m.
Proof.
  unfold lex_one, dollar_literal, quoted_literal. intros H.
  repeat (case_match; try done); simplify_eq; eauto.
Qed.
Lemma tokens_of_err fuel label s e : (String.length s < fuel)%nat -> tokens_of fuel label s = Err e ->
  exists m, e = SchemaContractError m.
Proof.
  revert s; induction fuel as [|fuel IH]; intros s Hl; [lia|]. destruct s as [|c s]; [done|]. cbn [tokens_of].
  unfold mbind, result_bind. destruct (lex_one label c s) as [found|e'] eqn:H1; [|intros [= <-]; by eapply lex_one_err].
  apply lex_one_spec, read_one_shorter in H1. destruct (tokens_of fuel label found.2) as [r|e'] eqn:H2; [done|].
  intros [= <-]. eapply IH; [|exact H2]. cbn in Hl. lia.
Qed.

(** What a statement must not say, which types it must not name, which words may
    stand before a parenthesis and which functions it may call, as the contract of
    [schema.json] has them. *)
Definition words_that_act : list string :=
  ["insert"; "update"; "delete"; "drop"; "alter"; "create"; "grant"; "revoke"; "truncate"; "copy"; "call"; "do";
   "merge"; "vacuum"; "analyze"; "reindex"; "cluster"; "comment"; "attach"; "detach"; "execute"; "prepare";
   "deallocate"; "set"; "reset"; "savepoint"; "listen"; "notify"; "unlisten"; "load"; "refresh"; "import"; "into";
   "returning"; "begin"; "commit"; "rollback"; "start"; "lock"; "declare"; "open"; "close"; "move"; "discard";
   "checkpoint"; "security"; "definer"; "function"; "procedure"; "trigger"; "rule"; "policy"].
Definition catalog_types : list string :=
  ["regclass"; "regproc"; "regprocedure"; "regoper"; "regoperator"; "regtype"; "regrole"; "regnamespace"; "regconfig";
   "regdictionary"; "regcollation"].
Definition words_before_parenthesis : list string :=
  ["select"; "from"; "where"; "and"; "or"; "not"; "in"; "exists"; "any"; "all"; "some"; "over"; "partition"; "values";
   "array"; "case"; "when"; "then"; "else"; "end"; "on"; "using"; "group"; "order"; "by"; "having"; "distinct"; "union";
   "intersect"; "except"; "as"; "between"; "like"; "ilike"; "similar"; "is"; "null"; "true"; "false"; "asc"; "desc";
   "nulls"; "first"; "last"; "limit"; "offset"; "fetch"; "row"; "rows"; "with"; "recursive"; "lateral"; "join"; "inner";
   "outer"; "left"; "right"; "full"; "cross"; "natural"; "filter"; "within"; "grouping"; "collate"; "at"; "time";
   "zone"; "interval"; "cast"; "coalesce"; "nullif"; "greatest"; "least"; "extract"; "substring"; "trim"; "position";
   "overlay"].
Definition functions_of_values : list string :=
  ["coalesce"; "nullif"; "greatest"; "least"; "lower"; "upper"; "initcap"; "length"; "char_length"; "character_length";
   "octet_length"; "bit_length"; "trim"; "btrim"; "ltrim"; "rtrim"; "lpad"; "rpad"; "substr"; "substring"; "left";
   "right"; "reverse"; "replace"; "translate"; "concat"; "concat_ws"; "format"; "split_part"; "strpos"; "position";
   "starts_with"; "to_char"; "to_number"; "md5"; "ascii"; "chr"; "repeat"; "regexp_replace"; "regexp_match";
   "regexp_matches"; "regexp_split_to_array"; "abs"; "ceil"; "ceiling"; "floor"; "round"; "trunc"; "sign"; "mod";
   "power"; "sqrt"; "cbrt"; "exp"; "ln"; "log"; "log10"; "div"; "width_bucket"; "gcd"; "lcm"; "date_part"; "date_trunc";
   "extract"; "age"; "to_timestamp"; "to_date"; "make_date"; "make_time"; "make_timestamp"; "make_timestamptz";
   "justify_days"; "justify_hours"; "justify_interval"; "now"; "cast"; "jsonb_array_length"; "json_array_length";
   "jsonb_extract_path"; "jsonb_extract_path_text"; "json_extract_path"; "json_extract_path_text"; "jsonb_typeof";
   "json_typeof"; "jsonb_object_keys"; "jsonb_build_object"; "jsonb_build_array"; "to_jsonb"; "to_json";
   "jsonb_strip_nulls"; "jsonb_pretty"; "array_length"; "array_upper"; "array_lower"; "array_ndims"; "array_position";
   "array_positions"; "array_to_string"; "string_to_array"; "cardinality"; "array_append"; "array_prepend"; "array_cat";
   "array_remove"; "array_replace"; "unnest"; "count"; "sum"; "avg"; "min"; "max"; "array_agg"; "string_agg";
   "jsonb_agg"; "json_agg"; "bool_and"; "bool_or"; "every"; "variance"; "var_samp"; "var_pop"; "stddev"; "stddev_samp";
   "stddev_pop"; "row_number"; "rank"; "dense_rank"; "percent_rank"; "cume_dist"; "ntile"; "lag"; "lead"; "first_value";
   "last_value"; "nth_value"].
(** ** What the guard accepts *)
Definition allowed_call (t : token) : Prop :=
  (t.1 = Word /\ py_lower t.2 ∈ words_before_parenthesis) \/ py_lower t.2 ∈ functions_of_values.
(** A token between its neighbours in a harmless statement. *)
Definition harmless (prev : option token) (t : token) (next : option token) : Prop :=
  t <> (Punct, ";") /\
  (t.1 = Word -> t.2 ∉ words_that_act /\ t.2 ∉ catalog_types) /\
  (t.1 = Word \/ t.1 = Qident -> next = Some (Punct, ".") -> py_lower t.2 ∉ ["pg_catalog"; "information_schema"]) /\
  (t.1 = Word \/ t.1 = Qident -> next = Some (Punct, "(") -> prev <> Some (Punct, ".") /\ allowed_call t).

Lemma is_punct_spec p t : is_punct p t = true <-> t = Some (Punct, p).
Proof.
  destruct t as [[[] q]|]; cbn; try done. rewrite String.eqb_eq. split; [by intros ->|by intros [= ->]].
Qed.
Lemma is_punct_false p t : is_punct p t = false <-> t <> Some (Punct, p).
Proof. rewrite <- is_punct_spec. by destruct (is_punct p t). Qed.

Lemma ensure_negb {E} b (e : E) u : ensure (negb b) e = Ok u <-> b = false.
Proof. by rewrite ensure_ok, negb_true_iff. Qed.
Lemma andb_imp (a b : bool) (P : Prop) : (a = true <-> P) -> (a && b = false <-> (P -> b = false)).
Proof. destruct a, b; naive_solver. Qed.
Lemma refused_or {E} (b : bool) (e : E) (m : result E unit) :
  (ensure (negb b) e ≫= fun _ => m) = Ok tt <-> b = false /\ m = Ok tt.
Proof. destruct b; cbn; naive_solver. Qed.
Lemma name_before (b c d : bool) (P Q : Prop) : (c = true <-> Q) -> (b && c && d = false <-> (b = true -> Q -> d = false)).
Proof. destruct b, c, d; naive_solver. Qed.
Lemma among_elem x l : among x l = true <-> x ∈ l.
Proof.
  unfold among. rewrite existsb_exists. split.
  - intros (y & Hy & ->%String.eqb_eq). by apply list_elem_of_In.
  - intros Hx. exists x. split; [by apply list_elem_of_In|apply String.eqb_refl].
Qed.
Lemma among_not x l : among x l = false <-> x ∉ l.
Proof. rewrite <-among_elem. by destruct (among x l). Qed.
Lemma is_name_spec t : is_name t = true <-> t.1 = Word \/ t.1 = Qident.
Proof. destruct t as [[] x]; cbn; naive_solver. Qed.
Lemma check_token_ok label prev t next : check_token label prev t next = Ok tt <-> harmless prev t next.
Proof.
  unfold harmless. rewrite <-!is_name_spec. unfold allowed_call. rewrite <-!among_not, <-!among_elem.
  change words_that_act with _SQL_FORBIDDEN_KEYWORDS. change catalog_types with _SQL_FORBIDDEN_TYPES.
  change words_before_parenthesis with _SQL_STRUCTURAL_KEYWORDS. change functions_of_values with _ALLOWED_FUNCTIONS.
  destruct t as [k tok]. unfold check_token. cbn [fst snd].
  rewrite !refused_or, is_punct_false. rewrite !(andb_imp _ _ (k = Word)) by apply bool_decide_eq_true.
  rewrite (name_before _ _ _ True _ (is_punct_spec _ _)).
  assert (forall x : token, Some (k, tok) <> Some x <-> (k, tok) <> x) as -> by naive_solver.
  assert (Hcall : forall m : result contract_exn unit, (if is_name (k, tok) && is_punct "(" next then m else Ok tt) = Ok tt <->
      (is_name (k, tok) = true -> next = Some (Punct, "(") -> m = Ok tt)).
  { intros m. rewrite <- is_punct_spec. destruct (is_name _), (is_punct _ _); naive_solver. }
  rewrite Hcall, refused_or, is_punct_false.
  assert (Hallow : (if bool_decide (k = Word) && among (py_lower tok) _SQL_STRUCTURAL_KEYWORDS then Ok tt
      else ensure (among (py_lower tok) _ALLOWED_FUNCTIONS) (SchemaContractError (label +:+ " calls non-allowlisted function " +:+ py_repr_str tok)))
      = Ok tt <-> (k = Word /\ among (py_lower tok) _SQL_STRUCTURAL_KEYWORDS = true) \/ among (py_lower tok) _ALLOWED_FUNCTIONS = true).
  { case_bool_decide; destruct (among (py_lower tok) _SQL_STRUCTURAL_KEYWORDS); cbn [andb]; rewrite ?ensure_ok; naive_solver. }
  rewrite Hallow. tauto.
Qed.

Lemma check_tokens_ok label prev ts : check_tokens label prev ts = Ok tt <->
  forall before t after, ts = before ++ t :: after -> harmless (from_option Some prev (last before)) t (head after).
Proof.
  revert prev; induction ts as [|t ts IH]; intros prev; cbn [check_tokens].
  { split; [by intros _ [|? ?] ? ? [=]|done]. }
  rewrite result_bind_ok. split.
  - intros ([] & Ht & Hts) before u after Heq. apply check_token_ok in Ht. rewrite IH in Hts.
    destruct before as [|b before]; cbn in Heq; injection Heq as -> ->; [exact Ht|].
    specialize (Hts _ _ _ eq_refl). rewrite last_cons. by destruct (last before).
  - intros H. exists tt. split; [apply check_token_ok, (H [] t ts eq_refl)|]. apply IH. intros before u after ->.
    specialize (H (t :: before) u after eq_refl). rewrite last_cons in H. by destruct (last before).
Qed.

(** Only a semicolon ends in a semicolon. *)
Lemma word_no_semicolon c : word_char c = true -> is_code 59 c = false.
Proof. destruct c as [[] [] [] [] [] [] [] []]; by vm_compute. Qed.
Lemma word_start_char c : is_word_start c = true -> word_char c = true.
Proof.
  unfold is_word_start, word_char, is_alnum. destruct (is_alpha c), (is_code 95 c), (128 <=? code c)%N; try done;
    rewrite ?orb_true_r; done.
Qed.
Lemma number_no_semicolon c : number_char c = true -> is_code 59 c = false.
Proof. destruct c as [[] [] [] [] [] [] [] []]; by vm_compute. Qed.
Lemma digit_number c : (is_digit c || is_code 46 c) = true -> number_char c = true.
Proof. unfold number_char, is_alnum. destruct (is_digit c), (is_code 46 c); try done; by rewrite ?orb_true_r. Qed.
Lemma lexeme_last raw t : lexeme raw t -> last_is (is_code 59) raw = true -> t = (Punct, ";").
Proof.
  intros [c a Hc Ha|body _|prefix body _ _|tag body Ht|c a Hc Ha|c ? ? ? ? ? ?] Hl.
  - assert (H : last_is word_char (String c a) = true).
    { apply last_is_all; [|done]. cbn. by rewrite (word_start_char c Hc), Ha. }
    apply (last_is_excl _ (is_code 59)) in H; [congruence|exact word_no_semicolon].
  - rewrite <- !append_assoc, last_is_app in Hl. by vm_compute in Hl.
  - rewrite <- !append_assoc, last_is_app in Hl. by vm_compute in Hl.
  - apply dollar_tag_spec in Ht as (Htag & _ & Hd). rewrite !last_is_app in Hl. destruct tag as [|d tag]; [done|].
    apply (last_is_excl _ (is_code 59)) in Hd; [|by intros d' ->%code_inj].
    destruct (body +:+ String d tag) eqn:E; [by destruct body|]. congruence.
  - assert (H : last_is number_char (String c a) = true).
    { apply last_is_all; [|done]. cbn. by rewrite (digit_number c Hc), (number_tail_chars _ _ Ha). }
    apply (last_is_excl _ (is_code 59)) in H; [congruence|exact number_no_semicolon].
  - cbn in Hl. by apply code_inj in Hl as ->.
Qed.
Lemma lexes_semicolon s ts : lexes s ts -> last_is (is_code 59) s = true -> (Punct, ";") ∈ ts.
Proof.
  induction 1 as [|c s ts Hb Hs IH|raw t s ts Hl Hw Hs IH]; [done|..].
  - rewrite last_is_cons. destruct s; [by intros ->%code_inj|exact IH].
  - rewrite last_is_app. destruct s; [|right; auto]. intros H. rewrite (lexeme_last _ _ Hl H). by left.
Qed.

Lemma check_tokens_err label prev ts e : check_tokens label prev ts = Err e -> exists m, e = SchemaContractError m.
Proof.
  revert prev; induction ts as [|t ts IH]; intros prev; cbn [check_tokens]; [done|]. unfold mbind at 1, result_bind at 1.
  destruct (check_token _ _ _ _) as [[]|e'] eqn:H; [apply IH|]. intros [= <-]. destruct t as [k tok].
  unfold check_token, ensure, mbind, result_bind in H. repeat (case_match; try done); simplify_eq; eauto.
Qed.

Lemma without_terminator_shape s :
  py_rstrip (without_terminator s) = without_terminator s /\ (CopyFormat.slen (without_terminator s) <= CopyFormat.slen s)%Z.
Proof.
  unfold without_terminator, CopyFormat.slen. pose proof (rstrip_length s). destruct (last_is _ _).
  - split; [apply rstrip_idem|]. pose proof (rstrip_length (str_take (String.length (py_rstrip s) - 1) (py_rstrip s))) as H1.
    rewrite SqlConsole.str_take_length in H1 by lia. lia.
  - split; [apply rstrip_idem|lia].
Qed.

#[local] Arguments _tokenize_sql : simpl never.
#[local] Arguments check_tokens : simpl never.
Lemma guard_accepts v label require_select text : _validate_readonly_sql v label require_select = Ok text ->
  exists s ts, v = PStr s /\ text = without_terminator s /\ lexes text ts /\ ts <> [] /\
    (forall before t after, ts = before ++ t :: after -> harmless (last before) t (head after)) /\
    (require_select = true -> exists t rest, ts = t :: rest /\ is_query_start t = true) /\
    _validate_readonly_sql (PStr text) label require_select = Ok text.
Proof.
  intros H.
  destruct v as [| | | |s| |]; try done. cbn in H. bind_ok H as u1 H1. bind_ok H as u2 H2. bind_ok H as ts Hts.
  destruct ts as [|t ts0] eqn:Et; [done|]. rewrite <- Et in *. bind_ok H as u3 H3. bind_ok H as u4 H4. injection H as <-.
  destruct u3. pose proof (tokens_of_lexes _ _ _ _ Hts) as Hlex. exists s, ts.
  pose proof (proj1 (check_tokens_ok _ _ _) H3) as Hharm.
  destruct (without_terminator_shape s) as [Hr Hlen]. set (text := without_terminator s) in *.
  assert (Hall : forall before t after, ts = before ++ t :: after -> harmless (last before) t (head after)).
  { intros before u after Heq. specialize (Hharm before u after Heq). by destruct (last before). }
  split_and!; try done; [by rewrite Et| |].
  - intros ->. exists t, ts0. split; [done|]. by apply ensure_ok in H4.
  - assert (Hne : text <> "") by (intros E; rewrite E in Hts; rewrite Et in Hts; done).
    assert (Hlast : last_is (is_code 59) text = false).
    { destruct (last_is (is_code 59) text) eqn:E; [|done]. apply (lexes_semicolon _ _ Hlex) in E.
      apply list_elem_of_split in E as (l1 & l2 & E). destruct (Hall _ _ _ E) as [Hs _]. by destruct Hs. }
    assert (Ht : without_terminator text = text) by (unfold without_terminator; by rewrite Hr, Hlast).
    cbn. rewrite Ht. apply result_bind_ok. exists tt. split; [apply ensure_ok, negb_true_iff, String.eqb_neq, strip_nonempty; done|].
    apply result_bind_ok. exists tt. apply ensure_ok in H2. apply Z.leb_le in H2. split; [apply ensure_ok, Z.leb_le; lia|].
    rewrite Hts, Et. cbn [mbind result_bind]. rewrite <- Et, H3. cbn [mbind result_bind]. by rewrite H4.
Qed.
Lemma guard_error v label require_select e : _validate_readonly_sql v label require_select = Err e ->
  exists m, e = SchemaContractError m.
Proof.
  intros H.
  destruct v as [| | | |s| |]; cbn in H; try (injection H as <-; eauto). unfold mbind, result_bind, ensure in H.
  destruct (negb _) in H; [|injection H as <-; eauto]. destruct (_ <=? _)%Z; [|injection H as <-; eauto].
  destruct (_tokenize_sql _ _) as [ts|e'] eqn:Ht.
  2: { injection H as <-. eapply tokens_of_err; [|exact Ht]. lia. }
  destruct ts as [|t ts]; [injection H as <-; eauto|]. destruct (check_tokens _ _ _) as [[]|e'] eqn:Hc.
  - destruct (_ || _) in H; [done|]. injection H as <-. eauto.
  - injection H as <-. by eapply check_tokens_err.
Qed.

Lemma last_char_split c t : last_is (is_code c) t = true -> exists body, t = (body +:+ String (ascii_of_N c) "")%string /\ str_take (String.length t - 1) t = body.
Proof.
  induction t as [|x t IH]; [done|]. rewrite last_is_cons. destruct t as [|y t]; [intros ->%code_inj; by exists ""|].
  intros (body & Hb & Ht)%IH. exists (String x body). rewrite Hb at 1. split; [done|]. rewrite <-Ht. cbn [String.length].
  replace (S (S (String.length t)) - 1)%nat with (S (S (String.length t) - 1)) by lia. done.
Qed.
Lemma without_terminator_text s :
  without_terminator s = py_rstrip s \/ exists body, py_rstrip s = (body +:+ ";")%string /\ without_terminator s = py_rstrip body.
Proof.
  unfold without_terminator. destruct (last_is _ _) eqn:E; [right|by left]. destruct (last_char_split _ _ E) as (body & Hb & Ht).
  exists body. by rewrite Ht.
Qed.
Lemma query_start_words t : is_query_start t = true -> t ∈ [(Word, "select"); (Word, "with"); (Punct, "(")].
Proof.
  destruct t as [[] w]; cbn; try done; [intros [->%String.eqb_eq| ->%String.eqb_eq]%orb_true_iff|intros ->%String.eqb_eq]; set_solver.
Qed.

(** C9: the guard over view definitions and index predicates.  It decides
    every value: it returns the text without its terminator, or raises
    [SchemaContractError] and nothing else.  What it accepts reads as blanks
    and lexemes, its names in full, none of them a semicolon, a forbidden
    keyword or a bare [reg*] type, no name before a point is a system schema,
    and every name before a parenthesis is unqualified and a structural keyword
    or an allowed function; a view begins as a query.  The lexemes are the guard's:
    a number takes a sign after any [e], where PostgreSQL may read a call
    ([guard_hex]).  The accepted text is
    accepted again, unchanged, when the archive is read. *)
Theorem readonly_sql_guard v label require_select :
  match _validate_readonly_sql v label require_select with
  | Ok text => exists s ts, v = PStr s /\ (text = py_rstrip s \/ exists body, py_rstrip s = (body +:+ ";")%string /\ text = py_rstrip body) /\
      lexes text ts /\ ts <> [] /\
      (forall before t after, ts = before ++ t :: after -> harmless (last before) t (head after)) /\
      (require_select = true -> exists t rest, ts = t :: rest /\ t ∈ [(Word, "select"); (Word, "with"); (Punct, "(")]) /\
      _validate_readonly_sql (PStr text) label require_select = Ok text
  | Err e => exists m, e = SchemaContractError m
  end.
Proof.
  destruct (_validate_readonly_sql v label require_select) as [text|e] eqn:H; [|by eapply guard_error].
  apply guard_accepts in H as (s & ts & -> & -> & Hlex & Hne & Hall & Hq & Hok). exists s, ts.
  split_and!; try done; [apply without_terminator_text|]. intros Hr. destruct (Hq Hr) as (t & rest & Hts & Ht). exists t, rest.
  split; [done|]. by apply query_start_words.
Qed.
