(* ===== verification/SchemaContract.v ===== *)
(** * The schema contract of a backup (ppbase/backup/schema_contract.py)

    [schema.json]: columns, tables, indexes, views, migrations and the segments
    of [data.copy], each built by a constructor that checks it, written by
    [to_dict] and read by [from_dict]; the completeness that a restore demands;
    and the comparison of a live table with PPBase's own model of it. *)
From Stdlib Require Import Ascii String.
From S2P Require Import Prelude PyText PyVal SchemaSql.
From S2P Require CopyFormat FieldTypes.
#[local] Open Scope string_scope.
#[local] Open Scope list_scope.

Abbreviation checked := (result contract_exn).
Abbreviation json_dict := (list (string * pyval)).
(** [value["key"]] once the keys have been checked. *)
Abbreviation item := CopyFormat.field.

Definition SCHEMA_CONTRACT_VERSION : Z := 1.
Definition SYSTEM_SCHEMA_VERSION : Z := 1.
Definition reject {A} (message : string) : checked A := Err (SchemaContractError message).

(** ** Identifiers, types and defaults *)
Definition _identifier (v : pyval) (label : string) : checked string :=
  match v with
  | PStr s =>
      _ ← ensure (CopyFormat.identifier_pattern s) (SchemaContractError (label +:+ " is not a valid unquoted identifier"));
      _ ← ensure (CopyFormat.slen s <=? CopyFormat._IDENTIFIER_MAX_BYTES)%Z
            (SchemaContractError (label +:+ " exceeds 63 bytes"));
      Ok s
  | _ => reject (label +:+ " is not a valid unquoted identifier")
  end.

Definition _SCALAR_TYPES : list string :=
  ["text"; "integer"; "bigint"; "smallint"; "double precision"; "real"; "boolean"; "timestamp with time zone"; "jsonb"; "json"].
(** [\((\d+)\)] at the start, and the rest. *)
Definition size_suffix (s : string) : option string :=
  match strip_prefix "(" s with
  | Some r =>
      let '(digits, rest) := span is_decimal r in
      if String.eqb digits "" then None else strip_prefix ")" rest
  | None => None
  end.
Definition is_text (t : string) (o : option string) : bool := match o with Some s => String.eqb s t | None => false end.
Definition _VARCHAR_PATTERN (s : string) : bool :=
  match strip_prefix "character varying" s with Some r => is_text "" (size_suffix r) | None => false end.
Definition _ARRAY_PATTERN (s : string) : bool :=
  existsb (fun base => match strip_prefix base s with
                       | Some r => String.eqb r "[]" || is_text "[]" (size_suffix r)
                       | None => false
                       end) ["text"; "character varying"].
Definition allowed_type (s : string) : bool := among s _SCALAR_TYPES || _VARCHAR_PATTERN s || _ARRAY_PATTERN s.
Definition normalize_column_type (v : pyval) : checked string :=
  match v with
  | PStr s =>
      _ ← ensure (allowed_type s) (SchemaContractError ("column type is outside the allowlist: " +:+ py_repr_str s));
      Ok s
  | _ => reject "column type must be a string"
  end.
Definition _bool (v : pyval) (label : string) : checked bool :=
  match v with PBool b => Ok b | _ => reject (label +:+ " must be a boolean") end.

Definition geo_default : string :=
  "'{" +:+ dq +:+ "lat" +:+ dq +:+ ": 0, " +:+ dq +:+ "lon" +:+ dq +:+ ": 0}'::jsonb".
Definition _ALLOWED_DEFAULTS : list string :=
  ["''::text"; "''::character varying"; "0"; "'0'::double precision"; "false"; "now()"; "'{}'::text[]";
   "'{}'::character varying[]"; "'null'::jsonb"; "'[]'::jsonb"; "'{}'::jsonb"; geo_default; "'base'::character varying"].
Definition _classify_default (v : pyval) : checked (option string) :=
  match v with
  | PNone => Ok None
  | PStr s =>
      _ ← ensure (among s _ALLOWED_DEFAULTS)
            (SchemaContractError ("column default is not a reproducible PPBase default: " +:+ py_repr_str s));
      Ok (Some s)
  | _ => reject "column default must be a string or null"
  end.

(** ** Helpers of the constructors *)
Definition keys_are (expected : list string) (d : json_dict) : bool :=
  bool_decide (list_to_set (d.*1) =@{gset string} list_to_set expected).
Definition distinct (l : list string) : bool := bool_decide (NoDup l).
(** [isinstance(value, Mapping) and set(value) == expected] *)
Definition as_object (expected : list string) (message : string) (v : pyval) : checked json_dict :=
  match v with
  | PDict d => _ ← ensure (keys_are expected d) (SchemaContractError message); Ok d
  | _ => reject message
  end.
Definition as_array (message : string) (v : pyval) : checked (list pyval) :=
  match v with PList l => Ok l | _ => reject message end.
(** [tuple(v)] *)
Definition py_tuple (v : pyval) : checked (list pyval) :=
  match FieldTypes.py_iter v with Ok l => Ok l | Err _ => Err PyTypeError end.
Definition opt_str (o : option string) : pyval := match o with Some s => PStr s | None => PNone end.
Definition strs (l : list string) : pyval := PList (PStr <$> l).

Definition _column_tuple (v : pyval) (label : string) : checked (list string) :=
  match v with
  | PList l =>
      names ← map_result (fun x => _identifier x (label +:+ " entry")) l;
      _ ← ensure (distinct names) (SchemaContractError (label +:+ " has duplicate columns"));
      Ok names
  | _ => reject (label +:+ " must be an array")
  end.
(** Every name is one of [known]. *)
Definition known_columns (known : list string) (message : string -> string) (names : list string) : checked unit :=
  match list_find (fun n => among n known = false) names with
  | Some (_, n) => reject (message n)
  | None => Ok tt
  end.
(** [v not in frozenset(names)] *)
Definition member_of (names : list string) (message : string) (v : pyval) : checked string :=
  match v with
  | PStr s => if among s names then Ok s else reject message
  | PList _ | PDict _ => Err PyTypeError
  | _ => reject message
  end.

(** ** Columns and tables *)
Record ColumnSpec : Type := mkColumn {
  col_name : string;
  col_type : string;
  nullable : bool;
  col_default : option string;
}.
#[export] Instance ColumnSpec_eq_dec : EqDecision ColumnSpec.
Proof. solve_decision. Defined.
Definition ColumnSpec_init (name type nullable default : pyval) : checked ColumnSpec :=
  n ← _identifier name "column name";
  t ← normalize_column_type type;
  b ← _bool nullable "nullable";
  d ← _classify_default default;
  Ok (mkColumn n t b d).
Definition ColumnSpec_to_dict (c : ColumnSpec) : json_dict :=
  [("name", PStr (col_name c)); ("type", PStr (col_type c)); ("nullable", PBool (nullable c)); ("default", opt_str (col_default c))].
Definition column_keys : list string := ["name"; "type"; "nullable"; "default"].
Definition ColumnSpec_from_dict (v : pyval) : checked ColumnSpec :=
  d ← as_object column_keys "column has unknown or missing fields" v;
  ColumnSpec_init (item d "name") (item d "type") (item d "nullable") (item d "default").

Record TableSpec : Type := mkTable {
  t_name : string;
  t_kind : string;
  t_columns : list ColumnSpec;
  primary_key : list string;
  unique_constraints : list (list string);
}.
Definition _TABLE_KINDS : list string := ["system"; "base"; "auth"].
Definition column_names (t : TableSpec) : list string := col_name <$> t_columns t.
Section Tables.
Context `{FloatText}.
Definition unique_constraint (known : list string) (v : pyval) : checked (list string) :=
  cols ← _column_tuple v "unique constraint";
  _ ← known_columns known (fun c => "unique constraint references unknown column " +:+ py_repr_str c) cols;
  Ok cols.
Definition TableSpec_init (name kind : pyval) (columns : list ColumnSpec) (primary_key unique_constraints : pyval) : checked TableSpec :=
  n ← _identifier name "table name";
  k ← member_of _TABLE_KINDS ("unknown table kind: " +:+ py_repr kind) kind;
  _ ← ensure (negb (bool_decide (columns = []))) (SchemaContractError ("table " +:+ py_repr_str n +:+ " has no columns"));
  let names := col_name <$> columns in
  _ ← ensure (distinct names) (SchemaContractError ("table " +:+ py_repr_str n +:+ " has duplicate columns"));
  pk ← _column_tuple primary_key "primary_key";
  _ ← known_columns names (fun c => "primary key references unknown column " +:+ py_repr_str c) pk;
  entries ← py_tuple unique_constraints;
  uniques ← map_result (unique_constraint names) entries;
  Ok (mkTable n k columns pk uniques).
Definition TableSpec_to_dict (t : TableSpec) : json_dict :=
  [("name", PStr (t_name t)); ("kind", PStr (t_kind t)); ("columns", PList (PDict ∘ ColumnSpec_to_dict <$> t_columns t));
   ("primary_key", strs (primary_key t)); ("unique_constraints", PList (strs <$> unique_constraints t))].
Definition table_keys : list string := ["name"; "kind"; "columns"; "primary_key"; "unique_constraints"].
Definition TableSpec_from_dict (v : pyval) : checked TableSpec :=
  d ← as_object table_keys "table has unknown or missing fields" v;
  columns ← as_array "table columns must be an array" (item d "columns");
  cols ← map_result ColumnSpec_from_dict columns;
  TableSpec_init (item d "name") (item d "kind") cols (item d "primary_key") (item d "unique_constraints").
End Tables.

(** ** Indexes, views and migrations *)
Record IndexKeySpec : Type := mkKey {
  k_column : string;
  descending : bool;
  nulls_first : option bool;
}.
Definition opt_bool (o : option bool) : pyval := match o with Some b => PBool b | None => PNone end.
Definition IndexKeySpec_init (column descending nulls_first : pyval) : checked IndexKeySpec :=
  c ← _identifier column "index column";
  b ← _bool descending "descending";
  match nulls_first with
  | PNone => Ok (mkKey c b None)
  | PBool f => Ok (mkKey c b (Some f))
  | _ => reject "index key nulls_first must be a boolean or null"
  end.
Definition IndexKeySpec_to_dict (k : IndexKeySpec) : json_dict :=
  [("column", PStr (k_column k)); ("descending", PBool (descending k)); ("nulls_first", opt_bool (nulls_first k))].
Definition key_keys : list string := ["column"; "descending"; "nulls_first"].
Definition IndexKeySpec_from_dict (v : pyval) : checked IndexKeySpec :=
  d ← as_object key_keys "index key has unknown or missing fields" v;
  IndexKeySpec_init (item d "column") (item d "descending") (item d "nulls_first").

Record IndexSpec : Type := mkIndex {
  i_name : string;
  i_table : string;
  method : string;
  unique : bool;
  nulls_not_distinct : bool;
  keys : list IndexKeySpec;
  included : list string;
  predicate : option string;
}.
Definition _INDEX_METHODS : list string := ["btree"; "hash"; "gin"; "brin"; "spgist"].
Definition index_predicate (v : pyval) : checked (option string) :=
  match v with PNone => Ok None | _ => text ← _validate_index_predicate v; Ok (Some text) end.
(** [_column_tuple(included) if included else ()] *)
Definition index_included (l : list pyval) : checked (list string) :=
  match l with [] => Ok [] | _ => _column_tuple (PList l) "index include" end.
Section Indexes.
Context `{FloatText}.
Definition IndexSpec_init (name table method unique nulls_not_distinct : pyval) (keys : list IndexKeySpec)
    (included : list pyval) (predicate : pyval) : checked IndexSpec :=
  n ← _identifier name "index name";
  t ← _identifier table "index table";
  m ← member_of _INDEX_METHODS ("unsupported index method: " +:+ py_repr method) method;
  u ← _bool unique "unique";
  nd ← _bool nulls_not_distinct "nulls_not_distinct";
  _ ← ensure (match keys with [] => false | _ => true end) (SchemaContractError ("index " +:+ py_repr_str n +:+ " has no keys"));
  inc ← index_included included;
  p ← index_predicate predicate;
  Ok (mkIndex n t m u nd keys inc p).
Definition IndexSpec_to_dict (i : IndexSpec) : json_dict :=
  [("name", PStr (i_name i)); ("table", PStr (i_table i)); ("method", PStr (method i)); ("unique", PBool (unique i));
   ("nulls_not_distinct", PBool (nulls_not_distinct i)); ("keys", PList (PDict ∘ IndexKeySpec_to_dict <$> keys i));
   ("included", strs (included i)); ("predicate", opt_str (predicate i))].
Definition index_keys : list string :=
  ["name"; "table"; "method"; "unique"; "nulls_not_distinct"; "keys"; "included"; "predicate"].
Definition IndexSpec_from_dict (v : pyval) : checked IndexSpec :=
  d ← as_object index_keys "index has unknown or missing fields" v;
  ks ← as_array "index keys must be an array" (item d "keys");
  key_specs ← map_result IndexKeySpec_from_dict ks;
  included ← py_tuple (item d "included");
  IndexSpec_init (item d "name") (item d "table") (item d "method") (item d "unique") (item d "nulls_not_distinct")
    key_specs included (item d "predicate").
End Indexes.

Record ViewSpec : Type := mkView {
  v_name : string;
  definition : string;
  depends_on : list string;
}.
Definition ViewSpec_init (name definition depends_on : pyval) : checked ViewSpec :=
  n ← _identifier name "view name";
  text ← _validate_view_definition definition;
  deps ← _column_tuple depends_on "view depends_on";
  Ok (mkView n text deps).
Definition ViewSpec_to_dict (v : ViewSpec) : json_dict :=
  [("name", PStr (v_name v)); ("definition", PStr (definition v)); ("depends_on", strs (depends_on v))].
Definition view_keys : list string := ["name"; "definition"; "depends_on"].
Definition ViewSpec_from_dict (v : pyval) : checked ViewSpec :=
  d ← as_object view_keys "view has unknown or missing fields" v;
  ViewSpec_init (item d "name") (item d "definition") (item d "depends_on").

Record MigrationSpec : Type := mkMigration {
  file : string;
  sha256 : option string;
  applied : string;
}.
Definition non_empty_text (message : string) (v : pyval) : checked string :=
  match v with PStr s => if String.eqb s "" then reject message else Ok s | _ => reject message end.
Definition migration_sha256 (v : pyval) : checked (option string) :=
  match v with
  | PNone => Ok None
  | PStr s => if CopyFormat.sha256_pattern s then Ok (Some s) else reject "migration sha256 must be 64 hex chars or null"
  | _ => reject "migration sha256 must be 64 hex chars or null"
  end.
Definition MigrationSpec_init (file sha256 applied : pyval) : checked MigrationSpec :=
  f ← non_empty_text "migration file must be a non-empty string" file;
  h ← migration_sha256 sha256;
  a ← non_empty_text "migration applied timestamp must be a string" applied;
  Ok (mkMigration f h a).
Definition MigrationSpec_to_dict (m : MigrationSpec) : json_dict :=
  [("file", PStr (file m)); ("sha256", opt_str (sha256 m)); ("applied", PStr (applied m))].
Definition migration_keys : list string := ["file"; "sha256"; "applied"].
Definition MigrationSpec_from_dict (v : pyval) : checked MigrationSpec :=
  d ← as_object migration_keys "migration has unknown or missing fields" v;
  MigrationSpec_init (item d "file") (item d "sha256") (item d "applied").

(** ** The database schema *)
(** The versions are kept as they came: [True] passes for 1. *)
Record DatabaseSchema : Type := mkSchema {
  tables : list TableSpec;
  views : list ViewSpec;
  indexes : list IndexSpec;
  migrations : list MigrationSpec;
  segments : list CopyFormat.CopySegment;
  data_copy_size : Z;
  source_postgres_version : option Z;
  contract_version : pyval;
  system_schema_version : pyval;
}.
Definition opt_int (o : option Z) : pyval := match o with Some z => PInt z | None => PNone end.
Definition of_copy {A} (r : result CopyFormat.copy_error A) : checked A :=
  match r with Ok a => Ok a | Err e => Err (CopyFormatError e) end.
(** [{t.name: t for t in tables}[name]] *)
Definition table_by_name (tables : list TableSpec) (name : string) : option TableSpec :=
  last (filter (fun t => t_name t = name) tables).
Definition check_all {A} (f : A -> checked unit) (l : list A) : checked unit :=
  fold_result (fun _ x => f x) l tt.
Definition check_view_deps (relations : list string) (v : ViewSpec) : checked unit :=
  known_columns relations
    (fun dep => "view " +:+ py_repr_str (v_name v) +:+ " depends on unknown relation " +:+ py_repr_str dep) (depends_on v).
Definition check_index (tables : list TableSpec) (i : IndexSpec) : checked unit :=
  match table_by_name tables (i_table i) with
  | None => reject ("index " +:+ py_repr_str (i_name i) +:+ " targets unknown table " +:+ py_repr_str (i_table i))
  | Some t =>
      _ ← known_columns (column_names t)
            (fun c => "index " +:+ py_repr_str (i_name i) +:+ " references unknown column " +:+ py_repr_str c) (k_column <$> keys i);
      known_columns (column_names t)
        (fun c => "index " +:+ py_repr_str (i_name i) +:+ " includes unknown column " +:+ py_repr_str c) (included i)
  end.
Definition check_segment (tables : list TableSpec) (seen : list string) (s : CopyFormat.CopySegment) : checked (list string) :=
  let table := CopyFormat.table s in
  match table_by_name tables table with
  | None => reject ("segment targets unknown table " +:+ py_repr_str table)
  | Some t =>
      _ ← ensure (negb (among table seen)) (SchemaContractError ("multiple segments target table " +:+ py_repr_str table));
      _ ← ensure (bool_decide (CopyFormat.columns s = column_names t))
            (SchemaContractError ("segment for " +:+ py_repr_str table +:+ " does not match the table's column order"));
      Ok (table :: seen)
  end.
Definition non_negative (v : pyval) : checked Z :=
  match v with
  | PInt z => if (z <? 0)%Z then reject "data_copy_size must be a non-negative integer" else Ok z
  | _ => reject "data_copy_size must be a non-negative integer"
  end.
Definition optional_int (v : pyval) : checked (option Z) :=
  match v with
  | PNone => Ok None
  | PInt z => Ok (Some z)
  | _ => reject "source_postgres_version must be an integer or null"
  end.
Section Schema.
Context `{FloatText}.
Definition version_is (n : Z) (message : string) (v : pyval) : checked unit :=
  ensure (py_eqb v (PInt n)) (SchemaContractError (message +:+ py_repr v)).
Definition DatabaseSchema_init (tables : list TableSpec) (views : list ViewSpec) (indexes : list IndexSpec)
    (migrations : list MigrationSpec) (segments : list CopyFormat.CopySegment)
    (data_copy_size source_postgres_version contract_version system_schema_version : pyval) : checked DatabaseSchema :=
  _ ← version_is SCHEMA_CONTRACT_VERSION "unsupported schema contract version: " contract_version;
  _ ← version_is SYSTEM_SCHEMA_VERSION "unsupported system schema version: " system_schema_version;
  let table_names := t_name <$> tables in
  _ ← ensure (distinct table_names) (SchemaContractError "duplicate table names in schema");
  let view_names := v_name <$> views in
  _ ← ensure (distinct view_names) (SchemaContractError "duplicate view names in schema");
  _ ← check_all (check_view_deps (table_names ++ view_names)) views;
  _ ← ensure (distinct (i_name <$> indexes)) (SchemaContractError "duplicate index names in schema");
  _ ← check_all (check_index tables) indexes;
  _ ← ensure (distinct (file <$> migrations)) (SchemaContractError "duplicate migration files in schema");
  size ← non_negative data_copy_size;
  _ ← of_copy (CopyFormat.validate_segment_layout segments size CopyFormat._DEFAULT_MAX_TOTAL CopyFormat._DEFAULT_MAX_RATIO);
  _ ← fold_result (check_segment tables) segments [];
  source ← optional_int source_postgres_version;
  Ok (mkSchema tables views indexes migrations segments size source contract_version system_schema_version).

Definition _COPY_SETTINGS : json_dict :=
  [("format", PStr "text"); ("encoding", PStr "UTF8"); ("date_style", PStr "ISO"); ("time_zone", PStr "UTC");
   ("interval_style", PStr "postgres")].
Definition DatabaseSchema_to_dict (s : DatabaseSchema) : json_dict :=
  [("contract_version", contract_version s); ("copy_settings", PDict _COPY_SETTINGS); ("data_copy_size", PInt (data_copy_size s));
   ("indexes", PList (PDict ∘ IndexSpec_to_dict <$> indexes s));
   ("migrations", PList (PDict ∘ MigrationSpec_to_dict <$> migrations s));
   ("segments", PList (PDict ∘ CopyFormat.to_dict <$> segments s));
   ("source_postgres_version", opt_int (source_postgres_version s)); ("system_schema_version", system_schema_version s);
   ("tables", PList (PDict ∘ TableSpec_to_dict <$> tables s)); ("views", PList (PDict ∘ ViewSpec_to_dict <$> views s))].
Definition schema_keys : list string :=
  ["contract_version"; "copy_settings"; "data_copy_size"; "indexes"; "migrations"; "segments"; "source_postgres_version";
   "system_schema_version"; "tables"; "views"].
Definition DatabaseSchema_from_dict (v : pyval) : checked DatabaseSchema :=
  d ← as_object schema_keys "schema.json has unknown or missing fields" v;
  _ ← ensure (py_eqb (item d "copy_settings") (PDict _COPY_SETTINGS))
        (SchemaContractError "schema.json copy_settings are not the PPBase contract");
  ts ← as_array "schema.json tables must be an array" (item d "tables");
  vs ← as_array "schema.json views must be an array" (item d "views");
  xs ← as_array "schema.json indexes must be an array" (item d "indexes");
  ms ← as_array "schema.json migrations must be an array" (item d "migrations");
  ss ← as_array "schema.json segments must be an array" (item d "segments");
  tables ← map_result TableSpec_from_dict ts;
  views ← map_result ViewSpec_from_dict vs;
  indexes ← map_result IndexSpec_from_dict xs;
  migrations ← map_result MigrationSpec_from_dict ms;
  segments ← map_result (fun s => of_copy (CopyFormat.from_dict s)) ss;
  DatabaseSchema_init tables views indexes migrations segments (item d "data_copy_size") (item d "source_postgres_version")
    (item d "contract_version") (item d "system_schema_version").

(** What a restore demands besides: a segment for every table. *)
Definition assert_every_table_exported (s : DatabaseSchema) : checked unit :=
  let segment_tables := CopyFormat.table <$> segments s in
  let table_names := t_name <$> tables s in
  let missing := py_sorted str_leb (filter (fun n => among n segment_tables = false) table_names) in
  _ ← ensure (match missing with [] => true | _ => false end)
        (SchemaContractError ("restorable archive is incomplete: tables without a COPY segment: " +:+ join ", " missing));
  ensure (bool_decide (list_to_set segment_tables =@{gset string} list_to_set table_names))
    (SchemaContractError "every table must have exactly one COPY segment").
Definition from_archive_dict (v : pyval) : checked DatabaseSchema :=
  s ← DatabaseSchema_from_dict v;
  _ ← assert_every_table_exported s;
  Ok s.

(** ** A live table against PPBase's own model *)
Definition diverges (t : TableSpec) (what : string) : contract_exn :=
  UnmanagedObjectError ("backup refused: table " +:+ py_repr_str (t_name t) +:+ " " +:+ what +:+ " the PPBase canonical model").
Definition column_by_name (columns : list ColumnSpec) (name : string) : option ColumnSpec :=
  last (filter (fun c => col_name c = name) columns).
Definition _reconcile_table_against_canonical (introspected canonical : TableSpec) : checked unit :=
  _ ← ensure (bool_decide (list_to_set (column_names introspected) =@{gset string} list_to_set (column_names canonical)))
        (diverges introspected "columns diverge from");
  _ ← ensure (forallb (fun n => bool_decide (column_by_name (t_columns introspected) n = column_by_name (t_columns canonical) n))
                (column_names introspected))
        (diverges introspected "columns diverge from");
  _ ← ensure (bool_decide (primary_key introspected = primary_key canonical)) (diverges introspected "primary key diverges from");
  ensure (bool_decide (list_to_set (unique_constraints introspected) =@{gset (list string)} list_to_set (unique_constraints canonical)))
    (diverges introspected "unique constraints diverge from").
End Schema.

(** [tuple] of a text: an index whose [included] is a text is accepted. *)
Example included_text `{FloatText} :
  IndexSpec_from_dict (PDict [("name", PStr "i"); ("table", PStr "t"); ("method", PStr "btree"); ("unique", PBool false);
    ("nulls_not_distinct", PBool false);
    ("keys", PList [PDict [("column", PStr "c"); ("descending", PBool false); ("nulls_first", PNone)]]);
    ("included", PStr "ab"); ("predicate", PNone)]) =
  Ok (mkIndex "i" "t" "btree" false false [mkKey "c" false None] ["a"; "b"] None).
Proof. by vm_compute. Qed.

(** ** What the constructors guarantee *)
Definition identifier (s : string) : Prop :=
  CopyFormat.identifier_pattern s = true /\ (CopyFormat.slen s <= CopyFormat._IDENTIFIER_MAX_BYTES)%Z.
Definition names_wf (l : list string) : Prop := Forall identifier l /\ NoDup l.
Definition default_wf (o : option string) : Prop := match o with Some d => d ∈ _ALLOWED_DEFAULTS | None => True end.
Definition column_wf (c : ColumnSpec) : Prop :=
  identifier (col_name c) /\ allowed_type (col_type c) = true /\ default_wf (col_default c).
Record table_wf (t : TableSpec) : Prop := {
  wf_name : identifier (t_name t);
  wf_kind : t_kind t ∈ _TABLE_KINDS;
  wf_some : t_columns t <> [];
  wf_columns : Forall column_wf (t_columns t);
  wf_distinct : NoDup (column_names t);
  wf_pk : names_wf (primary_key t) /\ primary_key t ⊆ column_names t;
  wf_uniques : Forall (fun u => names_wf u /\ u ⊆ column_names t) (unique_constraints t);
}.

Lemma among_spec s l : among s l = true <-> s ∈ l.
Proof.
  unfold among. rewrite existsb_exists. setoid_rewrite String.eqb_eq. setoid_rewrite <- list_elem_of_In. naive_solver.
Qed.
Lemma among_false s l : among s l = false <-> s ∉ l.
Proof. rewrite <- among_spec. by destruct (among s l). Qed.
Lemma distinct_ok l : distinct l = true <-> NoDup l.
Proof. apply bool_decide_eq_true. Qed.

Lemma identifier_ok v l s : _identifier v l = Ok s <-> v = PStr s /\ identifier s.
Proof.
  unfold identifier. destruct v as [| | | |s'| |]; try (split; [done|by intros [? _]]). cbn [_identifier]. split.
  - intros H. inv_ok. by bool_to_prop.
  - intros ([= ->] & -> & Hlen%Z.leb_le). cbn. by rewrite Hlen.
Qed.
Lemma type_ok v s : normalize_column_type v = Ok s <-> v = PStr s /\ allowed_type s = true.
Proof.
  destruct v as [| | | |s'| |]; try (split; [done|by intros [? _]]). cbn [normalize_column_type].
  destruct (allowed_type s') eqn:E; cbn; split; [by intros [= <-]|by intros [[= ->] _]|done|by intros [[= ->] ?]; congruence].
Qed.
Lemma bool_ok v l b : _bool v l = Ok b <-> v = PBool b.
Proof. destruct v; cbn; naive_solver. Qed.
Lemma default_ok v o : _classify_default v = Ok o <-> v = opt_str o /\ default_wf o.
Proof.
  destruct v as [| | | |s| |]; cbn [_classify_default]; try (split; [done|destruct o; by intros [? _]]).
  - split; [by intros [= <-]|]. destruct o; [by intros [? _]|done].
  - unfold ensure. destruct (among s _ALLOWED_DEFAULTS) eqn:E; cbn [mbind result_bind].
    + apply among_spec in E. split; [by intros [= <-]|]. destruct o; [by intros [[= ->] _]|by intros [? _]].
    + apply among_false in E. split; [done|]. destruct o; [by intros [[= ->] ?]|by intros [? _]].
Qed.
Lemma column_tuple_ok v l names : _column_tuple v l = Ok names <-> v = strs names /\ names_wf names.
Proof.
  unfold names_wf, strs. destruct v as [| | | | |vs|]; try (split; [done|by intros [? _]]). cbn [_column_tuple].
  rewrite result_bind_ok. setoid_rewrite result_bind_ok. setoid_rewrite map_result_ok.
  setoid_rewrite ensure_ok. setoid_rewrite distinct_ok. split.
  - intros (ns & H & u & Hd & [= <-]). assert (vs = PStr <$> ns /\ Forall identifier ns) as [-> ?]; [|done].
    induction H as [|v n vs ns Hv _ IH]; [done|]. apply identifier_ok in Hv as [-> Hn]. inv Hd.
    destruct (IH H2) as [-> ?]. by split; [|constructor].
  - intros ([= ->] & Hid & Hd). exists names. split; [|by exists tt].
    induction Hid as [|n ns Hn _ IH]; [constructor|]. inv Hd. cbn. constructor; [by apply identifier_ok|]. by apply IH.
Qed.
Lemma known_columns_ok known m names : known_columns known m names = Ok tt <-> names ⊆ known.
Proof.
  unfold known_columns. destruct (list_find _ names) as [[i n]|] eqn:E.
  - apply list_find_Some in E as (Hi & Hn & _). apply among_false in Hn. split; [done|].
    intros H. destruct Hn. by apply H, (list_elem_of_lookup_2 _ i).
  - apply list_find_None in E. split; [|done]. intros _ x Hx. rewrite Forall_forall in E. specialize (E x Hx). cbn in E.
    apply among_spec. by destruct (among x known).
Qed.
Lemma member_ok names m v s : member_of names m v = Ok s <-> v = PStr s /\ s ∈ names.
Proof.
  destruct v as [| | | |s'| |]; cbn; try (split; [done|by intros [? _]]). rewrite <- among_spec.
  destruct (among s' names) eqn:E; naive_solver congruence.
Qed.
Lemma bind_known known m names {A} (k : checked A) a :
  (known_columns known m names ≫= fun _ => k) = Ok a <-> names ⊆ known /\ k = Ok a.
Proof. rewrite result_bind_ok, <- (known_columns_ok known m). split; [intros ([] & H); exact H|by exists tt]. Qed.
Lemma bind_ensure b (e : contract_exn) {A} (k : checked A) a : (ensure b e ≫= fun _ => k) = Ok a <-> b = true /\ k = Ok a.
Proof. destruct b; cbn; naive_solver. Qed.

Lemma column_init_ok n t b d c : ColumnSpec_init n t b d = Ok c <->
  (n = PStr (col_name c) /\ t = PStr (col_type c) /\ b = PBool (nullable c) /\ d = opt_str (col_default c)) /\ column_wf c.
Proof.
  unfold ColumnSpec_init, column_wf. rewrite result_bind_ok. setoid_rewrite identifier_ok. split.
  - intros (s & (-> & Hs) & H). apply result_bind_ok in H as (ty & [-> Ht]%type_ok & H).
    apply result_bind_ok in H as (nb & ->%bool_ok & H). apply result_bind_ok in H as (df & [-> Hd]%default_ok & [= <-]). done.
  - intros ((-> & -> & -> & ->) & Hn & Ht & Hd). exists (col_name c). split; [done|].
    rewrite (proj2 (type_ok _ _) (conj eq_refl Ht)). cbn. rewrite (proj2 (default_ok _ _) (conj eq_refl Hd)). cbn. by destruct c.
Qed.

(** Peel one check of a constructor that returned. *)
Ltac peel H :=
  match type of H with
  | mbind _ (_identifier _ _) = Ok _ => apply result_bind_ok in H as (? & [-> ?]%identifier_ok & H)
  | mbind _ (_bool _ _) = Ok _ => apply result_bind_ok in H as (? & ->%bool_ok & H)
  | mbind _ (member_of _ _ _) = Ok _ => apply result_bind_ok in H as (? & [-> ?]%member_ok & H)
  | mbind _ (ensure _ _) = Ok _ => apply bind_ensure in H as [? H]
  | mbind _ (known_columns _ _ _) = Ok _ => apply bind_known in H as [? H]
  | mbind _ (_column_tuple _ _) = Ok _ => apply result_bind_ok in H as (? & [-> ?]%column_tuple_ok & H)
  end; cbv beta in H.
(** Discharge one check whose condition is known. *)
Lemma bind_known_eq {A E B} (r : result E A) (f : A -> result E B) a : r = Ok a -> r ≫= f = f a.
Proof. by intros ->. Qed.
Ltac pass :=
  match goal with
  | |- mbind _ (_identifier _ _) = _ => erewrite bind_known_eq; [|apply identifier_ok; by split]
  | |- mbind _ (_bool _ _) = _ => erewrite bind_known_eq; [|by apply bool_ok]
  | |- mbind _ (member_of _ _ _) = _ => erewrite bind_known_eq; [|apply member_ok; by split]
  | |- mbind _ (_column_tuple _ _) = _ => erewrite bind_known_eq; [|apply column_tuple_ok; by split]
  | |- mbind _ (ensure _ _) = _ => apply bind_ensure; split; [done|]
  | |- mbind _ (known_columns _ _ _) = _ => apply bind_known; split; [done|]
  end; cbv beta.

Lemma map_result_inv {E A B} (f : B -> result E A) (g : A -> B) l : Forall (fun x => f (g x) = Ok x) l -> map_result f (g <$> l) = Ok l.
Proof. intros H. apply map_result_ok. induction H; by constructor. Qed.
Lemma map_result_forall {E A B} (f : A -> result E B) (P : B -> Prop) l ys :
  (forall x y, f x = Ok y -> P y) -> map_result f l = Ok ys -> Forall P ys.
Proof. intros Hf. rewrite map_result_ok. induction 1; constructor; eauto. Qed.

Section TablesOk.
Context `{FloatText}.
Lemma unique_constraint_ok known v u : unique_constraint known v = Ok u <-> v = strs u /\ names_wf u /\ u ⊆ known.
Proof.
  unfold unique_constraint. split.
  - intros Hrun. peel Hrun. peel Hrun. injection Hrun as <-. done.
  - intros (-> & Hu & Hk). pass. pass. done.
Qed.
Lemma table_init_ok n k columns pk uniques t : TableSpec_init n k columns pk uniques = Ok t -> Forall column_wf columns ->
  (n = PStr (t_name t) /\ k = PStr (t_kind t) /\ columns = t_columns t /\ pk = strs (primary_key t)) /\ table_wf t.
Proof.
  unfold TableSpec_init. intros Hrun Hc. repeat peel Hrun. apply result_bind_ok in Hrun as (entries & _ & Hrun).
  apply result_bind_ok in Hrun as (us & Hu & [= <-]). cbn. split; [done|]. constructor; cbn; try done.
  - by destruct columns.
  - by apply distinct_ok.
  - eapply map_result_forall; [|exact Hu]. by intros v u [_ ?]%unique_constraint_ok.
Qed.
Lemma table_init_complete t : table_wf t ->
  TableSpec_init (PStr (t_name t)) (PStr (t_kind t)) (t_columns t) (strs (primary_key t)) (PList (strs <$> unique_constraints t)) = Ok t.
Proof.
  intros []. unfold TableSpec_init. do 2 pass. apply bind_ensure; split; [by destruct (t_columns t)|].
  apply bind_ensure; split; [by apply distinct_ok|]. destruct wf_pk0 as [Hpk Hin]. do 2 pass. cbn [py_tuple FieldTypes.py_iter mbind result_bind].
  rewrite (map_result_inv _ strs). 2: { eapply Forall_impl; [exact wf_uniques0|]. intros u [Hn Hk]. apply unique_constraint_ok. by split; [|split; [exact Hn|exact Hk]]. }
  cbn. by destruct t.
Qed.

Lemma column_from_dict_wf v c : ColumnSpec_from_dict v = Ok c -> column_wf c.
Proof. unfold ColumnSpec_from_dict. intros Hrun. apply result_bind_ok in Hrun as (d & _ & Hrun). by apply column_init_ok in Hrun as [_ ?]. Qed.
Lemma column_roundtrip c : column_wf c -> ColumnSpec_from_dict (PDict (ColumnSpec_to_dict c)) = Ok c.
Proof.
  intros Hc. unfold ColumnSpec_from_dict. cbn [as_object]. erewrite bind_known_eq.
  2: { apply bind_ensure. split; [|done]. by apply bool_decide_eq_true_2. }
  by apply column_init_ok.
Qed.
Lemma table_from_dict_wf v t : TableSpec_from_dict v = Ok t -> table_wf t.
Proof.
  unfold TableSpec_from_dict. intros Hrun. apply result_bind_ok in Hrun as (d & _ & Hrun). apply result_bind_ok in Hrun as (l & _ & Hrun).
  apply result_bind_ok in Hrun as (cols & Hc & Hrun). apply table_init_ok in Hrun; [naive_solver|].
  eapply map_result_forall; [|exact Hc]. exact column_from_dict_wf.
Qed.
Lemma table_roundtrip t : table_wf t -> TableSpec_from_dict (PDict (TableSpec_to_dict t)) = Ok t.
Proof.
  intros Ht. unfold TableSpec_from_dict. cbn [as_object]. erewrite bind_known_eq.
  2: { apply bind_ensure. split; [|done]. by apply bool_decide_eq_true_2. }
  cbn -[TableSpec_init map_result]. rewrite (map_result_inv _ (PDict ∘ ColumnSpec_to_dict)).
  - by apply table_init_complete.
  - eapply Forall_impl; [apply Ht|]. intros c. apply column_roundtrip.
Qed.
End TablesOk.

Definition guarded (label : string) (select : bool) (text : string) : Prop :=
  _validate_readonly_sql (PStr text) label select = Ok text.
Record index_wf (i : IndexSpec) : Prop := {
  wf_index_names : identifier (i_name i) /\ identifier (i_table i);
  wf_method : method i ∈ _INDEX_METHODS;
  wf_some_key : keys i <> [];
  wf_keys : Forall (fun k => identifier (k_column k)) (keys i);
  wf_included : names_wf (included i);
  wf_predicate : from_option (guarded "index predicate" false) True (predicate i);
}.
Definition view_wf (v : ViewSpec) : Prop :=
  identifier (v_name v) /\ guarded "view definition" true (definition v) /\ names_wf (depends_on v).
Definition migration_wf (m : MigrationSpec) : Prop :=
  file m <> "" /\ applied m <> "" /\ from_option (fun h => CopyFormat.sha256_pattern h = true) True (sha256 m).

Lemma key_init_ok c b n k : IndexKeySpec_init c b n = Ok k <->
  (c = PStr (k_column k) /\ b = PBool (descending k) /\ n = opt_bool (nulls_first k)) /\ identifier (k_column k).
Proof.
  unfold IndexKeySpec_init. split.
  - intros Hrun. repeat peel Hrun. destruct n; try done; by injection Hrun as <-.
  - intros ((-> & -> & ->) & Hc). do 2 pass. by destruct k as [? ? [[]|]].
Qed.
Lemma guard_stable v label select text : _validate_readonly_sql v label select = Ok text -> guarded label select text.
Proof. intros (s & ts & _ & _ & _ & _ & _ & _ & Ht)%guard_accepts. exact Ht. Qed.
Lemma predicate_ok v o : index_predicate v = Ok o -> from_option (guarded "index predicate" false) True o.
Proof.
  unfold index_predicate. destruct v; try done; try (by intros [= <-]); intros Hrun;
    apply result_bind_ok in Hrun as (text & Ht & [= <-]); exact (guard_stable _ _ _ _ Ht).
Qed.
Lemma predicate_complete o : from_option (guarded "index predicate" false) True o -> index_predicate (opt_str o) = Ok o.
Proof. destruct o as [t|]; [|done]. intros Ht. exact (bind_known_eq _ _ _ Ht). Qed.
Lemma included_ok l names : index_included l = Ok names <-> l = PStr <$> names /\ names_wf names.
Proof.
  destruct l as [|v l]; cbn [index_included].
  - split; [intros [= <-]; split; [done|by split; constructor]|]. by intros [Hl _]; destruct names.
  - rewrite column_tuple_ok. unfold strs. split; intros [E ?]; (split; [congruence|done]).
Qed.
Lemma view_init_ok n d deps v : ViewSpec_init n d deps = Ok v -> view_wf v.
Proof.
  unfold ViewSpec_init, view_wf. intros Hrun. peel Hrun. apply result_bind_ok in Hrun as (text & Ht & Hrun).
  repeat peel Hrun. injection Hrun as <-. split_and!; [done| |done]. exact (guard_stable _ _ _ _ Ht).
Qed.
Lemma view_roundtrip v : view_wf v -> ViewSpec_from_dict (PDict (ViewSpec_to_dict v)) = Ok v.
Proof.
  intros (Hn & Hd & Hdeps). unfold ViewSpec_from_dict. cbn [as_object]. erewrite bind_known_eq.
  2: { apply bind_ensure. split; [|done]. by apply bool_decide_eq_true_2. }
  unfold ViewSpec_init. cbn -[_identifier _validate_view_definition _column_tuple mbind]. pass.
  erewrite bind_known_eq; [|exact Hd]. pass. by destruct v.
Qed.
Lemma non_empty_ok m v s : non_empty_text m v = Ok s <-> v = PStr s /\ s <> "".
Proof. destruct v as [| | | |t| |]; cbn; try naive_solver. destruct (String.eqb_spec t ""); naive_solver. Qed.
Lemma sha256_ok v o : migration_sha256 v = Ok o <-> v = opt_str o /\ from_option (fun h => CopyFormat.sha256_pattern h = true) True o.
Proof.
  destruct v as [| | | |s| |]; cbn; try (destruct o; naive_solver).
  destruct (CopyFormat.sha256_pattern s) eqn:E; destruct o; cbn; naive_solver congruence.
Qed.
Lemma migration_init_ok f h a m : MigrationSpec_init f h a = Ok m <->
  (f = PStr (file m) /\ h = opt_str (sha256 m) /\ a = PStr (applied m)) /\ migration_wf m.
Proof.
  unfold MigrationSpec_init, migration_wf. split.
  - intros Hrun. apply result_bind_ok in Hrun as (? & [-> ?]%non_empty_ok & Hrun).
    apply result_bind_ok in Hrun as (? & [-> ?]%sha256_ok & Hrun). apply result_bind_ok in Hrun as (? & [-> ?]%non_empty_ok & [= <-]). done.
  - intros ((-> & -> & ->) & Hf & Ha & Hh). erewrite bind_known_eq; [|by apply non_empty_ok].
    erewrite bind_known_eq; [|by apply sha256_ok]. erewrite bind_known_eq; [|by apply non_empty_ok]. by destruct m.
Qed.
Lemma migration_roundtrip m : migration_wf m -> MigrationSpec_from_dict (PDict (MigrationSpec_to_dict m)) = Ok m.
Proof.
  intros Hm. unfold MigrationSpec_from_dict. cbn [as_object]. erewrite bind_known_eq.
  2: { apply bind_ensure. split; [|done]. by apply bool_decide_eq_true_2. }
  by apply migration_init_ok.
Qed.
Lemma key_roundtrip k : identifier (k_column k) -> IndexKeySpec_from_dict (PDict (IndexKeySpec_to_dict k)) = Ok k.
Proof.
  intros Hk. unfold IndexKeySpec_from_dict. cbn [as_object]. erewrite bind_known_eq.
  2: { apply bind_ensure. split; [|done]. by apply bool_decide_eq_true_2. }
  by apply key_init_ok.
Qed.
Lemma view_from_dict_wf v w : ViewSpec_from_dict v = Ok w -> view_wf w.
Proof. unfold ViewSpec_from_dict. intros Hrun. apply result_bind_ok in Hrun as (d & _ & Hrun). by eapply view_init_ok. Qed.
Lemma migration_from_dict_wf v m : MigrationSpec_from_dict v = Ok m -> migration_wf m.
Proof. unfold MigrationSpec_from_dict. intros Hrun. apply result_bind_ok in Hrun as (d & _ & Hrun). by apply migration_init_ok in Hrun as [_ ?]. Qed.
Lemma key_from_dict_wf v k : IndexKeySpec_from_dict v = Ok k -> identifier (k_column k).
Proof. unfold IndexKeySpec_from_dict. intros Hrun. apply result_bind_ok in Hrun as (d & _ & Hrun). by apply key_init_ok in Hrun as [_ ?]. Qed.

Section IndexesOk.
Context `{FloatText}.
Lemma index_from_dict_wf v i : IndexSpec_from_dict v = Ok i -> index_wf i.
Proof.
  unfold IndexSpec_from_dict, IndexSpec_init. intros Hrun. apply result_bind_ok in Hrun as (d & _ & Hrun).
  apply result_bind_ok in Hrun as (l & _ & Hrun). apply result_bind_ok in Hrun as (ks & Hks & Hrun).
  apply result_bind_ok in Hrun as (inc & _ & Hrun). revert Hrun. generalize (item d). intros f Hrun.
  apply result_bind_ok in Hrun as (n & [_ Hn]%identifier_ok & Hrun). apply result_bind_ok in Hrun as (t & [_ Ht]%identifier_ok & Hrun).
  apply result_bind_ok in Hrun as (m & [_ Hm]%member_ok & Hrun). apply result_bind_ok in Hrun as (u & _ & Hrun).
  apply result_bind_ok in Hrun as (nd & _ & Hrun). apply bind_ensure in Hrun as [Hk Hrun].
  apply result_bind_ok in Hrun as (names & [_ Hnames]%included_ok & Hrun).
  apply result_bind_ok in Hrun as (p & Hp%predicate_ok & [= <-]). constructor; cbn; try done.
  - by destruct ks.
  - eapply map_result_forall; [|exact Hks]. exact key_from_dict_wf.
Qed.
Lemma index_roundtrip i : index_wf i -> IndexSpec_from_dict (PDict (IndexSpec_to_dict i)) = Ok i.
Proof.
  intros []. destruct wf_index_names0 as [Hn Ht]. unfold IndexSpec_from_dict. cbn [as_object]. erewrite bind_known_eq.
  2: { apply bind_ensure. split; [|done]. by apply bool_decide_eq_true_2. }
  cbn -[IndexSpec_init map_result]. rewrite (map_result_inv _ (PDict ∘ IndexKeySpec_to_dict)).
  2: { eapply Forall_impl; [exact wf_keys0|]. intros k. apply key_roundtrip. }
  cbn [mbind result_bind]. unfold IndexSpec_init. do 5 pass. apply bind_ensure. split; [by destruct (keys i)|].
  erewrite bind_known_eq; [|by apply included_ok]. erewrite bind_known_eq; [|by apply predicate_complete]. by destruct i.
Qed.
End IndexesOk.

(** ** A whole schema *)
Definition segment_matches (ts : list TableSpec) (s : CopyFormat.CopySegment) : Prop :=
  exists t, t ∈ ts /\ t_name t = CopyFormat.table s /\ CopyFormat.columns s = column_names t.
Definition index_matches (ts : list TableSpec) (i : IndexSpec) : Prop :=
  exists t, t ∈ ts /\ t_name t = i_table i /\ k_column <$> keys i ⊆ column_names t /\ included i ⊆ column_names t.
Record schema_wf (s : DatabaseSchema) : Prop := {
  wf_versions : py_eqb (contract_version s) (PInt SCHEMA_CONTRACT_VERSION) = true /\
                py_eqb (system_schema_version s) (PInt SYSTEM_SCHEMA_VERSION) = true;
  wf_tables : Forall table_wf (tables s) /\ NoDup (t_name <$> tables s);
  wf_views : Forall view_wf (views s) /\ NoDup (v_name <$> views s) /\
             Forall (fun v => depends_on v ⊆ (t_name <$> tables s) ++ (v_name <$> views s)) (views s);
  wf_indexes : Forall index_wf (indexes s) /\ NoDup (i_name <$> indexes s) /\ Forall (index_matches (tables s)) (indexes s);
  wf_migrations : Forall migration_wf (migrations s) /\ NoDup (file <$> migrations s);
  wf_segments : Forall CopyFormat.segment_wf (segments s) /\ NoDup (CopyFormat.table <$> segments s) /\
                Forall (segment_matches (tables s)) (segments s);
  wf_layout : (0 <= data_copy_size s)%Z /\
    CopyFormat.validate_segment_layout (segments s) (data_copy_size s) CopyFormat._DEFAULT_MAX_TOTAL
      CopyFormat._DEFAULT_MAX_RATIO = Ok (segments s);
}.

Lemma table_by_name_ok ts n t : NoDup (t_name <$> ts) -> table_by_name ts n = Some t <-> t ∈ ts /\ t_name t = n.
Proof.
  intros Hd. unfold table_by_name. split.
  - intros Ht%last_Some_elem_of. by apply list_elem_of_filter in Ht as [? ?].
  - intros [Ht <-]. induction ts as [|u ts IH]; [by apply elem_of_nil in Ht|]. inv Hd.
    assert (Hnone : forall x, x ∈ ts -> t_name x <> t_name u).
    { intros x Hx Heq. apply H1. rewrite <- Heq. by apply list_elem_of_fmap_2. }
    rewrite filter_cons. apply elem_of_cons in Ht as [->|Ht].
    + rewrite decide_True by done. replace (filter _ ts) with (@nil TableSpec); [done|]. symmetry. apply filter_none.
      apply Forall_forall. exact Hnone.
    + rewrite decide_False by (intros Heq; by apply (Hnone t)). by apply IH.
Qed.
Lemma check_all_ok {A} (f : A -> checked unit) l : check_all f l = Ok tt <-> Forall (fun x => f x = Ok tt) l.
Proof.
  unfold check_all. induction l as [|x l IH]; cbn; [done|]. rewrite Forall_cons, <- IH.
  destruct (f x) as [[]|]; naive_solver.
Qed.
Lemma check_index_ok ts i : NoDup (t_name <$> ts) -> check_index ts i = Ok tt <-> index_matches ts i.
Proof.
  intros Hd. unfold check_index, index_matches. destruct (table_by_name ts (i_table i)) as [t|] eqn:E.
  - apply table_by_name_ok in E as [Ht Hn]; [|done]. rewrite bind_known, known_columns_ok. split; [by exists t|].
    intros (u & Hu & Hnu & H). assert (u = t) as ->; [|done].
    assert (table_by_name ts (i_table i) = Some u /\ table_by_name ts (i_table i) = Some t) as [H1 H2];
      [by split; apply table_by_name_ok|congruence].
  - split; [done|]. intros (u & Hu & Hnu & H). by rewrite (proj2 (table_by_name_ok _ _ u Hd) (conj Hu Hnu)) in E.
Qed.
Lemma check_segments_ok ts segs seen : NoDup (t_name <$> ts) ->
  (exists out, fold_result (check_segment ts) segs seen = Ok out) <->
  NoDup (CopyFormat.table <$> segs) /\ Forall (fun s => CopyFormat.table s ∉ seen) segs /\ Forall (segment_matches ts) segs.
Proof.
  intros Hd. revert seen; induction segs as [|s segs IH]; intros seen; cbn [fold_result fmap list_fmap].
  { split; [|by eauto]. intros _. split_and!; constructor. }
  rewrite NoDup_cons, !Forall_cons. unfold check_segment at 1, segment_matches at 1.
  destruct (table_by_name ts (CopyFormat.table s)) as [t|] eqn:E.
  - apply table_by_name_ok in E as [Ht Hn]; [|done].
    assert (Huniq : forall u, u ∈ ts -> t_name u = CopyFormat.table s -> u = t).
    { intros u Hu Hnu. pose proof (proj2 (table_by_name_ok ts _ u Hd) (conj Hu Hnu)).
      pose proof (proj2 (table_by_name_ok ts _ t Hd) (conj Ht Hn)). congruence. }
    destruct (among (CopyFormat.table s) seen) eqn:Hseen; cbn [negb ensure mbind result_bind].
    { apply among_spec in Hseen. split; [by intros [? ?]|]. naive_solver. }
    apply among_false in Hseen. case_bool_decide as Hc; cbn [ensure mbind result_bind].
    2: { split; [by intros [? ?]|]. intros (_ & _ & (u & Hu & Hnu & Hcu) & _). by rewrite (Huniq u Hu Hnu) in Hcu. }
    rewrite IH. split.
    + intros (Hnd & Hs & Hm). rewrite Forall_forall in Hs. split_and!; try done; [|apply Forall_forall; set_solver|by exists t].
      intros (x & Hx & Hin)%list_elem_of_fmap. apply (Hs x Hin). rewrite Hx. by left.
    + intros ([Hnin Hnd] & [_ Hs] & _ & Hm). split_and!; try done. rewrite Forall_forall in *. intros x Hx [Heq|Hin]%elem_of_cons.
      * apply Hnin. rewrite <- Heq. by apply list_elem_of_fmap_2.
      * by apply (Hs x).
  - split; [by intros [? ?]|]. intros (_ & _ & (u & Hu & Hnu & _) & _).
    by rewrite (proj2 (table_by_name_ok _ _ u Hd) (conj Hu Hnu)) in E.
Qed.
Lemma layout_same segs total mt mr out : CopyFormat.validate_segment_layout segs total mt mr = Ok out -> out = segs.
Proof. unfold CopyFormat.validate_segment_layout. intros Hrun. inv_ok. done. Qed.
Lemma of_copy_ok {A} (r : result CopyFormat.copy_error A) a : of_copy r = Ok a <-> r = Ok a.
Proof. destruct r; cbn; naive_solver. Qed.
Lemma size_ok v z : non_negative v = Ok z <-> v = PInt z /\ (0 <= z)%Z.
Proof. destruct v as [| |n| | | |]; cbn; try naive_solver. destruct (n <? 0)%Z eqn:E; bool_to_prop; naive_solver lia. Qed.
Lemma optional_int_ok v o : optional_int v = Ok o <-> v = opt_int o.
Proof. destruct v, o; cbn; naive_solver. Qed.

(** A part of the archive: its JSON, its reader and what the reader
    guarantees. *)
Class Archived (A : Type) : Type := {
  to_json : A -> pyval;
  of_json : pyval -> checked A;
  valid : A -> Prop;
  reads_back a : valid a -> of_json (to_json a) = Ok a;
  reads_valid v a : of_json v = Ok a -> valid a;
}.
Lemma read_list `{Archived A} (l : list A) : Forall valid l -> map_result of_json (to_json <$> l) = Ok l.
Proof. intros Hl. apply map_result_inv. eapply Forall_impl; [exact Hl|]. apply reads_back. Qed.
Lemma read_list_valid `{Archived A} vs (l : list A) : map_result of_json vs = Ok l -> Forall valid l.
Proof. apply map_result_forall. apply reads_valid. Qed.

Section SchemaOk.
Context `{FloatText}.
#[local] Instance archived_table : Archived TableSpec :=
  { to_json := PDict ∘ TableSpec_to_dict; reads_back := table_roundtrip; reads_valid := table_from_dict_wf }.
#[local] Instance archived_view : Archived ViewSpec :=
  { to_json := PDict ∘ ViewSpec_to_dict; reads_back := view_roundtrip; reads_valid := view_from_dict_wf }.
#[local] Instance archived_index : Archived IndexSpec :=
  { to_json := PDict ∘ IndexSpec_to_dict; reads_back := index_roundtrip; reads_valid := index_from_dict_wf }.
#[local] Instance archived_migration : Archived MigrationSpec :=
  { to_json := PDict ∘ MigrationSpec_to_dict; reads_back := migration_roundtrip; reads_valid := migration_from_dict_wf }.
#[local] Program Instance archived_segment : Archived CopyFormat.CopySegment :=
  { to_json := PDict ∘ CopyFormat.to_dict; of_json v := of_copy (CopyFormat.from_dict v); valid := CopyFormat.segment_wf }.
Next Obligation.
  intros s Hs. apply of_copy_ok. unfold CopyFormat.from_dict. cbn [compose]. rewrite bool_decide_eq_true_2 by done.
  by apply CopyFormat.init_complete.
Qed.
Next Obligation.
  intros v s Hrun%of_copy_ok. destruct v as [| | | | | |d]; try done. unfold CopyFormat.from_dict in Hrun.
  destruct (negb _); [done|]. destruct (CopyFormat.field d "columns") as [| | | | |cols|]; try done.
  by apply CopyFormat.init_wf in Hrun as [? _].
Qed.

Lemma schema_init_ok ts vs xs ms ss size source cv sv s :
  DatabaseSchema_init ts vs xs ms ss size source cv sv = Ok s ->
  Forall valid ts -> Forall valid vs -> Forall valid xs -> Forall valid ms -> Forall valid ss -> schema_wf s.
Proof.
  unfold DatabaseSchema_init, version_is. intros Hrun Hts Hvs His Hms Hss.
  apply bind_ensure in Hrun as [Hcv Hrun]. apply bind_ensure in Hrun as [Hsv Hrun].
  apply bind_ensure in Hrun as [Hdt%distinct_ok Hrun]. apply bind_ensure in Hrun as [Hdv%distinct_ok Hrun].
  apply result_bind_ok in Hrun as ([] & Hdeps & Hrun). apply bind_ensure in Hrun as [Hdi%distinct_ok Hrun].
  apply result_bind_ok in Hrun as ([] & Hidx & Hrun). apply bind_ensure in Hrun as [Hdm%distinct_ok Hrun].
  apply result_bind_ok in Hrun as (n & [_ Hn]%size_ok & Hrun). apply result_bind_ok in Hrun as (out & Hlay%of_copy_ok & Hrun).
  apply result_bind_ok in Hrun as (seen & Hseg & Hrun). apply result_bind_ok in Hrun as (src & _ & [= <-]).
  pose proof (layout_same _ _ _ _ _ Hlay) as ->. apply check_all_ok in Hdeps, Hidx.
  assert (Hseg' : exists out, fold_result (check_segment ts) ss [] = Ok out) by eauto.
  apply (check_segments_ok ts ss [] Hdt) in Hseg' as (Hds & _ & Hmatch).
  constructor; cbn; try done.
  - split_and!; try done. eapply Forall_impl; [exact Hdeps|]. intros v. apply known_columns_ok.
  - split_and!; try done. eapply Forall_impl; [exact Hidx|]. intros i. by apply check_index_ok.
Qed.

Lemma schema_init_complete s : schema_wf s ->
  DatabaseSchema_init (tables s) (views s) (indexes s) (migrations s) (segments s) (PInt (data_copy_size s))
    (opt_int (source_postgres_version s)) (contract_version s) (system_schema_version s) = Ok s.
Proof.
  intros [[Hcv Hsv] [Hts Hdt] (Hvs & Hdv & Hdeps) (His & Hdi & Hidx) [Hms Hdm] (Hss & Hds & Hmatch) [Hn Hlay]].
  unfold DatabaseSchema_init, version_is. do 2 pass. do 2 (apply bind_ensure; split; [by apply distinct_ok|]).
  erewrite bind_known_eq.
  2: { apply check_all_ok. eapply Forall_impl; [exact Hdeps|]. intros v. apply known_columns_ok. }
  apply bind_ensure; split; [by apply distinct_ok|]. erewrite bind_known_eq.
  2: { apply check_all_ok. eapply Forall_impl; [exact Hidx|]. intros i. by apply check_index_ok. }
  apply bind_ensure; split; [by apply distinct_ok|]. erewrite bind_known_eq; [|by apply size_ok].
  erewrite bind_known_eq; [|by apply of_copy_ok].
  destruct (proj2 (check_segments_ok (tables s) (segments s) [] Hdt)) as [out Hout].
  { split_and!; try done. apply Forall_forall. set_solver. }
  erewrite bind_known_eq; [|exact Hout]. erewrite bind_known_eq; [|by apply optional_int_ok]. by destruct s.
Qed.

Lemma schema_reads_back s : schema_wf s -> DatabaseSchema_from_dict (PDict (DatabaseSchema_to_dict s)) = Ok s.
Proof.
  intros Hs. pose proof (schema_init_complete s Hs) as Hinit. destruct Hs as [_ [Hts _] (Hvs & _) (His & _) [Hms _] (Hss & _) _].
  unfold DatabaseSchema_from_dict. cbn [as_object]. erewrite bind_known_eq.
  2: { apply bind_ensure. split; [|done]. by apply bool_decide_eq_true_2. }
  apply bind_ensure. split; [by vm_compute|]. do 5 (erewrite bind_known_eq; [|reflexivity]).
  erewrite bind_known_eq; [|exact (@read_list _ archived_table (tables s) Hts)].
  erewrite bind_known_eq; [|exact (@read_list _ archived_view (views s) Hvs)].
  erewrite bind_known_eq; [|exact (@read_list _ archived_index (indexes s) His)].
  erewrite bind_known_eq; [|exact (@read_list _ archived_migration (migrations s) Hms)].
  erewrite bind_known_eq; [|exact (@read_list _ archived_segment (segments s) Hss)].
  exact Hinit.
Qed.
Lemma schema_reads_valid v s : DatabaseSchema_from_dict v = Ok s -> schema_wf s.
Proof.
  intros Hrun. unfold DatabaseSchema_from_dict in Hrun. apply result_bind_ok in Hrun as (d & _ & Hrun).
  apply bind_ensure in Hrun as [_ Hrun]. do 5 (apply result_bind_ok in Hrun as (? & _ & Hrun)).
  apply result_bind_ok in Hrun as (ts & Hts & Hrun). apply result_bind_ok in Hrun as (vs & Hvs & Hrun).
  apply result_bind_ok in Hrun as (is' & His & Hrun). apply result_bind_ok in Hrun as (ms & Hms & Hrun).
  apply result_bind_ok in Hrun as (ss & Hss & Hrun). eapply schema_init_ok; [exact Hrun|..].
  - exact (@read_list_valid _ archived_table _ _ Hts).
  - exact (@read_list_valid _ archived_view _ _ Hvs).
  - exact (@read_list_valid _ archived_index _ _ His).
  - exact (@read_list_valid _ archived_migration _ _ Hms).
  - exact (@read_list_valid _ archived_segment _ _ Hss).
Qed.

(** C10: [schema.json] is read back as it was written, and only well-formed
    schemas are ever read.  The dictionary of a well-formed schema is accepted
    and gives that schema; and whatever JSON value is accepted, the schema has
    distinct and valid names, columns with allowed types and defaults, keys and
    indexes over existing columns, views that the read-only guard accepts and
    that depend on known relations, and segments that tile [data.copy], each
    with the columns of its table in their order. *)
Theorem schema_roundtrip :
  (forall s, schema_wf s -> DatabaseSchema_from_dict (PDict (DatabaseSchema_to_dict s)) = Ok s) /\
  (forall v s, DatabaseSchema_from_dict v = Ok s -> schema_wf s).
Proof. split; [exact schema_reads_back|exact schema_reads_valid]. Qed.

Lemma exported_ok s : schema_wf s ->
  assert_every_table_exported s = Ok tt <-> (CopyFormat.table <$> segments s) ≡ₚ (t_name <$> tables s).
Proof.
  intros [_ [_ Hdt] _ _ _ (_ & Hds & _) _]. unfold assert_every_table_exported. rewrite bind_ensure, ensure_ok, bool_decide_eq_true. split.
  - intros [_ Heq]. apply NoDup_Permutation; [done..|]. intros x. rewrite <- !(elem_of_list_to_set (C:=gset string)). by rewrite Heq.
  - intros Hp. split; [|by rewrite Hp]. rewrite (filter_none (fun n => among n _ = false)); [done|].
    apply Forall_forall. intros x Hx Hf%among_false. apply Hf. by rewrite Hp.
Qed.

(** C21: what a restore loads is complete.  [from_archive_dict] accepts exactly
    the well-formed schemas with one COPY segment for every table, an empty one
    included: the segments' tables are the tables, each segment has its table's
    columns in their physical order, no table has two, and the segments tile
    [data.copy] from its first byte to its last. *)
Theorem restorable_archive_complete :
  (forall v s, from_archive_dict v = Ok s ->
     schema_wf s /\ (CopyFormat.table <$> segments s) ≡ₚ (t_name <$> tables s) /\
     (forall t, t ∈ tables s -> exists seg, seg ∈ segments s /\ CopyFormat.table seg = t_name t /\
        CopyFormat.columns seg = column_names t) /\
     CopyFormat.tiles 0 (segments s) (data_copy_size s)) /\
  (forall s, schema_wf s -> (CopyFormat.table <$> segments s) ≡ₚ (t_name <$> tables s) ->
     from_archive_dict (PDict (DatabaseSchema_to_dict s)) = Ok s).
Proof.
  split.
  - intros v s Hrun. unfold from_archive_dict in Hrun. apply result_bind_ok in Hrun as (s' & Hs & Hrun).
    apply result_bind_ok in Hrun as ([] & Hexp & [= ->]). apply schema_reads_valid in Hs as Hwf.
    apply (exported_ok s Hwf) in Hexp. destruct Hwf as [Hv Hts Hvs His Hms (Hss & Hds & Hmatch) [Hn Hlay]] eqn:E. clear E.
    split_and!; [by constructor|done| |].
    + intros t Ht. assert (t_name t ∈ CopyFormat.table <$> segments s) as (seg & Hseg & Hin)%list_elem_of_fmap.
      { rewrite Hexp. by apply list_elem_of_fmap_2. }
      exists seg. split_and!; [done..|]. rewrite Forall_forall in Hmatch. destruct (Hmatch seg Hin) as (u & Hu & Hnu & ->).
      f_equal. assert (table_by_name (tables s) (t_name t) = Some u /\ table_by_name (tables s) (t_name t) = Some t) as [H1 H2];
        [split; apply table_by_name_ok; naive_solver congruence|congruence].
    + unfold CopyFormat.validate_segment_layout in Hlay. apply result_bind_ok in Hlay as ([c u] & Hf & Hlay).
      apply result_bind_ok in Hlay as (? & Hc%ensure_ok & _). apply Z.eqb_eq in Hc. cbn in Hc. subst c.
      by apply CopyFormat.layout_fold_ok in Hf as [Ht _].
  - intros s Hwf Hp. unfold from_archive_dict. rewrite (schema_reads_back s Hwf). cbn [mbind result_bind].
    by rewrite (proj2 (exported_ok s Hwf) Hp).
Qed.
End SchemaOk.
