(* ===== verification/SchemaColumns.v ===== *)
(** * Columns of collection tables (ppbase/db/schema_manager.py and
      ppbase/backup/canonical.py)

    The column that the DDL of a collection creates for each field
    ([_col_ddl]), and the column that a backup expects of it
    ([_field_column_spec]): two tables of the same types kept in two files,
    which must agree on what PostgreSQL's catalog reports. *)
From Stdlib Require Import Ascii String.
From S2P Require Import Prelude PyText PyVal FieldTypes SchemaSql SchemaContract.
From S2P Require CopyFormat StorageSafety.
#[local] Open Scope string_scope.
#[local] Open Scope list_scope.

Abbreviation quoted := CopyFormat.quoted.

(** ** Names *)
Inductive ddl_exn : Type :=
| DdlValueError (message : string)
| DdlValidationError                     (* Pydantic refuses a field *)
| DdlTypeError.

Definition _POSTGRES_IDENTIFIER_MAX_BYTES : Z := 63.
Definition _validate_postgres_identifier_length (name label : string) : result ddl_exn unit :=
  let length := utf8_length name in
  ensure (length <=? _POSTGRES_IDENTIFIER_MAX_BYTES)%Z
    (DdlValueError (label +:+ " " +:+ py_repr_str name +:+ " is " +:+ str_of_Z length
       +:+ " bytes; PostgreSQL identifiers must not exceed 63 bytes.")).
(** [re.match] with [$]: a newline may follow. *)
Definition safe_pattern (name : string) : bool :=
  CopyFormat.identifier_pattern name
  || (last_is (fun c => Ascii.eqb c newline) name
      && CopyFormat.identifier_pattern (str_take (String.length name - 1) name)).
Definition _safe_name (name : string) : result ddl_exn string :=
  _ ← ensure (safe_pattern name) (DdlValueError ("Invalid SQL identifier: " +:+ py_repr_str name));
  _ ← _validate_postgres_identifier_length name "SQL identifier";
  Ok name.

(** ** [_col_ddl] *)
(** [(opts.get("maxSelect", 1) or 1) > 1] *)
Definition is_multi (field : FieldDefinition) : result ddl_exn bool :=
  match int_lt 1 (max_select field) with Ok b => Ok b | Err _ => Err DdlTypeError end.
Definition only_int (field : FieldDefinition) : bool := truthy (opt_or field "onlyInt" (PBool false)).
Definition geo_ddl : string := "'{" +:+ dq +:+ "lon" +:+ dq +:+ ":0," +:+ dq +:+ "lat" +:+ dq +:+ ":0}'::jsonb".
Definition _col_ddl (field : FieldDefinition) : result ddl_exn string :=
  let col := quoted (name field) in
  match type field with
  | TEXT | EDITOR => Ok (col +:+ " TEXT NOT NULL DEFAULT ''")
  | NUMBER =>
      if only_int field then Ok (col +:+ " INTEGER NOT NULL DEFAULT 0") else Ok (col +:+ " DOUBLE PRECISION NOT NULL DEFAULT 0")
  | BOOL => Ok (col +:+ " BOOLEAN NOT NULL DEFAULT FALSE")
  | EMAIL => Ok (col +:+ " VARCHAR(255) NOT NULL DEFAULT ''")
  | URL => Ok (col +:+ " TEXT NOT NULL DEFAULT ''")
  | DATE => Ok (col +:+ " TIMESTAMPTZ NULL")
  | AUTODATE => Ok (col +:+ " TIMESTAMPTZ NOT NULL DEFAULT NOW()")
  | SELECT | FILE =>
      multi ← is_multi field;
      if multi : bool then Ok (col +:+ " TEXT[] NOT NULL DEFAULT '{}'") else Ok (col +:+ " TEXT NOT NULL DEFAULT ''")
  | RELATION =>
      multi ← is_multi field;
      if multi : bool then Ok (col +:+ " VARCHAR(15)[] NOT NULL DEFAULT '{}'") else Ok (col +:+ " VARCHAR(15) NOT NULL DEFAULT ''")
  | JSON => Ok (col +:+ " JSONB NOT NULL DEFAULT 'null'::jsonb")
  | PASSWORD => Ok (col +:+ " TEXT NOT NULL DEFAULT ''")
  | GEO_POINT => Ok (col +:+ " JSONB NOT NULL DEFAULT " +:+ geo_ddl)
  end.
Definition _is_array_field (field : FieldDefinition) : result ddl_exn bool :=
  if bool_decide (type field = SELECT \/ type field = FILE \/ type field = RELATION) then is_multi field else Ok false.
Definition _is_jsonb_field (field : FieldDefinition) : bool := bool_decide (type field = JSON \/ type field = GEO_POINT).
Definition _AUTH_SYSTEM_COLUMN_DEFINITIONS : list string :=
  [quoted "email" +:+ " VARCHAR(255) NOT NULL DEFAULT ''"; quoted "email_visibility" +:+ " BOOLEAN NOT NULL DEFAULT FALSE";
   quoted "verified" +:+ " BOOLEAN NOT NULL DEFAULT FALSE"; quoted "password_hash" +:+ " TEXT NOT NULL DEFAULT ''";
   quoted "token_key" +:+ " VARCHAR(50) NOT NULL DEFAULT ''"].
(** The columns of a new table, in order. *)
Definition base_definitions : list string :=
  [quoted "id" +:+ " VARCHAR(15) PRIMARY KEY"; quoted "created" +:+ " TIMESTAMPTZ NOT NULL DEFAULT NOW()";
   quoted "updated" +:+ " TIMESTAMPTZ NOT NULL DEFAULT NOW()"].
Definition column_definitions (is_auth : bool) (fields : list FieldDefinition) : result ddl_exn (list string) :=
  dynamic ← map_result _col_ddl fields;
  Ok (base_definitions ++ (if is_auth then _AUTH_SYSTEM_COLUMN_DEFINITIONS else []) ++ dynamic).
Definition line_break : string := String newline "    ".
Definition create_sql (table_name : string) (parts : list string) : string :=
  "CREATE TABLE IF NOT EXISTS " +:+ quoted table_name +:+ " (" +:+ line_break
  +:+ join ("," +:+ line_break) parts +:+ String newline ")".

(** ** [_field_column_spec] *)
Definition column_spec (name type : string) (nullable : bool) (default : option string) : checked ColumnSpec :=
  ColumnSpec_init (PStr name) (PStr type) (PBool nullable) (opt_str default).
(** [max_select > 1] of the canonical model. *)
Definition spec_multi (field : FieldDefinition) : checked bool :=
  match int_lt 1 (max_select field) with Ok b => Ok b | Err _ => Err PyTypeError end.
Definition _field_column_spec (field : FieldDefinition) : checked ColumnSpec :=
  let n := name field in
  match type field with
  | TEXT | EDITOR | URL | PASSWORD => column_spec n "text" false (Some "''::text")
  | NUMBER =>
      if only_int field then column_spec n "integer" false (Some "0") else column_spec n "double precision" false (Some "0")
  | BOOL => column_spec n "boolean" false (Some "false")
  | EMAIL => column_spec n "character varying(255)" false (Some "''::character varying")
  | DATE => column_spec n "timestamp with time zone" true None
  | AUTODATE => column_spec n "timestamp with time zone" false (Some "now()")
  | SELECT | FILE =>
      multi ← spec_multi field;
      if multi : bool then column_spec n "text[]" false (Some "'{}'::text[]") else column_spec n "text" false (Some "''::text")
  | RELATION =>
      multi ← spec_multi field;
      if multi : bool then column_spec n "character varying(15)[]" false (Some "'{}'::character varying[]")
      else column_spec n "character varying(15)" false (Some "''::character varying")
  | JSON => column_spec n "jsonb" false (Some "'null'::jsonb")
  | GEO_POINT => column_spec n "jsonb" false (Some geo_default)
  end.
Definition _BASE_COLUMNS : list ColumnSpec :=
  [mkColumn "id" "character varying(15)" false None; mkColumn "created" "timestamp with time zone" false (Some "now()");
   mkColumn "updated" "timestamp with time zone" false (Some "now()")].
Definition _AUTH_COLUMNS : list ColumnSpec :=
  [mkColumn "email" "character varying(255)" false (Some "''::character varying"); mkColumn "email_visibility" "boolean" false (Some "false");
   mkColumn "verified" "boolean" false (Some "false"); mkColumn "password_hash" "text" false (Some "''::text");
   mkColumn "token_key" "character varying(50)" false (Some "''::character varying")].

(** [FieldDefinition] of a dictionary is Pydantic's; [None] its error. *)
Class FieldModel : Type := field_definition : json_dict -> option FieldDefinition.
Class JsonReader : Type := read_json : string -> option pyval.
Section Canonical.
Context `{FloatText, FieldModel, JsonReader}.
Definition _parse_schema_fields (schema_raw : pyval) : checked (list FieldDefinition) :=
  raw ← match schema_raw with
        | PStr s => match read_json s with Some v => Ok v | None => reject "_collections.schema is not valid JSON" end
        | v => Ok v
        end;
  match raw with
  | PNone => Ok []
  | PList l =>
      map_result (fun d => match d with
                           | PDict d => match field_definition d with
                                        | Some f => Ok f
                                        | None => reject "_collections.schema has an invalid field definition"
                                        end
                           | _ => reject "_collections.schema field must be an object"
                           end) l
  | _ => reject "_collections.schema must be a JSON array"
  end.
Definition build_collection_table_spec (name kind : string) (schema_raw : pyval) : checked TableSpec :=
  _ ← ensure (among kind ["base"; "auth"])
        (SchemaContractError ("collection " +:+ py_repr_str name +:+ " has non-table kind " +:+ py_repr_str kind));
  fields ← _parse_schema_fields schema_raw;
  columns ← map_result _field_column_spec fields;
  TableSpec_init (PStr name) (PStr kind) (_BASE_COLUMNS ++ (if String.eqb kind "auth" then _AUTH_COLUMNS else []) ++ columns)
    (strs ["id"]) (PList []).
End Canonical.

(** ** PostgreSQL's catalog *)
(** How [pg_catalog] reports a column definition: its type by [format_type],
    its default by [pg_get_expr]. *)
Class Catalog : Type := {
  format_type : string -> string;
  get_expr : string -> string -> string;       (* type and default, as written *)
  describe_column : string -> option ColumnSpec;
}.
(** The types as the DDL writes them. *)
Definition varchar (n : string) : string := "VARCHAR(" +:+ n +:+ ")".
Definition scalar_types : list string :=
  ["TEXT"; "INTEGER"; "DOUBLE PRECISION"; "BOOLEAN"; "TIMESTAMPTZ"; "JSONB"; varchar "15"; varchar "50"; varchar "255"].
Definition array_types : list string := ["TEXT[]"; varchar "15" +:+ "[]"].
Class CatalogLaws `{Catalog} : Prop := {
  describe_default n ty d : CopyFormat.identifier_pattern n = true -> ty ∈ scalar_types ++ array_types ->
    describe_column (quoted n +:+ " " +:+ ty +:+ " NOT NULL DEFAULT " +:+ d) =
    Some (mkColumn n (format_type ty) false (Some (get_expr ty d)));
  describe_null n ty : CopyFormat.identifier_pattern n = true -> ty ∈ scalar_types ->
    describe_column (quoted n +:+ " " +:+ ty +:+ " NULL") = Some (mkColumn n (format_type ty) true None);
  describe_key n ty : CopyFormat.identifier_pattern n = true -> ty ∈ scalar_types ->
    describe_column (quoted n +:+ " " +:+ ty +:+ " PRIMARY KEY") = Some (mkColumn n (format_type ty) false None);
  format_names : format_type <$> ["TEXT"; "INTEGER"; "DOUBLE PRECISION"; "BOOLEAN"; "TIMESTAMPTZ"; "JSONB"] =
    ["text"; "integer"; "double precision"; "boolean"; "timestamp with time zone"; "jsonb"];
  format_varchar n : n ∈ ["15"; "50"; "255"] -> format_type (varchar n) = "character varying(" +:+ n +:+ ")";
  format_array ty : ty ∈ ["TEXT"; varchar "15"] -> format_type (ty +:+ "[]") = format_type ty +:+ "[]";
  expr_text : get_expr "TEXT" "''" = "''::text";
  expr_varchar n : n ∈ ["15"; "50"; "255"] -> get_expr (varchar n) "''" = "''::character varying";
  expr_array_text : get_expr "TEXT[]" "'{}'" = "'{}'::text[]";
  expr_array_varchar : get_expr (varchar "15" +:+ "[]") "'{}'" = "'{}'::character varying[]";
  expr_zero ty : ty ∈ ["INTEGER"; "DOUBLE PRECISION"] -> get_expr ty "0" = "0";
  expr_false : get_expr "BOOLEAN" "FALSE" = "false";
  expr_now : get_expr "TIMESTAMPTZ" "NOW()" = "now()";
  expr_null : get_expr "JSONB" "'null'::jsonb" = "'null'::jsonb";
  expr_geo : get_expr "JSONB" geo_ddl = geo_default;              (* jsonb sorts its keys *)
}.

Section CatalogFacts.
Context `{CatalogLaws}.
Definition describes (def : string) (c : ColumnSpec) : Prop := describe_column def = Some c.

Lemma format_text : format_type "TEXT" = "text".
Proof. by injection format_names. Qed.
Lemma format_integer : format_type "INTEGER" = "integer".
Proof. by injection format_names. Qed.
Lemma format_double : format_type "DOUBLE PRECISION" = "double precision".
Proof. by injection format_names. Qed.
Lemma format_boolean : format_type "BOOLEAN" = "boolean".
Proof. by injection format_names. Qed.
Lemma format_timestamptz : format_type "TIMESTAMPTZ" = "timestamp with time zone".
Proof. by injection format_names. Qed.
Lemma format_jsonb : format_type "JSONB" = "jsonb".
Proof. by injection format_names. Qed.

Ltac listed := first [exact I | apply (bool_decide_unpack _); vm_compute; exact I].
(** A column with a type [ty] and default [d] of the DDL. *)
Lemma catalogued n ty d t e : CopyFormat.identifier_pattern n = true -> ty ∈ scalar_types ++ array_types ->
  format_type ty = t -> get_expr ty d = e ->
  describes (quoted n +:+ " " +:+ ty +:+ " NOT NULL DEFAULT " +:+ d) (mkColumn n t false (Some e)).
Proof. intros Hn Hty <- <-. by apply describe_default. Qed.

Lemma text_column n : CopyFormat.identifier_pattern n = true ->
  describes (quoted n +:+ " TEXT NOT NULL DEFAULT ''") (mkColumn n "text" false (Some "''::text")).
Proof. intros Hn. apply (catalogued n "TEXT" "''"); [done|listed|apply format_text|apply expr_text]. Qed.
Lemma texts_column n : CopyFormat.identifier_pattern n = true ->
  describes (quoted n +:+ " TEXT[] NOT NULL DEFAULT '{}'") (mkColumn n "text[]" false (Some "'{}'::text[]")).
Proof.
  intros Hn. apply (catalogued n "TEXT[]" "'{}'"); [done|listed| |apply expr_array_text].
  rewrite (format_array "TEXT") by listed. by rewrite format_text.
Qed.
Lemma varchar_column n k : CopyFormat.identifier_pattern n = true -> k ∈ ["15"; "50"; "255"] ->
  describes (quoted n +:+ " " +:+ varchar k +:+ " NOT NULL DEFAULT ''")
    (mkColumn n ("character varying(" +:+ k +:+ ")") false (Some "''::character varying")).
Proof.
  intros Hn Hk. apply (catalogued n (varchar k) "''"); [done| |by apply format_varchar|by apply expr_varchar].
  rewrite !elem_of_cons in Hk. destruct Hk as [->|[->|[->|Hk]]]; [listed..|]. by apply elem_of_nil in Hk.
Qed.
Lemma varchars_column n : CopyFormat.identifier_pattern n = true ->
  describes (quoted n +:+ " VARCHAR(15)[] NOT NULL DEFAULT '{}'")
    (mkColumn n "character varying(15)[]" false (Some "'{}'::character varying[]")).
Proof.
  intros Hn. apply (catalogued n (varchar "15" +:+ "[]") "'{}'"); [done|listed| |apply expr_array_varchar].
  rewrite (format_array (varchar "15")) by listed. by rewrite format_varchar by listed.
Qed.
Lemma number_column n ty t : CopyFormat.identifier_pattern n = true -> ty ∈ ["INTEGER"; "DOUBLE PRECISION"] -> format_type ty = t ->
  describes (quoted n +:+ " " +:+ ty +:+ " NOT NULL DEFAULT 0") (mkColumn n t false (Some "0")).
Proof.
  intros Hn Hty Ht. apply (catalogued n ty "0"); [done| |done|by apply expr_zero].
  rewrite !elem_of_cons in Hty. destruct Hty as [->|[->|Hty]]; [listed..|]. by apply elem_of_nil in Hty.
Qed.
Lemma boolean_column n : CopyFormat.identifier_pattern n = true ->
  describes (quoted n +:+ " BOOLEAN NOT NULL DEFAULT FALSE") (mkColumn n "boolean" false (Some "false")).
Proof. intros Hn. apply (catalogued n "BOOLEAN" "FALSE"); [done|listed|apply format_boolean|apply expr_false]. Qed.
Lemma now_column n : CopyFormat.identifier_pattern n = true ->
  describes (quoted n +:+ " TIMESTAMPTZ NOT NULL DEFAULT NOW()") (mkColumn n "timestamp with time zone" false (Some "now()")).
Proof. intros Hn. apply (catalogued n "TIMESTAMPTZ" "NOW()"); [done|listed|apply format_timestamptz|apply expr_now]. Qed.
Lemma date_column n : CopyFormat.identifier_pattern n = true ->
  describes (quoted n +:+ " TIMESTAMPTZ NULL") (mkColumn n "timestamp with time zone" true None).
Proof. intros Hn. unfold describes. rewrite <- format_timestamptz. apply (describe_null n "TIMESTAMPTZ"); [done|listed]. Qed.
Lemma json_column n d e : CopyFormat.identifier_pattern n = true -> get_expr "JSONB" d = e ->
  describes (quoted n +:+ " JSONB NOT NULL DEFAULT " +:+ d) (mkColumn n "jsonb" false (Some e)).
Proof. intros Hn He. apply (catalogued n "JSONB" d); [done|listed|apply format_jsonb|done]. Qed.
Lemma key_column n : CopyFormat.identifier_pattern n = true ->
  describes (quoted n +:+ " VARCHAR(15) PRIMARY KEY") (mkColumn n "character varying(15)" false None).
Proof.
  intros Hn. unfold describes. replace "character varying(15)" with (format_type (varchar "15")) by (by apply format_varchar; listed).
  apply (describe_key n (varchar "15")); [done|listed].
Qed.

(** Both tables of types agree, for every field and every option. *)
Definition agrees (def : result ddl_exn string) (spec : checked ColumnSpec) : Prop :=
  match def with Ok def => exists c, spec = Ok c /\ describes def c | Err _ => spec = Err PyTypeError end.
Lemma spec_ok n t b d : identifier n -> allowed_type t = true -> default_wf d -> column_spec n t b d = Ok (mkColumn n t b d).
Proof. intros. by apply column_init_ok. Qed.
Ltac known_column lem := eexists; split; [apply spec_ok; [assumption|reflexivity|cbn; listed]|exact lem].
Lemma field_agrees field : identifier (name field) -> agrees (_col_ddl field) (_field_column_spec field).
Proof.
  intros Hid. pose proof (proj1 Hid) as Hn. unfold _col_ddl, _field_column_spec, agrees, is_multi, spec_multi.
  destruct (type field).
  - known_column (text_column _ Hn).
  - known_column (text_column _ Hn).
  - destruct (only_int field).
    + assert (H1 : "INTEGER" ∈ ["INTEGER"; "DOUBLE PRECISION"]) by listed. known_column (number_column _ _ _ Hn H1 format_integer).
    + assert (H1 : "DOUBLE PRECISION" ∈ ["INTEGER"; "DOUBLE PRECISION"]) by listed. known_column (number_column _ _ _ Hn H1 format_double).
  - known_column (boolean_column _ Hn).
  - assert (H1 : "255" ∈ ["15"; "50"; "255"]) by listed. known_column (varchar_column _ _ Hn H1).
  - known_column (text_column _ Hn).
  - known_column (date_column _ Hn).
  - known_column (now_column _ Hn).
  - destruct (int_lt _ _) as [[]|]; [known_column (texts_column _ Hn)|known_column (text_column _ Hn)|done].
  - destruct (int_lt _ _) as [[]|]; [known_column (texts_column _ Hn)|known_column (text_column _ Hn)|done].
  - assert (H1 : "15" ∈ ["15"; "50"; "255"]) by listed.
    destruct (int_lt _ _) as [[]|]; [known_column (varchars_column _ Hn)|known_column (varchar_column _ _ Hn H1)|done].
  - known_column (json_column _ _ _ Hn expr_null).
  - known_column (text_column _ Hn).
  - known_column (json_column _ _ _ Hn expr_geo).
Qed.
End CatalogFacts.

(** ** Whole tables *)
Lemma base_described `{CatalogLaws} : Forall2 describes base_definitions _BASE_COLUMNS.
Proof. repeat constructor; [by apply key_column|by apply now_column|by apply now_column]. Qed.
Lemma auth_described `{CatalogLaws} : Forall2 describes _AUTH_SYSTEM_COLUMN_DEFINITIONS _AUTH_COLUMNS.
Proof.
  repeat constructor; [|by apply boolean_column..|by apply text_column|].
  - by apply (varchar_column "email" "255"); [|set_solver].
  - by apply (varchar_column "token_key" "50"); [|set_solver].
Qed.
Lemma fields_agree `{CatalogLaws} fields : Forall (fun f => identifier (name f)) fields ->
  match map_result _col_ddl fields with
  | Ok defs => exists cols, map_result _field_column_spec fields = Ok cols /\ Forall2 describes defs cols
  | Err _ => map_result _field_column_spec fields = Err PyTypeError
  end.
Proof.
  induction 1 as [|f fields Hf _ IH]; cbn [map_result]; [by exists []|].
  pose proof (field_agrees f Hf) as Hagree. unfold agrees in Hagree. destruct (_col_ddl f) as [d|e]; [|by rewrite Hagree].
  destruct Hagree as (c & -> & Hd). destruct (map_result _col_ddl fields) as [defs|e]; [|by rewrite IH].
  destruct IH as (cols & -> & Hds). exists (c :: cols). by split; [|constructor].
Qed.

Lemma spec_kept n t b d c : column_spec n t b d = Ok c -> column_wf c /\ col_name c = n.
Proof. intros [(Hn & _) Hc]%column_init_ok. by injection Hn as ->. Qed.
Lemma field_spec_name f c : _field_column_spec f = Ok c -> column_wf c /\ col_name c = name f.
Proof.
  unfold _field_column_spec. destruct (type f); try apply spec_kept; try (case_match; apply spec_kept);
    intros Hrun; apply result_bind_ok in Hrun as ([] & _ & Hrun); by eapply spec_kept.
Qed.

(** A backup expects the table that the DDL creates.  For every schema
    whose names are identifiers, the column definitions of
    [create_collection_table] are catalogued by PostgreSQL, one by one, as the
    columns of [build_collection_table_spec], base and auth columns included;
    both raise on the same options; and the model is refused only when two
    columns have one name, which PostgreSQL refuses too. *)
Theorem table_definition_canonical `{CatalogLaws, FloatText, FieldModel, JsonReader} table kind raw fields
  (Htable : identifier table) (Hkind : kind = "base" \/ kind = "auth")
  (Hparse : _parse_schema_fields raw = Ok fields)
  (Hnames : Forall (fun f => identifier (name f)) fields) :
  match column_definitions (String.eqb kind "auth") fields with
  | Err _ => build_collection_table_spec table kind raw = Err PyTypeError
  | Ok defs => exists cols, Forall2 (fun def c => describe_column def = Some c) defs cols /\
      build_collection_table_spec table kind raw =
        if distinct (col_name <$> cols) then Ok (mkTable table kind cols ["id"] [])
        else Err (SchemaContractError ("table " +:+ py_repr_str table +:+ " has duplicate columns"))
  end.
Proof.
  unfold column_definitions, build_collection_table_spec. rewrite Hparse.
  assert (among kind ["base"; "auth"] = true) as -> by (by destruct Hkind as [->| ->]).
  cbn [ensure mbind result_bind]. pose proof (fields_agree fields Hnames) as Hagree.
  destruct (map_result _col_ddl fields) as [dynamic|e]; [|by rewrite Hagree].
  destruct Hagree as (cols & -> & Hcols). cbn [mbind result_bind].
  set (auth := if String.eqb kind "auth" then _AUTH_COLUMNS else []).
  exists (_BASE_COLUMNS ++ auth ++ cols). split.
  { apply Forall2_app; [apply base_described|]. apply Forall2_app; [|done]. unfold auth.
    destruct (String.eqb kind "auth"); [apply auth_described|constructor]. }
  unfold TableSpec_init. erewrite bind_known_eq; [|by apply identifier_ok]. cbv beta.
  erewrite bind_known_eq; [|apply member_ok; split; [done|destruct Hkind as [->| ->]; set_solver]]. cbv beta.
  rewrite bool_decide_eq_false_2 by done. cbn [negb ensure mbind result_bind]. cbv zeta.
  destruct (distinct _); cbn [ensure mbind result_bind]; [|done].
  erewrite bind_known_eq; [|apply column_tuple_ok; split; [done|]].
  2: { split; [constructor; [by split|constructor]|apply NoDup_singleton]. }
  cbv beta. erewrite bind_known_eq; [|apply known_columns_ok; set_solver]. done.
Qed.

(** ** A catalog *)
Definition format_table : list (string * string) :=
  [("TEXT", "text"); ("INTEGER", "integer"); ("DOUBLE PRECISION", "double precision"); ("BOOLEAN", "boolean");
   ("TIMESTAMPTZ", "timestamp with time zone"); ("JSONB", "jsonb"); (varchar "15", "character varying(15)");
   (varchar "50", "character varying(50)"); (varchar "255", "character varying(255)"); ("TEXT[]", "text[]");
   (varchar "15" +:+ "[]", "character varying(15)[]")].
Definition expr_table : list (string * string * string) :=
  [("TEXT", "''", "''::text"); (varchar "15", "''", "''::character varying"); (varchar "50", "''", "''::character varying");
   (varchar "255", "''", "''::character varying"); ("TEXT[]", "'{}'", "'{}'::text[]");
   (varchar "15" +:+ "[]", "'{}'", "'{}'::character varying[]"); ("BOOLEAN", "FALSE", "false"); ("TIMESTAMPTZ", "NOW()", "now()");
   ("JSONB", geo_ddl, geo_default)].
Definition demo_format (ty : string) : string := default ty (dict_get ty format_table).
Definition demo_expr (ty d : string) : string :=
  match list_find (fun e => e.1.1 = ty /\ e.1.2 = d) expr_table with Some (_, e) => e.2 | None => d end.
(** The first type that the rest of a definition starts with. *)
Fixpoint demo_rest (n : string) (types : list string) (rest : string) : option ColumnSpec :=
  match types with
  | [] => None
  | ty :: types' =>
      match strip_prefix (dq +:+ " " +:+ ty +:+ " NOT NULL DEFAULT ") rest with
      | Some d => Some (mkColumn n (demo_format ty) false (Some (demo_expr ty d)))
      | None =>
          if String.eqb rest (dq +:+ " " +:+ ty +:+ " NULL") then Some (mkColumn n (demo_format ty) true None)
          else if String.eqb rest (dq +:+ " " +:+ ty +:+ " PRIMARY KEY") then Some (mkColumn n (demo_format ty) false None)
          else demo_rest n types' rest
      end
  end.
Definition demo_describe (def : string) : option ColumnSpec :=
  match strip_prefix dq def with
  | Some r => let '(n, rest) := span (fun c => negb (is_code 34 c)) r in demo_rest n (scalar_types ++ array_types) rest
  | None => None
  end.
#[export] Instance demo_catalog : Catalog :=
  {| format_type := demo_format; get_expr := demo_expr; describe_column := demo_describe |}.

Lemma identifier_no_quote n : CopyFormat.identifier_pattern n = true -> str_forall (fun c => negb (is_code 34 c)) n = true.
Proof.
  destruct n as [|c n]; [done|]. cbn [CopyFormat.identifier_pattern str_forall]. intros [Hc Hn]%andb_true_iff.
  apply andb_true_iff. split; [|eapply str_forall_impl; [|exact Hn]; cbn].
  - clear -Hc. destruct c as [[] [] [] [] [] [] [] []]; by vm_compute in Hc |- *.
  - intros d. clear. destruct d as [[] [] [] [] [] [] [] []]; by vm_compute.
Qed.
Lemma demo_describe_rest n rest : CopyFormat.identifier_pattern n = true ->
  demo_describe (quoted n +:+ rest) = demo_rest n (scalar_types ++ array_types) (dq +:+ rest).
Proof.
  intros Hn%identifier_no_quote. unfold demo_describe, CopyFormat.quoted. rewrite !append_assoc.
  replace (strip_prefix dq (dq +:+ n +:+ dq +:+ rest)) with (Some (n +:+ dq +:+ rest)) by reflexivity.
  by rewrite (span_exact _ n (dq +:+ rest) Hn).
Qed.
Ltac each H := repeat (apply elem_of_cons in H as [->|H]); [..|by apply elem_of_nil in H].
#[export] Instance demo_catalog_laws : CatalogLaws.
Proof.
  constructor; cbn [describe_column format_type get_expr demo_catalog].
  - intros n ty d Hn Hty. rewrite demo_describe_rest by done. each Hty; reflexivity.
  - intros n ty Hn Hty. rewrite demo_describe_rest by done. each Hty; reflexivity.
  - intros n ty Hn Hty. rewrite demo_describe_rest by done. each Hty; reflexivity.
  - reflexivity.
  - intros n Hn. each Hn; reflexivity.
  - intros ty Hty. each Hty; reflexivity.
  - reflexivity.
  - intros n Hn. each Hn; reflexivity.
  - reflexivity.
  - reflexivity.
  - intros ty Hty. each Hty; reflexivity.
  - reflexivity.
  - reflexivity.
  - reflexivity.
  - reflexivity.
Qed.

Lemma described_columns defs cols : Forall2 (fun def c => describe_column def = Some c) defs cols -> cols = omap describe_column defs.
Proof. induction 1 as [|d c ds cs Hd _ IH]; [done|]. change (demo_describe d = Some c) in Hd. cbn. rewrite Hd. by f_equal. Qed.

Definition demo_fields : list FieldDefinition :=
  [mkField "f1" "title" TEXT true false false false [];
   mkField "f2" "tags" RELATION false false false false [("collectionId", PStr "c"); ("maxSelect", PInt 5)];
   mkField "f3" "score" NUMBER false false false false [("onlyInt", PBool true)];
   mkField "f4" "place" GEO_POINT false false false false []].
#[local] Instance demo_model : FieldModel := fun d =>
  match dict_get "i" d with Some (PInt z) => demo_fields !! Z.to_nat z | _ => None end.
#[local] Instance demo_reader : JsonReader := fun _ => None.
#[local] Instance demo_float : FloatText := fun _ => "0.0".
Definition demo_raw : pyval := PList ((fun z => PDict [("i", PInt z)]) <$> [0; 1; 2; 3]%Z).
Lemma table_definition_canonical_witness : exists defs cols, column_definitions true demo_fields = Ok defs /\
  Forall2 (fun def c => describe_column def = Some c) defs cols /\ length cols = 12%nat /\
  build_collection_table_spec "members" "auth" demo_raw = Ok (mkTable "members" "auth" cols ["id"] []).
Proof.
  pose proof (table_definition_canonical "members" "auth" demo_raw demo_fields) as H.
  assert (Hid : forall s, CopyFormat.identifier_pattern s = true -> (CopyFormat.slen s <= 63)%Z -> identifier s) by by split.
  specialize (H ltac:(by apply Hid) ltac:(by right) eq_refl).
  specialize (H ltac:(repeat constructor; by apply Hid)).
  destruct H as (cols & H1 & H2). exists (match column_definitions true demo_fields with Ok d => d | Err _ => [] end), cols.
  split; [reflexivity|]. split; [exact H1|].
  apply described_columns in H1. vm_compute in H1. rewrite H1 in H2 |- *.
  split; [reflexivity|exact H2].
Defined.
