(* ===== verification/SchemaUpdate.v ===== *)
(** * Updating a collection's table (ppbase/db/schema_manager.py,
      [update_collection_table])

    The ALTER statements that take a table from one schema to another, and the
    theorem that they do: on any server that obeys the documented effect of
    each statement, a table with the columns a backup expects of the old schema
    ends with those it expects of the new one.  Views and indexes are left
    out. *)
From Stdlib Require Import Ascii String.
From S2P Require Import Prelude PyText PyVal FieldTypes SchemaSql SchemaContract SchemaColumns.
From S2P Require CopyFormat.
#[local] Open Scope string_scope.
#[local] Open Scope list_scope.

(** ** Statements *)
Inductive statement : Type :=
| RenameTable (old new : string)
| AddColumn (table definition : string)
| DropColumn (table column : string)
| RenameColumn (table old new : string).
Definition alter (table : string) : string := "ALTER TABLE " +:+ quoted table.
Definition statement_sql (s : statement) : string :=
  match s with
  | RenameTable old new => alter old +:+ " RENAME TO " +:+ quoted new
  | AddColumn table def => alter table +:+ " ADD COLUMN " +:+ def
  | DropColumn table column => alter table +:+ " DROP COLUMN IF EXISTS " +:+ quoted column
  | RenameColumn table old new => alter table +:+ " RENAME COLUMN " +:+ quoted old +:+ " TO " +:+ quoted new
  end.

(** ** [update_collection_table] *)
Record CollectionTable : Type := mkCollection {
  ct_name : string;
  ct_type : string;
  ct_schema : pyval;
}.
Definition _collection_type (c : CollectionTable) : string := if String.eqb (ct_type c) "" then "base" else ct_type c.

Definition _parse_fields `{FieldModel} (raw : pyval) : result ddl_exn (list FieldDefinition) :=
  fold_result (fun fields d =>
      match d with
      | PDict d =>
          match field_definition d with
          | Some field =>
              _ ← _validate_postgres_identifier_length (name field) "Field name";
              Ok (fields ++ [field])
          | None => Err DdlValidationError
          end
      | _ => Ok fields
      end)
    (match raw with PList l => l | _ => [] end) [].

Definition identity (f : FieldDefinition) : string := if String.eqb (field_id f) "" then name f else field_id f.
Abbreviation fields_dict := (list (string * FieldDefinition)).
Definition _fields_by_identity (fields : list FieldDefinition) : fields_dict :=
  fold_left (fun d f => dict_set (identity f) f d) fields [].

Definition _type_options_changed (old_f new_f : FieldDefinition) : result ddl_exn bool :=
  if bool_decide (type old_f <> type new_f) then Ok true
  else
    match type old_f with
    | NUMBER => Ok (negb (py_eqb (opt old_f "onlyInt") (opt new_f "onlyInt")))
    | SELECT | FILE | RELATION =>
        old_multi ← is_multi old_f;
        new_multi ← is_multi new_f;
        Ok (negb (Bool.eqb old_multi new_multi))
    | _ => Ok false
    end.

Definition sorted_keys (keys : list string) : list string := py_sorted str_leb keys.
Definition field_at (d : fields_dict) (key : string) : FieldDefinition :=
  default (mkField "" "" TEXT false false false false []) (dict_get key d).
Definition auth_column_names : list string := ["email"; "email_visibility"; "verified"; "password_hash"; "token_key"].
Definition auth_statements (table old_type new_type : string) : list statement :=
  if negb (String.eqb old_type "auth") && String.eqb new_type "auth"
  then AddColumn table <$> _AUTH_SYSTEM_COLUMN_DEFINITIONS
  else if String.eqb old_type "auth" && negb (String.eqb new_type "auth")
  then DropColumn table <$> auth_column_names
  else [].
Definition add_statement (table : string) (f : FieldDefinition) : result ddl_exn statement :=
  def ← _col_ddl f; Ok (AddColumn table def).
Definition change_statements (table : string) (old_f new_f : FieldDefinition) : result ddl_exn (list statement) :=
  let rename := if String.eqb (name old_f) (name new_f) then [] else [RenameColumn table (name old_f) (name new_f)] in
  changed ← (if bool_decide (type old_f <> type new_f) then Ok true else _type_options_changed old_f new_f);
  if changed : bool
  then add ← add_statement table new_f; Ok (rename ++ [DropColumn table (name new_f); add])
  else Ok rename.
Definition alter_statements (old_name new_name old_type new_type : string) (old_fields new_fields : fields_dict)
  : result ddl_exn (list statement) :=
  let removed_keys := filter (fun k => dict_mem k new_fields = false) old_fields.*1 in
  let added_keys := filter (fun k => dict_mem k old_fields = false) new_fields.*1 in
  let common_keys := filter (fun k => dict_mem k new_fields = true) old_fields.*1 in
  added ← map_result (fun k => add_statement new_name (field_at new_fields k)) (sorted_keys added_keys);
  changed ← map_result (fun k => change_statements new_name (field_at old_fields k) (field_at new_fields k)) (sorted_keys common_keys);
  Ok ((if String.eqb old_name new_name then [] else [RenameTable old_name new_name])
      ++ auth_statements new_name old_type new_type
      ++ ((fun k => DropColumn new_name (name (field_at old_fields k))) <$> sorted_keys removed_keys)
      ++ added ++ concat changed).
(** The statements for two table collections. *)
Definition update_statements `{FieldModel} (old new : CollectionTable) : result ddl_exn (list statement) :=
  old_name ← _safe_name (ct_name old);
  new_name ← _safe_name (ct_name new);
  old_fields ← _parse_fields (ct_schema old);
  new_fields ← _parse_fields (ct_schema new);
  alter_statements old_name new_name (_collection_type old) (_collection_type new)
    (_fields_by_identity old_fields) (_fields_by_identity new_fields).

(** ** A server *)
(** A live column: its [attnum], which names its data, and its shape. *)
Definition shape : Type := string * bool * option string.
Definition shape_of (c : ColumnSpec) : shape := (col_type c, nullable c, col_default c).
Abbreviation live_table := (gmap string (nat * shape)).
Class Postgres : Type := {
  pg_catalog :: Catalog;
  pg : Type;
  live : pg -> string -> option live_table;
  execute : string -> pg -> result string pg;
}.
Definition frame `{Postgres} (names : list string) (s s' : pg) : Prop := forall t, t ∉ names -> live s' t = live s t.
Definition sql_name (s : string) : Prop := CopyFormat.identifier_pattern s = true.
(** What a statement that succeeds has done. *)
Class PostgresLaws `{Postgres} : Prop := {
  pg_catalog_laws :: CatalogLaws;
  rename_table_law s s' a b : sql_name a -> sql_name b -> a <> b ->
    execute (statement_sql (RenameTable a b)) s = Ok s' -> live s' b = live s a /\ frame [a; b] s s';
  add_column_law s s' t def c : sql_name t -> describe_column def = Some c ->
    execute (statement_sql (AddColumn t def)) s = Ok s' ->
    exists m k, live s t = Some m /\ m !! col_name c = None /\
      (forall n col, m !! n = Some col -> col.1 <> k) /\
      live s' t = Some (<[col_name c := (k, shape_of c)]> m) /\ frame [t] s s';
  drop_column_law s s' t n : sql_name t -> sql_name n -> execute (statement_sql (DropColumn t n)) s = Ok s' ->
    exists m, live s t = Some m /\ live s' t = Some (delete n m) /\ frame [t] s s';
  rename_column_law s s' t a b : sql_name t -> sql_name a -> sql_name b ->
    execute (statement_sql (RenameColumn t a b)) s = Ok s' ->
    exists m col, live s t = Some m /\ m !! a = Some col /\ m !! b = None /\
      live s' t = Some (<[b := col]> (delete a m)) /\ frame [t] s s';
}.
(** The statements in one transaction: what fails is rolled back. *)
Definition execute_all `{Postgres} (stmts : list statement) (s : pg) : result string pg :=
  fold_result (fun s st => execute (statement_sql st) s) stmts s.
Inductive update_exn : Type := UpdateDdl (e : ddl_exn) | UpdateDatabase (e : string).
Definition update_collection_columns `{Postgres, FieldModel} (old new : CollectionTable) (s : pg) : result update_exn unit * pg :=
  match update_statements old new with
  | Err e => (Err (UpdateDdl e), s)
  | Ok stmts => match execute_all stmts s with
                | Ok s' => (Ok tt, s')
                | Err e => (Err (UpdateDatabase e), s)
                end
  end.


(** ** Lists of live columns *)
Definition entry : Type := string * (nat * shape).
Definition entry_of (k : nat) (c : ColumnSpec) : entry := (col_name c, (k, shape_of c)).
Definition repr (m : live_table) (l : list entry) : Prop := NoDup l.*1 /\ m = list_to_map l.

Lemma repr_perm m l l' : l ≡ₚ l' -> repr m l -> repr m l'.
Proof. intros Hp [Hn ->]. split; [by rewrite <- Hp|by apply list_to_map_proper]. Qed.
Lemma repr_lookup m l n col : repr m l -> m !! n = Some col <-> (n, col) ∈ l.
Proof. intros [Hn ->]. symmetry. by apply elem_of_list_to_map. Qed.
Lemma repr_add m l e : repr m l -> m !! e.1 = None -> repr (<[e.1 := e.2]> m) (e :: l).
Proof.
  intros [Hn ->] Hnone. split; [|by destruct e]. constructor; [|done]. by apply not_elem_of_list_to_map in Hnone.
Qed.
Lemma repr_drop m e l : repr m (e :: l) -> repr (delete e.1 m) l.
Proof.
  intros [[Hni Hn]%NoDup_cons ->]. split; [done|]. destruct e as [n col]. cbn.
  rewrite delete_insert_id; [done|]. by apply not_elem_of_list_to_map.
Qed.
Lemma repr_head m e l : repr m (e :: l) -> m !! e.1 = Some e.2.
Proof. intros Hr. rewrite (repr_lookup _ _ _ _ Hr). destruct e. left. Qed.

Section Server.
Context `{PostgresLaws}.
Definition holds (s : pg) (t : string) (l : list entry) : Prop := exists m, live s t = Some m /\ repr m l.
Lemma holds_perm s t l l' : l ≡ₚ l' -> holds s t l -> holds s t l'.
Proof. intros Hp (m & Hm & Hr). exists m. split; [done|by eapply repr_perm]. Qed.
Lemma frame_trans names s1 s2 s3 : frame names s1 s2 -> frame names s2 s3 -> frame names s1 s3.
Proof. intros H1 H2 t Ht. by rewrite H2, H1. Qed.
Lemma frame_refl names s : frame names s s.
Proof. by intros t. Qed.
Lemma frame_mono names names' s s' : names ⊆ names' -> frame names s s' -> frame names' s s'.
Proof. intros Hs Hf t Ht. apply Hf. set_solver. Qed.
Lemma step_add s s' t def c l : sql_name t -> describe_column def = Some c -> holds s t l ->
  execute (statement_sql (AddColumn t def)) s = Ok s' -> exists k, holds s' t (entry_of k c :: l) /\ frame [t] s s'.
Proof.
  intros Ht Hd (m & Hm & Hr) Hrun. destruct (add_column_law _ _ _ _ _ Ht Hd Hrun) as (m1 & k & Hm1 & Hnone & _ & Hl & Hf).
  rewrite Hm in Hm1. injection Hm1 as <-. exists k. split; [|done]. eexists. split; [exact Hl|].
  by apply (repr_add m l (entry_of k c)).
Qed.
Lemma step_drop s s' t e l : sql_name t -> sql_name e.1 -> holds s t (e :: l) ->
  execute (statement_sql (DropColumn t e.1)) s = Ok s' -> holds s' t l /\ frame [t] s s'.
Proof.
  intros Ht Hn (m & Hm & Hr) Hrun. destruct (drop_column_law _ _ _ _ Ht Hn Hrun) as (m1 & Hm1 & Hl & Hf).
  rewrite Hm in Hm1. injection Hm1 as <-. split; [|done]. eexists. split; [exact Hl|]. by apply repr_drop.
Qed.
Lemma step_rename s s' t e b l : sql_name t -> sql_name e.1 -> sql_name b -> holds s t (e :: l) ->
  execute (statement_sql (RenameColumn t e.1 b)) s = Ok s' -> holds s' t ((b, e.2) :: l) /\ frame [t] s s'.
Proof.
  intros Ht Hn Hb (m & Hm & Hr) Hrun.
  destruct (rename_column_law _ _ _ _ _ Ht Hn Hb Hrun) as (m1 & col & Hm1 & Ha & Hnone & Hl & Hf).
  rewrite Hm in Hm1. injection Hm1 as <-. rewrite (repr_head _ _ _ Hr) in Ha. injection Ha as <-.
  split; [|done]. eexists. split; [exact Hl|]. apply (repr_add _ _ (b, e.2)); [by apply repr_drop|].
  cbn. by rewrite lookup_delete_None; right.
Qed.

Lemma run_cons st stmts s s' : execute_all (st :: stmts) s = Ok s' ->
  exists s1, execute (statement_sql st) s = Ok s1 /\ execute_all stmts s1 = Ok s'.
Proof. unfold execute_all. cbn. destruct (execute _ s) as [s1|]; [|done]. by exists s1. Qed.
Lemma run_app l1 l2 s s' : execute_all (l1 ++ l2) s = Ok s' ->
  exists s1, execute_all l1 s = Ok s1 /\ execute_all l2 s1 = Ok s'.
Proof. unfold execute_all. rewrite fold_result_app. by intros Hrun%result_bind_ok. Qed.

(** The loops that add and drop. *)
Definition new_entry (c : ColumnSpec) (e : entry) : Prop := exists k, e = entry_of k c.
Lemma run_adds t defs cols : sql_name t -> Forall2 (fun d c => describe_column d = Some c) defs cols -> forall s s' l,
  holds s t l -> execute_all (AddColumn t <$> defs) s = Ok s' ->
  exists l', Forall2 new_entry cols l' /\ holds s' t (l' ++ l) /\ frame [t] s s'.
Proof.
  intros Ht. induction 1 as [|d c defs cols Hd _ IH]; intros s s' l Hl Hrun.
  { injection Hrun as <-. exists []. split_and!; [constructor|done|apply frame_refl]. }
  apply run_cons in Hrun as (s1 & H1 & Hrun). destruct (step_add _ _ _ _ _ _ Ht Hd Hl H1) as (k & Hl1 & Hf1).
  destruct (IH _ _ _ Hl1 Hrun) as (l' & Hnew & Hl' & Hf'). exists (entry_of k c :: l'). split_and!.
  - constructor; [by exists k|done].
  - eapply holds_perm; [|exact Hl']. cbn. symmetry. apply Permutation_middle.
  - by eapply frame_trans.
Qed.
Lemma run_drops t es : sql_name t -> Forall (fun e : entry => sql_name e.1) es -> forall s s' l,
  holds s t (es ++ l) -> execute_all (DropColumn t <$> es.*1) s = Ok s' -> holds s' t l /\ frame [t] s s'.
Proof.
  intros Ht. induction 1 as [|e es He _ IH]; intros s s' l Hl Hrun.
  { injection Hrun as <-. split; [done|apply frame_refl]. }
  apply run_cons in Hrun as (s1 & H1 & Hrun). destruct (step_drop _ _ _ _ _ Ht He Hl H1) as [Hl1 Hf1].
  destruct (IH _ _ _ Hl1 Hrun) as [Hl' Hf']. split; [done|by eapply frame_trans].
Qed.
End Server.

(** ** One field *)
Lemma column_spec_eq n t b d c : column_spec n t b d = Ok c -> c = mkColumn n t b d.
Proof.
  intros [(H1 & H2 & H3 & H4) _]%column_init_ok. destruct c as [n' t' b' d']; cbn in *.
  injection H1 as <-; injection H2 as <-; injection H3 as <-. destruct d, d'; cbn in H4; by simplify_eq.
Qed.
Lemma only_int_eq f g : py_eqb (opt f "onlyInt") (opt g "onlyInt") = true -> only_int f = only_int g.
Proof.
  intros H%py_eqb_truthy. unfold opt, only_int, opt_or in *.
  by destruct (dict_get "onlyInt" (options f)), (dict_get "onlyInt" (options g)).
Qed.
(** A field that [_type_options_changed] lets stay has the column it needs. *)
Lemma unchanged_shape f g cf cg : _type_options_changed f g = Ok false ->
  _field_column_spec f = Ok cf -> _field_column_spec g = Ok cg -> shape_of cf = shape_of cg.
Proof.
  unfold _type_options_changed. case_bool_decide as Hty; [done|].
  unfold _field_column_spec, spec_multi, is_multi. rewrite <- Hty. destruct (type f); intros Ho;
    try (by intros ->%column_spec_eq ->%column_spec_eq).
  { injection Ho as Ho%negb_false_iff%only_int_eq. rewrite Ho. destruct (only_int g); by intros ->%column_spec_eq ->%column_spec_eq. }
  all: destruct (int_lt 1 (max_select f)) as [b1|], (int_lt 1 (max_select g)) as [b2|]; cbn [mbind result_bind] in *; try done.
  all: destruct b1, b2; try done; by intros ->%column_spec_eq ->%column_spec_eq.
Qed.
(** Two fields that are stored alike: one type, for numbers an equal [onlyInt],
    for the types with a [maxSelect] both with more than one value or both
    with at most one. *)
Definition holds_many (f : FieldDefinition) (many : bool) : Prop :=
  match dict_get "maxSelect" (options f) with
  | Some v => if truthy v then int_lt 1 v = Ok many else many = false
  | None => many = false
  end.
Definition stored_alike (f g : FieldDefinition) : Prop :=
  type f = type g /\
  match type f with
  | NUMBER => py_eqb (default PNone (dict_get "onlyInt" (options f))) (default PNone (dict_get "onlyInt" (options g))) = true
  | SELECT | FILE | RELATION => exists many, holds_many f many /\ holds_many g many
  | TEXT | EDITOR | BOOL | EMAIL | URL | DATE | AUTODATE | JSON | GEO_POINT | PASSWORD => True
  end.
Lemma holds_many_multi f many : holds_many f many -> is_multi f = Ok many.
Proof.
  unfold holds_many, is_multi, max_select, py_or, opt_or. destruct (dict_get "maxSelect" (options f)) as [v|]; cbn [default from_option id].
  - destruct (truthy v); [by intros ->|by intros ->].
  - by intros ->.
Qed.
Lemma stored_alike_unchanged f g : stored_alike f g -> _type_options_changed f g = Ok false.
Proof.
  intros [Ht H]. unfold _type_options_changed. rewrite bool_decide_eq_false_2 by (by intros []). destruct (type f); try done.
  { unfold opt. by rewrite H. }
  all: destruct H as (many & Hf & Hg); rewrite (holds_many_multi _ _ Hf), (holds_many_multi _ _ Hg); cbn; by destruct many.
Qed.
Lemma change_statements_eq t f g : change_statements t f g =
  (changed ← _type_options_changed f g;
   let rename := if String.eqb (name f) (name g) then [] else [RenameColumn t (name f) (name g)] in
   if changed : bool
   then def ← _col_ddl g; Ok (rename ++ [DropColumn t (name g); AddColumn t def])
   else Ok rename).
Proof.
  unfold change_statements, _type_options_changed, add_statement. case_bool_decide; cbn [mbind result_bind]; by destruct (_col_ddl g).
Qed.

Section Changes.
Context `{PostgresLaws}.
(** A field of the schema with the column of the canonical model. *)
Definition good (f : FieldDefinition) : Prop := exists c, _field_column_spec f = Ok c.
Definition spec_of (f : FieldDefinition) : ColumnSpec :=
  match _field_column_spec f with Ok c => c | Err _ => mkColumn (name f) "" false None end.
Lemma spec_of_ok f : good f -> _field_column_spec f = Ok (spec_of f).
Proof. unfold spec_of. by intros [c ->]. Qed.
Lemma spec_of_name f : col_name (spec_of f) = name f.
Proof. unfold spec_of. destruct (_field_column_spec f) as [c|] eqn:Hc; [|done]. by apply field_spec_name in Hc as [_ ->]. Qed.
Lemma good_identifier f : good f -> identifier (name f).
Proof. intros [c Hc]. apply field_spec_name in Hc as [[Hid _] <-]. exact Hid. Qed.
Lemma good_name f : good f -> sql_name (name f).
Proof. by intros [Hn _]%good_identifier. Qed.
Lemma good_ddl f def : good f -> _col_ddl f = Ok def -> describe_column def = Some (spec_of f).
Proof.
  intros Hg Hd. pose proof (field_agrees f (good_identifier _ Hg)) as Ha. unfold agrees in Ha. rewrite Hd in Ha.
  destruct Ha as (c & Hc & Hdesc). rewrite (spec_of_ok _ Hg) in Hc. by injection Hc as ->.
Qed.

Definition changed_entry (f g : FieldDefinition) (k : nat) (e : entry) : Prop :=
  exists k', e = entry_of k' (spec_of g) /\ (_type_options_changed f g = Ok false -> k' = k).
Lemma run_change t f g stmts k s s' l : sql_name t -> good f -> good g -> change_statements t f g = Ok stmts ->
  holds s t (entry_of k (spec_of f) :: l) -> execute_all stmts s = Ok s' ->
  exists e, changed_entry f g k e /\ holds s' t (e :: l) /\ frame [t] s s'.
Proof.
  intros Ht Hf Hg Hst Hl Hrun. rewrite change_statements_eq in Hst. apply result_bind_ok in Hst as (changed & Hch & Hst).
  pose proof (good_name _ Hf) as Hnf. pose proof (good_name _ Hg) as Hng. cbv zeta in Hst.
  set (mid := (name g, (k, shape_of (spec_of f))) : entry).
  assert (exists s1 rest, holds s1 t (mid :: l) /\ frame [t] s s1 /\ execute_all rest s1 = Ok s' /\
    (if changed then exists def, _col_ddl g = Ok def /\ rest = [DropColumn t (name g); AddColumn t def] else rest = []))
    as (s1 & rest & Hl1 & Hf1 & Hrest & Hr).
  { assert (exists rest, stmts = (if String.eqb (name f) (name g) then [] else [RenameColumn t (name f) (name g)]) ++ rest /\
      (if changed then exists def, _col_ddl g = Ok def /\ rest = [DropColumn t (name g); AddColumn t def] else rest = []))
      as (rest & -> & Hr).
    { destruct changed; [|injection Hst as <-; exists []; by rewrite app_nil_r].
      apply result_bind_ok in Hst as (def & Hd & [= <-]). eexists; split; [done|by exists def]. }
    apply run_app in Hrun as (s1 & H1 & Hrest). exists s1, rest. rewrite (and_assoc (holds _ _ _)). split; [|done].
    unfold entry_of in Hl. rewrite spec_of_name in Hl. destruct (String.eqb_spec (name f) (name g)) as [Heq|Hne].
    - injection H1 as <-. rewrite Heq in Hl. split; [exact Hl|apply frame_refl].
    - apply run_cons in H1 as (s2 & H2 & H3). injection H3 as <-. by eapply (step_rename _ _ _ (name f, _)). }
  destruct changed; [|subst rest; injection Hrest as <-].
  - destruct Hr as (def & Hd & ->). apply run_cons in Hrest as (s2 & H2 & Hrest). apply run_cons in Hrest as (s3 & H3 & Hrest).
    injection Hrest as <-. destruct (step_drop _ _ t mid l Ht Hng Hl1 H2) as [Hl2 Hf2].
    destruct (step_add _ _ _ _ _ _ Ht (good_ddl _ _ Hg Hd) Hl2 H3) as (k' & Hl3 & Hf3).
    exists (entry_of k' (spec_of g)). split_and!; [exists k'; split; [done|congruence]|done|].
    eapply frame_trans; [exact Hf1|]. by eapply frame_trans.
  - exists mid. split_and!; [|done|done]. exists k. split; [|done]. unfold mid, entry_of. rewrite spec_of_name. f_equal. f_equal.
    eapply unchanged_shape; [exact Hch|by apply spec_of_ok..].
Qed.
Lemma run_changes t (old new : string -> FieldDefinition) (data : string -> nat) ks : sql_name t ->
  Forall (fun k => good (old k) /\ good (new k)) ks -> forall stmts s s' l,
  map_result (fun k => change_statements t (old k) (new k)) ks = Ok stmts ->
  holds s t (((fun k => entry_of (data (name (old k))) (spec_of (old k))) <$> ks) ++ l) ->
  execute_all (concat stmts) s = Ok s' ->
  exists l', Forall2 (fun k e => changed_entry (old k) (new k) (data (name (old k))) e) ks l' /\
    holds s' t (l' ++ l) /\ frame [t] s s'.
Proof.
  intros Ht. induction 1 as [|k ks [Ho Hn] _ IH]; intros stmts s s' l Hst Hl Hrun.
  { injection Hst as <-. injection Hrun as <-. exists []. split_and!; [constructor|done|apply frame_refl]. }
  cbn [map_result] in Hst. destruct (change_statements _ _ _) as [st|] eqn:Hk; [|done].
  destruct (map_result _ ks) as [sts|]; [|done]. injection Hst as <-. cbn [concat] in Hrun.
  apply run_app in Hrun as (s1 & H1 & Hrun). destruct (run_change _ _ _ _ _ _ _ _ Ht Ho Hn Hk Hl H1) as (e & He & Hl1 & Hf1).
  destruct (IH sts s1 s' (e :: l) eq_refl) as (l' & Hl' & Hh & Hf'); [|done|].
  { eapply holds_perm; [|exact Hl1]. apply Permutation_middle. }
  exists (e :: l'). split_and!; [by constructor| |by eapply frame_trans].
  eapply holds_perm; [|exact Hh]. symmetry. apply Permutation_middle.
Qed.
End Changes.

(** ** Fields by their identity *)
Definition by_identity (f : FieldDefinition) : string * FieldDefinition := (identity f, f).
Lemma fields_by_identity_app fields : forall d, NoDup (d.*1 ++ (identity <$> fields)) ->
  fold_left (fun d f => dict_set (identity f) f d) fields d = d ++ (by_identity <$> fields).
Proof.
  induction fields as [|f fields IH]; intros d Hn; cbn; [by rewrite app_nil_r|].
  assert (Hni : identity f ∉ d.*1) by (apply NoDup_app in Hn as (_ & Hn & _); intros Hin; apply (Hn _ Hin); left).
  rewrite (dict_set_new _ _ _ Hni), IH; [by rewrite <- app_assoc|].
  by rewrite fmap_app, <- app_assoc.
Qed.
Lemma fields_by_identity_nodup fields : NoDup (identity <$> fields) -> _fields_by_identity fields = by_identity <$> fields.
Proof. apply (fields_by_identity_app fields []). Qed.
Lemma identity_keys fields : (by_identity <$> fields).*1 = identity <$> fields.
Proof. by rewrite <- list_fmap_compose. Qed.
Lemma field_at_identity fields f : NoDup (identity <$> fields) -> f ∈ fields -> field_at (by_identity <$> fields) (identity f) = f.
Proof.
  intros Hn Hf. unfold field_at. rewrite (dict_get_nodup (identity f) f); [done|by rewrite identity_keys|].
  apply list_elem_of_fmap. by exists f.
Qed.
Lemma fields_of_keys fields keys : NoDup (identity <$> fields) -> keys ≡ₚ identity <$> fields ->
  (field_at (by_identity <$> fields) <$> keys) ≡ₚ fields.
Proof.
  intros Hn Hk. rewrite Hk, <- list_fmap_compose. apply reflexive_eq. transitivity (id <$> fields); [|apply list_fmap_id].
  apply list_fmap_ext. intros i f Hi%list_elem_of_lookup_2. by apply field_at_identity.
Qed.

(** ** A table and its columns *)
Definition shapes (cols : list ColumnSpec) : list (string * shape) := (fun c => (col_name c, shape_of c)) <$> cols.
Definition table_shapes (cols : list ColumnSpec) : gmap string shape := list_to_map (shapes cols).
Definition data_of (m : live_table) (n : string) : nat := match m !! n with Some col => col.1 | None => 0%nat end.
Definition old_entry (m : live_table) (c : ColumnSpec) : entry := entry_of (data_of m (col_name c)) c.
Definition entry_shape (e : entry) : string * shape := (e.1, e.2.2).

Lemma shapes_keys cols : (shapes cols).*1 = col_name <$> cols.
Proof. unfold shapes. by rewrite <- list_fmap_compose. Qed.
Lemma shapes_app c1 c2 : shapes (c1 ++ c2) = shapes c1 ++ shapes c2.
Proof. apply fmap_app. Qed.
Lemma old_keys m cols : (old_entry m <$> cols).*1 = col_name <$> cols.
Proof. by rewrite <- list_fmap_compose. Qed.
Lemma old_live m cols c : snd <$> m = table_shapes cols -> NoDup (col_name <$> cols) -> c ∈ cols ->
  m !! col_name c = Some (data_of m (col_name c), shape_of c).
Proof.
  intros Hm Hn Hc. assert (Hs : table_shapes cols !! col_name c = Some (shape_of c)).
  { apply elem_of_list_to_map; [by rewrite shapes_keys|]. apply list_elem_of_fmap. by exists c. }
  rewrite <- Hm, lookup_fmap in Hs. unfold data_of. destruct (m !! col_name c) as [[k sh]|]; [|done].
  by injection Hs as ->.
Qed.
Lemma repr_start m cols : snd <$> m = table_shapes cols -> NoDup (col_name <$> cols) -> repr m (old_entry m <$> cols).
Proof.
  intros Hm Hn. split; [by rewrite old_keys|]. apply map_eq. intros n.
  destruct (decide (n ∈ col_name <$> cols)) as [(c & -> & Hc)%list_elem_of_fmap|Hni].
  - rewrite (old_live _ _ _ Hm Hn Hc). symmetry. apply elem_of_list_to_map; [by rewrite old_keys|].
    apply list_elem_of_fmap. by exists c.
  - rewrite not_elem_of_list_to_map_1 by (by rewrite old_keys). apply (f_equal (fun x => x !! n)) in Hm.
    unfold table_shapes in Hm. rewrite lookup_fmap, not_elem_of_list_to_map_1 in Hm by (by rewrite shapes_keys).
    by destruct (m !! n).
Qed.
Lemma shapes_of_entries l : snd <$> (list_to_map l : live_table) = list_to_map (entry_shape <$> l).
Proof. induction l as [|[n [k sh]] l IH]; cbn; [apply fmap_empty|]. by rewrite fmap_insert, IH. Qed.
Lemma repr_finish m l cols : repr m l -> entry_shape <$> l ≡ₚ shapes cols -> snd <$> m = table_shapes cols.
Proof.
  intros [Hn ->] Hp. rewrite shapes_of_entries. apply list_to_map_proper; [|done].
  by rewrite <- list_fmap_compose.
Qed.
Lemma new_entries_shape cols l : Forall2 new_entry cols l -> entry_shape <$> l = shapes cols.
Proof. induction 1 as [|c e cols l [k ->] _ IH]; [done|]. cbn. by rewrite IH. Qed.

(** What the canonical model says of a table. *)
Definition auth_columns (kind : string) : list ColumnSpec := if String.eqb kind "auth" then _AUTH_COLUMNS else [].
Lemma built_table `{FloatText, FieldModel, JsonReader} table kind raw t : build_collection_table_spec table kind raw = Ok t ->
  exists fields, _parse_schema_fields raw = Ok fields /\ Forall good fields /\ sql_name table /\ NoDup (col_name <$> t_columns t) /\
    t_columns t = _BASE_COLUMNS ++ auth_columns kind ++ (spec_of <$> fields).
Proof.
  unfold build_collection_table_spec. intros Hrun. apply result_bind_ok in Hrun as (_ & _ & Hrun).
  apply result_bind_ok in Hrun as (fields & Hf & Hrun). apply result_bind_ok in Hrun as (cols & Hcols & Hrun).
  exists fields. rewrite map_result_ok in Hcols.
  assert (Hgood : Forall good fields) by (clear -Hcols; induction Hcols; constructor; [by eexists|done]).
  assert (Hspec : cols = spec_of <$> fields).
  { clear -Hcols. unfold spec_of. induction Hcols as [|f c fields cols Hc _ IH]; [done|]. cbn. by rewrite Hc, <- IH. }
  unfold TableSpec_init in Hrun. apply result_bind_ok in Hrun as (n & Hn & Hrun). apply identifier_ok in Hn as [[= <-] [Hn _]].
  apply result_bind_ok in Hrun as (k & _ & Hrun). apply result_bind_ok in Hrun as (_ & _ & Hrun).
  cbv zeta in Hrun. apply result_bind_ok in Hrun as ([] & Hd%ensure_ok & Hrun).
  apply result_bind_ok in Hrun as (pk & _ & Hrun). apply result_bind_ok in Hrun as (_ & _ & Hrun).
  apply result_bind_ok in Hrun as (es & _ & Hrun). apply result_bind_ok in Hrun as (us & _ & [= <-]). cbn [t_columns]. subst cols.
  split_and!; try done. by apply distinct_ok in Hd.
Qed.

Lemma parse_agree `{FieldModel} l : forall fields acc fields',
  map_result (fun d => match d with
                       | PDict d => match field_definition d with
                                    | Some f => Ok f
                                    | None => reject "_collections.schema has an invalid field definition"
                                    end
                       | _ => reject "_collections.schema field must be an object"
                       end) l = Ok fields ->
  fold_result (fun fields d =>
      match d with
      | PDict d =>
          match field_definition d with
          | Some field => _ ← _validate_postgres_identifier_length (name field) "Field name"; Ok (fields ++ [field])
          | None => Err DdlValidationError
          end
      | _ => Ok fields
      end) l acc = Ok fields' -> fields' = acc ++ fields.
Proof.
  induction l as [|d l IH]; intros fields acc fields' H1 H2; cbn [map_result fold_result] in H1, H2.
  { injection H1 as <-. injection H2 as <-. by rewrite app_nil_r. }
  destruct d as [| | | | | |d]; try done. destruct (field_definition d) as [f|]; [|done].
  destruct (map_result _ l) as [fs|] eqn:Hl; [|done]. injection H1 as <-.
  destruct (_validate_postgres_identifier_length _ _); cbn [mbind result_bind] in H2; [|done].
  rewrite (IH _ _ _ eq_refl H2). by rewrite <- app_assoc.
Qed.
Lemma parsed_fields `{FieldModel, JsonReader} raw fields fields' : is_list raw = true ->
  _parse_schema_fields raw = Ok fields -> _parse_fields raw = Ok fields' -> fields' = fields.
Proof. destruct raw as [| | | | |l|]; try done. intros _ H1 H2. exact (parse_agree l fields [] fields' H1 H2). Qed.
Lemma safe_name_same n n' : _safe_name n = Ok n' -> n' = n.
Proof. unfold _safe_name. intros Hrun. by inv_ok. Qed.

Section Auth.
Context `{PostgresLaws}.
Lemma run_auth t old_type new_type m s s' l : sql_name t ->
  holds s t ((old_entry m <$> auth_columns old_type) ++ l) -> execute_all (auth_statements t old_type new_type) s = Ok s' ->
  exists la, Forall2 new_entry (auth_columns new_type) la /\
    (old_type = "auth" -> new_type = "auth" -> la = old_entry m <$> _AUTH_COLUMNS) /\ holds s' t (la ++ l) /\ frame [t] s s'.
Proof.
  intros Ht. unfold auth_statements, auth_columns.
  destruct (String.eqb_spec old_type "auth") as [Ho|Ho], (String.eqb_spec new_type "auth") as [Hn|Hn]; cbn [negb andb]; intros Hl Hrun.
  - injection Hrun as <-. exists (old_entry m <$> _AUTH_COLUMNS). split_and!; [|done..|apply frame_refl].
    repeat constructor; by eexists.
  - destruct (run_drops t (old_entry m <$> _AUTH_COLUMNS) Ht) with s s' l as [Hl' Hf]; [by repeat constructor|done|done|].
    exists []. split_and!; [constructor|done..].
  - destruct (run_adds t _ _ Ht auth_described _ _ _ Hl Hrun) as (la & Hla & Hl' & Hf). exists la. by split_and!.
  - injection Hrun as <-. exists []. split_and!; [constructor|done..|apply frame_refl].
Qed.
Lemma run_rename old_name new_name s s' m : sql_name old_name -> sql_name new_name -> live s old_name = Some m ->
  execute_all (if String.eqb old_name new_name then [] else [RenameTable old_name new_name]) s = Ok s' ->
  live s' new_name = Some m /\ frame [old_name; new_name] s s'.
Proof.
  intros Ho Hn Hm. destruct (String.eqb_spec old_name new_name) as [->|Hne]; intros Hrun.
  - injection Hrun as <-. split; [done|apply frame_refl].
  - apply run_cons in Hrun as (s1 & H1 & Hrun). injection Hrun as <-.
    destruct (rename_table_law _ _ _ _ Ho Hn Hne H1) as [Hl Hf]. by rewrite Hl.
Qed.
End Auth.

Section Keys.
Context (d e : fields_dict) (Hd : NoDup d.*1) (He : NoDup e.*1).
Definition removed_keys : list string := sorted_keys (filter (fun k => dict_mem k e = false) d.*1).
Definition common_keys : list string := sorted_keys (filter (fun k => dict_mem k e = true) d.*1).
Definition added_keys : list string := sorted_keys (filter (fun k => dict_mem k d = false) e.*1).
Lemma old_keys_split : removed_keys ++ common_keys ≡ₚ d.*1.
Proof. unfold removed_keys, common_keys, sorted_keys. rewrite !py_sorted_perm. apply (filter_bool_perm (fun k => dict_mem k e)). Qed.
Lemma new_keys_split : added_keys ++ common_keys ≡ₚ e.*1.
Proof.
  unfold added_keys, common_keys, sorted_keys. rewrite !py_sorted_perm. rewrite <- (filter_bool_perm (fun k => dict_mem k d) e.*1) at 2.
  apply Permutation_app_head. apply NoDup_Permutation; [by apply NoDup_filter..|].
  intros k. rewrite !list_elem_of_filter, !dict_mem_keys. naive_solver.
Qed.
End Keys.

Section Run.
Context `{PostgresLaws}.
Lemma added_statements t (field : string -> FieldDefinition) ks : Forall (fun k => good (field k)) ks -> forall sts,
  map_result (fun k => add_statement t (field k)) ks = Ok sts ->
  exists defs, sts = AddColumn t <$> defs /\
    Forall2 (fun d c => describe_column d = Some c) defs ((fun k => spec_of (field k)) <$> ks).
Proof.
  induction 1 as [|k ks Hk _ IH]; intros sts Hst; cbn [map_result] in Hst.
  { injection Hst as <-. by exists []. }
  unfold add_statement at 1 in Hst. destruct (_col_ddl (field k)) as [def|] eqn:Hd; cbn [mbind result_bind] in Hst; [|done].
  destruct (map_result _ ks) as [sts'|]; [|done]. injection Hst as <-. destruct (IH _ eq_refl) as (defs & -> & Hds).
  exists (def :: defs). split; [done|]. constructor; [by apply good_ddl|done].
Qed.

Context (fo fn : list FieldDefinition) (Hfo : Forall good fo) (Hfn : Forall good fn)
        (Hido : NoDup (identity <$> fo)) (Hidn : NoDup (identity <$> fn)).
Let d := by_identity <$> fo.
Let e := by_identity <$> fn.
Let old k := field_at d k.
Let new k := field_at e k.
Lemma keyed_old : old <$> (removed_keys d e ++ common_keys d e) ≡ₚ fo.
Proof. apply fields_of_keys; [done|]. rewrite old_keys_split. unfold d. by rewrite identity_keys. Qed.
Lemma keyed_new : new <$> (added_keys d e ++ common_keys d e) ≡ₚ fn.
Proof.
  apply fields_of_keys; [done|]. rewrite new_keys_split; unfold d, e; by rewrite identity_keys.
Qed.
Lemma keyed_good (field : string -> FieldDefinition) fs ks ks' : field <$> (ks ++ ks') ≡ₚ fs -> Forall good fs ->
  Forall (fun k => good (field k)) ks /\ Forall (fun k => good (field k)) ks'.
Proof. intros Hp Hf. rewrite <- Hp in Hf. by apply Forall_fmap, Forall_app in Hf. Qed.

(** The columns of the new table: those of the common fields, of the added
    ones, of an auth collection and of every collection. *)
Lemma run_alter old_name new_name old_type new_type stmts m s s' : sql_name old_name -> sql_name new_name ->
  alter_statements old_name new_name old_type new_type d e = Ok stmts ->
  live s old_name = Some m -> repr m (old_entry m <$> (_BASE_COLUMNS ++ auth_columns old_type ++ (spec_of <$> fo))) ->
  execute_all stmts s = Ok s' ->
  exists lc ladd la, holds s' new_name (lc ++ ladd ++ la ++ (old_entry m <$> _BASE_COLUMNS)) /\ frame [old_name; new_name] s s' /\
    Forall2 (fun k => changed_entry (old k) (new k) (data_of m (name (old k)))) (common_keys d e) lc /\
    Forall2 new_entry ((fun k => spec_of (new k)) <$> added_keys d e) ladd /\ Forall2 new_entry (auth_columns new_type) la /\
    (old_type = "auth" -> new_type = "auth" -> la = old_entry m <$> _AUTH_COLUMNS).
Proof.
  intros Hon Hnn Hst Hm Hr Hrun. unfold alter_statements in Hst. fold (removed_keys d e) (common_keys d e) (added_keys d e) in Hst.
  destruct (keyed_good old fo _ _ keyed_old Hfo) as [Hgr Hgc]. destruct (keyed_good new fn _ _ keyed_new Hfn) as [Hga Hgc'].
  apply result_bind_ok in Hst as (adds & Hadds & Hst). apply result_bind_ok in Hst as (chs & Hchs & [= <-]).
  destruct (added_statements _ _ _ Hga _ Hadds) as (defs & -> & Hdefs).
  apply run_app in Hrun as (s1 & H1 & Hrun). destruct (run_rename _ _ _ _ _ Hon Hnn Hm H1) as [Hm1 Hf1].
  apply run_app in Hrun as (s2 & H2 & Hrun). apply run_app in Hrun as (s3 & H3 & Hrun). apply run_app in Hrun as (s4 & H4 & H5).
  set (base := old_entry m <$> _BASE_COLUMNS). set (ent := fun k => entry_of (data_of m (name (old k))) (spec_of (old k))).
  assert (Hl1 : holds s1 new_name ((old_entry m <$> auth_columns old_type) ++ (ent <$> removed_keys d e) ++ (ent <$> common_keys d e) ++ base)).
  { exists m. split; [done|]. eapply repr_perm; [|exact Hr]. rewrite <- keyed_old, !fmap_app, <- !list_fmap_compose.
    assert (Hent : forall ks : list string, (old_entry m ∘ (spec_of ∘ old)) <$> ks = ent <$> ks).
    { intros ks. apply list_fmap_ext. intros i k _. unfold ent, old_entry. cbn. by rewrite spec_of_name. }
    rewrite !Hent. fold base. rewrite (app_assoc (ent <$> _)), (Permutation_app_comm base), <- app_assoc. done. }
  destruct (run_auth _ _ _ _ _ _ _ Hnn Hl1 H2) as (la & Hla & Hboth & Hl2 & Hf2).
  assert (Hl2' : holds s2 new_name ((ent <$> removed_keys d e) ++ (ent <$> common_keys d e) ++ la ++ base)).
  { eapply holds_perm; [|exact Hl2]. rewrite (Permutation_app_comm la), <- !app_assoc.
    do 2 apply Permutation_app_head. apply Permutation_app_comm. }
  destruct (run_drops new_name (ent <$> removed_keys d e) Hnn) with s2 s3 ((ent <$> common_keys d e) ++ la ++ base) as [Hl3 Hf3]; [|done| |].
  { apply Forall_fmap. eapply Forall_impl; [exact Hgr|]. intros k Hk. cbn. rewrite spec_of_name. by apply good_name. }
  { rewrite <- !list_fmap_compose. rewrite <- H3. f_equal. apply list_fmap_ext. intros i k _. cbn. by rewrite spec_of_name. }
  destruct (run_adds _ _ _ Hnn Hdefs _ _ _ Hl3 H4) as (ladd & Hladd & Hl4 & Hf4).
  destruct (run_changes new_name old new (data_of m) (common_keys d e) Hnn) with chs s4 s' (ladd ++ la ++ base) as (lc & Hlc & Hl5 & Hf5).
  - apply Forall_and. by split.
  - exact Hchs.
  - eapply holds_perm; [|exact Hl4]. fold ent. rewrite !app_assoc. do 2 apply Permutation_app_tail. apply Permutation_app_comm.
  - done.
  - exists lc, ladd, la. split_and!; try done. eapply frame_trans; [exact Hf1|].
    assert (Hsub : [new_name] ⊆ [old_name; new_name]) by set_solver.
    repeat first [by apply (frame_mono _ _ _ _ Hsub)|eapply frame_trans; [by apply (frame_mono _ _ _ _ Hsub)|]].
Qed.
End Run.

Lemma changed_shapes (old new : string -> FieldDefinition) (data : string -> nat) ks lc :
  Forall2 (fun k => changed_entry (old k) (new k) (data k)) ks lc -> entry_shape <$> lc = shapes ((fun k => spec_of (new k)) <$> ks).
Proof. induction 1 as [|k e ks lc (k' & -> & _) _ IH]; [done|]. cbn. by rewrite IH. Qed.

(** C11: an update takes the table to the new schema and keeps the data.
    Suppose the backup's model accepts the old and the new collection, fields
    have distinct identities, and the live table has the columns of the old
    model.  Then an update that succeeds leaves, under the new name, exactly
    the columns of the new model, whatever was renamed, added, dropped or
    changed and with base and auth exchanged or not; every field that is
    stored alike (of the same type, for numbers with an equal [onlyInt], for
    selects, files and relations with [maxSelect] above one or not as before)
    keeps its column with its data, under its new name, and so do the base
    columns and those of a collection that stays an auth collection; no other
    table is touched. *)
Theorem update_reaches_canonical `{PostgresLaws, FloatText, FieldModel, JsonReader} old new fo fn told tnew m s s'
  (Hlo : is_list (ct_schema old) = true) (Hln : is_list (ct_schema new) = true)
  (Hfo : _parse_schema_fields (ct_schema old) = Ok fo) (Hfn : _parse_schema_fields (ct_schema new) = Ok fn)
  (Hido : NoDup (identity <$> fo)) (Hidn : NoDup (identity <$> fn))
  (Hold : build_collection_table_spec (ct_name old) (_collection_type old) (ct_schema old) = Ok told)
  (Hnew : build_collection_table_spec (ct_name new) (_collection_type new) (ct_schema new) = Ok tnew)
  (Hm : live s (ct_name old) = Some m) (Hshape : snd <$> m = table_shapes (t_columns told))
  (Hrun : update_collection_columns old new s = (Ok tt, s')) :
  exists m', live s' (ct_name new) = Some m' /\ snd <$> m' = table_shapes (t_columns tnew) /\
    (forall f g, f ∈ fo -> g ∈ fn -> identity f = identity g -> stored_alike f g ->
       m' !! name g = m !! name f) /\
    (forall c, c ∈ _BASE_COLUMNS \/ c ∈ _AUTH_COLUMNS /\ _collection_type old = "auth" /\ _collection_type new = "auth" ->
       m' !! col_name c = m !! col_name c) /\
    frame [ct_name old; ct_name new] s s'.
Proof.
  destruct (built_table _ _ _ _ Hold) as (fo' & Hfo' & Hgo & Hon & Hndo & Hco). rewrite Hfo in Hfo'. injection Hfo' as <-.
  destruct (built_table _ _ _ _ Hnew) as (fn' & Hfn' & Hgn & Hnn & Hndn & Hcn). rewrite Hfn in Hfn'. injection Hfn' as <-.
  unfold update_collection_columns in Hrun. destruct (update_statements old new) as [stmts|] eqn:Hst; [|done].
  destruct (execute_all stmts s) as [s1|] eqn:Hs; [|done]. injection Hrun as <-.
  unfold update_statements in Hst. apply result_bind_ok in Hst as (? & ->%safe_name_same & Hst).
  apply result_bind_ok in Hst as (? & ->%safe_name_same & Hst).
  apply result_bind_ok in Hst as (? & Hp & Hst). rewrite (parsed_fields _ _ _ Hlo Hfo Hp) in Hst.
  apply result_bind_ok in Hst as (? & Hp' & Hst). rewrite (parsed_fields _ _ _ Hln Hfn Hp') in Hst.
  rewrite !fields_by_identity_nodup in Hst by done.
  assert (Hr : repr m (old_entry m <$> (_BASE_COLUMNS ++ auth_columns (_collection_type old) ++ (spec_of <$> fo)))).
  { rewrite <- Hco. by apply repr_start. }
  destruct (run_alter fo fn Hgo Hgn Hido Hidn _ _ _ _ _ _ _ _ Hon Hnn Hst Hm Hr Hs)
    as (lc & ladd & la & (m' & Hm' & Hr') & Hframe & Hlc & Hladd & Hla & Hboth).
  exists m'. assert (Hlook : forall n col, (n, col) ∈ lc ++ ladd ++ la ++ (old_entry m <$> _BASE_COLUMNS) -> m' !! n = Some col)
    by (intros n col; apply (repr_lookup _ _ n col Hr')).
  split; [done|]. split; [|split; [|split; [|done]]].
  - apply (repr_finish _ _ _ Hr'). rewrite !fmap_app, (changed_shapes _ _ _ _ _ Hlc), (new_entries_shape _ _ Hladd), (new_entries_shape _ _ Hla).
    rewrite Hcn, !shapes_app, (app_assoc (shapes _BASE_COLUMNS)), (app_assoc (shapes ((fun k => _) <$> common_keys _ _))).
    rewrite Permutation_app_comm. apply Permutation_app; [apply Permutation_app_comm|].
    assert (Hp2 : shapes (spec_of <$> fn) ≡ₚ shapes ((fun k => spec_of (field_at (by_identity <$> fn) k)) <$>
        (added_keys (by_identity <$> fo) (by_identity <$> fn) ++ common_keys (by_identity <$> fo) (by_identity <$> fn)))).
    { unfold shapes. apply fmap_Permutation. rewrite <- (keyed_new fo fn Hido Hidn) at 1. by rewrite <- list_fmap_compose. }
    rewrite Hp2, fmap_app, shapes_app. apply Permutation_app_comm.
  - intros f g Hf Hg Hid Hopt%stored_alike_unchanged. assert (Hkey : identity f ∈ common_keys (by_identity <$> fo) (by_identity <$> fn)).
    { unfold common_keys, sorted_keys. rewrite py_sorted_perm, list_elem_of_filter, dict_mem_keys, !identity_keys.
      split; [rewrite Hid|]; by apply list_elem_of_fmap_2. }
    destruct (Forall2_elem_l _ _ _ (identity f) Hlc Hkey) as (e & He & k' & -> & Hk).
    assert (Hnf : field_at (by_identity <$> fn) (identity f) = g) by (rewrite Hid; by apply field_at_identity).
    rewrite Hnf, (field_at_identity fo f Hido Hf) in *. rewrite (Hk Hopt) in He.
    assert (Hc : spec_of f ∈ t_columns told) by (rewrite Hco; apply elem_of_app; right; apply elem_of_app; right; by apply list_elem_of_fmap_2).
    pose proof (old_live _ _ _ Hshape Hndo Hc) as Hmf. rewrite spec_of_name in Hmf. rewrite Hmf, <- (spec_of_name g).
    apply Hlook, elem_of_app. left. rewrite Forall_forall in Hgo, Hgn.
    rewrite (unchanged_shape f g _ _ Hopt (spec_of_ok _ (Hgo _ Hf)) (spec_of_ok _ (Hgn _ Hg))). exact He.
  - intros c Hc. assert (Hin : c ∈ t_columns told).
    { rewrite Hco. unfold auth_columns. destruct Hc as [Hc|(Hc & -> & _)]; apply elem_of_app; [by left|right].
      rewrite String.eqb_refl. apply elem_of_app. by left. }
    rewrite (old_live _ _ _ Hshape Hndo Hin). apply Hlook. do 2 (apply elem_of_app; right).
    apply elem_of_app. destruct Hc as [Hc|(Hc & Ho & Hn)]; [right|left; rewrite (Hboth Ho Hn)]; by apply (list_elem_of_fmap_2 (old_entry m)).
Qed.

(** ** A server in memory *)
Definition no_quote (c : ascii) : bool := negb (is_code 34 c).
Definition parse_name (s : string) : string * string := span no_quote s.
Definition parse_alter (t rest : string) : option statement :=
  match strip_prefix (dq +:+ " RENAME TO " +:+ dq) rest with
  | Some r => Some (RenameTable t (parse_name r).1)
  | None =>
  match strip_prefix (dq +:+ " ADD COLUMN ") rest with
  | Some def => Some (AddColumn t def)
  | None =>
  match strip_prefix (dq +:+ " DROP COLUMN IF EXISTS " +:+ dq) rest with
  | Some r => Some (DropColumn t (parse_name r).1)
  | None =>
  match strip_prefix (dq +:+ " RENAME COLUMN " +:+ dq) rest with
  | Some r => let '(a, r) := parse_name r in
              b ← strip_prefix (dq +:+ " TO " +:+ dq) r;
              Some (RenameColumn t a (parse_name b).1)
  | None => None
  end end end end.
Definition parse_statement (sql : string) : option statement :=
  r ← strip_prefix ("ALTER TABLE " +:+ dq) sql;
  let '(t, rest) := parse_name r in parse_alter t rest.
Lemma parse_name_exact n rest : sql_name n -> parse_name (n +:+ dq +:+ rest) = (n, dq +:+ rest).
Proof. intros Hn%identifier_no_quote. by apply (span_exact _ n (dq +:+ rest)). Qed.
Lemma parse_alter_exact t rest : sql_name t -> parse_statement (alter t +:+ rest) = parse_alter t (dq +:+ rest).
Proof.
  intros Ht. unfold parse_statement, alter, CopyFormat.quoted. rewrite !append_assoc. cbn [strip_prefix].
  change (strip_prefix ("ALTER TABLE " +:+ dq) ("ALTER TABLE " +:+ dq +:+ t +:+ dq +:+ rest)) with (Some (t +:+ dq +:+ rest)).
  cbn [mbind option_bind]. by rewrite parse_name_exact.
Qed.
Definition names_of (st : statement) : list string :=
  match st with RenameTable a b | DropColumn a b => [a; b] | AddColumn t _ => [t] | RenameColumn t a b => [t; a; b] end.
Lemma parse_exact st : Forall sql_name (names_of st) -> parse_statement (statement_sql st) = Some st.
Proof.
  intros Hn. destruct st as [a b|t def|t c|t a b]; cbn [names_of] in Hn; repeat (apply Forall_cons in Hn as [? Hn]);
    cbn [statement_sql]; rewrite parse_alter_exact by done; unfold CopyFormat.quoted.
  - change (Some (RenameTable a (parse_name (b +:+ dq +:+ "")).1) = Some (RenameTable a b)). by rewrite parse_name_exact.
  - reflexivity.
  - change (Some (DropColumn t (parse_name (c +:+ dq +:+ "")).1) = Some (DropColumn t c)). by rewrite parse_name_exact.
  - rewrite !append_assoc.
    change ((let '(a', r) := parse_name (a +:+ dq +:+ " TO " +:+ dq +:+ b +:+ dq +:+ "") in
             b' ← strip_prefix (dq +:+ " TO " +:+ dq) r; Some (RenameColumn t a' (parse_name b').1)) = Some (RenameColumn t a b)).
    rewrite parse_name_exact by done.
    change (Some (RenameColumn t a (parse_name (b +:+ dq +:+ "")).1) = Some (RenameColumn t a b)). by rewrite parse_name_exact.
Qed.

Definition next_attnum (m : live_table) : nat := S (foldr (fun e => Nat.max e.2.1) 0%nat (map_to_list m)).
Lemma next_attnum_fresh m n col : m !! n = Some col -> col.1 <> next_attnum m.
Proof.
  intros Hin%elem_of_map_to_list Heq. enough (Hle : (col.1 <= foldr (fun e => Nat.max e.2.1) 0 (map_to_list m))%nat).
  { unfold next_attnum in Heq. lia. }
  clear Heq. induction (map_to_list m) as [|e l IH]; [by apply elem_of_nil in Hin|]. cbn.
  apply elem_of_cons in Hin as [<-|Hin]; [cbn; lia|]. specialize (IH Hin). lia.
Qed.
Abbreviation memory := (gmap string live_table).
Definition demo_run (st : statement) (s : memory) : option memory :=
  match st with
  | RenameTable a b => m ← s !! a; if s !! b is Some _ then None else Some (<[b := m]> (delete a s))
  | AddColumn t def =>
      m ← s !! t; c ← describe_column def;
      if m !! col_name c is Some _ then None else Some (<[t := <[col_name c := (next_attnum m, shape_of c)]> m]> s)
  | DropColumn t n => m ← s !! t; Some (<[t := delete n m]> s)
  | RenameColumn t a b =>
      m ← s !! t; col ← m !! a;
      if m !! b is Some _ then None else Some (<[t := <[b := col]> (delete a m)]> s)
  end.
#[export] Instance demo_postgres : Postgres := {|
  pg_catalog := demo_catalog; pg := memory; live s t := s !! t;
  execute sql s := match st ← parse_statement sql; demo_run st s with Some s' => Ok s' | None => Err "error" end;
|}.
Lemma demo_execute st s s' : Forall sql_name (names_of st) -> @execute demo_postgres (statement_sql st) s = Ok s' -> demo_run st s = Some s'.
Proof.
  intros Hn. cbn [execute demo_postgres]. rewrite (parse_exact _ Hn). cbn [mbind option_bind].
  destruct (demo_run st s); [by intros [= ->]|done].
Qed.
Lemma insert_frame t (m : live_table) (s : memory) names : t ∈ names -> @frame demo_postgres names s (<[t := m]> s).
Proof. intros Ht t' Hni. cbn. rewrite lookup_insert_ne; [done|]. by intros ->. Qed.
#[export] Instance demo_postgres_laws : PostgresLaws.
Proof.
  constructor; [apply demo_catalog_laws|..].
  - intros s s' a b Ha Hb Hne Hrun%demo_execute; [|by repeat constructor]. cbn in *.
    destruct (s !! a) as [m|] eqn:Hm; [|done]. cbn in Hrun. destruct (s !! b); [done|]. injection Hrun as <-.
    split; [by rewrite lookup_insert_eq|]. intros t Ht. change (<[b:=m]> (delete a s) !! t = s !! t).
    rewrite lookup_insert_ne by set_solver. apply lookup_delete_ne. set_solver.
  - intros s s' t def c Ht Hd Hrun%demo_execute; [|by repeat constructor]. cbn [demo_run pg live demo_postgres] in *.
    destruct (s !! t) as [m|] eqn:Hm; cbn [mbind option_bind] in Hrun; [|done]. rewrite Hd in Hrun. cbn [mbind option_bind] in Hrun.
    destruct (m !! col_name c) eqn:Hc; [done|]. injection Hrun as <-. exists m, (next_attnum m). split_and!; try done.
    + apply next_attnum_fresh.
    + apply lookup_insert_eq.
    + apply insert_frame. set_solver.
  - intros s s' t n Ht Hn Hrun%demo_execute; [|by repeat constructor]. cbn in *. destruct (s !! t) as [m|]; [|done].
    injection Hrun as <-. exists m. split_and!; [done|apply lookup_insert_eq|apply insert_frame; set_solver].
  - intros s s' t a b Ht Ha Hb Hrun%demo_execute; [|by repeat constructor]. cbn in *. destruct (s !! t) as [m|]; [|done].
    cbn in Hrun. destruct (m !! a) as [col|] eqn:Hcol; [|done]. cbn in Hrun. destruct (m !! b) eqn:Hmb; [done|]. injection Hrun as <-.
    exists m, col. split_and!; [done..|apply lookup_insert_eq|apply insert_frame; set_solver].
Qed.

Definition demo_old : list FieldDefinition :=
  [mkField "a" "title" TEXT false false false false []; mkField "b" "score" NUMBER false false false false [("onlyInt", PBool false)];
   mkField "c" "legacy" BOOL false false false false []; mkField "d" "tags" SELECT false false false false [("maxSelect", PInt 3)]].
Definition demo_new : list FieldDefinition :=
  [mkField "d" "labels" SELECT false false false false [("maxSelect", PInt 5)]; mkField "a" "headline" TEXT true false false false [];
   mkField "b" "score" NUMBER false false false false [("onlyInt", PBool true)]; mkField "" "place" GEO_POINT false false false false []].
#[local] Instance update_model : FieldModel := fun d =>
  match dict_get "i" d with Some (PInt z) => (demo_old ++ demo_new) !! Z.to_nat z | _ => None end.
#[local] Existing Instances demo_reader demo_float.
Definition demo_collection (n t : string) (ids : list Z) : CollectionTable :=
  mkCollection n t (PList ((fun z => PDict [("i", PInt z)]) <$> ids)).
Definition demo_posts := demo_collection "posts" "" [0; 1; 2; 3]%Z.
Definition demo_articles := demo_collection "articles" "auth" [4; 5; 6; 7]%Z.
Definition built (c : CollectionTable) : list ColumnSpec :=
  match build_collection_table_spec (ct_name c) (_collection_type c) (ct_schema c) with Ok t => t_columns t | Err _ => [] end.
Definition demo_live : live_table := list_to_map (imap (fun i c => entry_of (S i) c) (built demo_posts)).
Definition demo_server : memory := {[ "posts" := demo_live ]}.
Definition demo_result : result update_exn unit * memory :=
  @update_collection_columns demo_postgres update_model demo_posts demo_articles demo_server.
Lemma demo_update_runs : demo_result.1 = Ok tt /\ demo_result.2 !! "posts" = None.
Proof. split; vm_compute; reflexivity. Qed.
Lemma update_reaches_canonical_witness : exists s' m',
  @update_collection_columns demo_postgres update_model demo_posts demo_articles demo_server = (Ok tt, s') /\
  s' !! "articles" = Some m' /\ s' !! "posts" = None /\ snd <$> m' = table_shapes (built demo_articles) /\
  m' !! "headline" = Some (4%nat, ("text", false, Some "''::text")) /\
  m' !! "labels" = Some (7%nat, ("text[]", false, Some "'{}'::text[]")) /\
  snd <$> m' !! "score" = Some ("integer", false, Some "0").
Proof.
  destruct demo_update_runs as [Hr Hposts]. set (s' := demo_result.2) in Hposts.
  assert (Hrun : @update_collection_columns demo_postgres update_model demo_posts demo_articles demo_server = (Ok tt, s')).
  { fold demo_result. rewrite <- Hr. apply surjective_pairing. }
  clearbody s'.
  destruct (@update_reaches_canonical demo_postgres demo_postgres_laws demo_float update_model demo_reader demo_posts demo_articles demo_old demo_new
    (mkTable "posts" "base" (built demo_posts) ["id"] []) (mkTable "articles" "auth" (built demo_articles) ["id"] []) demo_live
    demo_server s') as (m' & Hm' & Hshape & Hkept & _);
    [reflexivity|reflexivity|vm_compute; reflexivity|vm_compute; reflexivity|by apply distinct_ok|by apply distinct_ok|
     vm_compute; reflexivity|vm_compute; reflexivity|reflexivity|vm_compute; reflexivity|exact Hrun|].
  exists s', m'. split_and!; [exact Hrun|exact Hm'|exact Hposts|exact Hshape| | |].
  - change "headline" with (name (default (mkField "" "" TEXT false false false false []) (demo_new !! 1%nat))).
    erewrite Hkept; [|apply (list_elem_of_lookup_2 _ 0 _); reflexivity|apply (list_elem_of_lookup_2 _ 1 _); reflexivity|reflexivity|exact (conj eq_refl I)].
    vm_compute. reflexivity.
  - change "labels" with (name (default (mkField "" "" TEXT false false false false []) (demo_new !! 0%nat))).
    erewrite Hkept; [|apply (list_elem_of_lookup_2 _ 3 _); reflexivity|apply (list_elem_of_lookup_2 _ 0 _); reflexivity|reflexivity|exact (conj eq_refl (ex_intro _ true (conj eq_refl eq_refl)))].
    vm_compute. reflexivity.
  - rewrite <- (lookup_fmap snd m'). rewrite Hshape. vm_compute. reflexivity.
Defined.

(** ** Behaviours to know *)
Definition plain_text (id n : string) : FieldDefinition := mkField id n TEXT false false false false [].
(** A name that is no identifier is only measured: a table can be created that
    no backup accepts. *)
Example field_name_unchecked : is_ok (_col_ddl (plain_text "a" "first-name")) = true /\
  is_ok (_validate_postgres_identifier_length "first-name" "Field name") = true /\
  is_ok (_field_column_spec (plain_text "a" "first-name")) = false.
Proof. done. Qed.
(** [onlyInt] written out as [false] where it was missing: the same column,
    and still the data is dropped. *)
Example only_int_written :
  let f := mkField "a" "n" NUMBER false false false false [] in
  let g := mkField "a" "n" NUMBER false false false false [("onlyInt", PBool false)] in
  _col_ddl f = _col_ddl g /\
  change_statements "t" f g = Ok [DropColumn "t" "n"; AddColumn "t" (dq +:+ "n" +:+ dq +:+ " DOUBLE PRECISION NOT NULL DEFAULT 0")].
Proof. done. Qed.
(** Two fields that exchange their names: the first renaming meets the other
    column, and the update fails. *)
Definition swap_server : memory := {[ "t" := list_to_map [("x", (1%nat, ("text", false, None))); ("y", (2%nat, ("text", false, None)))] ]}.
Example swapped_names :
  (stmts ← alter_statements "t" "t" "base" "base" (_fields_by_identity [plain_text "a" "x"; plain_text "b" "y"])
             (_fields_by_identity [plain_text "a" "y"; plain_text "b" "x"]);
   Ok (is_ok (@execute_all demo_postgres stmts swap_server))) = Ok false.
Proof. by vm_compute. Qed.
(** Two fields without ids that share a name, or with one id: the last counts. *)
Example shared_identity : _fields_by_identity [plain_text "a" "x"; plain_text "a" "y"] = [("a", plain_text "a" "y")].
Proof. done. Qed.
(** The pattern of a safe name ends with a dollar sign: a newline may follow. *)
Example safe_name_newline : _safe_name ("t" +:+ String newline "") = Ok ("t" +:+ String newline "").
Proof. done. Qed.
