(* ===== verification/MigrationRun.v ===== *)
(** * Running migrations (ppbase/services/migration_runner.py)

    The files of a directory in their order, the pending ones, and the runs
    that apply and revert them on one locked connection: one transaction per
    file, with the history row in it, and the reconciliation of a COMMIT whose
    acknowledgement was lost.  The lock is in [WriteBarrier]. *)
From Stdlib Require Import Ascii String.
From stdpp Require Import sorting.
From S2P Require Import Prelude PyText PyVal.
#[local] Open Scope string_scope.
#[local] Open Scope list_scope.

(** ** The files of a directory *)
Record dir_entry : Type := mkEntry { entry_name : string; is_file : bool }.
(** [Path.suffix] of a file name. *)
Definition path_suffix (name : string) : string :=
  match rev (split_on "."%char name) with
  | last :: before :: rest =>
      if String.eqb last "" || (String.eqb before "" && match rest with [] => true | _ => false end) then "" else "." +:+ last
  | _ => ""
  end.
Definition _MIGRATION_FILE_PATTERN : string := ".py".
Definition is_migration_file (e : dir_entry) : bool :=
  is_file e && String.eqb (path_suffix (entry_name e)) _MIGRATION_FILE_PATTERN
  && match entry_name e with String c _ => is_digit c | EmptyString => false end
  && negb (String.eqb (entry_name e) "__init__.py").
(** [None] is the [ValueError] of [int] on more than 4300 digits. *)
Definition _migration_sort_key (name : string) : option (Z * string) :=
  let '(digits, _) := span is_decimal name in
  if String.eqb digits "" then Some (0%Z, name) else z ← int_of_str digits; Some (z, name).
Definition key_leb (a b : Z * string) : bool := (a.1 <? b.1)%Z || ((a.1 =? b.1)%Z && str_leb a.2 b.2).
(** [None] for the directory that does not exist. *)
Definition _list_migration_files (dir : option (list dir_entry)) : option (list string) :=
  match dir with
  | None => Some []
  | Some entries =>
      keys ← mapM (fun e => _migration_sort_key (entry_name e)) (filter (fun e => is_migration_file e = true) entries);
      Some ((py_sorted key_leb keys).*2)
  end.

(** ** The database and the migration files *)
Inductive direction : Type := Up | Down.
Inductive event : Type := EBegin | ESelect | EFlush | EDelete | ECommit | ERollback | EVerify | EClose.
Inductive migration_exn : Type :=
| FileError (message : string)              (* the directory or the module *)
| AttributeError (message : string)         (* no [up] or no [down] *)
| MigrationError (e : string)               (* raised by [up] or [down] *)
| IntegrityError                            (* the history row exists *)
| Raised (during : event) (e : string)
| MigrationCommitOutcomeError (file : string) (confirmed : option direction).

Section Run.
(** What the code of a migration reads and writes: everything but the
    history. *)
Context {W : Type}.
Record database : Type := mkDb { history : list (string * Z); world : W }.
Record module_ : Type := mkModule { up : option (W -> result string W); down : option (W -> result string W) }.
Class Files : Type := { load_module : string -> result string module_ }.

(** The session: what each operation answers after those before it, whether
    a COMMIT is durable, whether the connection is lost and what [now()] is. *)
Class Session : Type := {
  reply : list event -> event -> option string;
  is_exception : list event -> bool;            (* not only a [BaseException] *)
  durable : list event -> bool;
  invalidated : list event -> bool;
  transaction_time : list event -> Z;
}.
Class SessionLaws `{Session} : Prop := {
  acknowledged log : reply log ECommit = None -> durable log = true;
}.
Record run_state : Type := mkRun { committed : database; log : list event }.
Definition M : Type -> Type := stm run_state migration_exn.

Context `{Files, Session}.
Definition ask (e : event) : M unit := fun s =>
  let s' := mkRun (committed s) (log s ++ [e]) in
  match reply (log s) e with None => (Ok tt, s') | Some x => (Err (Raised e x), s') end.
Definition file_error {A} (r : result string A) : M A := fun s =>
  match r with Ok a => (Ok a, s) | Err e => (Err (FileError e), s) end.
Definition code_error {A} (r : result string A) : M A := fun s =>
  match r with Ok a => (Ok a, s) | Err e => (Err (MigrationError e), s) end.
(** [try: m except: ...] *)
Definition attempt {A B} (m : M A) (ok : A -> M B) (except : migration_exn -> M B) : M B := fun s =>
  match m s with (Ok a, s') => ok a s' | (Err e, s') => except e s' end.
(** [async with] a session: closed in any case. *)
Definition with_session {A} (body : M A) : M A :=
  attempt body (fun a => _ ← ask EClose; mret a) (fun e => _ ← ask EClose; stm_raise e).
(** [async with session.begin()] *)
Definition in_transaction {A} (body : M A) : M A :=
  _ ← ask EBegin;
  attempt body (fun a => _ ← ask ECommit; mret a) (fun e => _ ← ask ERollback; stm_raise e).
Definition applied_names (d : database) : list string := (history d).*1.
Definition read_database : M database := _ ← ask ESelect; s ← stm_get; mret (committed s).
Definition unapplied (d : database) (files : list string) : list string := filter (fun f => f ∉ applied_names d) files.
Definition get_pending_migrations (dir : option (list dir_entry)) : M (list string) :=
  match _list_migration_files dir with
  | None => stm_raise (FileError "ValueError")
  | Some [] => mret []
  | Some all_files => d ← read_database; mret (unapplied d all_files)
  end.

(** ** One migration in its transaction *)
Definition apply_migration (f : string) (now : Z) (d : database) : M database :=
  module ← file_error (load_module f);
  match up module with
  | None => stm_raise (AttributeError ("Migration " +:+ f +:+ " does not define an 'up' function."))
  | Some up_fn =>
      w ← code_error (up_fn (world d));
      _ ← ask EFlush;
      if decide (f ∈ applied_names d) then stm_raise IntegrityError
      else mret (mkDb (history d ++ [(f, now)]) w)
  end.
Definition revert_migration (f : string) (now : Z) (d : database) : M database :=
  module ← file_error (load_module f);
  match down module with
  | None => stm_raise (AttributeError ("Migration " +:+ f +:+ " does not define a 'down' function."))
  | Some down_fn =>
      w ← code_error (down_fn (world d));
      _ ← ask EDelete;
      _ ← ask EFlush;
      mret (mkDb (filter (fun r => r.1 <> f) (history d)) w)
  end.

(** The COMMIT of [d]: durable or not, whatever is answered. *)
Definition commit (d : database) : M (option string) := fun s =>
  let s' := mkRun (if durable (log s) then d else committed s) (log s ++ [ECommit]) in
  (Ok (reply (log s) ECommit), s').
Definition connection_lost : M bool := fun s => (Ok (invalidated (log s)), s).
(** [try: await session.rollback() except Exception: log] *)
Definition quiet_rollback : M unit :=
  s ← stm_get;
  attempt (ask ERollback) mret (fun e => if is_exception (log s) then mret tt else stm_raise e).
Definition verify (f : string) : M bool :=
  attempt (_ ← ask EVerify; s ← stm_get; _ ← ask ERollback; mret (bool_decide (f ∈ applied_names (committed s))))
    mret (fun _ => stm_raise (MigrationCommitOutcomeError f None)).
Definition expected_applied (dir : direction) : bool := match dir with Up => true | Down => false end.
Definition commit_migration_transaction (f : string) (dir : direction) (d : database) : M unit :=
  answer ← commit d;
  match answer with
  | None => mret tt
  | Some commit_error =>
      lock_connection_was_invalidated ← connection_lost;
      _ ← quiet_rollback;
      is_applied ← verify f;
      if negb (Bool.eqb is_applied (expected_applied dir)) then stm_raise (Raised ECommit commit_error)
      else
        now_lost ← connection_lost;
        if lock_connection_was_invalidated || now_lost
        then stm_raise (MigrationCommitOutcomeError f (Some dir))
        else mret tt
  end.
Definition migrate (dir : direction) : string -> Z -> database -> M database :=
  match dir with Up => apply_migration | Down => revert_migration end.
(** The body of the loops of [apply_pending_on_connection] and
    [revert_on_connection]. *)
Definition migrate_file (dir : direction) (f : string) : M unit :=
  with_session (
    _ ← ask EBegin;
    s ← stm_get;
    d ← attempt (migrate dir f (transaction_time (log s)) (committed s)) mret (fun e => _ ← ask ERollback; stm_raise e);
    commit_migration_transaction f dir d).
Fixpoint migrate_files (dir : direction) (files : list string) : M (list string) :=
  match files with
  | [] => mret []
  | f :: rest => _ ← migrate_file dir f; l ← migrate_files dir rest; mret (f :: l)
  end.

(** ** The runs *)
Definition apply_pending_on_connection (dir : option (list dir_entry)) : M (list string) :=
  pending ← with_session (in_transaction (get_pending_migrations dir));
  migrate_files Up pending.
(** [ORDER BY applied DESC, file DESC] *)
Definition newest_first (a b : string * Z) : bool := (b.2 <? a.2)%Z || ((a.2 =? b.2)%Z && str_leb b.1 a.1).
Definition revert_on_connection (count : Z) : M (list string) :=
  if (count <? 1)%Z then mret []
  else
    d ← with_session (in_transaction read_database);
    let files := take (Z.to_nat count) ((py_sorted newest_first (history d)).*1) in
    migrate_files Down files.

(** ** Status *)
Record migration_status : Type := mkStatus {
  initialized : bool; applied : list string; pending : list string; orphaned : list string;
  total : nat; tracked_total : nat;
}.
Definition get_migration_status (dir : option (list dir_entry)) (initialized : bool) (d : database) : option migration_status :=
  all_files ← _list_migration_files dir;
  let applied_list := if initialized then py_sorted str_leb (applied_names d) else [] in
  Some (mkStatus initialized applied_list (filter (fun f => f ∉ applied_list) all_files)
    (filter (fun f => f ∉ all_files) applied_list) (length all_files)
    (size (list_to_set all_files ∪ list_to_set applied_list : gset string))).
End Run.

(** ** Orders *)
Lemma key_leb_total a b : key_leb a b = false -> key_leb b a = true.
Proof.
  destruct a as [n s], b as [m t]. unfold key_leb; cbn. intros H. apply orb_true_iff. rewrite andb_true_iff, Z.ltb_lt, Z.eqb_eq.
  destruct (Z.eqb_spec n m) as [->|Hne]; bool_to_prop; [|left; lia]. right. split; [done|]. by apply str_leb_total.
Qed.
Lemma key_leb_trans a b c : key_leb a b = true -> key_leb b c = true -> key_leb a c = true.
Proof.
  destruct a as [n s], b as [m t], c as [k u]. unfold key_leb; cbn. rewrite !orb_true_iff, !andb_true_iff, !Z.ltb_lt, !Z.eqb_eq.
  intros [H1|[-> H1]] [H2|[-> H2]]; try (left; lia). right. split; [done|]. by eapply str_leb_trans.
Qed.
(** [newest_first] is [key_leb] with the names and times turned around. *)
Definition reversed (r : string * Z) : Z * string := (r.2, r.1).
Lemma newest_first_key a b : newest_first a b = key_leb (reversed b) (reversed a).
Proof. unfold newest_first, key_leb. cbn. by rewrite (Z.eqb_sym b.2). Qed.
Lemma newest_first_total a b : newest_first a b = false -> newest_first b a = true.
Proof. rewrite !newest_first_key. apply key_leb_total. Qed.
Lemma newest_first_trans a b c : newest_first a b = true -> newest_first b c = true -> newest_first a c = true.
Proof. rewrite !newest_first_key. intros H1 H2. by eapply key_leb_trans. Qed.
Lemma newest_first_antisym a b : newest_first a b = true -> newest_first b a = true -> a = b.
Proof.
  destruct a as [s n], b as [t m]. unfold newest_first; cbn. rewrite !orb_true_iff, !andb_true_iff, !Z.ltb_lt, !Z.eqb_eq.
  intros [H1|[-> H1]] [H2|[H2 H3]]; try lia. f_equal. by apply str_leb_antisym.
Qed.

(** The files come in the order of their numbers. *)
Lemma listed_sorted dir files : _list_migration_files dir = Some files ->
  exists keys, keys.*2 = files /\ StronglySorted (fun a b => key_leb a b = true) keys /\
    Forall (fun k => _migration_sort_key k.2 = Some k) keys.
Proof.
  destruct dir as [entries|]; [|intros [= <-]; exists []; by repeat constructor].
  unfold _list_migration_files. intros (keys & Hk & [= <-])%bind_Some. exists (py_sorted key_leb keys). split_and!; [done|..].
  - apply py_sorted_sorted; [apply key_leb_total|apply key_leb_trans].
  - rewrite py_sorted_perm. apply mapM_Some_1 in Hk. induction Hk as [|e k es ks He _ IH]; constructor; [|done].
    unfold _migration_sort_key in *. destruct (span is_decimal (entry_name e)) as [digits r] eqn:Hs.
    destruct (String.eqb digits "") eqn:Hd.
    + injection He as <-. cbn. by rewrite Hs, Hd.
    + apply bind_Some in He as (z & Hz & [= <-]). cbn. by rewrite Hs, Hd, Hz.
Qed.

(** ** What the steps do *)
Section Proofs.
Context {W : Type} `{Files W, SessionLaws}.
Abbreviation mstate := (run_state (W:=W)).
Definition names_in (s : mstate) : list string := applied_names (committed s).
Definition kept (s s' : mstate) : Prop := committed s' = committed s /\ log s `prefix_of` log s'.
Lemma kept_refl s : kept s s.
Proof. by split. Qed.
Lemma kept_trans s1 s2 s3 : kept s1 s2 -> kept s2 s3 -> kept s1 s3.
Proof. intros [Hc Hp] [Hc' Hp']. split; [congruence|]. by transitivity (log s2). Qed.
Lemma ask_post e s : post (ask e) s (fun _ s' => kept s s') (fun x s' => kept s s' /\ exists y, x = Raised e y).
Proof. unfold post, ask. destruct (reply (log s) e); unfold kept; cbn; eauto using prefix_app_r. Qed.
Lemma attempt_post {A B} (m : M A) (ok : A -> M B) except s Q X (Q' : B -> mstate -> Prop) X' :
  post m s Q X -> (forall a s1, Q a s1 -> post (ok a) s1 Q' X') -> (forall e s1, X e s1 -> post (except e) s1 Q' X') ->
  post (attempt m ok except) s Q' X'.
Proof. unfold post, attempt. intros Hm Hok Hex. destruct (m s) as [[a|e] s1]; [by apply Hok|by apply Hex]. Qed.
Lemma ask_bind_post {B} e (k : M B) s (Q : B -> mstate -> Prop) X :
  (forall s1, kept s s1 -> post k s1 Q X) -> (forall x s1, kept s s1 -> X (Raised e x) s1) ->
  post (mbind (M:=stm mstate migration_exn) (fun _ => k) (ask e)) s Q X.
Proof.
  intros Hk Hx. apply post_bind. eapply post_conseq; [apply ask_post|..]; cbn; [auto|]. intros x s1 [Hs [y ->]]. auto.
Qed.

(** The new database of one migration, dated [t]. *)
Definition migrates (dir : direction) (f : string) (t : Z) (d d1 : database) : Prop :=
  exists module fn, load_module f = Ok module /\ (match dir with Up => up | Down => down end) module = Some fn /\
    fn (world d) = Ok (world d1) /\
    match dir with
    | Up => f ∉ applied_names d /\ history d1 = history d ++ [(f, t)]
    | Down => history d1 = filter (fun r => r.1 <> f) (history d)
    end.
(** Exceptions that a migration meets before its COMMIT. *)
Definition before_commit (e : migration_exn) : Prop :=
  match e with
  | Raised (EFlush | EDelete) _ => True
  | Raised _ _ | MigrationCommitOutcomeError _ _ => False
  | _ => True
  end.
Lemma migrate_post dir f t d s :
  post (migrate dir f t d) s (fun d1 s' => kept s s' /\ migrates dir f t d d1) (fun e s' => kept s s' /\ before_commit e).
Proof.
  destruct dir; cbn [migrate]; unfold apply_migration, revert_migration; apply post_bind; unfold post at 1, file_error;
    (destruct (load_module f) as [m|e] eqn:Hl; [|split; [apply kept_refl|done]]).
  - destruct (up m) as [fn|] eqn:Hu; [|split; [apply kept_refl|done]]. apply post_bind. unfold post at 1, code_error.
    destruct (fn (world d)) as [w|e] eqn:Hw; [|split; [apply kept_refl|done]].
    apply ask_bind_post; [|naive_solver]. intros s1 Hs. destruct (decide _) as [Hin|Hni]; (split; [done|]); [done|].
    exists m, fn. split_and!; try done.
  - destruct (down m) as [fn|] eqn:Hu; [|split; [apply kept_refl|done]]. apply post_bind. unfold post at 1, code_error.
    destruct (fn (world d)) as [w|e] eqn:Hw; [|split; [apply kept_refl|done]].
    apply ask_bind_post; [|naive_solver]. intros s1 Hs. apply ask_bind_post; [|intros; split; [by eapply kept_trans|naive_solver]].
    intros s2 Hs2. split; [by eapply kept_trans|]. by exists m, fn.
Qed.

(** What an exception says of the file it interrupts. *)
Definition tells (dir : direction) (f : string) (e : migration_exn) (done : bool) : Prop :=
  match e with
  | Raised ECommit _ => done = false
  | Raised (ERollback | EClose) _ => True
  | MigrationCommitOutcomeError g None => g = f
  | MigrationCommitOutcomeError g (Some d) => g = f /\ d = dir /\ done = true
  | _ => done = false
  end.
Definition is_in (f : string) (d : database (W:=W)) : bool := bool_decide (f ∈ applied_names d).
Lemma is_in_spec f (d : database (W:=W)) : is_in f d = true <-> f ∈ applied_names d.
Proof. apply bool_decide_eq_true. Qed.
(** A migration moves its file, and no other, into the history or out of it. *)
Lemma migrates_this dir f t d d1 : migrates dir f t d d1 -> is_in f d1 = expected_applied dir.
Proof.
  intros (m & fn & _ & _ & _ & Hh). unfold is_in, applied_names. destruct dir; cbn.
  - apply bool_decide_eq_true. destruct Hh as [_ ->]. rewrite fmap_app. set_solver.
  - apply bool_decide_eq_false. rewrite Hh. intros (r & -> & [Hr _]%list_elem_of_filter)%list_elem_of_fmap. done.
Qed.
Lemma migrates_other dir f t d d1 g : migrates dir f t d d1 -> g <> f -> is_in g d1 = is_in g d.
Proof.
  intros (m & fn & _ & _ & _ & Hh) Hne. apply bool_decide_ext. unfold applied_names. destruct dir.
  - destruct Hh as [_ ->]. rewrite fmap_app. set_solver.
  - rewrite Hh, !list_elem_of_fmap. setoid_rewrite list_elem_of_filter. naive_solver.
Qed.
(** The database of [d], by a commit, or the one before it. *)
Definition settled (s : mstate) (d : database) (s' : mstate) : Prop := committed s' = d /\ log s `prefix_of` log s'.
Lemma settled_kept s d s1 s2 : settled s d s1 -> kept s1 s2 -> settled s d s2.
Proof. intros [Hc Hp] [Hc' Hp']. split; [congruence|]. by transitivity (log s1). Qed.
Lemma commit_migration_post dir f d s : is_in f (committed s) = negb (expected_applied dir) -> is_in f d = expected_applied dir ->
  post (commit_migration_transaction f dir d) s (fun _ s' => settled s d s')
    (fun e s' => settled s d s' /\ tells dir f e true \/ settled s (committed s) s' /\ tells dir f e false).
Proof.
  intros Hold Hnew. unfold commit_migration_transaction. apply post_bind. unfold post at 1, commit.
  remember (if durable (log s) then d else committed s) as c eqn:Hc. set (s1 := mkRun c (log s ++ [ECommit])).
  assert (Hs1 : settled s c s1) by (split; [done|by apply prefix_app_r]).
  destruct (reply (log s) ECommit) as [x|] eqn:Hr; [|by rewrite (acknowledged _ Hr) in Hc; subst c].
  apply post_bind. unfold post at 1, connection_lost. set (was_lost := invalidated (log s1)).
  assert (Hcase : (c = d /\ is_in f c = expected_applied dir) \/ (c = committed s /\ is_in f c = negb (expected_applied dir))).
  { subst c. destruct (durable _); [by left|by right]. }
  clear Hc.
  assert (Hany : forall e s', settled s c s' -> (forall b, tells dir f e b) ->
    settled s d s' /\ tells dir f e true \/ settled s (committed s) s' /\ tells dir f e false).
  { intros e s' Hs' He. destruct Hcase as [[<- _]|[Hc _]]; [by left|right]. by rewrite <- Hc. }
  apply post_bind. eapply post_conseq with (Q := fun _ s' => settled s c s') (X := fun e s' => settled s c s' /\ exists y, e = Raised ERollback y).
  - unfold quiet_rollback. apply post_bind. unfold post at 1. cbn. eapply attempt_post; [apply ask_post|..]; cbn.
    + intros _ s2 Hs2. by eapply settled_kept.
    + intros e s2 [Hs2 He]. destruct (is_exception _); [|split; [|done]]; by eapply settled_kept.
  - intros _ s2 Hs2. apply post_bind. eapply post_conseq with (Q := fun b s' => settled s c s' /\ b = is_in f c)
      (X := fun e s' => settled s c s' /\ e = MigrationCommitOutcomeError f None).
    + unfold verify. eapply attempt_post with (Q := fun b s' => settled s c s' /\ b = is_in f c) (X := fun _ s' => settled s c s').
      * apply ask_bind_post; [|intros; by eapply settled_kept]. intros s3 Hs3. apply post_bind. unfold post at 1. cbn.
        pose proof (settled_kept _ _ _ _ Hs2 Hs3) as Hs3'. apply ask_bind_post; [|intros; by eapply settled_kept].
        intros s4 Hs4. split; [by eapply settled_kept|]. by rewrite (proj1 Hs3').
      * by intros b s3 Hs3.
      * by intros e s3 Hs3.
    + intros b s3 [Hs3 ->]. destruct (Bool.eqb_spec (is_in f c) (expected_applied dir)) as [Heq|Hne]; cbn [negb].
      * destruct Hcase as [[Hc _]|[_ Hc]]; [rewrite Hc in Hs3|rewrite Hc in Heq; by destruct (expected_applied dir)].
        apply post_bind. unfold post at 1, connection_lost. destruct (_ || _); [|done]. left. by split.
      * destruct Hcase as [[_ Hc]|[Hc _]]; [done|]. rewrite Hc in Hs3. right. by split.
    + intros e s3 [Hs3 ->]. by apply Hany.
  - intros e s2 [Hs2 [y ->]]. by apply Hany.
Qed.
(** A file migrated between two states, dated in between. *)
Definition migrated (dir : direction) (f : string) (t : Z) (s s' : mstate) : Prop :=
  exists l, t = transaction_time l /\ log s `prefix_of` l /\ (length (log s) < length l)%nat /\ l `prefix_of` log s' /\
    migrates dir f t (committed s) (committed s').
Lemma migrated_kept dir f t s s1 s2 : migrated dir f t s s1 -> kept s1 s2 -> migrated dir f t s s2.
Proof. intros (l & Ht & Hp & Hl & Hp1 & Hm) [Hc Hp2]. exists l. rewrite Hc. split_and!; try done. by transitivity (log s1). Qed.
Definition failed (dir : direction) (f : string) (s : mstate) (e : migration_exn) (s' : mstate) : Prop :=
  (exists t, migrated dir f t s s') /\ tells dir f e true \/ kept s s' /\ tells dir f e false.
Lemma with_session_post {A} (body : M A) s (Q : A -> mstate -> Prop) X :
  (forall a s1 s2, Q a s1 -> kept s1 s2 -> Q a s2) -> (forall e s1 s2, X e s1 -> kept s1 s2 -> X e s2) ->
  (forall a s1 y, Q a s1 -> X (Raised EClose y) s1) -> (forall e s1 y, X e s1 -> X (Raised EClose y) s1) ->
  post body s Q X -> post (with_session body) s Q X.
Proof.
  intros HQ HX HQX HXX Hbody. eapply attempt_post; [exact Hbody|..].
  - intros a s1 Hs1. apply ask_bind_post; [|intros y]; intros s2 Hs2; [by eapply HQ|]. eapply HX; [by apply (HQX a)|done].
  - intros e s1 Hs1. apply ask_bind_post; [|intros y]; intros s2 Hs2; [by eapply HX|]. eapply HX; [by apply (HXX e)|done].
Qed.
Lemma migrate_file_post dir f s : is_in f (committed s) = negb (expected_applied dir) ->
  post (migrate_file dir f) s (fun _ s' => exists t, migrated dir f t s s') (failed dir f s).
Proof.
  intros Hold. apply with_session_post.
  - intros _ s1 s2 [t Hm] Hk. exists t. by eapply migrated_kept.
  - intros e s1 s2 [[[t Hm] He]|[Hs He]] Hk; [left|right]; (split; [|done]); [exists t; by eapply migrated_kept|by eapply kept_trans].
  - intros _ s1 y Hm. by left.
  - intros e s1 y [[Hm _]|[Hs _]]; [left|right]; by split.
  - apply post_bind. unfold post at 1, ask. destruct (reply (log s) EBegin) as [x|].
    { right. split; [split; [done|by apply prefix_app_r]|done]. }
    set (s1 := mkRun (committed s) (log s ++ [EBegin])). assert (Hs1 : kept s s1) by (split; [done|by apply prefix_app_r]).
    apply post_bind. unfold post at 1. cbn. set (t := transaction_time (log s1)). apply post_bind.
    eapply post_conseq with (Q := fun d s2 => kept s1 s2 /\ migrates dir f t (committed s) d) (X := fun e s2 => kept s1 s2 /\ tells dir f e false).
    + eapply attempt_post; [apply (migrate_post dir f t (committed s))|..]; cbn.
      * by intros d s2 Hs2.
      * intros e s2 [Hs2 He]. apply ask_bind_post.
        -- intros s3 Hs3. split; [by eapply kept_trans|]. by destruct e as [| | | |[]|].
        -- intros x s3 Hs3. split; [by eapply kept_trans|done].
    + intros d s2 [Hs2 Hm]. pose proof (kept_trans _ _ _ Hs1 Hs2) as Hs. eapply post_conseq.
      * apply commit_migration_post; [by rewrite (proj1 Hs)|by eapply migrates_this].
      * intros _ s3 [Hc Hp]. exists t, (log s1). split_and!; try done; [apply Hs1|cbn; rewrite length_app; cbn; lia| |by rewrite Hc].
        transitivity (log s2); [apply Hs2|done].
      * intros e s3 [[[Hc Hp] He]|[[Hc Hp] He]]; [left|right]; (split; [|done]).
        -- exists t, (log s1). split_and!; try done; [apply Hs1|cbn; rewrite length_app; cbn; lia| |by rewrite Hc].
           transitivity (log s2); [apply Hs2|done].
        -- split; [by rewrite Hc, (proj1 Hs)|]. transitivity (log s2); [apply Hs|done].
    + intros e s2 [Hs2 He]. right. split; [by eapply kept_trans|done].
Qed.

(** Several files, one after the other. *)
Inductive runs (dir : direction) : list (string * Z) -> mstate -> mstate -> Prop :=
| runs_nil s s' : kept s s' -> runs dir [] s s'
| runs_cons f t rest s s1 s' : migrated dir f t s s1 -> runs dir rest s1 s' -> runs dir ((f, t) :: rest) s s'.
Lemma runs_kept dir fts s s1 s2 : runs dir fts s s1 -> kept s1 s2 -> runs dir fts s s2.
Proof. induction 1 as [s s' Hs|f t rest s s1 s' Hm _ IH]; intros Hk; [constructor; by eapply kept_trans|]. econstructor; [exact Hm|by apply IH]. Qed.
Definition stopped (dir : direction) (files : list string) (s : mstate) (e : migration_exn) (s' : mstate) : Prop :=
  exists done f rest fts, files = done ++ f :: rest /\ runs dir fts s s' /\
    (fts.*1 = done /\ tells dir f e false \/ fts.*1 = done ++ [f] /\ tells dir f e true).
Lemma migrated_is_in dir f t s s' g : migrated dir f t s s' -> g <> f -> is_in g (committed s') = is_in g (committed s).
Proof. intros (l & _ & _ & _ & _ & Hm) Hne. by eapply migrates_other. Qed.
Lemma migrate_files_post dir files : NoDup files -> forall s,
  Forall (fun f => is_in f (committed s) = negb (expected_applied dir)) files ->
  post (migrate_files dir files) s (fun l s' => l = files /\ exists fts, fts.*1 = files /\ runs dir fts s s') (stopped dir files s).
Proof.
  induction 1 as [|f files Hf _ IH]; intros s Hin; cbn [migrate_files].
  { split; [done|]. exists []. split; [done|]. constructor. apply kept_refl. }
  apply Forall_cons in Hin as [Hthis Hrest]. apply post_bind. eapply post_conseq; [by apply migrate_file_post|..].
  - intros _ s1 [t Hm]. apply post_bind. eapply post_conseq; [apply (IH s1)|..].
    + apply Forall_forall. rewrite Forall_forall in Hrest. intros g Hg. rewrite (migrated_is_in _ _ _ _ _ g Hm); [by apply Hrest|].
      by intros ->.
    + intros l s2 [-> (fts & Hfts & Hr)]. split; [done|]. exists ((f, t) :: fts). cbn. rewrite Hfts. split; [done|]. by econstructor.
    + intros e s2 (done & g & rest & fts & -> & Hr & Hcase). exists (f :: done), g, rest, ((f, t) :: fts). split_and!; [done|by econstructor|].
      destruct Hcase as [[<- ?]|[Hfts ?]]; [by left|right]. cbn. by rewrite Hfts.
  - intros e s1 [[[t Hm] He]|[Hs He]].
    + exists [], f, files, [(f, t)]. split_and!; [done| |by right]. econstructor; [exact Hm|constructor; apply kept_refl].
    + exists [], f, files, []. split_and!; [done|by constructor|by left].
Qed.
Lemma runs_up_history fts s s' : runs Up fts s s' -> history (committed s') = history (committed s) ++ fts.
Proof.
  induction 1 as [s s' Hs|f t rest s s1 s' (l & _ & _ & _ & _ & m & fn & _ & _ & _ & _ & Hh) _ IH].
  - rewrite app_nil_r. by rewrite (proj1 Hs).
  - by rewrite IH, Hh, <- app_assoc.
Qed.
Lemma unapplied_run fts s s' files rest : runs Up fts s s' -> NoDup files -> unapplied (committed s) files = fts.*1 ++ rest ->
  unapplied (committed s') files = rest.
Proof.
  intros Hr Hnd Hp. unfold unapplied, applied_names in *. rewrite (runs_up_history _ _ _ Hr), fmap_app.
  transitivity (filter (fun f => f ∉ fts.*1) (fts.*1 ++ rest)).
  - rewrite <- Hp, list_filter_filter. apply list_filter_iff. intros f. rewrite not_elem_of_app. tauto.
  - apply filter_past. rewrite <- Hp. by apply NoDup_filter.
Qed.
Definition plain (e : migration_exn) : Prop := match e with MigrationCommitOutcomeError _ _ => False | _ => True end.
Lemma reading_post {A} (body : M A) s (P : A -> Prop) :
  (forall s1, kept s s1 -> post body s1 (fun a s' => kept s s' /\ P a) (fun e s' => kept s s' /\ plain e)) ->
  post (with_session (in_transaction body)) s (fun a s' => kept s s' /\ P a) (fun e s' => kept s s' /\ plain e).
Proof.
  intros Hbody. apply with_session_post.
  - intros a s1 s2 [Hs1 Ha] Hk. split; [by eapply kept_trans|done].
  - intros e s1 s2 [Hs1 He] Hk. split; [by eapply kept_trans|done].
  - by intros a s1 y [Hs1 _].
  - by intros e s1 y [Hs1 _].
  - apply ask_bind_post; [|done]. intros s1 Hs1. eapply attempt_post; [by apply Hbody|..].
    + intros a s2 [Hs2 Ha]. apply ask_bind_post; [|intros; split; [by eapply kept_trans|done]].
      intros s3 Hs3. split; [by eapply kept_trans|done].
    + intros e s2 [Hs2 He]. apply ask_bind_post; [|intros; split; [by eapply kept_trans|done]].
      intros s3 Hs3. split; [by eapply kept_trans|done].
Qed.
Lemma read_database_post s s1 : kept s s1 ->
  post read_database s1 (fun d s' => kept s s' /\ d = committed s) (fun e s' => kept s s' /\ plain e).
Proof.
  intros Hs1. apply ask_bind_post; [|intros; split; [by eapply kept_trans|done]]. intros s2 Hs2.
  split; [by eapply kept_trans|]. by rewrite (proj1 Hs2), (proj1 Hs1).
Qed.
Lemma pending_post dir files s : _list_migration_files dir = Some files ->
  post (with_session (in_transaction (get_pending_migrations dir))) s
    (fun l s' => kept s s' /\ l = unapplied (committed s) files) (fun e s' => kept s s' /\ plain e).
Proof.
  intros Hfiles. apply reading_post. intros s1 Hs1. unfold get_pending_migrations. rewrite Hfiles.
  destruct files as [|f files]; [by split|]. apply post_bind. eapply post_conseq; [by apply read_database_post|..]; [|done].
  intros d s2 [Hs2 ->]. by split.
Qed.
Lemma migrated_after dir f t s s1 s2 : kept s s1 -> migrated dir f t s1 s2 -> migrated dir f t s s2.
Proof.
  intros [Hc Hp] (l & Ht & Hp1 & Hl & Hp2 & Hm). exists l. rewrite <- Hc. split_and!; try done; [by transitivity (log s1)|].
  apply prefix_length in Hp. lia.
Qed.
Lemma runs_after dir fts s s1 s2 : kept s s1 -> runs dir fts s1 s2 -> runs dir fts s s2.
Proof.
  intros Hk Hr. destruct Hr; [constructor; by eapply kept_trans|]. econstructor; [|done]. by eapply migrated_after.
Qed.
Lemma unapplied_out d files : Forall (fun f => is_in f d = false) (unapplied d files).
Proof. apply Forall_forall. intros f [Hf _]%list_elem_of_filter. by apply bool_decide_eq_false. Qed.

(** What an exception of [apply_pending_on_connection] reports is so. *)
Definition reported (e : migration_exn) (done rest : list string) : Prop :=
  match e with
  | MigrationCommitOutcomeError f (Some dir) => dir = Up /\ last done = Some f
  | MigrationCommitOutcomeError f None => last done = Some f \/ head rest = Some f
  | _ => True
  end.

Lemma apply_post dir files s : _list_migration_files dir = Some files -> NoDup files ->
  post (apply_pending_on_connection dir) s
    (fun l s' => l = unapplied (committed s) files /\ unapplied (committed s') files = [] /\ exists fts, fts.*1 = l /\ runs Up fts s s')
    (fun e s' => exists fts rest, unapplied (committed s) files = fts.*1 ++ rest /\ runs Up fts s s' /\
      unapplied (committed s') files = rest /\ reported e fts.*1 rest).
Proof.
  intros Hfiles Hnd.
  apply post_bind. eapply post_conseq; [by apply pending_post|..].
  - intros l s1 [Hk ->]. eapply post_conseq; [apply (migrate_files_post Up)|..].
    + by apply NoDup_filter.
    + rewrite <- (proj1 Hk). apply unapplied_out.
    + intros l s2 [-> (fts & Hfts & Hr%(runs_after _ _ _ _ _ Hk))]. split_and!; [done| |by exists fts].
      eapply unapplied_run; [exact Hr|done|]. by rewrite Hfts, app_nil_r.
    + intros e s2 (done & f & rest & fts & Hp & Hr%(runs_after _ _ _ _ _ Hk) & Hcase).
      destruct Hcase as [[Hd He]|[Hd He]]; [exists fts, (f :: rest)|exists fts, rest].
      * split_and!; [by rewrite Hd|done|eapply unapplied_run; [done..|by rewrite Hd]|].
        destruct e as [| | | | |g []]; try done; [by destruct He as (_ & _ & ?)|]. cbn in He. subst g. by right.
      * assert (Hp' : unapplied (committed s) files = fts.*1 ++ rest) by (by rewrite Hd, <- app_assoc).
        split_and!; [done|done|by eapply unapplied_run|]. rewrite Hd.
        destruct e as [| | | | |g []]; try done; cbn in He |- *; rewrite last_snoc; naive_solver.
  - intros e s1 [Hk He]. exists [], (unapplied (committed s) files). split_and!; [done|by constructor|by rewrite (proj1 Hk)|by destruct e].
Qed.

(** C16: migrations happen entirely or not at all, and in order.  Whatever
    fails between, and whether or not the server keeps what it did not
    acknowledge, [apply_pending_on_connection] leaves a database in which some
    first files of the pending ones have run, each with its effects and its
    history row together; on a return these are all of them and nothing is
    pending; after an exception the pending files are exactly the others, so
    that the next run starts where this one stopped; and what a
    [MigrationCommitOutcomeError] says of its file is so. *)
Theorem migrations_all_or_nothing dir files s (Hfiles : _list_migration_files dir = Some files) (Hnd : NoDup files) :
  match apply_pending_on_connection dir s with
  | (Ok l, s') => l = unapplied (committed s) files /\ unapplied (committed s') files = [] /\
      exists fts, fts.*1 = l /\ runs Up fts s s'
  | (Err e, s') => exists fts rest, unapplied (committed s) files = fts.*1 ++ rest /\ runs Up fts s s' /\
      unapplied (committed s') files = rest /\ reported e fts.*1 rest
  end.
Proof.
  exact (apply_post dir files s Hfiles Hnd).
Qed.

(** ** Down undoes up *)
Definition reversible : Prop := forall f m, load_module f = Ok m ->
  exists u dn, up m = Some u /\ down m = Some dn /\ forall w w', u w = Ok w' -> dn w' = Ok w.
(** The server's clock, over the events of this run. *)
Definition clock_moves : Prop := forall l1 l2, l1 `prefix_of` l2 -> (length l1 < length l2)%nat ->
  (transaction_time l1 < transaction_time l2)%Z.
Definition dated_after (t : Z) (fts : list (string * Z)) : Prop := Forall (fun r => (t < r.2)%Z) fts.

Lemma runs_log dir fts s s' : runs dir fts s s' -> log s `prefix_of` log s'.
Proof.
  induction 1 as [s s' [_ Hp]|f t rest s s1 s' (l & _ & Hp & _ & Hp2 & _) _ IH]; [done|].
  transitivity l; [done|]. by transitivity (log s1).
Qed.
Lemma runs_dates dir fts s s' : clock_moves -> runs dir fts s s' ->
  StronglySorted (fun a b => (a.2 < b.2)%Z) fts /\
  Forall (fun r => exists l, r.2 = transaction_time l /\ log s `prefix_of` l /\ (length (log s) < length l)%nat) fts.
Proof.
  intros Hclock. induction 1 as [s s' Hs|f t rest s s1 s' (l & -> & Hp & Hl & Hp1 & Hm) Hr [IHs IHd]]; [by repeat constructor|].
  assert (Hlater : Forall (fun r => exists l', r.2 = transaction_time l' /\ l `prefix_of` l' /\ (length l < length l')%nat) rest).
  { eapply Forall_impl; [exact IHd|]. intros r (l' & Ht & Hp' & Hl'). exists l'. apply prefix_length in Hp1 as Hle.
    split_and!; [done|by transitivity (log s1)|lia]. }
  split; constructor; try done; [| |].
  - eapply Forall_impl; [exact Hlater|]. intros r (l' & -> & Hp' & Hl'). by apply Hclock.
  - by exists l.
  - eapply Forall_impl; [exact Hlater|]. intros r (l' & Ht & Hp' & Hl'). exists l'. split_and!; [done|by transitivity l|lia].
Qed.
Lemma runs_snoc dir fts f t s s' : runs dir (fts ++ [(f, t)]) s s' -> exists s1, runs dir fts s s1 /\ migrated dir f t s1 s'.
Proof.
  revert s. induction fts as [|[g t'] fts IH]; intros s Hr; inversion_clear Hr as [|? ? ? ? s1 ? Hm Hrest].
  - inversion_clear Hrest as [? ? Hk|]. exists s. split; [constructor; apply kept_refl|by eapply migrated_kept].
  - destruct (IH s1 Hrest) as (s2 & Hr & Hm'). exists s2. split; [by econstructor|done].
Qed.
Lemma database_eq (d d' : database (W:=W)) : history d = history d' -> world d = world d' -> d = d'.
Proof. destruct d, d'; cbn. by intros -> ->. Qed.
Lemma undo_one f t t' s s1 s2 s3 : reversible -> migrated Up f t s s1 -> committed s2 = committed s1 -> migrated Down f t' s2 s3 ->
  committed s3 = committed s.
Proof.
  intros Hrev (_ & _ & _ & _ & _ & m & u & Hl & Hu & Hw & Hni & Hh) Hc (_ & _ & _ & _ & _ & m' & dn & Hl' & Hd & Hw' & Hh').
  rewrite Hl in Hl'. injection Hl' as <-. destruct (Hrev _ _ Hl) as (u' & dn' & Hu' & Hd' & Hinv). simplify_eq.
  rewrite Hc in Hw', Hh'. apply database_eq; [|by specialize (Hinv _ _ Hw); congruence].
  rewrite Hh', Hh, filter_app, filter_keeps, (filter_none (fun r => r.1 <> f)); [by rewrite app_nil_r|by repeat constructor; intros Hne|].
  apply Forall_forall. intros r Hr Heq. apply Hni. rewrite <- Heq. by apply list_elem_of_fmap_2.
Qed.
Lemma undo_run fts : reversible -> forall gts s s1 s2 s3, runs Up fts s s1 -> committed s2 = committed s1 -> runs Down gts s2 s3 ->
  gts.*1 = rev fts.*1 -> committed s3 = committed s.
Proof.
  intros Hrev. induction fts as [|[f t] fts IH] using rev_ind; intros gts s s1 s2 s3 Hup Hc Hdown Hg.
  - destruct gts; [|done]. inversion_clear Hup as [? ? [Hk _]|]. inversion_clear Hdown as [? ? [Hk' _]|]. congruence.
  - apply runs_snoc in Hup as (s0 & Hup & Hm). rewrite fmap_app, rev_app_distr in Hg. cbn in Hg.
    destruct gts as [|[g t'] gts]; [done|]. cbn in Hg. injection Hg as -> Hg.
    inversion_clear Hdown as [|? ? ? ? s4 ? Hm' Hdown']. eapply (IH gts s s0 s4); [done| |done|done]. by eapply undo_one.
Qed.
Lemma elem_of_rev_1 {A} (x : A) l : x ∈ rev l -> x ∈ l.
Proof. by rewrite <- Permutation_rev. Qed.
Lemma newer_first a b : (b.2 < a.2)%Z -> newest_first a b = true.
Proof. intros Hlt. unfold newest_first. by rewrite (proj2 (Z.ltb_lt _ _) Hlt). Qed.
Lemma newest_reversed fts : StronglySorted (fun a b => (a.2 < b.2)%Z) fts -> StronglySorted (fun a b => newest_first a b = true) (rev fts).
Proof.
  induction 1 as [|a fts _ IH Ha]; [constructor|]. cbn. apply StronglySorted_app_2; [|done|by repeat constructor].
  intros x y Hx ->%list_elem_of_singleton. rewrite Forall_forall in Ha. apply newer_first, Ha. by apply elem_of_rev_1.
Qed.
Lemma newest_run (h fts : list (string * Z)) : StronglySorted (fun a b => (a.2 < b.2)%Z) fts ->
  (forall a b, a ∈ h -> b ∈ fts -> (a.2 < b.2)%Z) -> py_sorted newest_first (h ++ fts) = rev fts ++ py_sorted newest_first h.
Proof.
  intros Hs Hh. apply (StronglySorted_unique_strong (fun a b => newest_first a b = true)).
  - intros x y _ _. apply newest_first_antisym.
  - apply py_sorted_sorted; [apply newest_first_total|apply newest_first_trans].
  - apply StronglySorted_app_2; [|by apply newest_reversed|apply py_sorted_sorted; [apply newest_first_total|apply newest_first_trans]].
    intros x y Hx Hy. apply newer_first, Hh; [by rewrite <- (py_sorted_perm newest_first h)|by apply elem_of_rev_1].
  - rewrite py_sorted_perm, (py_sorted_perm _ h), <- Permutation_rev. apply Permutation_app_comm.
Qed.

(** C17: reverting undoes applying.  If every file has a [down] that undoes its
    [up] and the server's clock moves on between transactions, then a run that
    applies the pending files followed by a run that reverts as many leaves the
    database as it was, history included, the files being reverted in the
    reverse of the order in which they were applied; acknowledgements of
    COMMITs lost on the way make no difference. *)
Theorem migrations_down_undo dir files s l s1 l' s2 (Hfiles : _list_migration_files dir = Some files) (Hnd : NoDup files)
  (Hrev : reversible) (Hclock : clock_moves)
  (Hpast : forall t r, log s `prefix_of` t -> r ∈ history (committed s) -> (r.2 < transaction_time t)%Z)
  (Hup : apply_pending_on_connection dir s = (Ok l, s1))
  (Hdown : revert_on_connection (Z.of_nat (length l)) s1 = (Ok l', s2)) :
  l' = rev l /\ committed s2 = committed s.
Proof.
  pose proof (apply_post dir files s Hfiles Hnd) as Hrun. apply (post_run _ _ _ _ _ _ Hrun) in Hup as (Hl & _ & fts & Hfts & Hr).
  pose proof (runs_up_history _ _ _ Hr) as Hh. destruct (runs_dates _ _ _ _ Hclock Hr) as [Hsort Hdates].
  assert (Hnew : take (length l) (py_sorted newest_first (history (committed s1))).*1 = rev l).
  { rewrite Hh, newest_run; [|done|].
    - rewrite fmap_app. assert ((rev fts).*1 = rev l) as -> by (rewrite <- Hfts; exact (map_rev fst fts)).
      rewrite <- (length_rev l). apply take_app_length.
    - intros a b Ha Hb. rewrite Forall_forall in Hdates. destruct (Hdates b Hb) as (t & -> & Hp & _). by apply Hpast. }
  unfold revert_on_connection in Hdown. destruct (Z.ltb_spec (Z.of_nat (length l)) 1) as [Hlt|Hge].
  - injection Hdown as <- <-. destruct l; [|cbn in Hlt; lia]. split; [done|].
    destruct fts; [|done]. by inversion_clear Hr as [? ? [? _]|].
  - sbind_ok Hdown as d s3 Hread.
    pose proof (reading_post read_database s1 (fun d => d = committed s1) (read_database_post s1)) as Hpost.
    apply (post_run _ _ _ _ _ _ Hpost) in Hread as [Hk ->]. rewrite Nat2Z.id, Hnew in Hdown.
    assert (Hfilesdown : post (migrate_files Down (rev l)) s3 (fun l' s2 => l' = rev l /\ exists gts, gts.*1 = rev l /\ runs Down gts s3 s2)
      (stopped Down (rev l) s3)).
    { apply migrate_files_post.
      - rewrite <- Permutation_rev, Hl. by apply NoDup_filter.
      - apply Forall_forall. intros f Hf%elem_of_rev_1. cbn. apply is_in_spec. rewrite (proj1 Hk).
        unfold applied_names. rewrite Hh, fmap_app, Hfts. set_solver. }
    apply (post_run _ _ _ _ _ _ Hfilesdown) in Hdown as [-> (gts & Hg & Hrd)]. split; [done|].
    eapply (undo_run fts Hrev gts s s1 s3 s2); [done|by rewrite (proj1 Hk)|done|by rewrite Hfts].
Qed.
End Proofs.

(** ** A run on a server that loses an acknowledgement *)
Definition demo_dir : option (list dir_entry) :=
  Some [mkEntry "10_posts.py" true; mkEntry "notes.txt" true; mkEntry "1_users.py" true; mkEntry "9_tags.py" true; mkEntry "__init__.py" true].
Example demo_listed : _list_migration_files demo_dir = Some ["1_users.py"; "9_tags.py"; "10_posts.py"].
Proof. reflexivity. Qed.
#[export] Instance demo_files : Files (W:=list string) := { load_module f :=
  Ok (mkModule (Some (fun w => Ok (f :: w)))
               (Some (fun w => match w with g :: w' => if String.eqb g f then Ok w' else Err "not the last" | [] => Err "empty" end))) }.
Definition is_commit (e : event) : bool := match e with ECommit => true | _ => false end.
(** The third COMMIT, of the second file, is durable and not acknowledged. *)
Definition lossy_session (broken : bool) : Session := {|
  reply log e := if is_commit e && Nat.eqb (length (filter (fun e => is_commit e = true) log)) 2 then Some "connection lost" else None;
  is_exception _ := true;
  durable _ := true;
  invalidated _ := broken;
  transaction_time log := Z.of_nat (length log);
|}.
Lemma lossy_laws broken : @SessionLaws (lossy_session broken).
Proof. by constructor. Qed.
Definition demo_start : run_state (W:=list string) := mkRun (mkDb [("0_init.py", -1)%Z] ["settings"]) [].
Lemma migrations_all_or_nothing_witness : exists s' : run_state (W:=list string),
  @apply_pending_on_connection _ demo_files (lossy_session true) demo_dir demo_start =
    (Err (MigrationCommitOutcomeError "9_tags.py" (Some Up)), s') /\
  unapplied (committed s') ["1_users.py"; "9_tags.py"; "10_posts.py"] = ["10_posts.py"] /\
  world (committed s') = ["9_tags.py"; "1_users.py"; "settings"].
Proof.
  pose proof (@migrations_all_or_nothing _ demo_files (lossy_session true) (lossy_laws true) demo_dir _ demo_start demo_listed
    ltac:(apply (bool_decide_unpack _); vm_compute; exact I)) as H.
  destruct (@apply_pending_on_connection _ demo_files (lossy_session true) demo_dir demo_start) as [r s'] eqn:Hrun.
  assert (Hr : r = Err (MigrationCommitOutcomeError "9_tags.py" (Some Up))) by (apply (f_equal fst) in Hrun; vm_compute in Hrun; by subst r).
  assert (Hw : world (committed s') = ["9_tags.py"; "1_users.py"; "settings"]) by (apply (f_equal snd) in Hrun; vm_compute in Hrun; by subst s').
  subst r. destruct H as (fts & rest & Hp & _ & Hrest & _ & Hlast). exists s'. split_and!; [done| |done]. rewrite Hrest.
  change (unapplied (committed demo_start) ["1_users.py"; "9_tags.py"; "10_posts.py"]) with ["1_users.py"; "9_tags.py"; "10_posts.py"] in Hp.
  revert Hp Hlast. generalize fts.*1. clear.
  intros [|a [|b [|c [|d l]]]]; cbn; intros Hp Hlast; by simplify_eq.
Defined.
Lemma demo_reversible : @reversible _ demo_files.
Proof.
  intros f m [= <-]. eexists _, _. split_and!; [done..|]. intros w w' [= <-]. by rewrite String.eqb_refl.
Qed.
Lemma migrations_down_undo_witness : exists s1 s2 : run_state (W:=list string),
  @apply_pending_on_connection _ demo_files (lossy_session false) demo_dir demo_start =
    (Ok ["1_users.py"; "9_tags.py"; "10_posts.py"], s1) /\
  @revert_on_connection _ demo_files (lossy_session false) 3 s1 = (Ok ["10_posts.py"; "9_tags.py"; "1_users.py"], s2) /\
  committed s2 = committed demo_start.
Proof.
  destruct (@apply_pending_on_connection _ demo_files (lossy_session false) demo_dir demo_start) as [r s1] eqn:Hup.
  destruct (@revert_on_connection _ demo_files (lossy_session false) 3 s1) as [r' s2] eqn:Hdown.
  assert (Hr : r = Ok ["1_users.py"; "9_tags.py"; "10_posts.py"]) by (apply (f_equal fst) in Hup; vm_compute in Hup; by subst r).
  assert (Hr' : exists l', r' = Ok l').
  { assert (Hs1 : s1 = (@apply_pending_on_connection _ demo_files (lossy_session false) demo_dir demo_start).2) by (by rewrite Hup).
    clear Hup. subst s1. apply (f_equal fst) in Hdown. vm_compute in Hdown. subst r'. by eexists. }
  destruct Hr' as [l' ->]. subst r.
  destruct (@migrations_down_undo _ demo_files (lossy_session false) (lossy_laws false) demo_dir _ demo_start
    ["1_users.py"; "9_tags.py"; "10_posts.py"] s1 l' s2 demo_listed
    ltac:(apply (bool_decide_unpack _); vm_compute; exact I) demo_reversible) as [-> Hc]; [..|exists s1, s2; split; [reflexivity|split; [exact Hdown|exact Hc]]].
  - intros l1 l2 _ Hl. cbn. lia.
  - intros t r _ ->%list_elem_of_singleton. cbn. lia.
  - exact Hup.
  - exact Hdown.
Defined.
