(* ===== verification/MigrationText.v ===== *)
(** * The text of generated migrations (ppbase/services/migration_generator.py)

    A migration carries a collection's definition as Python code.  The text
    that [_format_value] writes, a reader of Python's literals, and the theorem
    that the one reads what the other wrote. *)
From Stdlib Require Import Ascii String.
From Stdlib Require Import DecimalString DecimalPos DecimalZ.
From S2P Require Import Prelude PyText PyVal.
#[local] Open Scope string_scope.
#[local] Open Scope list_scope.

(** ** Names of files *)
Definition safe_char (c : ascii) : bool := is_ascii_alpha c || is_ascii_digit c || (code c =? 95)%N.
(** [_SAFE_NAME_RE.sub("_", name).lower()] *)
Fixpoint _safe_filename (name : string) : string :=
  match name with
  | EmptyString => ""
  | String c s => String (if safe_char c then lower_char c else "_"%char) (_safe_filename s)
  end.

(** ** [_format_value] *)
Fixpoint spaces (n : nat) : string := match n with O => "" | S n => String " " (spaces n) end.
Definition line : string := String newline "".
Section Text.
Context `{FloatText}.
(** Lines between an opening and a closing bracket. *)
Definition bracketed (opening closing : string) (current : nat) (items : list string) : string :=
  match items with
  | [] => opening +:+ closing
  | _ => opening +:+ line +:+ join line items +:+ line +:+ spaces current +:+ closing
  end.
Fixpoint _format_value (indent current : nat) (v : pyval) : string :=
  match v with
  | PNone => "None"
  | PBool b => if b then "True" else "False"
  | PStr s => py_repr_str s
  | PInt z => str_of_Z z
  | PFloat f => float_repr f
  | PList l => bracketed "[" "]" current
      ((fun item => spaces (current + indent) +:+ _format_value indent (current + indent) item +:+ ",") <$> l)
  | PDict d => bracketed "{" "}" current
      ((fun kv => spaces (current + indent) +:+ py_repr_str kv.1 +:+ ": " +:+ _format_value indent (current + indent) kv.2 +:+ ",") <$> d)
  end.
End Text.

(** ** Python's literals *)
Definition hex_value (c : ascii) : option N :=
  let n := code c in
  if (48 <=? n)%N && (n <=? 57)%N then Some (n - 48)%N
  else if (97 <=? n)%N && (n <=? 102)%N then Some (n - 87)%N
  else if (65 <=? n)%N && (n <=? 70)%N then Some (n - 55)%N else None.
(** The rest of a text in [quote], and what follows its end. *)
Fixpoint read_chars (quote : ascii) (s : string) : option (string * string) :=
  match s with
  | EmptyString => None
  | String c s1 =>
      if Ascii.eqb c quote then Some ("", s1)
      else if Ascii.eqb c newline then None
      else if Ascii.eqb c "\"%char then
        match s1 with
        | EmptyString => None
        | String e s2 =>
            let put (x : ascii) (s : string) := '(t, rest) ← read_chars quote s; Some (String x t, rest) in
            if Ascii.eqb e "n"%char then put newline s2
            else if Ascii.eqb e "r"%char then put (ascii_of_N 13) s2
            else if Ascii.eqb e "t"%char then put (ascii_of_N 9) s2
            else if Ascii.eqb e "x"%char then
              match s2 with
              | String h (String l s3) =>
                  match hex_value h, hex_value l with
                  | Some x, Some y => put (ascii_of_N (16 * x + y)) s3
                  | _, _ => None
                  end
              | _ => None
              end
            else if Ascii.eqb e "\"%char || Ascii.eqb e "'"%char || (code e =? 34)%N then put e s2
            else None
        end
      else '(t, rest) ← read_chars quote s1; Some (String c t, rest)
  end.
Definition is_blank (c : ascii) : bool := Ascii.eqb c " "%char || Ascii.eqb c newline.
Definition skip (s : string) : string := py_lstrip_chars is_blank s.
Definition number_char (c : ascii) : bool :=
  is_ascii_digit c || Ascii.eqb c "."%char || Ascii.eqb c "e"%char || Ascii.eqb c "+"%char || Ascii.eqb c "-"%char.
(** [float(text)] of a float literal. *)
Class FloatReader : Type := float_read : string -> option spec_float.
Definition is_float_text (s : string) : bool := contains_char "."%char s || contains_char "e"%char s.
Section Reader.
Context `{FloatReader}.
Definition read_number (s : string) : option (pyval * string) :=
  let '(n, rest) := span number_char s in
  if is_float_text n then f ← float_read n; Some (PFloat f, rest)
  else z ← NilZero.int_of_string n; Some (PInt (Z.of_int z), rest).
Definition read_atom (s : string) : option (pyval * string) :=
  match strip_prefix "None" s with
  | Some r => Some (PNone, r)
  | None =>
  match strip_prefix "True" s with
  | Some r => Some (PBool true, r)
  | None =>
  match strip_prefix "False" s with
  | Some r => Some (PBool false, r)
  | None =>
  match s with
  | String c r =>
      if Ascii.eqb c "'"%char || (code c =? 34)%N then '(t, r) ← read_chars c r; Some (PStr t, r) else read_number s
  | EmptyString => None
  end end end end.
Definition after_comma {A} (closing : ascii) (more : string -> option (list A * string)) (x : A) (s : string)
  : option (list A * string) :=
  match skip s with
  | String c r =>
      if Ascii.eqb c ","%char then '(l, r) ← more r; Some (x :: l, r)
      else if Ascii.eqb c closing then Some ([x], r) else None
  | EmptyString => None
  end.
(** Lists, and dictionaries, whose later entries of a key replace the earlier. *)
Fixpoint read_value (fuel : nat) (s : string) : option (pyval * string) :=
  match fuel with
  | O => None
  | S n =>
      match skip s with
      | String c r =>
          if Ascii.eqb c "["%char then '(l, r) ← read_items n r; Some (PList l, r)
          else if Ascii.eqb c "{"%char then
            '(d, r) ← read_entries n r; Some (PDict (fold_left (fun d kv => dict_set kv.1 kv.2 d) d []), r)
          else read_atom (String c r)
      | EmptyString => None
      end
  end
with read_items (fuel : nat) (s : string) : option (list pyval * string) :=
  match fuel with
  | O => None
  | S n =>
      match skip s with
      | String "]" r => Some ([], r)
      | s => '(v, r) ← read_value n s; after_comma "]" (read_items n) v r
      end
  end
with read_entries (fuel : nat) (s : string) : option (list (string * pyval) * string) :=
  match fuel with
  | O => None
  | S n =>
      match skip s with
      | String "}" r => Some ([], r)
      | s =>
          match read_value n s with
          | Some (PStr k, r) =>
              match skip r with
              | String ":" r => '(v, r) ← read_value n r; after_comma "}" (read_entries n) (k, v) r
              | _ => None
              end
          | _ => None
          end
      end
  end.
End Reader.

(** ** Reading what is written *)
Definition is_finite (f : spec_float) : bool := match f with S754_zero _ | S754_finite _ _ _ => true | _ => false end.
(** A value that a migration can carry: its floats are finite. *)
Fixpoint writable (v : pyval) : bool :=
  match v with
  | PFloat f => is_finite f
  | PList l => forallb writable l
  | PDict d => bool_decide (NoDup d.*1) && forallb (fun kv => writable kv.2) d
  | _ => true
  end.
Fixpoint weight (v : pyval) : nat :=
  match v with
  | PList l => S (S (fold_right (fun x n => S (weight x) + n) 0 l))
  | PDict d => S (S (fold_right (fun kv n => S (weight kv.2) + n) 0 d))
  | _ => 1
  end%nat.
(** [float(repr(f)) == f] of the finite floats. *)
Class FloatReaderLaws `{FloatText, FloatReader} : Prop :=
  float_reads f : is_finite f = true ->
    str_forall number_char (float_repr f) = true /\ is_float_text (float_repr f) = true /\ float_read (float_repr f) = Some f.

Section pyval_ind.
Context (P : pyval -> Prop) (Hnone : P PNone) (Hbool : forall b, P (PBool b)) (Hint : forall z, P (PInt z))
  (Hfloat : forall f, P (PFloat f)) (Hstr : forall s, P (PStr s)) (Hlist : forall l, Forall P l -> P (PList l))
  (Hdict : forall d, Forall (fun kv : string * pyval => P kv.2) d -> P (PDict d)).
Lemma pyval_induction : forall v, P v.
Proof.
  fix IH 1. intros [|b|z|f|s|l|d]; [exact Hnone|apply Hbool|apply Hint|apply Hfloat|apply Hstr|apply Hlist|apply Hdict].
  - induction l as [|x l IHl]; constructor; [apply IH|exact IHl].
  - induction d as [|[k x] d IHd]; constructor; [apply IH|exact IHd].
Qed.
End pyval_ind.

Lemma skip_spaces n s : skip (spaces n +:+ s) = skip s.
Proof. by induction n as [|n IH]. Qed.
Lemma skip_char c s : is_blank c = false -> skip (String c s) = String c s.
Proof. unfold skip. cbn. by intros ->. Qed.
Lemma skip_idem s : skip (skip s) = skip s.
Proof. unfold skip. induction s as [|c s IH]; [done|]. cbn. destruct (is_blank c) eqn:Hc; [done|]. cbn. by rewrite Hc. Qed.

(** Texts *)
Definition is_quote (c : ascii) : Prop := c = ascii_of_N 39 \/ c = ascii_of_N 34.
Lemma read_repr_char q c s : is_quote q ->
  read_chars q (repr_char q c +:+ s) = '(t, rest) ← read_chars q s; Some (String c t, rest).
Proof. intros [-> | ->]; destruct c as [[] [] [] [] [] [] [] []]; reflexivity. Qed.
Lemma read_repr_chars q s rest : is_quote q -> read_chars q (repr_chars q s +:+ String q rest) = Some (s, rest).
Proof.
  intros Hq. induction s as [|c s IH]; cbn [repr_chars].
  - cbn [append read_chars]. by rewrite Ascii.eqb_refl.
  - rewrite append_assoc, read_repr_char by done. by rewrite IH.
Qed.
Lemma repr_quote s : exists q, is_quote q /\ py_repr_str s = String q (repr_chars q s +:+ String q "").
Proof.
  unfold py_repr_str, is_quote. destruct (_ && _); eexists; (split; [by (left + right)|]); reflexivity.
Qed.

(** What may follow a value. *)
Definition ends (rest : string) : Prop := match rest with String c _ => number_char c = false | EmptyString => True end.
(** How a value may start. *)
Definition starts_value (c : ascii) : bool :=
  negb (is_blank c || Ascii.eqb c "]"%char || Ascii.eqb c "}"%char).

Section Roundtrip.
Context `{FloatReaderLaws}.
Lemma number_first c t : number_char c = true ->
  read_atom (String c t) = read_number (String c t) /\ starts_value c = true /\ Ascii.eqb c "["%char = false /\ Ascii.eqb c "{"%char = false.
Proof. destruct c as [[] [] [] [] [] [] [] []]; intros Hc; vm_compute in Hc; try discriminate Hc; by split_and!. Qed.
Lemma contains_not c s p : str_forall p s = true -> p c = false -> contains_char c s = false.
Proof.
  intros Hs Hp. induction s as [|a s IH]; [done|]. cbn in *. apply andb_true_iff in Hs as [Ha Hs]. rewrite (IH Hs).
  destruct (Ascii.eqb_spec a c) as [->|]; [congruence|done].
Qed.
Lemma int_reads z : NilZero.int_of_string (str_of_Z z) = Some (Z.to_int z).
Proof.
  unfold str_of_Z. destruct z as [|p|p]; [done|..]; apply NilZero.isi; try done; intros [= Hn]; by apply DecimalPos.Unsigned.to_uint_nonnil in Hn.
Qed.
Lemma int_text z : str_forall (fun c => is_ascii_digit c || Ascii.eqb c "-"%char) (str_of_Z z) = true /\ str_of_Z z <> "".
Proof.
  destruct (str_of_Z_numeral z) as (ds & Hds & Hne & Hcase & _).
  assert (Hd : str_forall (fun c => is_ascii_digit c || Ascii.eqb c "-"%char) ds = true).
  { eapply str_forall_impl; [|exact Hds]. intros c Hc. by rewrite Hc. }
  destruct Hcase as [-> | ->]; [done|]. split; [|done]. cbn. exact Hd.
Qed.
Lemma int_number_char c : is_ascii_digit c || Ascii.eqb c "-"%char = true -> number_char c = true.
Proof. unfold number_char. destruct (is_ascii_digit c); [done|]. cbn. intros ->. by rewrite orb_true_r. Qed.
Lemma read_int z rest : ends rest -> read_number (str_of_Z z +:+ rest) = Some (PInt z, rest).
Proof.
  intros Hr. destruct (int_text z) as [Ht _]. unfold read_number.
  rewrite (span_exact number_char); [|eapply str_forall_impl; [apply int_number_char|exact Ht]|done].
  assert (is_float_text (str_of_Z z) = false) as ->.
  { unfold is_float_text. by rewrite !(contains_not _ _ _ Ht). }
  rewrite int_reads. cbn. by rewrite DecimalZ.of_to.
Qed.
Lemma read_float f rest : is_finite f = true -> ends rest -> read_number (float_repr f +:+ rest) = Some (PFloat f, rest).
Proof.
  intros Hf Hr. destruct (float_reads f Hf) as (Ht & Hfl & Hrd). unfold read_number.
  rewrite (span_exact number_char) by done. by rewrite Hfl, Hrd.
Qed.

Abbreviation fmt := (_format_value).
Lemma read_skip n s : read_value n (skip s) = read_value n s.
Proof. destruct n as [|n]; [done|]. cbn [read_value]. by rewrite skip_idem. Qed.
(** An atom is read by [read_atom]. *)
Definition atom_reads (t : string) (v : pyval) : Prop := forall n rest, (1 <= n)%nat -> ends rest -> read_value n (t +:+ rest) = Some (v, rest).
Definition starts_ok (t : string) : Prop := exists c u, t = String c u /\ starts_value c = true.
Lemma number_atom t v : t <> "" -> str_forall number_char t = true -> (forall rest, ends rest -> read_number (t +:+ rest) = Some (v, rest)) ->
  starts_ok t /\ atom_reads t v.
Proof.
  intros Hne Ht Hv. destruct t as [|c t]; [done|]. cbn in Ht. apply andb_true_iff in Ht as [Hc Ht].
  destruct (number_first c t Hc) as (_ & Hst & Hb1 & Hb2). split; [by exists c, t|]. intros [|n] rest Hn Hr; [lia|].
  cbn [append read_value]. rewrite skip_char by (unfold starts_value in Hst; by destruct (is_blank c)).
  rewrite Hb1, Hb2, (proj1 (number_first c _ Hc)). by apply (Hv rest).
Qed.
Lemma text_atom s : starts_ok (py_repr_str s) /\ atom_reads (py_repr_str s) (PStr s).
Proof.
  destruct (repr_quote s) as (q & Hq & ->). split.
  - eexists _, _. split; [done|]. by destruct Hq as [-> | ->].
  - intros [|n] rest Hn Hr; [lia|]. rewrite append_cons, append_assoc. cbn [read_value append].
    assert (Hread : forall t, read_atom (String q t) = '(t, r) ← read_chars q t; Some (PStr t, r)) by (by destruct Hq as [-> | ->]).
    assert (Hstart : skip (String q (repr_chars q s +:+ String q rest)) = String q (repr_chars q s +:+ String q rest))
      by (apply skip_char; by destruct Hq as [-> | ->]).
    rewrite Hstart, Hread, read_repr_chars by done. by destruct Hq as [-> | ->].
Qed.
Lemma word_atom t v : t = "None" /\ v = PNone \/ t = "True" /\ v = PBool true \/ t = "False" /\ v = PBool false ->
  starts_ok t /\ atom_reads t v.
Proof.
  intros [[-> ->]|[[-> ->]|[-> ->]]]; (split; [by eexists _, _|]); intros [|n] rest Hn Hr; [lia|done|lia|done|lia|done].
Qed.

(** Blanks before a value do not matter. *)
Lemma read_value_blank n s s' : skip s = skip s' -> read_value n s = read_value n s'.
Proof. destruct n; [done|]. cbn [read_value]. by intros ->. Qed.
Lemma read_items_blank n s s' : skip s = skip s' -> read_items n s = read_items n s'.
Proof. destruct n; [done|]. cbn [read_items]. by intros ->. Qed.
Lemma read_entries_blank n s s' : skip s = skip s' -> read_entries n s = read_entries n s'.
Proof. destruct n; [done|]. cbn [read_entries]. by intros ->. Qed.
Lemma read_items_step n s c u : skip s = String c u -> starts_value c = true ->
  read_items (S n) s = '(v, r) ← read_value n (String c u); after_comma "]" (read_items n) v r.
Proof. intros Hs Hc. cbn [read_items]. rewrite Hs. destruct c as [[] [] [] [] [] [] [] []]; vm_compute in Hc; by try discriminate Hc. Qed.
Lemma read_entries_step n s c u : skip s = String c u -> starts_value c = true ->
  read_entries (S n) s =
    match read_value n (String c u) with
    | Some (PStr k, r) =>
        match skip r with
        | String ":" r => '(v, r) ← read_value n r; after_comma "}" (read_entries n) (k, v) r
        | _ => None
        end
    | _ => None
    end.
Proof. intros Hs Hc. cbn [read_entries]. rewrite Hs. destruct c as [[] [] [] [] [] [] [] []]; vm_compute in Hc; by try discriminate Hc. Qed.

(** A value is written so that it reads. *)
Definition reads (v : pyval) : Prop := forall indent current, starts_ok (fmt indent current v) /\
  forall n rest, (weight v <= n)%nat -> ends rest -> read_value n (fmt indent current v +:+ rest) = Some (v, rest).
Lemma atom_reads_value v t : weight v = 1%nat -> (forall indent current, fmt indent current v = t) ->
  starts_ok t /\ atom_reads t v -> reads v.
Proof. intros Hw Ht [Hs Hr] indent current. rewrite Ht. split; [done|]. intros n rest Hn. apply Hr. lia. Qed.

Fixpoint lines (items : list string) : string := match items with [] => "" | x :: l => x +:+ line +:+ lines l end.
Lemma join_lines x l : join line (x :: l) +:+ line = lines (x :: l).
Proof.
  revert x. induction l as [|y l IH]; intros x; [cbn; by rewrite ?append_nil_r|].
  change (join line (x :: y :: l)) with (x +:+ line +:+ join line (y :: l)). rewrite !append_assoc, IH. done.
Qed.
Lemma bracketed_lines o c current x l : bracketed o c current (x :: l) = o +:+ line +:+ lines (x :: l) +:+ spaces current +:+ c.
Proof. unfold bracketed. rewrite <- (join_lines x l). by rewrite !append_assoc. Qed.

Definition item_text (indent current : nat) (v : pyval) : string := spaces (current + indent) +:+ fmt indent (current + indent) v +:+ ",".
Lemma started t rest : starts_ok t -> skip (t +:+ rest) = t +:+ rest /\ exists c u, t +:+ rest = String c u /\ starts_value c = true.
Proof.
  intros (c & u & -> & Hc). split; [|by eexists _, _]. apply skip_char. unfold starts_value in Hc. by destruct (is_blank c).
Qed.
Lemma read_items_ok indent current l : Forall reads l -> forall n k rest,
  (S (fold_right (fun x n => S (weight x) + n) 0 l) <= n)%nat ->
  read_items n (lines (item_text indent current <$> l) +:+ spaces k +:+ "]" +:+ rest) = Some (l, rest).
Proof.
  induction 1 as [|v l Hv _ IH]; intros n k rest Hn; (destruct n as [|n]; [lia|]).
  - cbn [lines fmap list_fmap append read_items]. by rewrite skip_spaces.
  - cbn [fold_right fmap list_fmap lines] in *. destruct (Hv indent (current + indent)%nat) as [Hst Hread].
    unfold item_text at 1. rewrite !append_assoc. destruct (started _ ("," +:+ line +:+ lines (item_text indent current <$> l) +:+ spaces k +:+ "]" +:+ rest) Hst)
      as [Hsk (c & u & Heq & Hc)].
    rewrite (read_items_step _ _ c u); [|by rewrite skip_spaces, Hsk|done]. rewrite <- Heq, Hread; [|lia|done].
    cbn [mbind option_bind]. unfold after_comma. cbn -[read_items lines spaces].
    rewrite (read_items_blank _ _ (lines (item_text indent current <$> l) +:+ spaces k +:+ "]" +:+ rest)) by done.
    by rewrite IH by lia.
Qed.
Definition entry_text (indent current : nat) (kv : string * pyval) : string :=
  spaces (current + indent) +:+ py_repr_str kv.1 +:+ ": " +:+ fmt indent (current + indent) kv.2 +:+ ",".
Lemma read_entries_ok indent current d : Forall (fun kv => reads kv.2) d -> forall n k rest,
  (S (fold_right (fun kv n => S (weight kv.2) + n) 0 d) <= n)%nat ->
  read_entries n (lines (entry_text indent current <$> d) +:+ spaces k +:+ "}" +:+ rest) = Some (d, rest).
Proof.
  induction 1 as [|[key v] d Hv _ IH]; intros n k rest Hn; (destruct n as [|n]; [lia|]).
  - cbn [lines fmap list_fmap append read_entries]. by rewrite skip_spaces.
  - cbn [fold_right fmap list_fmap lines snd] in *. destruct (Hv indent (current + indent)%nat) as [_ Hread].
    destruct (text_atom key) as [Hst Hkey]. unfold entry_text at 1. cbn [fst snd]. rewrite !append_assoc.
    set (more := lines (entry_text indent current <$> d) +:+ spaces k +:+ "}" +:+ rest).
    destruct (started _ (": " +:+ fmt indent (current + indent) v +:+ "," +:+ line +:+ more) Hst) as [Hsk (c & u & Heq & Hc)].
    assert (Hw : (1 <= weight v)%nat) by (destruct v; cbn; lia).
    rewrite (read_entries_step _ _ c u); [|by rewrite skip_spaces, Hsk|done]. rewrite <- Heq, Hkey; [|lia|done].
    cbn [append skip py_lstrip_chars is_blank]. cbn -[read_value read_entries fmt more line].
    rewrite (read_value_blank _ _ (fmt indent (current + indent) v +:+ "," +:+ line +:+ more)) by done.
    rewrite Hread; [|lia|done]. cbn [mbind option_bind]. unfold after_comma. cbn -[read_entries more].
    rewrite (read_entries_blank _ _ more) by done. unfold more. by rewrite IH by lia.
Qed.
Lemma dict_of_entries (d : list (string * pyval)) : forall d0, NoDup (d0.*1 ++ d.*1) ->
  fold_left (fun d kv => dict_set kv.1 kv.2 d) d d0 = d0 ++ d.
Proof.
  induction d as [|[k v] d IH]; intros d0 Hn; cbn [fold_left]; [by rewrite app_nil_r|].
  assert (Hni : k ∉ d0.*1) by (apply NoDup_app in Hn as (_ & Hn & _); intros Hin; apply (Hn _ Hin); left).
  cbn [fst snd]. rewrite (dict_set_new _ _ _ Hni), IH; [by rewrite <- app_assoc|]. by rewrite fmap_app, <- app_assoc.
Qed.
Lemma bracket_start o c current items : o = "[" \/ o = "{" -> starts_ok (bracketed o c current items).
Proof. destruct items; intros [-> | ->]; by eexists _, _. Qed.
Lemma format_reads v : writable v = true -> reads v.
Proof.
  induction v as [|b|z|f|s|l IH|d IH] using pyval_induction; intros Hw; cbn [writable] in Hw.
  - apply (atom_reads_value _ "None"); [done..|]. apply word_atom. by left.
  - apply (atom_reads_value _ (if b then "True" else "False")); [done..|]. apply word_atom. right. destruct b; [by left|by right].
  - apply (atom_reads_value _ (str_of_Z z)); [done..|]. destruct (int_text z) as [Ht Hne]. apply number_atom; [done| |by intros; apply read_int].
    eapply str_forall_impl; [apply int_number_char|exact Ht].
  - apply (atom_reads_value _ (float_repr f)); [done..|]. destruct (float_reads f Hw) as (Ht & Hfl & _).
    apply number_atom; [by intros Heq; rewrite Heq in Hfl|done|by intros; apply read_float].
  - apply (atom_reads_value _ (py_repr_str s)); [done..|]. apply text_atom.
  - intros indent current. cbn [_format_value]. split; [apply bracket_start; by left|]. intros n rest Hn Hr.
    destruct n as [|n]; [cbn in Hn; lia|]. assert (Hl : Forall reads l).
    { apply Forall_forall. intros x Hx. rewrite Forall_forall in IH. apply IH; [done|]. rewrite forallb_forall in Hw.
      by apply Hw, list_elem_of_In. }
    destruct l as [|x l]; [destruct n; [cbn in Hn; lia|]; done|].
    change (bracketed _ _ _ _) with (bracketed "[" "]" current (item_text indent current x :: (item_text indent current <$> l))).
    rewrite bracketed_lines, !append_assoc. change (item_text indent current x :: _) with (item_text indent current <$> (x :: l)).
    cbn [append read_value]. rewrite skip_char by done. cbn -[read_items lines fmap].
    rewrite (read_items_blank _ _ (lines (item_text indent current <$> (x :: l)) +:+ spaces current +:+ "]" +:+ rest)) by done.
    rewrite read_items_ok; [done|done|]. cbn [weight] in Hn. lia.
  - apply andb_true_iff in Hw as [Hnd%bool_decide_eq_true Hw]. intros indent current. cbn [_format_value].
    split; [apply bracket_start; by right|]. intros n rest Hn Hr.
    destruct n as [|n]; [cbn in Hn; lia|]. assert (Hd : Forall (fun kv => reads kv.2) d).
    { apply Forall_forall. intros x Hx. rewrite Forall_forall in IH. apply IH; [done|]. rewrite forallb_forall in Hw.
      by apply Hw, list_elem_of_In. }
    destruct d as [|x d]; [destruct n; [cbn in Hn; lia|]; done|].
    change (bracketed _ _ _ _) with (bracketed "{" "}" current (entry_text indent current x :: (entry_text indent current <$> d))).
    rewrite bracketed_lines, !append_assoc. change (entry_text indent current x :: _) with (entry_text indent current <$> (x :: d)).
    cbn [append read_value]. rewrite skip_char by done. cbn -[read_entries lines fmap fold_left].
    rewrite (read_entries_blank _ _ (lines (entry_text indent current <$> (x :: d)) +:+ spaces current +:+ "}" +:+ rest)) by done.
    rewrite read_entries_ok; [|done|cbn [weight] in Hn; lia]. cbn [mbind option_bind]. by rewrite dict_of_entries.
Qed.

(** C1: what a generated migration says of a collection is what Python reads
    there.  For every value whose floats are finite and whose dictionaries have
    distinct keys, the text that [_format_value] writes, at any indentation and
    before anything that cannot continue a number, is read back as that value
    and leaves what follows. *)
Theorem format_value_reads indent current v rest (Hv : writable v = true) (Hr : ends rest) :
  read_value (weight v) (fmt indent current v +:+ rest) = Some (v, rest).
Proof. by apply (format_reads v Hv indent current). Qed.
End Roundtrip.

(** ** A writer and a reader of floats, for the examples *)
Definition demo_float_text : FloatText := fun f =>
  match f with
  | S754_zero s => if s then "0e1" else "0e0"
  | S754_finite s m e => str_of_Z (if s then Zneg m else Zpos m) +:+ "e" +:+ str_of_Z e
  | S754_infinity s => if s then "-inf" else "inf"
  | S754_nan => "nan"
  end.
Definition int_char (c : ascii) : bool := is_ascii_digit c || Ascii.eqb c "-"%char.
Definition demo_float_reader : FloatReader := fun s =>
  let '(m, rest) := span int_char s in
  m ← Z.of_int <$> NilZero.int_of_string m;
  e ← strip_prefix "e" rest;
  e ← Z.of_int <$> NilZero.int_of_string e;
  Some (match m with
        | Z0 => S754_zero (negb (Z.eqb e 0))
        | Zpos m => S754_finite false m e
        | Zneg m => S754_finite true m e
        end).
Lemma demo_reader_laws : @FloatReaderLaws demo_float_text demo_float_reader.
Proof.
  intros [s|s| |s m e] Hf; try discriminate; [by destruct s|]. set (z := if s then Zneg m else Zpos m).
  change (@float_repr demo_float_text (S754_finite s m e)) with (str_of_Z z +:+ "e" +:+ str_of_Z e).
  destruct (int_text z) as [Hz _], (int_text e) as [He _]. split_and!.
  - rewrite !str_forall_app. cbn [str_forall]. rewrite (str_forall_impl _ _ _ int_number_char Hz), (str_forall_impl _ _ _ int_number_char He). done.
  - unfold is_float_text. apply orb_true_iff. right. apply contains_char_app.
  - unfold float_read, demo_float_reader. rewrite (span_exact int_char) by done. rewrite int_reads. cbn -[str_of_Z].
    rewrite int_reads. cbn. rewrite !DecimalZ.of_to. by destruct s.
Qed.

Definition demo_value : pyval :=
  PDict [("name", PStr "it's a 'name'"); ("max", PFloat (S754_finite true 3 (-1))); ("min", PInt (-2)); ("none", PNone);
         ("values", PList [PStr (dq +:+ line); PBool true; PList []; PDict []])].
Lemma format_value_reads_witness :
  writable demo_value = true /\
  @read_value demo_float_reader (weight demo_value) (@_format_value demo_float_text 4 4 demo_value +:+ line) = Some (demo_value, line).
Proof.
  split; [reflexivity|].
  exact (@format_value_reads demo_float_text demo_float_reader demo_reader_laws 4%nat 4%nat demo_value line eq_refl eq_refl).
Defined.
(** A float that is not finite is written as a name. *)
Example format_value_nan : @_format_value demo_float_text 4 4 (PFloat S754_nan) = "nan" /\
  @read_value demo_float_reader 9 "nan" = None.
Proof. done. Qed.
