(* ===== verification/MigrationGen.v ===== *)
(** * Generated migrations (ppbase/services/migration_generator.py and
      [MigrationApp] of migration_runner.py)

    The definition of a collection without its secrets, the changes between
    two definitions, the files that carry them, and what [MigrationApp] does
    with the changes. *)
From Stdlib Require Import Ascii String.
From S2P Require Import Prelude PyText PyVal MigrationText.
From S2P Require StorageSafety.
#[local] Open Scope string_scope.
#[local] Open Scope list_scope.

Abbreviation json_dict := (list (string * pyval)).

(** ** Definitions without secrets *)
Definition _AUTH_TOKEN_OPTION_KEYS : list string :=
  ["authToken"; "passwordResetToken"; "verificationToken"; "emailChangeToken"; "fileToken"].
Definition _OAUTH_CREDENTIAL_KEYS : list string := ["clientId"; "clientSecret"; "client_id"; "client_secret"].
Fixpoint _strip_oauth_credentials (v : pyval) : pyval :=
  match v with
  | PDict d => PDict ((fix go d := match d with
                                   | [] => []
                                   | (k, x) :: d' => if bool_decide (k ∈ _OAUTH_CREDENTIAL_KEYS) then go d'
                                                     else (k, _strip_oauth_credentials x) :: go d'
                                   end) d)
  | PList l => PList (_strip_oauth_credentials <$> l)
  | _ => v
  end.
Definition without_secret (options : json_dict) (option_name : string) : json_dict :=
  match dict_get option_name options with
  | Some (PDict token_options) => dict_set option_name (PDict (dict_del "secret" token_options)) options
  | _ => options
  end.
Definition _sanitize_auth_options (options : json_dict) : json_dict :=
  let sanitized := fold_left without_secret _AUTH_TOKEN_OPTION_KEYS options in
  match dict_get "oauth2" sanitized with
  | None | Some PNone => sanitized
  | Some oauth_options => dict_set "oauth2" (_strip_oauth_credentials oauth_options) sanitized
  end.
Definition _sanitize_collection_definition (definition : json_dict) : json_dict :=
  match dict_get "options" definition with
  | Some (PDict options) => dict_set "options" (PDict (_sanitize_auth_options options)) definition
  | _ => definition
  end.

(** A row of [_collections], whose attributes hold what they were given. *)
Record CollectionRecord : Type := mkRecord {
  c_id : pyval;
  c_name : pyval;
  c_type : pyval;
  c_system : pyval;
  c_schema : pyval;
  c_indexes : pyval;
  list_rule : pyval;
  view_rule : pyval;
  create_rule : pyval;
  update_rule : pyval;
  delete_rule : pyval;
  c_options : pyval;
}.
Definition list_or_empty (v : pyval) : list pyval := match v with PList l => l | _ => [] end.
Definition dict_or_empty (v : pyval) : json_dict := match v with PDict d => d | _ => [] end.
Definition definition_of (r : CollectionRecord) : json_dict :=
  [("id", c_id r); ("name", c_name r); ("type", c_type r); ("system", c_system r);
   ("schema", PList (list_or_empty (c_schema r))); ("indexes", PList (list_or_empty (c_indexes r)));
   ("listRule", list_rule r); ("viewRule", view_rule r); ("createRule", create_rule r);
   ("updateRule", update_rule r); ("deleteRule", delete_rule r);
   ("options", PDict (dict_or_empty (c_options r)))].
Definition _serialize_collection (r : CollectionRecord) : json_dict := _sanitize_collection_definition (definition_of r).

(** ** The difference of two definitions *)
Definition field_key (field : json_dict) : pyval :=
  let id := default PNone (dict_get "id" field) in
  if truthy id then id else default (PStr "") (dict_get "name" field).
(** [IdNotText] stands for what follows from an identifier that is not text,
    which the definition of a field never has. *)
Inductive gen_exn : Type :=
| GenTypeError | GenAttributeError | GenKeyError | IdNotText | InvalidId (e : StorageSafety.StorageSafetyError).
Definition _fields_by_id (schema : list pyval) : result gen_exn (list (string * pyval)) :=
  fold_result (fun d field =>
    match field with
    | PDict f =>
        match field_key f with
        | PStr k => Ok (if String.eqb k "" then d else dict_set k field d)
        | k => if truthy k then Err IdNotText else Ok d
        end
    | _ => Err GenAttributeError
    end) schema [].
Record schema_diff : Type := mkDiff { added : list pyval; removed : list pyval; changed : list (pyval * pyval) }.
Definition at_key (d : list (string * pyval)) (k : string) : pyval := default PNone (dict_get k d).
Definition _compute_schema_diff (old_schema new_schema : list pyval) : result gen_exn schema_diff :=
  old_by_id ← _fields_by_id old_schema;
  new_by_id ← _fields_by_id new_schema;
  let old_only := filter (fun k => dict_mem k new_by_id = false) old_by_id.*1 in
  let new_only := filter (fun k => dict_mem k old_by_id = false) new_by_id.*1 in
  let both := filter (fun k => dict_mem k new_by_id = true) old_by_id.*1 in
  Ok (mkDiff (at_key new_by_id <$> py_sorted str_leb new_only) (at_key old_by_id <$> py_sorted str_leb old_only)
       (filter (fun p => py_eqb p.1 p.2 = false) ((fun k => (at_key old_by_id k, at_key new_by_id k)) <$> py_sorted str_leb both))).
Definition compare_keys : list string :=
  ["name"; "type"; "system"; "indexes"; "options"; "listRule"; "viewRule"; "createRule"; "updateRule"; "deleteRule"].
Definition _compute_collection_diff (old_snapshot new_snapshot : json_dict) : list (string * (pyval * pyval)) :=
  omap (fun key => let old_val := at_key old_snapshot key in let new_val := at_key new_snapshot key in
                   if py_eqb old_val new_val then None else Some (key, (old_val, new_val))) compare_keys.
(** The changes that [up] and [down] of an update apply. *)
Definition update_changes (old_dict new_dict : json_dict) : result gen_exn (json_dict * json_dict) :=
  let collection_changes := _compute_collection_diff old_dict new_dict in
  let old_schema := default (PList []) (dict_get "schema" old_dict) in
  let new_schema := default (PList []) (dict_get "schema" new_dict) in
  diff ← _compute_schema_diff (list_or_empty old_schema) (list_or_empty new_schema);
  let forward := (fun c : string * (pyval * pyval) => (c.1, c.2.2)) <$> collection_changes in
  let reverse := (fun c : string * (pyval * pyval) => (c.1, c.2.1)) <$> collection_changes in
  let schema_changed := match added diff, removed diff, changed diff with [], [], [] => false | _, _, _ => true end in
  Ok (if schema_changed then (dict_set "schema" new_schema forward, dict_set "schema" old_schema reverse) else (forward, reverse)).

(** ** Merging options *)
Definition merge_entries (merge : pyval -> option pyval -> pyval) : json_dict -> json_dict -> json_dict :=
  fix go override base :=
    match override with
    | [] => base
    | (key, value) :: rest => go rest (dict_set key (merge value (dict_get key base)) base)
    end.
Fixpoint merge_value (value : pyval) (current : option pyval) {struct value} : pyval :=
  match value, current with
  | PDict override, Some (PDict base) => PDict (merge_entries merge_value override base)
  | _, _ => value
  end.
Definition _deep_merge_dicts (base override : json_dict) : json_dict := merge_entries merge_value override base.

(** [provider.get("name")] *)
Definition provider_name (provider : json_dict) : pyval := default PNone (dict_get "name" provider).
(** [current_by_name.get(name, {})]: the last provider of that name. *)
Definition provider_named (providers : list json_dict) (n : pyval) : result gen_exn json_dict :=
  if hashable n
  then Ok (default [] (last (filter (fun p => py_eqb (provider_name p) n = true) providers)))
  else Err GenTypeError.
Definition named_providers (v : pyval) : result gen_exn (list json_dict) :=
  match v with
  | PList l =>
      let dicts := omap (fun p => match p with PDict d => Some d | _ => None end) l in
      let named := filter (fun d => truthy (provider_name d) = true) dicts in
      if forallb (fun d => hashable (provider_name d)) named then Ok named else Err GenTypeError
  | PDict _ | PStr _ => Ok []
  | _ => Err GenTypeError
  end.
Definition merge_provider (current : list json_dict) (provider : pyval) : result gen_exn pyval :=
  match provider with
  | PDict d => p ← provider_named current (provider_name d); Ok (PDict (_deep_merge_dicts p d))
  | v => Ok v
  end.
Definition _merge_auth_options (defaults existing incoming : json_dict) : result gen_exn json_dict :=
  let merged := _deep_merge_dicts defaults existing in
  match dict_get "oauth2" incoming with
  | Some (PDict incoming_oauth) =>
      match dict_get "providers" incoming_oauth with
      | Some (PList incoming_providers) =>
          current ← match dict_get "oauth2" merged with
                    | Some (PDict o) => named_providers (default (PList []) (dict_get "providers" o))
                    | _ => Ok []
                    end;
          providers ← map_result (merge_provider current) incoming_providers;
          let incoming_copy := dict_set "oauth2" (PDict (dict_del "providers" incoming_oauth)) incoming in
          let merged := _deep_merge_dicts merged incoming_copy in
          let merged_oauth := dict_or_empty (default PNone (dict_get "oauth2" merged)) in
          Ok (dict_set "oauth2" (PDict (dict_set "providers" (PList providers) merged_oauth)) merged)
      | _ => Ok (_deep_merge_dicts merged incoming)
      end
  | _ => Ok (_deep_merge_dicts merged incoming)
  end.

(** [generate_default_auth_options], its secrets drawn by [generate_token_key]. *)
Definition generate_default_auth_options (token_key : nat -> string) (is_superusers : bool) : json_dict :=
  let token (n : nat) (duration : Z) := PDict [("secret", PStr (token_key n)); ("duration", PInt duration)] in
  [("authToken", token 0%nat (if is_superusers then 86400 else 604800)); ("passwordResetToken", token 1%nat 1800);
   ("verificationToken", token 2%nat 259200); ("emailChangeToken", token 3%nat 1800); ("fileToken", token 4%nat 180);
   ("passwordAuth", PDict [("enabled", PBool true); ("identityFields", PList [PStr "email"])]);
   ("oauth2", PDict [("enabled", PBool false); ("providers", PList []); ("mappedFields", PDict [])]);
   ("mfa", PDict [("enabled", PBool false); ("duration", PInt 1800)]);
   ("otp", PDict [("enabled", PBool false); ("duration", PInt 180); ("length", PInt 8)]);
   ("authRule", PStr ""); ("manageRule", PNone)]%Z.

(** ** [MigrationApp.update_collection]: the record *)
Section Apply.
Context (token_key : nat -> string).
Definition is_auth (type : pyval) : bool := py_eqb type (PStr "auth").
Definition changed_attr (changes : json_dict) (key : string) (current : pyval) : pyval := default current (dict_get key changes).
Definition changed_options (old_type name type options : pyval) (changes : json_dict) : result gen_exn pyval :=
  let defaults := generate_default_auth_options token_key (py_eqb name (PStr "_superusers")) in
  match dict_get "options" changes with
  | Some incoming =>
      if is_auth type then PDict <$> _merge_auth_options defaults (dict_or_empty options) (dict_or_empty incoming)
      else Ok (PDict (dict_or_empty incoming))
  | None =>
      if is_auth type && negb (is_auth old_type) then PDict <$> _merge_auth_options defaults (dict_or_empty options) []
      else Ok options
  end.
Definition apply_changes (r : CollectionRecord) (changes : json_dict) : result gen_exn CollectionRecord :=
  let attr := changed_attr changes in
  let name := attr "name" (c_name r) in
  let type := attr "type" (c_type r) in
  options ← changed_options (c_type r) name type (c_options r) changes;
  Ok (mkRecord (c_id r) name type (attr "system" (c_system r)) (attr "schema" (c_schema r)) (attr "indexes" (c_indexes r))
        (attr "listRule" (list_rule r)) (attr "viewRule" (view_rule r)) (attr "createRule" (create_rule r))
        (attr "updateRule" (update_rule r)) (attr "deleteRule" (delete_rule r)) options).
(** [MigrationApp.create_collection]: the record; [generated_id] is what
    [generate_id] draws. *)
Definition created_collection (generated_id : string) (definition : json_dict) : result gen_exn CollectionRecord :=
  let type := default (PStr "base") (dict_get "type" definition) in
  let options := dict_or_empty (default (PDict []) (dict_get "options" definition)) in
  options ← (if is_auth type
             then _merge_auth_options (generate_default_auth_options token_key (py_eqb (default PNone (dict_get "name" definition)) (PStr "_superusers")))
                    [] options
             else Ok options);
  let raw_id := default PNone (dict_get "id" definition) in
  id ← (if py_eqb raw_id PNone || py_eqb raw_id (PStr "") then Ok generated_id
        else match StorageSafety.validate_collection_id raw_id with Ok id => Ok id | Err e => Err (InvalidId e) end);
  name ← match dict_get "name" definition with Some name => Ok name | None => Err GenKeyError end;
  let attr (key : string) (missing : pyval) := default missing (dict_get key definition) in
  Ok (mkRecord (PStr id) name type (attr "system" (PBool false)) (attr "schema" (PList [])) (attr "indexes" (PList []))
        (attr "listRule" PNone) (attr "viewRule" PNone) (attr "createRule" PNone) (attr "updateRule" PNone) (attr "deleteRule" PNone)
        (PDict options)).
Definition physical_schema_changed (old new : CollectionRecord) : bool :=
  let differ (a b : pyval) := negb (py_eqb a b) in
  differ (c_name old) (c_name new) || differ (c_type old) (c_type new)
  || differ (PList (list_or_empty (c_schema old))) (PList (list_or_empty (c_schema new)))
  || differ (PList (list_or_empty (c_indexes old))) (PList (list_or_empty (c_indexes new)))
  || ((py_eqb (c_type old) (PStr "view") || py_eqb (c_type new) (PStr "view"))
      && differ (PDict (dict_or_empty (c_options old))) (PDict (dict_or_empty (c_options new)))).
End Apply.

(** ** Paths into a value *)
Inductive step : Type := Key (k : string) | Index (i : nat).
Fixpoint value_at (v : pyval) (path : list step) : option pyval :=
  match path with
  | [] => Some v
  | Key k :: rest => match v with PDict d => x ← dict_get k d; value_at x rest | _ => None end
  | Index i :: rest => match v with PList l => x ← l !! i; value_at x rest | _ => None end
  end.
Definition is_atom (v : pyval) : bool := match v with PDict _ | PList _ => false | _ => true end.
Definition credential (s : step) : bool := match s with Key k => bool_decide (k ∈ _OAUTH_CREDENTIAL_KEYS) | Index _ => false end.

Definition stripped_entries (d : json_dict) : json_dict :=
  match _strip_oauth_credentials (PDict d) with PDict d => d | _ => [] end.
Lemma stripped_get k d : dict_get k (stripped_entries d) =
  if credential (Key k) then None else _strip_oauth_credentials <$> dict_get k d.
Proof.
  unfold stripped_entries. cbn [_strip_oauth_credentials credential]. induction d as [|[k' x] d IH]; cbn [dict_get]; [by case_bool_decide|].
  destruct (bool_decide (k' ∈ _)) eqn:Hk'.
  - rewrite IH. destruct (String.eqb_spec k' k) as [->|Hne]; [by rewrite Hk'|done].
  - cbn [dict_get]. destruct (String.eqb_spec k' k) as [->|Hne]; [by rewrite Hk'|]. exact IH.
Qed.
(** Below any credential there is nothing, and everything else is there. *)
Lemma stripped_at p : forall v, value_at (_strip_oauth_credentials v) p =
  if existsb credential p then None else _strip_oauth_credentials <$> value_at v p.
Proof.
  induction p as [|[k|i] p IH]; intros v; [done|..].
  - cbn [existsb]. destruct v as [| | | | | |d]; try by cbn; destruct (_ || _).
    change (value_at (_strip_oauth_credentials (PDict d)) (Key k :: p)) with (x ← dict_get k (stripped_entries d); value_at x p).
    rewrite stripped_get. cbn [value_at]. destruct (credential (Key k)); [done|]. cbn [orb].
    destruct (dict_get k d); cbn; [apply IH|by destruct (existsb _ _)].
  - cbn [existsb value_at credential orb]. destruct v as [| | | | |l|]; try by destruct (existsb _ _).
    cbn [_strip_oauth_credentials]. rewrite list_lookup_fmap. destruct (l !! i); cbn; [apply IH|by destruct (existsb _ _)].
Qed.
Lemma stripped_atom o a : is_atom a = true -> _strip_oauth_credentials <$> o = Some a <-> o = Some a.
Proof. intros Ha. destruct o as [[]|]; cbn; split; intros [= <-]; done. Qed.

(** A token's options without their secret. *)
Definition cleaned (v : pyval) : pyval := match v with PDict t => PDict (dict_del "secret" t) | _ => v end.
Lemma without_secret_get k n o : dict_get k (without_secret o n) = if String.eqb k n then cleaned <$> dict_get k o else dict_get k o.
Proof.
  unfold without_secret. destruct (String.eqb_spec k n) as [->|Hne].
  - destruct (dict_get n o) as [[]|] eqn:Hn; rewrite ?Hn; try done. by rewrite dict_get_set_eq.
  - destruct (dict_get n o) as [[]|]; try done. by rewrite dict_get_set_ne.
Qed.
Lemma without_secrets_get names : NoDup names -> forall k o,
  dict_get k (fold_left without_secret names o) = if bool_decide (k ∈ names) then cleaned <$> dict_get k o else dict_get k o.
Proof.
  induction 1 as [|n names Hn _ IH]; intros k o; cbn [fold_left]; [done|]. rewrite IH, without_secret_get.
  destruct (String.eqb_spec k n) as [->|Hne].
  - rewrite (bool_decide_eq_false_2 _ Hn), bool_decide_eq_true_2 by left. done.
  - by rewrite (bool_decide_ext (k ∈ n :: names) (k ∈ names)) by (rewrite elem_of_cons; naive_solver).
Qed.
Definition sanitized_value (k : string) (v : pyval) : pyval :=
  if bool_decide (k ∈ _AUTH_TOKEN_OPTION_KEYS) then cleaned v else if String.eqb k "oauth2" then _strip_oauth_credentials v else v.
Lemma sanitized_get k o : dict_get k (_sanitize_auth_options o) = sanitized_value k <$> dict_get k o.
Proof.
  assert (Hnd : NoDup _AUTH_TOKEN_OPTION_KEYS) by (apply (bool_decide_unpack _); by vm_compute).
  pose proof (fun k => without_secrets_get _ Hnd k o) as Hget. cbv beta in Hget.
  assert (Ho : bool_decide ("oauth2" ∈ _AUTH_TOKEN_OPTION_KEYS) = false) by done.
  unfold _sanitize_auth_options, sanitized_value. rewrite (Hget "oauth2"), Ho.
  destruct (String.eqb_spec k "oauth2") as [->|Hne].
  - rewrite Ho. destruct (dict_get "oauth2" o) as [[]|] eqn:Hv; rewrite ?dict_get_set_eq; try done; rewrite Hget, Ho; by rewrite Hv.
  - assert (Hsame : dict_get k (fold_left without_secret _AUTH_TOKEN_OPTION_KEYS o) =
      (fun v => if bool_decide (k ∈ _AUTH_TOKEN_OPTION_KEYS) then cleaned v else v) <$> dict_get k o).
    { rewrite Hget. destruct (dict_get k o); cbn; by repeat case_bool_decide. }
    destruct (dict_get "oauth2" o) as [[]|]; rewrite ?dict_get_set_ne by congruence; exact Hsame.
Qed.

(** Where the secrets of a definition are. *)
Definition secret_path (p : list step) : Prop :=
  (exists k q, p = Key "options" :: Key k :: Key "secret" :: q /\
     k ∈ ["authToken"; "passwordResetToken"; "verificationToken"; "emailChangeToken"; "fileToken"]) \/
  (exists q k, p = Key "options" :: Key "oauth2" :: q /\ Key k ∈ q /\
     k ∈ ["clientId"; "clientSecret"; "client_id"; "client_secret"]).
(** What a collection has under a name, and below it. *)
Definition collection_entry (r : CollectionRecord) (k : string) : option pyval :=
  match k with
  | "id" => Some (c_id r) | "name" => Some (c_name r) | "type" => Some (c_type r) | "system" => Some (c_system r)
  | "schema" => Some (match c_schema r with PList l => PList l | _ => PList [] end)
  | "indexes" => Some (match c_indexes r with PList l => PList l | _ => PList [] end)
  | "options" => Some (match c_options r with PDict d => PDict d | _ => PDict [] end)
  | "listRule" => Some (list_rule r) | "viewRule" => Some (view_rule r) | "createRule" => Some (create_rule r)
  | "updateRule" => Some (update_rule r) | "deleteRule" => Some (delete_rule r)
  | _ => None
  end.
Definition value_in (r : CollectionRecord) (p : list step) : option pyval :=
  match p with Key k :: q => v ← collection_entry r k; value_at v q | _ => None end.
Lemma token_keys k : k ∈ ["authToken"; "passwordResetToken"; "verificationToken"; "emailChangeToken"; "fileToken"] <-> k ∈ _AUTH_TOKEN_OPTION_KEYS.
Proof. done. Qed.
Lemma credential_in q : existsb credential q = true <-> exists k, Key k ∈ q /\ k ∈ ["clientId"; "clientSecret"; "client_id"; "client_secret"].
Proof.
  rewrite existsb_exists. split.
  - intros ([k|i] & Hin%list_elem_of_In & Hc); [|done]. exists k. split; [done|]. by apply bool_decide_eq_true in Hc.
  - intros (k & Hin%list_elem_of_In & Hk). exists (Key k). split; [done|]. by apply bool_decide_eq_true.
Qed.
Lemma definition_entry r k : dict_get k (definition_of r) = collection_entry r k.
Proof.
  assert (Hl : forall v, match v with PList l => PList l | _ => PList [] end = PList (list_or_empty v)) by (by intros []).
  assert (Ho : forall v, match v with PDict l => PDict l | _ => PDict [] end = PDict (dict_or_empty v)) by (by intros []).
  unfold collection_entry, definition_of. rewrite !Hl, Ho. cbn [dict_get].
  repeat (match goal with |- (if String.eqb ?n k then _ else _) = _ => destruct (String.eqb_spec n k) as [<-|?]; [done|] end).
  repeat case_match; congruence.
Qed.
Lemma cleaned_at v p : writable v = true ->
  (forall q, p = Key "secret" :: q -> value_at (cleaned v) p = None) /\
  ((forall q, p <> Key "secret" :: q) -> forall a, is_atom a = true -> value_at (cleaned v) p = Some a <-> value_at v p = Some a).
Proof.
  intros Hw. destruct v as [| | | | |l|d]; try (split; [by intros q ->|done]). cbn [cleaned].
  cbn [writable] in Hw. apply andb_true_iff in Hw as [Hnd%bool_decide_eq_true _]. split.
  - intros q ->. cbn [value_at]. by rewrite dict_get_del_eq.
  - intros Hp a Ha. destruct p as [|[k|i] q]; cbn [value_at].
    + split; by intros [= <-].
    + rewrite dict_get_del_ne; [done|]. intros <-. by apply (Hp q).
    + done.
Qed.
Lemma definition_options r : dict_get "options" (definition_of r) = Some (PDict (dict_or_empty (c_options r))).
Proof. done. Qed.
Lemma serialized_get r k : dict_get k (_serialize_collection r) =
  if String.eqb k "options" then Some (PDict (_sanitize_auth_options (dict_or_empty (c_options r)))) else dict_get k (definition_of r).
Proof.
  unfold _serialize_collection, _sanitize_collection_definition. rewrite definition_options.
  destruct (String.eqb_spec k "options") as [->|Hne]; [apply dict_get_set_eq|by apply dict_get_set_ne; congruence].
Qed.

(** C18: a generated migration carries everything of a collection but its
    secrets.  In the definition that a file embeds there is nothing at or below
    the signing secret of any of the five tokens, nor at or below a client
    identifier or client secret anywhere under the OAuth2 options, and every other
    atom of the collection's twelve attributes is there, at its place, and
    no atom else. *)
Theorem migration_without_secrets r p (Hw : writable (PDict (dict_or_empty (c_options r))) = true) :
  (secret_path p -> value_at (PDict (_serialize_collection r)) p = None) /\
  (~ secret_path p -> forall a, is_atom a = true ->
     value_at (PDict (_serialize_collection r)) p = Some a <-> value_in r p = Some a).
Proof.
  destruct p as [|[k|i] p]; cbn [value_at value_in].
  1, 3: split; [by intros [(? & ? & [=] & _)|(? & ? & [=] & _)]|]; intros _ a Ha; split; [intros H; by simplify_eq|done].
  rewrite serialized_get. destruct (String.eqb_spec k "options") as [->|Hne].
  2: { rewrite definition_entry. split; [|done]. intros [(? & ? & [= ->] & _)|(? & ? & [= ->] & _)]; done. }
  rewrite <- definition_entry, definition_options. cbn [mbind option_bind]. set (o := dict_or_empty (c_options r)) in *.
  destruct p as [|[k|i] p]; cbn [value_at].
  1, 3: split; [by intros [(? & ? & [=] & _)|(? & ? & [=] & _)]|]; intros _ a Ha; split; by intros [= <-].
  rewrite sanitized_get. destruct (dict_get k o) as [v|] eqn:Hv; [|done]. cbn [mbind option_bind fmap option_fmap option_map].
  unfold sanitized_value. case_bool_decide as Hk.
  - assert (Hwv : writable v = true).
    { cbn [writable] in Hw. apply andb_true_iff in Hw as [_ Hw]. rewrite forallb_forall in Hw.
      apply (Hw (k, v)), list_elem_of_In. by apply dict_get_elem. }
    destruct (cleaned_at v p Hwv) as [Hsec Hother]. split.
    + intros [(? & q & [= <- ->] & _)|(q & ? & [= -> ->] & _)]; [by eapply Hsec|].
      apply (bool_decide_eq_true_2 _) in Hk. by vm_compute in Hk.
    + intros Hns. apply Hother. intros q ->. apply Hns. left. exists k, q. by rewrite token_keys.
  - destruct (String.eqb_spec k "oauth2") as [->|Hne]; [|split; [|done]].
    + rewrite stripped_at. split.
      * intros [(? & q & [= <- ->] & Hin)|(q & key & [= ->] & Hc)]; [by rewrite token_keys in Hin|].
        by rewrite (proj2 (credential_in q)) by eauto.
      * intros Hns a Ha. destruct (existsb credential p) eqn:Hc; [|by apply stripped_atom].
        destruct Hns. right. apply credential_in in Hc as (key & Hc). by exists p, key.
    + intros [(? & q & [= <- ->] & Hin)|(q & key & [= -> ->] & Hc)]; [by rewrite token_keys in Hin|done].
Qed.

(** ** Merging *)
Lemma merge_get override : NoDup override.*1 -> forall base k, dict_get k (_deep_merge_dicts base override) =
  match dict_get k override with Some v => Some (merge_value v (dict_get k base)) | None => dict_get k base end.
Proof.
  unfold _deep_merge_dicts. induction override as [|[k' v] override IH]; intros Hnd base k; [done|].
  apply NoDup_cons in Hnd as [Hni Hnd]. cbn [merge_entries dict_get]. rewrite IH by done.
  destruct (String.eqb_spec k' k) as [->|Hne].
  - apply dict_get_none in Hni. cbn [fst] in Hni. by rewrite Hni, dict_get_set_eq.
  - by rewrite dict_get_set_ne.
Qed.
Lemma merge_atom v c : is_atom v = true -> merge_value v c = v.
Proof. by destruct v. Qed.
Lemma merge_dicts d b : merge_value (PDict d) (Some (PDict b)) = PDict (_deep_merge_dicts b d).
Proof. done. Qed.
Lemma merge_list l c : merge_value (PList l) c = PList l.
Proof. done. Qed.
(** A dictionary keeps the atoms that are written over it and its own others. *)
Lemma merge_dict d c : NoDup d.*1 -> exists d', merge_value (PDict d) c = PDict d' /\
  (forall k, dict_get k d = None -> forall b v, c = Some (PDict b) -> dict_get k b = Some v -> dict_get k d' = Some v) /\
  (forall k v, dict_get k d = Some v -> (forall c, merge_value v c = v) -> dict_get k d' = Some v).
Proof.
  intros Hnd. assert (Hsame : forall k v, dict_get k d = Some v -> (forall c, merge_value v c = v) -> dict_get k d = Some v) by done.
  destruct c as [[| | | | | |b]|]; try (by exists d). exists (_deep_merge_dicts b d). split; [done|].
  split; intros k.
  - intros Hk b' v [= <-] Hv. by rewrite merge_get, Hk.
  - intros v Hk Hv. by rewrite merge_get, Hk, Hv.
Qed.

(** Dictionaries of a writable value. *)
Lemma writable_dict d : writable (PDict d) = true -> NoDup d.*1 /\ forall k v, dict_get k d = Some v -> writable v = true.
Proof.
  cbn [writable]. intros [Hnd%bool_decide_eq_true Hw]%andb_true_iff. split; [done|]. intros k v Hv.
  rewrite forallb_forall in Hw. apply (Hw (k, v)), list_elem_of_In. by apply dict_get_elem.
Qed.
Lemma writable_list l i v : writable (PList l) = true -> l !! i = Some v -> writable v = true.
Proof. cbn [writable]. rewrite forallb_forall. intros Hw Hv. apply Hw, list_elem_of_In. by eapply list_elem_of_lookup_2. Qed.
Lemma stripped_keys d : (stripped_entries d).*1 `sublist_of` d.*1.
Proof.
  unfold stripped_entries. cbn [_strip_oauth_credentials]. induction d as [|[k x] d IH]; cbn; [done|].
  case_bool_decide; cbn; by constructor.
Qed.
Lemma stripped_nodup d : NoDup d.*1 -> NoDup (stripped_entries d).*1.
Proof. intros Hd. exact (sublist_NoDup _ _ Hd (stripped_keys d)). Qed.
Lemma sanitized_nodup o : NoDup o.*1 -> NoDup (_sanitize_auth_options o).*1.
Proof.
  intros Ho. assert (Hf : NoDup (fold_left without_secret _AUTH_TOKEN_OPTION_KEYS o).*1).
  { generalize _AUTH_TOKEN_OPTION_KEYS. intros names. revert o Ho. induction names as [|n names IH]; intros o Ho; [done|]. cbn [fold_left]. apply IH.
    unfold without_secret. destruct (dict_get n o) as [[]|]; try done. by apply dict_set_nodup. }
  unfold _sanitize_auth_options. destruct (dict_get "oauth2" _) as [[]|]; try done; by apply dict_set_nodup.
Qed.

Definition providers_of (options : json_dict) : list pyval :=
  match dict_get "oauth2" options with
  | Some (PDict o) => list_or_empty (default (PList []) (dict_get "providers" o))
  | _ => []
  end.
Definition named (n : string) (p : pyval) : option json_dict :=
  match p with PDict d => if py_eqb (provider_name d) (PStr n) then Some d else None | _ => None end.
(** The provider of a name that counts: the last. *)
Definition provider_of (options : json_dict) (n : string) : option json_dict := last (omap (named n) (providers_of options)).

(** ** What a migration leaves of the credentials of a collection *)
Section Merge.
Context (defaults existing incoming result : json_dict)
  (Hm : _merge_auth_options defaults existing incoming = Ok result).
Lemma merged_key k : NoDup incoming.*1 -> k <> "oauth2" ->
  dict_get k result = match dict_get k incoming with
                      | Some v => Some (merge_value v (dict_get k (_deep_merge_dicts defaults existing)))
                      | None => dict_get k (_deep_merge_dicts defaults existing)
                      end.
Proof.
  intros Hnd Hk. revert Hm. unfold _merge_auth_options.
  destruct (dict_get "oauth2" incoming) as [[| | | | | |io]|]; try (intros [= <-]; by apply merge_get).
  destruct (dict_get "providers" io) as [[| | | | |ip|]|]; try (intros [= <-]; by apply merge_get).
  destruct (match dict_get "oauth2" _ with Some _ => _ | None => _ end) as [current|e]; [|discriminate]. cbn [mbind result_bind].
  destruct (map_result _ ip) as [ps|e]; [|discriminate]. intros [= <-].
  rewrite dict_get_set_ne, merge_get, dict_get_set_ne; [done|by congruence|by apply dict_set_nodup|by congruence].
Qed.
Lemma merged_providers io ip : NoDup incoming.*1 -> dict_get "oauth2" incoming = Some (PDict io) ->
  dict_get "providers" io = Some (PList ip) ->
  exists current ps oa,
    match dict_get "oauth2" (_deep_merge_dicts defaults existing) with
    | Some (PDict o) => named_providers (default (PList []) (dict_get "providers" o))
    | _ => Ok []
    end = Ok current /\
    map_result (merge_provider current) ip = Ok ps /\
    dict_get "oauth2" result = Some (PDict oa) /\ dict_get "providers" oa = Some (PList ps).
Proof.
  intros Hnd Hio Hip. revert Hm. unfold _merge_auth_options. rewrite Hio, Hip.
  destruct (match dict_get "oauth2" _ with Some _ => _ | None => _ end) as [current|e] eqn:Hc; [|discriminate]. cbn [mbind result_bind].
  destruct (map_result _ ip) as [ps|e] eqn:Hps; [|discriminate]. intros [= <-].
  eexists current, ps, _. split_and!; [done|done|apply dict_get_set_eq|apply dict_get_set_eq].
Qed.
End Merge.

Lemma named_providers_of n v current : n <> "" -> named_providers v = Ok current ->
  provider_named current (PStr n) = Ok (default [] (last (omap (named n) (list_or_empty v)))).
Proof.
  intros Hn Hv. unfold provider_named. cbn [hashable]. f_equal. f_equal. f_equal.
  destruct v as [| | | |s|l|d]; try (by injection Hv as <-); try discriminate. cbn [named_providers list_or_empty] in *.
  destruct (forallb _ _) in Hv; [|discriminate]. injection Hv as <-. induction l as [|p l IH]; [done|].
  destruct p as [| | | | | |d]; try exact IH. cbn [omap list_omap named]. rewrite filter_cons. destruct (py_eqb (provider_name d) (PStr n)) eqn:He.
  - assert (Ht : truthy (provider_name d) = true) by (rewrite (py_eqb_truthy _ _ He); by destruct n).
    rewrite decide_True by done. rewrite filter_cons, decide_True by done. f_equal. exact IH.
  - case_decide; [|exact IH]. rewrite filter_cons, decide_False by congruence. exact IH.
Qed.
Lemma token_default token_key sup k : k ∈ _AUTH_TOKEN_OPTION_KEYS -> exists n duration,
  dict_get k (generate_default_auth_options token_key sup) = Some (PDict [("secret", PStr (token_key n)); ("duration", duration)]).
Proof. unfold _AUTH_TOKEN_OPTION_KEYS. intros Hk. repeat (apply elem_of_cons in Hk as [->|Hk]; [by eexists _, _|]). by apply not_elem_of_nil in Hk. Qed.
Lemma current_providers token_key sup existing current n : writable (PDict existing) = true -> n <> "" ->
  match dict_get "oauth2" (_deep_merge_dicts (generate_default_auth_options token_key sup) existing) with
  | Some (PDict o) => named_providers (default (PList []) (dict_get "providers" o))
  | _ => Ok []
  end = Ok current ->
  provider_named current (PStr n) = Ok (default [] (provider_of existing n)).
Proof.
  intros Hwe Hn. apply writable_dict in Hwe as [Hne Hwe]. rewrite merge_get by done. unfold provider_of, providers_of.
  destruct (dict_get "oauth2" existing) as [[| | | | | |eo]|] eqn:Heo; try (by intros [= <-]).
  destruct (writable_dict eo (Hwe _ _ Heo)) as [Hneo _]. change (dict_get "oauth2" (generate_default_auth_options token_key sup))
    with (Some (PDict [("enabled", PBool false); ("providers", PList []); ("mappedFields", PDict [])])).
  rewrite merge_dicts, merge_get by done. intros Hc. rewrite <- (named_providers_of n _ current Hn); [done|].
  revert Hc. destruct (dict_get "providers" eo) as [[]|]; done.
Qed.

(** Applying a generated migration leaves the credentials of the running
    server alone.  Merging the sanitized options of a migration into those of an
    auth collection: the signing secret of every token stays what it was, the
    i-th OAuth2 provider of the migration keeps the client credentials of the
    existing provider of its name, whatever else the migration says of the
    provider and of the collection's other options takes effect. *)
Theorem migration_keeps_credentials token_key sup existing o result
  (He : writable (PDict existing) = true) (Ho : writable (PDict o) = true)
  (Hm : _merge_auth_options (generate_default_auth_options token_key sup) existing (_sanitize_auth_options o) = Ok result) :
  (forall k s, k ∈ _AUTH_TOKEN_OPTION_KEYS -> value_at (PDict existing) [Key k; Key "secret"] = Some s ->
     (forall v, dict_get k o = Some v -> exists d, v = PDict d) -> value_at (PDict result) [Key k; Key "secret"] = Some s) /\
  (forall i n p, n <> "" -> value_at (PDict o) [Key "oauth2"; Key "providers"; Index i] = Some (PDict p) -> provider_name p = PStr n ->
     exists q, value_at (PDict result) [Key "oauth2"; Key "providers"; Index i] = Some (PDict q) /\
       (forall key, key ∈ _OAUTH_CREDENTIAL_KEYS -> dict_get key q = provider_of existing n ≫= dict_get key) /\
       (forall key a, key ∉ _OAUTH_CREDENTIAL_KEYS -> is_atom a = true -> dict_get key p = Some a -> dict_get key q = Some a)) /\
  (forall k a, k ∉ _AUTH_TOKEN_OPTION_KEYS -> k <> "oauth2" -> is_atom a = true -> dict_get k o = Some a -> dict_get k result = Some a).
Proof.
  pose proof (current_providers token_key sup existing) as Hcurrent.
  apply writable_dict in He as Hwe, Ho as Hwo. destruct Hwe as [Hne Hwe], Hwo as [Hno Hwo]. pose proof (sanitized_nodup o Hno) as Hns. split_and!.
  - intros k s Hk Hs Hdict. cbn [value_at] in *. apply bind_Some in Hs as (v & Hv & Hs). destruct v as [| | | | | |t]; try discriminate.
    apply bind_Some in Hs as (s' & Hs & [= ->]). destruct (writable_dict t (Hwe _ _ Hv)) as [Hnt _].
    destruct (token_default token_key sup k Hk) as (n & dur & Hd).
    assert (Hko : k <> "oauth2") by (intros ->; apply (bool_decide_eq_true_2 _) in Hk; by vm_compute in Hk).
    assert (Hmerged : exists m, dict_get k (_deep_merge_dicts (generate_default_auth_options token_key sup) existing) = Some (PDict m) /\ dict_get "secret" m = Some s).
    { rewrite merge_get, Hv, Hd, merge_dicts by done. eexists. split; [done|]. rewrite merge_get, Hs by done. by destruct s. }
    destruct Hmerged as (m & Hkm & Hsm). rewrite (merged_key _ _ _ _ Hm k Hns Hko), Hkm, sanitized_get.
    unfold sanitized_value. rewrite bool_decide_eq_true_2 by done.
    destruct (dict_get k o) as [w|] eqn:Hw; [|cbn; by rewrite Hsm]. destruct (Hdict w eq_refl) as [d ->].
    destruct (writable_dict d (Hwo _ _ Hw)) as [Hnd _]. cbn [fmap option_fmap option_map cleaned]. rewrite merge_dicts.
    cbn [mbind option_bind]. rewrite merge_get by (by apply dict_del_nodup). by rewrite dict_get_del_eq, Hsm.
  - intros i n p Hn Hp Hname. cbn [value_at] in Hp. apply bind_Some in Hp as (v & Hv & Hp). destruct v as [| | | | | |od]; try discriminate.
    apply bind_Some in Hp as (v & Hps & Hp). destruct v as [| | | | |l|]; try discriminate.
    apply bind_Some in Hp as (p' & Hp & [= ->]).
    destruct (merged_providers _ _ _ _ Hm (stripped_entries od) (_strip_oauth_credentials <$> l)) as (current & ps & oa & Hc & Hmap & Hres & Hoa); [done| | |].
    { rewrite sanitized_get, Hv. done. }
    { rewrite stripped_get, Hps. done. }
    assert (Hq : exists q, ps !! i = Some q /\ merge_provider current (PDict (stripped_entries p)) = Ok q).
    { apply map_result_ok in Hmap. eapply Forall2_lookup_l in Hmap; [|by rewrite list_lookup_fmap, Hp]. exact Hmap. }
    destruct Hq as (q & Hq & Hmq). cbn [merge_provider] in Hmq.
    assert (Hsn : provider_name (stripped_entries p) = PStr n).
    { unfold provider_name in *. rewrite stripped_get. cbn [credential]. destruct (dict_get "name" p) as [x|]; [|done]. cbn in Hname. by rewrite Hname. }
    rewrite Hsn in Hmq. pose proof (Hcurrent current n He Hn Hc) as Hcur. rewrite Hcur in Hmq. injection Hmq as <-.
    assert (Hnp : NoDup p.*1).
    { assert (Hw : writable (PDict p) = true); [|by apply writable_dict in Hw as [? _]].
      eapply writable_list; [|exact Hp]. eapply writable_dict; [|exact Hps]. by eapply Hwo. }
    eexists. split_and!; [cbn; rewrite Hres; cbn; rewrite Hoa; cbn; by rewrite Hq|..].
    + intros key Hkey. rewrite merge_get by (by apply stripped_nodup). rewrite stripped_get. cbn [credential].
      rewrite bool_decide_eq_true_2 by done. by destruct (provider_of existing n).
    + intros key a Hkey Ha Hv'. rewrite merge_get by (by apply stripped_nodup). rewrite stripped_get. cbn [credential].
      rewrite bool_decide_eq_false_2 by done. rewrite Hv'. destruct a; done.
  - intros k a Hk Hko Ha Hv. rewrite (merged_key _ _ _ _ Hm k Hns Hko), sanitized_get, Hv. cbn. unfold sanitized_value.
    rewrite bool_decide_eq_false_2 by done. destruct (String.eqb_spec k "oauth2"); [done|]. by rewrite merge_atom.
Qed.

(** ** Up and down of an update *)
Lemma get_omap {A} (same : string -> bool) (v : string -> A) keys k :
  dict_get k (omap (fun key => if same key then None else Some (key, v key)) keys) =
  if bool_decide (k ∈ keys) && negb (same k) then Some (v k) else None.
Proof.
  induction keys as [|key keys IH]; [done|]. cbn [omap list_omap].
  destruct (String.eqb_spec key k) as [->|Hne].
  - rewrite (bool_decide_eq_true_2 (k ∈ k :: keys)) by left. destruct (same k) eqn:Hs; cbn [dict_get]; [|by rewrite String.eqb_refl].
    rewrite IH. by rewrite andb_false_r.
  - rewrite (bool_decide_ext (k ∈ key :: keys) (k ∈ keys)) by (rewrite elem_of_cons; naive_solver).
    destruct (same key); cbn [dict_get]; [exact IH|]. by rewrite (proj2 (String.eqb_neq _ _) Hne).
Qed.
Lemma sorted_nil (l : list string) : py_sorted str_leb l = [] -> l = [].
Proof. intros Hl. apply Permutation_nil. by rewrite <- Hl, py_sorted_perm. Qed.
Section UpDown.
Context (old_dict new_dict : json_dict).
Definition unchanged (k : string) : bool := py_eqb (at_key old_dict k) (at_key new_dict k).
Lemma diff_values (side : pyval * pyval -> pyval) : (fun c : string * (pyval * pyval) => (c.1, side c.2)) <$> _compute_collection_diff old_dict new_dict =
  omap (fun key => if unchanged key then None else Some (key, side (at_key old_dict key, at_key new_dict key))) compare_keys.
Proof.
  unfold _compute_collection_diff, unchanged. induction compare_keys as [|key keys IH]; [done|]. cbn [omap list_omap].
  destruct (py_eqb _ _); [exact IH|]. cbn [fmap list_fmap]. by f_equal.
Qed.
(** The schemas have the same identifiers, and equal fields under each. *)
Definition same_fields (old_schema new_schema : list pyval) : Prop := exists old_fields new_fields,
  _fields_by_id old_schema = Ok old_fields /\ _fields_by_id new_schema = Ok new_fields /\
  forall k, match dict_get k old_fields, dict_get k new_fields with
            | Some a, Some b => py_eqb a b = true
            | None, None => True
            | _, _ => False
            end.
Lemma no_diff old_schema new_schema diff : _compute_schema_diff old_schema new_schema = Ok diff ->
  added diff = [] -> removed diff = [] -> changed diff = [] -> same_fields old_schema new_schema.
Proof.
  unfold _compute_schema_diff, same_fields. destruct (_fields_by_id old_schema) as [fo|]; [|discriminate].
  destruct (_fields_by_id new_schema) as [fn|]; [|discriminate]. cbn [mbind result_bind]. intros [= <-]. cbn [added removed changed].
  intros Ha%fmap_nil_inv%sorted_nil Hr%fmap_nil_inv%sorted_nil Hc. exists fo, fn. split_and!; [done..|]. intros k.
  assert (Hmem : forall d : json_dict, dict_mem k d = false <-> dict_get k d = None) by (intros d; unfold dict_mem; by destruct (dict_get k d)).
  destruct (dict_get k fo) as [a|] eqn:Hfo, (dict_get k fn) as [b|] eqn:Hfn; [..|done].
  - assert (Hin : k ∈ py_sorted str_leb (filter (fun k => dict_mem k fn = true) fo.*1)).
    { rewrite py_sorted_perm. apply list_elem_of_filter. split; [unfold dict_mem; by rewrite Hfn|]. apply dict_get_elem in Hfo.
      by apply (list_elem_of_fmap_2 fst) in Hfo. }
    destruct (py_eqb a b) eqn:He; [done|]. assert (Hbad : (a, b) ∈ @nil (pyval * pyval)); [|by apply not_elem_of_nil in Hbad].
    rewrite <- Hc. apply list_elem_of_filter. split; [done|]. apply list_elem_of_fmap. exists k. split; [|done].
    unfold at_key. by rewrite Hfo, Hfn.
  - assert (Hbad : k ∈ @nil string); [|by apply not_elem_of_nil in Hbad]. rewrite <- Hr. apply list_elem_of_filter.
    split; [by apply Hmem|]. apply dict_get_elem in Hfo. by apply (list_elem_of_fmap_2 fst) in Hfo.
  - assert (Hbad : k ∈ @nil string); [|by apply not_elem_of_nil in Hbad]. rewrite <- Ha. apply list_elem_of_filter.
    split; [by apply Hmem|]. apply dict_get_elem in Hfn. by apply (list_elem_of_fmap_2 fst) in Hfn.
Qed.
Lemma update_changes_get forward reverse : update_changes old_dict new_dict = Ok (forward, reverse) ->
  let old_schema := default (PList []) (dict_get "schema" old_dict) in
  let new_schema := default (PList []) (dict_get "schema" new_dict) in
  exists schema_kept : bool,
    (schema_kept = true -> same_fields (list_or_empty old_schema) (list_or_empty new_schema)) /\
    forall k, dict_get k forward = (if String.eqb k "schema" then if schema_kept then None else Some new_schema
                                    else if bool_decide (k ∈ compare_keys) && negb (unchanged k) then Some (at_key new_dict k) else None) /\
              dict_get k reverse = (if String.eqb k "schema" then if schema_kept then None else Some old_schema
                                    else if bool_decide (k ∈ compare_keys) && negb (unchanged k) then Some (at_key old_dict k) else None).
Proof.
  intros Hu old_schema new_schema. unfold update_changes in Hu. fold old_schema new_schema in Hu.
  destruct (_compute_schema_diff _ _) as [diff|] eqn:Hd; [|discriminate]. cbn [mbind result_bind] in Hu.
  rewrite (diff_values snd), (diff_values fst) in Hu. set (kept := match added diff, removed diff, changed diff with [], [], [] => true | _, _, _ => false end).
  exists kept. split.
  - intros Hk. apply (no_diff _ _ _ Hd); unfold kept in Hk; by destruct (added diff), (removed diff), (changed diff).
  - pose proof (get_omap unchanged (at_key new_dict) compare_keys) as Hfwd.
    pose proof (get_omap unchanged (at_key old_dict) compare_keys) as Hrev. cbn [snd fst] in Hu.
    assert (Hns : bool_decide ("schema" ∈ compare_keys) = false) by done.
    revert Hu Hfwd Hrev. generalize (omap (fun key => if unchanged key then None else Some (key, at_key new_dict key)) compare_keys).
    generalize (omap (fun key => if unchanged key then None else Some (key, at_key old_dict key)) compare_keys).
    intros rev fwd Hu Hfwd Hrev k. assert (Hk : kept = true /\ fwd = forward /\ rev = reverse \/
      kept = false /\ dict_set "schema" new_schema fwd = forward /\ dict_set "schema" old_schema rev = reverse).
    { unfold kept. destruct (added diff), (removed diff), (changed diff); injection Hu as <- <-; tauto. }
    destruct (String.eqb_spec k "schema") as [->|Hne], Hk as [(-> & <- & <-)|(-> & <- & <-)].
    + by rewrite Hfwd, Hrev, Hns.
    + by rewrite !dict_get_set_eq.
    + by rewrite Hfwd, Hrev.
    + rewrite !dict_get_set_ne by congruence. by rewrite Hfwd, Hrev.
Qed.
End UpDown.

(** A collection that is not an auth one, as the server keeps it, with no
    option that a migration strips. *)
Definition plain (r : CollectionRecord) : Prop :=
  is_auth (c_type r) = false /\ (exists l, c_schema r = PList l) /\ (exists l, c_indexes r = PList l) /\
  exists o, c_options r = PDict o /\ _sanitize_auth_options o = o.
Lemma plain_serialized r : plain r -> _serialize_collection r = definition_of r /\
  definition_of r = [("id", c_id r); ("name", c_name r); ("type", c_type r); ("system", c_system r);
   ("schema", c_schema r); ("indexes", c_indexes r); ("listRule", list_rule r); ("viewRule", view_rule r); ("createRule", create_rule r);
   ("updateRule", update_rule r); ("deleteRule", delete_rule r); ("options", c_options r)].
Proof.
  intros (_ & (l & Hl) & (i & Hi) & o & Ho & Hs). split.
  - unfold _serialize_collection, _sanitize_collection_definition. rewrite definition_options. rewrite Ho. cbn [dict_or_empty]. rewrite Hs.
    unfold definition_of. by rewrite Ho.
  - unfold definition_of. by rewrite Hl, Hi, Ho.
Qed.
Definition attributes : list (string * (CollectionRecord -> pyval)) :=
  [("name", c_name); ("type", c_type); ("system", c_system); ("schema", c_schema); ("indexes", c_indexes); ("listRule", list_rule);
   ("viewRule", view_rule); ("createRule", create_rule); ("updateRule", update_rule); ("deleteRule", delete_rule); ("options", c_options)].
Lemma apply_attributes token_key r changes target : is_auth (c_type r) = false -> is_auth (c_type target) = false ->
  c_id r = c_id target -> (exists d, c_options target = PDict d) ->
  Forall (fun a : string * (CollectionRecord -> pyval) => default (a.2 r) (dict_get a.1 changes) = a.2 target) attributes ->
  apply_changes token_key r changes = Ok target.
Proof.
  intros Hr Ht Hid [d Hd] Ha. unfold attributes in Ha. rewrite !Forall_cons in Ha. cbn [fst snd] in Ha.
  destruct Ha as (H1 & H2 & H3 & H4 & H5 & H6 & H7 & H8 & H9 & H10 & Hopt & _). unfold apply_changes, changed_attr.
  assert (Hoptions : changed_options token_key (c_type r) (default (c_name r) (dict_get "name" changes))
    (default (c_type r) (dict_get "type" changes)) (c_options r) changes = Ok (c_options target)).
  { unfold changed_options. rewrite H2, Ht. destruct (dict_get "options" changes) as [v|]; cbn in Hopt; rewrite Hopt; [by rewrite Hd|done]. }
  rewrite Hoptions. cbn [mbind result_bind]. rewrite H1, H2, H3, H4, H5, H6, H7, H8, H9, H10, Hid. by destruct target.
Qed.

Lemma valid_id_text v id : StorageSafety.validate_collection_id v = Ok id -> v = PStr id /\ id <> "".
Proof.
  unfold StorageSafety.validate_collection_id, StorageSafety._validate_single_component. destruct v as [| | | |s| |]; try discriminate.
  destruct (String.eqb_spec s "") as [->|Hs]; [discriminate|]. repeat case_match; try discriminate. by intros [= <-].
Qed.
Lemma recreated token_key generated_id r id : plain r -> StorageSafety.validate_collection_id (c_id r) = Ok id ->
  created_collection token_key generated_id (_serialize_collection r) = Ok r.
Proof.
  intros Hr Hid. destruct (plain_serialized r Hr) as [-> ->]. destruct Hr as (Hta & _ & _ & o & Ho & _).
  pose proof (valid_id_text _ _ Hid) as [Heq Hne]. destruct r as [rid name type system schema indexes lr vr cr ur dr options].
  cbn [c_id c_type c_options] in *. subst rid options. unfold created_collection.
  cbn [dict_get String.eqb Ascii.eqb Bool.eqb default c_id c_name c_type c_system c_schema c_indexes list_rule view_rule create_rule update_rule delete_rule c_options from_option].
  unfold Datatypes.id. rewrite Hta. cbn [mbind result_bind dict_or_empty].
  assert (py_eqb (PStr id) PNone || py_eqb (PStr id) (PStr "") = false) as ->.
  { cbn. by apply String.eqb_neq. }
  rewrite Hid. done.
Qed.

(** generated migrations undo each other.  For a collection that is not an
    auth collection and whose identifier is valid: the definition that the
    migrations of its creation and of its deletion embed recreates it exactly;
    and for an update of it, the forward changes give, key by key, the new value
    wherever the two states differ, and the new schema unless the two have equal
    fields under the same identifiers, after which the reverse changes restore
    the old state exactly. *)
Theorem migrations_up_down token_key generated_id old new id forward reverse (Ho : plain old) (Hn : plain new)
  (Hid : StorageSafety.validate_collection_id (c_id old) = Ok id)
  (Hu : update_changes (_serialize_collection old) (_serialize_collection new) = Ok (forward, reverse)) :
  created_collection token_key generated_id (_serialize_collection old) = Ok old /\
  exists r, apply_changes token_key old forward = Ok r /\ apply_changes token_key r reverse = Ok old /\
    (forall k, k ∈ compare_keys -> at_key (definition_of r) k =
       if py_eqb (at_key (definition_of old) k) (at_key (definition_of new) k) then at_key (definition_of old) k
       else at_key (definition_of new) k) /\
    (c_schema r = c_schema new \/
     c_schema r = c_schema old /\ same_fields (list_or_empty (c_schema old)) (list_or_empty (c_schema new))).
Proof.
  split; [by eapply recreated|].
  destruct (plain_serialized old Ho) as [Hso Hdo], (plain_serialized new Hn) as [Hsn Hdn]. rewrite Hso, Hsn in Hu.
  apply update_changes_get in Hu as (kept & Hkept & Hget).
  rewrite Hdo, Hdn in Hkept. cbn [dict_get String.eqb Ascii.eqb Bool.eqb default] in Hkept.
  set (at_old := at_key (definition_of old)) in *. set (at_new := at_key (definition_of new)) in *.
  set (pick k := if unchanged (definition_of old) (definition_of new) k then at_old k else at_new k).
  set (r := mkRecord (c_id old) (pick "name") (pick "type") (pick "system") (if kept then c_schema old else c_schema new)
     (pick "indexes") (pick "listRule") (pick "viewRule") (pick "createRule") (pick "updateRule") (pick "deleteRule") (pick "options")).
  assert (Hattr : forall k, bool_decide (k ∈ compare_keys) = true ->
    default (at_old k) (dict_get k forward) = pick k /\ default (pick k) (dict_get k reverse) = at_old k).
  { intros k Hk. destruct (Hget k) as [-> ->]. rewrite Hk.
    assert (k =? "schema" = false) as -> by (apply String.eqb_neq; by intros ->). unfold pick. by destruct (unchanged _ _ k). }
  assert (Hschema : default (c_schema old) (dict_get "schema" forward) = c_schema r /\ default (c_schema r) (dict_get "schema" reverse) = c_schema old).
  { destruct (Hget "schema") as [-> ->]. rewrite Hdo, Hdn. by destruct kept. }
  assert (Hpick : forall k, pick k = at_old k \/ pick k = at_new k) by (intros k; unfold pick; destruct (unchanged _ _ k); auto).
  destruct Ho as (Hto & _ & (io & Hio) & oo & Hoo & _), Hn as (Htn & _ & (im & Him) & on & Hon & _).
  assert (Hidx : exists l, pick "indexes" = PList l).
  { destruct (Hpick "indexes") as [-> | ->]; unfold at_old, at_new; rewrite ?Hdo, ?Hdn; eauto. }
  assert (Hopt : exists d, pick "options" = PDict d).
  { destruct (Hpick "options") as [-> | ->]; unfold at_old, at_new; rewrite ?Hdo, ?Hdn; eauto. }
  assert (Hta : is_auth (pick "type") = false).
  { destruct (Hpick "type") as [-> | ->]; unfold at_old, at_new; by rewrite ?Hdo, ?Hdn. }
  destruct Hidx as [idx Hidx], Hopt as [opt Hopt].
  assert (Hidx0 : c_indexes old = at_old "indexes") by (unfold at_old; by rewrite Hdo).
  assert (Hopt0 : c_options old = at_old "options") by (unfold at_old; by rewrite Hdo).
  exists r. split_and!.
  - apply apply_attributes; [done|done|done|by exists opt|]. unfold attributes. rewrite !Forall_cons. cbn [fst snd].
    rewrite Hidx0, Hopt0. split_and!; first [exact (proj1 Hschema)|match goal with |- default _ (dict_get ?k _) = _ => exact (proj1 (Hattr k eq_refl)) end|done].
  - apply apply_attributes; [done|done|done|by exists oo|]. unfold attributes. rewrite !Forall_cons. cbn [fst snd].
    rewrite Hidx0, Hopt0. split_and!; first [exact (proj2 Hschema)|match goal with |- default _ (dict_get ?k _) = _ => exact (proj2 (Hattr k eq_refl)) end|done].
  - intros k Hk. unfold compare_keys in Hk. repeat (apply elem_of_cons in Hk as [->|Hk]; [try done|]); [..|by apply not_elem_of_nil in Hk].
    + unfold at_key. cbn. by rewrite Hidx.
    + unfold at_key. cbn. by rewrite Hopt.
  - cbn [c_schema r]. destruct kept; [right|left]; auto.
Qed.

(** ** Examples *)
Section Demo.
Definition demo_token (secret : string) : pyval := PDict [("secret", PStr secret); ("duration", PInt 60)].
Definition demo_provider (name id secret url : string) : pyval :=
  PDict [("name", PStr name); ("clientId", PStr id); ("clientSecret", PStr secret); ("authURL", PStr url)].
Definition demo_options : json_dict :=
  [("authToken", demo_token "s1"); ("oauth2", PDict [("enabled", PBool true); ("providers", PList [demo_provider "google" "id" "key" "https://a"])]);
   ("authRule", PStr "verified = true")].
Definition demo_auth : CollectionRecord :=
  mkRecord (PStr "c1") (PStr "users") (PStr "auth") (PBool false) (PList []) (PList []) PNone PNone PNone PNone PNone (PDict demo_options).
Definition secret_at : list step := [Key "options"; Key "oauth2"; Key "providers"; Index 0; Key "clientSecret"].
Definition url_at : list step := [Key "options"; Key "oauth2"; Key "providers"; Index 0; Key "authURL"].
Lemma migration_without_secrets_witness :
  (secret_path secret_at -> value_at (PDict (_serialize_collection demo_auth)) secret_at = None) /\
  value_at (PDict (_serialize_collection demo_auth)) url_at = Some (PStr "https://a").
Proof.
  split.
  - exact (proj1 (migration_without_secrets demo_auth secret_at eq_refl)).
  - refine (proj2 (proj2 (migration_without_secrets demo_auth url_at eq_refl) _ (PStr "https://a") eq_refl) eq_refl).
    intros [(? & ? & [=] & _)|(q & k & [= <-] & Hin & Hk)]. set_unfold. naive_solver.
Defined.

(** The running server has its own secrets; the migration has none. *)
Definition server_options : json_dict :=
  [("authToken", demo_token "runtime"); ("oauth2", PDict [("providers", PList [demo_provider "google" "live" "livekey" "https://old"])])].
Definition demo_keys : nat -> string := fun _ => "fresh".
Definition demo_merged : result gen_exn json_dict :=
  _merge_auth_options (generate_default_auth_options demo_keys false) server_options (_sanitize_auth_options demo_options).
Lemma migration_keeps_credentials_witness : exists result, demo_merged = Ok result /\
  value_at (PDict result) [Key "authToken"; Key "secret"] = Some (PStr "runtime") /\
  (exists q, value_at (PDict result) [Key "oauth2"; Key "providers"; Index 0] = Some (PDict q) /\
     dict_get "clientSecret" q = Some (PStr "livekey") /\ dict_get "authURL" q = Some (PStr "https://a")).
Proof.
  eexists. split; [vm_compute; reflexivity|].
  destruct (migration_keeps_credentials demo_keys false server_options demo_options _ eq_refl eq_refl eq_refl) as (Htok & Hprov & _).
  split.
  - apply (Htok "authToken" (PStr "runtime")); [by left|reflexivity|]. intros v [= <-]. by eexists.
  - destruct (Hprov 0%nat "google" _ ltac:(done) eq_refl eq_refl) as (q & Hq & Hcred & Hrest). exists q. split; [exact Hq|]. split.
    + rewrite Hcred by (right; by left). reflexivity.
    + apply Hrest; [|reflexivity..]. by apply (bool_decide_unpack _).
Defined.
(** A provider without a name loses its credentials. *)
Example unnamed_provider_loses :
  let server := [("oauth2", PDict [("providers", PList [PDict [("name", PStr ""); ("clientId", PStr "id")]])])] in
  value_at (PDict (match _merge_auth_options (generate_default_auth_options demo_keys false) server (_sanitize_auth_options server) with
                   | Ok o => o | Err _ => [] end))
    [Key "oauth2"; Key "providers"; Index 0; Key "clientId"] = None.
Proof. reflexivity. Qed.

Definition demo_field (id name : string) : pyval := PDict [("id", PStr id); ("name", PStr name); ("type", PStr "text")].
Definition demo_posts (name : string) (fields : list pyval) (rule : pyval) : CollectionRecord :=
  mkRecord (PStr "p1") (PStr name) (PStr "base") (PBool false) (PList fields) (PList []) rule PNone PNone PNone PNone (PDict []).
Definition posts_old : CollectionRecord := demo_posts "posts" [demo_field "a" "title"] PNone.
Definition posts_new : CollectionRecord := demo_posts "articles" [demo_field "a" "subject"; demo_field "b" "body"] (PStr "").
Definition demo_changes : json_dict * json_dict :=
  match update_changes (_serialize_collection posts_old) (_serialize_collection posts_new) with Ok c => c | Err _ => ([], []) end.
Lemma posts_plain name fields rule : plain (demo_posts name fields rule).
Proof. split_and!; [done|by eexists..|]. by exists []. Qed.
Lemma migrations_up_down_witness : created_collection demo_keys "new" (_serialize_collection posts_old) = Ok posts_old /\ exists r,
  apply_changes demo_keys posts_old demo_changes.1 = Ok r /\ apply_changes demo_keys r demo_changes.2 = Ok posts_old /\
  c_name r = PStr "articles".
Proof.
  destruct (migrations_up_down demo_keys "new" posts_old posts_new "p1" demo_changes.1 demo_changes.2 (posts_plain _ _ _) (posts_plain _ _ _)
    eq_refl eq_refl) as (Hnew & r & Hup & Hdown & Hkeys & _).
  split; [exact Hnew|]. exists r. split; [exact Hup|]. split; [exact Hdown|]. exact (Hkeys "name" ltac:(by left)).
Defined.
(** Fields in another order are no change. *)
Example order_not_migrated :
  update_changes (_serialize_collection (demo_posts "posts" [demo_field "a" "x"; demo_field "b" "y"] PNone))
    (_serialize_collection (demo_posts "posts" [demo_field "b" "y"; demo_field "a" "x"] PNone)) = Ok ([], []).
Proof. reflexivity. Qed.
(** An option that an update adds to an auth collection stays when it is reverted. *)
Definition auth_with (options : json_dict) : CollectionRecord :=
  mkRecord (PStr "c1") (PStr "users") (PStr "auth") (PBool false) (PList []) (PList []) PNone PNone PNone PNone PNone (PDict options).
Example auth_option_not_reverted :
  match update_changes (_serialize_collection (auth_with [])) (_serialize_collection (auth_with [("minPasswordLength", PInt 12)])) with
  | Ok (forward, reverse) =>
      match (r ← apply_changes demo_keys (auth_with []) forward; apply_changes demo_keys r reverse) with
      | Ok r => dict_get "minPasswordLength" (dict_or_empty (c_options r))
      | Err _ => None
      end
  | Err _ => None
  end = Some (PInt 12).
Proof. reflexivity. Qed.
End Demo.
