(* ===== verification/MigrationFiles.v ===== *)
(** * The files of generated migrations (ppbase/services/migration_generator.py)

    What the files say, and the writers that publish them: the reservation of a
    timestamp, the hard link, and the removal of the reservation, interleaved
    with those of other writers in the same directory. *)
From Stdlib Require Import Ascii String.
From Stdlib Require Import DecimalString DecimalPos DecimalZ.
From stdpp Require Import relations.
From S2P Require Import Prelude PyText PyVal MigrationRun MigrationText MigrationGen.
#[local] Open Scope string_scope.
#[local] Open Scope list_scope.

(** ** Names *)
(** [_TIMESTAMPED_FILENAME_RE.fullmatch], its groups not yet read. *)
Definition is_rest (rest : string) : bool :=
  starts_with "_" rest && ends_with ".py" rest && (5 <=? String.length rest)%nat && negb (contains_char newline rest).
Definition timestamped (name : string) : option (string * string) :=
  let '(digits, rest) := span is_decimal name in
  if negb (String.eqb digits "") && is_rest rest then Some (digits, rest) else None.
(** [_TIMESTAMP_RESERVATION_RE.fullmatch] *)
Definition reservation_prefix : string := ".ppbase-migration-".
Definition reserved (name : string) : option string :=
  r ← strip_prefix reservation_prefix name;
  let '(digits, rest) := span is_decimal r in
  if negb (String.eqb digits "") && String.eqb rest ".reserve" then Some digits else None.
Definition reservation_name (timestamp : Z) : string := reservation_prefix +:+ str_of_Z timestamp +:+ ".reserve".
Definition file_name (timestamp : Z) (rest : string) : string := str_of_Z timestamp +:+ rest.
Definition timestamp_text (name : string) : option string :=
  match timestamped name with Some (digits, _) => Some digits | None => reserved name end.

(** [_max_reserved_timestamp]; [None] outside is the [ValueError] of [int]. *)
Definition _max_reserved_timestamp (names : list string) : option (option Z) :=
  foldr (fun name more =>
    largest ← more;
    match timestamp_text name with
    | None => Some largest
    | Some digits => t ← int_of_str digits; Some (Some (match largest with None => t | Some l => Z.max l t end))
    end) (Some None) names.

(** ** Writers *)
Abbreviation directory := (gmap string string).
Inductive phase : Type :=
| Scan (requested : Z)               (* at the head of [_reserve_timestamp]'s loop *)
| Reserve (timestamp : Z)            (* about to open the reservation *)
| Link (timestamp : Z)               (* about to link the file *)
| Sync (timestamp : Z)               (* linked, about to flush the directory *)
| Release (timestamp : Z) (next : phase)   (* about to unlink the reservation *)
| Returned (name : string)
| Raised.
Record Writer : Type := mkWriter { w_rest : string; w_content : string; w_phase : phase }.
Definition at_phase (w : Writer) (p : phase) : Writer := mkWriter (w_rest w) (w_content w) p.
(** What an operation does: it succeeds, or raises an [OSError] other than
    [FileExistsError]; after a flush that raised, the file may be unlinked or not. *)
Inductive outcome : Type := Succeeds | Fails (unlinked : bool).
Definition act (o : outcome) (w : Writer) (d : directory) : option (Writer * directory) :=
  let go p d := Some (at_phase w p, d) in
  match w_phase w, o with
  | Scan _, Fails _ | Reserve _, Fails _ => go Raised d
  | Scan requested, Succeeds =>
      match _max_reserved_timestamp (map_to_list d).*1 with
      | None => go Raised d
      | Some largest => go (Reserve (Z.max requested (match largest with Some l => l + 1 | None => requested end))) d
      end
  | Reserve t, Succeeds =>
      match d !! reservation_name t with
      | Some _ => go (Scan (t + 1)) d
      | None => go (Link t) (<[reservation_name t := ""]> d)
      end
  | Link t, Fails _ => go (Release t Raised) d
  | Link t, Succeeds =>
      match d !! file_name t (w_rest w) with
      | Some _ => go (Release t (Scan (t + 1))) d
      | None => go (Sync t) (<[file_name t (w_rest w) := w_content w]> d)
      end
  | Sync t, Fails unlinked => go (Release t Raised) (if unlinked then delete (file_name t (w_rest w)) d else d)
  | Sync t, Succeeds => go (Release t (Returned (file_name t (w_rest w)))) d
  | Release t _, Fails _ => go Raised d
  | Release t next, Succeeds => go next (delete (reservation_name t) d)
  | Returned _, _ | Raised, _ => None
  end%Z.

(** Any number of writers, one operation of one of them at a time. *)
Definition system : Type := directory * list Writer.
Definition system_step (s s' : system) : Prop := exists i o w w' d,
  s.2 !! i = Some w /\ act o w s.1 = Some (w', d) /\ s' = (d, <[i := w']> s.2).
(** A writer as [_write_migration_file] calls it. *)
Definition starting (w : Writer) : Prop := is_rest (w_rest w) = true /\ exists requested, (0 <= requested)%Z /\ w_phase w = Scan requested.

(** ** What a writer owns *)
Fixpoint phase_entries (rest content : string) (p : phase) : list (string * string) :=
  match p with
  | Link t => [(reservation_name t, "")]
  | Sync t => [(file_name t rest, content); (reservation_name t, "")]
  | Release t next => (reservation_name t, "") :: phase_entries rest content next
  | Returned name => [(name, content)]
  | _ => []
  end.
Definition entries (w : Writer) : list (string * string) := phase_entries (w_rest w) (w_content w) (w_phase w).
(** A writer leaves the directory alone, gives up entries, adds one that it owns,
    or deletes one that it owned. *)
Definition effect (w w' : Writer) (d d' : directory) : Prop :=
  d' = d /\ entries w' ⊆+ entries w \/
  (exists n c, d !! n = None /\ d' = <[n := c]> d /\ entries w' ≡ₚ (n, c) :: entries w) \/
  (exists n c es, d' = delete n d /\ entries w ≡ₚ (n, c) :: es /\ entries w' ⊆+ es).

(** ** Numbers in names *)
Lemma int_digits_acc u : forall p z n, z = Zpos p -> exists m, int_digits true z n (NilEmpty.string_of_uint u) = Some (Zpos (Pos.of_uint_acc u p), m).
Proof.
  induction u; intros p z n ->; [by exists n|..]; cbn [NilEmpty.string_of_uint Pos.of_uint_acc];
    apply IHu; cbn -[Z.mul Z.add Pos.mul Pos.add]; lia.
Qed.
Lemma int_digits_uint u : forall b n z m, int_digits b 0 n (NilEmpty.string_of_uint u) = Some (z, m) -> z = Z.of_N (Pos.of_uint u).
Proof.
  induction u; intros b n z m; cbn [NilEmpty.string_of_uint Pos.of_uint].
  1: cbn; by destruct b; intros [= <- _].
  1: apply IHu.
  all: match goal with |- context[Npos (Pos.of_uint_acc ?u ?q)] => intros Hd; destruct (int_digits_acc u q (Zpos q) (S n) eq_refl) as [m' Hm];
    assert (Hs : int_digits true (Zpos q) (S n) (NilEmpty.string_of_uint u) = Some (z, m)) by exact Hd; rewrite Hm in Hs; by injection Hs as <- _ end.
Qed.
Lemma digit_not_space c : is_ascii_digit c = true -> is_space c = false.
Proof. destruct c as [[] [] [] [] [] [] [] []]; by vm_compute. Qed.
Lemma digit_no_sign c : is_ascii_digit c = true -> (code c =? 45)%N = false /\ (code c =? 43)%N = false.
Proof. destruct c as [[] [] [] [] [] [] [] []]; by vm_compute. Qed.
Lemma rstrip_digits s : str_forall is_ascii_digit s = true -> py_rstrip s = s.
Proof.
  induction s as [|c s IH]; [done|]. cbn. intros [Hc Hs]%andb_true_iff. rewrite (IH Hs), (digit_not_space c Hc). by destruct s.
Qed.
Lemma strip_digits s : str_forall is_ascii_digit s = true -> py_strip s = s.
Proof.
  intros Hs. unfold py_strip. rewrite (rstrip_digits s Hs). destruct s as [|c s]; [done|]. cbn in *.
  apply andb_true_iff in Hs as [Hc _]. by rewrite (digit_not_space c Hc).
Qed.
Lemma int_of_str_digits u z : u <> Decimal.Nil -> int_of_str (NilEmpty.string_of_uint u) = Some z -> z = Z.of_N (Pos.of_uint u).
Proof.
  intros Hu. unfold int_of_str. assert (Hd : str_forall is_ascii_digit (NilEmpty.string_of_uint u) = true) by (clear; by induction u).
  rewrite (strip_digits _ Hd). intros Hz. assert (Hb : exists m, int_digits false 0 0 (NilEmpty.string_of_uint u) = Some (z, m)).
  { destruct (NilEmpty.string_of_uint u) as [|c t] eqn:Ht; [discriminate|]. cbn in Hd. apply andb_true_iff in Hd as [Hc _].
    destruct (digit_no_sign c Hc) as [H45 H43].
    rewrite H45, H43 in Hz. destruct (int_digits false 0 0 (String c t)) as [[z' m]|]; [|discriminate]. case_match; [|discriminate].
    injection Hz as <-. by exists m. }
  destruct Hb as [m Hb]. by apply int_digits_uint in Hb.
Qed.
(** What [int] reads in the text of a number is that number. *)
Lemma int_of_str_text t z : (0 <= t)%Z -> int_of_str (str_of_Z t) = Some z -> z = t.
Proof.
  intros Ht. unfold str_of_Z. destruct t as [|p|p]; [by vm_compute; intros [= <-]| |lia]. cbn [Z.to_int NilZero.string_of_int].
  assert (Hn : Pos.to_uint p <> Decimal.Nil) by apply Unsigned.to_uint_nonnil.
  replace (NilZero.string_of_uint (Pos.to_uint p)) with (NilEmpty.string_of_uint (Pos.to_uint p)) by (by destruct (Pos.to_uint p)).
  intros ->%int_of_str_digits; [|done]. by rewrite Unsigned.of_to.
Qed.
Lemma text_digits t : (0 <= t)%Z -> str_forall is_decimal (str_of_Z t) = true /\ str_of_Z t <> "".
Proof. intros Ht. destruct (str_of_Z_numeral t) as (ds & Hds & Hne & _ & Heq). by rewrite (Heq Ht). Qed.
Lemma timestamped_file t rest : (0 <= t)%Z -> is_rest rest = true -> timestamped (file_name t rest) = Some (str_of_Z t, rest).
Proof.
  intros Ht Hr. destruct (text_digits t Ht) as [Hd Hne]. unfold timestamped, file_name. rewrite span_exact; [|done|].
  - rewrite Hr. by apply String.eqb_neq in Hne as ->.
  - unfold is_rest in Hr. rewrite !andb_true_iff, starts_with_app in Hr. destruct Hr as [[[[u ->] _] _] _]. done.
Qed.
Lemma timestamp_reservation t : (0 <= t)%Z -> timestamp_text (reservation_name t) = Some (str_of_Z t).
Proof.
  intros Ht. destruct (text_digits t Ht) as [Hd Hne]. unfold timestamp_text, reserved, reservation_name.
  assert (timestamped (reservation_prefix +:+ str_of_Z t +:+ ".reserve") = None) as -> by done.
  assert (strip_prefix reservation_prefix (reservation_prefix +:+ str_of_Z t +:+ ".reserve") = Some (str_of_Z t +:+ ".reserve")) as -> by done.
  cbn [mbind option_bind]. rewrite span_exact by done. by apply String.eqb_neq in Hne as ->.
Qed.
Lemma max_reserved names n digits largest : _max_reserved_timestamp names = Some largest -> n ∈ names ->
  timestamp_text n = Some digits -> exists t l, int_of_str digits = Some t /\ largest = Some l /\ (t <= l)%Z.
Proof.
  revert largest. induction names as [|m names IH]; intros largest; [by intros _ Hin%not_elem_of_nil|].
  cbn [_max_reserved_timestamp foldr]. change (foldr _ _ names) with (_max_reserved_timestamp names).
  intros (more & Hmore & Hm)%bind_Some Hin Hn. apply elem_of_cons in Hin as [->|Hin].
  - rewrite Hn in Hm. apply bind_Some in Hm as (t & Ht & [= <-]). exists t. eexists. split_and!; [done..|]. destruct more; lia.
  - destruct (IH more Hmore Hin Hn) as (t & l & Ht & -> & Hl).
    destruct (timestamp_text m); [apply bind_Some in Hm as (t' & _ & [= <-])|injection Hm as <-]; exists t; eexists; split_and!; try done; lia.
Qed.

(** ** No writer disturbs another *)
Lemma act_effect o w d w' d' : act o w d = Some (w', d') -> effect w w' d d' /\ w_rest w' = w_rest w /\ w_content w' = w_content w.
Proof.
  destruct w as [rest content p]. unfold act, effect, entries, at_phase. cbn [w_rest w_content w_phase].
  destruct p as [requested|t|t|t|t next|name|], o as [|unlinked]; try discriminate; repeat case_match; intros [= <- <-];
    cbn [w_rest w_content w_phase phase_entries]; (split; [|done]).
  all: try (left; split; [done|]; solve [reflexivity | by repeat constructor | apply submseteq_nil_l]).
  - right. left. eexists _, _. split_and!; [eassumption|done|done].
  - right. left. eexists _, _. split_and!; [eassumption|done|done].
  - right. right. eexists _, _, _. split_and!; done.
  - right. right. eexists _, _, _. split_and!; done.
Qed.

(** Entries owned together with those that were there before. *)
Definition owned (before : directory) (all : list (string * string)) (d : directory) : Prop :=
  NoDup all.*1 /\ (forall n c, (n, c) ∈ all -> d !! n = Some c /\ before !! n = None) /\ before ⊆ d.
Lemma owned_less before all all' d : all' ⊆+ all -> owned before all d -> owned before all' d.
Proof.
  intros Hs (Hnd & Hin & Hb). split_and!; [|by intros n c Hnc; apply Hin; eapply elem_of_submseteq|done].
  apply submseteq_Permutation in Hs as [more Hp]. rewrite Hp, fmap_app in Hnd. by apply NoDup_app in Hnd as [Hnd _].
Qed.
#[export] Instance owned_perm before : Proper ((≡ₚ) ==> (=) ==> iff) (owned before).
Proof. intros l1 l2 Hl d ? <-. split; apply owned_less; by rewrite Hl. Qed.
Lemma owned_add before all d n c : d !! n = None -> owned before all d -> owned before ((n, c) :: all) (<[n := c]> d).
Proof.
  intros Hn (Hnd & Hin & Hb). split_and!.
  - cbn. constructor; [|done]. intros ((n' & c') & Heq & Hc)%list_elem_of_fmap. cbn in Heq. subst n'. destruct (Hin _ _ Hc). congruence.
  - intros n' c' [[= -> ->]|Hc]%elem_of_cons.
    + rewrite lookup_insert_eq. split; [done|]. by apply (lookup_weaken_None before d).
    + destruct (Hin _ _ Hc) as [Hd Hnone]. rewrite lookup_insert_ne by congruence. done.
  - by apply insert_subseteq_r; [apply (lookup_weaken_None before d)|].
Qed.
Lemma owned_remove before all d n c : owned before ((n, c) :: all) d -> owned before all (delete n d).
Proof.
  intros (Hnd & Hin & Hb). cbn in Hnd. apply NoDup_cons in Hnd as [Hni Hnd]. split_and!; [done|..].
  - intros n' c' Hc. destruct (Hin n' c' ltac:(by right)) as [Hd Hnone]. rewrite lookup_delete_ne; [done|].
    intros ->. apply Hni. apply (list_elem_of_fmap_2 fst) in Hc. exact Hc.
  - destruct (Hin n c ltac:(by left)) as [_ Hnone]. apply map_subseteq_spec. intros k v Hk. rewrite lookup_delete_ne by congruence.
    by eapply lookup_weaken.
Qed.
Lemma owned_effect before w w' d d' others : effect w w' d d' -> owned before (entries w ++ others) d -> owned before (entries w' ++ others) d'.
Proof.
  intros [(-> & Hs)|[(n & c & Hn & -> & ->)|(n & c & es & -> & Hes & Hs)]] Ho.
  - eapply owned_less; [|done]. by apply submseteq_skips_r.
  - by apply owned_add.
  - rewrite Hes in Ho. apply owned_remove in Ho. eapply owned_less; [|done]. by apply submseteq_skips_r.
Qed.
Definition all_entries (ws : list Writer) : list (string * string) := ws ≫= entries.
Definition consistent (before : directory) (s : system) : Prop := owned before (all_entries s.2) s.1.
Lemma all_entries_at ws i w : ws !! i = Some w -> exists others,
  all_entries ws ≡ₚ entries w ++ others /\ forall w', all_entries (<[i := w']> ws) ≡ₚ entries w' ++ others.
Proof.
  intros Hi. apply list_elem_of_split_length in Hi as (l1 & l2 & -> & ->). exists (all_entries l1 ++ all_entries l2).
  unfold all_entries. assert (Hp : forall x, (l1 ++ x :: l2) ≫= entries ≡ₚ entries x ++ (l1 ≫= entries) ++ (l2 ≫= entries)).
  { intros x. rewrite bind_app, bind_cons. rewrite !app_assoc, (Permutation_app_comm (l1 ≫= entries) (entries x)). done. }
  split; [apply Hp|]. intros w'.
  replace (<[length l1 := w']> (l1 ++ w :: l2)) with (l1 ++ w' :: l2); [apply Hp|]. by rewrite insert_app_r_alt, Nat.sub_diag.
Qed.
Lemma step_consistent before s s' : system_step s s' -> consistent before s -> consistent before s'.
Proof.
  intros (i & o & w & w' & d & Hi & Hact & ->) Hc. destruct s as [d0 ws]. unfold consistent in *. cbn [fst snd] in *.
  destruct (all_entries_at ws i w Hi) as (others & Hall & Hall'). rewrite Hall in Hc. rewrite Hall'.
  apply act_effect in Hact as [He _]. by eapply owned_effect.
Qed.
Lemma steps_consistent before s s' : rtc system_step s s' -> consistent before s -> consistent before s'.
Proof. induction 1; [done|]. intros Hc. by eapply IHrtc, step_consistent. Qed.
Lemma starting_consistent d ws : Forall starting ws -> consistent d (d, ws).
Proof.
  intros Hs. unfold consistent, all_entries. cbn [fst snd]. assert (ws ≫= entries = []) as ->.
  { induction Hs as [|w ws (_ & r & _ & Hp) _ IH]; [done|]. cbn. unfold entries at 1. by rewrite Hp, IH. }
  split_and!; [constructor|by intros ? ? ?%not_elem_of_nil|done].
Qed.
Lemma owner_unique (ws : list Writer) i j w w' n : NoDup (all_entries ws).*1 -> ws !! i = Some w -> ws !! j = Some w' ->
  n ∈ (entries w).*1 -> n ∈ (entries w').*1 -> i = j.
Proof.
  intros Hnd Hi Hj Hn Hn'. destruct (decide (i = j)) as [|Hne]; [done|]. destruct (all_entries_at ws i w Hi) as (others & Hall & Hall').
  rewrite Hall, fmap_app in Hnd. apply NoDup_app in Hnd as (_ & Hd & _). destruct (Hd n Hn).
  specialize (Hall' (at_phase w Raised)). cbn [entries at_phase phase_entries w_phase app] in Hall'. rewrite <- Hall'.
  unfold all_entries. apply list_elem_of_fmap in Hn' as ((n' & c) & -> & Hc). apply list_elem_of_fmap. exists (n', c). split; [done|].
  apply list_elem_of_bind. exists w'. split; [done|]. apply list_elem_of_lookup. exists j. by rewrite list_lookup_insert_ne.
Qed.
Lemma entries_owned before s i w n c : consistent before s -> s.2 !! i = Some w -> (n, c) ∈ entries w -> s.1 !! n = Some c /\ before !! n = None.
Proof.
  intros (_ & Hin & _) Hi Hc. apply Hin. unfold all_entries. apply list_elem_of_bind. exists w. split; [done|]. by eapply list_elem_of_lookup_2.
Qed.

(** C20: writers of migrations share a directory safely.  However their file
    operations interleave and whichever of them fail, every file that was there
    stays with its content, a file whose writer returned its name holds what
    that writer wrote and was not there before, no two writers return the same
    name, and no two hold a reservation of the same timestamp. *)
Theorem writers_share_directory d0 ws0 s (Hs : Forall starting ws0) (Hrun : rtc system_step (d0, ws0) s) :
  d0 ⊆ s.1 /\
  (forall i w n, s.2 !! i = Some w -> w_phase w = Returned n -> s.1 !! n = Some (w_content w) /\ d0 !! n = None) /\
  (forall i j w w' n, s.2 !! i = Some w -> s.2 !! j = Some w' -> w_phase w = Returned n -> w_phase w' = Returned n -> i = j) /\
  (forall i j w w' t, s.2 !! i = Some w -> s.2 !! j = Some w' -> (reservation_name t, "") ∈ entries w -> (reservation_name t, "") ∈ entries w' -> i = j).
Proof.
  pose proof (steps_consistent d0 _ _ Hrun (starting_consistent d0 ws0 Hs)) as Hc. pose proof Hc as (Hnd & _ & Hd).
  assert (Hret : forall w n, w_phase w = Returned n -> (n, w_content w) ∈ entries w) by (intros w n Hw; unfold entries; rewrite Hw; by left).
  split_and!; [done|..].
  - intros i w n Hi Hw. eapply entries_owned; [done..|]. by apply Hret.
  - intros i j w w' n Hi Hj Hw%Hret Hw'%Hret. eapply owner_unique; [done..| |]; [exact (list_elem_of_fmap_2 fst _ _ Hw)|exact (list_elem_of_fmap_2 fst _ _ Hw')].
  - intros i j w w' t Hi Hj Hw Hw'. eapply owner_unique; [done..| |]; [exact (list_elem_of_fmap_2 fst _ _ Hw)|exact (list_elem_of_fmap_2 fst _ _ Hw')].
Qed.

(** ** The order of the files *)
(** A phase that only publishes timestamps above [t0]. *)
Fixpoint above (t0 : Z) (rest : string) (p : phase) : Prop :=
  match p with
  | Scan r => (0 <= r)%Z
  | Raised => True
  | Reserve t | Link t | Sync t => (t0 < t)%Z
  | Release t next => (t0 < t)%Z /\ above t0 rest next
  | Returned name => exists t, name = file_name t rest /\ (t0 < t)%Z
  end.
Lemma act_above o w d w' d' n0 digits t0 : is_Some (d !! n0) -> timestamp_text n0 = Some digits -> int_of_str digits = Some t0 -> (0 <= t0)%Z ->
  act o w d = Some (w', d') -> above t0 (w_rest w) (w_phase w) -> above t0 (w_rest w') (w_phase w').
Proof.
  intros [c Hn0] Hdigits Ht0 Hpos. destruct w as [rest content p]. unfold act, at_phase. cbn [w_rest w_content w_phase].
  destruct p as [requested|t|t|t|t next|name|], o as [|unlinked]; try discriminate; repeat case_match; intros [= <- <-];
    cbn [w_rest w_content w_phase above]; try tauto; try lia.
  - intros Hr. destruct (max_reserved (map_to_list d).*1 n0 digits _ ltac:(eassumption)) as (t & l & Ht & [= ->] & Hle); [|done|].
    + apply list_elem_of_fmap. exists (n0, c). split; [done|]. by apply elem_of_map_to_list.
    + assert (t = t0) as -> by congruence. lia.
  - intros Hr. exfalso. destruct (max_reserved (map_to_list d).*1 n0 digits _ ltac:(eassumption)) as (t & l & Ht & Hl & Hle); [|done|done].
    apply list_elem_of_fmap. exists (n0, c). split; [done|]. by apply elem_of_map_to_list.
  - intros Ht. split; [done|]. by exists t.
Qed.
(** Files that stay: those before any writer began, and those returned. *)
Definition settled (d0 : directory) (s : system) (n : string) : Prop :=
  is_Some (d0 !! n) \/ exists j w, s.2 !! j = Some w /\ w_phase w = Returned n.
Lemma step_settled d0 s s' n : system_step s s' -> settled d0 s n -> settled d0 s' n.
Proof.
  intros (i & o & w & w' & d & Hi & Hact & ->) [Hd|(j & v & Hj & Hv)]; [by left|right]. exists j, v. split; [|done]. cbn [snd].
  rewrite list_lookup_insert_ne; [done|]. intros ->. assert (v = w) as -> by congruence. unfold act in Hact. by rewrite Hv in Hact.
Qed.
Lemma settled_present d0 s n : consistent d0 s -> settled d0 s n -> is_Some (s.1 !! n).
Proof.
  intros Hc [[c Hd]|(j & w & Hj & Hw)].
  - exists c. destruct Hc as (_ & _ & Hs). by eapply lookup_weaken.
  - exists (w_content w). eapply (entries_owned d0 s j w); [done..|]. unfold entries. rewrite Hw. by left.
Qed.
Lemma steps_above d0 s s' i w n0 digits t0 : timestamp_text n0 = Some digits -> int_of_str digits = Some t0 -> (0 <= t0)%Z ->
  rtc system_step s s' -> consistent d0 s -> settled d0 s n0 -> s.2 !! i = Some w -> above t0 (w_rest w) (w_phase w) ->
  forall w', s'.2 !! i = Some w' -> w_rest w' = w_rest w /\ above t0 (w_rest w') (w_phase w').
Proof.
  intros Hdigits Ht0 Hpos Hrun. revert w. induction Hrun as [s|s1 s2 s3 Hstep _ IH]; intros w Hc Hset Hi Habove w' Hi'.
  - assert (w' = w) as -> by congruence. done.
  - pose proof (step_consistent _ _ _ Hstep Hc) as Hc2. pose proof (step_settled _ _ _ _ Hstep Hset) as Hset2.
    destruct Hstep as (k & o & v & v' & d & Hk & Hact & ->). cbn [fst snd] in *. destruct (decide (k = i)) as [->|Hne].
    + assert (v = w) as -> by congruence. pose proof (act_effect _ _ _ _ _ Hact) as (_ & Hrest & _).
      destruct (IH v' Hc2 Hset2) with (w' := w') as [Hr Ha]; [|apply (act_above o w s1.1 v' d n0 digits t0); try done; by eapply settled_present|done|].
      * apply list_lookup_insert_eq. by eapply lookup_lt_Some.
      * split; [by rewrite Hr|exact Ha].
    + apply (IH w Hc2 Hset2); [by rewrite list_lookup_insert_ne|done|done].
Qed.

Lemma key_timestamp n digits rest z : timestamped n = Some (digits, rest) -> _migration_sort_key n = Some (z, n) -> int_of_str digits = Some z.
Proof.
  unfold timestamped, _migration_sort_key. destruct (span is_decimal n) as [ds r]. destruct (String.eqb ds "") eqn:Hds; [discriminate|].
  destruct (negb false && is_rest r); [|discriminate]. intros [= -> ->] Hz. apply bind_Some in Hz as (z' & Hz & [= ->]). done.
Qed.
Lemma int_of_str_nonneg u z : str_forall is_decimal u = true -> int_of_str u = Some z -> (0 <= z)%Z.
Proof.
  intros Hd. unfold int_of_str. rewrite (strip_digits u Hd). destruct u as [|c u]; [discriminate|].
  assert (Hc : is_ascii_digit c = true) by (cbn in Hd; by apply andb_true_iff in Hd as [Hc _]). destruct (digit_no_sign c Hc) as [-> ->].
  destruct (int_digits false 0 0 (String c u)) as [[z' m]|] eqn:Hz; [|discriminate]. case_match; [|discriminate]. intros [= <-].
  revert Hz. assert (Hacc : forall s b acc n z m, str_forall is_decimal s = true -> (0 <= acc)%Z -> int_digits b acc n s = Some (z, m) -> (0 <= z)%Z).
  { clear. induction s as [|c s IH]; intros b acc n z m Hs Ha; cbn [int_digits].
    - destruct b; [|discriminate]. by intros [= <- _].
    - cbn in Hs. apply andb_true_iff in Hs as [Hc Hs]. unfold is_decimal in Hc. rewrite Hc. apply (IH _ _ _ _ _ Hs).
      assert (48 <= code c)%N; [|lia]. revert Hc. unfold is_ascii_digit, in_range. rewrite andb_true_iff, !N.leb_le. tauto. }
  by apply Hacc.
Qed.

(** A migration sorts after those before it.  A writer that starts when a
    migration is already there, published before any writer began or returned by
    another writer, and that then returns a name, in whatever way its operations
    interleave with those of the other writers, returns one whose number, by
    which the runner orders the files, is the larger. *)
Theorem migration_sorts_after d0 ws0 s s' i w w' n0 k0 n k (Hs : Forall starting ws0) (Hrun : rtc system_step (d0, ws0) s)
  (Hset : settled d0 s n0) (Hn0 : is_Some (timestamped n0)) (Hk0 : _migration_sort_key n0 = Some k0)
  (Hi : s.2 !! i = Some w) (Hstart : starting w) (Hrun' : rtc system_step s s')
  (Hi' : s'.2 !! i = Some w') (Hret : w_phase w' = Returned n) (Hk : _migration_sort_key n = Some k) :
  (k0.1 < k.1)%Z.
Proof.
  destruct Hn0 as [[digits rest] Hn0]. assert (Hk0' : k0.2 = n0 /\ k.2 = n).
  { unfold _migration_sort_key in *. do 2 destruct (span is_decimal _). repeat case_match; simplify_eq/=; auto;
    repeat match goal with H : _ ≫= _ = Some _ |- _ => apply bind_Some in H as (? & _ & [= <-]) end; auto. }
  destruct k0 as [t0 m0], k as [t m], Hk0' as [Hm0 Hm]. cbn [fst snd] in *. subst m0 m.
  pose proof (key_timestamp _ _ _ _ Hn0 Hk0) as Ht0. destruct Hstart as (Hrest & r & Hr & Hw).
  assert (Hdec : str_forall is_decimal digits = true).
  { unfold timestamped in Hn0. pose proof (span_all is_decimal n0) as Ha. destruct (span is_decimal n0). case_match; [|done]. by injection Hn0 as <- _. }
  pose proof (int_of_str_nonneg _ _ Hdec Ht0) as Hpos.
  destruct (steps_above d0 s s' i w n0 digits t0) with (w' := w') as [Hr' Habove]; try done.
  { unfold timestamp_text. by rewrite Hn0. }
  { eapply steps_consistent; [done|]. by apply starting_consistent. }
  { by rewrite Hw. }
  rewrite Hret in Habove. destruct Habove as (t' & -> & Ht'). rewrite Hr' in Hk.
  pose proof (timestamped_file t' (w_rest w) ltac:(lia) Hrest) as Hts. pose proof (key_timestamp _ _ _ _ Hts Hk) as Hz.
  apply int_of_str_text in Hz; lia.
Qed.

(** ** A writer alone *)
Fixpoint run_alone (n : nat) (w : Writer) (d : directory) : option (Writer * directory) :=
  match n with O => Some (w, d) | S n => '(w, d) ← act Succeeds w d; run_alone n w d end.
Lemma fresh_names (d : directory) t rest largest : _max_reserved_timestamp (map_to_list d).*1 = Some largest -> (0 <= t)%Z -> is_rest rest = true ->
  (forall l, largest = Some l -> (l < t)%Z) -> d !! reservation_name t = None /\ d !! file_name t rest = None.
Proof.
  intros Hmax Ht Hr Hl. assert (Hfresh : forall n, timestamp_text n = Some (str_of_Z t) -> d !! n = None).
  { intros n Hn. destruct (d !! n) as [c|] eqn:Hd; [|done]. exfalso.
    destruct (max_reserved (map_to_list d).*1 n (str_of_Z t) _ Hmax) as (t' & l & Ht' & -> & Hle); [|done|].
    - apply list_elem_of_fmap. exists (n, c). split; [done|]. by apply elem_of_map_to_list.
    - apply int_of_str_text in Ht' as ->; [|done]. specialize (Hl l eq_refl). lia. }
  split; apply Hfresh; [by apply timestamp_reservation|]. unfold timestamp_text. by rewrite timestamped_file.
Qed.

(** A writer that is alone publishes its file at once.  From its start, in a
    directory whose names hold numbers that [int] reads, it returns after one
    scan, one reservation, one link, one flush and one release; the directory
    then has its file, under a name that was free, and nothing else is changed. *)
Theorem writer_alone_returns w (d : directory) (Hw : starting w) (Hd : is_Some (_max_reserved_timestamp (map_to_list d).*1)) :
  exists n, run_alone 5 w d = Some (at_phase w (Returned n), <[n := w_content w]> d) /\ d !! n = None.
Proof.
  destruct w as [rest content p], Hw as (Hrest & requested & Hreq & Hp), Hd as [largest Hmax]. cbn [w_rest w_phase] in *. subst p.
  set (t := Z.max requested (match largest with Some l => l + 1 | None => requested end)%Z).
  destruct (fresh_names d t rest largest Hmax) as [Hres Hfile]; [lia|done|intros l ->; lia|].
  assert (Hne : reservation_name t <> file_name t rest).
  { intros Heq. pose proof (timestamped_file t rest ltac:(lia) Hrest) as Hf. by rewrite <- Heq in Hf. }
  exists (file_name t rest). split; [|done]. unfold at_phase. cbn [run_alone act w_rest w_content w_phase at_phase]. rewrite Hmax.
  cbn [mbind option_bind run_alone act w_rest w_content w_phase at_phase]. fold t. rewrite Hres.
  cbn [mbind option_bind run_alone act w_rest w_content w_phase at_phase]. rewrite lookup_insert_ne, Hfile by done.
  cbn [mbind option_bind run_alone act w_rest w_content w_phase at_phase]. rewrite insert_insert_ne by done.
  by rewrite delete_insert_id by (by rewrite lookup_insert_ne).
Qed.

(** ** What the files say *)
Definition quotes : string := dq +:+ dq +:+ dq.
Definition lines_of (ls : list string) : string := join line ls.
Section Contents.
Context `{FloatText}.
Definition header (title : string) (name : string) : list string :=
  [quotes +:+ "Auto-generated migration: " +:+ title +:+ " collection '" +:+ name +:+ "'." +:+ quotes; ""; ""].
Definition function_start (name doc : string) : list string :=
  ["async def " +:+ name +:+ "(app):"; "    " +:+ quotes +:+ doc +:+ quotes].
Definition define (r : CollectionRecord) : list string :=
  ["    definition = " +:+ _format_value 4 4 (PDict (_serialize_collection r)); "    await app.create_collection(definition)"].
Definition drop (r : CollectionRecord) : list string := ["    await app.delete_collection(" +:+ py_repr (c_id r) +:+ ")"].
Definition create_content (r : CollectionRecord) (name : string) : string :=
  lines_of (header "create" name ++ function_start "up" "Apply migration: create collection." ++ define r ++ ["";  ""]
    ++ function_start "down" "Revert migration: delete collection." ++ drop r ++ [""]).
Definition delete_content (r : CollectionRecord) (name : string) : string :=
  lines_of (header "delete" name ++ function_start "up" "Apply migration: delete collection." ++ drop r ++ [""; ""]
    ++ function_start "down" "Revert migration: recreate collection." ++ define r ++ [""]).
(** The body of [up] or [down] of an update. *)
Definition change (collection_id : pyval) (changes : json_dict) (none : string) : list string :=
  ["    collection = await app.find_collection(" +:+ py_repr collection_id +:+ ")"; ""] ++
  match changes with
  | [] => [none]
  | _ => ["    changes = " +:+ _format_value 4 4 (PDict changes);
          "    await app.update_collection(" +:+ py_repr collection_id +:+ ", changes)"]
  end.
Definition update_content (collection_id : pyval) (name : string) (forward reverse : json_dict) : string :=
  lines_of (header "update" name ++ function_start "up" "Apply migration: update collection."
    ++ change collection_id forward "    # No changes detected" ++ [""; ""]
    ++ function_start "down" "Revert migration: reverse collection update."
    ++ change collection_id reverse "    # No changes to revert" ++ [""]).

(** The writers that the generators start, at the time [now]; a name that is not
    text has no file name. *)
Definition text_name (v : pyval) : result gen_exn string := match v with PStr s => Ok s | _ => Err GenTypeError end.
Definition start_writer (now : Z) (action name content : string) : Writer :=
  mkWriter ("_" +:+ action +:+ "_" +:+ _safe_filename name +:+ ".py") content (Scan now).
Definition generate_create_migration (now : Z) (r : CollectionRecord) : result gen_exn Writer :=
  name ← text_name (c_name r); Ok (start_writer now "created" name (create_content r name)).
Definition generate_update_migration (now : Z) (old new : CollectionRecord) : result gen_exn Writer :=
  name ← text_name (c_name new);
  changes ← update_changes (_serialize_collection old) (_serialize_collection new);
  Ok (start_writer now "updated" name (update_content (c_id new) name changes.1 changes.2)).
Definition generate_delete_migration (now : Z) (r : CollectionRecord) : result gen_exn Writer :=
  name ← text_name (c_name r); Ok (start_writer now "deleted" name (delete_content r name)).
End Contents.

Lemma ends_with_app s suffix : ends_with suffix (s +:+ suffix) = true.
Proof.
  unfold ends_with. rewrite append_length. apply andb_true_iff. split; [apply Nat.leb_le; lia|].
  replace (String.length s + String.length suffix - String.length suffix)%nat with (String.length s) by lia.
  apply String.eqb_eq. by induction s.
Qed.
Lemma safe_no_newline name : contains_char newline (_safe_filename name) = false.
Proof.
  induction name as [|c name IH]; [done|]. cbn [_safe_filename contains_char]. rewrite IH. destruct (safe_char c) eqn:Hc; [|done].
  revert Hc. by destruct c as [[] [] [] [] [] [] [] []]; vm_compute.
Qed.
Lemma start_writer_starting now action name content : (0 <= now)%Z -> contains_char newline action = false -> action <> "" ->
  starting (start_writer now action name content).
Proof.
  intros Hnow Ha Hne. split; [|by exists now]. unfold start_writer, is_rest. cbn [w_rest].
  rewrite !andb_true_iff. split_and!; [done| | |].
  - rewrite <- !append_assoc. apply ends_with_app.
  - apply Nat.leb_le. rewrite !append_length. cbn. lia.
  - apply negb_true_iff. by rewrite !contains_char_concat, Ha, safe_no_newline.
Qed.

Lemma join_at l1 x y l2 : exists before after, lines_of (l1 ++ x :: y :: l2) = before +:+ x +:+ line +:+ y +:+ after.
Proof.
  unfold lines_of. induction l1 as [|z l1 (before & after & IH)].
  - exists "". destruct l2 as [|z l2]; [exists ""|exists (line +:+ join line (z :: l2))]; cbn [app join append]; by rewrite ?append_nil_r.
  - exists (z +:+ line +:+ before), after. rewrite !append_assoc, <- IH. by destruct l1.
Qed.
Section Reads.
Context `{FloatReaderLaws}.
(** After [intro], the content reads as [v], and then the line [next]. *)
Definition says (content intro : string) (v : pyval) (next : string) : Prop := exists before rest after,
  content = before +:+ intro +:+ rest /\ read_value (weight v) rest = Some (v, line +:+ next +:+ after).
Lemma lines_say l1 l2 intro v next : writable v = true -> says (lines_of (l1 ++ (intro +:+ _format_value 4 4 v) :: next :: l2)) intro v next.
Proof.
  intros Hv. destruct (join_at l1 (intro +:+ _format_value 4 4 v) next l2) as (before & after & Heq).
  exists before, (_format_value 4 4 v +:+ line +:+ next +:+ after), after. split; [by rewrite Heq, !append_assoc|].
  apply (format_reads v Hv 4 4); [done|done].
Qed.
End Reads.

Lemma writable_intro d : NoDup d.*1 -> (forall k v, dict_get k d = Some v -> writable v = true) -> writable (PDict d) = true.
Proof.
  intros Hnd Hv. cbn [writable]. rewrite bool_decide_eq_true_2 by done. apply forallb_forall. intros [k v] Hin%list_elem_of_In.
  apply (Hv k). by apply dict_get_nodup.
Qed.
Lemma writable_default d k x : writable x = true -> writable (PDict d) = true -> writable (default x (dict_get k d)) = true.
Proof. intros Hx Hd. destruct (dict_get k d) eqn:Hk; [by eapply writable_dict|done]. Qed.
Lemma omap_keys {A} (same : string -> bool) (v : string -> A) keys : NoDup keys ->
  NoDup (omap (fun key => if same key then None else Some (key, v key)) keys).*1.
Proof.
  intros Hnd. assert (Heq : (omap (fun key => if same key then None else Some (key, v key)) keys).*1 = filter (fun k => same k = false) keys).
  { clear. induction keys as [|k keys IH]; [done|]. cbn [omap list_omap]. rewrite filter_cons. destruct (same k); cbn; [done|]. by rewrite IH. }
  rewrite Heq. by apply NoDup_filter.
Qed.
Lemma update_writable old_dict new_dict forward reverse : writable (PDict old_dict) = true -> writable (PDict new_dict) = true ->
  update_changes old_dict new_dict = Ok (forward, reverse) -> writable (PDict forward) = true /\ writable (PDict reverse) = true.
Proof.
  intros Hold Hnew Hu. pose proof (update_changes_get _ _ _ _ Hu) as (kept & _ & Hget).
  assert (Hnd : NoDup forward.*1 /\ NoDup reverse.*1).
  { unfold update_changes in Hu. destruct (_compute_schema_diff _ _) as [diff|]; [|discriminate]. cbn [mbind result_bind] in Hu.
    rewrite (diff_values _ _ snd), (diff_values _ _ fst) in Hu.
    assert (Hc : NoDup compare_keys) by (apply (bool_decide_unpack _); by vm_compute).
    pose proof (omap_keys (unchanged old_dict new_dict) (fun k => snd (at_key old_dict k, at_key new_dict k)) _ Hc) as H1.
    pose proof (omap_keys (unchanged old_dict new_dict) (fun k => fst (at_key old_dict k, at_key new_dict k)) _ Hc) as H2.
    cbn [fst snd] in *. revert Hu H1 H2. generalize (omap (fun key => if unchanged old_dict new_dict key then None else Some (key, at_key new_dict key)) compare_keys).
    generalize (omap (fun key => if unchanged old_dict new_dict key then None else Some (key, at_key old_dict key)) compare_keys).
    intros rev fwd Hu H1 H2. destruct (added diff), (removed diff), (changed diff); injection Hu as <- <-; split; try done; by apply dict_set_nodup. }
  destruct Hnd as [H1 H2]. split; (apply writable_intro; [done|]); intros k v Hv; destruct (Hget k) as [Hf Hr];
    [rewrite Hf in Hv|rewrite Hr in Hv]; repeat case_match; simplify_eq; by apply writable_default.
Qed.

(** C19: what a generated migration passes to the application is what Python
    reads in the file.  In the file of a created or deleted collection the text
    after [definition =] reads back as the sanitized definition, and in that of
    an update the texts after [changes =] as the forward and the reverse
    changes, each followed by the call it is for; the floats of the collections
    are finite. *)
Theorem generated_migrations_read `{FloatReaderLaws} now old new w
  (Hold : writable (PDict (_serialize_collection old)) = true) (Hnew : writable (PDict (_serialize_collection new)) = true) :
  (generate_create_migration now new = Ok w ->
     says (w_content w) "    definition = " (PDict (_serialize_collection new)) "    await app.create_collection(definition)") /\
  (generate_delete_migration now new = Ok w ->
     says (w_content w) "    definition = " (PDict (_serialize_collection new)) "    await app.create_collection(definition)") /\
  (generate_update_migration now old new = Ok w -> exists forward reverse,
     update_changes (_serialize_collection old) (_serialize_collection new) = Ok (forward, reverse) /\
     let call := "    await app.update_collection(" +:+ py_repr (c_id new) +:+ ", changes)" in
     (forward <> [] -> says (w_content w) "    changes = " (PDict forward) call) /\
     (reverse <> [] -> says (w_content w) "    changes = " (PDict reverse) call)).
Proof.
  unfold generate_create_migration, generate_delete_migration, generate_update_migration.
  destruct (c_name new) as [| | | |name| |]; try (by split_and!). cbn [text_name mbind result_bind]. split_and!.
  - intros [= <-]. by apply (lines_say (header "create" name ++ function_start _ _)).
  - intros [= <-]. cbn [start_writer w_content]. unfold delete_content. rewrite (app_assoc (function_start _ _)), (app_assoc (header _ _)).
    rewrite (app_assoc _ [_; _]), (app_assoc _ (function_start _ _)). by apply lines_say.
  - destruct (update_changes _ _) as [[forward reverse]|] eqn:Hu; [|discriminate]. cbn [mbind result_bind fst snd]. intros [= <-].
    exists forward, reverse. split; [done|]. destruct (update_writable _ _ _ _ Hold Hnew Hu) as [Hf Hr]. cbn [start_writer w_content].
    unfold update_content, change. split; intros Hne.
    + destruct forward as [|c forward]; [done|]. cbn [app].
      apply (lines_say (header "update" name ++ function_start _ _ ++ [_; _])). done.
    + destruct reverse as [|c reverse]; [done|]. rewrite !app_assoc, <- (app_assoc _ _ [""]). cbn [app].
      by apply lines_say.
Qed.

(** ** Examples *)
Fixpoint run_trace (trace : list (nat * outcome)) (s : system) : option system :=
  match trace with
  | [] => Some s
  | (i, o) :: trace => w ← s.2 !! i; '(w', d) ← act o w s.1; run_trace trace (d, <[i := w']> s.2)
  end.
Lemma trace_steps trace : forall s s', run_trace trace s = Some s' -> rtc system_step s s'.
Proof.
  induction trace as [|[i o] trace IH]; intros s s'; cbn [run_trace]; [by intros [= ->]|].
  intros (w & Hi & ([w' d] & Hact & Hrun)%bind_Some)%bind_Some. eapply rtc_l; [|by apply IH]. by exists i, o, w, w', d.
Qed.
Definition demo_writer (rest content : string) : Writer := mkWriter rest content (Scan 10).
Lemma demo_starting rest content : is_rest rest = true -> starting (demo_writer rest content).
Proof. split; [done|]. by exists 10%Z. Qed.
Definition demo_dir : directory := {["7_init.py" := "first"]}.
Definition demo_writers : list Writer := [demo_writer "_updated_z.py" "up z"; demo_writer "_created_a.py" "new a"].
Lemma demo_all_starting : Forall starting demo_writers.
Proof. unfold demo_writers. rewrite !Forall_cons. split_and!; [by apply demo_starting..|constructor]. Qed.
Definition alone (i : nat) : list (nat * outcome) := replicate 5 (i, Succeeds).
Definition after (trace : list (nat * outcome)) : system := default (demo_dir, []) (run_trace trace (demo_dir, demo_writers)).
Definition first_then_second : system := after (alone 0 ++ alone 1).
Lemma after_steps trace : (if run_trace trace (demo_dir, demo_writers) then true else false) = true ->
  rtc system_step (demo_dir, demo_writers) (after trace).
Proof. unfold after. destruct (run_trace trace _) as [s|] eqn:Hs; [|done]. intros _. by apply (trace_steps trace). Qed.
Lemma writers_share_directory_witness :
  demo_dir ⊆ first_then_second.1 /\ first_then_second.1 !! "11_created_a.py" = Some "new a" /\ demo_dir !! "11_created_a.py" = None.
Proof.
  destruct (writers_share_directory demo_dir demo_writers first_then_second demo_all_starting (after_steps (alone 0 ++ alone 1) eq_refl))
    as (Hd & Hret & _).
  split; [exact Hd|]. exact (Hret 1%nat _ "11_created_a.py" eq_refl eq_refl).
Defined.
Lemma migration_sorts_after_witness : (10 < 11)%Z.
Proof.
  exact (migration_sorts_after demo_dir demo_writers (after (alone 0)) first_then_second 1 (demo_writer "_created_a.py" "new a") (at_phase (demo_writer "_created_a.py" "new a") (Returned "11_created_a.py"))
    "10_updated_z.py" (10, "10_updated_z.py")
    "11_created_a.py" (11, "11_created_a.py") demo_all_starting (after_steps (alone 0) eq_refl)
    ltac:(right; exists 0%nat; eexists; by split) ltac:(by eexists) eq_refl eq_refl (demo_starting "_created_a.py" "new a" eq_refl)
    (trace_steps (alone 1) (after (alone 0)) first_then_second eq_refl) eq_refl eq_refl eq_refl)%Z.
Defined.
Lemma writer_alone_returns_witness : exists n,
  run_alone 5 (demo_writer "_created_a.py" "new a") demo_dir =
    Some (at_phase (demo_writer "_created_a.py" "new a") (Returned n), <[n := "new a"]> demo_dir) /\ demo_dir !! n = None.
Proof. exact (writer_alone_returns (demo_writer "_created_a.py" "new a") demo_dir (demo_starting "_created_a.py" "new a" eq_refl) (ex_intro _ (Some 7%Z) eq_refl)). Defined.

(** A writer that scans before another reserves, and reserves after the other
    has released, publishes the same number: its file comes later and sorts
    first. *)
Definition raced : system := after ([(1%nat, Succeeds)] ++ alone 0 ++ replicate 4 (1%nat, Succeeds)).
Example writers_race :
  rtc system_step (demo_dir, demo_writers) raced /\
  w_phase <$> raced.2 = [Returned "10_updated_z.py"; Returned "10_created_a.py"] /\
  key_leb (10, "10_created_a.py")%Z (10, "10_updated_z.py")%Z = true.
Proof. split; [|by vm_compute]. by apply after_steps. Qed.

(** A generated file, with the writer and reader of floats of [MigrationText]. *)
Definition demo_generated : result gen_exn Writer := @generate_update_migration demo_float_text 1700000000 posts_old posts_new.
Definition demo_generated_writer : Writer := default (demo_writer "" "") (match demo_generated with Ok w => Some w | Err _ => None end).
Lemma generated_migrations_read_witness : exists forward reverse,
  update_changes (_serialize_collection posts_old) (_serialize_collection posts_new) = Ok (forward, reverse) /\
  (forward <> [] -> @says demo_float_reader (w_content demo_generated_writer) "    changes = " (PDict forward)
     "    await app.update_collection('p1', changes)").
Proof.
  destruct (@generated_migrations_read demo_float_text demo_float_reader demo_reader_laws 1700000000 posts_old posts_new demo_generated_writer
    eq_refl eq_refl) as (_ & _ & Hupdate).
  destruct (Hupdate eq_refl) as (forward & reverse & Hu & Hf & _). exists forward, reverse. split; [exact Hu|exact Hf].
Defined.
