(* ===== verification/MigrationSnapshot.v ===== *)
(** * Snapshots of all collections (ppbase/services/migration_generator.py)

    The definitions that a snapshot migration carries and their order: tables
    first, then the views in the order of their dependencies. *)
From Stdlib Require Import Ascii String.
From S2P Require Import Prelude PyText PyVal MigrationText MigrationGen.
#[local] Open Scope string_scope.
#[local] Open Scope list_scope.

(** ** The order of views *)
(** [str.casefold] *)
Definition fold_char (c : ascii) : string := if (code c =? 223)%N then "ss" else String (lower_char c) "".
Fixpoint casefold (s : string) : string := match s with EmptyString => "" | String c s => fold_char c +:+ casefold s end.
Definition pair_leb (a b : string * string) : bool := negb (str_leb b.1 a.1) || (String.eqb a.1 b.1 && str_leb a.2 b.2).
Inductive snapshot_exn : Type :=
| MissingID | MissingName | SeveralUsers
| Unresolved (views : list string)         (* cyclic or unresolved dependencies *)
| OutOfFuel.

Section Order.
Context `{FloatText}.
Definition str_at (definition : json_dict) (key : string) : string := py_str (default (PStr "") (dict_get key definition)).
Definition sort_key (definition : json_dict) : string * string := (casefold (str_at definition "name"), str_at definition "id").
Definition by_key {A} (key : A -> string * string) (l : list A) : list A := py_sorted (fun a b => pair_leb (key a) (key b)) l.
Definition has_type (t : string) (definition : json_dict) : bool := py_eqb (at_key definition "type") (PStr t).
(** [views_by_name] *)
Definition index_views (views : list json_dict) : list (string * json_dict) :=
  fold_left (fun d v => dict_set (py_str (at_key v "name")) v d) views [].
Definition dependency_map : Type := string -> list string.
(** The views that each view still waits for. *)
Definition initial_remaining (views_by_name : list (string * json_dict)) (dependencies : dependency_map) : list (string * list string) :=
  (fun name => (name, filter (fun d => dict_mem d views_by_name && negb (String.eqb d name) = true) (dependencies name))) <$> views_by_name.*1.
(** One pass of the loop: the views that wait for nothing, and the rest. *)
Definition ready_names (views_by_name : list (string * json_dict)) (remaining : list (string * list string)) : list string :=
  by_key (fun name => sort_key (default [] (dict_get name views_by_name))) (filter (fun r : string * list string => r.2 = []) remaining).*1.
Definition without_ready (ready : list string) (remaining : list (string * list string)) : list (string * list string) :=
  (fun r => (r.1, filter (fun d => d ∉ ready) r.2)) <$> filter (fun r => r.1 ∉ ready) remaining.
Fixpoint order_views (fuel : nat) (views_by_name : list (string * json_dict)) (remaining : list (string * list string)) : result snapshot_exn (list string) :=
  match remaining with
  | [] => Ok []
  | _ =>
      match fuel with
      | O => Err OutOfFuel
      | S fuel =>
          match ready_names views_by_name remaining with
          | [] => Err (Unresolved (py_sorted str_leb remaining.*1))
          | ready => rest ← order_views fuel views_by_name (without_ready ready remaining); Ok (ready ++ rest)
          end
      end
  end.
Definition _order_snapshot_collections (definitions : list json_dict) (view_dependencies : dependency_map) : result snapshot_exn (list json_dict) :=
  let tables := by_key sort_key (filter (fun d => has_type "view" d = false) definitions) in
  let views_by_name := index_views (filter (fun d => has_type "view" d = true) definitions) in
  let remaining := initial_remaining views_by_name view_dependencies in
  names ← order_views (length remaining) views_by_name remaining;
  Ok (tables ++ ((fun name => default [] (dict_get name views_by_name)) <$> names)).

(** [bool(v)], [v or other], [d.get(k, other)] *)
Definition py_bool (v : pyval) : pyval := PBool (truthy v).
Definition py_or (v other : pyval) : pyval := if truthy v then v else other.
Definition get_or (d : json_dict) (key : string) (other : pyval) : pyval := default other (dict_get key d).
(** A collection record, or a mapping. *)
Inductive snapshot_input : Type := Record_ (r : CollectionRecord) | Mapping (raw : json_dict).
Definition _normalize_snapshot_collection (collection : snapshot_input) : json_dict :=
  match collection with
  | Record_ r => _serialize_collection r
  | Mapping raw =>
      _sanitize_collection_definition
        [("id", at_key raw "id"); ("name", at_key raw "name"); ("type", py_or (at_key raw "type") (PStr "base"));
         ("system", py_bool (get_or raw "system" (PBool false)));
         ("schema", PList (list_or_empty (at_key raw "schema"))); ("indexes", PList (list_or_empty (at_key raw "indexes")));
         ("listRule", get_or raw "listRule" (at_key raw "list_rule")); ("viewRule", get_or raw "viewRule" (at_key raw "view_rule"));
         ("createRule", get_or raw "createRule" (at_key raw "create_rule")); ("updateRule", get_or raw "updateRule" (at_key raw "update_rule"));
         ("deleteRule", get_or raw "deleteRule" (at_key raw "delete_rule")); ("options", PDict (dict_or_empty (at_key raw "options")))]
  end.
Definition _DEFAULT_USERS_ID : string := "_pb_users_auth_".
Definition _is_default_users_collection (definition : json_dict) : bool :=
  py_eqb (at_key definition "id") (PStr _DEFAULT_USERS_ID)
  || (py_eqb (at_key definition "name") (PStr "users") && has_type "auth" definition).

Definition snapshot_definition (include_system : bool) (definition : json_dict) : result snapshot_exn (list json_dict) :=
  if truthy (at_key definition "system") && negb include_system then Ok []
  else if negb (truthy (at_key definition "id")) then Err MissingID
  else if negb (truthy (at_key definition "name")) then Err MissingName
  else Ok [definition].
(** What the file embeds: [_USERS_TARGET], [_SOURCE_USERS_ID], [_USERS_CHANGES]
    and [_CREATED_COLLECTIONS]. *)
Record snapshot : Type := mkSnapshot {
  users : option (string * string * json_dict);
  created_collections : list json_dict;
}.
Definition generate_snapshot (collections : list snapshot_input) (include_system : bool) (view_dependencies : dependency_map)
  : result snapshot_exn snapshot :=
  definitions ← map_result (fun c => snapshot_definition include_system (_normalize_snapshot_collection c)) collections;
  let definitions := concat definitions in
  users ← match filter (fun d => _is_default_users_collection d = true) definitions with
          | [] => Ok None
          | [u] => Ok (Some ("users", py_str (py_or (at_key u "id") (PStr "")), dict_del "id" u))
          | _ => Err SeveralUsers
          end;
  created ← _order_snapshot_collections (filter (fun d => _is_default_users_collection d = false) definitions) view_dependencies;
  Ok (mkSnapshot users created).
End Order.

(** ** The order is that of the dependencies *)
Section Ordered.
Context `{FloatText} (views_by_name : list (string * json_dict)).
Abbreviation waits := (list (string * list string)).
Definition before (d n : string) (names : list string) : Prop := exists l1 l2, names = l1 ++ n :: l2 /\ d ∈ l1.
(** Every view waits for views that are still there. *)
Definition closed (remaining : waits) : Prop := forall n deps d, (n, deps) ∈ remaining -> d ∈ deps -> d ∈ remaining.*1.
(** Views that wait for one another. *)
Definition circular (remaining : waits) (views : list string) : Prop :=
  views <> [] /\ forall n, n ∈ views -> exists deps d, (n, deps) ∈ remaining /\ d ∈ deps /\ d ∈ views.
Lemma ready_spec remaining n : n ∈ ready_names views_by_name remaining <-> (n, []) ∈ remaining.
Proof.
  unfold ready_names, by_key. rewrite py_sorted_perm, list_elem_of_fmap. split.
  - intros ([m deps] & -> & Hm). apply list_elem_of_filter in Hm as [Hd Hm]. cbn in Hd. by subst deps.
  - intros Hn. exists (n, []). split; [done|]. by apply list_elem_of_filter.
Qed.
Lemma without_ready_spec ready (remaining : waits) n deps' : (n, deps') ∈ without_ready ready remaining <->
  n ∉ ready /\ exists deps, (n, deps) ∈ remaining /\ deps' = filter (fun d => d ∉ ready) deps.
Proof.
  unfold without_ready. rewrite list_elem_of_fmap. split.
  - intros ([m deps] & [= -> ->] & Hm). apply list_elem_of_filter in Hm as [Hd Hm]. by eauto.
  - intros (Hn & deps & Hin & ->). exists (n, deps). split; [done|]. by apply list_elem_of_filter.
Qed.
Lemma without_ready_keys ready (remaining : waits) : (without_ready ready remaining).*1 = filter (fun n => n ∉ ready) remaining.*1.
Proof.
  unfold without_ready. rewrite <- list_fmap_compose. induction remaining as [|[n deps] remaining IH]; [done|].
  cbn [fmap list_fmap fst]. rewrite !filter_cons. cbn [fst]. case_decide; cbn [fmap list_fmap compose fst]; by rewrite IH.
Qed.
Lemma fmap_sublist {A B} (f : A -> B) l1 l2 : l1 `sublist_of` l2 -> f <$> l1 `sublist_of` f <$> l2.
Proof. induction 1; cbn; by constructor. Qed.
Lemma NoDup_fst_unique {A B} (l : list (A * B)) a b c : NoDup l.*1 -> (a, b) ∈ l -> (a, c) ∈ l -> b = c.
Proof.
  induction l as [|[x y] l IH]; [by intros _ ?%not_elem_of_nil|]. cbn. rewrite NoDup_cons, !elem_of_cons. intros [Hx Hnd] [[= -> ->]|Hb] [[= ->]|Hc].
  - done.
  - destruct Hx. by apply (list_elem_of_fmap_2 fst) in Hc.
  - subst. destruct Hx. by apply (list_elem_of_fmap_2 fst) in Hb.
  - by apply IH.
Qed.
Lemma list_nonempty {A} (l : list A) : l <> [] -> exists x, x ∈ l.
Proof. destruct l as [|x l]; [done|]. exists x. by left. Qed.
Lemma order_views_step fuel (remaining : waits) : remaining <> [] -> order_views (S fuel) views_by_name remaining =
  if decide (ready_names views_by_name remaining = []) then Err (Unresolved (py_sorted str_leb remaining.*1))
  else rest ← order_views fuel views_by_name (without_ready (ready_names views_by_name remaining) remaining);
       Ok (ready_names views_by_name remaining ++ rest).
Proof. destruct remaining as [|r remaining]; [done|]. intros _. cbn [order_views]. case_decide as Hr; [by rewrite Hr|]. by destruct (ready_names _ _). Qed.
Lemma order_views_spec fuel : forall remaining : waits, NoDup remaining.*1 -> closed remaining -> (length remaining <= fuel)%nat ->
  match order_views fuel views_by_name remaining with
  | Ok names => names ≡ₚ remaining.*1 /\ forall n deps d, (n, deps) ∈ remaining -> d ∈ deps -> before d n names
  | Err (Unresolved _) => exists views, circular remaining views
  | Err _ => False
  end.
Proof.
  induction fuel as [|fuel IH]; intros remaining Hnd Hcl Hlen; destruct (decide (remaining = [])) as [->|Hne];
    [by split; [|intros ? ? ? ?%not_elem_of_nil]|by destruct remaining; [|cbn in Hlen; lia]|by split; [|intros ? ? ? ?%not_elem_of_nil]|].
  rewrite order_views_step by done. pose proof (ready_spec remaining) as Hready.
  assert (Hnr : NoDup (ready_names views_by_name remaining)).
  { unfold ready_names, by_key. rewrite py_sorted_perm. eapply sublist_NoDup; [exact Hnd|]. apply fmap_sublist, sublist_filter. }
  set (ready := ready_names views_by_name remaining) in *. case_decide as Hr0.
  - exists remaining.*1. split; [by destruct remaining|]. intros n ([m deps] & -> & Hin)%list_elem_of_fmap.
    destruct deps as [|d deps]; [apply Hready in Hin; rewrite Hr0 in Hin; by apply not_elem_of_nil in Hin|]. exists (d :: deps), d.
    split_and!; [done|by left|]. eapply Hcl; [done|by left].
  - set (rest_of := without_ready ready remaining). destruct (list_nonempty ready Hr0) as [x Hx].
    pose proof (without_ready_keys ready remaining) as Hkeys. fold rest_of in Hkeys.
    assert (Hin : forall n, n ∈ ready -> (n, []) ∈ remaining /\ n ∈ remaining.*1).
    { intros n Hn%Hready. split; [done|]. by apply (list_elem_of_fmap_2 fst) in Hn. }
    assert (Hnd' : NoDup rest_of.*1) by (rewrite Hkeys; by apply NoDup_filter).
    assert (Hcl' : closed rest_of).
    { intros n deps' d (Hn & deps & Hdeps & ->)%without_ready_spec [Hd Hdin]%list_elem_of_filter. rewrite Hkeys.
      apply list_elem_of_filter. split; [done|]. by eapply Hcl. }
    assert (Hlt : (length rest_of <= fuel)%nat).
    { rewrite <- (length_fmap fst rest_of), Hkeys. rewrite <- (length_fmap fst remaining) in Hlen.
      pose proof (length_filter_lt (fun n => n ∉ ready) remaining.*1 x (proj2 (Hin x Hx)) (fun H => H Hx)). lia. }
    specialize (IH rest_of Hnd' Hcl' Hlt). destruct (order_views fuel views_by_name rest_of) as [rest|[| | |vs|]]; try done; cbn [mbind result_bind].
    + destruct IH as [Hperm Horder]. split.
      * apply NoDup_Permutation; [|done|].
        { apply NoDup_app. rewrite Hperm, Hkeys. split_and!; [done| |by apply NoDup_filter].
          intros n Hn Hn'. rewrite Hperm, Hkeys in Hn'. by apply list_elem_of_filter in Hn' as [Hn' _]. }
        intros n. rewrite elem_of_app, Hperm, Hkeys, list_elem_of_filter. destruct (decide (n ∈ ready)) as [Hn|Hn]; [|tauto].
        pose proof (proj2 (Hin n Hn)). tauto.
      * intros n deps d Hn Hd. destruct (decide (n ∈ ready)) as [Hr|Hr].
        { exfalso. assert (deps = []) as ->; [|by apply not_elem_of_nil in Hd]. eapply (NoDup_fst_unique remaining); [done..|]. by apply Hin. }
        destruct (decide (d ∈ ready)) as [Hdr|Hdr].
        { assert (Hnin : n ∈ rest).
          { rewrite Hperm, Hkeys. apply list_elem_of_filter. split; [done|]. by apply (list_elem_of_fmap_2 fst) in Hn. }
          apply list_elem_of_split in Hnin as (l1 & l2 & ->). exists (ready ++ l1), l2. split; [by rewrite app_assoc|]. apply elem_of_app. by left. }
        destruct (Horder n (filter (fun d => d ∉ ready) deps) d) as (l1 & l2 & -> & Hl1).
        { apply without_ready_spec. eauto. }
        { by apply list_elem_of_filter. }
        exists (ready ++ l1), l2. split; [by rewrite app_assoc|]. apply elem_of_app. by right.
    + destruct IH as (views & Hne' & Hcirc). exists views. split; [done|]. intros n Hn. destruct (Hcirc n Hn) as (deps' & d & Hd & Hdd & Hdv).
      apply without_ready_spec in Hd as (_ & deps & Hdeps & ->). apply list_elem_of_filter in Hdd as [_ Hdd]. eauto.
Qed.

Definition view_name (v : json_dict) : string := py_str (at_key v "name").
Lemma index_views_distinct views : NoDup (view_name <$> views) -> forall d0 : list (string * json_dict), NoDup (d0.*1 ++ (view_name <$> views)) ->
  fold_left (fun d v => dict_set (view_name v) v d) views d0 = d0 ++ ((fun v => (view_name v, v)) <$> views).
Proof.
  induction views as [|v views IH]; intros Hnd d0 Hd0; cbn [fold_left fmap list_fmap]; [by rewrite app_nil_r|].
  assert (Hni : view_name v ∉ d0.*1).
  { apply NoDup_app in Hd0 as (_ & Hd & _). intros Hin. apply (Hd _ Hin). left. }
  rewrite (dict_set_new _ _ _ Hni), IH; [by rewrite <- app_assoc|by apply NoDup_cons in Hnd as [_ Hnd]|].
  by rewrite fmap_app, <- app_assoc.
Qed.
End Ordered.
Lemma map_id_on {A} (f : A -> A) (l : list A) : (forall x, x ∈ l -> f x = x) -> f <$> l = l.
Proof. intros Hf. rewrite <- (list_fmap_id l) at 2. apply list_fmap_ext. intros i x Hx. apply Hf. by eapply list_elem_of_lookup_2. Qed.
Section Snapshot.
Context `{FloatText}.
(** The views among the definitions, and which waits for which. *)
Definition views_of (definitions : list json_dict) : list json_dict := filter (fun d => has_type "view" d = true) definitions.
Definition depends (definitions : list json_dict) (dependencies : dependency_map) (n d : string) : Prop :=
  n ∈ view_name <$> views_of definitions /\ d ∈ dependencies n /\ d ∈ view_name <$> views_of definitions /\ d <> n.

(** A snapshot creates what a view needs before the view.  For collections
    of distinct names: the order holds every collection once, tables first, and
    each view after every other view that it depends on; the loop ends, and it
    fails only when there are views each of which depends on another of them. *)
Theorem snapshot_order definitions dependencies (Hnames : NoDup (view_name <$> views_of definitions)) :
  match _order_snapshot_collections definitions dependencies with
  | Ok ordered => exists tables views, ordered = tables ++ views /\
      tables ≡ₚ filter (fun d => has_type "view" d = false) definitions /\ views ≡ₚ views_of definitions /\
      forall n d, depends definitions dependencies n d -> before d n (view_name <$> views)
  | Err (Unresolved _) => exists views, views <> [] /\ forall n, n ∈ views -> exists d, d ∈ views /\ depends definitions dependencies n d
  | Err _ => False
  end.
Proof.
  unfold _order_snapshot_collections. set (by_name := index_views (views_of definitions)).
  assert (Hby : by_name = (fun v => (view_name v, v)) <$> views_of definitions) by (by apply (index_views_distinct _ Hnames [])).
  assert (Hkeys : by_name.*1 = view_name <$> views_of definitions) by (rewrite Hby, <- list_fmap_compose; done).
  change (index_views (filter _ _)) with by_name. set (remaining := initial_remaining by_name dependencies).
  assert (Hrk : remaining.*1 = by_name.*1) by (unfold remaining, initial_remaining; rewrite <- list_fmap_compose; apply list_fmap_id).
  assert (Hrem : forall n deps d, (n, deps) ∈ remaining /\ d ∈ deps <->
    deps = filter (fun d => dict_mem d by_name && negb (String.eqb d n) = true) (dependencies n) /\ depends definitions dependencies n d).
  { intros n deps d. unfold remaining, initial_remaining, depends. rewrite list_elem_of_fmap, <- Hkeys. split.
    - intros [(n' & [= <- ->] & Hn) [Hd1 Hd2]%list_elem_of_filter]. apply andb_true_iff in Hd1 as [Hm%dict_mem_keys Hne].
      apply negb_true_iff, String.eqb_neq in Hne. done.
    - intros (-> & Hn & Hd & Hk & Hne). split; [by exists n|]. apply list_elem_of_filter. split; [|done].
      apply andb_true_iff. split; [by apply dict_mem_keys|]. by apply negb_true_iff, String.eqb_neq. }
  assert (Hcl : closed remaining).
  { intros n deps d Hn Hd. destruct (proj1 (Hrem n deps d) (conj Hn Hd)) as (_ & _ & _ & Hd' & _). by rewrite Hrk, Hkeys. }
  pose proof (order_views_spec by_name (length remaining) remaining) as Hspec. rewrite Hrk, Hkeys in Hspec. specialize (Hspec Hnames Hcl ltac:(done)).
  destruct (order_views _ by_name remaining) as [names|[| | |stuck|]]; try done; cbn [mbind result_bind].
  - destruct Hspec as [Hperm Horder]. set (look := fun n : string => default [] (dict_get n by_name)).
    assert (Hlook : forall v, v ∈ views_of definitions -> look (view_name v) = v).
    { intros v Hv. unfold look. rewrite (dict_get_nodup (view_name v) v by_name); [done|by rewrite Hkeys|].
      rewrite Hby. apply list_elem_of_fmap. by exists v. }
    assert (Hviews : look <$> (view_name <$> views_of definitions) = views_of definitions).
    { rewrite <- list_fmap_compose. apply map_id_on. exact Hlook. }
    assert (Hnamed : view_name <$> (look <$> names) = names).
    { rewrite <- list_fmap_compose. apply map_id_on. intros n Hn. rewrite Hperm in Hn. apply list_elem_of_fmap in Hn as (v & -> & Hv).
      cbn. by rewrite (Hlook v Hv). }
    exists (by_key sort_key (filter (fun d => has_type "view" d = false) definitions)), (look <$> names). split_and!; [done|apply py_sorted_perm| |].
    + by rewrite Hperm, Hviews.
    + intros n d Hnd. rewrite Hnamed. destruct (proj2 (Hrem n _ d) (conj eq_refl Hnd)) as [Hn Hd]. by eapply Horder.
  - destruct Hspec as (views & Hne & Hcirc). exists views. split; [done|]. intros n Hn. destruct (Hcirc n Hn) as (deps & d & Hd & Hdd & Hdv).
    exists d. split; [done|]. by apply (Hrem n deps d).
Qed.
End Snapshot.

(** ** Examples *)
Definition demo_collection (id name type : string) : json_dict := [("id", PStr id); ("name", PStr name); ("type", PStr type)].
Definition demo_definitions : list json_dict :=
  [demo_collection "v2" "report" "view"; demo_collection "v1" "daily" "view"; demo_collection "b1" "posts" "base"].
Definition demo_dependencies (name : string) : list string := if String.eqb name "report" then ["daily"; "posts"] else [].
Lemma snapshot_order_witness : exists ordered,
  @_order_snapshot_collections demo_float_text demo_definitions demo_dependencies = Ok ordered /\
  exists tables views, ordered = tables ++ views /\ before "daily" "report" (@view_name demo_float_text <$> views).
Proof.
  assert (Hnd : NoDup (@view_name demo_float_text <$> views_of demo_definitions)) by (apply (bool_decide_unpack _); by vm_compute).
  pose proof (@snapshot_order demo_float_text demo_definitions demo_dependencies Hnd) as Hspec.
  eexists. split; [reflexivity|]. destruct Hspec as (tables & views & Heq & _ & _ & Hbefore). exists tables, views.
  split; [exact Heq|]. apply Hbefore. split_and!; [by left|by left|by right; left|done].
Defined.
(** Views that need each other are refused. *)
Example circular_views : @_order_snapshot_collections demo_float_text demo_definitions
  (fun name => if String.eqb name "report" then ["daily"] else ["report"]) = Err (Unresolved ["daily"; "report"]).
Proof. reflexivity. Qed.
