(* ===== verification/AuthTokens.v ===== *)
(** * Tokens (ppbase/services/auth_service.py, ppbase/api/deps.py,
      ppbase/services/file_tokens.py and the verification of
      ppbase/services/record_auth_service.py)

    A token is signed with the token key of its record followed by a secret of
    the collection, and is checked by the code that expects it.  JSON web
    tokens are a class; the database is a store of rows. *)
From Stdlib Require Import Ascii String.
From S2P Require Import Prelude PyText PyVal StorageSafety FieldTypes RecordResponse.
From S2P Require RequestMacros MigrationText.
#[local] Open Scope string_scope.
#[local] Open Scope list_scope.

Abbreviation exn := field_exn.
Abbreviation raise kind := (Err (PyException kind)).

(** ** JSON web tokens (PyJWT, HS256) *)
Class Jwt : Type := {
  jwt_encode : dict -> string -> string;                    (* the claims and the key *)
  jwt_unverified : string -> option dict;                   (* [verify_signature] off; [None]: [InvalidTokenError] *)
  jwt_decode : string -> string -> Z -> option dict;        (* with the key, at a time; [None] likewise *)
}.
Definition key_char (c : ascii) : bool := is_ascii_alpha c || is_ascii_digit c.
(** A token has the claims it shows; no two keys of letters and digits verify
    one token; a token that has just been signed verifies until it expires, when
    JSON can write its claims. *)
Class JwtLaws `{Jwt} : Prop := {
  decode_shows token key now claims : jwt_decode token key now = Some claims -> jwt_unverified token = Some claims;
  decode_one_key token key key' now now' claims claims' :
    str_forall key_char key = true -> str_forall key_char key' = true ->
    jwt_decode token key now = Some claims -> jwt_decode token key' now' = Some claims' -> key = key';
  encode_shows claims key : MigrationText.writable (PDict claims) = true -> jwt_unverified (jwt_encode claims key) = Some claims;
  decode_signed claims key iat exp now : MigrationText.writable (PDict claims) = true ->
    dict_get "iat" claims = Some (PInt iat) -> dict_get "exp" claims = Some (PInt exp) ->
    dict_get "nbf" claims = None -> dict_get "aud" claims = None -> (iat <= now)%Z ->
    jwt_decode (jwt_encode claims key) key now = if (now <? exp)%Z then Some claims else None;
}.

(** ** The store *)
Record store : Type := mkStore {
  collections : list Collection;
  tables : gmap string (list row);       (* the rows of each table, in the order of the server *)
}.
Definition has_id (id : string) (r : row) : bool := match column_or_none r "id" with Plain (PStr s) => String.eqb s id | _ => false end.
(** [SELECT ... WHERE "id" = :id LIMIT 1] *)
Definition row_by_id (st : store) (table id : string) : result exn (option row) :=
  match tables st !! table with
  | None => raise "ProgrammingError"
  | Some rows => Ok (List.find (has_id id) rows)
  end.
Definition collection_by_id (st : store) (id : string) : option Collection := List.find (fun c => String.eqb (c_id c) id) (collections st).
Definition collection_by_name (st : store) (name : string) : option Collection := List.find (fun c => String.eqb (c_name c) name) (collections st).
Definition set_columns (id : string) (updates r : row) : row :=
  if has_id id r then fold_left (fun r kv => dict_set kv.1 kv.2 r) updates r else r.
(** [UPDATE ... SET ... WHERE "id" = :_rid] *)
Definition _update_record_columns (st : store) (table id : string) (updates : row) : result exn store :=
  match tables st !! table with
  | None => raise "ProgrammingError"
  | Some rows => Ok (mkStore (collections st) (<[table := set_columns id updates <$> rows]> (tables st)))
  end.
(** The driver takes only text for a text column; [session.get] also takes a
    key as a list or as a dictionary. *)
Definition text_param (v : pyval) : result exn string := match v with PStr s => Ok s | _ => raise "DBAPIError" end.
Definition primary_key (v : pyval) : result exn string :=
  match v with
  | PStr s | PList [PStr s] | PDict [("id", PStr s)] => Ok s
  | _ => raise "DBAPIError"
  end.

(** ** [auth_service] *)
Definition POCKETBASE_AUTH_TOKEN_TYPE : string := "auth".
Definition at_key (d : dict) (k : string) : pyval := default PNone (dict_get k d).
Definition normalize_auth_token_type (token_type : pyval) : pyval :=
  if py_eqb token_type (PStr POCKETBASE_AUTH_TOKEN_TYPE) then PStr "authRecord" else token_type.
Definition default_durations : list (string * Z) :=
  [("authToken", 604800); ("passwordResetToken", 1800); ("verificationToken", 259200); ("emailChangeToken", 1800); ("fileToken", 180)]%Z.
(** [v.get(k, d)] *)
Definition get_of (v : pyval) (k : string) (d : pyval) : result exn pyval :=
  match v with PDict o => Ok (default d (dict_get k o)) | _ => raise "AttributeError" end.
Definition get_collection_token_config (c : Collection) (token_type : string) : result exn (pyval * pyval) :=
  let opts := if truthy (RequestMacros.options c) then RequestMacros.options c else PDict [] in
  token_config ← get_of opts token_type (PDict []);
  secret ← get_of token_config "secret" (PStr "");
  duration ← get_of token_config "duration" (PInt (default 604800%Z (dict_get token_type default_durations)));
  Ok (secret, duration).
(** [now + duration] *)
Definition expiry (now : Z) (duration : pyval) : result exn pyval :=
  match duration with
  | PInt z => Ok (PInt (now + z))
  | PBool b => Ok (PInt (now + Z.b2z b))
  | PFloat f => raise "float duration"    (* a sum of floats; not modelled *)
  | _ => raise "TypeError"
  end.
(** [token_key + secret]; a [NULL] column or a secret that is no text raises. *)
Definition concat_key (token_key : value) (secret : pyval) : result exn string :=
  match token_key, secret with Plain (PStr a), PStr b => Ok (a +:+ b) | _, _ => raise "TypeError" end.
Section Tokens.
Context `{Jwt}.
Definition create_token (now : Z) (payload : dict) (secret : string) (duration : pyval) : result exn string :=
  exp ← expiry now duration;
  Ok (jwt_encode (dict_set "exp" exp (dict_set "iat" (PInt now) payload)) secret).
Definition verify_token (now : Z) (token secret : string) : option dict := jwt_decode token secret now.
Definition verify_purpose_token (now : Z) (token_str secret expected_type : string) : option dict :=
  payload ← verify_token now token_str secret;
  if py_eqb (at_key payload "type") (PStr expected_type) then Some payload else None.
Definition create_verification_token (now : Z) (record_id : pyval) (collection_id : string) (email : pyval) (secret : string) (duration : pyval) :=
  create_token now [("id", record_id); ("collectionId", PStr collection_id); ("email", email); ("type", PStr "verification")] secret duration.
Definition create_password_reset_token (now : Z) (record_id : pyval) (collection_id : string) (email : pyval) (secret : string) (duration : pyval) :=
  create_token now [("id", record_id); ("collectionId", PStr collection_id); ("email", email); ("type", PStr "passwordReset")] secret duration.
Definition create_email_change_token (now : Z) (record_id : pyval) (collection_id : string) (email new_email : pyval) (secret : string) (duration : pyval) :=
  create_token now [("id", record_id); ("collectionId", PStr collection_id); ("email", email); ("newEmail", new_email); ("type", PStr "emailChange")]
    secret duration.
(** A column as the payload of a token shows it. *)
Definition plain_column (r : row) (key : string) (d : pyval) : result exn pyval :=
  match column r key (Plain d) with Plain v => Ok v | Datetime _ => raise "TypeError" end.
Definition create_admin_token (now : Z) (admin : row) (superusers : Collection) : result exn string :=
  id ← plain_column admin "id" (PStr "");
  config ← get_collection_token_config superusers "authToken";
  key ← concat_key (column admin "token_key" (Plain (PStr ""))) config.1;
  create_token now [("id", id); ("type", PStr "admin")] key config.2.
Definition create_record_auth_token (now : Z) (r : row) (c : Collection) (refreshable : bool) (duration_seconds : option Z) : result exn string :=
  record_id ← match dict_get "id" r with Some (Plain v) => Ok v | Some _ => raise "TypeError" | None => raise "KeyError" end;
  token_key ← match dict_get "token_key" r with Some v => Ok v | None => raise "KeyError" end;
  config ← get_collection_token_config c "authToken";
  key ← concat_key token_key config.1;
  let auth_duration := config.2 in
  let duration := match duration_seconds with Some d => PInt d | None => auth_duration end in
  short ← match duration with
          | PInt z => Ok (z <? 1)%Z
          | PBool b => Ok (negb b)
          | PFloat _ => Ok false
          | _ => raise "TypeError"
          end;
  create_token now [("id", record_id); ("type", PStr "authRecord"); ("collectionId", PStr (c_id c)); ("refreshable", PBool refreshable)]
    key (if short : bool then auth_duration else duration).

(** ** [deps.get_optional_auth] *)
Definition bearer_token (auth_header : string) : string :=
  py_strip (if starts_with "bearer " (py_lower auth_header) then str_drop 7 auth_header else auth_header).
Definition admin_key (st : store) (admin : row) (jwt_secret : string) : result exn string :=
  secret ← match collection_by_name st "_superusers" with
           | Some c => fst <$> get_collection_token_config c "authToken"
           | None => Ok (PStr jwt_secret)
           end;
  concat_key (column_or_none admin "token_key") secret.
Definition record_key (r : row) (c : Collection) (token_type : string) : result exn string :=
  config ← get_collection_token_config c token_type; concat_key (column r "token_key" (Plain (PStr ""))) config.1.
Definition get_optional_auth (st : store) (now : Z) (jwt_secret auth_header : string) : result exn (option dict) :=
  let token := bearer_token auth_header in
  if String.eqb token "" then Ok None else
  match jwt_unverified token with
  | None => Ok None
  | Some unverified =>
      let token_type := normalize_auth_token_type (at_key unverified "type") in
      let token_id := at_key unverified "id" in
      if negb (truthy token_id) then Ok None
      else if py_eqb token_type (PStr "admin") then
        id ← primary_key token_id;
        admin ← row_by_id st "_superusers" id;
        match admin with
        | None => Ok None
        | Some admin => key ← admin_key st admin jwt_secret; Ok (jwt_decode token key now)
        end
      else if py_eqb token_type (PStr "authRecord") then
        let collection_id := at_key unverified "collectionId" in
        if negb (truthy collection_id) then Ok None else
        collection_id ← text_param collection_id;
        match collection_by_id st collection_id with
        | None => Ok None
        | Some coll =>
            id ← text_param token_id;
            row ← row_by_id st (c_name coll) id;
            match row with
            | None => Ok None
            | Some row =>
                key ← record_key row coll "authToken";
                Ok (dict_set "type" (PStr "authRecord") <$> jwt_decode token key now)
            end
        end
      else Ok None
  end.
(** [require_admin], [require_auth] and [require_record_auth]: the status of the
    refusal, or the payload. *)
Definition require_admin (auth : option dict) : result Z dict :=
  match auth with
  | None => Err 401%Z
  | Some payload =>
      if py_eqb (at_key payload "type") (PStr "admin") then Ok payload
      else if py_eqb (at_key payload "type") (PStr "authRecord")
              && py_eqb (default (PStr "") (dict_get "collectionName" payload)) (PStr "_superusers") then Ok payload
      else Err 401%Z
  end.
Definition require_auth (auth : option dict) : result Z dict := match auth with None => Err 401%Z | Some payload => Ok payload end.
Definition require_record_auth (auth : option dict) : result Z dict :=
  match auth with
  | None => Err 401%Z
  | Some payload => if py_eqb (at_key payload "type") (PStr "authRecord") then Ok payload else Err 403%Z
  end.

(** ** [record_auth_service.verify_record_auth_token] *)
Definition verify_record_auth_token (st : store) (now : Z) (c : Collection) (token_str : string) : result exn (option dict) :=
  match jwt_unverified token_str with
  | None => Ok None
  | Some unverified =>
      let token_type := normalize_auth_token_type (at_key unverified "type") in
      let of_type (t : string) := py_eqb token_type (PStr t) in
      if negb (if String.eqb (c_name c) "_superusers" then of_type "admin" || of_type "authRecord" else of_type "authRecord") then Ok None
      else if negb (py_eqb (at_key unverified "collectionId") (PStr (c_id c))) then Ok None
      else
        let record_id := at_key unverified "id" in
        if negb (truthy record_id) then Ok None else
        id ← text_param record_id;
        row ← row_by_id st (c_name c) id;
        match row with
        | None => Ok None
        | Some row =>
            key ← record_key row c "authToken";
            Ok ((fun payload => if py_eqb (at_key payload "type") (PStr "admin") then payload else dict_set "type" token_type payload)
                  <$> jwt_decode token_str key now)
        end
  end.

(** What the confirmations of a verification, a password reset and an e-mail
    change have in common: the row and the payload of a good token. *)
Definition check_purpose_token (st : store) (now : Z) (c : Collection) (token_type config_name token_str : string)
  : result exn (option (row * dict)) :=
  match jwt_unverified token_str with
  | None => Ok None
  | Some unverified =>
      if negb (py_eqb (at_key unverified "type") (PStr token_type)) then Ok None
      else
        let record_id := at_key unverified "id" in
        if negb (truthy record_id) then Ok None else
        id ← text_param record_id;
        row ← row_by_id st (c_name c) id;
        match row with
        | None => Ok None
        | Some row =>
            key ← record_key row c config_name;
            match verify_purpose_token now token_str key token_type with
            | None => Ok None
            | Some payload =>
                let same := match column_or_none row "email" with Plain e => py_eqb (at_key payload "email") e | Datetime _ => false end in
                Ok (if same then Some (row, payload) else None)
            end
        end
  end.

(** ** [file_tokens] *)
Context `{FloatText}.
(** [str(payload.get(k, "") or "")] *)
Definition claim_text (payload : dict) (k : string) : string :=
  let v := default (PStr "") (dict_get k payload) in if truthy v then py_str v else "".
Definition get_superusers_collection (st : store) : option Collection := collection_by_name st "_superusers".
Definition _get_auth_record_token_key (st : store) (c : Collection) (record_id : string) : result exn (option string) :=
  row ← row_by_id st (c_name c) record_id;
  match row with
  | None => Ok None
  | Some row =>
      match column_or_none row "token_key" with
      | Plain PNone => Ok None
      | Plain v => Ok (Some (py_str v))
      | Datetime _ => raise "datetime"      (* the column is text *)
      end
  end.
Definition config_key (token_key : value) (c : Collection) (token_type : string) : result exn (string * pyval) :=
  config ← get_collection_token_config c token_type; key ← concat_key token_key config.1; Ok (key, config.2).
(** [str(admin.token_key)] *)
Definition str_key (admin : row) : value :=
  match column admin "token_key" (Plain (PStr "")) with Plain v => Plain (PStr (py_str v)) | d => d end.
Definition create_file_token_for_auth (st : store) (now : Z) (auth_payload : dict) : result exn string :=
  let auth_type := claim_text auth_payload "type" in
  let auth_id := claim_text auth_payload "id" in
  if String.eqb auth_type "" || String.eqb auth_id "" then raise "ValueError"
  else if String.eqb auth_type "admin" then
    admin ← row_by_id st "_superusers" auth_id;
    match admin with
    | None => raise "ValueError"
    | Some admin =>
        match get_superusers_collection st with
        | None => raise "ValueError"
        | Some c =>
            key ← config_key (str_key admin) c "fileToken";
            id ← plain_column admin "id" PNone;
            create_token now [("id", id); ("type", PStr "admin"); ("for", PStr "file")] key.1 key.2
        end
    end
  else if String.eqb auth_type "authRecord" then
    let collection_id := claim_text auth_payload "collectionId" in
    if String.eqb collection_id "" then raise "ValueError" else
    match collection_by_id st collection_id with
    | None => raise "ValueError"
    | Some c =>
        token_key ← _get_auth_record_token_key st c auth_id;
        match token_key with
        | None | Some "" => raise "ValueError"
        | Some token_key =>
            key ← config_key (Plain (PStr token_key)) c "fileToken";
            create_token now [("id", PStr auth_id); ("type", PStr "authRecord"); ("collectionId", PStr (c_id c)); ("for", PStr "file")] key.1 key.2
        end
    end
  else raise "ValueError".
Definition verify_file_token (st : store) (now : Z) (file_token : string) : result exn (option dict) :=
  match jwt_unverified file_token with
  | None => Ok None
  | Some unverified =>
      if negb (py_eqb (at_key unverified "for") (PStr "file")) then Ok None else
      let token_type := claim_text unverified "type" in
      let token_id := claim_text unverified "id" in
      if String.eqb token_type "" || String.eqb token_id "" then Ok None
      else if String.eqb token_type "admin" then
        admin ← row_by_id st "_superusers" token_id;
        match admin with
        | None => Ok None
        | Some admin =>
            match get_superusers_collection st with
            | None => Ok None
            | Some c =>
                key ← config_key (str_key admin) c "fileToken";
                match jwt_decode file_token key.1 now with
                | None => Ok None
                | Some _ =>
                    id ← plain_column admin "id" PNone; email ← plain_column admin "email" PNone;
                    Ok (Some [("id", id); ("email", email); ("type", PStr "admin")])
                end
            end
        end
      else if String.eqb token_type "authRecord" then
        let collection_id := claim_text unverified "collectionId" in
        if String.eqb collection_id "" then Ok None else
        match collection_by_id st collection_id with
        | None => Ok None
        | Some c =>
            token_key ← _get_auth_record_token_key st c token_id;
            match token_key with
            | None | Some "" => Ok None
            | Some token_key =>
                key ← config_key (Plain (PStr token_key)) c "fileToken";
                Ok ((fun _ => [("id", PStr token_id); ("type", PStr "authRecord"); ("collectionId", PStr (c_id c)); ("collectionName", PStr (c_name c))])
                      <$> jwt_decode file_token key.1 now)
            end
        end
      else Ok None
  end.
End Tokens.

(** ** Who signs a token *)
Section Accepted.
Context `{JwtLaws, FloatText}.
(** What a token is accepted for: requests, with the secret of the settings;
    the refresh in a collection; protected files; a confirmation in a
    collection. *)
Inductive use : Type :=
| Auth (jwt_secret : string)
| Refresh (c : Collection)
| File
| Confirm (c : Collection) (token_type config_name : string).
Definition found {A} (r : result exn (option A)) : option A := match r with Ok o => o | Err _ => None end.
Definition accepted (u : use) (st : store) (now : Z) (token : string) : option dict :=
  match u with
  | Auth jwt_secret => found (get_optional_auth st now jwt_secret token)
  | Refresh c => found (verify_record_auth_token st now c token)
  | File => found (verify_file_token st now token)
  | Confirm c token_type config_name => snd <$> found (check_purpose_token st now c token_type config_name token)
  end.
(** The table and the id of the record whose token key must have signed a token
    with these claims, and the secret of the collection after it. *)
Definition secret_of (c : Collection) (config_name : string) : option pyval :=
  match get_collection_token_config c config_name with Ok (s, _) => Some s | Err _ => None end.
Definition text_of (r : result exn string) : option string := match r with Ok s => Some s | Err _ => None end.
Definition signer_of (u : use) (st : store) (claims : dict) : option (string * string * pyval) :=
  let id := text_of (text_param (at_key claims "id")) in
  match u with
  | Auth jwt_secret =>
      if py_eqb (normalize_auth_token_type (at_key claims "type")) (PStr "admin") then
        id ← text_of (primary_key (at_key claims "id"));
        secret ← match collection_by_name st "_superusers" with Some c => secret_of c "authToken" | None => Some (PStr jwt_secret) end;
        Some ("_superusers", id, secret)
      else
        cid ← text_of (text_param (at_key claims "collectionId")); c ← collection_by_id st cid;
        id ← id; secret ← secret_of c "authToken"; Some (c_name c, id, secret)
  | Refresh c => id ← id; secret ← secret_of c "authToken"; Some (c_name c, id, secret)
  | File =>
      if String.eqb (claim_text claims "type") "admin" then
        c ← get_superusers_collection st; secret ← secret_of c "fileToken"; Some ("_superusers", claim_text claims "id", secret)
      else
        c ← collection_by_id st (claim_text claims "collectionId"); secret ← secret_of c "fileToken";
        Some (c_name c, claim_text claims "id", secret)
  | Confirm c _ config_name => id ← id; secret ← secret_of c config_name; Some (c_name c, id, secret)
  end.
Definition key_of_row (st : store) (table id : string) : option string :=
  match row_by_id st table id with
  | Ok (Some r) =>
      match column r "token_key" (Plain (PStr "")) with Plain v => Some (py_str v) | Datetime _ => None end
  | _ => None
  end.
(** [token] is signed for [u] by a record of [st]. *)
Definition signed (u : use) (st : store) (now : Z) (token : string) (claims : dict) : Prop := exists table id secret k,
  signer_of u st claims = Some (table, id, PStr secret) /\ key_of_row st table id = Some k /\ jwt_decode token (k +:+ secret) now = Some claims.

Lemma concat_key_ok v s key : concat_key v s = Ok key -> exists a b, v = Plain (PStr a) /\ s = PStr b /\ key = a +:+ b.
Proof. unfold concat_key. destruct v as [[]|]; try discriminate. destruct s; try discriminate. intros [= <-]. by eexists _, _. Qed.
Lemma key_of_row_text st table id r k : row_by_id st table id = Ok (Some r) ->
  column r "token_key" (Plain (PStr "")) = Plain (PStr k) -> key_of_row st table id = Some k.
Proof. unfold key_of_row. by intros -> ->. Qed.
Lemma column_none r key v d : column_or_none r key = Plain v -> v <> PNone -> column r key d = Plain v.
Proof. unfold column_or_none, column. destruct (dict_get key r); cbn; [done|]. by intros [= <-]. Qed.
Lemma config_secret c name config : get_collection_token_config c name = Ok config -> secret_of c name = Some config.1.
Proof. unfold secret_of. intros ->. by destruct config. Qed.
Lemma record_key_ok r c name key : record_key r c name = Ok key -> exists k s,
  column r "token_key" (Plain (PStr "")) = Plain (PStr k) /\ secret_of c name = Some (PStr s) /\ key = k +:+ s.
Proof.
  unfold record_key. intros Hk. bind_ok Hk as config Hc. apply concat_key_ok in Hk as (k & s & Hcol & Hs & ->).
  exists k, s. split_and!; [done| |done]. rewrite (config_secret _ _ _ Hc). by rewrite Hs.
Qed.
Lemma admin_key_ok st r jwt_secret key : admin_key st r jwt_secret = Ok key -> exists k s,
  column r "token_key" (Plain (PStr "")) = Plain (PStr k) /\ key = k +:+ s /\
  match collection_by_name st "_superusers" with Some c => secret_of c "authToken" | None => Some (PStr jwt_secret) end = Some (PStr s).
Proof.
  unfold admin_key. intros Hk. bind_ok Hk as secret Hs. apply concat_key_ok in Hk as (k & s & Hcol & -> & ->).
  exists k, s. split_and!; [by apply column_none|done|]. destruct (collection_by_name _ _) as [c|]; [|by injection Hs as <-].
  destruct (get_collection_token_config c "authToken") as [config|] eqn:Hc; [|discriminate]. injection Hs as Hs.
  rewrite (config_secret _ _ _ Hc). by rewrite Hs.
Qed.

Lemma py_eqb_text v t : py_eqb v (PStr t) = true -> v = PStr t.
Proof. destruct v as [| | | |x| |]; try discriminate. by intros ->%String.eqb_eq. Qed.
Lemma auth_signed st now jwt_secret header p : get_optional_auth st now jwt_secret header = Ok (Some p) ->
  exists claims, signed (Auth jwt_secret) st now (bearer_token header) claims /\
    (p = claims /\ py_eqb (normalize_auth_token_type (at_key claims "type")) (PStr "admin") = true \/
     p = dict_set "type" (PStr "authRecord") claims /\ normalize_auth_token_type (at_key claims "type") = PStr "authRecord").
Proof.
  unfold get_optional_auth. set (t := bearer_token header). destruct (String.eqb t ""); [discriminate|].
  destruct (jwt_unverified t) as [u|] eqn:Hu; [|discriminate]. destruct (negb (truthy _)); [discriminate|].
  set (ty := normalize_auth_token_type (at_key u "type")). destruct (py_eqb ty (PStr "admin")) eqn:Hadmin.
  - intros Hok. bind_ok Hok as id Hid. bind_ok Hok as row Hrow. destruct row as [r|]; [|discriminate]. bind_ok Hok as key Hkey.
    injection Hok as Hdec. pose proof (decode_shows _ _ _ _ Hdec) as Hp. rewrite Hu in Hp. injection Hp as <-.
    destruct (admin_key_ok _ _ _ _ Hkey) as (k & s & Hcol & -> & Hs). exists u. split; [|by left].
    exists "_superusers", id, s, k. unfold signer_of. fold ty. rewrite Hadmin, Hid. cbn [text_of mbind option_bind]. rewrite Hs.
    split_and!; [done|by eapply key_of_row_text|done].
  - destruct (py_eqb ty (PStr "authRecord")) eqn:Hrec; [|discriminate]. destruct (negb (truthy _)); [discriminate|].
    intros Hok. bind_ok Hok as cid Hcid. destruct (collection_by_id st cid) as [c|] eqn:Hc; [|discriminate].
    bind_ok Hok as id Hid. bind_ok Hok as row Hrow. destruct row as [r|]; [|discriminate]. bind_ok Hok as key Hkey.
    destruct (jwt_decode t key now) as [claims|] eqn:Hdec; [|discriminate]. injection Hok as <-.
    pose proof (decode_shows _ _ _ _ Hdec) as Hp. rewrite Hu in Hp. injection Hp as <-.
    destruct (record_key_ok _ _ _ _ Hkey) as (k & s & Hcol & Hs & ->). exists u. split.
    + exists (c_name c), id, s, k. unfold signer_of. fold ty. rewrite Hadmin, Hcid. cbn [text_of mbind option_bind]. rewrite Hc. cbn [mbind option_bind].
      rewrite Hid, Hs. split_and!; [done|by eapply key_of_row_text|done].
    + right. split; [done|]. by apply py_eqb_text.
Qed.
Lemma refresh_signed st now c token p : verify_record_auth_token st now c token = Ok (Some p) ->
  exists claims, signed (Refresh c) st now token claims /\ at_key claims "collectionId" = PStr (c_id c) /\
    (normalize_auth_token_type (at_key claims "type") = PStr "authRecord" \/
     c_name c = "_superusers" /\ normalize_auth_token_type (at_key claims "type") = PStr "admin").
Proof.
  unfold verify_record_auth_token. destruct (jwt_unverified token) as [u|] eqn:Hu; [|discriminate].
  set (ty := normalize_auth_token_type (at_key u "type")).
  destruct (if String.eqb (c_name c) "_superusers" then _ else _) eqn:Hty; cbn [negb]; [|discriminate].
  destruct (py_eqb (at_key u "collectionId") (PStr (c_id c))) eqn:Hcid; cbn [negb]; [|discriminate].
  destruct (negb (truthy _)); [discriminate|]. intros Hok. bind_ok Hok as id Hid. bind_ok Hok as row Hrow.
  destruct row as [r|]; [|discriminate]. bind_ok Hok as key Hkey.
  destruct (jwt_decode token key now) as [claims|] eqn:Hdec; [|discriminate]. clear Hok.
  pose proof (decode_shows _ _ _ _ Hdec) as Hp. rewrite Hu in Hp. injection Hp as <-.
  destruct (record_key_ok _ _ _ _ Hkey) as (k & s & Hcol & Hs & ->). exists u. split_and!.
  - exists (c_name c), id, s, k. unfold signer_of. rewrite Hid, Hs. split_and!; [done|by eapply key_of_row_text|done].
  - by apply py_eqb_text.
  - fold ty. destruct (String.eqb_spec (c_name c) "_superusers") as [Hn|_].
    + apply orb_true_iff in Hty as [Ht|Ht]; [right; split; [done|]|left]; by apply py_eqb_text.
    + left. by apply py_eqb_text.
Qed.
Lemma confirm_signed st now c token_type config_name token r p :
  check_purpose_token st now c token_type config_name token = Ok (Some (r, p)) ->
  signed (Confirm c token_type config_name) st now token p /\ at_key p "type" = PStr token_type /\
  exists id, at_key p "id" = PStr id /\ row_by_id st (c_name c) id = Ok (Some r) /\
    exists e, column_or_none r "email" = Plain e /\ py_eqb (at_key p "email") e = true.
Proof.
  unfold check_purpose_token. destruct (jwt_unverified token) as [u|] eqn:Hu; [|discriminate].
  destruct (py_eqb (at_key u "type") (PStr token_type)) eqn:Hty; cbn [negb]; [|discriminate].
  destruct (negb (truthy _)); [discriminate|]. intros Hok. bind_ok Hok as id Hid. bind_ok Hok as row Hrow.
  destruct row as [r'|]; [|discriminate]. bind_ok Hok as key Hkey. unfold verify_purpose_token, verify_token in Hok.
  destruct (jwt_decode token key now) as [claims|] eqn:Hdec; [|discriminate]. cbn [mbind option_bind] in Hok.
  pose proof (decode_shows _ _ _ _ Hdec) as Hp. rewrite Hu in Hp. injection Hp as <-. rewrite Hty in Hok.
  destruct (column_or_none r' "email") as [e|] eqn:He; [|discriminate]. destruct (py_eqb (at_key u "email") e) eqn:Hsame; [|discriminate].
  injection Hok as -> ->. destruct (record_key_ok _ _ _ _ Hkey) as (k & s & Hcol & Hs & ->). split_and!.
  - exists (c_name c), id, s, k. unfold signer_of. rewrite Hid, Hs. split_and!; [done|by eapply key_of_row_text|done].
  - by apply py_eqb_text.
  - exists id. split_and!; [|done|by exists e]. unfold text_param in Hid. destruct (at_key p "id"); try discriminate. by injection Hid as ->.
Qed.
Lemma file_signed st now token p : verify_file_token st now token = Ok (Some p) ->
  exists claims, signed File st now token claims /\ at_key claims "for" = PStr "file" /\
    (claim_text claims "type" = "admin" \/ claim_text claims "type" = "authRecord").
Proof.
  unfold verify_file_token. destruct (jwt_unverified token) as [u|] eqn:Hu; [|discriminate].
  destruct (py_eqb (at_key u "for") (PStr "file")) eqn:Hfor; cbn [negb]; [|discriminate]. apply py_eqb_text in Hfor.
  destruct (_ || _); [discriminate|]. destruct (String.eqb_spec (claim_text u "type") "admin") as [Hty|Hna].
  - intros Hok. bind_ok Hok as row Hrow. destruct row as [r|]; [|discriminate].
    destruct (get_superusers_collection st) as [c|] eqn:Hc; [|discriminate]. bind_ok Hok as key Hkey.
    unfold config_key in Hkey. bind_ok Hkey as config Hconfig. bind_ok Hkey as key' Hcat. injection Hkey as <-. cbn [fst] in Hok.
    destruct (jwt_decode token key' now) as [claims|] eqn:Hdec; [|discriminate].
    pose proof (decode_shows _ _ _ _ Hdec) as Hp. rewrite Hu in Hp. injection Hp as <-.
    apply concat_key_ok in Hcat as (k & s & Hcol & Hs & ->). exists u. split_and!; [|done|by left].
    exists "_superusers", (claim_text u "id"), s, k. unfold signer_of. rewrite Hty, Hc. cbn [String.eqb Ascii.eqb Bool.eqb mbind option_bind].
    rewrite (config_secret _ _ _ Hconfig), Hs. split_and!; [done| |done].
    unfold str_key in Hcol. unfold key_of_row. rewrite Hrow. destruct (column r "token_key" _); [|discriminate]. by injection Hcol as ->.
  - destruct (String.eqb_spec (claim_text u "type") "authRecord") as [Hty|]; [|discriminate]. destruct (String.eqb _ ""); [discriminate|].
    destruct (collection_by_id st (claim_text u "collectionId")) as [c|] eqn:Hc; [|discriminate]. intros Hok.
    bind_ok Hok as tk Htk. destruct tk as [tk|]; [|discriminate]. destruct tk as [|a tk0] eqn:Htk0; [discriminate|]. rewrite <- Htk0 in *.
    bind_ok Hok as key Hkey. unfold config_key in Hkey. bind_ok Hkey as config Hconfig. bind_ok Hkey as key' Hcat.
    injection Hkey as <-. cbn [fst] in Hok. destruct (jwt_decode token key' now) as [claims|] eqn:Hdec; [|discriminate].
    pose proof (decode_shows _ _ _ _ Hdec) as Hp. rewrite Hu in Hp. injection Hp as <-.
    apply concat_key_ok in Hcat as (k & s & Hcol & Hs & ->). injection Hcol as ->. exists u. split_and!; [|done|by right].
    exists (c_name c), (claim_text u "id"), s, k. unfold signer_of. rewrite Hty, Hc. cbn [String.eqb Ascii.eqb Bool.eqb mbind option_bind].
    rewrite (config_secret _ _ _ Hconfig), Hs. split_and!; [done| |done].
    unfold _get_auth_record_token_key in Htk. bind_ok Htk as row Hrow. destruct row as [r|]; [|discriminate].
    unfold key_of_row. rewrite Hrow. destruct (column_or_none r "token_key") as [v|] eqn:Hcol; [|discriminate].
    assert (Hv : v <> PNone) by (by intros ->). rewrite (column_none _ _ _ _ Hcol Hv). destruct v; congruence.
Qed.
Definition token_text (u : use) (token : string) : string := match u with Auth _ => bearer_token token | _ => token end.
Lemma accepted_signed u st now token p : accepted u st now token = Some p -> exists claims, signed u st now (token_text u token) claims.
Proof.
  unfold accepted, found. destruct u as [js|c| |c ty cfg]; cbn [token_text].
  - destruct (get_optional_auth _ _ _ _) as [o|] eqn:Hok; [|discriminate]. intros ->. destruct (auth_signed _ _ _ _ _ Hok) as (claims & Hs & _). by exists claims.
  - destruct (verify_record_auth_token _ _ _ _) as [o|] eqn:Hok; [|discriminate]. intros ->. destruct (refresh_signed _ _ _ _ _ Hok) as (claims & Hs & _). by exists claims.
  - destruct (verify_file_token _ _ _) as [o|] eqn:Hok; [|discriminate]. intros ->. destruct (file_signed _ _ _ _ Hok) as (claims & Hs & _). by exists claims.
  - destruct (check_purpose_token _ _ _ _ _ _) as [[[r q]|]|] eqn:Hok; try discriminate. intros _. exists q. by apply (confirm_signed _ _ _ _ _ _ _ _ Hok).
Qed.
(** Who must have signed a token, by the claims that it shows. *)
Definition signer (u : use) (st : store) (token : string) : option (string * string * pyval) :=
  claims ← jwt_unverified (token_text u token); signer_of u st claims.
Lemma signer_collections u st st' claims : collections st' = collections st -> signer_of u st' claims = signer_of u st claims.
Proof. intros Hc. unfold signer_of, collection_by_name, collection_by_id, get_superusers_collection. unfold collection_by_name. by rewrite Hc. Qed.

Lemma append_inj_r (a b s : string) : a +:+ s = b +:+ s -> a = b.
Proof.
  intros Heq. assert (Hl : String.length a = String.length b).
  { apply (f_equal String.length) in Heq. rewrite !append_length in Heq. lia. }
  revert b Heq Hl. induction a as [|x a IH]; intros [|y b] Heq Hl; try discriminate; [done|].
  injection Heq as -> Heq. f_equal. apply IH; [done|]. by injection Hl.
Qed.
Lemma append_inj_l (s a b : string) : s +:+ a = s +:+ b -> a = b.
Proof. induction s as [|x s IH]; [done|]. intros [= Heq]. by apply IH. Qed.
(** ** Rotation *)
Lemma set_columns_get updates : NoDup updates.*1 -> forall (r : row) k,
  dict_get k (fold_left (fun r kv => dict_set kv.1 kv.2 r) updates r) = match dict_get k updates with Some v => Some v | None => dict_get k r end.
Proof.
  induction updates as [|[k' v] updates IH]; intros Hnd r k; [done|]. cbn in Hnd. apply NoDup_cons in Hnd as [Hni Hnd].
  cbn [fold_left dict_get fst snd]. rewrite (IH Hnd). destruct (String.eqb_spec k' k) as [->|Hne].
  - apply dict_get_none in Hni. by rewrite Hni, dict_get_set_eq.
  - by rewrite dict_get_set_ne.
Qed.
Lemma find_fmap {A} (p : A -> bool) (f : A -> A) l : (forall x, p (f x) = p x) -> List.find p (f <$> l) = f <$> List.find p l.
Proof. intros Hf. induction l as [|x l IH]; [done|]. cbn. rewrite Hf. by destruct (p x). Qed.
Lemma update_columns_row st table id updates st' r : _update_record_columns st table id updates = Ok st' ->
  NoDup updates.*1 -> "id" ∉ updates.*1 -> row_by_id st table id = Ok (Some r) ->
  collections st' = collections st /\
  row_by_id st' table id = Ok (Some (fold_left (fun r kv => dict_set kv.1 kv.2 r) updates r)).
Proof.
  unfold _update_record_columns, row_by_id. destruct (tables st !! table) as [rows|]; [|discriminate]. intros [= <-] Hnd Hid [= Hr].
  split; [done|]. cbn [tables]. rewrite lookup_insert_eq. f_equal. rewrite find_fmap, Hr.
  - cbn [fmap option_fmap option_map]. f_equal. unfold set_columns. apply List.find_some in Hr as [_ ->]. done.
  - intros x. unfold set_columns. destruct (has_id id x) eqn:Hx; [|done]. rewrite <- Hx. unfold has_id, column_or_none, column.
    rewrite (set_columns_get updates Hnd). apply dict_get_none in Hid. by rewrite Hid.
Qed.

(** A new token key revokes every token of its record.  A token accepted for
    anything (a request, a refresh, a protected file, the confirmation of a
    verification, a password reset or an e-mail change) and signed by a record
    is never accepted for that again once an update has given the record another
    token key; keys and secrets are letters and digits. *)
Theorem rotation_revokes u st now token p table id secret k k' updates st' now'
  (Hacc : accepted u st now token = Some p) (Hsigner : signer u st token = Some (table, id, PStr secret))
  (Hk : key_of_row st table id = Some k) (Hnd : NoDup updates.*1) (Hid : "id" ∉ updates.*1)
  (Hnew : dict_get "token_key" updates = Some (Plain (PStr k'))) (Hne : k' <> k)
  (Hplain : str_forall key_char secret = true /\ str_forall key_char k = true /\ str_forall key_char k' = true)
  (Hst : _update_record_columns st table id updates = Ok st') :
  accepted u st' now' token = None.
Proof.
  destruct (accepted u st' now' token) as [p'|] eqn:Hacc'; [|done]. exfalso.
  apply accepted_signed in Hacc as (claims & t1 & i1 & s1 & k1 & Hs1 & Hk1 & Hd1), Hacc' as (claims' & t2 & i2 & s2 & k2 & Hs2 & Hk2 & Hd2).
  pose proof (decode_shows _ _ _ _ Hd1) as Hu1. pose proof (decode_shows _ _ _ _ Hd2) as Hu2. rewrite Hu1 in Hu2. injection Hu2 as <-.
  unfold signer in Hsigner. rewrite Hu1 in Hsigner. cbn [mbind option_bind] in Hsigner. rewrite Hs1 in Hsigner. injection Hsigner as -> -> ->.
  destruct (row_by_id st table id) as [[r|]|] eqn:Hr; unfold key_of_row in Hk; rewrite Hr in Hk; try discriminate.
  destruct (update_columns_row _ _ _ _ _ _ Hst Hnd Hid Hr) as [Hcol Hrow].
  rewrite (signer_collections _ _ _ _ Hcol), Hs1 in Hs2. injection Hs2 as <- <- <-.
  assert (Hk' : key_of_row st' table id = Some k').
  { eapply key_of_row_text; [exact Hrow|]. unfold column. by rewrite (set_columns_get updates Hnd), Hnew. }
  assert (k1 = k) as -> by (unfold key_of_row in Hk1; rewrite Hr in Hk1; congruence). assert (k2 = k') as -> by congruence.
  destruct Hplain as (Hps & Hpk & Hpk'). apply Hne. symmetry. apply (append_inj_r _ _ secret).
  eapply decode_one_key; [..|exact Hd1|exact Hd2]; rewrite str_forall_app; by apply andb_true_iff.
Qed.

(** ** Purposes *)
(** Requests and refreshes accept the same tokens, files others, and each
    confirmation its own. *)
Inductive purpose : Type := Session | Download | Confirmation (token_type : string).
Definition purpose_of (u : use) : purpose :=
  match u with Auth _ | Refresh _ => Session | File => Download | Confirm _ token_type _ => Confirmation token_type end.
(** A use in a collection of the store, and a token as the code looks at it. *)
Definition usable (u : use) (st : store) (token : string) : Prop :=
  match u with
  | Auth _ => bearer_token token = token
  | File => True
  | Refresh c => collection_by_id st (c_id c) = Some c /\ collection_by_name st (c_name c) = Some c
  | Confirm c token_type _ => token_type ∈ ["verification"; "passwordReset"; "emailChange"]
  end.
(** A collection of the store whose secrets would let one token serve two purposes. *)
Definition shared_secret (st : store) : Prop := exists c s, c ∈ collections st /\
  secret_of c "authToken" = Some (PStr s) /\ secret_of c "fileToken" = Some (PStr s).
(** What the claims of an accepted token are like. *)
Definition session_type (claims : dict) : Prop := at_key claims "type" ∈ [PStr "admin"; PStr "authRecord"; PStr "auth"].
Definition claims_for (u : use) (claims : dict) : Prop :=
  match u with
  | Auth _ => session_type claims
  | Refresh c => session_type claims /\ at_key claims "collectionId" = PStr (c_id c) /\
      (at_key claims "type" = PStr "admin" -> c_name c = "_superusers")
  | File => at_key claims "for" = PStr "file" /\ (claim_text claims "type" = "admin" \/ claim_text claims "type" = "authRecord")
  | Confirm _ token_type _ => at_key claims "type" = PStr token_type
  end.
Lemma normalized_session v : normalize_auth_token_type v = PStr "admin" \/ normalize_auth_token_type v = PStr "authRecord" ->
  v ∈ [PStr "admin"; PStr "authRecord"; PStr "auth"].
Proof.
  unfold normalize_auth_token_type. destruct (py_eqb v (PStr POCKETBASE_AUTH_TOKEN_TYPE)) eqn:Hv.
  - apply py_eqb_text in Hv as ->. intros _. right; right; left.
  - intros [-> | ->]; [left|right; left].
Qed.
Lemma accepted_claims u st now token p : accepted u st now token = Some p -> exists claims,
  signed u st now (token_text u token) claims /\ claims_for u claims.
Proof.
  unfold accepted, found, claims_for, session_type. destruct u as [js|c| |c ty cfg]; cbn [token_text].
  - destruct (get_optional_auth _ _ _ _) as [o|] eqn:Hok; [|discriminate]. intros ->. destruct (auth_signed _ _ _ _ _ Hok) as (claims & Hs & Hty).
    exists claims. split; [done|]. apply normalized_session. destruct Hty as [[_ Hty%py_eqb_text]|[_ Hty]]; auto.
  - destruct (verify_record_auth_token _ _ _ _) as [o|] eqn:Hok; [|discriminate]. intros ->.
    destruct (refresh_signed _ _ _ _ _ Hok) as (claims & Hs & Hcid & Hty). exists claims. split; [done|]. split_and!; [|done|].
    + apply normalized_session. tauto.
    + intros Hadmin. rewrite Hadmin in Hty. destruct Hty as [Hty|[Hty _]]; [by vm_compute in Hty|done].
  - destruct (verify_file_token _ _ _) as [o|] eqn:Hok; [|discriminate]. intros ->. destruct (file_signed _ _ _ _ Hok) as (claims & Hs & Hfor & Hty). by exists claims.
  - destruct (check_purpose_token _ _ _ _ _ _) as [[[r q]|]|] eqn:Hok; try discriminate. intros _. exists q.
    destruct (confirm_signed _ _ _ _ _ _ _ _ Hok) as (Hs & Hty & _). done.
Qed.
Lemma claim_text_of claims k t : at_key claims k = PStr t -> claim_text claims k = t.
Proof.
  unfold at_key, claim_text. destruct (dict_get k claims) as [v|]; [|discriminate]. cbn. intros ->. cbn.
  by destruct (String.eqb_spec t "") as [->|].
Qed.
Lemma admin_or_record claims : session_type claims -> claims_for File claims ->
  at_key claims "type" = PStr "admin" /\ claim_text claims "type" = "admin" \/
  at_key claims "type" = PStr "authRecord" /\ claim_text claims "type" = "authRecord".
Proof.
  unfold session_type. intros Hty [_ Hfile]. apply elem_of_cons in Hty as [Hty|Hty].
  - left. split; [done|]. by apply claim_text_of.
  - right. apply elem_of_cons in Hty as [Hty|Hty%list_elem_of_singleton].
    + split; [done|]. by apply claim_text_of.
    + rewrite (claim_text_of _ _ _ Hty) in Hfile. by destruct Hfile.
Qed.
(** Token keys and secrets are letters and digits, as they are generated. *)
Definition plain_store (st : store) : Prop :=
  (forall table id k, key_of_row st table id = Some k -> str_forall key_char k = true) /\
  (forall c name s, c ∈ collections st -> secret_of c name = Some (PStr s) -> str_forall key_char s = true).
Lemma by_id_in st id c : collection_by_id st id = Some c -> c ∈ collections st.
Proof. intros Hf. apply List.find_some in Hf as [Hin _]. by apply list_elem_of_In. Qed.
Lemma by_name_in st n c : collection_by_name st n = Some c -> c ∈ collections st.
Proof. intros Hf. apply List.find_some in Hf as [Hin _]. by apply list_elem_of_In. Qed.
(** A session and a download of one token are signed by one record. *)
Lemma same_signer u st token claims table id s table' id' s' i : plain_store st -> purpose_of u = Session -> usable u st token ->
  claims_for u claims -> claims_for File claims -> at_key claims "id" = PStr i ->
  signer_of u st claims = Some (table, id, PStr s) -> signer_of File st claims = Some (table', id', PStr s') ->
  table = table' /\ id = id' /\ (s = s' -> shared_secret st) /\ str_forall key_char s = true /\ str_forall key_char s' = true.
Proof.
  intros [_ Hsec0] Hp Hus Hcl Hfile Hi Hs Hs'. assert (Hty : session_type claims) by (destruct u; try discriminate; [exact Hcl|by destruct Hcl]).
  pose proof (claim_text_of _ _ _ Hi) as Hit. destruct (admin_or_record claims Hty Hfile) as [[Ht Htt]|[Ht Htt]].
  - unfold signer_of in Hs'. rewrite Htt, Hit in Hs'. cbn [String.eqb Ascii.eqb Bool.eqb] in Hs'.
    apply bind_Some in Hs' as (c' & Hc' & Hs'). apply bind_Some in Hs' as (sec' & Hsec' & [= <- <- ->]).
    unfold get_superusers_collection in Hc'. destruct u as [js|c| |]; try discriminate; unfold signer_of in Hs.
    + rewrite Ht, Hi in Hs. cbn [primary_key text_of mbind option_bind] in Hs. change (py_eqb _ _) with true in Hs. cbn match in Hs.
      rewrite Hc' in Hs. apply bind_Some in Hs as (sec & Hsec & [= <- <- ->]).
      split_and!; [done..| |by eapply Hsec0; [eapply by_name_in|]|by eapply Hsec0; [eapply by_name_in|]]. intros ->. exists c', s'. split; [by eapply by_name_in|done].
    + rewrite Hi in Hs. apply bind_Some in Hs as (id0 & [= <-] & Hs). apply bind_Some in Hs as (sec & Hsec & [= <- <- ->]).
      destruct Hcl as (_ & _ & Hn). rewrite (Hn Ht). destruct Hus as [_ Hus]. rewrite (Hn Ht) in Hus.
      assert (c' = c) as -> by congruence. split_and!; [done..| |by eapply Hsec0; [eapply by_name_in|]|by eapply Hsec0; [eapply by_name_in|]]. intros ->. exists c, s'. split; [by eapply by_name_in|done].
  - unfold signer_of in Hs'. rewrite Htt, Hit in Hs'. cbn [String.eqb Ascii.eqb Bool.eqb] in Hs'.
    apply bind_Some in Hs' as (c' & Hc' & Hs'). apply bind_Some in Hs' as (sec' & Hsec' & [= <- <- ->]).
    destruct u as [js|c| |]; try discriminate; unfold signer_of in Hs.
    + rewrite Ht, Hi in Hs. change (py_eqb _ _) with false in Hs. cbn match in Hs.
      apply bind_Some in Hs as (cid & Hcid & Hs). unfold text_of, text_param in Hcid. destruct (at_key claims "collectionId") as [| | | |x| |] eqn:Hx; try discriminate.
      injection Hcid as ->. rewrite (claim_text_of _ _ _ Hx) in Hc'. apply bind_Some in Hs as (c & Hc & Hs). assert (c' = c) as -> by congruence.
      apply bind_Some in Hs as (id0 & [= <-] & Hs). apply bind_Some in Hs as (sec & Hsec & [= <- <- ->]).
      split_and!; [done..| |by eapply Hsec0; [eapply by_id_in|]|by eapply Hsec0; [eapply by_id_in|]]. intros ->. exists c, s'. split; [by eapply by_id_in|done].
    + rewrite Hi in Hs. apply bind_Some in Hs as (id0 & [= <-] & Hs). apply bind_Some in Hs as (sec & Hsec & [= <- <- ->]).
      destruct Hcl as (_ & Hcid & _). rewrite (claim_text_of _ _ _ Hcid) in Hc'. destruct Hus as [Hus _].
      assert (c' = c) as -> by congruence.
      split_and!; [done..| |by eapply Hsec0; [eapply by_id_in|]|by eapply Hsec0; [eapply by_id_in|]]. intros ->. exists c, s'. split; [by eapply by_id_in|done].
Qed.

Lemma not_session ty : ty ∈ ["verification"; "passwordReset"; "emailChange"] -> PStr ty ∈ [PStr "admin"; PStr "authRecord"; PStr "auth"] -> False.
Proof.
  rewrite !elem_of_cons, !elem_of_nil. intros Ht Hs. destruct Ht as [Ht|[Ht|[Ht|[]]]], Hs as [Hs|[Hs|[Hs|[]]]]; rewrite Ht in Hs; discriminate.
Qed.
Lemma not_file ty : ty ∈ ["verification"; "passwordReset"; "emailChange"] -> ty = "admin" \/ ty = "authRecord" -> False.
Proof. rewrite !elem_of_cons, !elem_of_nil. intros Ht Hs. destruct Ht as [Ht|[Ht|[Ht|[]]]], Hs as [Hs|Hs]; rewrite Ht in Hs; discriminate. Qed.

(** C26: a token is good for one purpose.  A token that the code accepts for two
    purposes, at whatever times, is a session token and a download token of a
    collection whose secrets for the two are the same; no token is accepted for
    two different confirmations, or for one and for anything else. *)
Theorem token_purposes_disjoint u u' st now now' token p p' claims i
  (Hplain : plain_store st) (Hu : usable u st token) (Hu' : usable u' st token)
  (Hclaims : jwt_unverified token = Some claims) (Hid : at_key claims "id" = PStr i)
  (Hacc : accepted u st now token = Some p) (Hacc' : accepted u' st now' token = Some p') :
  purpose_of u = purpose_of u' \/
  shared_secret st /\ (purpose_of u = Session /\ purpose_of u' = Download \/ purpose_of u = Download /\ purpose_of u' = Session).
Proof.
  assert (Htext : token_text u token = token /\ token_text u' token = token) by (by destruct u, u').
  apply accepted_claims in Hacc as (c1 & Hs & Hc), Hacc' as (c2 & Hs' & Hc'). rewrite (proj1 Htext) in Hs. rewrite (proj2 Htext) in Hs'.
  assert (Hsame : forall v n c, signed v st n token c -> c = claims).
  { intros v n c (? & ? & ? & ? & _ & _ & Hd). apply decode_shows in Hd. congruence. }
  pose proof (Hsame _ _ _ Hs) as ->. pose proof (Hsame _ _ _ Hs') as ->.
  assert (Hshared : forall v n n', purpose_of v = Session -> usable v st token -> claims_for v claims -> claims_for File claims ->
    signed v st n token claims -> signed File st n' token claims -> shared_secret st).
  { intros v n n' Hv Huv Hcv Hcf (t1 & i1 & s1 & k1 & Hs1 & Hk1 & Hd1) (t2 & i2 & s2 & k2 & Hs2 & Hk2 & Hd2).
    destruct (same_signer v st token claims _ _ _ _ _ _ i Hplain Hv Huv Hcv Hcf Hid Hs1 Hs2) as (<- & <- & Hsh & Hp1 & Hp2).
    assert (k2 = k1) as -> by congruence. apply Hsh, (append_inj_l k1). pose proof (proj1 Hplain _ _ _ Hk1) as Hpk.
    eapply decode_one_key; [..|exact Hd1|exact Hd2]; rewrite str_forall_app; by apply andb_true_iff. }
  assert (Hconfirm : forall c ty cfg v, usable (Confirm c ty cfg) st token -> claims_for (Confirm c ty cfg) claims -> claims_for v claims ->
    purpose_of v = Confirmation ty).
  { intros c ty cfg v Hty Htype Hv. cbn in Hty, Htype. destruct v as [js|c'| |c' ty' cfg']; cbn [claims_for purpose_of] in *.
    - unfold session_type in Hv. rewrite Htype in Hv. exfalso. by apply (not_session ty).
    - destruct Hv as [Hv _]. unfold session_type in Hv. rewrite Htype in Hv. exfalso. by apply (not_session ty).
    - destruct Hv as [_ Hv]. rewrite (claim_text_of _ _ _ Htype) in Hv. exfalso. by apply (not_file ty).
    - congruence. }
  assert (Hfile : purpose_of u = Session -> u' = File -> shared_secret st).
  { intros Hp ->. exact (Hshared _ _ _ Hp Hu Hc Hc' Hs Hs'). }
  assert (Hfile' : purpose_of u' = Session -> u = File -> shared_secret st).
  { intros Hp ->. exact (Hshared _ _ _ Hp Hu' Hc' Hc Hs' Hs). }
  assert (Hleft : forall ty, purpose_of u = Confirmation ty -> purpose_of u' = Confirmation ty).
  { intros ty Hp. destruct u; try discriminate. injection Hp as <-. exact (Hconfirm _ _ _ _ Hu Hc Hc'). }
  assert (Hright : forall ty, purpose_of u' = Confirmation ty -> purpose_of u = Confirmation ty).
  { intros ty Hp. destruct u'; try discriminate. injection Hp as <-. exact (Hconfirm _ _ _ _ Hu' Hc' Hc). }
  clear -Hfile Hfile' Hleft Hright. destruct u, u'; cbn [purpose_of] in *; auto 6.
  all: try (left; symmetry; by apply Hleft); left; by apply Hright.
Qed.

(** ** The life of a session *)
(** How long a session token of the collection lasts; [create_record_auth_token]
    takes a duration below one second for the collection's. *)
Definition lifetime (c : Collection) (duration_seconds : option Z) : option Z :=
  match get_collection_token_config c "authToken" with
  | Ok (_, PInt d) => Some (match duration_seconds with Some s => if (s <? 1)%Z then d else s | None => d end)
  | _ => None
  end.
Definition session_claims (now life : Z) (id cid : string) (refreshable : bool) : dict :=
  [("id", PStr id); ("type", PStr "authRecord"); ("collectionId", PStr cid); ("refreshable", PBool refreshable);
   ("iat", PInt now); ("exp", PInt (now + life))].
Lemma create_session now r c refreshable duration token id life :
  dict_get "id" r = Some (Plain (PStr id)) -> lifetime c duration = Some life ->
  create_record_auth_token now r c refreshable duration = Ok token ->
  exists key, record_key r c "authToken" = Ok key /\ token = jwt_encode (session_claims now life id (c_id c) refreshable) key.
Proof.
  intros Hid Hlife Hok. unfold lifetime in Hlife. destruct (get_collection_token_config c "authToken") as [[secret d]|] eqn:Hc; [|discriminate].
  destruct d as [| |d| | | |]; try discriminate. unfold create_record_auth_token in Hok. rewrite Hid in Hok.
  bind_ok Hok as i [= <-]. bind_ok Hok as tk Htk. bind_ok Hok as config Hconf. rewrite Hc in Hconf. injection Hconf as <-.
  bind_ok Hok as key Hkey. exists key. split.
  - unfold record_key, column. rewrite Hc. destruct (dict_get "token_key" r); [|discriminate]. by injection Htk as ->.
  - cbn [fst snd] in Hok. bind_ok Hok as short Hshort.
    assert (Hd : (if short then PInt d else match duration with Some s => PInt s | None => PInt d end) = PInt life).
    { destruct duration as [s|].
      - injection Hshort as <-. destruct (s <? 1)%Z; congruence.
      - injection Hlife as ->. by destruct short. }
    rewrite Hd in Hok. unfold create_token in Hok. bind_ok Hok as exp [= <-]. by injection Hok as <-.
Qed.

(** a session lasts exactly as long as it says.  A token issued for a record
    of an auth collection is accepted, for requests to the API and for refreshing, at any
    later second before it expires and at no other, and the request is that
    record's; whatever the collection's secret and duration. *)
Theorem session_accepted_until st now now' c r refreshable duration token jwt_secret header id life
  (Hid : dict_get "id" r = Some (Plain (PStr id))) (Hlife : lifetime c duration = Some life)
  (Hok : create_record_auth_token now r c refreshable duration = Ok token)
  (Hc : collection_by_id st (c_id c) = Some c) (Hr : row_by_id st (c_name c) id = Ok (Some r))
  (Hne : id <> "" /\ c_id c <> "" /\ token <> "") (Hheader : bearer_token header = token) (Hnow : (now <= now')%Z) :
  let session := if (now' <? now + life)%Z then Some (session_claims now life id (c_id c) refreshable) else None in
  get_optional_auth st now' jwt_secret header = Ok session /\ verify_record_auth_token st now' c token = Ok session.
Proof.
  destruct (create_session _ _ _ _ _ _ _ _ Hid Hlife Hok) as (key & Hkey & Htoken). destruct Hne as (Hi & Hci & Ht).
  set (claims := session_claims now life id (c_id c) refreshable) in *.
  assert (Hw : MigrationText.writable (PDict claims) = true) by done.
  assert (Hshow : jwt_unverified token = Some claims) by (rewrite Htoken; by apply encode_shows).
  assert (Hdec : jwt_decode token key now' = if (now' <? now + life)%Z then Some claims else None)
    by (rewrite Htoken; eapply (decode_signed claims key now); done).
  assert (Htruthy : truthy (PStr id) = true /\ truthy (PStr (c_id c)) = true).
  { split; cbn [truthy]; apply negb_true_iff; by apply String.eqb_neq. }
  destruct Htruthy as [Hti Htc]. apply String.eqb_neq in Ht. split.
  - unfold get_optional_auth. rewrite Hheader, Ht, Hshow. change (at_key claims "id") with (PStr id).
    change (at_key claims "collectionId") with (PStr (c_id c)). rewrite Hti, Htc. cbn [negb].
    change (normalize_auth_token_type _) with (PStr "authRecord"). cbn -[collection_by_id row_by_id record_key].
    rewrite Hc. cbn -[row_by_id record_key]. rewrite Hr. cbn -[record_key]. rewrite Hkey. cbn. rewrite Hdec. by destruct (_ <? _)%Z.
  - unfold verify_record_auth_token. rewrite Hshow. change (at_key claims "id") with (PStr id).
    change (at_key claims "collectionId") with (PStr (c_id c)). rewrite Hti. 
    change (normalize_auth_token_type _) with (PStr "authRecord"). cbn [py_eqb]. rewrite !String.eqb_refl, orb_true_r.
    replace (if (c_name c =? "_superusers")%string then true else true) with true by (destruct (c_name c =? "_superusers")%string; reflexivity).
    cbn -[row_by_id record_key].
    rewrite Hr. cbn -[record_key]. rewrite Hkey. cbn. rewrite Hdec. by destruct (_ <? _)%Z.
Qed.
End Accepted.

(** ** Tokens for the examples: the key and the claims, as text *)
Fixpoint demo_marks (n : nat) : string := match n with O => "" | S n => String "x" (demo_marks n) end.
Definition demo_pair (key : string) (claims : dict) : pyval := PList [PStr key; PDict claims].
Definition demo_encode (claims : dict) (key : string) : string :=
  demo_marks (MigrationText.weight (demo_pair key claims)) +:+
  @MigrationText._format_value MigrationText.demo_float_text 4 4 (demo_pair key claims).
Definition demo_read (token : string) : option (string * dict) :=
  let '(marks, text) := span (Ascii.eqb "x") token in
  match @MigrationText.read_value MigrationText.demo_float_reader (String.length marks) text with
  | Some (PList [PStr key; PDict claims], "") => Some (key, claims)
  | _ => None
  end.
Definition demo_timely (now : Z) (claims : dict) : bool :=
  match dict_get "iat" claims, dict_get "exp" claims with
  | Some (PInt iat), Some (PInt exp) => (iat <=? now)%Z && (now <? exp)%Z
  | _, _ => false
  end.
Instance demo_jwt : Jwt := {
  jwt_encode := demo_encode;
  jwt_unverified token := snd <$> demo_read token;
  jwt_decode token key now :=
    '(k, claims) ← demo_read token; if String.eqb k key && demo_timely now claims then Some claims else None;
}.
Lemma demo_reads claims key : MigrationText.writable (PDict claims) = true -> demo_read (demo_encode claims key) = Some (key, claims).
Proof.
  intros Hw. unfold demo_read, demo_encode. set (v := demo_pair key claims).
  assert (Hm : forall n, str_forall (Ascii.eqb "x") (demo_marks n) = true /\ String.length (demo_marks n) = n)
    by (induction n as [|n [IH1 IH2]]; [done|]; cbn; by rewrite IH1, IH2).
  rewrite (span_exact (Ascii.eqb "x")) by (apply Hm || done). rewrite (proj2 (Hm _)).
  assert (Hv : MigrationText.writable v = true) by (cbn; by rewrite andb_true_r).
  pose proof (@MigrationText.format_value_reads _ _ MigrationText.demo_reader_laws 4%nat 4%nat v "" Hv I) as Hr.
  rewrite append_nil_r in Hr. by rewrite Hr.
Qed.
Instance demo_jwt_laws : JwtLaws.
Proof.
  split; cbn [jwt_decode jwt_unverified jwt_encode demo_jwt].
  - intros token key now claims. destruct (demo_read token) as [[k c]|]; [|discriminate]. cbn. destruct (_ && _); [|discriminate]. by intros [= ->].
  - intros token key key' now now' claims claims' _ _. destruct (demo_read token) as [[k c]|]; [|discriminate]. cbn.
    destruct (String.eqb_spec k key) as [->|]; [|discriminate]. destruct (String.eqb_spec key key') as [->|]; [done|discriminate].
  - intros claims key Hw. by rewrite demo_reads.
  - intros claims key iat exp now Hw Hi He _ _ Hn. rewrite demo_reads by done. cbn. rewrite String.eqb_refl. unfold demo_timely. rewrite Hi, He.
    apply Z.leb_le in Hn. rewrite Hn. by destruct (now <? exp)%Z.
Qed.

Definition demo_options : pyval :=
  PDict [("authToken", PDict [("secret", PStr "s1"); ("duration", PInt 100)]);
         ("fileToken", PDict [("secret", PStr "s2"); ("duration", PInt 10)])].
Definition demo_users : Collection := RequestMacros.mkCollection "c1" "users" "auth" [] demo_options.
Definition demo_user : row :=
  [("id", Plain (PStr "u1")); ("email", Plain (PStr "a@x.io")); ("token_key", Plain (PStr "k1"))].
Definition demo_store : store := mkStore [demo_users] {["users" := [demo_user]]}.
Definition demo_token : string := match create_record_auth_token 5 demo_user demo_users true None with Ok t => t | Err _ => "" end.
Definition demo_download : string :=
  match @create_file_token_for_auth demo_jwt MigrationText.demo_float_text demo_store 5
          [("id", PStr "u1"); ("type", PStr "authRecord"); ("collectionId", PStr "c1")] with Ok t => t | Err _ => "" end.
#[local] Existing Instance MigrationText.demo_float_text.
Definition demo_new_key : row := [("token_key", Plain (PStr "k2"))].
Definition demo_rotated : store := mkStore [demo_users] {["users" := [set_columns "u1" demo_new_key demo_user]]}.
Definition demo_session : dict := session_claims 5 100 "u1" "c1" true.

Lemma rotation_revokes_demo :
  accepted (Auth "") demo_store 50 demo_token = Some demo_session /\ accepted (Auth "") demo_rotated 60 demo_token = None.
Proof.
  split; [vm_compute; reflexivity|].
  refine (rotation_revokes (Auth "") demo_store 50 demo_token demo_session "users" "u1" "s1" "k1" "k2" demo_new_key demo_rotated 60
            _ _ _ _ _ _ _ _ _).
  - vm_compute; reflexivity.
  - vm_compute; reflexivity.
  - vm_compute; reflexivity.
  - repeat constructor. by intros ?%elem_of_nil.
  - intros Hin. by apply list_elem_of_singleton in Hin.
  - reflexivity.
  - discriminate.
  - repeat split; vm_compute; reflexivity.
  - vm_compute; reflexivity.
Defined.
Lemma demo_plain : plain_store demo_store.
Proof.
  split.
  - intros table id k. unfold key_of_row, row_by_id. cbn [tables demo_store].
    destruct (decide (table = "users")) as [->|Hne]; [|by rewrite lookup_singleton_ne].
    rewrite lookup_singleton_eq. cbn [List.find]. destruct (has_id id demo_user); [|done]. by intros [= <-].
  - intros c name s Hc. apply list_elem_of_singleton in Hc as ->. unfold secret_of, get_collection_token_config.
    cbn -[String.eqb].
    destruct (String.eqb "authToken" name); [by intros [= <-]|]. destruct (String.eqb "fileToken" name); by intros [= <-].
Qed.
Lemma token_purposes_disjoint_witness :
  accepted (Auth "") demo_store 50 demo_token = Some demo_session /\
  (purpose_of (Auth "") = purpose_of (Refresh demo_users) \/
   shared_secret demo_store /\ (purpose_of (Auth "") = Session /\ purpose_of (Refresh demo_users) = Download \/
                                purpose_of (Auth "") = Download /\ purpose_of (Refresh demo_users) = Session)).
Proof.
  split; [vm_compute; reflexivity|].
  refine (token_purposes_disjoint (Auth "") (Refresh demo_users) demo_store 50 60 demo_token demo_session demo_session demo_session "u1"
            demo_plain _ _ _ _ _ _); vm_compute; [reflexivity|split; reflexivity|reflexivity..].
Defined.
Lemma session_accepted_until_witness :
  bearer_token ("Bearer " +:+ demo_token) = demo_token /\
  get_optional_auth demo_store 104 "" ("Bearer " +:+ demo_token) = Ok (Some demo_session) /\
  verify_record_auth_token demo_store 105 demo_users demo_token = Ok None.
Proof.
  split; [vm_compute; reflexivity|]. split.
  - refine (proj1 (session_accepted_until demo_store 5 104 demo_users demo_user true None demo_token "" ("Bearer " +:+ demo_token) "u1" 100
                     _ _ _ _ _ _ _ _)); try (vm_compute; reflexivity); [vm_compute; by split_and!|by vm_compute].
  - refine (proj2 (session_accepted_until demo_store 5 105 demo_users demo_user true None demo_token "" ("Bearer " +:+ demo_token) "u1" 100
                     _ _ _ _ _ _ _ _)); try (vm_compute; reflexivity); [vm_compute; by split_and!|by vm_compute].
Defined.
(** A download is no session, and expires on its own. *)
Example download_only : accepted File demo_store 14 demo_download <> None /\ accepted File demo_store 15 demo_download = None /\
  accepted (Auth "") demo_store 14 demo_download = None /\ accepted File demo_store 14 demo_token = None.
Proof. vm_compute. by split_and!. Qed.
(** The collections of that store have secrets of their own for each purpose. *)
Example demo_not_shared : ~ shared_secret demo_store.
Proof. intros (c & s & Hc & H1 & H2). apply list_elem_of_singleton in Hc as ->. vm_compute in H1, H2. congruence. Qed.
(** With one secret for both, a download token is a session. *)
Definition demo_shared : Collection := RequestMacros.mkCollection "c1" "users" "auth" [] (PDict []).
Definition demo_shared_store : store := mkStore [demo_shared] {["users" := [demo_user]]}.
Example shared_secret_session : exists token,
  create_file_token_for_auth demo_shared_store 5 [("id", PStr "u1"); ("type", PStr "authRecord"); ("collectionId", PStr "c1")] = Ok token /\
  is_Some (accepted (Auth "") demo_shared_store 6 token) /\ is_Some (accepted (Refresh demo_shared) demo_shared_store 6 token).
Proof. eexists. split; [vm_compute; reflexivity|]. split; eexists; vm_compute; reflexivity. Qed.
(** The session of a superuser has no [collectionId], which the refresh asks for. *)
Definition demo_superusers : Collection := RequestMacros.mkCollection "c0" "_superusers" "auth" [] demo_options.
Definition demo_admin_store : store := mkStore [demo_superusers] {["_superusers" := [demo_user]]}.
Example admin_never_refreshed : exists token, create_admin_token 5 demo_user demo_superusers = Ok token /\
  is_Some (accepted (Auth "") demo_admin_store 6 token) /\ accepted (Refresh demo_superusers) demo_admin_store 6 token = None.
Proof. eexists. split; [vm_compute; reflexivity|]. split; [eexists|]; vm_compute; reflexivity. Qed.
