(* ===== verification/AuthFlows.v ===== *)
(** * Signing in (ppbase/services/record_auth_service.py)

    Sign-in with a password or a one-time password, refreshes, and the mails and
    confirmations of a verification, a password reset and an e-mail change, over
    the store of the tokens and an outbox.  Hashes, drawn characters and the
    clock are parameters. *)
From Stdlib Require Import Ascii String.
From S2P Require Import Prelude PyText PyVal StorageSafety FieldTypes RecordResponse AuthTokens.
From S2P Require RequestMacros MigrationText.
#[local] Open Scope string_scope.
#[local] Open Scope list_scope.

(** ** Hashes and drawn texts *)
Class Bcrypt : Type := {
  bcrypt_hashpw : string -> string -> option string;    (* the password and the salt; [None] raises *)
  bcrypt_checkpw : string -> string -> option bool;     (* the password and the hash; [None] raises *)
}.
(** A password agrees with its hash. *)
Class BcryptLaws `{Bcrypt} : Prop := {
  checkpw_hashpw password salt h : bcrypt_hashpw password salt = Some h -> bcrypt_checkpw password h = Some true;
  hashpw_text password salt h : bcrypt_hashpw password salt = Some h -> h <> "";
}.
(** [secrets.choice] draws the character of an index. *)
Definition drawn : Type := nat -> nat.
Definition choice (alphabet : string) (index : nat) : ascii :=
  match String.get (index mod String.length alphabet) alphabet with Some c => c | None => "0"%char end.
Fixpoint draw (alphabet : string) (d : drawn) (length : nat) : string :=
  match length with O => "" | S n => String (choice alphabet (d n)) (draw alphabet d n) end.
Definition _OTP_ALPHABET : string := "0123456789".
Definition ascii_lowercase : string := "abcdefghijklmnopqrstuvwxyz".
Definition ascii_uppercase : string := "ABCDEFGHIJKLMNOPQRSTUVWXYZ".
Definition _TOKEN_KEY_ALPHABET : string := ascii_lowercase +:+ ascii_uppercase +:+ _OTP_ALPHABET.
Definition _ALPHABET : string := ascii_lowercase +:+ _OTP_ALPHABET.
Definition generate_token_key (d : drawn) : string := draw _TOKEN_KEY_ALPHABET d 50.
Definition generate_id (d : drawn) : string := draw _ALPHABET d 15.
Definition _generate_otp_password (d : drawn) (length : nat) : string := draw _OTP_ALPHABET d length.
Record luck : Type := mkLuck { ids : drawn; keys : drawn; digits : drawn; salt : string }.

(** ** Mails (ppbase/services/mail_service.py) *)
Inductive mail : Type :=
| VerificationMail (to token : string)
| PasswordResetMail (to token : string)
| EmailChangeMail (to token : string)
| OtpMail (to otp_id otp_code : string).
Record world : Type := mkWorld { db : store; outbox : list mail }.
Definition send (m : mail) (w : world) : world := mkWorld (db w) (outbox w ++ [m]).

(** ** The clock: microseconds of UTC on the scale of [datetime] *)
Definition EPOCH_US : Z := 719162 * FilterParser.DAY_US.
Definition seconds (now : Z) : Z := ((now - EPOCH_US) / 10 ^ 6)%Z.
Definition instant (d : datetime) : Z := (wall d - default 0 (utcoffset d))%Z.
Definition utc (now : Z) : value := Datetime (mkDatetime now (Some 0%Z)).

(** ** Rows by a column *)
(** What [WHERE "field" = :val] finds of a row: a text column is compared, a
    column of another type takes no text. *)
Definition field_is (field val : string) (r : row) : result exn bool :=
  match dict_get field r with
  | None => raise "ProgrammingError"
  | Some (Plain (PStr s)) => Ok (String.eqb s val)
  | Some (Plain PNone) => Ok false
  | Some _ => raise "DBAPIError"
  end.
Definition has_text (field val : string) (r : row) : bool :=
  match column_or_none r field with Plain (PStr s) => String.eqb s val | _ => false end.
Definition _get_raw_record_by_field (st : store) (c : Collection) (field val : string) : result exn (option row) :=
  match tables st !! c_name c with
  | None => raise "ProgrammingError"
  | Some rows => _ ← map_result (field_is field val) rows; Ok (List.find (has_text field val) rows)
  end.
Definition _get_raw_record_by_id (st : store) (c : Collection) (record_id : string) : result exn (option row) :=
  row_by_id st (c_name c) record_id.
Definition with_rows (st : store) (table : string) (f : list row -> list row) : result exn store :=
  match tables st !! table with
  | None => raise "ProgrammingError"
  | Some rows => Ok (mkStore (collections st) (<[table := f rows]> (tables st)))
  end.

(** ** Options *)
Definition collection_options (c : Collection) : pyval :=
  if truthy (RequestMacros.options c) then RequestMacros.options c else PDict [].
Definition _get_identity_fields (c : Collection) : result exn pyval :=
  pa ← get_of (collection_options c) "passwordAuth" (PDict []); get_of pa "identityFields" (PList [PStr "email"]).
Definition _is_password_auth_enabled (c : Collection) : result exn bool :=
  pa ← get_of (collection_options c) "passwordAuth" (PDict []);
  enabled ← get_of (py_or pa (PDict [])) "enabled" (PBool true);
  Ok (truthy enabled).
Definition int_of (v : pyval) : result exn Z := match py_int v with Some z => Ok z | None => raise "TypeError or ValueError" end.
Definition _otp_config (c : Collection) : result exn (Z * Z) :=
  otp ← get_of (collection_options c) "otp" (PDict []);
  let otp := py_or otp (PDict []) in
  duration ← get_of otp "duration" (PInt 180); duration ← int_of (py_or duration (PInt 180));
  length ← get_of otp "length" (PInt 8); length ← int_of (py_or length (PInt 8));
  Ok (if (duration <? 1)%Z then 180%Z else duration, if (length <? 4)%Z then 8%Z else length).

Section Flows.
Context {lib : RecordLib} {jwt : Jwt} {bcrypt : Bcrypt}.
Definition hash_password (salt password : string) : result exn string :=
  match bcrypt_hashpw password salt with Some h => Ok h | None => raise "ValueError" end.
Definition verify_password (plain hashed : string) : bool := default false (bcrypt_checkpw plain hashed).
(** [not pw_hash or not verify_password(password, pw_hash)], negated. *)
Definition password_agrees (password : string) (hash : value) : bool :=
  match hash with Plain (PStr h) => negb (String.eqb h "") && verify_password password h | _ => false end.

(** ** Sessions *)
Definition issue_token (now : Z) (c : Collection) (r : row) : result exn string :=
  if String.eqb (c_name c) "_superusers" then create_admin_token (seconds now) r c
  else create_record_auth_token (seconds now) r c true None.
Definition auth_record (c : Collection) (r : row) : result exn row :=
  build_record_response r (c_id c) (c_name c) (schema c) None [] true false None false.
Definition session : Type := string * row.
Definition generate_record_auth_token (st : store) (now : Z) (c : Collection) (record_id : string) : result exn string :=
  r ← _get_raw_record_by_id st c record_id;
  match r with None => raise "ValueError" | Some r => create_record_auth_token (seconds now) r c true None end.
(** [identity_field not in fields] *)
Definition not_in_fields (identity_field : string) (fields : pyval) : result exn bool :=
  match fields with
  | PList l => Ok (negb (existsb (py_eqb (PStr identity_field)) l))
  | PDict d => Ok (negb (dict_mem identity_field d))
  | PStr s => Ok (negb (contains identity_field s))
  | _ => raise "TypeError"
  end.
(** [fields[0]] of a field list that is not empty. *)
Definition first_field (fields : pyval) : result exn string :=
  match fields with
  | PList (PStr s :: _) => Ok s
  | PList (_ :: _) => raise "AttributeError"
  | PStr (String a _) => Ok (String a "")
  | PDict _ => raise "KeyError"
  | _ => raise "TypeError"
  end.
(** [field.replace("_", "").isalnum()] *)
Definition is_identifier (field : string) : bool :=
  let t := replace_char "_" "" field in negb (String.eqb t "") && str_forall is_alnum t.
Definition auth_with_password (st : store) (now : Z) (c : Collection) (identity password : string) (identity_field : option string)
  : result exn (option session) :=
  enabled ← _is_password_auth_enabled c;
  if negb enabled then Ok None else
  fields ← _get_identity_fields c;
  let fields := if truthy fields then fields else PList [PStr "email"] in
  let identity_field := match identity_field with Some "" => None | f => f end in
  unknown ← match identity_field with Some f => not_in_fields f fields | None => Ok false end;
  if unknown : bool then Ok None else
  field ← match identity_field with Some f => Ok f | None => first_field fields end;
  if negb (is_identifier field) then Ok None else
  r ← _get_raw_record_by_field st c field identity;
  match r with
  | None => Ok None
  | Some r =>
      if negb (password_agrees password (column r "password_hash" (Plain (PStr "")))) then Ok None
      else token ← issue_token now c r; record ← auth_record c r; Ok (Some (token, record))
  end.
Definition auth_refresh (st : store) (now : Z) (c : Collection) (token_payload : dict) : result exn (option session) :=
  match dict_get "refreshable" token_payload with
  | Some (PBool false) => Ok None
  | _ =>
      let record_id := at_key token_payload "id" in
      if negb (truthy record_id) then Ok None else
      id ← text_param record_id;
      r ← _get_raw_record_by_id st c id;
      match r with
      | None => Ok None
      | Some r => token ← issue_token now c r; record ← auth_record c r; Ok (Some (token, record))
      end
  end.
(** A superuser's token is signed again, with [refreshable] off. *)
Definition resign_admin_token (now : Z) (c : Collection) (r : row) (duration : option Z) : result exn string :=
  token ← create_admin_token (seconds now) r c;
  unverified ← match jwt_unverified token with Some u => Ok u | None => raise "DecodeError" end;
  config ← get_collection_token_config c "authToken";
  secret ← concat_key (column r "token_key" (Plain (PStr ""))) config.1;
  let duration := match duration with None | Some 0%Z => 1209600%Z | Some d => d end in
  create_token (seconds now) (dict_set "refreshable" (PBool false) unverified) secret (PInt duration).
Definition impersonate_auth_record (st : store) (now : Z) (c : Collection) (record_id : string) (duration : option Z)
  : result exn (option session) :=
  r ← _get_raw_record_by_id st c record_id;
  match r with
  | None => Ok None
  | Some r =>
      token ← (if String.eqb (c_name c) "_superusers" then resign_admin_token now c r duration
               else create_record_auth_token (seconds now) r c false duration);
      record ← auth_record c r;
      Ok (Some (token, record))
  end.

(** ** One-time passwords *)
(** The [VALUES] of a bound text, of a column of the record. *)
Definition record_id_of (r : row) : result exn string :=
  match dict_get "id" r with None => raise "KeyError" | Some (Plain v) => text_param v | Some _ => raise "DBAPIError" end.
Definition created_of (otp : row) : option Z := match column_or_none otp "created" with Datetime d => Some (instant d) | _ => None end.
Definition of_record (c : Collection) (record_id : string) (otp : row) : bool :=
  has_text "collectionRef" (c_id c) otp && has_text "recordRef" record_id otp.
(** The record was sent a password there within the last minute. *)
Definition rate_hit (c : Collection) (record_id email : string) (now : Z) (otp : row) : bool :=
  of_record c record_id otp && has_text "sentTo" email otp
  && match created_of otp with Some t => (now - 60 * 10 ^ 6 <=? t)%Z | None => false end.
Definition stale (c : Collection) (record_id : string) (now duration : Z) (otp : row) : bool :=
  of_record c record_id otp && match created_of otp with Some t => (t <? now - duration * 10 ^ 6)%Z | None => false end.
Definition otp_row (c : Collection) (otp_id record_id email hash : string) (now : Z) : row :=
  [("id", Plain (PStr otp_id)); ("created", utc now); ("updated", utc now); ("collectionRef", Plain (PStr (c_id c)));
   ("recordRef", Plain (PStr record_id)); ("password", Plain (PStr hash)); ("sentTo", Plain (PStr email))].
(** The rows of the table, or the error of a table that is missing. *)
Definition otps (st : store) : result exn (list row) :=
  match tables st !! "_otps" with Some rows => Ok rows | None => raise "ProgrammingError" end.
Definition insert_otp (otp_id : string) (otp : row) (st : store) : result exn store :=
  rows ← otps st;
  if existsb (has_id otp_id) rows then raise "IntegrityError"
  else with_rows st "_otps" (fun rows => rows ++ [otp]).
(** The id of the request, and whether the record asks too often.  An exception
    after the stale rows are deleted does not bring them back, which the [Err]
    does not show. *)
Definition request_otp (w : world) (now : Z) (d : luck) (c : Collection) (email : string) : result exn (string * bool * world) :=
  let normalized_email := py_strip email in
  r ← _get_raw_record_by_field (db w) c "email" normalized_email;
  match r with
  | None => Ok (generate_id (ids d), false, w)
  | Some r =>
      config ← _otp_config c;
      record_id ← record_id_of r;
      rows ← otps (db w);
      if existsb (rate_hit c record_id normalized_email now) rows then Ok (generate_id (ids d), true, w)
      else
        st ← with_rows (db w) "_otps" (filter (fun otp => stale c record_id now config.1 otp = false));
        let otp_id := generate_id (ids d) in
        let otp_password := _generate_otp_password (digits d) (Z.to_nat config.2) in
        otp_hash ← hash_password (salt d) otp_password;
        st ← insert_otp otp_id (otp_row c otp_id record_id normalized_email otp_hash now) st;
        Ok (otp_id, false, send (OtpMail normalized_email otp_id otp_password) (mkWorld st (outbox w)))
  end.

(** [auth_with_otp] as its transactions, which those of other requests may come
    between: the one-time password is read and checked, its record is read, it is
    deleted, and the session is made. *)
Inductive otp_state : Type :=
| Asked
| Expired
| Matched (otp : row)
| Checked (r : row)
| Deleted (r : row)
| Answered (answer : result exn (option session)).
Definition find_otp (c : Collection) (otp_id : string) (st : store) : result exn (option row) :=
  rows ← otps st; Ok (List.find (fun otp => has_id otp_id otp && has_text "collectionRef" (c_id c) otp) rows).
Definition delete_otp (otp_id : string) (st : store) : result exn store :=
  with_rows st "_otps" (filter (fun otp => has_id otp_id otp = false)).
Definition too_old (now duration : Z) (otp : row) : bool :=
  match created_of otp with Some t => (duration * 10 ^ 6 <? now - t)%Z | None => true end.
Definition check_otp (c : Collection) (otp_id otp_password : string) (now : Z) (st : store) : result exn otp_state :=
  config ← _otp_config c;
  otp ← find_otp c otp_id st;
  match otp with
  | None => Ok (Answered (Ok None))
  | Some otp =>
      Ok (if too_old now config.1 otp then Expired
          else if password_agrees otp_password (column otp "password" (Plain (PStr ""))) then Matched otp
          else Answered (Ok None))
  end.
Definition make_session (now : Z) (c : Collection) (r : row) : result exn (option session) :=
  token ← create_record_auth_token (seconds now) r c true None; record ← auth_record c r; Ok (Some (token, record)).
Definition otp_step (c : Collection) (otp_id otp_password : string) (now : Z) (s : otp_state) (st : store) : otp_state * store :=
  match s with
  | Asked => (match check_otp c otp_id otp_password now st with Ok s => s | Err e => Answered (Err e) end, st)
  | Expired => match delete_otp otp_id st with Ok st => (Answered (Ok None), st) | Err e => (Answered (Err e), st) end
  | Matched otp =>
      (match (record_id ← match column otp "recordRef" (Plain (PStr "")) with Plain v => text_param v | Datetime _ => raise "DBAPIError" end;
              _get_raw_record_by_id st c record_id) with
       | Ok None => Answered (Ok None)
       | Ok (Some r) => Checked r
       | Err e => Answered (Err e)
       end, st)
  | Checked r => match delete_otp otp_id st with Ok st => (Deleted r, st) | Err e => (Answered (Err e), st) end
  | Deleted r => (Answered (make_session now c r), st)
  | Answered _ => (s, st)
  end.
Fixpoint otp_run (n : nat) (c : Collection) (otp_id otp_password : string) (now : Z) (s : otp_state) (st : store) : otp_state * store :=
  match n with
  | O => (s, st)
  | S n => let '(s, st) := otp_step c otp_id otp_password now s st in otp_run n c otp_id otp_password now s st
  end.
(** A request alone has answered after four transactions. *)
Definition auth_with_otp (st : store) (now : Z) (c : Collection) (otp_id otp_password : string) : result exn (option session) * store :=
  match otp_run 4 c otp_id otp_password now Asked st with
  | (Answered answer, st) => (answer, st)
  | (_, st) => (raise "unreachable", st)
  end.

(** ** Mails and confirmations *)
Definition cell_value (v : value) : result exn pyval := match v with Plain v => Ok v | Datetime _ => raise "TypeError" end.
Definition required_id (r : row) : result exn pyval :=
  match dict_get "id" r with None => raise "KeyError" | Some v => cell_value v end.
Definition purpose_key (r : row) (c : Collection) (config_name : string) : result exn (string * pyval) :=
  config ← get_collection_token_config c config_name;
  key ← concat_key (column r "token_key" (Plain (PStr ""))) config.1;
  Ok (key, config.2).
Definition request_verification (w : world) (now : Z) (c : Collection) (email : string) : result exn world :=
  r ← _get_raw_record_by_field (db w) c "email" email;
  match r with
  | None => Ok w
  | Some r =>
      if value_truthy (column r "verified" (Plain (PBool false))) then Ok w else
      key ← purpose_key r c "verificationToken"; id ← required_id r;
      token ← create_verification_token (seconds now) id (c_id c) (PStr email) key.1 key.2;
      Ok (send (VerificationMail email token) w)
  end.
(** The record and the claims of a good token; the record's id is in the claims. *)
Definition confirm_verification (st : store) (now : Z) (c : Collection) (token_str : string) : result exn (bool * store) :=
  good ← check_purpose_token st (seconds now) c "verification" "verificationToken" token_str;
  match good with
  | None => Ok (false, st)
  | Some (_, payload) =>
      record_id ← text_param (at_key payload "id");
      st ← _update_record_columns st (c_name c) record_id [("verified", Plain (PBool true))];
      Ok (true, st)
  end.
Definition request_password_reset (w : world) (now : Z) (c : Collection) (email : string) : result exn world :=
  r ← _get_raw_record_by_field (db w) c "email" email;
  match r with
  | None => Ok w
  | Some r =>
      key ← purpose_key r c "passwordResetToken"; id ← required_id r;
      token ← create_password_reset_token (seconds now) id (c_id c) (PStr email) key.1 key.2;
      Ok (send (PasswordResetMail email token) w)
  end.
(** The field of an error, its code and its message. *)
Definition flow_error : Type := string * string * string.
Definition invalid_token : flow_error := ("token", "validation_invalid_token", "Invalid or expired token.").
Definition confirm_password_reset (st : store) (now : Z) (d : luck) (c : Collection) (token_str password password_confirm : string)
  : result exn (option flow_error * store) :=
  if negb (String.eqb password password_confirm) then
    Ok (Some ("passwordConfirm", "validation_values_mismatch", "Values don't match."), st)
  else if (String.length password <? 8)%nat then
    Ok (Some ("password", "validation_length_out_of_range", "The length must be between 8 and 72."), st)
  else
    good ← check_purpose_token st (seconds now) c "passwordReset" "passwordResetToken" token_str;
    match good with
    | None => Ok (Some invalid_token, st)
    | Some (_, payload) =>
        new_hash ← hash_password (salt d) password;
        record_id ← text_param (at_key payload "id");
        st ← _update_record_columns st (c_name c) record_id
               [("password_hash", Plain (PStr new_hash)); ("token_key", Plain (PStr (generate_token_key (keys d))))];
        Ok (None, st)
    end.
Definition email_taken_error : flow_error := ("newEmail", "validation_not_unique", "The email is already in use.").
(** Another record of the collection has the address. *)
Definition taken (st : store) (c : Collection) (email record_id : string) : result exn bool :=
  dup ← _get_raw_record_by_field st c "email" email;
  Ok (match dup with None => false | Some dup => negb (has_id record_id dup) end).
Definition request_email_change (w : world) (now : Z) (c : Collection) (record_id new_email : string)
  : result exn (option flow_error * world) :=
  r ← _get_raw_record_by_id (db w) c record_id;
  match r with
  | None => Ok (Some ("auth", "validation_invalid_token", "Invalid or expired token."), w)
  | Some r =>
      let normalized_email := py_strip new_email in
      if String.eqb normalized_email "" then Ok (Some ("newEmail", "validation_required", "Cannot be blank."), w)
      else if negb (_EMAIL_RE normalized_email) then
        Ok (Some ("newEmail", "validation_invalid_email", "Must be a valid email address."), w)
      else
        dup ← taken (db w) c normalized_email record_id;
        if dup : bool then Ok (Some email_taken_error, w) else
        config ← get_collection_token_config c "emailChangeToken"; id ← required_id r;
        email ← cell_value (column r "email" (Plain (PStr "")));
        key ← concat_key (column r "token_key" (Plain (PStr ""))) config.1;
        token ← create_email_change_token (seconds now) id (c_id c) email (PStr normalized_email) key config.2;
        Ok (None, send (EmailChangeMail normalized_email token) w)
  end.
Definition confirm_email_change (st : store) (now : Z) (d : luck) (c : Collection) (token_str password : string)
  : result exn (option flow_error * store) :=
  good ← check_purpose_token st (seconds now) c "emailChange" "emailChangeToken" token_str;
  match good with
  | None => Ok (Some invalid_token, st)
  | Some (r, payload) =>
      let new_email := py_strip (py_str (default (PStr "") (dict_get "newEmail" payload))) in
      if String.eqb new_email "" || negb (_EMAIL_RE new_email) then Ok (Some invalid_token, st)
      else if negb (password_agrees password (column r "password_hash" (Plain (PStr "")))) then
        Ok (Some ("password", "validation_invalid_credentials", "Invalid login credentials."), st)
      else
        record_id ← text_param (at_key payload "id");
        dup ← taken st c new_email record_id;
        if dup : bool then Ok (Some email_taken_error, st) else
        st ← _update_record_columns st (c_name c) record_id
               [("email", Plain (PStr new_email)); ("verified", Plain (PBool true)); ("token_key", Plain (PStr (generate_token_key (keys d))))];
        Ok (None, st)
  end.
End Flows.

(** ** Rows after an update *)
Definition set_all (updates r : row) : row := fold_left (fun r kv => dict_set kv.1 kv.2 r) updates r.
Lemma set_columns_text id updates key v r : NoDup updates.*1 -> key ∉ updates.*1 -> has_text key v (set_columns id updates r) = has_text key v r.
Proof.
  intros Hnd Hk. unfold set_columns. destruct (has_id id r); [|done]. unfold has_text, column_or_none, column.
  rewrite (set_columns_get updates Hnd). apply dict_get_none in Hk. by rewrite Hk.
Qed.
Lemma set_columns_field id updates key v r : NoDup updates.*1 -> key ∉ updates.*1 -> field_is key v (set_columns id updates r) = field_is key v r.
Proof.
  intros Hnd Hk. unfold set_columns. destruct (has_id id r); [|done]. unfold field_is.
  rewrite (set_columns_get updates Hnd). apply dict_get_none in Hk. by rewrite Hk.
Qed.
Lemma by_field_update st c id updates st' key v r : _update_record_columns st (c_name c) id updates = Ok st' ->
  NoDup updates.*1 -> key ∉ updates.*1 -> has_id id r = true ->
  _get_raw_record_by_field st c key v = Ok (Some r) -> _get_raw_record_by_field st' c key v = Ok (Some (set_all updates r)).
Proof.
  unfold _update_record_columns, _get_raw_record_by_field. destruct (tables st !! c_name c) as [rows|]; [|discriminate].
  intros [= <-] Hnd Hk Hid Hr. cbn [tables]. rewrite lookup_insert_eq. bind_ok Hr as u Hu. injection Hr as Hr.
  rewrite map_result_fmap, (map_result_ext _ (field_is key v)) by (intros; by apply set_columns_field). rewrite Hu. cbn.
  rewrite find_fmap, Hr by (intros; by apply set_columns_text). cbn. unfold set_columns. by rewrite Hid.
Qed.
Lemma row_by_id_has st table id r : row_by_id st table id = Ok (Some r) -> has_id id r = true.
Proof. unfold row_by_id. destruct (tables st !! table); [|discriminate]. intros [= Hf]. by apply List.find_some in Hf as [_ Hf]. Qed.
Lemma draw_plain p alphabet d n : alphabet <> "" -> str_forall p alphabet = true -> str_forall p (draw alphabet d n) = true.
Proof.
  intros Hne Hp. induction n as [|n IH]; [done|]. cbn. rewrite IH, andb_true_r. unfold choice.
  assert (Hi : (d n mod String.length alphabet < String.length alphabet)%nat) by (apply Nat.mod_upper_bound; by destruct alphabet).
  revert Hi. generalize (d n mod String.length alphabet)%nat. clear -Hp. induction alphabet as [|a s IHs]; intros i Hi; [cbn in Hi; lia|].
  cbn in Hp. apply andb_true_iff in Hp as [Ha Hs]. destruct i as [|i]; [done|]. cbn. apply IHs; [done|]. cbn in Hi. lia.
Qed.
Lemma draw_length alphabet d n : String.length (draw alphabet d n) = n.
Proof. induction n as [|n IH]; [done|]. cbn. by rewrite IH. Qed.
Lemma token_key_plain d : str_forall key_char (generate_token_key d) = true.
Proof. by apply draw_plain. Qed.

(** ** Confirmations *)
Section Laws.
Context {lib : RecordLib} `{JwtLaws} {bcrypt : Bcrypt} {bcrypt_laws : BcryptLaws}.
(** What a password reset and an e-mail change write. *)
Definition new_columns (d : luck) (updates : row) : Prop :=
  NoDup updates.*1 /\ "id" ∉ updates.*1 /\ dict_get "token_key" updates = Some (Plain (PStr (generate_token_key (keys d)))).
Lemma confirmed_claims st now c ty cfg token r p : check_purpose_token st now c ty cfg token = Ok (Some (r, p)) -> jwt_unverified token = Some p.
Proof.
  intros Hok. destruct (confirm_signed _ _ _ _ _ _ _ _ Hok) as ((? & ? & ? & ? & _ & _ & Hd) & _). by eapply decode_shows.
Qed.
Lemma reset_updates st now d c token password confirm st' : confirm_password_reset st now d c token password confirm = Ok (None, st') ->
  exists claims id h, jwt_unverified token = Some claims /\ at_key claims "id" = PStr id /\ bcrypt_hashpw password (salt d) = Some h /\
    (8 <= String.length password)%nat /\ password = confirm /\
    let updates := [("password_hash", Plain (PStr h)); ("token_key", Plain (PStr (generate_token_key (keys d))))] in
    new_columns d updates /\ _update_record_columns st (c_name c) id updates = Ok st'.
Proof.
  unfold confirm_password_reset. destruct (String.eqb_spec password confirm) as [->|]; [|discriminate]. cbn [negb].
  destruct (String.length confirm <? 8)%nat eqn:Hl; [discriminate|]. apply Nat.ltb_ge in Hl. intros Hok. bind_ok Hok as good Hgood.
  destruct good as [[r p]|]; [|discriminate]. bind_ok Hok as h Hh. bind_ok Hok as id Hid. bind_ok Hok as st1 Hst. injection Hok as ->.
  exists p, id, h. split_and!; [by eapply confirmed_claims| | |done|done| |done].
  - unfold text_param in Hid. destruct (at_key p "id"); try discriminate. by injection Hid as ->.
  - unfold hash_password in Hh. destruct (bcrypt_hashpw confirm (salt d)); [|discriminate]. by injection Hh as ->.
  - split; [change (NoDup ["password_hash"; "token_key"]); decided|]. split; [change ("id" ∉ ["password_hash"; "token_key"]); decided|done].
Qed.
Lemma change_updates st now d c token password st' : confirm_email_change st now d c token password = Ok (None, st') ->
  exists claims id r email, jwt_unverified token = Some claims /\ at_key claims "id" = PStr id /\
    row_by_id st (c_name c) id = Ok (Some r) /\ password_agrees password (column r "password_hash" (Plain (PStr ""))) = true /\
    email = py_strip (py_str (default (PStr "") (dict_get "newEmail" claims))) /\ _EMAIL_RE email = true /\
    taken st c email id = Ok false /\
    let updates := [("email", Plain (PStr email)); ("verified", Plain (PBool true)); ("token_key", Plain (PStr (generate_token_key (keys d))))] in
    new_columns d updates /\ _update_record_columns st (c_name c) id updates = Ok st'.
Proof.
  unfold confirm_email_change. intros Hok. bind_ok Hok as good Hgood. destruct good as [[r p]|]; [|discriminate].
  destruct (confirm_signed _ _ _ _ _ _ _ _ Hgood) as (_ & _ & id & Hid & Hrow & _). rewrite Hid in Hok.
  remember (py_strip (py_str (default (PStr "") (dict_get "newEmail" p)))) as email eqn:Hemail. cbv zeta in Hok.
  destruct (String.eqb email "") ; [discriminate|]. destruct (_EMAIL_RE email) eqn:Hre; [|discriminate]. cbn [orb negb] in Hok.
  destruct (password_agrees password _) eqn:Hpw; [|discriminate]. cbn [negb] in Hok. bind_ok Hok as id' [= <-].
  bind_ok Hok as dup Hdup. destruct dup; [discriminate|]. bind_ok Hok as st1 Hst. injection Hok as ->.
  exists p, id, r, email. split_and!; try done; [by eapply confirmed_claims|].
  split; [change (NoDup ["email"; "verified"; "token_key"]); decided|]. split; [change ("id" ∉ ["email"; "verified"; "token_key"]); decided|done].
Qed.

(** C23: a password reset and an e-mail change close every session of the record.
    When either is confirmed, no token that the record has signed, for requests,
    refreshes, files or any confirmation, the confirmed one included, is accepted
    any more; keys and secrets are letters and digits and the new key is not the
    old one. *)
Theorem confirmation_revokes u st now now' d c confirmed password confirm claims id token secret k st'
  (Hdone : confirm_password_reset st now d c confirmed password confirm = Ok (None, st') \/
           confirm_email_change st now d c confirmed password = Ok (None, st'))
  (Hconfirmed : jwt_unverified confirmed = Some claims) (Hid : at_key claims "id" = PStr id)
  (Hsigner : signer u st token = Some (c_name c, id, PStr secret)) (Hk : key_of_row st (c_name c) id = Some k)
  (Hnew : generate_token_key (keys d) <> k) (Hplain : str_forall key_char secret = true /\ str_forall key_char k = true)
  (Haccepted : exists now0 p, accepted u st now0 token = Some p) :
  accepted u st' now' token = None.
Proof.
  destruct Haccepted as (now0 & p & Hacc).
  assert (exists updates, new_columns d updates /\ _update_record_columns st (c_name c) id updates = Ok st') as (updates & (Hnd & Hni & Hkey) & Hst).
  { destruct Hdone as [Hdone|Hdone].
    - destruct (reset_updates _ _ _ _ _ _ _ _ Hdone) as (p1 & id1 & h & Hp1 & Hid1 & _ & _ & _ & Hupd).
      assert (p1 = claims) as -> by congruence. assert (id1 = id) as -> by congruence. by eexists.
    - destruct (change_updates _ _ _ _ _ _ _ Hdone) as (p1 & id1 & r & email & Hp1 & Hid1 & _ & _ & _ & _ & _ & Hupd).
      assert (p1 = claims) as -> by congruence. assert (id1 = id) as -> by congruence. by eexists. }
  eapply rotation_revokes; [exact Hacc|exact Hsigner|exact Hk|exact Hnd|exact Hni|exact Hkey|exact Hnew| |exact Hst].
  destruct Hplain as [Hs Hkk]. split_and!; [done..|]. apply token_key_plain.
Qed.
(** ** From the mail to the session *)
Lemma check_purpose_signed st now c ty cfg r i e key claims iat exp :
  at_key claims "type" = PStr ty -> at_key claims "id" = PStr i -> i <> "" -> at_key claims "email" = PStr e ->
  MigrationText.writable (PDict claims) = true -> dict_get "iat" claims = Some (PInt iat) -> dict_get "exp" claims = Some (PInt exp) ->
  dict_get "nbf" claims = None -> dict_get "aud" claims = None -> (iat <= now < exp)%Z ->
  row_by_id st (c_name c) i = Ok (Some r) -> record_key r c cfg = Ok key -> column_or_none r "email" = Plain (PStr e) ->
  check_purpose_token st now c ty cfg (jwt_encode claims key) = Ok (Some (r, claims)).
Proof.
  intros Hty Hid Hi He Hw Hiat Hexp Hnbf Haud [Hn Hlt] Hrow Hkey Hemail. unfold check_purpose_token.
  rewrite encode_shows by done. rewrite Hty, Hid. cbn [py_eqb]. rewrite String.eqb_refl. cbn [negb truthy].
  apply String.eqb_neq in Hi. rewrite Hi. cbn -[row_by_id record_key verify_purpose_token]. rewrite Hrow. cbn -[record_key verify_purpose_token].
  rewrite Hkey. cbn -[verify_purpose_token]. unfold verify_purpose_token, verify_token. rewrite (decode_signed claims key iat exp now) by done.
  apply Z.ltb_lt in Hlt. rewrite Hlt. cbn [mbind option_bind]. rewrite Hty. cbn [py_eqb]. rewrite String.eqb_refl, Hemail, He.
  cbn [py_eqb]. by rewrite String.eqb_refl.
Qed.
(** A record that can sign in by its e-mail. *)
Record member (st : store) (c : Collection) (r : row) (id email : string) : Prop := {
  member_id : dict_get "id" r = Some (Plain (PStr id));
  member_email : dict_get "email" r = Some (Plain (PStr email));
  member_named : id <> "";
  member_by_email : _get_raw_record_by_field st c "email" email = Ok (Some r);
  member_by_id : row_by_id st (c_name c) id = Ok (Some r);
}.
Definition email_login (c : Collection) : Prop := _is_password_auth_enabled c = Ok true /\
  exists others, _get_identity_fields c = Ok (PList (PStr "email" :: others)).
Lemma email_login_finds st now c r identity password : email_login c ->
  _get_raw_record_by_field st c "email" identity = Ok (Some r) ->
  password_agrees password (column r "password_hash" (Plain (PStr ""))) = true ->
  auth_with_password st now c identity password None =
    (token ← issue_token now c r; record ← auth_record c r; Ok (Some (token, record))).
Proof.
  intros [Hon (others & Hfields)] Hr Hpw. unfold auth_with_password. rewrite Hon, Hfields.
  cbn -[auth_record issue_token _get_raw_record_by_field password_agrees is_identifier]. change (is_identifier "email") with true.
  cbn -[auth_record issue_token _get_raw_record_by_field password_agrees]. rewrite Hr. cbn -[auth_record issue_token password_agrees]. by rewrite Hpw.
Qed.
Lemma record_key_purpose r c cfg key : purpose_key r c cfg = Ok key -> record_key r c cfg = Ok key.1.
Proof.
  unfold purpose_key, record_key. intros Hk. bind_ok Hk as config Hc. rewrite Hc. cbn. bind_ok Hk as k Hkk. rewrite Hkk. by injection Hk as <-.
Qed.
Lemma column_some r key v d : dict_get key r = Some v -> column r key d = v.
Proof. unfold column. by intros ->. Qed.

(** C24: a forgotten password is recovered.  For a member of the collection, the
    request sends one mail, to the address; within the lifetime of its token any
    password of eight characters that can be hashed is accepted with it; and from
    then on the member signs in with the new password. *)
Theorem password_reset_recovers w now now' now'' d c r id email password h key life
  (Hmember : member (db w) c r id email) (Hlogin : email_login c)
  (Hkey : purpose_key r c "passwordResetToken" = Ok (key, PInt life))
  (Hpassword : (8 <= String.length password)%nat) (Hh : bcrypt_hashpw password (salt d) = Some h)
  (Htime : (seconds now <= seconds now' < seconds now + life)%Z) :
  exists token st',
    request_password_reset w now c email = Ok (send (PasswordResetMail email token) w) /\
    confirm_password_reset (db w) now' d c token password password = Ok (None, st') /\
    let r' := set_all [("password_hash", Plain (PStr h)); ("token_key", Plain (PStr (generate_token_key (keys d))))] r in
    auth_with_password st' now'' c email password None =
      (session ← issue_token now'' c r'; record ← auth_record c r'; Ok (Some (session, record))).
Proof.
  destruct Hmember as [Hid Hemail Hne Hby Hrow].
  set (claims := [("id", PStr id); ("collectionId", PStr (c_id c)); ("email", PStr email); ("type", PStr "passwordReset");
                  ("iat", PInt (seconds now)); ("exp", PInt (seconds now + life))]).
  set (updates := [("password_hash", Plain (PStr h)); ("token_key", Plain (PStr (generate_token_key (keys d))))]).
  assert (Hgood : check_purpose_token (db w) (seconds now') c "passwordReset" "passwordResetToken" (jwt_encode claims key) = Ok (Some (r, claims))).
  { eapply check_purpose_signed; try done. by apply record_key_purpose in Hkey. by apply column_some. }
  destruct (_update_record_columns (db w) (c_name c) id updates) as [st'|e] eqn:Hst.
  2:{ unfold _update_record_columns in Hst. unfold row_by_id in Hrow. by destruct (tables (db w) !! c_name c). }
  assert (Hup : new_columns d updates).
  { split; [change (NoDup ["password_hash"; "token_key"]); decided|]. split; [change ("id" ∉ ["password_hash"; "token_key"]); decided|done]. }
  destruct Hup as (Hnd & Hni & Htk). exists (jwt_encode claims key), st'. split_and!.
  - unfold request_password_reset. rewrite Hby. cbn -[purpose_key create_password_reset_token]. rewrite Hkey.
    cbn -[create_password_reset_token]. unfold required_id. by rewrite Hid.
  - unfold confirm_password_reset. rewrite String.eqb_refl. cbn [negb]. apply Nat.ltb_ge in Hpassword. rewrite Hpassword, Hgood.
    cbn -[hash_password _update_record_columns generate_token_key]. unfold hash_password. rewrite Hh. cbn -[_update_record_columns generate_token_key].
    change (at_key claims "id") with (PStr id). cbn -[_update_record_columns generate_token_key]. fold updates. by rewrite Hst.
  - apply email_login_finds; [done| |].
    + apply (by_field_update _ _ _ _ _ _ _ _ Hst Hnd); [change ("email" ∉ ["password_hash"; "token_key"]); decided|by eapply row_by_id_has|done].
    + unfold column. rewrite (set_columns_get updates Hnd). cbn. unfold verify_password. rewrite (checkpw_hashpw _ _ _ Hh). cbn.
      rewrite andb_true_r. by apply negb_true_iff, String.eqb_neq, (hashpw_text _ _ _ Hh).
Qed.

(** ** One-time passwords *)
Definition no_otp (otp_id : string) (st : store) : Prop := exists rows, otps st = Ok rows /\ existsb (has_id otp_id) rows = false.
Lemma existsb_filter_false {A} (p q : A -> bool) l : existsb p l = false -> existsb p (filter (fun x => q x = false) l) = false.
Proof.
  induction l as [|x l IH]; [done|]. intros [Hx Hl]%orb_false_iff. rewrite filter_cons. case_decide; [|by apply IH]. cbn. by rewrite Hx, IH.
Qed.
Lemma existsb_filter_self {A} (p : A -> bool) l : existsb p (filter (fun x => p x = false) l) = false.
Proof. induction l as [|x l IH]; [done|]. rewrite filter_cons. case_decide as Hx; [|done]. cbn. by rewrite Hx. Qed.
Lemma find_none_existsb {A} (p q : A -> bool) l : existsb p l = false -> List.find (fun x => p x && q x) l = None.
Proof. induction l as [|x l IH]; [done|]. intros [Hx Hl]%orb_false_iff. cbn. by rewrite Hx, IH. Qed.
Lemma find_last {A} (p : A -> bool) l x : List.find p l = None -> p x = true -> List.find p (l ++ [x]) = Some x.
Proof. induction l as [|y l IH]; cbn; [by intros _ ->|]. destruct (p y); [discriminate|]. apply IH. Qed.
Lemma otps_ok st rows : otps st = Ok rows <-> tables st !! "_otps" = Some rows.
Proof. unfold otps. destruct (tables st !! "_otps"); split; try discriminate; by intros [= ->]. Qed.
Lemma with_otps st f rows : otps st = Ok rows -> exists st', with_rows st "_otps" f = Ok st' /\ otps st' = Ok (f rows) /\
  collections st' = collections st /\ forall t, t <> "_otps" -> tables st' !! t = tables st !! t.
Proof.
  intros Hrows%otps_ok. unfold with_rows. rewrite Hrows. eexists. split_and!; [done| |done|].
  - apply otps_ok. cbn. by rewrite lookup_insert_eq.
  - intros t Hne. cbn. by rewrite lookup_insert_ne.
Qed.
Lemma with_otps_inv st f st' : with_rows st "_otps" f = Ok st' -> exists rows, otps st = Ok rows /\ otps st' = Ok (f rows) /\
  forall t, t <> "_otps" -> tables st' !! t = tables st !! t.
Proof.
  intros Hst. destruct (tables st !! "_otps") as [rows|] eqn:Hrows; [|unfold with_rows in Hst; by rewrite Hrows in Hst].
  apply otps_ok in Hrows. destruct (with_otps st f rows Hrows) as (st1 & Hst1 & Ho & _ & Ht). rewrite Hst in Hst1. injection Hst1 as <-. by exists rows.
Qed.
(** What a request for a one-time password does. *)
Inductive otp_requested (now : Z) (d : luck) (c : Collection) (email : string) (w w' : world) : Prop :=
| requested_none : db w' = db w -> outbox w' = outbox w -> otp_requested now d c email w w'
| requested_row r record_id duration length h rows :
    _get_raw_record_by_field (db w) c "email" (py_strip email) = Ok (Some r) -> record_id_of r = Ok record_id ->
    _otp_config c = Ok (duration, length) ->
    let code := _generate_otp_password (digits d) (Z.to_nat length) in
    bcrypt_hashpw code (salt d) = Some h -> otps (db w) = Ok rows ->
    existsb (rate_hit c record_id (py_strip email) now) rows = false ->
    let kept := filter (fun otp => stale c record_id now duration otp = false) rows in
    existsb (has_id (generate_id (ids d))) kept = false ->
    otps (db w') = Ok (kept ++ [otp_row c (generate_id (ids d)) record_id (py_strip email) h now]) ->
    (forall t, t <> "_otps" -> tables (db w') !! t = tables (db w) !! t) ->
    outbox w' = outbox w ++ [OtpMail (py_strip email) (generate_id (ids d)) code] ->
    otp_requested now d c email w w'.
Lemma request_otp_does w now d c email otp_id limited w' : request_otp w now d c email = Ok (otp_id, limited, w') ->
  otp_id = generate_id (ids d) /\ otp_requested now d c email w w'.
Proof.
  unfold request_otp. intros Hok. bind_ok Hok as r Hr. destruct r as [r|]; [|injection Hok as <- <- <-; split; [done|by left]].
  bind_ok Hok as config Hc. bind_ok Hok as record_id Hid. bind_ok Hok as rows Hrows. destruct config as [duration length]. cbn [fst snd] in Hok.
  destruct (existsb (rate_hit c record_id (py_strip email) now) rows) eqn:Hrate; [injection Hok as <- <- <-; split; [done|by left]|].
  bind_ok Hok as st1 Hst1. bind_ok Hok as h Hh. bind_ok Hok as st2 Hst2. injection Hok as <- <- <-. split; [done|].
  destruct (with_otps_inv _ _ _ Hst1) as (rows1 & Hr1 & Ho1 & Ht1). rewrite Hrows in Hr1. injection Hr1 as <-.
  unfold insert_otp in Hst2. bind_ok Hst2 as rows2 Hrows2. rewrite Ho1 in Hrows2. injection Hrows2 as <-.
  destruct (existsb (has_id _) _) eqn:Hnew; [discriminate|]. destruct (with_otps_inv _ _ _ Hst2) as (rows3 & Hr3 & Ho3 & Ht3).
  rewrite Ho1 in Hr3. injection Hr3 as <-. unfold hash_password in Hh. destruct (bcrypt_hashpw _ _) as [h'|] eqn:Hh'; [|discriminate]. injection Hh as ->.
  eapply requested_row; try done. intros t Hne. cbn [db send]. by rewrite Ht3, Ht1.
Qed.

(** a mailed code signs in.  When a request for a one-time password has sent
    one, the code of the mail gives the session of its record, for the whole
    duration of the collection's codes, and is then gone. *)
Theorem otp_signs_in w w' now now' d c email r id code config limited
  (Hreq : request_otp w now d c email = Ok (generate_id (ids d), limited, w'))
  (Hmail : outbox w' = outbox w ++ [OtpMail (py_strip email) (generate_id (ids d)) code])
  (Hmember : member (db w) c r id (py_strip email)) (Hc : c_name c <> "_otps")
  (Hconfig : _otp_config c = Ok config) (Htime : (now <= now' <= now + config.1 * 10 ^ 6)%Z) :
  exists st', auth_with_otp (db w') now' c (generate_id (ids d)) code = (make_session now' c r, st') /\ no_otp (generate_id (ids d)) st'.
Proof.
  destruct (request_otp_does _ _ _ _ _ _ _ _ Hreq) as [_ [_ Hout|r' rid duration length h rows Hr Hrid Hcfg code' Hh Hrows _ kept Hnew Ho Ht Hout]].
  { rewrite Hout in Hmail. apply (f_equal List.length) in Hmail. rewrite length_app in Hmail. cbn in Hmail. lia. }
  destruct Hmember as [Hid _ Hne Hby Hrow]. assert (r' = r) as -> by congruence.
  unfold record_id_of in Hrid. rewrite Hid in Hrid. injection Hrid as <-. rewrite Hout in Hmail. apply app_inv_head in Hmail. injection Hmail as <-.
  rewrite Hconfig in Hcfg. injection Hcfg as ->. cbn [fst] in Htime. set (otp_id := generate_id (ids d)) in *.
  set (otp := otp_row c otp_id id (py_strip email) h now).
  assert (Hotp : has_id otp_id otp && has_text "collectionRef" (c_id c) otp = true)
    by (apply andb_true_iff; split; apply String.eqb_refl).
  assert (Hfind : List.find (fun o => has_id otp_id o && has_text "collectionRef" (c_id c) o) (kept ++ [otp]) = Some otp)
    by (apply find_last; [by apply find_none_existsb|exact Hotp]).
  assert (Hcheck : check_otp c otp_id code' now' (db w') = Ok (Matched otp)).
  { assert (Hf : find_otp c otp_id (db w') = Ok (Some otp)).
    { unfold find_otp. rewrite Ho. exact (f_equal Ok Hfind). }
    unfold check_otp. rewrite Hconfig. cbn [mbind result_bind]. rewrite Hf. cbn [mbind result_bind fst].
    assert (too_old now' duration otp = false) as ->.
    { change (too_old now' duration otp) with (duration * 10 ^ 6 <? now' - (now - 0))%Z. apply Z.ltb_ge. lia. }
    change (column otp "password" (Plain (PStr ""))) with (Plain (PStr h)). unfold password_agrees, verify_password. rewrite (checkpw_hashpw _ _ _ Hh).
    assert (String.eqb h "" = false) as -> by (apply String.eqb_neq, (hashpw_text _ _ _ Hh)). done. }
  destruct (with_otps (db w') (filter (fun o => has_id otp_id o = false)) _ Ho) as (st' & Hdel & Ho' & _ & _).
  exists st'. split; [|eexists; split; [exact Ho'|apply existsb_filter_self]].
  assert (Hrow' : _get_raw_record_by_id (db w') c id = Ok (Some r)).
  { unfold _get_raw_record_by_id, row_by_id. rewrite Ht by done. exact Hrow. }
  unfold auth_with_otp. cbn [otp_run otp_step]. rewrite Hcheck. cbn [otp_run otp_step].
  change (column otp "recordRef" (Plain (PStr ""))) with (Plain (PStr id)). cbn [text_param mbind result_bind]. rewrite Hrow'.
  cbn [otp_run otp_step]. assert (delete_otp otp_id (db w') = Ok st') as -> by exact Hdel. done.
Qed.

(** The transactions of the service that come between two requests: those of
    requests for other one-time passwords, of sign-ins with any, and writes to
    other tables. *)
Inductive otp_between (otp_id : string) : store -> store -> Prop :=
| between_request w now d c email answer w' : request_otp w now d c email = Ok (answer, w') -> generate_id (ids d) <> otp_id ->
    otp_between otp_id (db w) (db w')
| between_step c id password now s s' st st' : otp_step c id password now s st = (s', st') -> otp_between otp_id st st'
| between_update st table id updates st' : table <> "_otps" -> _update_record_columns st table id updates = Ok st' -> otp_between otp_id st st'.
Lemma delete_otp_inv otp_id st st' : delete_otp otp_id st = Ok st' -> exists rows, otps st = Ok rows /\
  otps st' = Ok (filter (fun otp => has_id otp_id otp = false) rows).
Proof. intros Hd. destruct (with_otps_inv _ _ _ Hd) as (rows & Hr & Ho & _). by exists rows. Qed.
Lemma otp_step_store c id password now s s' st st' : otp_step c id password now s st = (s', st') -> st' = st \/ delete_otp id st = Ok st'.
Proof.
  destruct s; cbn [otp_step].
  - intros [= _ <-]. by left.
  - destruct (delete_otp id st) as [st1|] eqn:Hd; intros [= _ <-]; [by right|by left].
  - intros [= _ <-]. by left.
  - destruct (delete_otp id st) as [st1|] eqn:Hd; intros [= _ <-]; [by right|by left].
  - intros [= _ <-]. by left.
  - intros [= _ <-]. by left.
Qed.
Lemma between_no_otp otp_id st st' : otp_between otp_id st st' -> no_otp otp_id st -> no_otp otp_id st'.
Proof.
  intros [w now d c email answer w' Hreq Hne|c id password now s s' st0 st0' Hstep|st0 table id updates st0' Hne Hup] (rows & Hrows & Hno).
  - destruct answer as [id limited]. destruct (request_otp_does _ _ _ _ _ _ _ _ Hreq) as [_ [Hdb _|r rid duration length h rows' _ _ _ code _ Hr _ kept _ Ho _ _]].
    + rewrite Hdb. by exists rows.
    + eexists. split; [exact Ho|]. rewrite existsb_app. assert (rows' = rows) as -> by congruence.
      apply orb_false_iff. split; [by apply existsb_filter_false|]. apply orb_false_iff. split; [|done]. by apply String.eqb_neq.
  - destruct (otp_step_store _ _ _ _ _ _ _ _ Hstep) as [->|Hd]; [by exists rows|]. destruct (delete_otp_inv _ _ _ Hd) as (rows' & Hr & Ho).
    eexists. split; [exact Ho|]. assert (rows' = rows) as -> by congruence. by apply existsb_filter_false.
  - exists rows. split; [|done]. apply otps_ok in Hrows. apply otps_ok. unfold _update_record_columns in Hup.
    destruct (tables st0 !! table); [|discriminate]. injection Hup as <-. cbn. by rewrite lookup_insert_ne.
Qed.
Lemma no_otp_answers c otp_id password now st : no_otp otp_id st -> exists answer,
  check_otp c otp_id password now st = answer /\ match answer with Ok s => s = Answered (Ok None) | Err _ => True end.
Proof.
  intros (rows & Hrows & Hno). eexists. split; [done|]. unfold check_otp. destruct (_otp_config c) as [config|]; [|done].
  cbn [mbind result_bind]. assert (Hf : find_otp c otp_id st = Ok None); [|by rewrite Hf].
  unfold find_otp. rewrite Hrows. cbn [mbind result_bind]. f_equal. by apply find_none_existsb.
Qed.

(** C25: a one-time password that was deleted signs nobody in.  After the transaction that deletes it
    for a sign-in, whatever transactions of other requests follow in whatever
    order, no request that starts then and presents it is given a session (one that
    had checked it before may be, [otp_race]), whatever its
    collection and its code, and it leaves the store as it is. *)
Theorem otp_single_use c otp_id password now r st st1 st2 c' password' now'
  (Hdelete : otp_step c otp_id password now (Checked r) st = (Deleted r, st1))
  (Hlater : rtc (otp_between otp_id) st1 st2) :
  exists answer, auth_with_otp st2 now' c' otp_id password' = (answer, st2) /\ forall session, answer <> Ok (Some session).
Proof.
  cbn [otp_step] in Hdelete. destruct (delete_otp otp_id st) as [st'|] eqn:Hd; [|discriminate]. injection Hdelete as ->.
  destruct (delete_otp_inv _ _ _ Hd) as (rows & _ & Ho).
  assert (Hno : no_otp otp_id st1) by (eexists; split; [exact Ho|apply existsb_filter_self]). clear -Hno Hlater.
  induction Hlater as [st2|st1 st2 st3 Hstep _ IH]; [|apply IH; by eapply between_no_otp].
  destruct (no_otp_answers c' otp_id password' now' st2 Hno) as ([s|e] & Hcheck & Hs).
  - subst s. exists (Ok None). split; [|done]. unfold auth_with_otp. cbn [otp_run otp_step]. rewrite Hcheck. done.
  - exists (Err e). split; [|done]. unfold auth_with_otp. cbn [otp_run otp_step]. rewrite Hcheck. done.
Qed.
End Laws.

(** ** Examples *)
#[local] Existing Instances demo_record_lib.
Instance demo_bcrypt : Bcrypt := {
  bcrypt_hashpw password salt := Some (String "$" password);
  bcrypt_checkpw password h := Some (String.eqb (String "$" password) h);
}.
Instance demo_bcrypt_laws : BcryptLaws.
Proof.
  split; cbn.
  - intros password salt h [= <-]. f_equal. apply (String.eqb_refl (String "$" password)).
  - by intros password salt h [= <-].
Qed.
Definition member_options : pyval :=
  PDict [("authToken", PDict [("secret", PStr "s1"); ("duration", PInt 100)]);
         ("passwordResetToken", PDict [("secret", PStr "s3"); ("duration", PInt 50)]);
         ("emailChangeToken", PDict [("secret", PStr "s4"); ("duration", PInt 50)]);
         ("passwordAuth", PDict [("enabled", PBool true); ("identityFields", PList [PStr "email"])]);
         ("otp", PDict [("enabled", PBool true); ("duration", PInt 30); ("length", PInt 4)])].
Definition members : Collection :=
  RequestMacros.mkCollection "c1" "members" "auth" [[("name", PStr "note"); ("type", PStr "text"); ("hidden", PBool true)]] member_options.
Definition ann : row :=
  [("id", Plain (PStr "u1")); ("email", Plain (PStr "a@x.io")); ("verified", Plain (PBool false)); ("token_key", Plain (PStr "k1"));
   ("password_hash", Plain (PStr "$old-password")); ("note", Plain (PStr "private")); ("created", utc EPOCH_US); ("updated", utc EPOCH_US)].
Definition member_store : store := mkStore [members] {["members" := [ann]; "_otps" := []]}.
Definition member_world : world := mkWorld member_store [].
Definition demo_luck : luck := mkLuck (fun n => n) (fun n => n) (fun n => n) "".
Definition at_second (s : Z) : Z := (EPOCH_US + s * 10 ^ 6)%Z.
Definition mailed (w : result exn world) : string :=
  match w with Ok (mkWorld _ [PasswordResetMail _ token]) => token | _ => "" end.
Definition reset_token : string := mailed (request_password_reset member_world (at_second 5) members "a@x.io").
Definition reset_claims : dict :=
  [("id", PStr "u1"); ("collectionId", PStr "c1"); ("email", PStr "a@x.io"); ("type", PStr "passwordReset"); ("iat", PInt 5); ("exp", PInt 55)].
Definition old_session : string := match issue_token (at_second 4) members ann with Ok t => t | Err _ => "" end.
Definition reset_store : store :=
  match confirm_password_reset member_store (at_second 6) demo_luck members reset_token "new-password" "new-password" with
  | Ok (None, st) => st
  | _ => member_store
  end.
Lemma ann_member : member member_store members ann "u1" "a@x.io".
Proof. split; try done; vm_compute; reflexivity. Qed.
Lemma confirmation_revokes_witness :
  accepted (Auth "") member_store 7 old_session <> None /\ accepted (Auth "") reset_store 7 old_session = None.
Proof.
  split; [by vm_compute|].
  refine (confirmation_revokes (Auth "") member_store (at_second 6) 7 demo_luck members reset_token "new-password" "new-password" reset_claims "u1"
            old_session "s1" "k1" reset_store _ _ _ _ _ _ _ _).
  - left. vm_compute. reflexivity.
  - vm_compute. reflexivity.
  - vm_compute. reflexivity.
  - vm_compute. reflexivity.
  - vm_compute. reflexivity.
  - vm_compute. discriminate.
  - split; vm_compute; reflexivity.
  - exists 7%Z, (session_claims 4 100 "u1" "c1" true). vm_compute. reflexivity.
Defined.
Lemma password_reset_recovers_witness : exists token st',
  request_password_reset member_world (at_second 5) members "a@x.io" = Ok (send (PasswordResetMail "a@x.io" token) member_world) /\
  confirm_password_reset member_store (at_second 54) demo_luck members token "new-password" "new-password" = Ok (None, st') /\
  auth_with_password st' (at_second 60) members "a@x.io" "new-password" None <> Ok None.
Proof.
  destruct (password_reset_recovers member_world (at_second 5) (at_second 54) (at_second 60) demo_luck members ann "u1" "a@x.io" "new-password"
              "$new-password" "k1s3" 50 ann_member) as (token & st' & Hreq & Hconfirm & Hauth).
  - split; [vm_compute; reflexivity|]. exists []. vm_compute. reflexivity.
  - vm_compute. reflexivity.
  - cbn. lia.
  - reflexivity.
  - vm_compute. split; [discriminate|reflexivity].
  - exists token, st'. split; [exact Hreq|]. split; [exact Hconfirm|]. rewrite Hauth. by vm_compute.
Defined.
Definition otp_world : world := match request_otp member_world (at_second 5) demo_luck members " a@x.io" with Ok (_, _, w) => w | _ => member_world end.
Definition otp_store : store := db otp_world.
Lemma otp_signs_in_witness : exists st',
  auth_with_otp otp_store (at_second 35) members "onmlkjihgfedcba" "3210" = (make_session (at_second 35) members ann, st') /\
  no_otp "onmlkjihgfedcba" st'.
Proof.
  refine (otp_signs_in member_world otp_world (at_second 5) (at_second 35) demo_luck members " a@x.io" ann "u1" "3210" (30%Z, 4%Z) false
            _ _ _ _ _ _).
  - vm_compute. reflexivity.
  - vm_compute. reflexivity.
  - exact ann_member.
  - discriminate.
  - vm_compute. reflexivity.
  - vm_compute. split; discriminate.
Defined.
Definition used_store : store := match delete_otp "onmlkjihgfedcba" otp_store with Ok st => st | Err _ => otp_store end.
Lemma otp_single_use_witness :
  (exists s st, auth_with_otp otp_store (at_second 6) members "onmlkjihgfedcba" "3210" = (Ok (Some s), st)) /\
    exists answer, auth_with_otp used_store (at_second 7) members "onmlkjihgfedcba" "3210" = (answer, used_store) /\
    forall session, answer <> Ok (Some session).
Proof.
  split; [eexists _, _; vm_compute; reflexivity|].
  refine (otp_single_use members "onmlkjihgfedcba" "3210" (at_second 6) ann otp_store used_store used_store members "3210" (at_second 7) _ _).
  - vm_compute. reflexivity.
  - reflexivity.
Defined.
(** An e-mail change, with the password. *)
Definition change_world : result exn (option flow_error * world) := request_email_change member_world (at_second 5) members "u1" "new@x.io".
Definition change_token : string := match change_world with Ok (_, mkWorld _ [EmailChangeMail _ token]) => token | _ => "" end.
Definition changed (now : Z) (password : string) : result exn (option flow_error * store) :=
  confirm_email_change member_store (at_second now) demo_luck members change_token password.
Example email_changed : match changed 6 "old-password" with
  | Ok (None, st) => match row_by_id st "members" "u1" with
                     | Ok (Some r) => column_or_none r "email" = Plain (PStr "new@x.io") /\ column_or_none r "verified" = Plain (PBool true)
                     | _ => False
                     end
  | _ => False
  end.
Proof. vm_compute. by split. Qed.
Example email_kept :
  changed 6 "wrong" = Ok (Some ("password", "validation_invalid_credentials", "Invalid login credentials."), member_store) /\
  changed 60 "old-password" = Ok (Some invalid_token, member_store).
Proof. vm_compute. by split. Qed.
(** Two requests read one code before either deletes it: both are given a session. *)
Definition racing : otp_state * store := otp_run 2 members "onmlkjihgfedcba" "3210" (at_second 6) Asked otp_store.
Definition signed_in (s : otp_state) : bool := match s with Answered (Ok (Some _)) => true | _ => false end.
Example otp_race :
  let '(first, st) := otp_run 2 members "onmlkjihgfedcba" "3210" (at_second 6) (fst racing) (snd racing) in
  let '(second, _) := otp_run 2 members "onmlkjihgfedcba" "3210" (at_second 6) (fst racing) st in
  signed_in first && signed_in second = true.
Proof. by vm_compute. Qed.
(** A wrong code leaves the request as it is, for any number of further attempts. *)
Example otp_retried : auth_with_otp otp_store (at_second 6) members "onmlkjihgfedcba" "0000" = (Ok None, otp_store).
Proof. by vm_compute. Qed.
(** Only an address of a record is ever told to wait. *)
Definition told_to_wait (email : string) : bool :=
  match request_otp otp_world (at_second 6) demo_luck members email with Ok (_, limited, _) => limited | Err _ => false end.
Example otp_enumerates : told_to_wait "a@x.io" = true /\ told_to_wait "b@x.io" = false.
Proof. vm_compute. by split. Qed.
(** The record of a session has its hidden fields. *)
Example session_shows_hidden :
  match auth_record members ann with Ok record => dict_get "note" record | Err _ => None end = Some (Plain (PStr "private")).
Proof. by vm_compute. Qed.
