(* ===== verification/Expand.v ===== *)
(** * Expansion of relations (ppbase/services/expand_service.py)

    The [expand] parameter attaches to each record the records that its relation
    fields name, to any depth up to six.  The dictionaries of the records are
    shared: one related record is one object, in every record that names it, and
    an expansion changes it in place. *)
From Stdlib Require Import Ascii String.
From S2P Require Import Prelude PyText PyVal StorageSafety FieldTypes RecordResponse.
From S2P Require RequestMacros.
#[local] Open Scope string_scope.
#[local] Open Scope list_scope.

(** ** Paths *)
Definition MAX_EXPAND_DEPTH : nat := 6.
Definition _parse_expand_string (expand_str : string) : list (list string) :=
  if String.eqb (py_strip expand_str) "" then []
  else omap (fun part => let part := py_strip part in
                         if String.eqb part "" then None else Some (take MAX_EXPAND_DEPTH (split_on "." part)))
            (split_on "," expand_str).

(** ** Collections *)
Definition _find_collection_by_id (coll_id : pyval) (all_collections : list Collection) : option Collection :=
  List.find (fun c => match coll_id with PStr s => String.eqb (c_id c) s | _ => false end) all_collections.
Definition _get_relation_field (c : Collection) (field_name : string) : option dict :=
  List.find (fun f => text_is field_name (dict_get "name" f) && text_is "relation" (dict_get "type" f)) (schema c).
(** [opts.get(key, d)] of a definition's options. *)
Definition relation_option (rel_field : dict) (key : string) (d : pyval) : result field_exn pyval :=
  match default (PDict []) (dict_get "options" rel_field) with
  | PDict opts => Ok (default d (dict_get key opts))
  | _ => Err (PyException "AttributeError")
  end.
Definition hidden_names (target_schema : list dict) : list string :=
  omap (fun f => if truthy (default (PBool false) (dict_get "hidden" f)) || text_is "password" (dict_get "type" f)
                 then match default (PStr "") (dict_get "name" f) with PStr s => Some s | _ => None end else None) target_schema.

(** ** The heap of records *)
(** The records of a field of [record["expand"]], by reference: one, or a list.
    A field of a schema may be named [expand]; then the record comes with such
    an entry, whose values are JSON ([Raw]) until the expansion looks for
    records in them, and a list may hold other values than records. *)
Inductive item : Type := Ref (r : nat) | Lit (v : pyval).
Inductive slot : Type := One (r : nat) | Many (rs : list item) | Raw (v : pyval).
Definition ref_of (i : item) : option nat := match i with Ref r => Some r | Lit _ => None end.
Definition refs_of (s : slot) : list nat := match s with One r => [r] | Many rs => omap ref_of rs | Raw _ => [] end.
(** [record["expand"]]: a dictionary, or the value of a column of that name. *)
Inductive entry : Type := Entries (e : list (string * slot)) | Other (v : value).
(** A record's dictionary: its other columns, and its ["expand"] entry if it has one. *)
Record node : Type := mkNode { columns : row; expansion : option entry }.
Definition raw_entries (d : dict) : list (string * slot) := (fun kv => (kv.1, Raw kv.2)) <$> d.
Definition node_of (r : row) : node :=
  mkNode (dict_del "expand" r)
    match dict_get "expand" r with
    | None => None
    | Some (Plain (PDict d)) => Some (Entries (raw_entries d))
    | Some v => Some (Other v)
    end.
(** A JSON object as a record. *)
Definition plain (d : dict) : row := (fun kv => (kv.1, Plain kv.2)) <$> d.
Record expanding : Type := mkExpanding { heap : list node; queries : nat }.
(** The rows that the server gives to its n-th [SELECT ... WHERE "id" IN (...)],
    and [str] of a dictionary that holds something, among the records of a heap. *)
Class ExpandDb : Type := {
  select_in : nat -> string -> list string -> result field_exn (list row);
  entries_text : list node -> list (string * slot) -> string;
}.

Section Expand.
Context {lib : RecordLib} {edb : ExpandDb} (all_collections : list Collection) (request_context : option dict).
Definition X : Type -> Type := stm expanding field_exn.
Definition alloc (r : row) : X nat := fun s => (Ok (length (heap s)), mkExpanding (heap s ++ [node_of r]) (queries s)).
Definition read (r : nat) : X node :=
  fun s => (match heap s !! r with Some n => Ok n | None => Err (PyException "dangling reference") end, s).
Definition set_expansion (r : nat) (e : list (string * slot)) : X unit :=
  stm_modify (fun s => mkExpanding (alter (fun n => mkNode (columns n) (Some (Entries e))) r (heap s)) (queries s)).
(** [record.get(field_name)]; a dictionary with entries is truthy, no list, and has a text. *)
Definition entry_value (h : list node) (e : entry) : value :=
  match e with
  | Other v => v
  | Entries [] => Plain (PDict [])
  | Entries e => Plain (PStr (entries_text h e))
  end.
Definition value_of (h : list node) (n : node) (field_name : string) : option value :=
  if String.eqb field_name "expand" then entry_value h <$> expansion n else dict_get field_name (columns n).
(** The JSON objects under a field of [record["expand"]] are records too. *)
Fixpoint adopt (l : list pyval) : X (list item) :=
  match l with
  | [] => mret []
  | PDict d :: l => r ← alloc (plain d); rest ← adopt l; mret (Ref r :: rest)
  | v :: l => rest ← adopt l; mret (Lit v :: rest)
  end.
Definition touch (field_name : string) (record : nat) : X unit :=
  n ← read record;
  match expansion n with
  | Some (Entries e) =>
      match dict_get field_name e with
      | Some (Raw (PDict d)) => r ← alloc (plain d); set_expansion record (dict_set field_name (One r) e)
      | Some (Raw (PList l)) => rs ← adopt l; set_expansion record (dict_set field_name (Many rs) e)
      | _ => mret tt
      end
  | _ => mret tt
  end.
Definition row_key (r : row) : result field_exn string :=
  match dict_get "id" r with
  | None => Err (PyException "KeyError")
  | Some v => Ok (field_str v)
  end.
(** A dictionary from the id of each row to the row. *)
Definition _batch_fetch_records (c : Collection) (record_ids : list string) : X (list (string * row)) :=
  match record_ids with
  | [] => mret []
  | _ =>
      s ← stm_get;
      _ ← stm_put (mkExpanding (heap s) (S (queries s)));
      stm_lift (rows ← select_in (queries s) (c_name c) record_ids;
                fold_result (fun d r => k ← row_key r; Ok (dict_set k r d)) rows [])
  end.
(** [str(v) for v in value if v], of a list, or the value itself. *)
Definition related_ids (v : option value) : list string :=
  match v with
  | None | Some (Plain PNone) => []
  | Some (Plain (PList l)) => py_str <$> filter (fun x => truthy x = true) l
  | Some v => if value_truthy v then [field_str v] else []
  end.
(** The records of a list; [.get] of anything else raises. *)
Fixpoint records_of (rs : list item) : result field_exn (list nat) :=
  match rs with
  | [] => Ok []
  | Ref r :: rs => rest ← records_of rs; Ok (r :: rest)
  | Lit _ :: _ => Err (PyException "AttributeError")
  end.
Fixpoint read_all (rs : list nat) : X (list node) :=
  match rs with [] => mret [] | r :: rs => n ← read r; ns ← read_all rs; mret (n :: ns) end.
Definition auth_payload : option dict := match request_context with Some ctx => match dict_get "auth" ctx with Some (PDict a) => Some a | _ => None end | None => None end.
Definition apply_email_visibility : bool := match request_context with Some _ => true | None => false end.
(** The response of a related row, as it is built for whoever asks. *)
Definition related_response (target : Collection) (r : row) : result field_exn row :=
  build_record_response r (c_id target) (c_name target) (schema target) None (hidden_names (schema target))
    (String.eqb (_collection_type target) "auth") (String.eqb (_collection_type target) "view") auth_payload apply_email_visibility.
Fixpoint related_responses (target : Collection) (rows : list (string * row)) : X (list (string * nat)) :=
  match rows with
  | [] => mret []
  | (rid, r) :: rows =>
      response ← stm_lift (related_response target r);
      ref ← alloc response;
      rest ← related_responses target rows;
      mret ((rid, ref) :: rest)
  end.
(** [previous_by_id]: the records the field was expanded to before. *)
Fixpoint previous_by_id (rs : list nat) (acc : list (string * nat)) : X (list (string * nat)) :=
  match rs with
  | [] => mret acc
  | r :: rs => n ← read r; previous_by_id rs (dict_set (field_str (column_or_none (columns n) "id")) r acc)
  end.
(** [previous_by_id.get(k, related_responses[k])] if [k in related_responses]. *)
Definition pick (previous related : list (string * nat)) (k : string) : option nat :=
  r ← dict_get k related; Some (default r (dict_get k previous)).
Definition picked (is_multi : bool) (v : value) (previous related : list (string * nat)) : option slot :=
  match is_multi, v with
  | true, Plain (PList l) => match omap (fun x => pick previous related (py_str x)) l with [] => None | rs => Some (Many (Ref <$> rs)) end
  | true, _ => None
  | false, _ => One <$> pick previous related (if value_truthy v then field_str v else "")
  end.
Definition attach (field_name : string) (is_multi : bool) (related : list (string * nat)) (record : nat) : X unit :=
  n ← read record;
  _ ← match expansion n with None => set_expansion record [] | Some _ => mret tt end;
  n ← read record;
  s ← stm_get;
  match value_of (heap s) n field_name with
  | None => mret tt
  | Some v =>
      if is_none v then mret tt else
      _ ← touch field_name record;
      n ← read record;
      match expansion n with
      | Some (Entries e) =>
          previous ← previous_by_id (default [] (refs_of <$> dict_get field_name e)) [];
          match picked is_multi v previous related with
          | Some s => set_expansion record (dict_set field_name s e)
          | None => mret tt
          end
      | _ => stm_raise (PyException "AttributeError")
      end
  end.
(** [record.get("expand", {}).get(field_name)], as the records to go on with. *)
Definition nested_of (field_name : string) (n : node) : result field_exn (list item) :=
  match expansion n with
  | None => Ok []
  | Some (Entries e) =>
      Ok match dict_get field_name e with Some (One r) => [Ref r] | Some (Many rs) => rs | Some (Raw _) | None => [] end
  | Some (Other _) => Err (PyException "AttributeError")
  end.
Fixpoint _expand_path (c : Collection) (records : list item) (path : list string) (depth : nat) : X unit :=
  match path with
  | [] => mret tt
  | field_name :: remaining =>
      if (MAX_EXPAND_DEPTH <=? depth)%nat then mret tt else
      match _get_relation_field c field_name with
      | None => mret tt
      | Some rel_field =>
          target_coll_id ← stm_lift (relation_option rel_field "collectionId" (PStr ""));
          max_select ← stm_lift (relation_option rel_field "maxSelect" (PInt 1));
          is_multi ← stm_lift (int_lt 1 (py_or max_select (PInt 1)));
          match _find_collection_by_id target_coll_id all_collections with
          | None => mret tt
          | Some target =>
              records ← stm_lift (records_of records);
              nodes ← read_all records;
              s ← stm_get;
              match remove_dups (nodes ≫= fun n => related_ids (value_of (heap s) n field_name)) with
              | [] => mret tt
              | ids =>
                  rows ← _batch_fetch_records target (set_order ids);
                  related ← related_responses target rows;
                  _ ← stm_iter (attach field_name is_multi related) records;
                  match remaining with
                  | [] => mret tt
                  | _ =>
                      _ ← stm_iter (touch field_name) records;
                      nodes ← read_all records;
                      nested ← stm_lift (map_result (nested_of field_name) nodes);
                      match concat nested with
                      | [] => mret tt
                      | nested_records => _expand_path target nested_records remaining (S depth)
                      end
                  end
              end
          end
      end
  end.
Definition expand_records (c : Collection) (records : list item) (expand_str : string) : X unit :=
  if String.eqb expand_str "" || match records with [] => true | _ => false end then mret tt
  else stm_iter (fun path => _expand_path c records path 0) (_parse_expand_string expand_str).
End Expand.

(** ** What is attached *)
Section Laws.
Context {lib : RecordLib} {edb : ExpandDb} (all_collections : list Collection) (request_context : option dict).
Abbreviation expand_path := (_expand_path all_collections request_context).
Abbreviation response := (related_response request_context).
(** Later states: the records that were there keep their columns and origin. *)
Definition grows (s s' : expanding) : Prop := (queries s <= queries s')%nat /\
  forall i n, heap s !! i = Some n -> exists n', heap s' !! i = Some n' /\ columns n' = columns n.
#[local] Instance grows_preorder : PreOrder grows.
Proof.
  split; [split; [done|by eauto]|]. intros s1 s2 s3 [H1 H1'] [H2 H2']. split; [lia|].
  intros i n Hn. destruct (H1' i n Hn) as (n2 & Hn2 & Hc2). destruct (H2' i n2 Hn2) as (n3 & Hn3 & Hc3). exists n3. split; [done|congruence].
Qed.



Lemma refs_many rs : refs_of (Many (Ref <$> rs)) = rs.
Proof. cbn. induction rs as [|r rs IH]; [done|]. cbn. by rewrite IH. Qed.

(** The number of queries of a path is at most its length. *)
Lemma queries_bind {A B} (m : X A) (f : A -> X B) a b s : (queries (m s).2 <= queries s + a)%nat ->
  (forall x s', (queries (f x s').2 <= queries s' + b)%nat) -> (queries ((m ≫= f) s).2 <= queries s + a + b)%nat.
Proof. intros Hm Hf. unfold mbind, stm_bind. destruct (m s) as [[x|e] s']; cbn [snd] in *; [specialize (Hf x s')|]; lia. Qed.
Definition unasked {A} (m : X A) : Prop := forall s, queries (m s).2 = queries s.
Lemma unasked_bind {A B} (m : X A) (f : A -> X B) : unasked m -> (forall x, unasked (f x)) -> unasked (m ≫= f).
Proof. intros Hm Hf s. specialize (Hm s). unfold mbind, stm_bind. destruct (m s) as [[x|e] s']; cbn [snd] in *; [specialize (Hf x s')|]; lia. Qed.
Lemma unasked_iter {A} (f : A -> X unit) l : (forall x, unasked (f x)) -> unasked (stm_iter f l).
Proof. intros Hf. induction l as [|x l IH]; [done|]. by apply unasked_bind. Qed.
Lemma unasked_responses target rows : unasked (related_responses request_context target rows).
Proof. induction rows as [|[k r] rows IH]; [done|]. by repeat (apply unasked_bind; [done|intros ?]). Qed.
Lemma unasked_previous rs : forall acc, unasked (previous_by_id rs acc).
Proof. induction rs as [|r rs IH]; [done|]. intros acc. apply unasked_bind; [done|]. intros n. apply IH. Qed.
Lemma unasked_read_all rs : unasked (read_all rs).
Proof. induction rs as [|r rs IH]; [done|]. apply unasked_bind; [done|]. intros n. apply unasked_bind; [done|]. done. Qed.
Lemma unasked_adopt l : unasked (adopt l).
Proof. induction l as [|[] l IH]; [done|..]; repeat (apply unasked_bind; [done|intros ?]); done. Qed.
Lemma unasked_touch f r : unasked (touch f r).
Proof.
  apply unasked_bind; [done|]. intros n. destruct (expansion n) as [[e|]|]; [|done..]. destruct (dict_get f e) as [[| |[]]|]; try done.
  apply unasked_bind; [apply unasked_adopt|done].
Qed.
Lemma unasked_attach f is_multi related r : unasked (attach f is_multi related r).
Proof.
  apply unasked_bind; [done|]. intros n. apply unasked_bind; [by destruct (expansion n)|]. intros []. apply unasked_bind; [done|]. intros n1.
  apply unasked_bind; [done|]. intros s0. destruct (value_of (heap s0) n1 f) as [v|]; [|done]. destruct (is_none v); [done|]. apply unasked_bind; [apply unasked_touch|]. intros [].
  apply unasked_bind; [done|]. intros n2. destruct (expansion n2) as [[]|]; [|done..].
  apply unasked_bind; [apply unasked_previous|]. intros p. by destruct (picked _ _ _ _).
Qed.
Lemma path_queries path : forall c records depth s,
  (queries (expand_path c records path depth s).2 <= queries s + length path)%nat.
Proof.
  induction path as [|f path IH]; intros c records depth s; [cbn; lia|]. cbn [_expand_path length].
  destruct (_ <=? depth)%nat; [cbn; lia|]. destruct (_get_relation_field c f) as [rel|]; [|cbn; lia].
  assert (Hq : forall A B (m : X A) (g : A -> X B) n s0, unasked m -> (forall x s', queries (g x s').2 <= queries s' + n)%nat ->
    (queries ((m ≫= g) s0).2 <= queries s0 + n)%nat).
  { intros A B m g n s0 Hm Hg. etrans; [apply (queries_bind m g 0 n); [by rewrite Hm; lia|exact Hg]|lia]. }
  do 3 (apply Hq; [done|intros ? ?]). destruct (_find_collection_by_id _ _) as [target|]; [|cbn; lia].
  apply Hq; [done|]. intros refs s0. apply Hq; [apply unasked_read_all|]. intros nodes s1. apply Hq; [done|]. clear s1. intros s0' s1. destruct (remove_dups _) as [|id ids]; [cbn; lia|].
  replace (queries s1 + S (length path))%nat with (queries s1 + 1 + length path)%nat by lia. apply queries_bind.
  - unfold _batch_fetch_records, mbind, stm_bind, stm_get, stm_put, stm_lift. destruct (set_order _); cbn; lia.
  - intros rows s2. apply Hq; [apply unasked_responses|]. intros related s3. apply Hq; [apply unasked_iter; intros r; apply unasked_attach|].
    intros [] s4. destruct path as [|f' path]; [cbn; lia|]. apply Hq; [apply unasked_iter; intros r; apply unasked_touch|].
    intros [] s5. apply Hq; [apply unasked_read_all|]. intros ns s6. apply Hq; [done|]. intros rs s7.
    destruct (concat rs); [cbn; lia|]. apply IH.
Qed.

(** ** The whole expansion *)
Definition start (recs : list row) : expanding := mkExpanding (node_of <$> recs) 0.
Definition all_of (recs : list row) : list item := Ref <$> seq 0 (length recs).
Definition expanded (c : Collection) (recs : list row) (expand_str : string) : result field_exn unit * expanding :=
  expand_records all_collections request_context c (all_of recs) expand_str (start recs).


(** Six levels, six queries.  Expanding makes at most one query for each
    segment of each path, and at most six for each path of the parameter, whatever
    the number of records. *)
Theorem expansion_queries_bounded c recs expand_str :
  (queries (expanded c recs expand_str).2 <= MAX_EXPAND_DEPTH * length (_parse_expand_string expand_str))%nat.
Proof.
  unfold expanded, expand_records. destruct (_ || _); [cbn; lia|].
  assert (Hpaths : Forall (fun p => length p <= MAX_EXPAND_DEPTH)%nat (_parse_expand_string expand_str)).
  { unfold _parse_expand_string. destruct (String.eqb _ _); [constructor|]. apply Forall_forall. intros p (part & _ & Hp)%list_elem_of_omap.
    cbv zeta in Hp. destruct (String.eqb _ _); [discriminate|]. injection Hp as <-. rewrite length_take. lia. }
  change (queries (start recs)) with 0%nat. enough (Hgen : forall s, (queries (stm_iter (fun path => expand_path c (all_of recs) path 0)
    (_parse_expand_string expand_str) s).2 <= queries s + MAX_EXPAND_DEPTH * length (_parse_expand_string expand_str))%nat) by apply (Hgen (start recs)).
  induction Hpaths as [|p ps Hp Hps IH]; intros s; [cbn; lia|]. cbn [stm_iter length].
  etrans; [apply (queries_bind _ _ MAX_EXPAND_DEPTH (MAX_EXPAND_DEPTH * length ps))|lia].
  - etrans; [apply path_queries|lia].
  - intros [] s1. apply IH.
Qed.

(** ** What an expansion finds *)
Definition fresh_expansion (f : string) (is_multi : bool) (related : list (string * nat)) (r : row) : list (string * slot) :=
  match dict_get f r with
  | Some v => if is_none v then [] else match picked is_multi v [] related with Some sl => [(f, sl)] | None => [] end
  | None => []
  end.
Lemma node_fresh r : dict_get "expand" r = None -> node_of r = mkNode r None.
Proof.
  intros Hr. unfold node_of. rewrite Hr. f_equal. induction r as [|[k v] r IH]; [done|]. cbn in *. destruct (String.eqb k "expand"); [done|]. by rewrite IH.
Qed.
Lemma attach_fresh f is_multi related s i r : f <> "expand" -> heap s !! i = Some (mkNode r None) ->
  attach f is_multi related i s =
    (Ok tt, mkExpanding (<[i := mkNode r (Some (Entries (fresh_expansion f is_multi related r)))]> (heap s)) (queries s)).
Proof.
  intros Hf Hi. assert (Hread : forall e, read i (mkExpanding (<[i := mkNode r e]> (heap s)) (queries s)) =
      (Ok (mkNode r e), mkExpanding (<[i := mkNode r e]> (heap s)) (queries s))).
  { intros e. unfold read. cbn [heap]. by rewrite list_lookup_insert_eq by (by eapply lookup_lt_Some). }
  assert (Hset : forall e h, set_expansion i e (mkExpanding (<[i := mkNode r h]> (heap s)) (queries s)) =
      (Ok tt, mkExpanding (<[i := mkNode r (Some (Entries e))]> (heap s)) (queries s))).
  { intros e h. unfold set_expansion, stm_modify. cbn [heap queries]. do 2 f_equal. apply list_eq. intros j. destruct (decide (j = i)) as [->|Hne].
    - rewrite list_lookup_alter_eq, !list_lookup_insert_eq by (by eapply lookup_lt_Some). done.
    - by rewrite list_lookup_alter_ne, !list_lookup_insert_ne by done. }
  assert (Hs : s = mkExpanding (<[i := mkNode r None]> (heap s)) (queries s)) by (destruct s; cbn in *; by rewrite list_insert_id).
  assert (Hv : forall h e, value_of h (mkNode r e) f = dict_get f r) by (intros h e; unfold value_of; by destruct (String.eqb_spec f "expand")).
  rewrite Hs at 1. unfold attach, touch, stm_get, mbind, stm_bind. rewrite Hread. cbn [expansion]. rewrite Hset, Hread, Hv. unfold fresh_expansion.
  destruct (dict_get f r) as [v|]; [|done]. destruct (is_none v); [done|]. rewrite Hread. cbn [expansion dict_get]. cbn [mret stm_ret]. rewrite Hread.
  cbn [expansion dict_get fmap option_fmap option_map default previous_by_id mret stm_ret]. destruct (picked is_multi v [] related) as [sl|]; [apply Hset|done].
Qed.
Lemma iter_fresh f is_multi related l : f <> "expand" -> NoDup l -> forall s, (forall i, i ∈ l -> exists r, heap s !! i = Some (mkNode r None)) ->
  exists s', stm_iter (attach f is_multi related) l s = (Ok tt, s') /\ length (heap s') = length (heap s) /\
    forall i, heap s' !! i = if decide (i ∈ l) then (fun n => mkNode (columns n) (Some (Entries (fresh_expansion f is_multi related (columns n))))) <$> heap s !! i
                             else heap s !! i.
Proof.
  intros Hf. induction 1 as [|i l Hi Hnd IH]; intros s Hfresh; [exists s; by split_and!|]. destruct (Hfresh i) as [r Hr]; [left|].
  set (s1 := mkExpanding (<[i := mkNode r (Some (Entries (fresh_expansion f is_multi related r)))]> (heap s)) (queries s)).
  destruct (IH s1) as (s' & Hrun & Hlen & Hs').
  { intros j Hj. cbn [heap s1]. rewrite list_lookup_insert_ne by (by intros ->). apply Hfresh. by right. }
  exists s'. split_and!.
  - cbn [stm_iter]. unfold mbind, stm_bind. by rewrite (attach_fresh _ _ _ _ _ _ Hf Hr).
  - rewrite Hlen. cbn [heap s1]. by rewrite length_insert.
  - intros j. rewrite Hs'. cbn [heap s1]. destruct (decide (j = i)) as [->|Hne].
    + rewrite decide_False by done. rewrite list_lookup_insert_eq by (by eapply lookup_lt_Some). rewrite decide_True by left. by rewrite Hr.
    + rewrite list_lookup_insert_ne by done. destruct (decide (j ∈ l)) as [Hj|Hj].
      * by rewrite decide_True by (by right).
      * rewrite decide_False; [done|]. by intros [?|?]%elem_of_cons.
Qed.
Lemma records_all recs : records_of (all_of recs) = Ok (seq 0 (length recs)).
Proof. unfold all_of. generalize (seq 0 (length recs)). intros l. induction l as [|i l IH]; [done|]. cbn. by rewrite IH. Qed.
(** The columns that a key leads to. *)
Definition shown (s : expanding) (sl : slot) : list (option row) := (fun j => columns <$> heap s !! j) <$> refs_of sl.
(** The response of a row whose collection has no field named [expand]. *)
Definition unplanted (cols : list row) : Prop := Forall (fun c => dict_get "expand" c = None) cols.
Lemma responses_run target d s cols : unplanted cols -> map_result (fun kr => response target kr.2) d = Ok cols ->
  related_responses request_context target d s =
    (Ok (zip d.*1 (seq (length (heap s)) (length d))), mkExpanding (heap s ++ ((fun c => mkNode c None) <$> cols)) (queries s)).
Proof.
  revert s cols. induction d as [|[k r] d IH]; intros s cols Hun Hcols.
  { injection Hcols as <-. cbn. rewrite app_nil_r. by destruct s. }
  cbn in Hcols. destruct (response target r) as [c|] eqn:Hc; [|discriminate].
  destruct (map_result _ d) as [cs|] eqn:Hcs; [|discriminate]. injection Hcols as <-.
  apply Forall_cons in Hun as [Hun Huns]. cbn [related_responses]. unfold mbind, stm_bind, stm_lift. rewrite Hc. cbn [alloc].
  rewrite (node_fresh _ Hun), (IH _ cs Huns eq_refl). cbn [heap queries]. rewrite length_app, <- app_assoc. cbn. by rewrite Nat.add_1_r.
Qed.
Lemma related_shown target d cols (h0 : list node) k : map_result (fun kr => response target kr.2) d = Ok cols ->
  match dict_get k (zip d.*1 (seq (length h0) (length d))) with
  | Some j => exists r c, dict_get k d = Some r /\ response target r = Ok c /\ columns <$> (h0 ++ ((fun c => mkNode c None) <$> cols)) !! j = Some c
  | None => dict_get k d = None
  end.
Proof.
  revert h0 cols. induction d as [|[k' r] d IH]; intros h0 cols Hcols; [done|].
  cbn in Hcols. destruct (response target r) as [c|] eqn:Hc; [|discriminate].
  destruct (map_result _ d) as [cs|] eqn:Hcs; [|discriminate]. injection Hcols as <-. cbn [fmap list_fmap fst length seq zip dict_get].
  cbn [zip_with dict_get]. destruct (String.eqb k' k).
  - exists r, c. split_and!; [done..|]. by rewrite list_lookup_middle.
  - specialize (IH (h0 ++ [mkNode c None]) cs eq_refl). rewrite length_app, Nat.add_1_r, <- app_assoc in IH. exact IH.
Qed.
(** What a value names, when [find] gives the response of an id. *)
Definition named (is_multi : bool) (v : value) (find : string -> option row) : option (list row) :=
  match is_multi, v with
  | true, Plain (PList l) => match omap (fun x => find (py_str x)) l with [] => None | rs => Some rs end
  | true, _ => None
  | false, _ => (fun r => [r]) <$> find (if value_truthy v then field_str v else "")
  end.
Lemma picked_shown is_multi v related (g : nat -> option row) find : (forall k, match dict_get k related with
     | Some j => exists c, g j = Some c /\ find k = Some c
     | None => find k = None
     end) -> (fun sl => g <$> refs_of sl) <$> picked is_multi v [] related = fmap Some <$> named is_multi v find.
Proof.
  intros Hf. assert (Hpick : forall k, pick [] related k = dict_get k related) by (intros k; unfold pick; by destruct (dict_get k related)).
  unfold picked, named. destruct is_multi.
  - destruct v as [[| | | | |l|]|]; try done.
    assert (Homap : g <$> omap (fun x => pick [] related (py_str x)) l = Some <$> omap (fun x => find (py_str x)) l).
    { induction l as [|x l IH]; [done|]. cbn. rewrite Hpick. specialize (Hf (py_str x)). destruct (dict_get (py_str x) related) as [j|].
      - destruct Hf as (c & Hg & ->). cbn. by rewrite Hg, IH.
      - by rewrite Hf, IH. }
    destruct (omap (fun x => pick _ _ _) l) as [|j js], (omap (fun x => find _) l) as [|c cs]; try discriminate; [done|].
    cbn [fmap option_fmap option_map]. by rewrite refs_many, Homap.
  - assert (Hone : forall k, (fun sl => g <$> refs_of sl) <$> (One <$> pick [] related k) = fmap Some <$> ((fun r => [r]) <$> find k)).
    { intros k. rewrite Hpick. specialize (Hf k). destruct (dict_get k related) as [j|]; [destruct Hf as (c & Hg & ->)|by rewrite Hf]. cbn. by rewrite Hg. }
    destruct v; apply Hone.
Qed.

(** A relation is expanded to exactly what it names.  On records without an
    [expand] column, a path of one field makes one query for the ids that the records
    name, and gives each record the responses of the rows that the query found,
    in the order of its value; an id without a row is left out, and a record that
    names none gets an empty expansion.  (No field here is named [expand].) *)
Theorem relation_expanded c recs f rel coll_id max_select is_multi target id ids rows d cols
  (Hrel : _get_relation_field c f = Some rel) (Hid : relation_option rel "collectionId" (PStr "") = Ok coll_id)
  (Hmax : relation_option rel "maxSelect" (PInt 1) = Ok max_select) (Hmulti : int_lt 1 (py_or max_select (PInt 1)) = Ok is_multi)
  (Htarget : _find_collection_by_id coll_id all_collections = Some target)
  (Hids : set_order (remove_dups (recs ≫= fun r => related_ids (dict_get f r))) = id :: ids)
  (Hsome : remove_dups (recs ≫= fun r => related_ids (dict_get f r)) <> [])
  (Hrows : select_in 0 (c_name target) (id :: ids) = Ok rows)
  (Hd : fold_result (fun d r => k ← row_key r; Ok (dict_set k r d)) rows [] = Ok d)
  (Hcols : map_result (fun kr => response target kr.2) d = Ok cols)
  (Hf : f <> "expand") (Hrecs : unplanted recs) (Hun : unplanted cols) :
  exists s', expand_path c (all_of recs) [f] 0 (start recs) = (Ok tt, s') /\ queries s' = 1%nat /\
    forall i r, recs !! i = Some r -> exists e, heap s' !! i = Some (mkNode r (Some (Entries e))) /\
      shown s' <$> dict_get f e =
        v ← dict_get f r; if is_none v then None
        else fmap Some <$> named is_multi v (fun k => r ← dict_get k d; match response target r with Ok c => Some c | Err _ => None end).
Proof.
  set (s0 := start recs). set (h0 := (fun r => mkNode r None) <$> recs). assert (Hlen : length h0 = length recs) by (unfold h0; by rewrite length_fmap).
  assert (Hs0 : s0 = mkExpanding h0 0).
  { unfold s0, start, h0. f_equal. clear -Hrecs. induction Hrecs as [|r rs Hr _ IH]; [done|]. cbn. by rewrite (node_fresh _ Hr), IH. }
  assert (Hh0 : forall i r, recs !! i = Some r -> h0 !! i = Some (mkNode r None)) by (intros i r Hr; unfold h0; by rewrite list_lookup_fmap, Hr).
  assert (Hread : read_all (seq 0 (length recs)) (mkExpanding h0 0) = (Ok h0, mkExpanding h0 0)).
  { assert (Hgen : forall rs pre, h0 = pre ++ ((fun r => mkNode r None) <$> rs) -> read_all (seq (length pre) (length rs)) (mkExpanding h0 0) =
      (Ok ((fun r => mkNode r None) <$> rs), mkExpanding h0 0)); [|by apply (Hgen recs [])].
    induction rs as [|r rs IH]; intros pre Hpre; [done|]. cbn [length seq read_all]. unfold mbind, stm_bind, read. cbn [heap].
    assert (Hat : h0 !! length pre = Some (mkNode r None)) by (rewrite Hpre; by apply list_lookup_middle).
    rewrite Hat. specialize (IH (pre ++ [mkNode r None])). rewrite length_app, Nat.add_1_r, <- app_assoc in IH.
    rewrite (IH Hpre). done. }
  set (related := zip d.*1 (seq (length h0) (length d))). set (h1 := h0 ++ ((fun c => mkNode c None) <$> cols)).
  set (s1 := mkExpanding h1 1).
  destruct (iter_fresh f is_multi related (seq 0 (length recs)) Hf (NoDup_seq _ _) s1) as (s' & Hrun & _ & Hs').
  { intros i Hi%elem_of_seq. destruct (lookup_lt_is_Some_2 recs i) as [r Hr]; [lia|]. exists r. cbn [heap s1]. apply lookup_app_l_Some. by apply Hh0. }
  exists s'. split_and!.
  - cbn [_expand_path Nat.leb MAX_EXPAND_DEPTH]. rewrite Hrel. unfold mbind at 1, stm_bind at 1, stm_lift at 1. rewrite Hid.
    unfold mbind at 1, stm_bind at 1, stm_lift at 1. rewrite Hmax. unfold mbind at 1, stm_bind at 1, stm_lift at 1. rewrite Hmulti, Htarget, Hs0.
    unfold mbind at 1, stm_bind at 1, stm_lift at 1. rewrite records_all. unfold mbind at 1, stm_bind at 1. rewrite Hread.
    unfold mbind at 1, stm_bind at 1, stm_get. cbn [heap].
    assert (Hn : (h0 ≫= fun n => related_ids (value_of h0 n f)) = (recs ≫= fun r => related_ids (dict_get f r))).
    { enough (Hgen : forall h, (h0 ≫= fun n => related_ids (value_of h n f)) = (recs ≫= fun r => related_ids (dict_get f r))) by apply Hgen.
      intros h. unfold h0, value_of. clear -Hf. destruct (String.eqb_spec f "expand"); [done|]. induction recs as [|r rs IH]; [done|]. cbn. by f_equal. }
    rewrite Hn. destruct (remove_dups _) as [|i0 is0] eqn:Hrd; [done|]. rewrite Hids. unfold mbind at 1, stm_bind at 1.
    assert (Hfetch : _batch_fetch_records target (id :: ids) (mkExpanding h0 0) = (Ok d, mkExpanding h0 1)).
    { unfold _batch_fetch_records, stm_get, stm_put, stm_lift, mbind, stm_bind. cbn [queries heap]. rewrite Hrows.
      exact (f_equal (fun x => (x, mkExpanding h0 1)) Hd). }
    rewrite Hfetch. unfold mbind, stm_bind. rewrite (responses_run _ _ _ _ Hun Hcols). cbn [heap queries]. fold h0 related h1 s1. by rewrite Hrun.
  - assert (Hq : queries (stm_iter (attach f is_multi related) (seq 0 (length recs)) s1).2 = 1%nat) by (by rewrite unasked_iter by (intros; apply unasked_attach)).
    by rewrite Hrun in Hq.
  - intros i r Hr. assert (Hi : i ∈ seq 0 (length recs)) by (apply elem_of_seq; apply lookup_lt_Some in Hr; lia).
    assert (Hi1 : h1 !! i = Some (mkNode r None)) by (apply lookup_app_l_Some; by apply Hh0).
    exists (fresh_expansion f is_multi related r). split; [rewrite Hs', decide_True by done; change (heap s1) with h1; by rewrite Hi1|].
    assert (Hshown : forall sl, shown s' sl = (fun j => columns <$> h1 !! j) <$> refs_of sl).
    { intros sl. unfold shown. apply list_fmap_ext. intros _ j _. rewrite Hs'. change (heap s1) with h1. destruct (decide _); [|done]. by destruct (h1 !! j). }
    unfold fresh_expansion. destruct (dict_get f r) as [v|]; [|done]. cbn [mbind option_bind]. destruct (is_none v); [done|].
    rewrite <- (picked_shown is_multi v related (fun j => columns <$> h1 !! j)).
    + destruct (picked is_multi v [] related) as [sl|]; [|done]. cbn [dict_get]. rewrite String.eqb_refl. cbn. by rewrite Hshown.
    + intros k. pose proof (related_shown target d cols h0 k Hcols) as Hk. fold related h1 in Hk.
      destruct (dict_get k related) as [j|]; [|by rewrite Hk]. destruct Hk as (r' & c' & Hdk & Hc' & Hj). exists c'. split; [done|].
      rewrite Hdk. cbn. by rewrite Hc'.
Qed.
End Laws.

(** ** Examples *)
#[local] Existing Instance demo_record_lib.
Definition relation_to (name coll_id : string) (max_select : Z) : dict :=
  [("name", PStr name); ("type", PStr "relation"); ("options", PDict [("collectionId", PStr coll_id); ("maxSelect", PInt max_select)])].
Definition posts : Collection := RequestMacros.mkCollection "c_posts" "posts" "base" [relation_to "authors" "c_people" 5; relation_to "next" "c_posts" 1] PNone.
Definition people : Collection := RequestMacros.mkCollection "c_people" "people" "base"
  [[("name", PStr "nick"); ("type", PStr "text")]; [("name", PStr "salary"); ("type", PStr "text"); ("hidden", PBool true)]; relation_to "boss" "c_people" 1] PNone.
Definition person (id nick boss : string) : row :=
  [("id", Plain (PStr id)); ("nick", Plain (PStr nick)); ("salary", Plain (PStr "9")); ("boss", Plain (PStr boss))].
Definition demo_people : list row := [person "ann" "A" ""; person "bob" "B" "ann"].
Instance demo_expand_db : ExpandDb := {|
  select_in := fun _ table ids =>
    if String.eqb table "people" then Ok (filter (fun r => existsb (fun id => text_is id (match column_or_none r "id" with Plain v => Some v | _ => None end)) ids = true) demo_people)
    else Ok [];
  entries_text := fun _ _ => "{...}";
|}.
Definition post (id : string) (authors : list string) : row := [("id", Plain (PStr id)); ("authors", Plain (PList (PStr <$> authors)))].
Definition two_posts : list row := [post "p1" ["bob"; "gone"; "ann"]; post "p2" ["bob"]].
Definition expand_two (expand_str : string) : expanding := (expanded [posts; people] None posts two_posts expand_str).2.
(** The author of both posts is one object, without the hidden field. *)
Example authors_shared : (expansion <$> heap (expand_two "authors")) = [Some (Entries [("authors", Many [Ref 3; Ref 2])]); Some (Entries [("authors", Many [Ref 3])]); None; None] /\
  (fun n => ((columns n).*1, column_or_none (columns n) "nick")) <$> heap (expand_two "authors") !! 3%nat =
    Some (["id"; "collectionId"; "collectionName"; "created"; "updated"; "nick"; "boss"], Plain (PStr "B")).
Proof. by vm_compute. Qed.
(** A later path keeps the records of an earlier one, with their own expansions. *)
Example paths_merge : (expansion <$> heap (expand_two "authors.boss,authors") !! 3%nat) = Some (Some (Entries [("boss", One 4%nat)])) /\
  (expansion <$> heap (expand_two "authors,authors.boss") !! 3%nat) = Some (Some (Entries [("boss", One 6%nat)])).
Proof. by vm_compute. Qed.
(** A collection may have a JSON field named [expand].  Its object is taken for
    an earlier expansion: the record shown as the author [ann] is what the writer
    of the post wrote, and a value that is no object stops the request. *)
Definition forged (v : pyval) : row := ("expand", Plain v) :: post "p1" ["ann"].
Example planted_shown : let s := (expanded [posts; people] None posts [forged (PDict [("authors", PDict [("id", PStr "ann"); ("nick", PStr "forged")])])] "authors").2 in
  heap s !! 0%nat = Some (mkNode (post "p1" ["ann"]) (Some (Entries [("authors", Many [Ref 2])]))) /\
  columns <$> heap s !! 2%nat = Some [("id", Plain (PStr "ann")); ("nick", Plain (PStr "forged"))] /\
  (expanded [posts; people] None posts [forged (PStr "x")] "authors").1 = Err (PyException "AttributeError").
Proof. by vm_compute. Qed.
Lemma relation_expanded_witness : exists s', _expand_path [posts; people] None posts (all_of two_posts) ["authors"] 0 (start two_posts) = (Ok tt, s') /\ queries s' = 1%nat /\
  exists e, heap s' !! 0%nat = Some (mkNode (post "p1" ["bob"; "gone"; "ann"]) (Some (Entries e))) /\ length <$> (shown s' <$> dict_get "authors" e) = Some 2%nat.
Proof.
  destruct (relation_expanded [posts; people] None posts two_posts "authors" (relation_to "authors" "c_people" 5) (PStr "c_people") (PInt 5) true people
              "gone" ["ann"; "bob"] demo_people [("ann", person "ann" "A" ""); ("bob", person "bob" "B" "ann")]
              (omap (fun r => match related_response None people r with Ok c => Some c | Err _ => None end) demo_people)) as (s' & Hrun & Hq & Hs').
  1-10: vm_compute; solve [reflexivity | discriminate].
  1-3: vm_compute; solve [discriminate | repeat constructor].
  exists s'. split; [exact Hrun|]. split; [exact Hq|]. destruct (Hs' 0%nat _ eq_refl) as (e & He & Hshown). exists e. split; [exact He|]. rewrite Hshown. by vm_compute.
Defined.
