(* ===== verification/Realtime.v ===== *)
(** * Realtime (ppbase/services/realtime_service.py, ppbase/api/realtime.py)

    Topics, the sessions of the clients and their subscriptions, the request that
    subscribes, and the broadcast of a change to the sessions that may see it.
    The rules, the database and the expansion are asked through a class; each
    question has a number, so that the answers may change in time.  Hooks that
    other code binds to the realtime events are left out, and the steps of one
    broadcast are not interleaved with other requests.  Each message has a record of
    its own: the code copies the dictionary of the record, but not the object of
    a column named [expand], which an expansion for one subscriber changes for all;
    records with such an object are outside the model of the broadcast. *)
From Stdlib Require Import Ascii String.
From S2P Require Import Prelude PyText PyVal StorageSafety FieldTypes RecordResponse.
From S2P Require RequestMacros ClientFilterGuard Expand.
#[local] Open Scope string_scope.
#[local] Open Scope list_scope.

(** A collection with the rules that a subscription is checked against. *)
Record Ruled : Type := mkRuled { collection : Collection; list_rule : option string; view_rule : option string }.
Class RealtimeEnv : Type := {
  rt_lib :: RecordLib;
  known_collections : nat -> list Ruled;                                             (* the rows of [_collections] *)
  fetch_row : nat -> string -> string -> result field_exn (option row);              (* of a table, by id *)
  check_record_rule : nat -> Ruled -> string -> string -> dict -> option bool;       (* [RecordList.check_record_rule]; [None] raises *)
  expand_db : nat -> Expand.ExpandDb;                                                (* what the queries of an expansion find *)
}.

(** ** Topics *)
(** [urllib.parse]: an escape is an octet of UTF-8, and the characters up to
    U+00FF take one or two; what is left of other octets stands for a character
    that is not one of these. *)
Definition hex_octet (c : ascii) : option nat :=
  let n := nat_of_ascii c in
  (if (48 <=? n) && (n <=? 57) then Some (n - 48)
   else if (65 <=? n) && (n <=? 70) then Some (n - 55)
   else if (97 <=? n) && (n <=? 102) then Some (n - 87)
   else None)%nat.
Definition octet (a b : ascii) : option nat :=
  match hex_octet a, hex_octet b with Some x, Some y => Some (16 * x + y)%nat | _, _ => None end.
Definition continues (n : nat) : bool := ((128 <=? n) && (n <=? 191))%nat.
Fixpoint unquote (s : string) : string :=
  match s with
  | String "%" ((String a (String b s1)) as rest) =>
      match octet a b with
      | None => String "%" (unquote rest)
      | Some x =>
          match s1 with
          | String "%" (String a' (String b' s2)) =>
              match octet a' b' with
              | Some y => if ((x =? 194) || (x =? 195))%nat && continues y
                          then String (ascii_of_nat (64 * (x - 192) + (y - 128))%nat) (unquote s2)
                          else String (ascii_of_nat x) (unquote s1)
              | None => String (ascii_of_nat x) (unquote s1)
              end
          | _ => String (ascii_of_nat x) (unquote s1)
          end
      end
  | String c s => String c (unquote s)
  | EmptyString => EmptyString
  end.
Definition unquote_plus (s : string) : string := unquote (replace_char "+" " " s).
(** [parse_qs] with [keep_blank_values]. *)
Definition parse_qs (qs : string) : list (string * list string) :=
  fold_left (fun found name_value =>
      if String.eqb name_value "" then found else
      let '(name, value) := py_partition "=" name_value in
      let name := unquote_plus name in
      dict_set name (default [] (dict_get name found) ++ [unquote_plus value]) found)
    (split_on "&" qs) [].
Record ParsedRealtimeTopic : Type := mkTopic {
  raw_topic : string; pt_base_topic : string; collection_name : string; resource : string;
  pt_options_query : dict; pt_options_headers : dict;
}.
Definition value_error {A} (message : string) : result string A := Err message.
(** The [query] and the [headers] of the options, which may be missing or null. *)
Definition options_member (parsed : dict) (key message : string) : result string dict :=
  match default (PDict []) (dict_get key parsed) with
  | PDict d => Ok d
  | PNone => Ok []
  | _ => value_error message
  end.
Section Topics.
Context `{RealtimeEnv}.
Definition topic_options (query_string raw : string) : result string (dict * dict) :=
  if String.eqb query_string "" then Ok ([], []) else
  match dict_get "options" (parse_qs query_string) with
  | Some (raw_options :: _) =>
      if String.eqb raw_options "" then Ok ([], []) else
      match json_loads raw_options with
      | None => value_error ("Invalid topic options JSON: " +:+ raw)
      | Some (PDict parsed) =>
          query ← options_member parsed "query" ("Invalid topic options query: " +:+ raw);
          headers ← options_member parsed "headers" ("Invalid topic options headers: " +:+ raw);
          Ok (query, headers)
      | Some _ => value_error ("Invalid topic options object: " +:+ raw)
      end
  | _ => Ok ([], [])
  end.
Definition parse_realtime_topic (topic : string) : result string ParsedRealtimeTopic :=
  let raw := py_strip topic in
  if String.eqb raw "" then value_error "Empty topic." else
  let '(base_topic, query_string) := py_partition "?" raw in
  names ← (if negb (contains "/" base_topic) then
             if String.eqb base_topic "PB_CONNECT" || starts_with "@" base_topic then Ok ("", base_topic)
             else value_error ("Invalid topic format: " +:+ raw)
           else match split_on "/" base_topic with
                | [c; r] => if String.eqb c "" || String.eqb r "" then value_error ("Invalid topic format: " +:+ raw) else Ok (c, r)
                | _ => value_error ("Invalid topic format: " +:+ raw)
                end);
  options ← topic_options query_string raw;
  Ok (mkTopic raw base_topic names.1 names.2 options.1 options.2).
End Topics.
(** Each header under its name in lower case, and again with underscores. *)
Definition _normalize_request_headers (headers : dict) : dict :=
  fold_left (fun normalized kv => let key := py_lower kv.1 in
               dict_set (replace_char "-" "_" key) kv.2 (dict_set key kv.2 normalized)) headers [].

(** ** Sessions *)
Record RealtimeSubscription : Type := mkSubscription {
  topic : string; base_topic : string; auth_token : option string; auth_payload : option dict;
  options_query : dict; options_headers : dict;
}.
(** The record of a message: columns, and what an expansion attached, by
    reference into the records of the expansion. *)
Record shown_record : Type := mkShown { shown_columns : row; shown_expansion : option Expand.entry; shown_heap : list Expand.node }.
Record event_data : Type := mkEvent { action : string; record : shown_record }.
Record message : Type := mkMessage { m_topic : string; m_data : event_data }.
Record RealtimeSession : Type := mkSession {
  response_queue : list message; subscriptions : list RealtimeSubscription; auth_key : option string; auth_key_set : bool;
}.
(** [sessions] in the order of their registration, and the questions asked so far. *)
Record hub : Type := mkHub { sessions : list (string * RealtimeSession); asked : nat }.
Definition with_sessions (f : list (string * RealtimeSession) -> list (string * RealtimeSession)) (h : hub) : hub := mkHub (f (sessions h)) (asked h).
Definition update_session (client_id : string) (f : RealtimeSession -> RealtimeSession) (h : hub) : hub :=
  match dict_get client_id (sessions h) with
  | Some s => with_sessions (dict_set client_id (f s)) h
  | None => h
  end.
Definition with_subscriptions (l : list RealtimeSubscription) (s : RealtimeSession) : RealtimeSession :=
  mkSession (response_queue s) l (auth_key s) (auth_key_set s).
Definition new_session : RealtimeSession := mkSession [] [] None false.
Definition get_session (client_id : string) (h : hub) : option RealtimeSession := dict_get client_id (sessions h).
(** [client_id] is the drawn [secrets.token_urlsafe(32)]. *)
Definition register_client (client_id : string) : hub -> hub := with_sessions (dict_set client_id new_session).
Definition remove_subscription (client_id t : string) : hub -> hub :=
  update_session client_id (fun s => with_subscriptions (filter (fun sub => topic sub <> t) (subscriptions s)) s).
Definition clear_subscriptions (client_id : string) : hub -> hub := update_session client_id (with_subscriptions []).
Definition get_clients_for_topic (t : string) (h : hub) : list string :=
  (filter (fun cs => existsb (fun sub => String.eqb (topic sub) t) (subscriptions cs.2) = true) (sessions h)).*1.
Definition disconnect_client (client_id : string) : hub -> hub := with_sessions (dict_del client_id).
Definition replace_subscriptions (client_id : string) (l : list RealtimeSubscription) (h : hub) : result string hub :=
  match dict_get client_id (sessions h) with
  | None => value_error ("Client not found: " +:+ client_id)
  | Some _ => Ok (update_session client_id (with_subscriptions l) h)
  end.
Definition or_dict (a b : dict) : dict := match a with [] => b | _ => a end.
Fixpoint put_subscription (sub : RealtimeSubscription) (l : list RealtimeSubscription) : list RealtimeSubscription :=
  match l with
  | [] => [sub]
  | s :: l => if String.eqb (topic s) (topic sub) then sub :: l else s :: put_subscription sub l
  end.
Section Manager.
Context `{RealtimeEnv}.
Definition add_subscription (client_id t : string) (auth_token : option string) (auth_payload : option dict) (base : option string)
    (query headers : dict) (h : hub) : result string hub :=
  match dict_get client_id (sessions h) with
  | None => value_error ("Client not found: " +:+ client_id)
  | Some s =>
      parsed ← parse_realtime_topic t;
      let normalized_base_topic := match base with Some "" | None => pt_base_topic parsed | Some b => b end in
      Ok (update_session client_id (fun s => with_subscriptions
            (put_subscription (mkSubscription t normalized_base_topic auth_token auth_payload (or_dict query (pt_options_query parsed))
                                 (or_dict headers (pt_options_headers parsed))) (subscriptions s)) s) h)
  end.
End Manager.

(** ** Who is asking *)
Definition _build_rule_context (token_payload : option dict) : option dict * dict :=
  let info p := [("id", ClientFilterGuard.claim p "id"); ("email", ClientFilterGuard.claim p "email"); ("type", ClientFilterGuard.claim p "type");
                 ("collectionId", ClientFilterGuard.claim p "collectionId"); ("collectionName", ClientFilterGuard.claim p "collectionName")] in
  let '(auth_ctx, auth_info) :=
    match token_payload with
    | None => (None, [])
    | Some p =>
        if text_is "admin" (dict_get "type" p) then
          (Some [("is_admin", PBool true); ("@request.auth.id", ClientFilterGuard.claim p "id"); ("@request.auth.email", ClientFilterGuard.claim p "email")], info p)
        else
          (Some [("is_admin", PBool false); ("@request.auth.id", ClientFilterGuard.claim p "id"); ("@request.auth.collectionId", ClientFilterGuard.claim p "collectionId");
                 ("@request.auth.collectionName", ClientFilterGuard.claim p "collectionName"); ("@request.auth.type", ClientFilterGuard.claim p "type")], info p)
    end in
  (auth_ctx, [("context", PStr "realtime"); ("method", PStr "GET"); ("headers", PDict []); ("auth", PDict auth_info); ("data", PDict []); ("query", PDict [])]).
(** The request of a subscription, as its rules and its records see it. *)
Definition subscription_context (sub : RealtimeSubscription) : option dict * dict :=
  let '(auth_ctx, request_context) := _build_rule_context (auth_payload sub) in
  let request_context := match options_query sub with [] => request_context | q => dict_set "query" (PDict q) request_context end in
  let request_context := match options_headers sub with [] => request_context | h => dict_set "headers" (PDict (_normalize_request_headers h)) request_context end in
  (auth_ctx, request_context).
(** The rule of the subscription with the filter of its options. *)
Definition text_option (sub : RealtimeSubscription) (key : string) : string :=
  match dict_get key (options_query sub) with Some (PStr s) => py_strip s | _ => "" end.
Definition subscription_rule (c : Ruled) (sub : RealtimeSubscription) : ClientFilterGuard.access :=
  let rule := if ends_with "/*" (base_topic sub) then list_rule c else view_rule c in
  let rule_result := ClientFilterGuard.check_rule rule (fst (subscription_context sub)) in
  let filter_expr := text_option sub "filter" in
  if String.eqb filter_expr "" then rule_result else
  match rule_result with
  | ClientFilterGuard.Allowed => ClientFilterGuard.Filtered filter_expr
  | ClientFilterGuard.Filtered r => ClientFilterGuard.Filtered ("(" +:+ r +:+ ") && (" +:+ filter_expr +:+ ")")
  | ClientFilterGuard.Denied => ClientFilterGuard.Denied
  end.

(** ** Broadcast *)
Section Broadcast.
Context `{RealtimeEnv}.
Definition Hub : Type -> Type := stm hub field_exn.
(** The number of the next question. *)
Definition tick : Hub nat := fun h => (Ok (asked h), mkHub (sessions h) (S (asked h))).
Definition _is_subscription_allowed_for_event (c : Ruled) (sub : RealtimeSubscription) (record_id act : string) : Hub bool :=
  match subscription_rule c sub with
  | ClientFilterGuard.Denied => mret false
  | ClientFilterGuard.Allowed => mret true
  | ClientFilterGuard.Filtered rule =>
      if String.eqb act "delete" then mret false else
      n ← tick;
      mret (default false (check_record_rule n c record_id rule (snd (subscription_context sub))))
  end.
(** [_parse_fields] and [_apply_fields_filter] *)
Definition _parse_fields (fields_param : option string) : list string :=
  match fields_param with
  | None => []
  | Some s => filter (fun n => n <> "") (py_strip <$> split_on "," s)
  end.
Definition _apply_fields_filter (r : shown_record) (fields_param : option string) : shown_record :=
  let fields := _parse_fields fields_param in
  if match fields with [] => true | _ => in_list "*" fields end then r
  else mkShown (filter (fun kv => in_list kv.1 fields = true) (shown_columns r))
         (if in_list "expand" fields then shown_expansion r else None) (shown_heap r).
Definition plain_record (columns : row) : shown_record := mkShown columns None [].
(** [expand_records] of a copy of one record. *)
Definition expand_record (c : Ruled) (columns : row) (expand_str : string) (request_context : dict) : Hub (option shown_record) :=
  n ← tick;
  match @Expand.expand_records rt_lib (expand_db n) (collection <$> known_collections n) (Some request_context) (collection c) [Expand.Ref 0%nat] expand_str
          (Expand.start [columns]) with
  | (Ok tt, s) =>
      match Expand.heap s !! 0%nat with
      | Some node => mret (Some (mkShown (Expand.columns node) (Expand.expansion node) (Expand.heap s)))
      | None => mret None
      end
  | (Err _, _) => mret None
  end.
Definition get_record_now (c : Ruled) (record_id : string) (request_context : option dict) : Hub (option row) :=
  n ← tick;
  stm_lift (fetched ← fetch_row n (c_name (collection c)) record_id; get_record (collection c) fetched None request_context).
(** What the options of a subscription make of the record. *)
Definition shaped_event (c : Ruled) (act : string) (sub : RealtimeSubscription) (base : option row) : Hub (option event_data) :=
  match base with
  | None => mret None
  | Some columns =>
      let expand := text_option sub "expand" in
      expanded ← (if String.eqb expand "" then mret (Some (plain_record columns))
                  else expand_record c columns expand (snd (subscription_context sub)));
      match expanded with
      | None => mret None
      | Some r =>
          let fields := match dict_get "fields" (options_query sub) with Some (PStr s) => Some s | _ => None end in
          mret (Some (mkEvent act (_apply_fields_filter r fields)))
      end
  end.
Definition _build_subscription_event_data (c : Ruled) (record_id act : string) (base_record : option row) (sub : RealtimeSubscription)
  : Hub (option event_data) :=
  base ← match base_record with
         | Some r => mret (Some r)
         | None => get_record_now c record_id (Some (snd (subscription_context sub)))
         end;
  shaped_event c act sub base.
Definition record_or_id (record_id : string) (record_data : option row) : shown_record :=
  plain_record (match record_data with Some (kv :: r) => kv :: r | _ => [("id", Plain (PStr record_id))] end).
Definition topics_of (c_name record_id : string) : list string := [c_name +:+ "/*"; c_name +:+ "/" +:+ record_id].
(** [_send_realtime_message] *)
Definition send (client_id : string) (m : message) : Hub unit :=
  stm_modify (update_session client_id (fun s => mkSession (response_queue s ++ [m]) (subscriptions s) (auth_key s) (auth_key_set s))).
(** What one subscription gets of a change. *)
Definition event_for (c : Ruled) (name record_id act : string) (record_data : option row) (sub : RealtimeSubscription) : Hub (option message) :=
  if negb (in_list (base_topic sub) (topics_of name record_id)) then mret None else
  allowed ← _is_subscription_allowed_for_event c sub record_id act;
  if negb allowed then mret None else
  data ← (if negb (String.eqb act "delete") && match options_query sub with [] => false | _ => true end
          then _build_subscription_event_data c record_id act record_data sub
          else mret (Some (mkEvent act (record_or_id record_id record_data))));
  mret (mkMessage (topic sub) <$> data).
Definition deliver (c : Ruled) (name record_id act : string) (record_data : option row) (client_id : string) (sub : RealtimeSubscription) : Hub unit :=
  m ← event_for c name record_id act record_data sub;
  match m with Some m => send client_id m | None => mret tt end.
(** Over copies of the sessions and of their subscriptions. *)
Definition broadcast_record_change (c : Ruled) (name record_id act : string) (record_data : option row) : Hub unit :=
  h ← stm_get;
  stm_iter (fun cs => stm_iter (deliver c name record_id act record_data cs.1) (subscriptions cs.2)) (sessions h).
(** The stream of a client: the next message of its queue. *)
Definition next_message (client_id : string) (h : hub) : option (message * hub) :=
  match get_session client_id h with
  | Some s =>
      match response_queue s with
      | m :: rest => Some (m, update_session client_id (fun s => mkSession rest (subscriptions s) (auth_key s) (auth_key_set s)) h)
      | [] => None
      end
  | None => None
  end.
(** [on_notification]: what a notification of the database does, which never
    raises. *)
Definition resolve_collection (id_or_name : string) : Hub (option Ruled) :=
  n ← tick;
  mret (List.find (fun c => String.eqb (c_id (collection c)) id_or_name || String.eqb (c_name (collection c)) id_or_name) (known_collections n)).
Definition notified (payload : string) : Hub unit :=
  match json_loads payload with
  | Some (PDict event) =>
      match default PNone (dict_get "collection" event), default PNone (dict_get "record_id" event), default PNone (dict_get "action" event) with
      | PStr name, PStr record_id, PStr act =>
          if String.eqb name "" || String.eqb record_id "" || String.eqb act "" then mret tt else
          c ← resolve_collection name;
          match c with
          | None => mret tt
          | Some c =>
              h ← stm_get;
              let '(record_data, h') :=
                if String.eqb act "delete" then (None, h)
                else match get_record_now c record_id None h with
                     | (Ok r, h) => (r, h)
                     | (Err _, h) => (Some [("id", Plain (PStr record_id))], h)
                     end in
              _ ← stm_put h';
              broadcast_record_change c name record_id act record_data
          end
      | _, _, _ => mret tt          (* a value that is missing, or no text, which the query refuses *)
      end
  | _ => mret tt
  end.
Definition on_notification (payload : string) (h : hub) : hub := snd (notified payload h).
End Broadcast.

(** ** The request that subscribes (ppbase/api/realtime.py) *)
Section Subscribe.
Context `{RealtimeEnv}.
Definition _build_realtime_auth_key (auth : option dict) : option string :=
  match auth with
  | None | Some [] => None
  | Some a => Some (py_str (ClientFilterGuard.claim a "type") +:+ ":" +:+ py_str (ClientFilterGuard.claim a "collectionId") +:+ ":" +:+ py_str (ClientFilterGuard.claim a "id"))
  end.
Definition bearer (authorization : string) : option string :=
  if String.eqb authorization "" then None
  else Some (if starts_with "bearer " (py_lower authorization) then py_strip (str_drop 7 authorization) else authorization).
Fixpoint parse_subscriptions (token : option string) (auth : option dict) (subs : list string) (h : hub) : list RealtimeSubscription * hub :=
  match subs with
  | [] => ([], h)
  | sub :: subs =>
      let raw := py_strip sub in
      match (if String.eqb raw "" then value_error "" else parse_realtime_topic raw) with
      | Err _ => parse_subscriptions token auth subs h
      | Ok parsed =>
          let '(known, h) :=
            if String.eqb (collection_name parsed) "" then (true, h)
            else match resolve_collection (collection_name parsed) h with
                 | (Ok (Some _), h) => (true, h)
                 | (_, h) => (false, h)
                 end in
          let '(rest, h) := parse_subscriptions token auth subs h in
          (if known then mkSubscription (raw_topic parsed) (pt_base_topic parsed) token auth (pt_options_query parsed) (pt_options_headers parsed) :: rest
           else rest, h)
      end
  end.
(** The status of the answer; a body of another shape raises. *)
Definition realtime_subscribe (body : option pyval) (authorization : string) (auth : option dict) (h : hub) : result field_exn Z * hub :=
  match body with
  | None => (Ok 400%Z, h)
  | Some (PDict body) =>
      match default (PStr "") (dict_get "clientId" body) with
      | PStr client_id =>
          let client_id := py_strip client_id in
          if String.eqb client_id "" then (Ok 400%Z, h) else
          match get_session client_id h with
          | None => (Ok 404%Z, h)
          | Some s =>
              let current := _build_realtime_auth_key auth in
              if auth_key_set s && negb (bool_decide (auth_key s = current)) then (Ok 403%Z, h) else
              let h := if auth_key_set s then h
                       else update_session client_id (fun s => mkSession (response_queue s) (subscriptions s) current true) h in
              match default (PList []) (dict_get "subscriptions" body) with
              | PList l =>
                  let '(parsed, h) := parse_subscriptions (bearer authorization) auth (omap (fun v => match v with PStr s => Some s | _ => None end) l) h in
                  match replace_subscriptions client_id parsed h with
                  | Ok h => (Ok 204%Z, h)
                  | Err _ => (Err (PyException "ValueError"), h)
                  end
              | _ => (Err (PyException "TypeError"), h)     (* a text or a dictionary is iterated; not modelled *)
              end
          end
      | _ => (Err (PyException "AttributeError"), h)
      end
  | Some _ => (Err (PyException "AttributeError"), h)
  end.
End Subscribe.

(** * Proofs *)
Section Questions.
Context `{RealtimeEnv}.
(** Steps that only ask. *)
Definition settled (h h' : hub) : Prop := sessions h' = sessions h /\ (asked h <= asked h')%nat.
Lemma settled_trans h1 h2 h3 : settled h1 h2 -> settled h2 h3 -> settled h1 h3.
Proof. intros [E1 L1] [E2 L2]. split; [congruence|lia]. Qed.
Definition asks {A} (m : Hub A) : Prop := forall h, post m h (fun _ h' => settled h h') (fun _ h' => settled h h').
Lemma asks_ret {A} (x : A) : asks (mret x).
Proof. by intros h. Qed.
Lemma asks_lift {A} (r : result field_exn A) : asks (stm_lift r).
Proof. intros h. by destruct r. Qed.
Lemma asks_tick : asks tick.
Proof. intros h. split; cbn; [done|lia]. Qed.
Lemma asks_bind {A B} (m : Hub A) (f : A -> Hub B) : asks m -> (forall x, asks (f x)) -> asks (m ≫= f).
Proof.
  intros Hm Hf h. apply post_bind. eapply post_conseq; [apply Hm| |done].
  intros x h1 S1. eapply post_conseq; [apply Hf| |]; cbn; intros _ h2 S2; exact (settled_trans _ _ _ S1 S2).
Qed.
Lemma asks_run {A} (m : Hub A) h r h' : asks m -> m h = (r, h') -> settled h h'.
Proof. intros Hm E. pose proof (post_run _ _ _ _ _ _ (Hm h) E) as Hp. by destruct r. Qed.

Lemma asks_record c record_id ctx : asks (get_record_now c record_id ctx).
Proof. apply asks_bind; [apply asks_tick|]. intros n. apply asks_lift. Qed.
Lemma asks_expand c columns e ctx : asks (expand_record c columns e ctx).
Proof.
  apply asks_bind; [apply asks_tick|]. intros n. destruct (Expand.expand_records _ _ _ _ _ _) as [[[]|] s]; [|apply asks_ret].
  destruct (_ !! _); apply asks_ret.
Qed.
Lemma asks_resolve x : asks (resolve_collection x).
Proof. apply asks_bind; [apply asks_tick|]. intros n. apply asks_ret. Qed.
End Questions.

Section Delivery.
Context `{RealtimeEnv} (c : Ruled) (name record_id act : string) (record_data : option row).
(** What the rule of a subscription says of the change, asked between two moments. *)
Definition entitled (a b : nat) (sub : RealtimeSubscription) : Prop :=
  base_topic sub ∈ topics_of name record_id /\
  match subscription_rule c sub with
  | ClientFilterGuard.Denied => False
  | ClientFilterGuard.Allowed => True
  | ClientFilterGuard.Filtered rule =>
      act <> "delete" /\ exists n, (a <= n < b)%nat /\ check_record_rule n c record_id rule (snd (subscription_context sub)) = Some true
  end.
(** Entitled whenever it is asked, and no options to follow. *)
Definition assured (sub : RealtimeSubscription) : Prop :=
  base_topic sub ∈ topics_of name record_id /\ options_query sub = [] /\
  match subscription_rule c sub with
  | ClientFilterGuard.Denied => False
  | ClientFilterGuard.Allowed => True
  | ClientFilterGuard.Filtered rule => act <> "delete" /\ forall n, check_record_rule n c record_id rule (snd (subscription_context sub)) = Some true
  end.
Definition handled (a b : nat) (sub : RealtimeSubscription) (o : option message) : Prop :=
  match o with
  | Some m => entitled a b sub /\ m_topic m = topic sub /\ action (m_data m) = act /\
              (options_query sub = [] \/ act = "delete" -> record (m_data m) = record_or_id record_id record_data)
  | None => ~ assured sub
  end.
Lemma handled_weaken a b a' b' sub o : handled a b sub o -> (a' <= a)%nat -> (b <= b')%nat -> handled a' b' sub o.
Proof.
  intros Ho La Lb. destruct o as [m|]; [|done]. destruct Ho as [[Ht He] Hm]. split; [split; [done|]|done].
  destruct (subscription_rule c sub); try done. destruct He as (Hd & n & Hn & E). split; [done|]. exists n. split; [lia|done].
Qed.
Lemma in_topics (t : string) l : in_list t l = true <-> t ∈ l.
Proof.
  unfold in_list. rewrite existsb_exists. split.
  - intros (x & Hx & E). apply String.eqb_eq in E as ->. by apply list_elem_of_In.
  - intros Ht. exists t. by rewrite String.eqb_refl, <- list_elem_of_In.
Qed.

Lemma allowed_spec sub h : post (_is_subscription_allowed_for_event c sub record_id act) h
  (fun ok h' => sessions h' = sessions h /\ (asked h <= asked h')%nat /\
     (base_topic sub ∈ topics_of name record_id -> if ok then entitled (asked h) (asked h') sub else ~ assured sub))
  (fun _ _ => False).
Proof.
  unfold _is_subscription_allowed_for_event, post, entitled, assured.
  destruct (subscription_rule c sub) as [| |rule]; cbn; [split; [done|]; split; [lia|naive_solver]..|].
  destruct (String.eqb_spec act "delete") as [->|Ha]; cbn; [split; [done|]; split; [lia|naive_solver]|].
  unfold tick, mbind, stm_bind. cbn. split; [done|]. split; [lia|]. intros Ht.
  destruct (check_record_rule (asked h) c record_id rule _) as [[]|] eqn:E; cbn.
  - split; [done|]. split; [done|]. exists (asked h). split; [lia|done].
  - intros (_ & _ & _ & Hn). by rewrite Hn in E.
  - intros (_ & _ & _ & Hn). by rewrite Hn in E.
Qed.
Lemma post_asks {A B} (m : Hub A) (f : A -> Hub B) h Q X : asks m ->
  (forall x h', settled h h' -> post (f x) h' Q X) -> (forall e h', settled h h' -> X e h') -> post (m ≫= f) h Q X.
Proof. intros Hm Hf HX. apply post_bind. eapply post_conseq; [apply Hm|exact Hf|exact HX]. Qed.
Lemma post_asks_total {A B} (m : Hub A) (f : A -> Hub B) h Q X : asks m -> (forall h e, (m h).1 <> Err e) ->
  (forall x h', settled h h' -> post (f x) h' Q X) -> post (m ≫= f) h Q X.
Proof.
  intros Hm He Hf. apply post_bind. specialize (He h). specialize (Hm h). unfold post in *.
  destruct (m h) as [[x|e] h1]; [by apply Hf|]. by destruct (He e).
Qed.
Lemma expand_total columns e ctx h err : (expand_record c columns e ctx h).1 <> Err err.
Proof.
  unfold expand_record, tick, mbind, stm_bind. cbv beta iota.
  destruct (Expand.expand_records _ _ _ _ _ _) as [[[]|] s]; [destruct (_ !! _)|]; done.
Qed.
Lemma shaped_event_spec base sub h : post (shaped_event c act sub base) h
  (fun d h' => settled h h' /\ (forall x, d = Some x -> action x = act)) (fun _ _ => False).
Proof.
  destruct base as [columns|]; [|done]. apply post_asks_total.
  - destruct (String.eqb _ _); [apply asks_ret|apply asks_expand].
  - intros h2 e. destruct (String.eqb _ _); [done|apply expand_total].
  - intros [r|] h2 S2; (split; [done|]); [|done]. by intros x [= <-].
Qed.
(** With the record at hand nothing is raised. *)
Lemma event_data_spec base sub h : post (_build_subscription_event_data c record_id act base sub) h
  (fun d h' => settled h h' /\ (forall x, d = Some x -> action x = act)) (fun _ h' => settled h h' /\ base = None).
Proof.
  unfold _build_subscription_event_data.
  destruct base as [r|]; [eapply post_conseq; [apply (shaped_event_spec (Some r) sub h)|done|done]|].
  apply post_asks; [apply asks_record| |by split].
  intros o h1 S1. eapply post_conseq; [by apply shaped_event_spec| |done].
  intros d h2 [S2 Hd]. split; [exact (settled_trans _ _ _ S1 S2)|done].
Qed.
Lemma event_for_spec sub h : post (event_for c name record_id act record_data sub) h
  (fun o h' => settled h h' /\ handled (asked h) (asked h') sub o)
  (fun _ h' => settled h h' /\ record_data = None /\ act <> "delete").
Proof.
  unfold event_for. destruct (in_list (base_topic sub) _) eqn:Ht; cbn [negb].
  2: { cbn. split; [done|]. intros [Ht' _]. apply in_topics in Ht'. congruence. }
  apply in_topics in Ht. apply post_bind. eapply post_conseq; [apply allowed_spec| |done].
  intros ok h1 (E1 & L1 & Hok). specialize (Hok Ht). pose proof (conj E1 L1 : settled h h1) as S1.
  destruct ok; cbn [negb]; [|by split].
  destruct (negb (String.eqb act "delete") && _) eqn:Hopt.
  - apply post_bind. apply andb_true_iff in Hopt as [Hdel Hopt]. apply negb_true_iff, String.eqb_neq in Hdel.
    assert (Ho : options_query sub <> []) by (by intros E; rewrite E in Hopt).
    eapply post_conseq; [apply event_data_spec| |].
    + intros d h2 [S2 Hd]. split; [exact (settled_trans _ _ _ S1 S2)|]. cbn.
      destruct d as [d|]; cbn; [|by intros (_ & E & _)].
      split; [|split; [done|split; [by apply Hd|by intros [?|?]]]].
      destruct Hok as [_ Hok]. split; [done|]. destruct (subscription_rule c sub); try done.
      destruct Hok as (Ha & n & Hn & E). split; [done|]. exists n. destruct S2. split; [lia|done].
    + intros e h2 [S2 Hb]. split; [exact (settled_trans _ _ _ S1 S2)|done].
  - cbn. split; [done|]. split; [done|]. done.
Qed.

(** ** The queues *)
Definition pushed (l : list message) (s : RealtimeSession) : RealtimeSession :=
  mkSession (response_queue s ++ l) (subscriptions s) (auth_key s) (auth_key_set s).
Lemma get_update client f x (h : hub) :
  dict_get x (sessions (update_session client f h)) =
  if String.eqb client x then f <$> dict_get x (sessions h) else dict_get x (sessions h).
Proof.
  unfold update_session. destruct (dict_get client (sessions h)) as [s|] eqn:E; cbn.
  - destruct (String.eqb_spec client x) as [<-|Hn]; [by rewrite dict_get_set_eq, E|by apply dict_get_set_ne].
  - destruct (String.eqb_spec client x) as [<-|Hn]; [by rewrite E|done].
Qed.
Lemma asked_update client f (h : hub) : asked (update_session client f h) = asked h.
Proof. unfold update_session. by destruct (dict_get _ _). Qed.
Lemma pushed_app l l' s : pushed l' (pushed l s) = pushed (l ++ l') s.
Proof. unfold pushed. cbn. by rewrite app_assoc. Qed.
Lemma pushed_nil s : pushed [] s = s.
Proof. destruct s. unfold pushed. cbn. by rewrite app_nil_r. Qed.
Lemma pushed_none (o : option RealtimeSession) : pushed [] <$> o = o.
Proof. destruct o; cbn; [by rewrite pushed_nil|done]. Qed.
(** After the first [k] subscriptions of a client were looked at. *)
Definition served (a b : nat) (subs : list RealtimeSubscription) (whole : bool) (outs : list (option message)) : Prop :=
  exists k, Forall2 (handled a b) (take k subs) outs /\ (whole = true -> (length subs <= k)%nat).
Lemma served_weaken a b a' b' subs whole outs : served a b subs whole outs -> (a' <= a)%nat -> (b <= b')%nat -> served a' b' subs whole outs.
Proof.
  intros (k & Hk & Hw) La Lb. exists k. split; [|done]. eapply Forall2_impl; [exact Hk|]. intros sub o Ho. by eapply handled_weaken.
Qed.
Lemma deliver_one client sub h : exists o,
  let r := deliver c name record_id act record_data client sub h in
  (asked h <= asked r.2)%nat /\
  (forall x, dict_get x (sessions r.2) = if String.eqb client x then pushed (option_list o) <$> dict_get x (sessions h) else dict_get x (sessions h)) /\
  match r.1 with
  | Ok _ => handled (asked h) (asked r.2) sub o
  | Err _ => o = None /\ record_data = None /\ act <> "delete"
  end.
Proof.
  pose proof (event_for_spec sub h) as Hs. unfold deliver, post, mbind, stm_bind in *.
  destruct (event_for _ _ _ _ _ _ h) as [[o|e] h1]; destruct Hs as [[E L] Ho].
  - exists o. destruct o as [m|]; cbn -[update_session].
    + rewrite asked_update. split; [done|]. split; [|done]. intros x. by rewrite get_update, E.
    + split; [done|]. split; [|done]. intros x. rewrite pushed_none, E. by destruct (String.eqb _ _).
  - exists None. cbn. split; [done|]. split; [|done]. intros x. rewrite pushed_none, E. by destruct (String.eqb _ _).
Qed.
Lemma deliver_all client subs : forall h, exists outs,
  let r := stm_iter (deliver c name record_id act record_data client) subs h in
  (asked h <= asked r.2)%nat /\ (forall e, r.1 = Err e -> record_data = None /\ act <> "delete") /\
  served (asked h) (asked r.2) subs (is_ok r.1) outs /\
  forall x, dict_get x (sessions r.2) = if String.eqb client x then pushed (omap id outs) <$> dict_get x (sessions h) else dict_get x (sessions h).
Proof.
  induction subs as [|sub subs IH]; intros h; cbn zeta.
  { exists []. cbn. split; [done|]. split; [done|]. split; [by exists 0%nat|].
    intros x. rewrite pushed_none. by destruct (String.eqb _ _). }
  destruct (deliver_one client sub h) as (o & L & Hx & Ho). cbn [stm_iter]. unfold mbind, stm_bind.
  destruct (deliver _ _ _ _ _ _ sub h) as [[[]|e] h1]; cbn [fst snd] in *.
  - destruct (IH h1) as (outs & L' & He & Hs & Hx'). exists (o :: outs).
    split; [lia|]. split; [exact He|]. split.
    + destruct Hs as (k & Hk & Hw). exists (S k). split; [|cbn; intros Hok; specialize (Hw Hok); lia].
      constructor; [by eapply handled_weaken|]. eapply Forall2_impl; [exact Hk|]. intros ? ? ?. by eapply handled_weaken.
    + intros x. rewrite Hx', Hx. destruct (String.eqb client x); [|done].
      destruct (dict_get x (sessions h)); cbn; [|done]. rewrite pushed_app. by destruct o.
  - destruct Ho as (-> & Hd). exists []. split; [done|]. split; [by intros _ _|]. split; [by exists 0%nat|]. exact Hx.
Qed.
(** Over a snapshot in which every client is named once. *)
Lemma broadcast_all l : forall h, NoDup l.*1 ->
  let r := stm_iter (fun cs => stm_iter (deliver c name record_id act record_data cs.1) (subscriptions cs.2)) l h in
  (asked h <= asked r.2)%nat /\ (forall e, r.1 = Err e -> record_data = None /\ act <> "delete") /\
  (forall x, x ∉ l.*1 -> dict_get x (sessions r.2) = dict_get x (sessions h)) /\
  forall x s, (x, s) ∈ l -> exists outs, served (asked h) (asked r.2) (subscriptions s) (is_ok r.1) outs /\
    dict_get x (sessions r.2) = pushed (omap id outs) <$> dict_get x (sessions h).
Proof.
  induction l as [|[client s] l IH]; intros h Hnd; cbn zeta.
  { cbn. repeat split; try done. intros x s Hx. by apply not_elem_of_nil in Hx. }
  cbn [fmap list_fmap fst] in Hnd. apply NoDup_cons in Hnd as [Hnot Hnd].
  destruct (deliver_all client (subscriptions s) h) as (outs & L & He & Hs & Hx). cbn [stm_iter fst snd]. unfold mbind, stm_bind.
  destruct (stm_iter _ (subscriptions s) h) as [[[]|e] h1]; cbn [fst snd is_ok] in *.
  - destruct (IH h1 Hnd) as (L' & He' & Hout & Hin). split; [lia|]. split; [exact He'|]. split.
    + intros x Hn. apply not_elem_of_cons in Hn as [Hne Hn]. cbn in Hne. rewrite Hout, Hx; [|done]. by apply not_eq_sym, String.eqb_neq in Hne as ->.
    + intros x s' Hel. apply elem_of_cons in Hel as [[= -> ->]|Hel].
      * exists outs. split.
        -- destruct Hs as (k & Hk & Hw). exists k. split; [|by intros _; apply Hw].
           eapply Forall2_impl; [exact Hk|]. intros ? ? ?. by eapply handled_weaken.
        -- by rewrite Hout, Hx, String.eqb_refl.
      * destruct (Hin x s' Hel) as (outs' & Hs' & Hx'). exists outs'. split; [by eapply served_weaken|].
        rewrite Hx', Hx. destruct (String.eqb_spec client x) as [->|]; [|done].
        destruct Hnot. apply list_elem_of_fmap. by exists (x, s').
  - split; [done|]. split; [exact He|]. split.
    + intros x Hn. apply not_elem_of_cons in Hn as [Hne Hn]. cbn in Hne. rewrite Hx. by apply not_eq_sym, String.eqb_neq in Hne as ->.
    + intros x s' Hel. apply elem_of_cons in Hel as [[= -> ->]|Hel].
      * exists outs. split; [done|]. by rewrite Hx, String.eqb_refl.
      * exists []. split; [by exists 0%nat|]. rewrite Hx, pushed_none.
        destruct (String.eqb_spec client x) as [->|]; [|done].
        destruct Hnot. apply list_elem_of_fmap. by exists (x, s').
Qed.
End Delivery.

Section Theorems.
Context `{RealtimeEnv}.
Notation clients h := (sessions h).*1.
Lemma broadcast_spec c name record_id act record_data h r h' :
  NoDup (clients h) -> broadcast_record_change c name record_id act record_data h = (r, h') ->
  (act = "delete" \/ record_data <> None -> r = Ok tt) /\
  forall x, match dict_get x (sessions h) with
    | None => dict_get x (sessions h') = None
    | Some s => exists outs, dict_get x (sessions h') = Some (pushed (omap id outs) s) /\
        served c name record_id act record_data (asked h) (asked h') (subscriptions s) (is_ok r) outs
    end.
Proof.
  intros Hnd E. unfold broadcast_record_change, mbind, stm_bind, stm_get in E.
  destruct (broadcast_all c name record_id act record_data (sessions h) h Hnd) as (_ & He & Hout & Hin).
  rewrite E in *. cbn [fst snd] in *. split.
  - intros Hd. destruct r as [[]|e]; [done|]. destruct (He e eq_refl) as [-> Ha]. by destruct Hd.
  - intros x. destruct (dict_get x (sessions h)) as [s|] eqn:Ex.
    + destruct (Hin x s) as (outs & Hs & Hx); [by apply dict_get_elem|]. exists outs. split; [|done]. by rewrite Hx, Ex.
    + rewrite Hout; [done|]. by apply dict_get_none.
Qed.

(** ** What happens to the sessions *)
Inductive step : hub -> hub -> Prop :=
  | step_register client h : dict_get client (sessions h) = None -> step h (register_client client h)
  | step_subscribe body authorization auth h : step h (realtime_subscribe body authorization auth h).2
  | step_remove client t h : step h (remove_subscription client t h)
  | step_clear client h : step h (clear_subscriptions client h)
  | step_next client m h h' : next_message client h = Some (m, h') -> step h h'
  | step_notify payload h : step h (on_notification payload h)
  | step_disconnect client h : step h (disconnect_client client h).
Definition empty_hub (n : nat) : hub := mkHub [] n.
Definition reachable (h : hub) : Prop := exists n, rtc step (empty_hub n) h.

(** All the subscriptions of a session were made by one identity. *)
Definition own (s : RealtimeSession) : Prop :=
  (auth_key_set s = false -> subscriptions s = []) /\
  Forall (fun sub => _build_realtime_auth_key (auth_payload sub) = auth_key s) (subscriptions s).
Definition good (h : hub) : Prop := NoDup (clients h) /\ forall x s, dict_get x (sessions h) = Some s -> own s.
(** From one session to the next: no other identity. *)
Definition faithful (s s' : RealtimeSession) : Prop :=
  own s' /\ (auth_key_set s = true -> auth_key s' = auth_key s /\ auth_key_set s' = true).
Definition advances (h h' : hub) : Prop :=
  NoDup (clients h') /\
  forall x s', dict_get x (sessions h') = Some s' ->
    match dict_get x (sessions h) with Some s => faithful s s' | None => own s' end.
Lemma faithful_same s : own s -> faithful s s.
Proof. done. Qed.
Lemma advances_good h h' : advances h h' -> good h'.
Proof.
  intros [Hnd Ha]. split; [done|]. intros x s' Hx. specialize (Ha x s' Hx). destruct (dict_get x (sessions h)); [by destruct Ha|done].
Qed.
Lemma update_nodup client f h : NoDup (clients h) -> NoDup (clients (update_session client f h)).
Proof. unfold update_session. destruct (dict_get _ _); [cbn; apply dict_set_nodup|done]. Qed.
Lemma advances_update client f h : good h ->
  (forall s, dict_get client (sessions h) = Some s -> faithful s (f s)) -> advances h (update_session client f h).
Proof.
  intros [Hnd Hown] Hf. split; [by apply update_nodup|]. intros x s'. rewrite get_update.
  destruct (String.eqb_spec client x) as [<-|]; [|intros Hx; rewrite Hx; apply faithful_same; by eapply Hown].
  destruct (dict_get client (sessions h)) as [s|] eqn:E; [|done]. intros [= <-]. by apply Hf.
Qed.
Lemma advances_same h h' : good h -> (forall x, dict_get x (sessions h') = dict_get x (sessions h)) -> NoDup (clients h') -> advances h h'.
Proof. intros [_ Hown] Hx Hnd. split; [done|]. intros x s'. rewrite Hx. intros E. rewrite E. apply faithful_same. by eapply Hown. Qed.

(** A broadcast names every client once, if it was so. *)
Definition names_once {A} (m : Hub A) : Prop := forall h, NoDup (clients h) -> NoDup (clients (m h).2).
Lemma once_bind {A B} (m : Hub A) (f : A -> Hub B) : names_once m -> (forall x, names_once (f x)) -> names_once (m ≫= f).
Proof.
  intros Hm Hf h Hnd. specialize (Hm h Hnd). unfold mbind, stm_bind. destruct (m h) as [[x|e] h1]; [by apply Hf|done].
Qed.
Lemma once_iter {A} (f : A -> Hub unit) l : (forall x, names_once (f x)) -> names_once (stm_iter f l).
Proof. intros Hf. induction l as [|x l IH]; [by intros h Hnd|]. cbn. apply once_bind; [apply Hf|]. intros []. exact IH. Qed.
Lemma once_deliver c name record_id act record_data client sub : names_once (deliver c name record_id act record_data client sub).
Proof.
  apply once_bind.
  - intros h Hnd. pose proof (event_for_spec c name record_id act record_data sub h) as Hs. unfold post in Hs.
    destruct (event_for _ _ _ _ _ _ h) as [[o|e] h1]; destruct Hs as [[E _] _]; cbn; by rewrite E.
  - intros [m|]; intros h Hnd; [by apply update_nodup|done].
Qed.
Lemma advances_broadcast c name record_id act record_data h : good h ->
  advances h (broadcast_record_change c name record_id act record_data h).2.
Proof.
  intros [Hnd Hown]. destruct (broadcast_record_change _ _ _ _ _ h) as [r h'] eqn:E.
  destruct (broadcast_spec _ _ _ _ _ _ _ _ Hnd E) as [_ Hx]. split.
  - change h' with (r, h').2. rewrite <- E. unfold broadcast_record_change.
    apply once_iter; [|done]. intros cs. apply once_iter. intros sub. apply once_deliver.
  - intros x s' E'. specialize (Hx x). destruct (dict_get x (sessions h)) as [s|] eqn:Es.
    + destruct Hx as (outs & Hx & _). cbn in E'. rewrite Hx in E'. injection E' as <-. split; [exact (Hown x s Es)|done].
    + cbn in E'. congruence.
Qed.

Lemma parse_subscriptions_spec token auth subs : forall h, settled h (parse_subscriptions token auth subs h).2 /\
  Forall (fun sub => auth_payload sub = auth) (parse_subscriptions token auth subs h).1.
Proof.
  induction subs as [|t subs IH]; intros h; cbn [parse_subscriptions]; [by split|].
  destruct (if String.eqb (py_strip t) "" then _ else _) as [parsed|e]; [|apply IH].
  assert (Hk : exists known h1, settled h h1 /\
    (if String.eqb (collection_name parsed) "" then (true, h)
     else match resolve_collection (collection_name parsed) h with (Ok (Some _), h) => (true, h) | (_, h) => (false, h) end) = (known, h1)).
  { destruct (String.eqb _ _); [by exists true, h|].
    destruct (resolve_collection _ h) as [r h1] eqn:E. apply asks_run in E; [|apply asks_resolve].
    destruct r as [[|]|]; eauto. }
  destruct Hk as (known & h1 & S1 & ->). specialize (IH h1). destruct (parse_subscriptions token auth subs h1) as [rest h2].
  destruct IH as [S2 HF]. cbn in *. split; [exact (settled_trans _ _ _ S1 S2)|]. destruct known; [by constructor|done].
Qed.
(** What a request that subscribes leaves. *)
Lemma subscribe_spec body authorization auth h :
  let h' := (realtime_subscribe body authorization auth h).2 in
  (NoDup (clients h) -> NoDup (clients h')) /\
  ((forall x, dict_get x (sessions h') = dict_get x (sessions h)) \/
   exists client s subs, dict_get client (sessions h) = Some s /\
     (auth_key_set s = true -> auth_key s = _build_realtime_auth_key auth) /\
     (subs = subscriptions s /\ auth_key_set s = false \/ Forall (fun sub => auth_payload sub = auth) subs) /\
     forall x, dict_get x (sessions h') =
       if String.eqb client x then Some (mkSession (response_queue s) subs (_build_realtime_auth_key auth) true) else dict_get x (sessions h)).
Proof.
  cbn zeta. set (current := _build_realtime_auth_key auth).
  destruct body as [[| | | | | |d]|]; try (split; [done|by left]). unfold realtime_subscribe.
  destruct (default (PStr "") (dict_get "clientId" d)) as [| | | |id| |]; try (split; [done|by left]).
  destruct (String.eqb (py_strip id) "") eqn:Eid; [split; [done|by left]|].
  unfold get_session. destruct (dict_get (py_strip id) (sessions h)) as [s|] eqn:Es; [|split; [done|by left]].
  set (client := py_strip id) in *. fold current.
  destruct (auth_key_set s && negb (bool_decide (auth_key s = current))) eqn:Eauth; [split; [done|by left]|].
  assert (Hkey : auth_key_set s = true -> auth_key s = current).
  { intros E. rewrite E in Eauth. apply negb_false_iff, bool_decide_eq_true in Eauth. done. }
  set (h1 := if auth_key_set s then h else _).
  assert (H1 : (NoDup (clients h) -> NoDup (clients h1)) /\
    forall x, dict_get x (sessions h1) = if String.eqb client x then Some (mkSession (response_queue s) (subscriptions s) current true) else dict_get x (sessions h)).
  { subst h1. destruct (auth_key_set s) eqn:Eset.
    - split; [done|]. intros x. destruct (String.eqb_spec client x) as [<-|]; [|done]. rewrite Es. f_equal. rewrite <- Hkey by done.
      destruct s. cbn in *. by rewrite Eset.
    - split; [apply update_nodup|]. intros x. rewrite get_update. destruct (String.eqb_spec client x) as [<-|]; [by rewrite Es|done]. }
  destruct H1 as [Hnd1 Hx1].
  assert (Hstop : (NoDup (clients h) -> NoDup (clients h1)) /\
    ((forall x, dict_get x (sessions h1) = dict_get x (sessions h)) \/
     exists client s subs, dict_get client (sessions h) = Some s /\ (auth_key_set s = true -> auth_key s = current) /\
       (subs = subscriptions s /\ auth_key_set s = false \/ Forall (fun sub => auth_payload sub = auth) subs) /\
       forall x, dict_get x (sessions h1) = if String.eqb client x then Some (mkSession (response_queue s) subs current true) else dict_get x (sessions h))).
  { split; [done|]. destruct (auth_key_set s) eqn:Eset; [by left|right]. exists client, s, (subscriptions s). repeat split; try done; [congruence|by left]. }
  destruct (default (PList []) (dict_get "subscriptions" d)) as [| | | | |l|]; try exact Hstop. clear Hstop.
  set (texts := omap _ l). pose proof (parse_subscriptions_spec (bearer authorization) auth texts h1) as Hp.
  destruct (parse_subscriptions _ _ texts h1) as [parsed h2]. destruct Hp as [[E2 _] HF]. cbn in E2, HF.
  assert (Ec : dict_get client (sessions h2) = Some (mkSession (response_queue s) (subscriptions s) current true))
    by (by rewrite E2, Hx1, String.eqb_refl).
  unfold replace_subscriptions. rewrite Ec. cbn [snd]. split.
  { intros Hnd. apply update_nodup. rewrite E2. by apply Hnd1. }
  right. exists client, s, parsed. split; [done|]. split; [done|]. split; [by right|].
  intros x. rewrite get_update, E2, Hx1. by destruct (String.eqb client x).
Qed.
Lemma advances_subscribe body authorization auth h : good h -> advances h (realtime_subscribe body authorization auth h).2.
Proof.
  intros Hg. destruct (subscribe_spec body authorization auth h) as [Hnd [Hx|(client & s & subs & Es & Hkey & Hsubs & Hx)]].
  { apply advances_same; [done|done|]. apply Hnd, Hg. }
  split; [apply Hnd, Hg|]. intros x s'. rewrite Hx.
  destruct (String.eqb_spec client x) as [<-|]; [|intros E; rewrite E; split; [by eapply Hg|done]].
  intros [= <-]. rewrite Es. split; [|by intros Eset; cbn; rewrite Hkey].
  split; [done|]. cbn. destruct Hsubs as [[-> Eset]|HF].
  - destruct Hg as [_ Hown]. destruct (Hown _ _ Es) as [He _]. by rewrite He.
  - eapply Forall_impl; [exact HF|]. by intros sub ->.
Qed.
Lemma advances_notified payload h : good h -> advances h (on_notification payload h).
Proof.
  intros Hg. assert (Hrefl : forall h', sessions h' = sessions h -> advances h h').
  { intros h' E. apply advances_same; [done|by intros x; rewrite E|]. rewrite E. apply Hg. }
  unfold on_notification, notified. destruct (json_loads payload) as [[| | | | | |event]|]; try by apply Hrefl.
  destruct (default PNone (dict_get "collection" event)) as [| | | |name| |]; try by apply Hrefl.
  destruct (default PNone (dict_get "record_id" event)) as [| | | |rid| |]; try by apply Hrefl.
  destruct (default PNone (dict_get "action" event)) as [| | | |act| |]; try by apply Hrefl.
  destruct (_ || _); [by apply Hrefl|]. unfold mbind, stm_bind.
  destruct (resolve_collection name h) as [r h1] eqn:E1. apply asks_run in E1 as [E1 _]; [|apply asks_resolve].
  destruct r as [[c|]|]; try by apply Hrefl. unfold stm_get. cbv beta iota.
  assert (H2 : exists data h2, sessions h2 = sessions h /\
    (if String.eqb act "delete" then (None, h1)
     else match get_record_now c rid None h1 with (Ok r, h) => (r, h) | (Err _, h) => (Some [("id", Plain (PStr rid))], h) end) = (data, h2)).
  { destruct (String.eqb act "delete"); [by exists None, h1|].
    destruct (get_record_now c rid None h1) as [r h2] eqn:E2. apply asks_run in E2 as [E2 _]; [|apply asks_record].
    destruct r; eexists _, h2; (split; [congruence|done]). }
  destruct H2 as (data & h2 & E2 & ->). cbn [stm_put]. unfold stm_put. cbv beta iota.
  destruct (advances_broadcast c name rid act data h2) as [Hnd Ha]; [unfold good; by rewrite E2|].
  split; [done|]. by rewrite E2 in Ha.
Qed.
Lemma step_advances h h' : step h h' -> good h -> advances h h'.
Proof.
  intros Hstep Hg. pose proof Hg as [Hnd Hown]. destruct Hstep as [client h Hc|body au auth h|client t h|client h|client m h h' Hm|payload h|client h].
  - split; [by apply dict_set_nodup|]. intros x s'. cbn.
    destruct (String.eqb_spec x client) as [->|Hn]; [rewrite dict_get_set_eq, Hc; by intros [= <-]|].
    rewrite dict_get_set_ne by done. intros E. rewrite E. by split; [eapply Hown|].
  - by apply advances_subscribe.
  - apply advances_update; [done|]. intros s E. destruct (Hown _ _ E) as [He HF]. split; [|done]. split; cbn.
    + intros Eset. by rewrite He.
    + apply Forall_forall. intros sub Hin. apply list_elem_of_filter in Hin as [_ Hin]. by eapply (proj1 (Forall_forall _ _) HF).
  - apply advances_update; [done|]. intros s E. split; [|done]. by split; cbn.
  - unfold next_message, get_session in Hm. destruct (dict_get client (sessions h)) as [s|] eqn:Es; [|done].
    destruct (response_queue s) as [|m' rest]; [done|]. injection Hm as _ <-.
    apply advances_update; [done|]. intros s' E. split; [exact (Hown _ _ E)|done].
  - by apply advances_notified.
  - split; [by apply dict_del_nodup|]. intros x s'. cbn. intros E.
    destruct (String.eqb_spec x client) as [->|Hn]; [by rewrite dict_get_del_eq in E|].
    rewrite dict_get_del_ne in E by done. rewrite E. by split; [eapply Hown|].
Qed.
Lemma reachable_good h : reachable h -> good h.
Proof.
  intros [n Hr]. assert (Hg : good (empty_hub n)) by (split; [constructor|done]). revert Hg.
  induction Hr as [|h1 h2 h3 Hs _ IH]; [done|]. intros Hg. apply IH. eapply advances_good. by apply step_advances.
Qed.
(** ** Who may hear of a change *)
(** The rule of the topic: of the list for the whole collection, of the view for one record. *)
Inductive topic_rule (c : Ruled) (name record_id : string) (sub : RealtimeSubscription) : option string -> Prop :=
  | of_collection : base_topic sub = name +:+ "/*" -> topic_rule c name record_id sub (list_rule c)
  | of_record : base_topic sub = name +:+ "/" +:+ record_id -> topic_rule c name record_id sub (view_rule c).
Definition open_to (rule : option string) (sub : RealtimeSubscription) : Prop :=
  rule = Some "" \/ exists p, auth_payload sub = Some p /\ dict_get "type" p = Some (PStr "admin").
Definition filter_of (sub : RealtimeSubscription) : string :=
  match dict_get "filter" (options_query sub) with Some (PStr s) => py_strip s | _ => "" end.
(** What the database is asked of the record, if anything: what the rule says
    and what the filter says.  Of a locked rule nothing is asked: it admits nobody
    but a superuser. *)
Inductive test (rule : option string) (sub : RealtimeSubscription) : option string -> Prop :=
  | test_none : open_to rule sub -> filter_of sub = "" -> test rule sub None
  | test_filter : open_to rule sub -> filter_of sub <> "" -> test rule sub (Some (filter_of sub))
  | test_rule r : rule = Some r -> ~ open_to rule sub -> filter_of sub = "" -> test rule sub (Some r)
  | test_both r : rule = Some r -> ~ open_to rule sub -> filter_of sub <> "" ->
      test rule sub (Some ("(" +:+ r +:+ ") && (" +:+ filter_of sub +:+ ")")).
(** The request that the rule and the filter see. *)
Definition request_of (sub : RealtimeSubscription) : dict :=
  let info p := (fun key => (key, default (PStr "") (dict_get key p))) <$> ["id"; "email"; "type"; "collectionId"; "collectionName"] in
  [("context", PStr "realtime"); ("method", PStr "GET"); ("headers", PDict (_normalize_request_headers (options_headers sub)));
   ("auth", PDict (default [] (info <$> auth_payload sub))); ("data", PDict []); ("query", PDict (options_query sub))].
(** The subscription sees the change, if the answers to [q] are as [yes] says. *)
Definition sees (c : Ruled) (name record_id act : string) (yes : string -> Prop) (sub : RealtimeSubscription) : Prop :=
  exists rule q, topic_rule c name record_id sub rule /\ test rule sub q /\ match q with None => True | Some q => act <> "delete" /\ yes q end.
(** What a subscription is told between two moments.  (The object of a column
    named [expand] is shared by the messages, and an expansion for one changes it.) *)
Definition told (c : Ruled) (name record_id act : string) (record_data : option row) (a b : nat) (sub : RealtimeSubscription) (o : option message) : Prop :=
  let yes n q := check_record_rule n c record_id q (request_of sub) = Some true in
  match o with
  | Some m =>
      sees c name record_id act (fun q => exists n, (a <= n < b)%nat /\ yes n q) sub /\ m_topic m = topic sub /\ action (m_data m) = act /\
      (options_query sub = [] \/ act = "delete" -> (forall d, dict_get "expand" (default [] record_data) <> Some (Plain (PDict d))) ->
       shown_expansion (record (m_data m)) = None /\ shown_columns (record (m_data m)) =
         match record_data with Some (kv :: r) => kv :: r | _ => [("id", Plain (PStr record_id))] end)
  | None => ~ (options_query sub = [] /\ sees c name record_id act (fun q => forall n, yes n q) sub)
  end.
Lemma request_seen sub : snd (subscription_context sub) = request_of sub.
Proof.
  unfold subscription_context, _build_rule_context, request_of, ClientFilterGuard.claim. destruct (auth_payload sub) as [p|]; [destruct (text_is _ _)|];
    by destruct (options_query sub), (options_headers sub).
Qed.
Lemma drop_suffix n (s : string) : exists p, s = p +:+ str_drop n s.
Proof.
  revert s. induction n as [|n IH]; intros s; [by exists ""|]. destruct s as [|x s]; [by exists ""|].
  destruct (IH s) as [p Hp]. exists (String x p). cbn. by rewrite <- Hp.
Qed.
Lemma slash_split a id p : contains_char "/" id = false -> a +:+ "/" +:+ id = p +:+ "/*" -> id = "*".
Proof.
  intros Hid. revert p. induction a as [|x a IH]; intros [|y p] E; cbn in E.
  - by injection E.
  - injection E as _ ->. by rewrite contains_char_concat, orb_true_r in Hid.
  - injection E as _ E. destruct a as [|z a]; [done|]. injection E as _ E. by destruct a.
  - injection E as _ E. by eapply IH.
Qed.
Lemma record_topic name record_id : contains_char "/" record_id = false -> record_id <> "*" -> ends_with "/*" (name +:+ "/" +:+ record_id) = false.
Proof.
  intros Hid Hne. apply not_true_is_false. unfold ends_with. intros [_ E%String.eqb_eq]%andb_true_iff.
  destruct (drop_suffix (String.length (name +:+ "/" +:+ record_id) - String.length "/*") (name +:+ "/" +:+ record_id)) as [p Hp].
  rewrite E in Hp. by apply Hne, (slash_split name _ p).
Qed.
Lemma collection_topic name : ends_with "/*" (name +:+ "/*") = true.
Proof.
  unfold ends_with. assert (Hl : forall t, (String.length t <= String.length (name +:+ t))%nat /\ str_drop (String.length (name +:+ t) - String.length t) (name +:+ t) = t).
  { intros t. induction name as [|x n [IH1 IH2]]; cbn [String.append String.length].
    - split; [lia|]. by rewrite Nat.sub_diag.
    - split; [lia|]. rewrite Nat.sub_succ_l by done. exact IH2. }
  destruct (Hl "/*") as [Hle ->]. by apply andb_true_iff; split; [apply Nat.leb_le|].
Qed.
Lemma topic_rule_spec c name record_id sub rule : contains_char "/" record_id = false -> record_id <> "*" ->
  topic_rule c name record_id sub rule <->
  base_topic sub ∈ topics_of name record_id /\ rule = if ends_with "/*" (base_topic sub) then list_rule c else view_rule c.
Proof.
  intros Hid Hne. unfold topics_of. split.
  - intros [->| ->]; [rewrite collection_topic|rewrite record_topic by done]; (split; [|done]); [left|right; left].
  - intros [Ht ->]. apply elem_of_cons in Ht as [Ht|Ht%list_elem_of_singleton]; rewrite Ht.
    + rewrite collection_topic. by constructor.
    + rewrite record_topic by done. by constructor.
Qed.
Lemma superuser_asks sub : ClientFilterGuard.is_admin (fst (subscription_context sub)) = true <->
  exists p, auth_payload sub = Some p /\ dict_get "type" p = Some (PStr "admin").
Proof.
  unfold subscription_context, _build_rule_context. destruct (auth_payload sub) as [p|]; [|by split; [|intros (p & [=] & _)]].
  assert (Hq : text_is "admin" (dict_get "type" p) = true <-> dict_get "type" p = Some (PStr "admin")).
  { unfold text_is. destruct (dict_get "type" p) as [[| | | |t| |]|]; try done. rewrite String.eqb_eq. split; [by intros ->|by intros [= ->]]. }
  destruct (text_is _ _); cbn; (split; [intros H1|intros (p' & [= <-] & Hp)]); try done; [exists p; by rewrite <- Hq|by apply Hq in Hp].
Qed.
Lemma rule_access rule sub : match ClientFilterGuard.check_rule rule (fst (subscription_context sub)) with
  | ClientFilterGuard.Allowed => open_to rule sub
  | ClientFilterGuard.Filtered r => rule = Some r /\ ~ open_to rule sub
  | ClientFilterGuard.Denied => rule = None /\ ~ open_to rule sub
  end.
Proof.
  pose proof (superuser_asks sub) as Ha. unfold ClientFilterGuard.check_rule, open_to. destruct rule as [r|].
  - destruct (String.eqb_spec r "") as [->|Hr]; [by left|]. destruct (ClientFilterGuard.is_admin _).
    + right. by apply Ha.
    + split; [done|]. intros [[= ->]|Hs]; [done|]. by apply Ha in Hs.
  - destruct (ClientFilterGuard.is_admin _); [right; by apply Ha|]. split; [done|]. intros [[=]|Hs]. by apply Ha in Hs.
Qed.
(** The access of the model is the test. *)
Lemma test_access c name record_id sub : contains_char "/" record_id = false -> record_id <> "*" ->
  forall q, (exists rule, topic_rule c name record_id sub rule /\ test rule sub q) <->
    base_topic sub ∈ topics_of name record_id /\
    match subscription_rule c sub with
    | ClientFilterGuard.Denied => False
    | ClientFilterGuard.Allowed => q = None
    | ClientFilterGuard.Filtered t => q = Some t
    end.
Proof.
  intros Hid Hne q. unfold subscription_rule. set (rule := if ends_with _ _ then _ else _). pose proof (rule_access rule sub) as Hr.
  change (text_option sub "filter") with (filter_of sub).
  assert (Heq : (exists rule, topic_rule c name record_id sub rule /\ test rule sub q) <-> base_topic sub ∈ topics_of name record_id /\ test rule sub q).
  { split; [intros (ru & [Ht ->]%topic_rule_spec & Hq); done|]. intros [Ht Hq]. exists rule. split; [by apply topic_rule_spec|done]. }
  rewrite Heq. apply and_iff_compat_l. clearbody rule. clear Heq.
  destruct (String.eqb_spec (filter_of sub) "") as [Hf|Hf]; destruct (ClientFilterGuard.check_rule _ _) as [| |r].
  all: split; [intros Hq; destruct Hq; naive_solver|intros Hq; try subst q]; try done; destruct_and?.
  all: solve [by apply test_none | by apply test_filter | by apply test_rule | by apply test_both].
Qed.
Lemma handled_told c name record_id act record_data a b sub o : contains_char "/" record_id = false -> record_id <> "*" ->
  handled c name record_id act record_data a b sub o -> told c name record_id act record_data a b sub o.
Proof.
  intros Hid Hne. pose proof (test_access c name record_id sub Hid Hne) as Hq. unfold handled, told, entitled, assured, sees.
  destruct o as [m|].
  - intros ([Ht Hr] & Htop & Hact & Hrec). split; [|split_and!; [done|done|]].
    + assert (exists q, match subscription_rule c sub with ClientFilterGuard.Denied => False | ClientFilterGuard.Allowed => q = None | ClientFilterGuard.Filtered t => q = Some t end
        /\ match q with None => True | Some q => act <> "delete" /\ exists n, (a <= n < b)%nat /\ check_record_rule n c record_id q (request_of sub) = Some true end) as (q & Hq1 & Hq2).
      { rewrite <- request_seen. destruct (subscription_rule c sub) as [| |t]; [by exists None|done|by exists (Some t)]. }
      destruct (proj2 (Hq q)) as (rule & Hrule & Htest); [done|]. by exists rule, q.
    + intros Ho _. rewrite (Hrec Ho). by split.
  - intros Hn [Hopt (rule & q & Hrule & Htest & Hyes)]. apply Hn. destruct (proj1 (Hq q)) as [Ht Hacc]; [by exists rule|].
    split; [done|]. split; [done|]. rewrite request_seen. destruct (subscription_rule c sub) as [| |t]; [done|done|]. by subst q.
Qed.
(** C27: A change is told only to those who may see it, and to all who surely may.
    A broadcast leaves the clients, their subscriptions and their identities as
    they are and adds to the end of each queue at most one message for each
    subscription, in their order.  A subscription gets one only if its topic is
    the collection that changed, and the list rule admits it, or the record that
    changed, and the view rule does; the rule admits it if it is open or the
    subscriber a superuser, or if the database, asked during the broadcast,
    confirms the rule of the record; a locked rule admits nobody else. A filter
    of the subscription is to be confirmed with it, as the text [(rule) && (filter)]
    (whose parentheses a filter may close, [filter_escapes_rule]), and where something is to
    be confirmed no deletion is told.  A subscription without options that its rule
    certainly admits does get one,
    with the record as it was read (when it has no object in a column named
    [expand], which the messages would share).  The broadcast gives up early only when the
    record was gone and reading it again failed. *)
Theorem broadcast_only_allowed c name record_id act record_data h r h' :
  contains_char "/" record_id = false -> record_id <> "*" ->
  NoDup (clients h) -> broadcast_record_change c name record_id act record_data h = (r, h') ->
  (act = "delete" \/ record_data <> None -> r = Ok tt) /\
  forall x, match dict_get x (sessions h) with
    | None => dict_get x (sessions h') = None
    | Some s => exists k outs,
        dict_get x (sessions h') = Some (mkSession (response_queue s ++ omap id outs) (subscriptions s) (auth_key s) (auth_key_set s)) /\
        Forall2 (told c name record_id act record_data (asked h) (asked h')) (take k (subscriptions s)) outs /\
        (r = Ok tt -> (length (subscriptions s) <= k)%nat)
    end.
Proof.
  intros Hid Hne Hnd Hrun. destruct (broadcast_spec _ _ _ _ _ _ _ _ Hnd Hrun) as [Hok Hx]. split; [done|]. intros x. specialize (Hx x).
  destruct (dict_get x (sessions h)) as [s|]; [|done]. destruct Hx as (outs & Hx & k & Hk & Hw). exists k, outs. split; [done|]. split.
  - eapply Forall2_impl; [exact Hk|]. intros sub o. by apply handled_told.
  - intros ->. by apply Hw.
Qed.
(** The identity of a token payload: its type, its collection and its record;
    a guest has none. *)
Definition identity_of (auth : option dict) : option (string * string * string) :=
  let text (a : dict) key := py_str (default (PStr "") (dict_get key a)) in
  match auth with
  | None | Some [] => None
  | Some a => Some (text a "type", text a "collectionId", text a "id")
  end.
(** The type and the collection of a token hold no colon. *)
Definition plain_identity (auth : option dict) : Prop :=
  match identity_of auth with
  | Some (t, c, _) => contains_char ":" t = false /\ contains_char ":" c = false
  | None => True
  end.
(** A request that names the client [x]. *)
Definition for_client (body : option pyval) (x : string) : Prop :=
  exists d id, body = Some (PDict d) /\ dict_get "clientId" d = Some (PStr id) /\ x = py_strip id.
Definition stays (x : string) (h h' : hub) : Prop := step h h' /\ dict_get x (sessions h') <> None.
Lemma colon_split a b a' b' : contains_char ":" a = false -> contains_char ":" a' = false ->
  a +:+ ":" +:+ b = a' +:+ ":" +:+ b' -> a = a' /\ b = b'.
Proof.
  revert a'. induction a as [|x a IH]; intros [|x' a'] Ha Ha' E; cbn in *.
  - by injection E.
  - injection E as <- E. by rewrite Ascii.eqb_refl in Ha'.
  - injection E as -> E. by rewrite Ascii.eqb_refl in Ha.
  - injection E as <- E. apply orb_false_iff in Ha as [_ Ha], Ha' as [_ Ha']. by destruct (IH _ Ha Ha' E) as [-> ->].
Qed.
Lemma key_identity p q : plain_identity p -> plain_identity q ->
  _build_realtime_auth_key p = _build_realtime_auth_key q -> identity_of p = identity_of q.
Proof.
  unfold plain_identity. intros Hp Hq. destruct p as [[|kv p]|], q as [[|kv' q]|]; try done.
  cbn [identity_of] in *. unfold _build_realtime_auth_key, ClientFilterGuard.claim. intros E. injection E as E.
  apply colon_split in E as [Et E]; [|apply Hp|apply Hq]. apply colon_split in E as [Ec Ei]; [|apply Hp|apply Hq].
  by apply (f_equal3 (fun t c i => Some (t, c, i))).
Qed.
Lemma subscribed_key body authorization auth h h' x : realtime_subscribe body authorization auth h = (Ok 204%Z, h') -> for_client body x ->
  (forall s, dict_get x (sessions h) = Some s -> auth_key_set s = true -> auth_key s = _build_realtime_auth_key auth) /\
  exists s', dict_get x (sessions h') = Some s' /\ auth_key_set s' = true /\ auth_key s' = _build_realtime_auth_key auth.
Proof.
  intros Hrun (d & cid & -> & Hid & ->). pose proof (subscribe_spec (Some (PDict d)) authorization auth h) as [_ Hsub]. rewrite Hrun in Hsub. cbn [snd] in Hsub.
  unfold realtime_subscribe in Hrun. rewrite Hid in Hrun. cbn [default from_option id] in Hrun.
  destruct (String.eqb _ ""); [done|]. unfold get_session in Hrun. destruct (dict_get (py_strip cid) (sessions h)) as [s|] eqn:Es; [|done].
  destruct (auth_key_set s && _) eqn:Eauth; [done|].
  assert (Hkey : auth_key_set s = true -> auth_key s = _build_realtime_auth_key auth).
  { intros E. rewrite E in Eauth. by apply negb_false_iff, bool_decide_eq_true in Eauth. }
  split; [by intros ? [= <-]|]. set (h1 := if auth_key_set s then h else _) in Hrun.
  assert (H1 : exists s1, dict_get (py_strip cid) (sessions h1) = Some s1 /\ auth_key_set s1 = true /\ auth_key s1 = _build_realtime_auth_key auth).
  { subst h1. destruct (auth_key_set s) eqn:Eset; [exists s; by rewrite Hkey|]. eexists. rewrite get_update, String.eqb_refl, Es. done. }
  destruct (default (PList []) _) as [| | | | |l|]; try done. pose proof (parse_subscriptions_spec (bearer authorization) auth
    (omap (fun v => match v with PStr s => Some s | _ => None end) l) h1) as Hp.
  destruct (parse_subscriptions _ _ _ h1) as [parsed h2]. destruct Hp as [[E2 _] _]. cbn [fst snd] in E2.
  destruct H1 as (s1 & H1 & Hset & Hk). unfold replace_subscriptions in Hrun. rewrite E2, H1 in Hrun. injection Hrun as <-.
  eexists. by rewrite get_update, String.eqb_refl, E2, H1.
Qed.
Lemma stays_bound x h h' key : rtc (stays x) h h' -> good h -> (exists s, dict_get x (sessions h) = Some s /\ auth_key_set s = true /\ auth_key s = key) ->
  good h' /\ exists s, dict_get x (sessions h') = Some s /\ auth_key_set s = true /\ auth_key s = key.
Proof.
  induction 1 as [|h1 h2 h3 [Hs Hin] _ IH]; [done|]. intros Hg (s & Es & Hset & Hk). pose proof (step_advances _ _ Hs Hg) as Ha.
  apply IH; [by eapply advances_good|]. destruct (dict_get x (sessions h2)) as [s2|] eqn:E2; [|done]. exists s2. split; [done|].
  destruct Ha as [_ Ha]. specialize (Ha x s2 E2). rewrite Es in Ha. destruct Ha as [_ Ha]. destruct (Ha Hset) as [-> ?]. done.
Qed.
(** C28: The events of a client are chosen for one identity.  Take a request
    that subscribes a client and is answered 204. Whatever the clients then
    connect, subscribe to, unsubscribe from, read and leave, and whatever changes
    are notified in between, as long as that client's session is there: every
    subscription of the session was made by the identity of that request, and
    a request for the client that is answered 204 is of that identity. Two
    requests have one identity when both are guests, or their tokens have the
    same type, collection and record id (for tokens whose type and collection id hold no
    colon, as those that the server signs). *)
Theorem sessions_keep_identity h0 h1 h2 x body authorization auth :
  reachable h0 -> realtime_subscribe body authorization auth h0 = (Ok 204%Z, h1) -> for_client body x -> plain_identity auth ->
  rtc (stays x) h1 h2 ->
  (exists s, dict_get x (sessions h2) = Some s /\
     Forall (fun sub => plain_identity (auth_payload sub) -> identity_of (auth_payload sub) = identity_of auth) (subscriptions s)) /\
  forall body' authorization' auth' h3, for_client body' x -> plain_identity auth' ->
    realtime_subscribe body' authorization' auth' h2 = (Ok 204%Z, h3) -> identity_of auth' = identity_of auth.
Proof.
  intros Hr Hrun Hx Hplain Hstays. destruct (subscribed_key _ _ _ _ _ _ Hrun Hx) as [_ Hs].
  assert (Hg1 : good h1).
  { eapply advances_good, step_advances; [|by apply reachable_good]. pose proof (step_subscribe body authorization auth h0) as Hst. by rewrite Hrun in Hst. }
  destruct (stays_bound _ _ _ _ Hstays Hg1 Hs) as [[_ Hown] (s & Es & Hset & Hkey)]. destruct (Hown _ _ Es) as [_ HF]. split.
  - exists s. split; [done|]. eapply Forall_impl; [exact HF|]. cbn. intros sub Hsub Hp. apply key_identity; [done..|congruence].
  - intros body' au' auth' h3 Hx' Hp' Hrun'. destruct (subscribed_key _ _ _ _ _ _ Hrun' Hx') as [Hk _].
    apply key_identity; [done..|]. by rewrite <- Hkey, (Hk s Es Hset).
Qed.
End Theorems.

(** ** Examples *)
(** A library that reads one notification and the options of one topic. *)
Definition demo_event : dict := [("collection", PStr "users"); ("record_id", PStr "u1"); ("action", PStr "update")].
Definition demo_options (f : string) : pyval := PDict [("query", PDict [("filter", PStr f)])].
Definition escaping : string := "id!='') || (id!=''".
#[local] Instance demo_realtime_lib : RecordLib := {|
  record_field_lib := {|
    field_float_text := @field_float_text demo_lib;
    re_search := @re_search demo_lib;
    json_loads s := if String.eqb s "EVENT" then Some (PDict demo_event) else if String.eqb s "{F}" then Some (demo_options escaping) else None;
    float_of_text := @float_of_text demo_lib;
    field_iso := @field_iso demo_lib;
    url_hostname := @url_hostname demo_lib;
    field_urlsplit := @field_urlsplit demo_lib;
  |};
  build_field := @build_field demo_record_lib;
  set_order := @set_order demo_record_lib;
|}.
(** Everyone lists the users; a user views itself. *)
Definition users : Ruled := mkRuled demo_users (Some "") (Some "id = @request.auth.id").
#[local] Instance demo_realtime : RealtimeEnv := {|
  rt_lib := demo_realtime_lib;
  known_collections _ := [users];
  fetch_row _ table id := Ok (if String.eqb id "u1" then Some demo_row else None);
  check_record_rule _ _ id rule ctx := Some (text_is id (dict_get "id" match dict_get "auth" ctx with Some (PDict d) => d | _ => [] end));
  expand_db _ := {| Expand.select_in := fun _ _ _ => Ok []; Expand.entries_text := fun _ _ => "{...}" |};
|}.
Definition subscribe (client : string) (auth : option dict) (topics : list string) (h : hub) : hub :=
  (realtime_subscribe (Some (PDict [("clientId", PStr client); ("subscriptions", PList (PStr <$> topics))])) "Bearer t" auth h).2.
Definition user (id : string) : option dict := Some [("type", PStr "authRecord"); ("id", PStr id); ("collectionId", PStr "users123")].
Definition demo_hub : hub :=
  subscribe "b" (user "u1") ["users/u1"; "nowhere/*"; "users/*"] (subscribe "a" None ["users/u1"; "users/*"]
    (register_client "b" (register_client "a" (empty_hub 0)))).
Definition heard (client : string) (h : hub) : option (list string) := (fun s => m_topic <$> response_queue s) <$> get_session client h.
Example change_is_heard : heard "a" (on_notification "EVENT" demo_hub) = Some ["users/*"] /\
  heard "b" (on_notification "EVENT" demo_hub) = Some ["users/u1"; "users/*"] /\
  heard "b" (on_notification "other" demo_hub) = Some [].
Proof. by vm_compute. Qed.
Example another_identity_refused : (realtime_subscribe (Some (PDict [("clientId", PStr "a")])) "" (user "u2") demo_hub).1 = Ok 403%Z.
Proof. by vm_compute. Qed.
(** The row is read without a request: a client that nobody signed in is sent
    the e-mail that its owner hides, which the endpoints leave out. *)
Definition contents (client : string) (h : hub) : option (list row) :=
  (fun s => (fun m => shown_columns (record (m_data m))) <$> response_queue s) <$> get_session client h.
Example realtime_shows_email :
  (map (dict_get "email") <$> contents "a" (on_notification "EVENT" demo_hub)) = Some [Some (Plain (PStr "a@b.c"))] /\
  column_or_none demo_row "email_visibility" = Plain (PBool false).
Proof. by vm_compute. Qed.
(** The filter of a subscription is put between parentheses as text: it can
    close them and add an alternative to the rule. *)
Definition escaped (topics : list string) : option (list ClientFilterGuard.access) :=
  (fun s => subscription_rule users <$> subscriptions s) <$> get_session "a" (subscribe "a" None topics (register_client "a" (empty_hub 0))).
Example filter_escapes_rule : escaped ["users/u1"; "users/u1?options={F}"] =
  Some [ClientFilterGuard.Filtered "id = @request.auth.id";
        ClientFilterGuard.Filtered "(id = @request.auth.id) && (id!='') || (id!='')"].
Proof. by vm_compute. Qed.
(** A subscription by the id of a collection is accepted and never told anything. *)
Example by_id_unheard : heard "a" (on_notification "EVENT" (subscribe "a" None ["users123/*"] (register_client "a" (empty_hub 0)))) = Some [] /\
  (fun s => base_topic <$> subscriptions s) <$> get_session "a" (subscribe "a" None ["users123/*"] (register_client "a" (empty_hub 0))) = Some ["users123/*"].
Proof. by vm_compute. Qed.
(** The texts of a query. *)
Example query_decoded : parse_qs "a=1+2&options=%7B%22x%22%3a1%7D&a=%zz&&b&a=%C3%A9%25" = [("a", ["1 2"; "%zz"; String "233" "%"]); ("options", ["{" +:+ String "034" "x" +:+ String "034" ":1}"]); ("b", [""])].
Proof. by vm_compute. Qed.

Lemma broadcast_only_allowed_witness : NoDup (sessions demo_hub).*1 /\
  (let r := broadcast_record_change users "users" "u1" "update" (Some demo_row) demo_hub in
   r.1 = Ok tt /\ exists s outs, dict_get "b" (sessions demo_hub) = Some s /\
   dict_get "b" (sessions r.2) = Some (mkSession (response_queue s ++ omap id outs) (subscriptions s) (auth_key s) (auth_key_set s)) /\
   Forall2 (told users "users" "u1" "update" (Some demo_row) (asked demo_hub) (asked r.2)) (subscriptions s) outs).
Proof.
  assert (Hnd : NoDup (sessions demo_hub).*1) by (apply (bool_decide_unpack _); by vm_compute).
  split; [exact Hnd|]. cbv zeta.
  destruct (broadcast_only_allowed users "users" "u1" "update" (Some demo_row) demo_hub _ _ eq_refl ltac:(discriminate) Hnd (surjective_pairing _)) as [Hok Hx].
  assert (Hr : (broadcast_record_change users "users" "u1" "update" (Some demo_row) demo_hub).1 = Ok tt) by (apply Hok; by right).
  split; [exact Hr|]. specialize (Hx "b").
  destruct (dict_get "b" (sessions demo_hub)) as [s|] eqn:Es; [|by vm_compute in Es].
  destruct Hx as (k & outs & Hx & Hs & Hk). exists s, outs. split; [reflexivity|]. split; [exact Hx|].
  by rewrite take_ge in Hs by by apply Hk.
Defined.
(** The client [b] after its request, a change and a request of another user. *)
Definition demo_request : option pyval := Some (PDict [("clientId", PStr "b"); ("subscriptions", PList [PStr "users/u1"])]).
Definition two_clients : hub := register_client "b" (register_client "a" (empty_hub 0)).
Definition demo_claimed : hub := (realtime_subscribe demo_request "Bearer t" (user "u1") two_clients).2.
Lemma sessions_keep_identity_witness : reachable two_clients /\ exists s,
  dict_get "b" (sessions (on_notification "EVENT" demo_claimed)) = Some s /\ length (subscriptions s) = 1%nat /\
  Forall (fun sub => plain_identity (auth_payload sub) -> identity_of (auth_payload sub) = Some ("authRecord", "users123", "u1")) (subscriptions s) /\
  (realtime_subscribe demo_request "" (user "u2") (on_notification "EVENT" demo_claimed)).1 <> Ok 204%Z.
Proof.
  assert (Hr : reachable two_clients).
  { exists 0%nat. eapply rtc_l; [by apply (step_register "a")|]. eapply rtc_l; [by apply (step_register "b")|]. apply rtc_refl. }
  split; [exact Hr|].
  assert (Hc : for_client demo_request "b") by (by eexists _, "b").
  assert (Hrun : realtime_subscribe demo_request "Bearer t" (user "u1") two_clients = (Ok 204%Z, demo_claimed)).
  { unfold demo_claimed. rewrite (surjective_pairing (realtime_subscribe _ _ _ _)) at 1. f_equal; by vm_compute. }
  destruct (sessions_keep_identity two_clients demo_claimed (on_notification "EVENT" demo_claimed) "b" demo_request "Bearer t" (user "u1") Hr Hrun Hc)
    as [(s & Es & HF) Hnext]; [by vm_compute|by apply rtc_once; split; [apply step_notify|vm_compute]|].
  exists s. split; [exact Es|]. split; [|split; [exact HF|]].
  - assert (Hl : ((fun s => length (subscriptions s)) <$> dict_get "b" (sessions (on_notification "EVENT" demo_claimed))) = Some 1%nat) by by vm_compute.
    rewrite Es in Hl. by injection Hl.
  - destruct (realtime_subscribe demo_request "" (user "u2") (on_notification "EVENT" demo_claimed)) as [r h3] eqn:E. cbn [fst]. intros ->.
    specialize (Hnext demo_request "" (user "u2") h3 Hc ltac:(by vm_compute) E). by vm_compute in Hnext.
Defined.
