(* ===== verification/Steps.v ===== *)
(** * Steps that can fail

    A call of the system, of the database or of a service is a step of a process.
    A script says of each whether it works, is refused, fails after its effect,
    or is the last of the process, after which only the state is left; a script
    that has run out works.  Triples say what a computation leaves in each case,
    and [calm] that it returns when nothing fails. *)
From Stdlib Require Import Ascii String.
From S2P Require Import Prelude.
#[local] Open Scope string_scope.
#[local] Open Scope list_scope.

Inductive event : Type := Works | Refused | Failing | Dies.
Inductive failure : Type := Crashed | Raised (kind : string).
Section Steps.
Context {S : Type}.
Record world : Type := mkWorld { st : S; script : list event }.
#[local] Abbreviation M := (stm world failure).

(** One call of the system or of the database. *)
Definition OSError : failure := Raised "OSError".
Definition FileNotFoundError : failure := Raised "FileNotFoundError".
Definition act {A} (f : S -> result failure A * S) : M A := fun w =>
  let run l := let '(r, s) := f (st w) in (r, mkWorld s l) in
  match script w with
  | [] => run []
  | Works :: l => run l
  | Refused :: l => (Err OSError, mkWorld (st w) l)
  | Failing :: l => (Err OSError, snd (run l))
  | Dies :: l => (Err Crashed, mkWorld (st w) l)
  end.
Definition look {A} (f : S -> A) : M A := act (fun w => (Ok (f w), w)).
Definition change (f : S -> S) : M unit := act (fun w => (Ok tt, f w)).
(** [try: m except ...: h]; nothing is caught when the process ends. *)
Definition catch {A} (m : M A) (h : string -> M A) : M A := fun w =>
  match m w with
  | (Err (Raised k), w') => h k w'
  | r => r
  end.
Definition ignore (kinds : list string) (m : M unit) : M unit :=
  catch m (fun k => if existsb (String.eqb k) kinds then mret tt else stm_raise (Raised k)).
Definition set (f : S -> S) : M unit := stm_modify (fun w => mkWorld (f (st w)) (script w)).
End Steps.
Arguments world : clear implicits.

(** * Proofs *)

(** ** Steps and what is left when one of them fails *)
Section Triples.
Context {S : Type}.
#[local] Abbreviation M := (stm (world S) failure).
(** From a state of [P], [m] ends in a state of [Q], or of [X] if it raises or dies. *)
Definition triple {A} (P : S -> Prop) (m : M A) (Q : A -> S -> Prop) (X : failure -> S -> Prop) : Prop :=
  forall w, P (st w) -> post m w (fun a w' => Q a (st w')) (fun e w' => X e (st w')).
Lemma triple_ret {A} (P : S -> Prop) (a : A) X : triple P (mret a) (fun b s => b = a /\ P s) X.
Proof. by intros w HP. Qed.
Lemma triple_raise {A} (P : S -> Prop) e (Q : A -> S -> Prop) X : (forall s, P s -> X e s) -> triple P (stm_raise e) Q X.
Proof. intros HX w HP. by apply HX. Qed.
Lemma triple_bind {A B} (P : S -> Prop) (m : M A) (f : A -> M B) Q R X :
  triple P m Q X -> (forall a, triple (Q a) (f a) R X) -> triple P (m ≫= f) R X.
Proof. intros Hm Hf w HP. apply post_bind. eapply post_conseq; [by apply Hm|intros a w' HQ; by apply Hf|done]. Qed.
Lemma triple_conseq {A} (P P' : S -> Prop) (m : M A) Q Q' X X' :
  triple P m Q X -> (forall s, P' s -> P s) -> (forall a s, Q a s -> Q' a s) -> (forall e s, X e s -> X' e s) -> triple P' m Q' X'.
Proof. intros Hm HP HQ HX w Hw. eapply post_conseq; [by apply Hm, HP|naive_solver..]. Qed.
Lemma triple_pre {A} (P P' : S -> Prop) (m : M A) Q X : (forall s, P' s -> P s) -> triple P m Q X -> triple P' m Q X.
Proof. intros HP Hm w Hw. by apply Hm, HP. Qed.
Lemma triple_pure {A} (phi : Prop) (P : S -> Prop) (m : M A) Q X : (phi -> triple P m Q X) -> triple (fun s => phi /\ P s) m Q X.
Proof. intros Hm w [Hphi HP]. by apply Hm. Qed.
Lemma triple_act {A} (P : S -> Prop) (f : S -> result failure A * S) Q X :
  (forall s, P s -> X OSError s /\ X Crashed s /\ X OSError (f s).2 /\ match f s with (Ok a, s') => Q a s' | (Err e, s') => X e s' end) ->
  triple P (act f) Q X.
Proof.
  intros Hf [s l] HP. destruct (Hf s HP) as (HO & HC & HL & HR). unfold post, act. cbn.
  destruct l as [|[] l]; cbn; try done; destruct (f s) as [[a|e] s']; done.
Qed.
Lemma triple_look {A} (P : S -> Prop) (f : S -> A) X :
  (forall s, P s -> X OSError s /\ X Crashed s) -> triple P (look f) (fun a s => a = f s /\ P s) X.
Proof. intros HX. apply triple_act. intros s HP. destruct (HX s HP). by repeat split. Qed.
Lemma triple_change (P : S -> Prop) (f : S -> S) (Q : S -> Prop) X :
  (forall s, P s -> X OSError s /\ X Crashed s /\ X OSError (f s) /\ Q (f s)) -> triple P (change f) (fun _ => Q) X.
Proof. intros HX. apply triple_act. intros s HP. destruct (HX s HP) as (H1 & H2 & H3 & H4). done. Qed.
Lemma triple_set (P : S -> Prop) (f : S -> S) (Q : S -> Prop) X : (forall s, P s -> Q (f s)) -> triple P (set f) (fun _ => Q) X.
Proof. intros HQ w HP. by apply HQ. Qed.
Lemma triple_catch {A} (P : S -> Prop) (m : M A) h Q X Y :
  triple P m Q Y -> (forall s, Y Crashed s -> X Crashed s) -> (forall k, triple (Y (Raised k)) (h k) Q X) -> triple P (catch m h) Q X.
Proof.
  intros Hm HC Hh w HP. specialize (Hm w HP). unfold post, catch in *. destruct (m w) as [[a|[|k]] w']; [done|by apply HC|by apply Hh].
Qed.
Lemma triple_ignore (P : S -> Prop) ks (m : M unit) (Q : S -> Prop) X :
  triple P m (fun _ => Q) X -> (forall k s, k ∈ ks -> X (Raised k) s -> Q s) -> triple P (ignore ks m) (fun _ => Q) X.
Proof.
  intros Hm HQ. eapply triple_catch; [exact Hm|done|]. intros k. destruct (existsb (String.eqb k) ks) eqn:E.
  - apply existsb_exists in E as (x & Hx & ->%String.eqb_eq). apply list_elem_of_In in Hx.
    intros w HX. cbn. by apply (HQ x).
  - by apply triple_raise.
Qed.
Lemma triple_iter {A} (P : S -> Prop) (f : A -> M unit) l X : (forall x, triple P (f x) (fun _ => P) X) -> triple P (stm_iter f l) (fun _ => P) X.
Proof.
  intros Hf. induction l as [|x l IH]; [by intros w HP|]. cbn. eapply triple_bind; [apply Hf|]. intros []. exact IH.
Qed.

(** Whatever fails, [R] stays. *)
Abbreviation left_in R := (fun (_ : failure) => R).
Lemma stays_change (R : S -> Prop) f : (forall s, R s -> R (f s)) -> triple R (change f) (fun _ => R) (left_in R).
Proof. intros Hf. apply triple_change. naive_solver. Qed.
Lemma look_spec {A B} (R : S -> Prop) (f : S -> A) (g : A -> M B) (Q : B -> S -> Prop) :
  (forall a, triple (fun s => a = f s /\ R s) (g a) Q (left_in R)) -> triple R (look f ≫= g) Q (left_in R).
Proof. intros Hg. eapply triple_bind; [by apply triple_look|exact Hg]. Qed.
End Triples.

(** ** When nothing fails *)
Section Calm.
Context {S : Type}.
#[local] Abbreviation M := (stm (world S) failure).
Definition calm {A} (P : S -> Prop) (m : M A) : Prop := forall s, P s -> exists a s', m (mkWorld s []) = (Ok a, mkWorld s' []).
Lemma calm_ret {A} P (a : A) : calm P (mret a). Proof. intros s _. by exists a, s. Qed.
Lemma calm_bind {A B} (P : S -> Prop) (m : M A) (f : A -> M B) Q X : calm P m -> triple P m Q X -> (forall a, calm (Q a) (f a)) -> calm P (m ≫= f).
Proof.
  intros Hm Ht Hf s HP. destruct (Hm s HP) as (a & s' & E). pose proof (post_run _ _ _ _ _ _ (Ht (mkWorld s []) HP) E) as HQ.
  unfold mbind, stm_bind. rewrite E. by apply Hf.
Qed.
Lemma calm_pre {A} (P P' : S -> Prop) (m : M A) : (forall s, P' s -> P s) -> calm P m -> calm P' m.
Proof. intros HP Hm s Hs. by apply Hm, HP. Qed.
Lemma calm_act {A} (P : S -> Prop) (f : S -> result failure A * S) : (forall s, P s -> exists a, (f s).1 = Ok a) -> calm P (act f).
Proof. intros Hf s HP. destruct (Hf s HP) as [a Ha]. unfold act. cbn. destruct (f s) as [r s']. cbn in Ha. subst r. by exists a, s'. Qed.
Lemma calm_look {A} P (f : S -> A) : calm P (look f).
Proof. apply calm_act. intros s _. by exists (f s). Qed.
Lemma calm_change P f : calm P (change f).
Proof. apply calm_act. intros s _. by exists tt. Qed.
Lemma calm_iter {A} (P : S -> Prop) (f : A -> M unit) l : (forall x, calm P (f x)) -> (forall x, triple P (f x) (fun _ => P) (fun _ _ => True)) -> calm P (stm_iter f l).
Proof.
  intros Hc Ht. induction l as [|x l IH]; [apply calm_ret|]. cbn. eapply calm_bind; [apply Hc|apply Ht|]. intros []. exact IH.
Qed.
Lemma calm_look_bind {A B} (P : S -> Prop) (f : S -> A) (g : A -> M B) : (forall a, calm (fun s => a = f s /\ P s) (g a)) -> calm P (look f ≫= g).
Proof. intros Hg. eapply calm_bind; [apply calm_look|apply (triple_look P f (fun _ _ => True)); done|exact Hg]. Qed.
Lemma calm_pure {A} (phi : Prop) (P : S -> Prop) (m : M A) : (phi -> calm P m) -> calm (fun s => phi /\ P s) m.
Proof. intros Hm s [Hphi HP]. by apply Hm. Qed.
Lemma triple_true {A} (P : S -> Prop) (m : M A) : triple P m (fun _ _ => True) (fun _ _ => True).
Proof. intros w _. unfold post. by destruct (m w) as [[]]. Qed.
End Calm.
