(* ===== verification/RestoreCutover.v ===== *)
(** * The cutover of a destructive restore (ppbase/backup/destructive.py, ppbase/backup/service.py)

    The files and the secret of the data directory are exchanged for those of the
    backup, the database is replaced in one transaction that leaves a marker, and
    a journal says how far the exchange came.  Every system call and every
    statement is a step; a script says of each whether it works, is refused, fails
    after its effect or is the end of the process, after which only the files, the
    journal and the database are left.  Steps take effect in their order: a loss
    of power that [fsync] guards against is not modelled, nor is a COMMIT that
    the server finishes after the marker was looked for. *)
From Stdlib Require Import Ascii String.
From Stdlib.Strings Require Import Byte.
From S2P Require Import Prelude PyText PyVal Steps.
From S2P Require CopyFormat.
#[local] Open Scope string_scope.
#[local] Open Scope list_scope.

Abbreviation dict := (list (string * pyval)).

(** ** The world *)
(** A file of the storage: its path and what it holds. *)
Definition tree : Type := list (string * string).
Inductive entry : Type := Dir (files : tree) | Regular (content : string) | Symlink | Special.
Definition reference : Type := string * string * string.
Inductive data_root : Type := Attached | Absent | Unsafe.
Class RestoreEnv : Type := {
  database : Type;                                     (* what the schema [public] holds *)
  references_of : database -> option (list reference); (* read_canonical_local_file_references; [None] raises *)
  uses_data_dir : database -> string -> option bool;   (* whether its settings keep files in this directory *)
  opens : tree -> reference -> option bool;            (* open_file_stream: a local file *)
  reference_bytes : reference -> list byte;            (* canonical_json_bytes *)
  restore_sha256 :: CopyFormat.Sha256;
  restore_float_text :: FloatText;                     (* str of a float *)
  resolve : string -> option string;                   (* Path.expanduser().resolve(strict=True) *)
  settings_data_dir : string;
  root : data_root;                                    (* RuntimeDataRoot.open *)
}.
Section World.
Context {env : RestoreEnv}.
(** What survives the process, and the two flags that do not. *)
Record state : Type := mkState {
  fs : gmap string entry;               (* the data directory *)
  staged : option (gmap string entry);  (* its work directory *)
  work_root_exists : bool;
  journal : option dict;
  db : database; marker : option string;
  swapped : bool; cutover_must_remain : bool;
}.
Definition M : Type -> Type := stm (world state) failure.
Definition with_fs f (s : state) : state := mkState (f (fs s)) (staged s) (work_root_exists s) (journal s) (db s) (marker s) (swapped s) (cutover_must_remain s).
Definition with_staged f (s : state) : state := mkState (fs s) (f (staged s)) (work_root_exists s) (journal s) (db s) (marker s) (swapped s) (cutover_must_remain s).
Definition with_work_root b (s : state) : state := mkState (fs s) (staged s) b (journal s) (db s) (marker s) (swapped s) (cutover_must_remain s).
Definition with_journal j (s : state) : state := mkState (fs s) (staged s) (work_root_exists s) j (db s) (marker s) (swapped s) (cutover_must_remain s).
Definition with_database d m (s : state) : state := mkState (fs s) (staged s) (work_root_exists s) (journal s) d m (swapped s) (cutover_must_remain s).
Definition with_swapped b (s : state) : state := mkState (fs s) (staged s) (work_root_exists s) (journal s) (db s) (marker s) b (cutover_must_remain s).
Definition with_must_remain b (s : state) : state := mkState (fs s) (staged s) (work_root_exists s) (journal s) (db s) (marker s) (swapped s) b.

Definition DestructiveRestoreError {A} (message : string) : M A := stm_raise (Raised "DestructiveRestoreError").

(** ** Entries of the data directory *)
(** [rename(2)]: a directory only replaces an empty one, a file no directory. *)
Definition replaceable (source : entry) (target : option entry) : bool :=
  match source, target with
  | _, None | Dir _, Some (Dir []) => true
  | Dir _, Some _ | _, Some (Dir _) => false
  | _, Some _ => true
  end.
Definition rename (source target : string) : M unit := act (fun w =>
  match fs w !! source with
  | None => (Err FileNotFoundError, w)
  | Some e => if replaceable e (fs w !! target) then (Ok tt, with_fs (fun m => <[target := e]> (delete source m)) w) else (Err OSError, w)
  end).
Definition unstage (name : string) (o : option (gmap string entry)) : option (gmap string entry) :=
  match o with Some m => Some (delete name m) | None => None end.
(** From the work directory into the data directory. *)
Definition rename_staged (name : string) : M unit := act (fun w =>
  match match staged w with Some m => m !! name | None => None end with
  | None => (Err FileNotFoundError, w)
  | Some e => if replaceable e (fs w !! name) then (Ok tt, with_staged (unstage name) (with_fs <[name := e]> w)) else (Err OSError, w)
  end).
Definition fsync : M unit := look (fun _ => tt).
Definition _entry_exists (name : string) : M bool := look (fun w => match fs w !! name with Some _ => true | None => false end).
(** [shutil.rmtree]: file by file, then the directory. *)
Definition unlink_in (name path : string) (m : gmap string entry) : gmap string entry :=
  match m !! name with Some (Dir t) => <[name := Dir (filter (fun kv => kv.1 <> path) t)]> m | _ => m end.
Definition rmtree (name : string) (files : tree) : M unit :=
  _ ← stm_iter (fun kv => change (with_fs (unlink_in name kv.1))) files;
  change (with_fs (delete name)).
Definition _remove_entry_at (name : string) : M unit :=
  info ← look (fun w => fs w !! name);
  match info with
  | None => mret tt
  | Some Symlink => DestructiveRestoreError ("refusing to remove restore symlink: " +:+ name)
  | Some (Dir files) => rmtree name files
  | Some (Regular _) => change (with_fs (delete name))
  | Some Special => DestructiveRestoreError ("refusing to remove special restore entry: " +:+ name)
  end.
(** [if exists(previous): remove(name); rename(previous, name)] *)
Definition put_back (previous name : string) : M unit :=
  exists_ ← _entry_exists previous;
  if (exists_ : bool) then (_ ← _remove_entry_at name; rename previous name) else mret tt.
(** [shutil.rmtree] of the work directory, and [rmdir] of its parent. *)
Definition remove_work_dir : M unit :=
  found ← look (fun w => match staged w with Some m => Some (map_to_list m).*1 | None => None end);
  match found with
  | None => mret tt
  | Some names =>
      _ ← stm_iter (fun n => change (with_staged (unstage n))) names;
      change (with_staged (fun _ => None))
  end.
Definition remove_work_root : M unit := ignore ["OSError"; "FileNotFoundError"] (act (fun w =>
  match staged w with Some _ => (Err OSError, w) | None => (Ok tt, with_work_root false w) end)).
End World.

(** ** The inventory of file references *)
Definition _RESTORE_ROOT : string := ".ppbase-restore".
Definition _JOURNAL_STATUSES : list string := ["swap_started"; "files_swapped"; "database_committed"; "finalizing"].
Definition _FILE_REFERENCE_INVENTORY_VERSION : Z := 1.
Definition _FILE_REFERENCE_INVENTORY_DOMAIN : bytes := list_byte_of_string "PPBASE-LOCAL-FILE-REFERENCES-V1" ++ ["000"%byte].
Definition _JOURNAL_FILE_REFERENCE_INVENTORY_KEY : string := "localFileReferenceInventory".
Definition hex_lower (s : string) : bool := str_forall (fun c => existsb (Ascii.eqb c) (list_ascii_of_string "0123456789abcdef")) s.
(** [None] raises [ValueError]. *)
Definition normalize_file_reference_inventory (value : pyval) : option dict :=
  match value with
  | PDict d =>
      if negb ((length d =? 3)%nat && dict_mem "version" d && dict_mem "count" d && dict_mem "sha256" d) then None else
      match dict_get "version" d, dict_get "count" d, dict_get "sha256" d with
      | Some version, Some (PInt count), Some (PStr sha256) =>
          if (match version with PBool _ => true | _ => false end) || negb (py_eqb version (PInt _FILE_REFERENCE_INVENTORY_VERSION)) ||
             (count <? 0)%Z || negb (String.length sha256 =? 64)%nat || negb (hex_lower sha256) then None
          else Some [("version", PInt _FILE_REFERENCE_INVENTORY_VERSION); ("count", PInt count); ("sha256", PStr sha256)]
      | _, _, _ => None
      end
  | _ => None
  end.
(** [len(encoded).to_bytes(8, "big")] *)
Definition length_prefix (n : nat) : bytes :=
  (fun i => default "000"%byte (Byte.of_N (N.of_nat n / 256 ^ N.of_nat i mod 256)%N)) <$> [7; 6; 5; 4; 3; 2; 1; 0]%nat.
Definition ref_leb (a b : reference) : bool :=
  let '(a1, a2, a3) := a in let '(b1, b2, b3) := b in
  if negb (String.eqb a1 b1) then str_leb a1 b1 else if negb (String.eqb a2 b2) then str_leb a2 b2 else str_leb a3 b3.
Section Inventory.
Context {env : RestoreEnv}.
Definition build_file_reference_inventory (references : list reference) : dict :=
  let canonical := py_sorted ref_leb (remove_dups references) in
  let digest := _FILE_REFERENCE_INVENTORY_DOMAIN ++ concat ((fun r => length_prefix (length (reference_bytes r)) ++ reference_bytes r) <$> canonical) in
  [("version", PInt _FILE_REFERENCE_INVENTORY_VERSION); ("count", PInt (zlen canonical)); ("sha256", PStr (CopyFormat.sha256_hex digest))].
Definition file_reference_inventory_matches (expected : pyval) (references : list reference) : bool :=
  match normalize_file_reference_inventory expected with
  | None => false
  | Some normalized =>
      let actual := build_file_reference_inventory references in
      py_eqb (default PNone (dict_get "count" normalized)) (default PNone (dict_get "count" actual)) &&
      py_eqb (default PNone (dict_get "sha256" normalized)) (default PNone (dict_get "sha256" actual))
  end.
End Inventory.

(** ** The journal *)
Module DestructiveRestoreJournal.
Section Journal.
Context {env : RestoreEnv}.
Definition read : M (option dict) :=
  found ← look journal;
  match found with
  | None => mret None
  | Some value =>
      if py_eqb (default PNone (dict_get "version" value)) (PInt 1) then mret (Some value)
      else DestructiveRestoreError "restore journal has an unsupported format"
  end.
(** A new file that replaces the journal as a whole. *)
Definition write (value : dict) : M unit := change (with_journal (Some value)).
Definition clear : M unit := change (with_journal None).
End Journal.
End DestructiveRestoreJournal.

(** ** The exchange of the files *)
Record PreparedStorageRestore : Type := mkPrepared { restore_id : string; data_dir : string; file_reference_inventory : dict }.
Definition path_join (parent name : string) : string := if ends_with "/" parent then parent +:+ name else parent +:+ "/" +:+ name.
Definition previous_storage_name (id : string) : string := ".ppbase-storage-before-" +:+ id.
Definition previous_secret_name (id : string) : string := ".ppbase-secret-before-" +:+ id.
Definition work_root (dir : string) : string := path_join dir _RESTORE_ROOT.
Definition work_dir (dir id : string) : string := path_join (work_root dir) id.
Definition _journal_value (p : PreparedStorageRestore) (status : string) : dict :=
  [("version", PInt 1); ("restoreId", PStr (restore_id p)); ("dataDir", PStr (data_dir p)); ("workRoot", PStr (work_root (data_dir p)));
   ("workDir", PStr (work_dir (data_dir p) (restore_id p))); ("previousStorage", PStr (previous_storage_name (restore_id p)));
   ("previousSecret", PStr (previous_secret_name (restore_id p)));
   (_JOURNAL_FILE_REFERENCE_INVENTORY_KEY, PDict (file_reference_inventory p)); ("status", PStr status)].
Section Swap.
Context {env : RestoreEnv} (p : PreparedStorageRestore).
Definition previous_storage : string := previous_storage_name (restore_id p).
Definition previous_secret : string := previous_secret_name (restore_id p).
Definition verify_attached : M unit :=
  found ← look (fun w => staged w);
  match found with Some _ => mret tt | None => DestructiveRestoreError "restore target is detached" end.
Definition _rollback_with_fd : M unit :=
  _ ← put_back previous_storage "storage";
  _ ← put_back previous_secret ".jwt_secret";
  fsync.
Definition cleanup_work_dir : M unit := _ ← remove_work_dir; remove_work_root.
Definition rollback : M unit :=
  _ ← _rollback_with_fd;
  _ ← set (with_swapped false);
  _ ← DestructiveRestoreJournal.clear;
  cleanup_work_dir.
Definition mark_database_committed : M unit := DestructiveRestoreJournal.write (_journal_value p "database_committed").
Definition move_into_place : M unit :=
  exists_ ← _entry_exists "storage";
  _ ← (if (exists_ : bool) then mret tt else change (with_fs <["storage" := Dir []]>));
  secret_exists ← _entry_exists ".jwt_secret";
  _ ← (if (secret_exists : bool) then mret tt else DestructiveRestoreError "active JWT secret disappeared before restore cutover");
  _ ← DestructiveRestoreJournal.write (_journal_value p "swap_started");
  _ ← ignore ["FileNotFoundError"] (rename "storage" previous_storage);
  _ ← rename_staged "storage";
  _ ← ignore ["FileNotFoundError"] (rename ".jwt_secret" previous_secret);
  _ ← rename_staged ".jwt_secret";
  _ ← fsync;
  _ ← fsync;
  _ ← set (with_swapped true);
  DestructiveRestoreJournal.write (_journal_value p "files_swapped").
Definition activate : M unit :=
  _ ← verify_attached;
  catch move_into_place (fun error =>
    _ ← catch (_ ← _rollback_with_fd; _ ← set (with_swapped false); DestructiveRestoreJournal.clear)
          (fun _ => DestructiveRestoreError "restored files could not be activated or rolled back safely");
    stm_raise (Raised error)).
Definition swap_into_place : M unit :=
  w ← stm_get;
  if swapped (st w) then DestructiveRestoreError "restored files are already active" else activate.

(** ** The database *)
(** The marker that the restored database was committed with. *)
Definition read_database_restore_marker : M (option string) := look marker.
Definition clear_database_restore_marker (id : string) : M unit :=
  m ← read_database_restore_marker;
  if negb (bool_decide (m = Some id)) then DestructiveRestoreError "database restore marker changed during recovery finalization"
  else change (fun w => with_database (db w) None w).
Fixpoint all_open (t : tree) (references : list reference) : bool :=
  match references with
  | [] => true
  | r :: rs => match opens t r with Some true => all_open t rs | _ => false end
  end.
Definition _require_active_local_restore_files (references : list reference) : M unit :=
  storage ← look (fun w => fs w !! "storage");
  secret ← look (fun w => fs w !! ".jwt_secret");
  match storage, secret with
  | Some (Dir t), Some (Regular _) =>
      if all_open t references then mret tt else DestructiveRestoreError "restored database references a missing local file"
  | _, _ => DestructiveRestoreError "restored local storage or JWT secret is missing or unsafe"
  end.
Definition validate_committed_destructive_restore (expected_inventory : pyval) : M (list reference) :=
  match normalize_file_reference_inventory expected_inventory with
  | None => DestructiveRestoreError "restore journal has no valid local-file reference inventory"
  | Some normalized =>
      found ← look (fun w => references_of (db w));
      match found with
      | None => DestructiveRestoreError "restored database local-file references cannot be inspected"
      | Some references =>
          if negb (file_reference_inventory_matches (PDict normalized) references)
          then DestructiveRestoreError "restored local-file references differ from the backup inventory" else
          local ← look (fun w => match resolve settings_data_dir with Some d => uses_data_dir (db w) d | None => None end);
          if negb (default false local) then DestructiveRestoreError "restored durable storage configuration is not the active local data_dir" else
          _ ← _require_active_local_restore_files references;
          mret references
      end
  end.

(** ** The cutover of the service *)
(** A worker's result is awaited: a cancellation can arrive after its work. *)
Definition awaited (m : M unit) : M unit := _ ← m; look (fun _ => tt).
Definition _swap_prepared_storage_or_rollback : M unit :=
  catch (awaited swap_into_place) (fun error =>
    _ ← catch rollback (fun _ => stm_raise (Raised "_StorageSwapRollbackFailed"));
    stm_raise (Raised error)).
(** One transaction: the data and the marker; what it raised. *)
Definition restore_native_database (restored : database) : M (option string) :=
  catch (_ ← change (with_database restored (Some (restore_id p))); mret None) (fun error => mret (Some error)).
Definition finish_cutover (restored : database) : M unit :=
  _ ← set (with_must_remain true);
  _ ← catch _swap_prepared_storage_or_rollback (fun error =>
        if String.eqb error "_StorageSwapRollbackFailed" then stm_raise (Raised error)
        else (_ ← set (with_must_remain false); stm_raise (Raised error)));
  restore_error ← restore_native_database restored;
  m ← read_database_restore_marker;
  let database_committed := bool_decide (m = Some (restore_id p)) in
  _ ← (if database_committed then (_ ← validate_committed_destructive_restore (PDict (file_reference_inventory p)); mret tt) else mret tt);
  if negb database_committed then
    _ ← rollback;
    _ ← set (with_must_remain false);
    stm_raise (Raised (default "PostgresBackupError" restore_error))
  else mark_database_committed.
(** With the [finally] of the request, which never raises. *)
Definition destructive_cutover (restored : database) : M unit := fun w =>
  match finish_cutover restored w with
  | (Err Crashed, w') => (Err Crashed, w')
  | (r, w') =>
      if cutover_must_remain (st w') then (r, w')
      else match catch cleanup_work_dir (fun _ => mret tt) w' with
           | (Err e, w'') => (Err e, w'')
           | (Ok _, w'') => (r, w'')
           end
  end.
End Swap.

(** ** Recovery at start-up *)
Definition is_restore_id (s : string) : bool := (String.length s =? 32)%nat && hex_lower s.
Inductive outcome : Type := CommittedOutcome | RolledBack.
Section Recovery.
Context {env : RestoreEnv}.
Definition text_at (state : dict) (key : string) : string := py_str (default (PStr "") (dict_get key state)).
Definition raise_if (b : bool) (message : string) : M unit := if b then DestructiveRestoreError message else mret tt.
Definition status_of (state : dict) : M string :=
  match default PNone (dict_get "status" state) with
  | PStr s => if existsb (String.eqb s) _JOURNAL_STATUSES then mret s else DestructiveRestoreError "restore journal has an invalid status"
  | PList _ | PDict _ => stm_raise (Raised "TypeError")
  | _ => DestructiveRestoreError "restore journal has an invalid status"
  end.
Definition resolved (path : string) : M string := match resolve path with Some d => mret d | None => stm_raise FileNotFoundError end.
(** What a journal that was found says, once it is checked. *)
Definition checked_journal (state : dict) : M (string * string * bool) :=
  let id := text_at state "restoreId" in
  _ ← raise_if (negb (is_restore_id id)) "restore journal has an invalid restore ID";
  status ← status_of state;
  dir ← resolved (text_at state "dataDir");
  configured ← resolved settings_data_dir;
  _ ← raise_if (negb (String.eqb dir configured)) "restore journal targets another PPBase data_dir";
  _ ← raise_if (negb (String.eqb (text_at state "previousStorage") (previous_storage_name id)) ||
                negb (String.eqb (text_at state "previousSecret") (previous_secret_name id))) "restore journal file permutation is incomplete";
  _ ← raise_if (negb (String.eqb (text_at state "workRoot") (work_root dir)) || negb (String.eqb (text_at state "workDir") (work_dir dir id)))
        "restore journal working paths are invalid";
  m ← read_database_restore_marker;
  _ ← raise_if (negb (bool_decide (m = None)) && negb (bool_decide (m = Some id))) "restore journal and database marker identify different restores";
  mret (id, status, bool_decide (m = Some id)).
Definition commit_recovery (state : dict) (id status : string) (marked : bool) : M unit :=
  match normalize_file_reference_inventory (default PNone (dict_get _JOURNAL_FILE_REFERENCE_INVENTORY_KEY state)) with
  | None => DestructiveRestoreError "committed restore journal has no valid file-reference inventory"
  | Some expected =>
      _ ← validate_committed_destructive_restore (PDict expected);
      _ ← (if String.eqb status "finalizing" then mret tt else DestructiveRestoreJournal.write (dict_set "status" (PStr "finalizing") state));
      if marked then clear_database_restore_marker id else mret tt
  end.
Definition finish_recovery (state : dict) : M (string * outcome) :=
  checked ← checked_journal state;
  let '(id, status, marked) := checked in
  let committed := marked || String.eqb status "finalizing" in
  _ ← (if committed then commit_recovery state id status marked else mret tt);
  _ ← (if committed then (_ ← _remove_entry_at (previous_storage_name id); _remove_entry_at (previous_secret_name id))
       else (_ ← put_back (previous_storage_name id) "storage"; put_back (previous_secret_name id) ".jwt_secret"));
  _ ← fsync;
  _ ← remove_work_dir;
  _ ← remove_work_root;
  _ ← fsync;
  _ ← DestructiveRestoreJournal.clear;
  mret (id, if committed then CommittedOutcome else RolledBack).
Definition recover_interrupted_destructive_restore : M (option (string * outcome)) :=
  opened ← look (fun _ => root);
  match opened with
  | Absent | Unsafe =>
      m ← read_database_restore_marker;
      match m, opened with
      | None, Absent => mret None
      | Some _, _ => DestructiveRestoreError "database restore marker exists without its filesystem journal"
      | None, _ => DestructiveRestoreError "the PPBase data directory cannot be opened for restore recovery"
      end
  | Attached =>
      state ← DestructiveRestoreJournal.read;
      match state with
      | None =>
          m ← read_database_restore_marker;
          match m with
          | None => mret None
          | Some _ => DestructiveRestoreError "database restore marker exists without its filesystem journal"
          end
      | Some state => done_ ← finish_recovery state; mret (Some done_)
      end
  end.
End Recovery.
