(* ===== verification/RestoreSafety.v ===== *)
(** * A destructive restore is all or nothing

    Triples for the steps of [RestoreCutover], with what is left when one of them
    fails; the states of the old and of the new database through which the
    cutover, the rollback and the recovery of start-up move; and that a start-up
    in which nothing fails ends. *)
From Stdlib Require Import Ascii String.
From S2P Require Import Prelude PyText PyVal Steps RestoreCutover.
From S2P Require CopyFormat.
#[local] Open Scope string_scope.
#[local] Open Scope list_scope.

Section Removal.
Context {env : RestoreEnv}.
#[local] Abbreviation left_in R := (fun (_ : failure) => R).
Lemma remove_entry_spec name (R : state -> Prop) :
  (forall s path, R s -> R (with_fs (unlink_in name path) s)) -> (forall s, R s -> R (with_fs (delete name) s)) ->
  triple R (_remove_entry_at name) (fun _ s => R s /\ fs s !! name = None) (left_in R).
Proof.
  intros Hu Hd.
  assert (Hdel : triple R (change (with_fs (delete name))) (fun _ s => R s /\ fs s !! name = None) (left_in R)).
  { apply triple_change. intros s HR. repeat split; auto. cbn. apply lookup_delete_eq. }
  eapply triple_bind; [by apply triple_look|]. intros [[files|c| |]|].
  - apply (triple_pre R); [by intros s [_ HR]|]. eapply triple_bind; [|intros []; exact Hdel].
    apply triple_iter. intros kv. apply stays_change. intros s. apply Hu.
  - apply (triple_pre R); [by intros s [_ HR]|exact Hdel].
  - apply triple_raise. by intros s [_ HR].
  - apply triple_raise. by intros s [_ HR].
  - intros w [E HR]. by split.
Qed.
Lemma remove_work_dir_spec (R : state -> Prop) : (forall s f, R s -> R (with_staged f s)) -> triple R remove_work_dir (fun _ => R) (left_in R).
Proof.
  intros Hs. eapply triple_bind; [by apply triple_look|]. intros [names|].
  - apply (triple_pre R); [by intros s [_ HR]|]. eapply triple_bind.
    + apply triple_iter. intros n. apply stays_change. intros s. apply Hs.
    + intros []. apply stays_change. intros s. apply Hs.
  - by intros w [_ HR].
Qed.
Lemma remove_work_root_spec (R : state -> Prop) : (forall s b, R s -> R (with_work_root b s)) -> triple R remove_work_root (fun _ => R) (left_in R).
Proof.
  intros Hs. apply triple_ignore; [|done]. apply triple_act. intros s HR. destruct (staged s); cbn; auto 10.
Qed.
Lemma calm_remove_entry name (P : state -> Prop) : (forall s, P s -> match fs s !! name with None | Some (Dir _) | Some (Regular _) => True | _ => False end) ->
  calm P (_remove_entry_at name).
Proof.
  intros HP. apply calm_look_bind. intros [[files|c| |]|].
  - eapply calm_bind; [|apply triple_true|intros []; apply calm_change]. apply (calm_pre (fun _ => True)); [done|].
    apply calm_iter; [intros x; apply calm_change|intros x; apply triple_true].
  - apply calm_change.
  - intros s [E Hs]. specialize (HP s Hs). by rewrite <- E in HP.
  - intros s [E Hs]. specialize (HP s Hs). by rewrite <- E in HP.
  - apply calm_ret.
Qed.
Lemma calm_remove_work_dir P : calm P remove_work_dir.
Proof.
  apply calm_look_bind. intros [names|]; [|apply calm_ret]. eapply calm_bind; [|apply triple_true|intros []; apply calm_change].
  apply (calm_pre (fun _ => True)); [done|]. apply calm_iter; [intros x; apply calm_change|intros x; apply triple_true].
Qed.
Lemma calm_remove_work_root P : calm P remove_work_root.
Proof.
  intros s _. unfold remove_work_root, ignore, catch, act. cbn. destruct (staged s); cbn; eauto.
Qed.
End Removal.

(** ** Steps that leave the flag of the request *)
Section Flag.
Context {env : RestoreEnv}.
Definition steady {A} (m : M A) : Prop := forall w, cutover_must_remain (st (m w).2) = cutover_must_remain (st w).
Lemma steady_ret {A} (a : A) : steady (mret a). Proof. done. Qed.
Lemma steady_raise {A} e : steady (stm_raise e : M A). Proof. done. Qed.
Lemma steady_bind {A B} (m : M A) (f : A -> M B) : steady m -> (forall a, steady (f a)) -> steady (m ≫= f).
Proof. intros Hm Hf w. specialize (Hm w). unfold mbind, stm_bind. destruct (m w) as [[a|e] w']; cbn in *; [by rewrite Hf|done]. Qed.
Lemma steady_act {A} (f : state -> result failure A * state) : (forall s, cutover_must_remain (f s).2 = cutover_must_remain s) -> steady (act f).
Proof. intros Hf [s l]. specialize (Hf s). unfold act. cbn. destruct l as [|[] l]; cbn; destruct (f s); done. Qed.
Lemma steady_set f : (forall s, cutover_must_remain (f s) = cutover_must_remain s) -> steady (set f).
Proof. intros Hf w. apply Hf. Qed.
Lemma steady_catch {A} (m : M A) h : steady m -> (forall k, steady (h k)) -> steady (catch m h).
Proof. intros Hm Hh w. specialize (Hm w). unfold catch. destruct (m w) as [[a|[|k]] w']; cbn in *; [done|done|by rewrite Hh]. Qed.
Lemma steady_iter {A} (f : A -> M unit) l : (forall x, steady (f x)) -> steady (stm_iter f l).
Proof. intros Hf. induction l as [|x l IH]; [done|]. cbn. by apply steady_bind. Qed.
Lemma steady_get {A} (f : world state -> M A) : (forall w, steady (f w)) -> steady (stm_get ≫= f).
Proof. intros Hf w. exact (Hf w w). Qed.
Lemma triple_steady {A} (P : state -> Prop) (m : M A) Q X b : steady m -> triple P m Q X ->
  triple (fun s => P s /\ cutover_must_remain s = b) m (fun a s => Q a s /\ cutover_must_remain s = b) (fun e s => X e s /\ cutover_must_remain s = b).
Proof.
  intros Hs Hm w [HP Hb]. specialize (Hs w). specialize (Hm w HP). unfold post in *. destruct (m w) as [[a|e] w']; cbn in *; (split; [done|congruence]).
Qed.
End Flag.
Create HintDb steady.
Ltac steady_step :=
  match goal with
  | |- steady (mbind _ stm_get) => apply steady_get; intros ?
  | |- steady (mbind _ _) => apply steady_bind; [|intros ?]
  | |- steady (mret _) => apply steady_ret
  | |- steady (stm_raise _) => apply steady_raise
  | |- steady (DestructiveRestoreError _) => apply steady_raise
  | |- steady (catch _ _) => apply steady_catch; [|intros ?]
  | |- steady (ignore _ _) => apply steady_catch; [|intros ?]
  | |- steady (stm_iter _ _) => apply steady_iter; intros ?
  | |- steady (set _) => apply steady_set; done
  | |- steady (look _) => apply steady_act; done
  | |- steady (change _) => apply steady_act; done
  | |- steady (act _) => apply steady_act; intros ?; cbv beta; repeat case_match; done
  | |- steady (match _ with _ => _ end) => case_match
  | _ => solve [eauto with steady]
  end.
Ltac steady := repeat steady_step.

(** ** Either the old files or the new ones *)
Section Safety.
Context {env : RestoreEnv} (p : PreparedStorageRestore) (d0 d1 : database) (old_files new_files : tree) (old_secret new_secret : string).
Abbreviation left_in R := (fun (_ : failure) => R).
Abbreviation PS := (previous_storage p).
Abbreviation PK := (previous_secret p).
Definition removable (o : option entry) : Prop := match o with None | Some (Dir _) | Some (Regular _) => True | _ => False end.
(** An entry that is in its place, or that can be put back. *)
Definition back (previous name : string) (e : entry) (m : gmap string entry) : Prop :=
  (m !! previous = Some e /\ removable (m !! name)) \/ (m !! previous = None /\ m !! name = Some e).
Definition back_all (m : gmap string entry) : Prop := back PS "storage" (Dir old_files) m /\ back PK ".jwt_secret" (Regular old_secret) m.
Definition uncommitted (j : dict) : Prop := exists status, j = _journal_value p status /\ (status = "swap_started" \/ status = "files_swapped").
(** The old database, and the way back to its files. *)
Definition old_state (s : state) : Prop :=
  db s = d0 /\ marker s = None /\ back_all (fs s) /\
  match journal s with
  | None => fs s !! PS = None /\ fs s !! PK = None
  | Some j => uncommitted j
  end.
(** The new database with its files. *)
Definition new_state (s : state) : Prop :=
  db s = d1 /\ fs s !! "storage" = Some (Dir new_files) /\ fs s !! ".jwt_secret" = Some (Regular new_secret) /\
  removable (fs s !! PS) /\ removable (fs s !! PK) /\
  match journal s with
  | None => marker s = None /\ fs s !! PS = None /\ fs s !! PK = None
  | Some j => exists status, j = _journal_value p status /\ In status _JOURNAL_STATUSES /\
                (marker s = Some (restore_id p) \/ marker s = None /\ status = "finalizing")
  end.
Definition settled_old (s : state) : Prop := old_state s /\ journal s = None.
Definition settled_new (s : state) : Prop := new_state s /\ journal s = None.

Lemma names_apart : PS <> PK /\ PS <> "storage" /\ PS <> ".jwt_secret" /\ PK <> "storage" /\ PK <> ".jwt_secret" /\ "storage" <> ".jwt_secret".
Proof. by repeat split. Qed.
Definition is_pair (previous name : string) (e : entry) : Prop :=
  (previous, name, e) = (PS, "storage", Dir old_files) \/ (previous, name, e) = (PK, ".jwt_secret", Regular old_secret).
Lemma back_ext previous name e m m' : m' !! previous = m !! previous -> m' !! name = m !! name -> back previous name e m -> back previous name e m'.
Proof. unfold back. by intros -> ->. Qed.
(** A change of one entry and of its copy. *)
Lemma back_all_touch previous name e m m' : is_pair previous name e -> back_all m ->
  (forall x, x <> previous -> x <> name -> m' !! x = m !! x) -> back previous name e m' -> back_all m'.
Proof.
  pose proof names_apart as (H1 & H2 & H3 & H4 & H5 & H6).
  intros [[= -> -> ->]|[= -> -> ->]] [Hs Hk] Hx Hb; (split; [try exact Hb|try exact Hb]).
  - eapply back_ext; [| |exact Hk]; apply Hx; congruence.
  - eapply back_ext; [| |exact Hs]; apply Hx; congruence.
Qed.
Lemma back_pair previous name e m : is_pair previous name e -> back_all m -> back previous name e m /\ previous <> name.
Proof. intros [[= -> -> ->]|[= -> -> ->]] [Hs Hk]; (split; [done|by intros E]). Qed.
Lemma unlink_ne name path m x : x <> name -> unlink_in name path m !! x = m !! x.
Proof. intros Hx. unfold unlink_in. destruct (m !! name) as [[t| | |]|]; cbv iota; try done. by apply lookup_insert_ne. Qed.
Lemma unlink_removable name path m : removable (m !! name) -> removable (unlink_in name path m !! name).
Proof.
  intros Hr. unfold unlink_in. destruct (m !! name) as [[t| | |]|] eqn:E; cbv iota; rewrite ?E; try done. by rewrite lookup_insert_eq.
Qed.
(** While the copy is kept, its place can be changed. *)
Definition held (previous name : string) (e : entry) (R : state -> Prop) (s : state) : Prop :=
  (old_state s /\ R s) /\ fs s !! previous = Some e /\ journal s <> None.
Definition local (previous name : string) (R : state -> Prop) : Prop :=
  forall s g, R s -> (forall x, x <> previous -> x <> name -> g (fs s) !! x = fs s !! x) -> R (with_fs g s).
Lemma pair_apart previous name e : is_pair previous name e -> previous <> name.
Proof. by intros [[= -> -> _]|[= -> -> _]] E. Qed.
Lemma held_touch previous name e R s g : is_pair previous name e -> local previous name R -> held previous name e R s ->
  (forall x, x <> previous -> x <> name -> g (fs s) !! x = fs s !! x) ->
  g (fs s) !! previous = Some e -> removable (g (fs s) !! name) -> held previous name e R (with_fs g s).
Proof.
  intros Hp HR [[(Hd & Hm & Hb & Hj) HRs] [He Hjn]] Hx Hpr Hn. split; [|by split]. split; [|by apply HR]. split; [done|]. split; [done|].
  split; [eapply back_all_touch; [exact Hp|exact Hb|exact Hx|]; by left|]. cbn. by destruct (journal s).
Qed.
Lemma held_removable previous name e R s : is_pair previous name e -> held previous name e R s -> removable (fs s !! name).
Proof.
  intros Hp [[(_ & _ & Hb & _) _] [He _]]. destruct (back_pair _ _ _ _ Hp Hb) as [[[_ Hr]|[E _]] _]; [done|congruence].
Qed.
Lemma held_found previous name e R s : is_pair previous name e ->
  true = match fs s !! previous with Some _ => true | None => false end /\ old_state s /\ R s -> held previous name e R s.
Proof.
  intros Hp [Ex [Ho HRs]]. split; [done|]. destruct Ho as (_ & _ & Hb & Hj). destruct (back_pair _ _ _ _ Hp Hb) as [[[E _]|[E _]] _]; rewrite E in Ex; [|done].
  split; [done|]. intros Ej. rewrite Ej in Hj. destruct Hj as [Hj1 Hj2]. destruct Hp as [[= -> -> ->]|[= -> -> ->]]; congruence.
Qed.
Lemma remove_held previous name e R : is_pair previous name e -> local previous name R ->
  triple (held previous name e R) (_remove_entry_at name) (fun _ s => held previous name e R s /\ fs s !! name = None) (left_in (held previous name e R)).
Proof.
  intros Hp HR. pose proof (pair_apart _ _ _ Hp) as Hne. apply remove_entry_spec.
  - intros s path Hs. apply held_touch; [done|done|done|..].
    + intros x _ Hx. by apply unlink_ne.
    + destruct Hs as [_ [He _]]. by rewrite unlink_ne.
    + by eapply unlink_removable, held_removable.
  - intros s Hs. apply held_touch; [done|done|done|..].
    + intros x _ Hx. by rewrite lookup_delete_ne.
    + destruct Hs as [_ [He _]]. by rewrite lookup_delete_ne.
    + by rewrite lookup_delete_eq.
Qed.
(** [put_back] in any state of the old database. *)
Lemma put_back_spec previous name e (R : state -> Prop) : is_pair previous name e -> local previous name R ->
  triple (fun s => old_state s /\ R s) (put_back previous name) (fun _ s => (old_state s /\ R s) /\ fs s !! previous = None)
         (left_in (fun s => old_state s /\ R s)).
Proof.
  intros Hp HR. pose proof (pair_apart _ _ _ Hp) as Hne. eapply triple_bind; [by apply triple_look|]. intros [|].
  2: { intros w [E [Ho HRs]]. split; [by split|]. by destruct (fs (st w) !! previous). }
  apply (triple_pre (held previous name e R)); [intros s; by apply held_found|].
  eapply triple_bind; [eapply triple_conseq; [by apply (remove_held previous name e R)|done|done|by intros ? s [Hs _]]|].
  intros []. unfold rename. apply triple_act. intros s [Hs Hn].
  pose proof Hs as [[Ho HRs] [He Hj]]. rewrite He, Hn. assert (Hr : replaceable e None = true) by (by destruct e). rewrite Hr. cbn [snd].
  assert (Hafter : old_state (with_fs (fun m => <[name := e]> (delete previous m)) s) /\ R (with_fs (fun m => <[name := e]> (delete previous m)) s)).
  { split; [|apply HR; [done|]; intros x Hx1 Hx2; cbv beta; by rewrite lookup_insert_ne, lookup_delete_ne].
    destruct Ho as (Hd & Hm & Hb & Hjj). split; [done|]. split; [done|]. split.
    - eapply back_all_touch; [exact Hp|exact Hb| |].
      + intros x Hx1 Hx2. cbn [fs with_fs]. by rewrite lookup_insert_ne, lookup_delete_ne.
      + right. cbn [fs with_fs]. by rewrite lookup_insert_ne, lookup_delete_eq, lookup_insert_eq.
    - cbn. by destruct (journal s). }
  split; [done|]. split; [done|]. split; [done|]. split; [done|]. cbn. by rewrite lookup_insert_ne, lookup_delete_eq.
Qed.
Lemma calm_put_back previous name e : is_pair previous name e -> calm old_state (put_back previous name).
Proof.
  intros Hp. apply calm_look_bind. intros [|]; [|apply calm_ret].
  assert (HR : local previous name (fun _ => True)) by done.
  apply (calm_pre (held previous name e (fun _ => True))); [intros s [E Hs]; by apply held_found|].
  eapply calm_bind; [apply calm_remove_entry; intros s; by apply (held_removable previous name e)|by apply remove_held|].
  intros []. apply calm_act. intros s [[_ [He _]] Hn]. rewrite He, Hn. exists tt. by destruct e.
Qed.
Definition gone (previous : string) (s : state) : Prop := fs s !! previous = None.
Lemma put_back_both : triple old_state (_ ← put_back PS "storage"; put_back PK ".jwt_secret")
  (fun _ s => old_state s /\ gone PS s /\ gone PK s) (left_in old_state).
Proof.
  eapply triple_bind.
  - eapply triple_conseq; [apply (put_back_spec PS "storage" (Dir old_files) (fun _ => True)); [by left|done]|done| |]; [|by intros ? s [Hs _]].
    intros ? s [[Hs _] HP]. exact (conj Hs HP).
  - intros []. eapply triple_conseq; [apply (put_back_spec PK ".jwt_secret" (Regular old_secret) (gone PS)); [by right|]|done| |].
    + intros s g Hg Hx. unfold gone in *. cbn. by rewrite Hx.
    + intros ? s [[Hs Hg] HP]. exact (conj Hs (conj Hg HP)).
    + by intros ? s [Hs _].
Qed.
Lemma rollback_with_fd_spec : triple old_state (_rollback_with_fd p) (fun _ s => old_state s /\ gone PS s /\ gone PK s) (left_in old_state).
Proof.
  assert (E : triple old_state (_ ← (_ ← put_back PS "storage"; put_back PK ".jwt_secret"); fsync) (fun _ s => old_state s /\ gone PS s /\ gone PK s) (left_in old_state)).
  { eapply triple_bind; [apply put_back_both|]. intros [].
    eapply triple_conseq; [apply (triple_look (fun s => old_state s /\ gone PS s /\ gone PK s) _ (left_in old_state)); naive_solver|done|by intros ? s [_ Hs]|done]. }
  intros w Hw. specialize (E w Hw). unfold post, _rollback_with_fd, mbind, stm_bind in *.
  destruct (put_back _ _ w) as [[[]|e] w1]; [|exact E]. destruct (put_back _ _ w1) as [[[]|e] w2]; exact E.
Qed.
Lemma settle_old s : old_state s -> gone PS s -> gone PK s -> settled_old (with_journal None s).
Proof. intros (Hd & Hm & Hb & _) H1 H2. by repeat split; try apply Hb. Qed.
Lemma clear_old : triple (fun s => old_state s /\ gone PS s /\ gone PK s) DestructiveRestoreJournal.clear (fun _ => settled_old) (left_in old_state).
Proof.
  apply triple_change. intros s (Hs & H1 & H2). pose proof (settle_old s Hs H1 H2) as Hn. split; [done|]. split; [done|]. split; [apply Hn|done].
Qed.
Lemma restore_cleanup_spec (R : state -> Prop) : (forall s f, R s -> R (with_staged f s)) -> (forall s b, R s -> R (with_work_root b s)) ->
  triple R cleanup_work_dir (fun _ => R) (left_in R).
Proof.
  intros Hs Hw. eapply triple_bind; [by apply remove_work_dir_spec|]. intros []. by apply remove_work_root_spec.
Qed.
Lemma restore_rollback_spec : triple old_state (rollback p) (fun _ => settled_old) (left_in old_state).
Proof.
  eapply triple_bind; [apply rollback_with_fd_spec|]. intros [].
  eapply triple_bind; [apply (triple_set _ _ (fun s => old_state s /\ gone PS s /\ gone PK s)); done|]. intros [].
  eapply triple_bind; [apply clear_old|]. intros [].
  eapply triple_conseq; [apply (restore_cleanup_spec settled_old); done|done|done|]. by intros ? s [Hs _].
Qed.

(** ** The exchange *)
(** Where the old and the new files are. *)
Definition at_ (storage secret previous previous_s : option entry) (j : option dict) (staged_storage staged_secret : option entry) (s : state) : Prop :=
  fs s !! "storage" = storage /\ fs s !! ".jwt_secret" = secret /\ fs s !! PS = previous /\ fs s !! PK = previous_s /\
  journal s = j /\ (exists m, staged s = Some m /\ m !! "storage" = staged_storage /\ m !! ".jwt_secret" = staged_secret) /\
  db s = d0 /\ marker s = None.
Abbreviation oldS := (Some (Dir old_files)).
Abbreviation oldK := (Some (Regular old_secret)).
Abbreviation newS := (Some (Dir new_files)).
Abbreviation newK := (Some (Regular new_secret)).
Abbreviation started := (Some (_journal_value p "swap_started")).
Lemma at_old S K s1 s2 j ss sk s : at_ S K s1 s2 j ss sk s ->
  (s1 = oldS /\ removable S \/ s1 = None /\ S = oldS) -> (s2 = oldK /\ removable K \/ s2 = None /\ K = oldK) ->
  match j with None => s1 = None /\ s2 = None | Some j => uncommitted j end -> old_state s.
Proof.
  intros (E1 & E2 & E3 & E4 & E5 & _ & E6 & E7) H1 H2 Hj. split; [done|]. split; [done|]. split.
  - split; unfold back; rewrite ?E1, ?E2, ?E3, ?E4; done.
  - rewrite E5. destruct j; [done|]. by rewrite E3, E4.
Qed.
Lemma started_uncommitted : uncommitted (_journal_value p "swap_started").
Proof. exists "swap_started". split; [done|by left]. Qed.
Lemma swapped_uncommitted : uncommitted (_journal_value p "files_swapped").
Proof. exists "files_swapped". split; [done|by right]. Qed.
#[local] Hint Resolve started_uncommitted swapped_uncommitted : core.
(** A step between two of these states, each of the old database. *)
Lemma step_at P Q (f : state -> state) : (forall s, P s -> old_state s) -> (forall s, Q s -> old_state s) -> (forall s, P s -> Q (f s)) ->
  triple P (act (fun s => (Ok tt, f s))) (fun _ => Q) (left_in old_state).
Proof. intros HP HQ Hf. apply triple_act. intros s Hs. cbn. split; [by apply HP|]. split; [by apply HP|]. split; [by apply HQ, Hf|by apply Hf]. Qed.
Lemma act_ext {A} (P : state -> Prop) (f g : state -> result failure A * state) Q X :
  (forall s, P s -> f s = g s) -> triple P (act g) Q X -> triple P (act f) Q X.
Proof.
  intros He Hg [s l] HP. specialize (Hg (mkWorld s l) HP). unfold post, act in *. cbn in *. rewrite (He s HP). exact Hg.
Qed.
Ltac lookups := cbn [fs with_fs with_staged with_journal staged journal db marker]; rewrite ?lookup_insert_eq, ?lookup_insert_ne, ?lookup_delete_eq, ?lookup_delete_ne by done.
Ltac at_old_state := let s := fresh in let Hs := fresh in
  intros s Hs; apply (at_old _ _ _ _ _ _ _ s Hs); [by (left + right)|by (left + right)|cbn; auto].
Ltac at_next := intros ? (?E1 & ?E2 & ?E3 & ?E4 & ?E5 & (?m & ?Em & ?Es & ?Ek) & ?E7 & ?E8); unfold at_; lookups; rewrite ?Em; cbn [unstage];
  repeat (split; [done|]); split; [eexists; split; [reflexivity|]; split; lookups; done|done].
Lemma move_storage_away : triple (at_ oldS oldK None None started newS newK) (rename "storage" PS)
  (fun _ => at_ None oldK oldS None started newS newK) (left_in old_state).
Proof.
  eapply act_ext; [|apply (step_at _ _ (with_fs (fun m => <[PS := Dir old_files]> (delete "storage" m))))]; [|at_old_state..|at_next].
  intros s (E1 & _ & E3 & _). by rewrite E1, E3.
Qed.
Lemma move_storage_in : triple (at_ None oldK oldS None started newS newK) (rename_staged "storage")
  (fun _ => at_ newS oldK oldS None started None newK) (left_in old_state).
Proof.
  eapply act_ext; [|apply (step_at _ _ (fun s => with_staged (unstage "storage") (with_fs <["storage" := Dir new_files]> s)))]; [|at_old_state..|at_next].
  intros s (E1 & _ & E3 & _ & _ & (m & Em & Es & _) & _). by rewrite Em, Es, E1.
Qed.
Lemma move_secret_away : triple (at_ newS oldK oldS None started None newK) (rename ".jwt_secret" PK)
  (fun _ => at_ newS None oldS oldK started None newK) (left_in old_state).
Proof.
  eapply act_ext; [|apply (step_at _ _ (with_fs (fun m => <[PK := Regular old_secret]> (delete ".jwt_secret" m))))]; [|at_old_state..|at_next].
  intros s (_ & E2 & _ & E4 & _). by rewrite E2, E4.
Qed.
Lemma move_secret_in : triple (at_ newS None oldS oldK started None newK) (rename_staged ".jwt_secret")
  (fun _ => at_ newS newK oldS oldK started None None) (left_in old_state).
Proof.
  eapply act_ext; [|apply (step_at _ _ (fun s => with_staged (unstage ".jwt_secret") (with_fs <[".jwt_secret" := Regular new_secret]> s)))]; [|at_old_state..|at_next].
  intros s (_ & E2 & _ & _ & _ & (m & Em & _ & Ek) & _). by rewrite Em, Ek, E2.
Qed.
(** The entries are there: nothing is ignored. *)
Lemma rename_found a b P Q : triple P (rename a b) (fun _ => Q) (left_in old_state) -> (forall s, P s -> fs s !! a <> None) ->
  triple P (ignore ["FileNotFoundError"] (rename a b)) (fun _ => Q) (left_in old_state).
Proof.
  intros Hr Hf. apply (triple_catch _ _ _ _ _ (fun e s => old_state s /\ e <> FileNotFoundError)); [|by intros s [Hs _]|].
  - intros [s l] HP. specialize (Hr (mkWorld s l) HP). specialize (Hf s HP). unfold post, rename, act in *. cbn in *.
    destruct (fs s !! a) as [e|]; [|done]. destruct (replaceable e (fs s !! b)); destruct l as [|[] l]; cbn in *; done.
  - intros k. cbn. destruct (String.eqb_spec k "FileNotFoundError") as [->|]; cbn.
    + intros w [_ Hk]. by destruct Hk.
    + apply triple_raise. by intros s [Hs _].
Qed.
Definition exchanged (status : string) : state -> Prop := at_ newS newK oldS oldK (Some (_journal_value p status)) None None.
Lemma exchanged_old s : exchanged "files_swapped" s -> old_state s.
Proof. revert s. at_old_state. Qed.
Lemma move_into_place_spec : triple (at_ oldS oldK None None None newS newK) (move_into_place p)
  (fun _ => exchanged "files_swapped") (left_in old_state).
Proof.
  set (A0 := at_ oldS oldK None None None newS newK). assert (H0 : forall s, A0 s -> old_state s) by at_old_state.
  unfold move_into_place. eapply triple_bind; [apply (triple_look A0); naive_solver|]. intros b.
  apply (triple_bind _ _ _ (fun _ => A0)).
  { intros w [-> HA]. pose proof HA as (E & _). rewrite E. exact HA. }
  intros []. eapply triple_bind; [apply (triple_look A0); naive_solver|]. intros b'.
  apply (triple_bind _ _ _ (fun _ => A0)).
  { intros w [-> HA]. pose proof HA as (_ & E & _). rewrite E. exact HA. }
  intros []. apply (triple_bind _ _ _ (fun _ => at_ oldS oldK None None started newS newK)).
  { apply step_at; [done|at_old_state|at_next]. }
  intros []. eapply triple_bind; [apply rename_found; [apply move_storage_away|by intros s (-> & _)]|].
  intros []. eapply triple_bind; [apply move_storage_in|].
  intros []. eapply triple_bind; [apply rename_found; [apply move_secret_away|by intros s (_ & -> & _)]|].
  intros []. eapply triple_bind; [apply move_secret_in|].
  assert (H5 : forall s, exchanged "swap_started" s -> old_state s) by at_old_state.
  intros []. eapply triple_bind; [apply (triple_look (exchanged "swap_started")); naive_solver|].
  intros ?. eapply triple_bind; [apply (triple_pre (exchanged "swap_started")); [by intros s [_ Hs]|]; apply triple_look; naive_solver|].
  intros ?. eapply triple_bind; [apply (triple_set _ _ (exchanged "swap_started")); intros s [_ Hs]; exact Hs|].
  intros []. apply step_at; [exact H5|at_old_state|unfold exchanged; at_next].
Qed.

Lemma swap_spec : triple (at_ oldS oldK None None None newS newK) (swap_into_place p) (fun _ => exchanged "files_swapped") (left_in old_state).
Proof.
  set (A0 := at_ oldS oldK None None None newS newK). assert (H0 : forall s, A0 s -> old_state s) by at_old_state.
  assert (Ha : triple A0 (activate p) (fun _ => exchanged "files_swapped") (left_in old_state)).
  2: { intros w HA. change (post (if swapped (st w) then DestructiveRestoreError "restored files are already active" else activate p) w
         (fun _ w' => exchanged "files_swapped" (st w')) (fun _ w' => old_state (st w'))).
       destruct (swapped (st w)); [by apply H0|by apply Ha]. }
  apply (triple_bind _ _ _ (fun _ => A0)).
  { eapply triple_bind; [apply (triple_look A0); naive_solver|]. intros [m|]; [by intros w [_ HA]|].
    apply triple_raise. intros s [_ HA]. by apply H0. }
  intros []. eapply triple_catch; [apply move_into_place_spec|done|]. intros error.
  apply (triple_bind _ _ _ (fun _ => old_state)); [|intros []; by apply triple_raise].
  apply (triple_catch _ _ _ _ _ (left_in old_state)); [|done|intros k; by apply triple_raise].
  eapply triple_bind; [apply rollback_with_fd_spec|]. intros [].
  eapply triple_bind; [apply (triple_set _ _ (fun s => old_state s /\ gone PS s /\ gone PK s)); done|]. intros [].
  eapply triple_conseq; [apply clear_old|done| |done]. by intros ? s [Hs _].
Qed.
(** A failure that is not the one of the rollback has put everything back. *)
Lemma swap_or_rollback_spec : triple (at_ oldS oldK None None None newS newK) (_swap_prepared_storage_or_rollback p)
  (fun _ => exchanged "files_swapped")
  (fun e s => old_state s /\ (e <> Crashed -> e <> Raised "_StorageSwapRollbackFailed" -> settled_old s)).
Proof.
  apply (triple_catch _ _ _ _ _ (left_in old_state)); [|by split|intros error].
  { eapply triple_bind; [apply swap_spec|]. intros []. apply triple_act. intros s Hs. cbn. split; [|split; [|split]]; try done; by apply exchanged_old. }
  apply (triple_bind _ _ _ (fun _ => settled_old)); [|intros []; apply triple_raise; intros s Hs; split; [apply Hs|done]].
  eapply triple_catch; [apply restore_rollback_spec|by split|]. intros k. apply triple_raise. intros s Hs. split; [done|]. by intros _ [].
Qed.

(** ** The database *)
Lemma check_spec (R : state -> Prop) (b : bool) message (m : M unit) (Q : unit -> state -> Prop) : triple R m Q (left_in R) ->
  triple R (if b then DestructiveRestoreError message else m) Q (left_in R).
Proof. intros Hm. destruct b; [by apply triple_raise|done]. Qed.
(** Validation only reads. *)
Lemma files_spec (R : state -> Prop) refs : triple R (_require_active_local_restore_files refs) (fun _ => R) (left_in R).
Proof.
  apply look_spec. intros storage. apply (triple_pre R); [by intros s [_ HR]|]. apply look_spec. intros secret. apply (triple_pre R); [by intros s [_ HR]|].
  destruct storage as [[t| | |]|]; try by apply triple_raise. destruct secret as [[|c| |]|]; try by apply triple_raise.
  destruct (all_open t refs); [by intros w HR|by apply triple_raise].
Qed.
Lemma validate_spec (R : state -> Prop) inventory : triple R (validate_committed_destructive_restore inventory) (fun _ => R) (left_in R).
Proof.
  unfold validate_committed_destructive_restore. destruct (normalize_file_reference_inventory inventory) as [n|]; [|by apply triple_raise].
  apply look_spec. intros [refs|]; [|by apply triple_raise; intros s [_ HR]]. apply (triple_pre R); [by intros s [_ HR]|].
  destruct (negb (file_reference_inventory_matches _ refs)); [by apply triple_raise|].
  apply look_spec. intros local. apply (triple_pre R); [by intros s [_ HR]|]. destruct (negb (default false local)); [by apply triple_raise|].
  eapply triple_bind; [apply files_spec|]. intros []. by intros w HR.
Qed.

(** ** The cutover *)
Definition either (s : state) : Prop := old_state s \/ new_state s.
Lemma exchanged_new s : exchanged "files_swapped" s -> new_state (with_database d1 (Some (restore_id p)) s).
Proof.
  intros (E1 & E2 & E3 & E4 & E5 & _). unfold new_state. cbn [db fs journal marker with_database]. rewrite E1, E2, E3, E4, E5. repeat (split; [done|]).
  exists "files_swapped". split; [done|]. split; [cbn; auto|by left].
Qed.
Lemma new_with_journal s status : new_state s -> In status _JOURNAL_STATUSES -> marker s = Some (restore_id p) \/ marker s = None /\ status = "finalizing" ->
  new_state (with_journal (Some (_journal_value p status)) s).
Proof. intros (H1 & H2 & H3 & H4 & H5 & _) Hin Hm. repeat (split; [done|]). by exists status. Qed.
Lemma restore_database_spec : triple (exchanged "files_swapped") (restore_native_database p d1)
  (fun _ s => exchanged "files_swapped" s \/ new_state s /\ marker s = Some (restore_id p)) (left_in either).
Proof.
  set (Q := fun s => exchanged "files_swapped" s \/ new_state s /\ marker s = Some (restore_id p)).
  assert (HQ : forall s, Q s -> either s) by (intros s [Hs|[Hs _]]; [left; by apply exchanged_old|by right]).
  apply (triple_catch _ _ _ _ _ (left_in Q)); [|intros s; apply HQ|by intros k w].
  apply (triple_bind _ _ _ (fun _ => Q)); [|by intros [] w].
  apply triple_change. intros s Hs. assert (Q s) by by left. assert (Q (with_database d1 (Some (restore_id p)) s)) by (right; split; [by apply exchanged_new|done]). done.
Qed.
Lemma steady_remove name : steady (_remove_entry_at name).
Proof. unfold _remove_entry_at, rmtree. steady. Qed.
#[local] Hint Resolve steady_remove : steady.
Lemma steady_put_back a b : steady (put_back a b).
Proof. unfold put_back, _entry_exists, rename. steady. Qed.
#[local] Hint Resolve steady_put_back : steady.
Lemma steady_rollback_with_fd : steady (_rollback_with_fd p).
Proof. unfold _rollback_with_fd, fsync. steady. Qed.
Lemma steady_cleanup : steady cleanup_work_dir.
Proof. unfold cleanup_work_dir, remove_work_dir, remove_work_root. steady. Qed.
#[local] Hint Resolve steady_rollback_with_fd steady_cleanup : steady.
Lemma steady_rollback : steady (rollback p).
Proof. unfold rollback, DestructiveRestoreJournal.clear. steady. Qed.
#[local] Hint Resolve steady_rollback : steady.
Lemma steady_swap : steady (_swap_prepared_storage_or_rollback p).
Proof.
  unfold _swap_prepared_storage_or_rollback, awaited, swap_into_place, activate, verify_attached, move_into_place, _entry_exists, rename_staged, rename,
    DestructiveRestoreJournal.write, DestructiveRestoreJournal.clear, fsync.
  steady.
Qed.

(** Dead, or still fenced, or put back. *)
Definition left_by (e : failure) (s : state) : Prop := either s /\ (e <> Crashed -> cutover_must_remain s = false -> settled_old s).
Definition up (s : state) : Prop := cutover_must_remain s = true.
Lemma left_up e s : either s -> up s -> left_by e s.
Proof. intros Hs Hu. split; [done|]. unfold up in Hu. congruence. Qed.
Lemma left_crashed s : either s -> left_by Crashed s.
Proof. intros Hs. by split. Qed.
Lemma settled_left e s : settled_old s -> left_by e (with_must_remain false s).
Proof. intros Hs. split; [left; exact (proj1 Hs)|]. intros _ _. exact Hs. Qed.
(** The rollback of a database that was not replaced. *)
Lemma roll_back_spec error : triple (fun s => old_state s /\ up s)
  (_ ← rollback p; _ ← set (with_must_remain false); stm_raise (Raised error) : M unit) (fun _ s => new_state s /\ up s) left_by.
Proof.
  apply (triple_bind _ _ _ (fun _ => settled_old)).
  - eapply triple_conseq; [apply (triple_steady _ _ _ _ true steady_rollback restore_rollback_spec)|done|by intros ? s [Hs _]|].
    intros e s [Hs Hu]. apply left_up; [by left|done].
  - intros []. apply (triple_bind _ _ _ (fun _ s => left_by (Raised error) s)); [|intros []; by apply triple_raise].
    apply triple_set. intros s. apply settled_left.
Qed.
Lemma finish_cutover_spec : triple (at_ oldS oldK None None None newS newK) (finish_cutover p d1) (fun _ s => new_state s /\ up s) left_by.
Proof.
  set (A0 := at_ oldS oldK None None None newS newK). unfold finish_cutover.
  apply (triple_bind _ _ _ (fun _ s => A0 s /\ up s)); [apply triple_set; by intros s HA|]. intros [].
  apply (triple_bind _ _ _ (fun _ s => exchanged "files_swapped" s /\ up s)).
  { eapply triple_catch; [apply (triple_steady _ _ _ _ true steady_swap swap_or_rollback_spec)| |].
    - intros s [[Hs _] Hu]. apply left_up; [by left|done].
    - intros error. cbv beta. destruct (String.eqb_spec error "_StorageSwapRollbackFailed") as [->|Hne].
      + apply triple_raise. intros s [[Hs _] Hu]. apply left_up; [by left|done].
      + apply (triple_bind _ _ _ (fun _ s => left_by (Raised error) s)); [|intros []; by apply triple_raise].
        apply triple_set. intros s [[_ Hs] _]. apply settled_left, Hs; congruence. }
  intros []. set (Q := fun s => (exchanged "files_swapped" s \/ new_state s /\ marker s = Some (restore_id p)) /\ up s).
  assert (HQ : forall e s, Q s -> left_by e s).
  { intros e s [Hs Hu]. apply left_up; [|done]. destruct Hs as [Hs|[Hs _]]; [left; by apply exchanged_old|by right]. }
  apply (triple_bind _ _ _ (fun _ => Q)).
  { eapply triple_conseq; [eapply (triple_steady _ _ _ _ true); [|apply restore_database_spec]|done|done|].
    - unfold restore_native_database. steady.
    - intros e s [Hs Hu]. by apply left_up. }
  intros error. eapply triple_bind; [apply (triple_look Q); intros s Hs; split; by apply HQ|]. intros m. cbv zeta.
  destruct (bool_decide (m = Some (restore_id p))) eqn:Em; [apply bool_decide_eq_true in Em|apply bool_decide_eq_false in Em]; cbn [negb].
  - set (N := fun s => (new_state s /\ marker s = Some (restore_id p)) /\ up s).
    assert (HN : forall e s, N s -> left_by e s) by (intros e s [[Hs _] Hu]; apply left_up; [by right|done]).
    apply (triple_bind _ _ _ (fun _ => N)).
    + apply (triple_pre N).
      { intros s [E [[Hs|Hs] Hu]]; [|by split]. destruct Hs as (_ & _ & _ & _ & _ & _ & _ & Hm). congruence. }
      apply (triple_bind _ _ _ (fun _ => N)); [|by intros ? w].
      eapply triple_conseq; [apply (validate_spec N)|done|done|]. intros e s. apply HN.
    + intros []. apply triple_change. intros s Hs. pose proof Hs as [[Hs1 Hm] Hu].
      assert (Hn : new_state (with_journal (Some (_journal_value p "database_committed")) s)) by (apply new_with_journal; [done|cbn; auto|by left]).
      split; [by apply HN|]. split; [by apply HN|]. split; [apply left_up; [by right|done]|done].
  - apply (triple_bind _ _ _ (fun _ s => old_state s /\ up s)).
    + intros w [E [[Hs|[_ Hm]] Hu]]; [split; [by apply exchanged_old|done]|congruence].
    + intros []. apply roll_back_spec.
Qed.
Lemma cutover_spec : triple (at_ oldS oldK None None None newS newK) (destructive_cutover p d1) (fun _ s => new_state s /\ up s) left_by.
Proof.
  intros w HA. pose proof (finish_cutover_spec w HA) as Hf. unfold post, destructive_cutover in *.
  destruct (finish_cutover p d1 w) as [[a|e] w']; [destruct Hf as [Hn Hu]; unfold up in Hu; rewrite Hu; by split|].
  destruct e as [|k]; [done|]. destruct (cutover_must_remain (st w')) eqn:Ef; [done|].
  assert (Hs : settled_old (st w')) by by apply Hf.
  assert (Hc : triple settled_old (catch cleanup_work_dir (fun _ => mret tt)) (fun _ => settled_old) (left_in settled_old)).
  { apply (triple_catch _ _ _ _ _ (left_in settled_old)); [by apply restore_cleanup_spec|done|by intros k' w1]. }
  specialize (Hc w' Hs). unfold post in Hc. destruct (catch _ _ w') as [[[]|e] w'']; (split; [left; exact (proj1 Hc)|by intros _ _]).
Qed.

(** ** Recovery *)
Lemma raise_if_spec (R : state -> Prop) b message : triple R (raise_if b message) (fun _ => R) (left_in R).
Proof. destruct b; [by apply triple_raise|by intros w HR]. Qed.
Lemma resolved_spec (R : state -> Prop) path : triple R (resolved path) (fun _ => R) (left_in R).
Proof. unfold resolved. destruct (resolve path); [by intros w HR|by apply triple_raise]. Qed.
Lemma status_spec (R : state -> Prop) status : triple R (status_of (_journal_value p status)) (fun a s => a = status /\ R s) (left_in R).
Proof.
  change (status_of (_journal_value p status)) with
    (if existsb (String.eqb status) _JOURNAL_STATUSES then mret status else DestructiveRestoreError "restore journal has an invalid status" : M string).
  destruct (existsb _ _); [by intros w HR|by apply triple_raise].
Qed.
Lemma checked_spec (R : state -> Prop) status : triple R (checked_journal (_journal_value p status))
  (fun r s => r = (restore_id p, status, bool_decide (marker s = Some (restore_id p))) /\ R s) (left_in R).
Proof.
  unfold checked_journal. change (text_at (_journal_value p status) "restoreId") with (restore_id p).
  eapply triple_bind; [apply raise_if_spec|]. intros []. eapply triple_bind; [apply status_spec|]. intros a.
  intros w [-> HR]. revert w HR. change (triple R (dir ← resolved (text_at (_journal_value p status) "dataDir");
    configured ← resolved settings_data_dir;
    _ ← raise_if (negb (String.eqb dir configured)) "restore journal targets another PPBase data_dir";
    _ ← raise_if (negb (String.eqb (text_at (_journal_value p status) "previousStorage") (previous_storage_name (restore_id p))) ||
                  negb (String.eqb (text_at (_journal_value p status) "previousSecret") (previous_secret_name (restore_id p)))) "restore journal file permutation is incomplete";
    _ ← raise_if (negb (String.eqb (text_at (_journal_value p status) "workRoot") (work_root dir)) || negb (String.eqb (text_at (_journal_value p status) "workDir") (work_dir dir (restore_id p))))
          "restore journal working paths are invalid";
    m ← read_database_restore_marker;
    _ ← raise_if (negb (bool_decide (m = None)) && negb (bool_decide (m = Some (restore_id p)))) "restore journal and database marker identify different restores";
    mret (restore_id p, status, bool_decide (m = Some (restore_id p))))
    (fun r s => r = (restore_id p, status, bool_decide (marker s = Some (restore_id p))) /\ R s) (left_in R)).
  eapply triple_bind; [apply resolved_spec|]. intros dir. eapply triple_bind; [apply resolved_spec|]. intros configured.
  eapply triple_bind; [apply raise_if_spec|]. intros []. eapply triple_bind; [apply raise_if_spec|]. intros [].
  eapply triple_bind; [apply raise_if_spec|]. intros []. apply look_spec. intros m.
  eapply triple_bind.
  - apply (triple_conseq _ _ _ _ (fun _ s => m = marker s /\ R s) _ _ (raise_if_spec (fun s => m = marker s /\ R s) _ _)); [done|done|by intros e s [_ HR]].
  - intros [] w [-> HR]. by split.
Qed.
(** The marker is gone and the journal says so. *)
Definition finalized (s : state) : Prop := new_state s /\ marker s = None /\ journal s = Some (_journal_value p "finalizing").
Lemma commit_recovery_spec status marked : triple (fun s => new_state s /\ journal s = Some (_journal_value p status) /\ marked = bool_decide (marker s = Some (restore_id p)))
  (commit_recovery (_journal_value p status) (restore_id p) status marked) (fun _ => finalized) (left_in new_state).
Proof.
  set (P := fun s => _). unfold commit_recovery. assert (HP : forall s, P s -> new_state s) by by intros s [Hs _].
  destruct (normalize_file_reference_inventory _) as [expected|]; [|by apply triple_raise].
  eapply triple_bind; [eapply triple_conseq; [apply (validate_spec P)|done|done|intros e s; apply HP]|]. intros refs. cbv beta.
  set (F := fun s => new_state s /\ journal s = Some (_journal_value p "finalizing") /\ marked = bool_decide (marker s = Some (restore_id p))).
  apply (triple_bind _ _ _ (fun _ => F)).
  - destruct (String.eqb_spec status "finalizing") as [->|]; [by intros w Hw|].
    apply triple_change. intros s Hs. pose proof Hs as (Hn & Hj & Hm).
    change (dict_set "status" (PStr "finalizing") (_journal_value p status)) with (_journal_value p "finalizing").
    assert (Hn' : new_state (with_journal (Some (_journal_value p "finalizing")) s)).
    { apply new_with_journal; [done|cbn; auto|]. destruct Hn as (_ & _ & _ & _ & _ & Hx). rewrite Hj in Hx. destruct Hx as (? & _ & _ & [?|[? _]]); [by left|by right]. }
    split; [done|]. split; [done|]. split; [done|]. by split.
  - intros []. assert (HF : forall s, F s -> new_state s) by by intros s [Hs _]. destruct marked eqn:Emk.
    + unfold clear_database_restore_marker. apply (triple_bind _ _ _ (fun m s => m = marker s /\ F s)).
      { eapply triple_conseq; [apply (triple_look F _ (left_in F)); by split|done|done|]. intros e s. apply HF. }
      intros m. destruct (negb (bool_decide (m = Some (restore_id p)))); [apply triple_raise; intros s [_ Hs]; by apply HF|].
      apply triple_change. intros s [_ Hs]. pose proof Hs as (Hn & Hj & _).
      assert (Hn' : new_state (with_database (db s) None s)).
      { destruct Hn as (H1 & H2 & H3 & H4 & H5 & _). repeat (split; [done|]). cbn. rewrite Hj. exists "finalizing". split; [done|]. split; [auto 6|by right]. }
      split; [done|]. split; [done|]. split; [done|]. by split.
    + intros w (Hn & Hj & Hm). split; [done|]. split; [|done]. destruct Hn as (_ & _ & _ & _ & _ & Hx). rewrite Hj in Hx.
      destruct Hx as (? & _ & _ & [Hmk|[? _]]); [|done]. rewrite Hmk in Hm. symmetry in Hm. by apply bool_decide_eq_false in Hm.
Qed.
(** Removing the old files keeps everything else. *)
Lemma finalized_remove previous : previous = PS \/ previous = PK ->
  (forall s path, finalized s -> finalized (with_fs (unlink_in previous path) s)) /\ (forall s, finalized s -> finalized (with_fs (delete previous) s)).
Proof.
  pose proof names_apart as (H1 & H2 & H3 & H4 & H5 & H6).
  intros Hp. assert (Hn : previous <> "storage" /\ previous <> ".jwt_secret") by (by destruct Hp as [->| ->]).
  destruct Hn as [Hns Hnk].
  assert (Hkeep : forall s g, finalized s -> (forall x, x <> previous -> g (fs s) !! x = fs s !! x) -> removable (g (fs s) !! previous) -> finalized (with_fs g s)).
  { intros s g [(E1 & E2 & E3 & E4 & E5 & E6) [Em Ej]] Hx Hr. split; [|by split]. rewrite Ej in E6.
    split; [done|]. cbn [fs with_fs journal marker]. rewrite Ej. rewrite !Hx by done. split; [done|]. split; [done|].
    destruct Hp as [->| ->]; (split; [try rewrite Hx by done; done|split; [try rewrite Hx by done; done|exact E6]]). }
  assert (Hr : forall s, finalized s -> removable (fs s !! previous)) by (intros s [(_ & _ & _ & E4 & E5 & _) _]; by destruct Hp as [->| ->]).
  split; intros s; [intros path|]; intros Hs; apply Hkeep; try done.
  - intros x Hx. by apply unlink_ne.
  - by apply unlink_removable, Hr.
  - intros x Hx. by apply lookup_delete_ne.
  - by rewrite lookup_delete_eq.
Qed.
Lemma clear_new : triple (fun s => finalized s /\ gone PS s /\ gone PK s) DestructiveRestoreJournal.clear (fun _ => settled_new) (left_in new_state).
Proof.
  apply triple_change. intros s ((Hn & Hm & _) & H1 & H2).
  assert (Hc : new_state (with_journal None s)) by (destruct Hn as (E1 & E2 & E3 & E4 & E5 & _); by repeat split).
  split; [done|]. split; [done|]. split; [done|]. by split.
Qed.
Lemma finalized_end : triple finalized (_ ← _remove_entry_at PS; _remove_entry_at PK) (fun _ s => finalized s /\ gone PS s /\ gone PK s) (left_in new_state).
Proof.
  pose proof names_apart as (H1 & _). assert (HN : forall s, finalized s -> new_state s) by by intros s [Hs _].
  destruct (finalized_remove PS (or_introl eq_refl)) as [Hu Hd]. destruct (finalized_remove PK (or_intror eq_refl)) as [Hu' Hd'].
  eapply triple_bind; [eapply triple_conseq; [apply (remove_entry_spec PS finalized); done|done|done|intros e s; apply HN]|]. intros [].
  eapply triple_conseq; [apply (remove_entry_spec PK (fun s => finalized s /\ gone PS s))|done|by intros a s [[Hs Hg] Hk]|intros e s [Hs _]; by apply HN].
  - intros s path [Hs Hg]. split; [by apply Hu'|]. unfold gone. cbn. by rewrite unlink_ne.
  - intros s [Hs Hg]. split; [by apply Hd'|]. unfold gone. cbn. by rewrite lookup_delete_ne.
Qed.

Lemma recovery_tail (R T N : state -> Prop) (answer : string * outcome) :
  (forall s f, R s -> R (with_staged f s)) -> (forall s b, R s -> R (with_work_root b s)) -> (forall s, R s -> N s) ->
  triple R DestructiveRestoreJournal.clear (fun _ => T) (left_in N) ->
  triple R (_ ← fsync; _ ← remove_work_dir; _ ← remove_work_root; _ ← fsync; _ ← DestructiveRestoreJournal.clear; mret answer)
    (fun a s => a = answer /\ T s) (left_in N).
Proof.
  intros Hs Hw HN Hc.
  assert (Hf : triple R fsync (fun _ => R) (left_in N)).
  { eapply triple_conseq; [apply (triple_look R _ (left_in R)); by split|done|by intros a s [_ HR]|intros e s; apply HN]. }
  eapply triple_bind; [exact Hf|]. intros [].
  eapply triple_bind; [eapply triple_conseq; [by apply (remove_work_dir_spec R)|done|done|intros e s; apply HN]|]. intros [].
  eapply triple_bind; [eapply triple_conseq; [by apply (remove_work_root_spec R)|done|done|intros e s; apply HN]|]. intros [].
  eapply triple_bind; [exact Hf|]. intros []. eapply triple_bind; [exact Hc|]. intros [] w HT. by split.
Qed.
(** The journal of either state says which of the two it is. *)
Lemma recover_old j : triple (fun s => old_state s /\ journal s = Some j) (finish_recovery j)
  (fun a s => a = (restore_id p, RolledBack) /\ settled_old s) (left_in old_state).
Proof.
  intros w [Ho Ej]. assert (Hu : uncommitted j) by (destruct Ho as (_ & _ & _ & H); by rewrite Ej in H). destruct Hu as (status & -> & Hst).
  revert w Ho Ej. enough (Ht : triple old_state (finish_recovery (_journal_value p status)) (fun a s => a = (restore_id p, RolledBack) /\ settled_old s) (left_in old_state))
    by (intros w Ho _; by apply Ht).
  assert (Hf : String.eqb status "finalizing" = false) by (by destruct Hst as [->| ->]).
  eapply triple_bind; [apply (checked_spec old_state)|]. intros [[id status'] marked].
  apply (triple_pre (fun s => (id, status', marked) = (restore_id p, status, false) /\ old_state s)).
  { intros s [E Hs]. split; [|done]. rewrite E. destruct Hs as (_ & -> & _). done. }
  intros w [E Ho]. injection E as -> -> ->. rewrite Hf. revert w Ho. cbn [orb].
  change (triple old_state (_ ← (mret tt : M unit); _ ← (_ ← put_back PS "storage"; put_back PK ".jwt_secret"); _ ← fsync; _ ← remove_work_dir;
     _ ← remove_work_root; _ ← fsync; _ ← DestructiveRestoreJournal.clear; mret (restore_id p, RolledBack))
     (fun a s => a = (restore_id p, RolledBack) /\ settled_old s) (left_in old_state)).
  apply (triple_bind _ _ _ (fun _ => old_state)); [by intros w Hw|]. intros [].
  apply (triple_bind _ _ _ (fun _ s => old_state s /\ gone PS s /\ gone PK s)); [apply put_back_both|]. intros [].
  apply recovery_tail; [done|done|by intros s [Hs _]|apply clear_old].
Qed.
Lemma recover_new j : triple (fun s => new_state s /\ journal s = Some j) (finish_recovery j)
  (fun a s => a = (restore_id p, CommittedOutcome) /\ settled_new s) (left_in new_state).
Proof.
  intros w [Hn Ej]. assert (Hj : exists status, j = _journal_value p status) by (destruct Hn as (_ & _ & _ & _ & _ & Hx); rewrite Ej in Hx; destruct Hx as (st & E & _); eauto).
  destruct Hj as [status ->]. set (P := fun s => new_state s /\ journal s = Some (_journal_value p status)).
  revert w Hn Ej. enough (Ht : triple P (finish_recovery (_journal_value p status)) (fun a s => a = (restore_id p, CommittedOutcome) /\ settled_new s) (left_in new_state))
    by (intros w Hn Ej; by apply Ht).
  eapply triple_bind; [eapply triple_conseq; [apply (checked_spec P)|done|done|by intros e s [Hs _]]|]. intros [[id status'] marked].
  set (P' := fun s => new_state s /\ journal s = Some (_journal_value p status) /\ marked = bool_decide (marker s = Some (restore_id p))).
  apply (triple_pre (fun s => ((id, status') = (restore_id p, status) /\ marked || String.eqb status "finalizing" = true) /\ P' s)).
  { intros s [E [Hs Hj]]. injection E as -> -> ->. split; [|by split]. split; [done|].
    destruct Hs as (_ & _ & _ & _ & _ & Hx). rewrite Hj in Hx. destruct Hx as (st & E & _ & [Hm|[_ ->]]).
    - by rewrite Hm, bool_decide_eq_true_2.
    - injection E as ->. by rewrite orb_true_r. }
  intros w [[E Hc] Hw]. injection E as -> ->. rewrite Hc. revert w Hw.
  change (triple P' (_ ← commit_recovery (_journal_value p status) (restore_id p) status marked; _ ← (_ ← _remove_entry_at PS; _remove_entry_at PK); _ ← fsync; _ ← remove_work_dir;
     _ ← remove_work_root; _ ← fsync; _ ← DestructiveRestoreJournal.clear; mret (restore_id p, CommittedOutcome))
     (fun a s => a = (restore_id p, CommittedOutcome) /\ settled_new s) (left_in new_state)).
  eapply triple_bind; [apply commit_recovery_spec|]. intros [].
  eapply triple_bind; [apply finalized_end|]. intros [].
  apply recovery_tail; [done|done|by intros s [[Hs _] _]|apply clear_new].
Qed.

Lemma recover_spec (N T : state -> Prop) (o : outcome) : root = Attached ->
  (forall j, triple (fun s => N s /\ journal s = Some j) (finish_recovery j) (fun a s => a = (restore_id p, o) /\ T s) (left_in N)) ->
  (forall s, N s -> journal s = None -> T s) -> (forall s, T s -> N s /\ marker s = None) ->
  triple N recover_interrupted_destructive_restore (fun a s => (a = None \/ a = Some (restore_id p, o)) /\ T s) (left_in N).
Proof.
  intros Hr Hfin Hnone HT. unfold recover_interrupted_destructive_restore. rewrite Hr. apply look_spec. intros r. apply triple_pure. intros ->.
  apply (triple_bind _ _ _ (fun j s => j = journal s /\ N s)).
  - apply look_spec. intros [j|]; [|by intros w Hw]. destruct (py_eqb _ _); [by intros w Hw|]. apply triple_raise. by intros s [_ Hs].
  - intros [j|].
    + eapply triple_bind; [apply (triple_pre (fun s => N s /\ journal s = Some j)); [by intros s [E Hs]|apply Hfin]|].
      intros d w [-> Hs]. split; [by right|done].
    + apply (triple_pre T); [intros s [E Hs]; by apply Hnone|].
      apply (triple_bind _ _ _ (fun m s => m = marker s /\ T s)).
      * eapply triple_conseq; [apply (triple_look T _ (left_in T)); done|done|done|intros e s Hs; by apply HT].
      * intros m w [-> Hs]. destruct (HT _ Hs) as [_ Hm]. rewrite Hm. split; [by left|done].
Qed.
Lemma recover_old_spec : root = Attached -> triple old_state recover_interrupted_destructive_restore
  (fun a s => (a = None \/ a = Some (restore_id p, RolledBack)) /\ settled_old s) (left_in old_state).
Proof. intros Hr. apply recover_spec; [done|apply recover_old|by intros s|]. intros s [Hs _]. split; [done|apply Hs]. Qed.
Lemma recover_new_spec : root = Attached -> triple new_state recover_interrupted_destructive_restore
  (fun a s => (a = None \/ a = Some (restore_id p, CommittedOutcome)) /\ settled_new s) (left_in new_state).
Proof.
  intros Hr. apply recover_spec; [done|apply recover_new|by intros s|]. intros s [Hs Hj]. split; [done|].
  destruct Hs as (_ & _ & _ & _ & _ & Hx). rewrite Hj in Hx. apply Hx.
Qed.
(** *** When nothing fails *)
(** The journal is of this data directory. *)
Definition addressed : Prop :=
  root = Attached /\ is_restore_id (restore_id p) = true /\ resolve (data_dir p) = Some (data_dir p) /\ resolve settings_data_dir = Some (data_dir p).
(** The new database and its files are those that the inventory describes. *)
Definition validated (n : dict) (refs : list reference) : Prop :=
  normalize_file_reference_inventory (PDict (file_reference_inventory p)) = Some n /\ references_of d1 = Some refs /\
  file_reference_inventory_matches (PDict n) refs = true /\ uses_data_dir d1 (data_dir p) = Some true /\ all_open new_files refs = true.
Lemma normalize_normal v n : normalize_file_reference_inventory v = Some n -> normalize_file_reference_inventory (PDict n) = Some n.
Proof.
  unfold normalize_file_reference_inventory at 1. destruct v as [| | | | | |d]; try done. destruct (negb _); [done|].
  destruct (dict_get "version" d) as [version|]; [|done]. destruct (dict_get "count" d) as [[| |count| | | |]|]; try done.
  destruct (dict_get "sha256" d) as [[| | | |sha| |]|]; try done. destruct (_ || _) eqn:E; [done|]. intros [= <-].
  repeat (apply orb_false_iff in E as [E ?]). cbn -[hex_lower String.length]. by rewrite H1, H0, H.
Qed.
Lemma calm_raise_if P b message : b = false -> calm P (raise_if b message).
Proof. intros ->. apply calm_ret. Qed.
Lemma calm_checked status (P : state -> Prop) : addressed -> In status _JOURNAL_STATUSES ->
  (forall s, P s -> marker s = None \/ marker s = Some (restore_id p)) -> calm P (checked_journal (_journal_value p status)).
Proof.
  intros (_ & Hid & Hd & Hs) Hin HP s Hw. unfold checked_journal, resolved.
  change (text_at (_journal_value p status) "restoreId") with (restore_id p). change (text_at (_journal_value p status) "dataDir") with (data_dir p).
  change (text_at (_journal_value p status) "previousStorage") with PS. change (text_at (_journal_value p status) "previousSecret") with PK.
  change (text_at (_journal_value p status) "workRoot") with (work_root (data_dir p)).
  change (text_at (_journal_value p status) "workDir") with (work_dir (data_dir p) (restore_id p)).
  change (status_of (_journal_value p status)) with
    (if existsb (String.eqb status) _JOURNAL_STATUSES then mret status else DestructiveRestoreError "restore journal has an invalid status" : M string).
  assert (Hst : existsb (String.eqb status) _JOURNAL_STATUSES = true) by (apply existsb_exists; exists status; split; [done|apply String.eqb_refl]).
  rewrite Hid, Hst, Hd, Hs. unfold previous_storage, previous_secret, read_database_restore_marker, look, act, mbind, stm_bind, mret, stm_ret. cbn -[work_dir work_root].
  rewrite !String.eqb_refl. cbn -[work_dir work_root]. destruct (HP s Hw) as [->| ->]; cbn; [eauto|].
  rewrite bool_decide_eq_true_2 by done. cbn. eauto.
Qed.
Lemma calm_files refs s : all_open new_files refs = true -> new_state s -> _require_active_local_restore_files refs (mkWorld s []) = (Ok tt, mkWorld s []).
Proof.
  intros Ho (_ & E1 & E2 & _). unfold _require_active_local_restore_files, look, act, mbind, stm_bind. cbn. by rewrite E1, E2, Ho.
Qed.
Lemma calm_validate n refs inventory s : addressed -> validated n refs -> normalize_file_reference_inventory inventory = Some n -> new_state s ->
  validate_committed_destructive_restore inventory (mkWorld s []) = (Ok refs, mkWorld s []).
Proof.
  intros (_ & _ & _ & Hset) (_ & Hr & Hm & Hu & Ho) Hn Hs. pose proof (calm_files refs s Ho Hs) as Hf. destruct Hs as [Hd _].
  unfold validate_committed_destructive_restore. rewrite Hn. unfold look, act, mbind, stm_bind. cbn [script st]. rewrite Hd, Hr, Hm. cbn [negb script st].
  rewrite Hset, Hd, Hu. cbn. by rewrite Hf.
Qed.
Lemma calm_commit n refs status marked : addressed -> validated n refs ->
  calm (fun s => new_state s /\ journal s = Some (_journal_value p status) /\ marked = bool_decide (marker s = Some (restore_id p)))
    (commit_recovery (_journal_value p status) (restore_id p) status marked).
Proof.
  intros Ha Hv s (Hs & Hj & Hm). unfold commit_recovery.
  change (default PNone (dict_get _JOURNAL_FILE_REFERENCE_INVENTORY_KEY (_journal_value p status))) with (PDict (file_reference_inventory p)).
  pose proof Hv as (Hn & _). rewrite Hn. unfold mbind at 1, stm_bind at 1. rewrite (calm_validate n refs (PDict n) s Ha Hv (normalize_normal _ _ Hn) Hs).
  destruct marked; [symmetry in Hm; apply bool_decide_eq_true in Hm|]; destruct (String.eqb status "finalizing"); unfold clear_database_restore_marker, read_database_restore_marker, look, act, mbind, stm_bind; cbn; eauto;
    rewrite Hm, bool_decide_eq_true_2 by done; cbn; eauto.
Qed.
Lemma calm_tail (R : state -> Prop) (answer : string * outcome) :
  calm R (_ ← fsync; _ ← remove_work_dir; _ ← remove_work_root; _ ← fsync; _ ← DestructiveRestoreJournal.clear; mret answer).
Proof.
  apply (calm_pre (fun _ => True)); [done|].
  eapply calm_bind; [apply calm_look|apply triple_true|]. intros []. eapply calm_bind; [apply calm_remove_work_dir|apply triple_true|]. intros [].
  eapply calm_bind; [apply calm_remove_work_root|apply triple_true|]. intros []. eapply calm_bind; [apply calm_look|apply triple_true|]. intros [].
  eapply calm_bind; [apply calm_change|apply triple_true|]. intros []. apply calm_ret.
Qed.
Lemma calm_recover_old j : addressed -> calm (fun s => old_state s /\ journal s = Some j) (finish_recovery j).
Proof.
  intros Ha s [Ho Ej]. assert (Hu : uncommitted j) by (destruct Ho as (_ & _ & _ & H); by rewrite Ej in H). destruct Hu as (status & -> & Hst).
  revert s Ho Ej. enough (Ht : calm old_state (finish_recovery (_journal_value p status))) by (intros s Ho _; by apply Ht).
  assert (Hf : String.eqb status "finalizing" = false) by (by destruct Hst as [->| ->]).
  eapply calm_bind; [apply calm_checked; [done|cbn; naive_solver|]|apply (checked_spec old_state)|]; [intros s (_ & -> & _); by left|].
  intros [[id status'] marked]. apply (calm_pre (fun s => (id, status', marked) = (restore_id p, status, false) /\ old_state s)).
  { intros s [E Hs]. split; [|done]. rewrite E. destruct Hs as (_ & -> & _). done. }
  apply calm_pure. intros E. injection E as -> -> ->. rewrite Hf. cbn [orb].
  eapply calm_bind; [apply calm_ret|apply (triple_ret old_state tt (left_in old_state))|]. intros []. apply (calm_pre old_state); [by intros s [_ Hs]|].
  eapply calm_bind; [|apply put_back_both|intros []; apply calm_tail].
  eapply calm_bind; [by apply (calm_put_back PS "storage" (Dir old_files)); left| |].
  - eapply triple_conseq; [apply (put_back_spec PS "storage" (Dir old_files) (fun _ => True)); [by left|done]|done|intros a s [[Hs _] _]; exact Hs|done].
  - intros []. by apply (calm_put_back PK ".jwt_secret" (Regular old_secret)); right.
Qed.
Lemma calm_recover_new j n refs : addressed -> validated n refs -> calm (fun s => new_state s /\ journal s = Some j) (finish_recovery j).
Proof.
  intros Ha Hv s [Hn Ej]. assert (Hj : exists status, j = _journal_value p status /\ In status _JOURNAL_STATUSES)
    by (destruct Hn as (_ & _ & _ & _ & _ & Hx); rewrite Ej in Hx; destruct Hx as (st & E & Hin & _); eauto).
  destruct Hj as (status & -> & Hin). set (P := fun s => new_state s /\ journal s = Some (_journal_value p status)).
  assert (Hmark : forall s, P s -> (marker s = Some (restore_id p) \/ marker s = None /\ status = "finalizing")).
  { intros s1 [(_ & _ & _ & _ & _ & Hx) Hj]. rewrite Hj in Hx. destruct Hx as (st & E & _ & Hm). by injection E as ->. }
  revert s Hn Ej. enough (Ht : calm P (finish_recovery (_journal_value p status))) by (intros s Hn Ej; by apply Ht).
  eapply calm_bind; [apply calm_checked; [done|done|intros s Hs; destruct (Hmark s Hs) as [?|[? _]]; auto]|apply (checked_spec P)|].
  intros [[id status'] marked].
  set (P' := fun s => new_state s /\ journal s = Some (_journal_value p status) /\ marked = bool_decide (marker s = Some (restore_id p))).
  apply (calm_pre (fun s => ((id, status') = (restore_id p, status) /\ marked || String.eqb status "finalizing" = true) /\ P' s)).
  { intros s [E Hs]. injection E as -> -> ->. split; [|destruct Hs; by split]. split; [done|].
    destruct (Hmark s Hs) as [Hm|[_ ->]]; [by rewrite Hm, bool_decide_eq_true_2|by rewrite orb_true_r]. }
  apply calm_pure. intros [E Hc]. injection E as -> ->. rewrite Hc.
  eapply calm_bind; [by apply (calm_commit n refs)|apply commit_recovery_spec|]. intros [].
  eapply calm_bind; [|apply finalized_end|intros []; apply calm_tail].
  destruct (finalized_remove PS (or_introl eq_refl)) as [Hu Hd].
  eapply calm_bind; [apply calm_remove_entry; intros s [(_ & _ & _ & H & _) _]; exact H|by apply (remove_entry_spec PS finalized)|].
  intros []. apply calm_remove_entry. intros s [[(_ & _ & _ & _ & H & _) _] _]. exact H.
Qed.
Lemma calm_recover (N : state -> Prop) : addressed -> (forall j, calm (fun s => N s /\ journal s = Some j) (finish_recovery j)) ->
  (forall s j, N s -> journal s = Some j -> exists status, j = _journal_value p status) -> (forall s, N s -> journal s = None -> marker s = None) ->
  calm N recover_interrupted_destructive_restore.
Proof.
  intros [Hr _] Hfin Hj Hm s Hs. unfold recover_interrupted_destructive_restore, DestructiveRestoreJournal.read. rewrite Hr.
  unfold read_database_restore_marker, look, act, mbind, stm_bind, mret, stm_ret. cbn [script st].
  destruct (journal s) as [j|] eqn:E.
  - destruct (Hj s j Hs E) as [status ->].
    change (py_eqb (default PNone (dict_get "version" (_journal_value p status))) (PInt 1)) with true. cbv iota.
    destruct (Hfin _ s (conj Hs E)) as (a & s' & Ef). rewrite Ef. by exists (Some a), s'.
  - cbn [script st]. rewrite (Hm s Hs E). by exists None, s.
Qed.
Lemma calm_either n refs : addressed -> validated n refs -> calm either recover_interrupted_destructive_restore.
Proof.
  intros Ha Hv s [Hs|Hs].
  - apply (calm_recover old_state); try done.
    + intros j. by apply calm_recover_old.
    + intros s1 j (_ & _ & _ & Hj) E. rewrite E in Hj. destruct Hj as (status & -> & _). eauto.
    + by intros s1 (_ & Hm & _).
  - apply (calm_recover new_state); try done.
    + intros j. by apply (calm_recover_new j n refs).
    + intros s1 j (_ & _ & _ & _ & _ & Hj) E. rewrite E in Hj. destruct Hj as (status & -> & _). eauto.
    + intros s1 (_ & _ & _ & _ & _ & Hj) E. rewrite E in Hj. apply Hj.
Qed.
(** A data directory with its database, and nothing of a restore. *)
Definition complete (d : database) (files : tree) (secret : string) (s : state) : Prop :=
  db s = d /\ fs s !! "storage" = Some (Dir files) /\ fs s !! ".jwt_secret" = Some (Regular secret) /\
  fs s !! PS = None /\ fs s !! PK = None /\ journal s = None /\ marker s = None.
Lemma settled_old_complete s : settled_old s -> complete d0 old_files old_secret s.
Proof.
  intros [(Hd & Hm & [Hs Hk] & Hj) E]. rewrite E in Hj. destruct Hj as [H1 H2].
  destruct Hs as [[E1 _]|[_ E1]]; [congruence|]. destruct Hk as [[E2 _]|[_ E2]]; [congruence|]. done.
Qed.
Lemma settled_new_complete s : settled_new s -> complete d1 new_files new_secret s.
Proof. intros [(Hd & E1 & E2 & _ & _ & Hj) E]. rewrite E in Hj. destruct Hj as (Hm & H1 & H2). done. Qed.
End Safety.

(** ** The process starts again *)
Section Restart.
Context {env : RestoreEnv}.
Definition restarted (s : state) (l : list event) : world state := mkWorld (with_must_remain false (with_swapped false s)) l.
(** One start-up, however it ends. *)
Inductive startup : state -> state -> Prop :=
  | startup_run s l : startup s (st (recover_interrupted_destructive_restore (restarted s l)).2).
Definition staged_files (files : tree) (secret : string) (s : state) : Prop :=
  exists m, staged s = Some m /\ m !! "storage" = Some (Dir files) /\ m !! ".jwt_secret" = Some (Regular secret).
Lemma startup_either p d0 d1 old_files new_files old_secret new_secret s s' : root = Attached -> startup s s' ->
  either p d0 d1 old_files new_files old_secret new_secret s -> either p d0 d1 old_files new_files old_secret new_secret s'.
Proof.
  intros Hr [s1 l] [Hs|Hs].
  - left. pose proof (recover_old_spec p d0 old_files old_secret Hr (restarted s1 l) Hs) as Hp. unfold post in Hp.
    destruct (recover_interrupted_destructive_restore _) as [[a|e] w]; [apply Hp|exact Hp].
  - right. pose proof (recover_new_spec p d1 new_files new_secret Hr (restarted s1 l) Hs) as Hp. unfold post in Hp.
    destruct (recover_interrupted_destructive_restore _) as [[a|e] w]; [apply Hp|exact Hp].
Qed.
(** C12: A destructive restore replaces everything or nothing, whatever fails.
    Start from a data directory with the files and secret of the old database and
    the backup's own prepared beside them.  Whichever system calls and statements
    of the cutover are refused or fail, and wherever the process dies; however
    often start-up then fails or dies in turn: the first start-up that succeeds
    has either the old database with its files and its secret or the new one with
    both of its own, and no journal, no marker and none of the preserved entries
    that the journal names.  (The directory in which the restore was prepared may
    stay when the process dies before the journal is written.)  It has the
    new ones when the cutover returned.  And a request that raises and gives up
    its fence has already put everything back. *)
Theorem restore_all_or_nothing p d0 d1 old_files new_files old_secret new_secret s0 l r w :
  root = Attached -> complete p d0 old_files old_secret s0 -> staged_files new_files new_secret s0 ->
  destructive_cutover p d1 (mkWorld s0 l) = (r, w) ->
  (forall k, r = Err (Raised k) -> cutover_must_remain (st w) = false -> complete p d0 old_files old_secret (st w)) /\
  forall s1 l1 a w1, rtc startup (st w) s1 -> recover_interrupted_destructive_restore (restarted s1 l1) = (Ok a, w1) ->
    (complete p d0 old_files old_secret (st w1) /\ r <> Ok tt \/ complete p d1 new_files new_secret (st w1)) /\
    (a = Some (restore_id p, RolledBack) -> complete p d0 old_files old_secret (st w1)) /\
    (a = Some (restore_id p, CommittedOutcome) -> complete p d1 new_files new_secret (st w1)).
Proof.
  intros Hr (Hd & E1 & E2 & E3 & E4 & Ej & Em) (m & Es & Es1 & Es2) E.
  assert (HA : at_ p d0 (Some (Dir old_files)) (Some (Regular old_secret)) None None None (Some (Dir new_files)) (Some (Regular new_secret)) s0).
  { repeat (split; [done|]). split; [by exists m|done]. }
  pose proof (post_run _ _ _ _ _ _ (cutover_spec p d0 d1 old_files new_files old_secret new_secret (mkWorld s0 l) HA) E) as Hc.
  assert (Hstart : forall N : state -> Prop, N (st w) -> (forall s s', startup s s' -> N s -> N s') -> forall s1, rtc startup (st w) s1 -> N s1).
  { intros N HN Hstep s1 Hrtc. revert HN. induction Hrtc as [|x y z Hxy _ IH]; [done|]. intros HN. by eapply IH, Hstep. }
  assert (Hnew : forall s s', startup s s' -> new_state p d1 new_files new_secret s -> new_state p d1 new_files new_secret s').
  { intros s s' [s2 l2] Hs. pose proof (recover_new_spec p d1 new_files new_secret Hr (restarted s2 l2) Hs) as Hp. unfold post in Hp.
    destruct (recover_interrupted_destructive_restore _) as [[a|e] w2]; [apply Hp|exact Hp]. }
  split.
  { intros k -> Hf. destruct Hc as [_ Hc]. by apply (settled_old_complete p d0 old_files old_secret), Hc. }
  intros s1 l1 a w1 Hrtc Erec.
  assert (Hsn : new_state p d1 new_files new_secret s1 -> (a = None \/ a = Some (restore_id p, CommittedOutcome)) /\ complete p d1 new_files new_secret (st w1)).
  { intros Hs. pose proof (post_run _ _ _ _ _ _ (recover_new_spec p d1 new_files new_secret Hr (restarted s1 l1) Hs) Erec) as [Ha Ht].
    split; [done|by apply settled_new_complete]. }
  destruct r as [[]|e].
  - destruct Hsn as [Ha Hc1]; [eapply Hstart; [apply Hc|apply Hnew|exact Hrtc]|]. split; [by right|]. split; [|done]. intros ->. by destruct Ha.
  - assert (Hs1 : either p d0 d1 old_files new_files old_secret new_secret s1).
    { eapply Hstart; [apply Hc| |exact Hrtc]. intros s s' Hs. by apply startup_either. }
    destruct Hs1 as [Hs1|Hs1].
    + pose proof (post_run _ _ _ _ _ _ (recover_old_spec p d0 old_files old_secret Hr (restarted s1 l1) Hs1) Erec) as [Ha Ht].
      apply settled_old_complete in Ht. split; [by left|]. split; [done|]. intros ->. by destruct Ha.
    + destruct Hsn as [Ha Hc1]; [done|]. split; [by right|]. split; [|done]. intros ->. by destruct Ha.
Qed.
(** C13: No restore needs more than a start-up that works.  After a cutover, and
    whatever start-ups failed since, the next one in which no call fails ends
    with its answer, as long as the journal is of this data directory and, for
    the case that the new database was committed, that database is what the
    inventory of the backup describes: its file references, its storage settings
    and the files that were put in place. *)
Theorem recovery_completes p d0 d1 old_files new_files old_secret new_secret n refs s0 l s1 :
  addressed p -> validated p d1 new_files n refs -> complete p d0 old_files old_secret s0 -> staged_files new_files new_secret s0 ->
  rtc startup (st (destructive_cutover p d1 (mkWorld s0 l)).2) s1 ->
  exists a s2, recover_interrupted_destructive_restore (restarted s1 []) = (Ok a, mkWorld s2 []) /\
    (complete p d0 old_files old_secret s2 \/ complete p d1 new_files new_secret s2).
Proof.
  intros Ha Hv (Hd & E1 & E2 & E3 & E4 & Ej & Em) (m & Es & Es1 & Es2) Hrtc. pose proof Ha as [Hr _].
  assert (HA : at_ p d0 (Some (Dir old_files)) (Some (Regular old_secret)) None None None (Some (Dir new_files)) (Some (Regular new_secret)) s0).
  { repeat (split; [done|]). split; [by exists m|done]. }
  pose proof (cutover_spec p d0 d1 old_files new_files old_secret new_secret (mkWorld s0 l) HA) as Hc.
  assert (Hw : either p d0 d1 old_files new_files old_secret new_secret (st (destructive_cutover p d1 (mkWorld s0 l)).2)).
  { unfold post in Hc. destruct (destructive_cutover _ _ _) as [[[]|e] w]; [right; apply Hc|apply Hc]. }
  assert (Hs1 : either p d0 d1 old_files new_files old_secret new_secret s1).
  { revert Hw. induction Hrtc as [|x y z Hxy _ IH]; [done|]. intros Hx. by eapply IH, startup_either. }
  destruct (calm_either p d0 d1 old_files new_files old_secret new_secret n refs Ha Hv (st (restarted s1 [])) Hs1) as (a & s2 & E).
  change (mkWorld (st (restarted s1 [])) []) with (restarted s1 []) in E.
  exists a, s2. split; [done|]. destruct Hs1 as [Hs|Hs].
  - left. eapply settled_old_complete. exact (proj2 (post_run _ _ _ _ _ _ (recover_old_spec p d0 old_files old_secret Hr (restarted s1 []) Hs) E)).
  - right. eapply settled_new_complete. exact (proj2 (post_run _ _ _ _ _ _ (recover_new_spec p d1 new_files new_secret Hr (restarted s1 []) Hs) E)).
Qed.
End Restart.

(** ** Examples *)
Definition zeros : string := "0000000000000000000000000000000000000000000000000000000000000000".
(** Two databases: [true] is the one of the backup. *)
#[local] Instance demo_restore : RestoreEnv := {|
  database := bool;
  references_of d := Some (if d then [("c", "r", "f.txt")] else []);
  uses_data_dir _ _ := Some true;
  opens t r := let '(c, i, f) := r in Some (existsb (fun kv => String.eqb kv.1 (c +:+ "/" +:+ i +:+ "/" +:+ f)) t);
  reference_bytes r := let '(c, i, f) := r in list_byte_of_string (c +:+ i +:+ f);
  restore_sha256 _ := zeros;
  restore_float_text _ := "0.0";
  resolve path := Some path;
  settings_data_dir := "/data";
  root := Attached;
|}.
Definition old_db : @database demo_restore := false.
Definition new_db : @database demo_restore := true.
Definition demo_prepared : PreparedStorageRestore :=
  mkPrepared "0123456789abcdef0123456789abcdef" "/data" (build_file_reference_inventory [("c", "r", "f.txt")]).
Definition old_tree : tree := [("a/b/old.txt", "old"); ("a/b/two.txt", "2")].
Definition new_tree : tree := [("c/r/f.txt", "new")].
Definition demo_start : state := mkState
  (<["storage" := Dir old_tree]> (<[".jwt_secret" := Regular "k0"]> ∅))
  (Some (<["storage" := Dir new_tree]> (<[".jwt_secret" := Regular "k1"]> ∅)))
  true None old_db None false false.
Definition after (l : list event) : result failure unit * world state := destructive_cutover demo_prepared new_db (mkWorld demo_start l).
Definition summary (s : state) : bool * option entry * option entry * bool :=
  (db s, fs s !! "storage", fs s !! ".jwt_secret", match journal s with None => true | Some _ => false end).
Definition then_recovers (s : state) (l : list event) := let '(r, w) := recover_interrupted_destructive_restore (restarted s l) in (r, summary (st w)).
Definition dies_at (n : nat) : list event := repeat Works n ++ [Dies].
(** Nothing fails, and then the process starts. *)
Example restored : (after []).1 = Ok tt /\ then_recovers (st (after []).2) [] =
  (Ok (Some (restore_id demo_prepared, CommittedOutcome)), (true, Some (Dir new_tree), Some (Regular "k1"), true)).
Proof. by vm_compute. Qed.
(** The process dies with the new files in place and no secret: start-up puts
    the old ones back, and can die itself while it removes the new files. *)
Example died_between : (after (dies_at 7)).1 = Err Crashed /\
  summary (st (after (dies_at 7)).2) = (false, Some (Dir new_tree), None, false) /\
  then_recovers (st (after (dies_at 7)).2) [] = (Ok (Some (restore_id demo_prepared, RolledBack)), (false, Some (Dir old_tree), Some (Regular "k0"), true)) /\
  (then_recovers (st (after (dies_at 7)).2) (dies_at 5)).1 = Err Crashed.
Proof. by vm_compute. Qed.
(** A call that fails after its effect: the request puts everything back itself. *)
Example put_back_by_request : (after (repeat Works 8 ++ [Failing])).1 = Err OSError /\
  summary (st (after (repeat Works 8 ++ [Failing])).2) = (false, Some (Dir old_tree), Some (Regular "k0"), true) /\
  cutover_must_remain (st (after (repeat Works 8 ++ [Failing])).2) = false.
Proof. by vm_compute. Qed.
Lemma restore_all_or_nothing_witness : @root demo_restore = Attached /\ (complete demo_prepared old_db old_tree "k0" demo_start /\ staged_files new_tree "k1" demo_start) /\
  exists a w1, recover_interrupted_destructive_restore (restarted (st (after (dies_at 7)).2) []) = (Ok a, w1) /\
    (complete demo_prepared old_db old_tree "k0" (st w1) \/ complete demo_prepared new_db new_tree "k1" (st w1)).
Proof.
  assert (Hc : complete demo_prepared old_db old_tree "k0" demo_start) by by vm_compute.
  assert (Hs : staged_files new_tree "k1" demo_start) by (eexists; split; [reflexivity|]; by vm_compute).
  split; [reflexivity|]. split; [by split|].
  destruct (restore_all_or_nothing demo_prepared old_db new_db old_tree new_tree "k0" "k1" demo_start (dies_at 7) _ _ eq_refl Hc Hs
              (surjective_pairing _)) as [_ Hall].
  destruct (recover_interrupted_destructive_restore (restarted (st (after (dies_at 7)).2) [])) as [[a|e] w1] eqn:E; [|by vm_compute in E].
  exists a, w1. split; [reflexivity|]. destruct (Hall _ [] a w1 (rtc_refl _ _) E) as ([[Hold _]|Hnew] & _); [by left|by right].
Defined.
Lemma recovery_completes_witness : addressed demo_prepared /\
  validated demo_prepared new_db new_tree (build_file_reference_inventory [("c", "r", "f.txt")]) [("c", "r", "f.txt")] /\
  exists a s2, recover_interrupted_destructive_restore (restarted (st (after (dies_at 12)).2) []) = (Ok a, mkWorld s2 []) /\
    (complete demo_prepared old_db old_tree "k0" s2 \/ complete demo_prepared new_db new_tree "k1" s2).
Proof.
  assert (Ha : addressed demo_prepared) by by vm_compute.
  assert (Hv : validated demo_prepared new_db new_tree (build_file_reference_inventory [("c", "r", "f.txt")]) [("c", "r", "f.txt")]) by by vm_compute.
  assert (Hc : complete demo_prepared old_db old_tree "k0" demo_start) by by vm_compute.
  assert (Hs : staged_files new_tree "k1" demo_start) by (eexists; split; [reflexivity|]; by vm_compute).
  split; [exact Ha|]. split; [exact Hv|].
  exact (recovery_completes demo_prepared old_db new_db old_tree new_tree "k0" "k1" _ _ demo_start (dies_at 12) _ Ha Hv Hc Hs (rtc_refl _ _)).
Defined.
