(* ===== verification/FileReferences.v ===== *)
(** * The files that the records refer to (ppbase/services/file_references.py)

    What a row of a collection names in its file fields, and the reading of these
    names for the records of a transaction or of a backup. *)
From Stdlib Require Import Ascii String.
From S2P Require Import Prelude PyText PyVal StorageSafety.
#[local] Open Scope string_scope.
#[local] Open Scope list_scope.

(** A file of a record: collection, record and name. *)
Definition LocalFileReference : Type := string * string * string.
Definition record_of (t : LocalFileReference) : string * string := (t.1.1, t.1.2).
(** A row of [_collections] with the rows of its table, each with its columns. *)
Record stored_collection : Type := mkStored {
  stored_id : string; stored_name : string; stored_type : string;
  stored_schema : list pyval; stored_rows : list (list (string * pyval));
}.
(** The text of a float, the parser of URLs and [json.loads] ([None] for a [ValueError]). *)
Class ReferenceText : Type := {
  reference_floats :: FloatText;
  reference_urls :: UrlSplit;
  json_value : string -> option pyval;
}.
Section References.
Context {rt : ReferenceText}.
Definition text_or (s d : string) : string := if String.eqb s "" then d else s.
Definition storage_error {A} (r : result StorageSafetyError A) : result string A :=
  match r with Ok a => Ok a | Err _ => Err "StorageSafetyError" end.
Definition _quote_identifier (identifier : string) : result string string :=
  if String.eqb identifier "" || negb (str_forall (fun c => negb (code c =? 0)%N) identifier) then Err "ValueError"
  else Ok (dq +:+ join (dq +:+ dq) (split_on (ascii_of_N 34) identifier) +:+ dq)%string.
Definition _raw_file_values (value : pyval) : list pyval :=
  match value with
  | PList l => l
  | PStr s =>
      let stripped := py_strip s in
      if String.eqb stripped "" then []
      else if starts_with "[" stripped then
        match json_value stripped with Some (PList decoded) => decoded | _ => [value] end
      else [value]
  | _ => if truthy value then [value] else []
  end.
(** The name of a file field of the schema. *)
Definition file_field_name (raw_field : pyval) : option string :=
  match raw_field with
  | PDict d =>
      match dict_get "type" d, dict_get "name" d with
      | Some (PStr "file"), Some name =>
          let field_name := if truthy name then py_str name else "" in
          if String.eqb field_name "" then None else Some field_name
      | _, _ => None
      end
  | _ => None
  end.
Definition file_fields (collection : stored_collection) : list string := omap file_field_name (stored_schema collection).
Definition owns_storage (collection : stored_collection) : bool :=
  existsb (String.eqb (text_or (stored_type collection) "base")) ["base"; "auth"].
Definition is_local_name (filename : string) : bool := negb (String.eqb filename "" || is_remote_file_reference (PStr filename)).
Fixpoint name_references (cid rid : string) (names : list pyval) : result string (gset LocalFileReference) :=
  match names with
  | [] => Ok ∅
  | raw :: names =>
      if is_local_name (py_str raw) then
        filename ← storage_error (validate_file_reference (PStr (py_str raw)));
        refs ← name_references cid rid names;
        Ok ({[(cid, rid, filename)]} ∪ refs)
      else name_references cid rid names
  end.
Definition row_names (fields : list string) (row : list (string * pyval)) : list pyval :=
  f ← fields; _raw_file_values (default PNone (dict_get f row)).
Definition canonical_local_file_references_for_row (collection : stored_collection) (row : list (string * pyval))
    : result string (gset LocalFileReference) :=
  if negb (owns_storage collection) then Ok ∅ else
  cid ← storage_error (validate_collection_id (PStr (stored_id collection)));
  rid ← storage_error (validate_record_id (default PNone (dict_get "id" row)));
  name_references cid rid (row_names (file_fields collection) row).
Definition rows_references (collection : stored_collection) (rows : list (list (string * pyval))) : result string (gset LocalFileReference) :=
  fold_result (fun refs row => here ← canonical_local_file_references_for_row collection row; Ok (refs ∪ here)) rows ∅.
(** [WHERE id = ANY(record_ids)]. *)
Definition row_selected (record_ids : option (list string)) (row : list (string * pyval)) : bool :=
  match record_ids with
  | None => true
  | Some ids => match dict_get "id" row with Some (PStr i) => existsb (String.eqb i) ids | _ => false end
  end.
Definition collection_references (collection : stored_collection) (record_ids : option (list string)) : result string (gset LocalFileReference) :=
  match file_fields collection with
  | [] => Ok ∅
  | fields =>
      _ ← _quote_identifier (stored_name collection);
      _ ← map_result _quote_identifier fields;
      rows_references collection (filter (fun row => row_selected record_ids row) (stored_rows collection))
  end.
Definition target_record_ids (targets : list (string * string)) (cid : string) : list string := snd <$> filter (fun t => t.1 = cid) targets.
Fixpoint read_collections (targets : option (list (string * string))) (collections : list stored_collection)
    : result string (list string * gset LocalFileReference) :=
  match collections with
  | [] => Ok ([], ∅)
  | collection :: collections =>
      if negb (owns_storage collection) then read_collections targets collections else
      cid ← storage_error (validate_collection_id (PStr (stored_id collection)));
      match targets with
      | None =>
          here ← collection_references collection None;
          '(visited, refs) ← read_collections targets collections;
          Ok (visited, here ∪ refs)
      | Some ts =>
          match target_record_ids ts cid with
          | [] => read_collections targets collections
          | ids =>
              here ← collection_references collection (Some ids);
              '(visited, refs) ← read_collections targets collections;
              Ok (cid :: visited, here ∪ refs)
          end
      end
  end.
Definition validate_target (t : string * string) : result string (string * string) :=
  cid ← storage_error (validate_collection_id (PStr t.1));
  rid ← storage_error (validate_record_id (PStr t.2));
  Ok (cid, rid).
Definition read_canonical_local_file_references (collections : list stored_collection) (targets : option (list (string * string)))
    : result string (gset LocalFileReference) :=
  match targets with
  | None => '(_, refs) ← read_collections None collections; Ok refs
  | Some targets =>
      ts ← map_result validate_target targets;
      match ts with
      | [] => Ok ∅
      | _ =>
          '(visited, refs) ← read_collections (Some ts) collections;
          if forallb (fun t => existsb (String.eqb t.1) visited) ts then Ok refs else Err "RuntimeError"
      end
  end.

(** ** What a reference is *)
(** A file field of a row of a base or auth collection holds the local name. *)
Definition row_refers (collection : stored_collection) (row : list (string * pyval)) (t : LocalFileReference) : Prop :=
  stored_id collection = t.1.1 /\ dict_get "id" row = Some (PStr t.1.2) /\
  exists field raw, field ∈ file_fields collection /\ raw ∈ _raw_file_values (default PNone (dict_get field row)) /\
    py_str raw = t.2 /\ is_local_name t.2 = true.
Definition names_file (collections : list stored_collection) (t : LocalFileReference) : Prop :=
  exists collection row, collection ∈ collections /\ owns_storage collection = true /\ row ∈ stored_rows collection /\ row_refers collection row t.

(** * Proofs *)

#[local] Arguments validate_file_reference : simpl never.
#[local] Arguments validate_record_id : simpl never.
#[local] Arguments validate_collection_id : simpl never.
#[local] Arguments owns_storage : simpl never.
Lemma storage_error_ok {A} (r : result StorageSafetyError A) a : storage_error r = Ok a -> r = Ok a.
Proof. destruct r; [by intros [= ->]|done]. Qed.
Lemma component_name value label n b w s : _validate_single_component value label n b w = Ok s -> value = PStr s.
Proof. by intros []%single_component_ok. Qed.
Lemma component_text value label n b w s : _validate_single_component value label n b w = Ok s -> component s.
Proof. by intros (_ & ? & _)%single_component_ok. Qed.
Lemma file_reference_name v s : validate_file_reference v = Ok s -> v = PStr s. Proof. exact (component_name _ _ _ _ _ _). Qed.
Lemma record_name v s : validate_record_id v = Ok s -> v = PStr s. Proof. exact (component_name _ _ _ _ _ _). Qed.
Lemma collection_name v s : validate_collection_id v = Ok s -> v = PStr s. Proof. exact (component_name _ _ _ _ _ _). Qed.
Lemma name_references_spec cid rid names refs :
  name_references cid rid names = Ok refs ->
  forall t, t ∈ refs <-> t.1 = (cid, rid) /\ (exists raw, raw ∈ names /\ py_str raw = t.2) /\ is_local_name t.2 = true.
Proof.
  revert refs. induction names as [|raw names IH]; cbn; intros refs H t.
  { injection H as <-. set_solver. }
  destruct (is_local_name (py_str raw)) eqn:El.
  - apply result_bind_ok in H as (filename & Hf%storage_error_ok & H). apply file_reference_name in Hf. injection Hf as <-.
    apply result_bind_ok in H as (rest & Hr & H). injection H as <-. rewrite elem_of_union, elem_of_singleton, (IH _ Hr).
    destruct t as [[c r] f]; cbn. split.
    + intros [[= -> -> ->]|(? & (r0 & ? & ?) & ?)]; [|naive_solver eauto using list_elem_of_further].
      split_and!; [done| |done]. exists raw. split; [apply list_elem_of_here|done].
    + intros ([= -> ->] & (r0 & [->|Hin]%elem_of_cons & <-) & ?); [by left|right]. eauto.
  - rewrite (IH _ H). split; intros (Ht & (r0 & Hin & E) & Hl); (split_and!; [done| |done]); exists r0; (split; [|done]).
    + by apply list_elem_of_further.
    + apply elem_of_cons in Hin as [->|]; [congruence|done].
Qed.
Lemma row_references_spec col row refs :
  canonical_local_file_references_for_row col row = Ok refs -> owns_storage col = true ->
  forall t, t ∈ refs <-> row_refers col row t.
Proof.
  unfold canonical_local_file_references_for_row, row_refers. intros H Ho t. rewrite Ho in H. cbn in H.
  apply result_bind_ok in H as (cid & Hc%storage_error_ok%collection_name & H). injection Hc as <-.
  apply result_bind_ok in H as (rid & Hr%storage_error_ok%record_name & H).
  rewrite (name_references_spec _ _ _ _ H). unfold row_names. setoid_rewrite list_elem_of_bind.
  destruct t as [[c r] f]; cbn in *. destruct (dict_get "id" row) as [v|] eqn:Ed; [|done]. cbn in Hr. subst v.
  split.
  - intros ([= -> ->] & (raw & (g & Hraw & Hg) & E) & Hl). split_and!; eauto 10.
  - intros (-> & [= ->] & g & raw & Hg & Hraw & E & Hl). split_and!; eauto 10.
Qed.
Lemma rows_references_spec col rows refs :
  rows_references col rows = Ok refs -> owns_storage col = true ->
  forall t, t ∈ refs <-> exists row, row ∈ rows /\ row_refers col row t.
Proof.
  unfold rows_references. intros H Ho.
  assert (forall acc, fold_result (fun refs row => here ← canonical_local_file_references_for_row col row; Ok (refs ∪ here)) rows acc = Ok refs ->
    forall t, t ∈ refs <-> t ∈ acc \/ exists row, row ∈ rows /\ row_refers col row t) as Hg.
  { clear H. induction rows as [|row rows IH]; cbn; intros acc H t.
    { injection H as ->. set_solver. }
    destruct (_ ≫= _) as [acc'|] eqn:E; [|done]. apply result_bind_ok in E as (here & Hh & [= <-]).
    rewrite (IH _ H), elem_of_union, (row_references_spec _ _ _ Hh Ho). split.
    - intros [[?|?]|(r & ? & ?)]; [by left|right; exists row; split; [apply list_elem_of_here|done]|right; exists r; split; [by apply list_elem_of_further|done]].
    - intros [?|(r & [->|?]%elem_of_cons & ?)]; eauto. }
  intros t. rewrite (Hg _ H). set_solver.
Qed.
Lemma row_selected_id ids row i : dict_get "id" row = Some (PStr i) -> row_selected (Some ids) row = true <-> i ∈ ids.
Proof.
  intros E. cbn. rewrite E, existsb_exists. split.
  - intros (x & Hx%list_elem_of_In & ->%String.eqb_eq). done.
  - intros Hi. exists i. split; [by apply list_elem_of_In|apply String.eqb_refl].
Qed.
Lemma collection_references_spec col ids refs :
  collection_references col ids = Ok refs -> owns_storage col = true ->
  forall t, t ∈ refs <-> (forall l, ids = Some l -> t.1.2 ∈ l) /\ exists row, row ∈ stored_rows col /\ row_refers col row t.
Proof.
  unfold collection_references. intros H Ho t. destruct (file_fields col) as [|f fs] eqn:Ef.
  { injection H as <-. split; [set_solver|]. intros (_ & row & _ & _ & _ & g & raw & Hg & _). rewrite Ef in Hg. set_solver. }
  apply result_bind_ok in H as (q & _ & H). apply result_bind_ok in H as (qs & _ & H).
  rewrite (rows_references_spec _ _ _ H Ho). setoid_rewrite list_elem_of_filter. split.
  - intros (row & [Hs Hrow] & Hr). split; [|by eauto]. intros l ->. apply Is_true_true in Hs.
    by apply (row_selected_id l row); [apply Hr|].
  - intros (Hl & row & Hrow & Hr). exists row. split_and!; [|done..]. apply Is_true_true.
    destruct ids as [l|]; [|done]. apply (row_selected_id l row t.1.2); [apply Hr|by apply Hl].
Qed.
Lemma target_record_ids_spec ts cid i : i ∈ target_record_ids ts cid <-> (cid, i) ∈ ts.
Proof.
  unfold target_record_ids. rewrite list_elem_of_fmap. split.
  - intros ([c j] & -> & [Hc Ht]%list_elem_of_filter). cbn in *. by subst.
  - intros Ht. exists (cid, i). split; [done|]. by apply list_elem_of_filter.
Qed.
Definition wanted_record (targets : option (list (string * string))) (r : string * string) : Prop := forall ts, targets = Some ts -> r ∈ ts.
Lemma refers_cons col cols t :
  names_file (col :: cols) t <-> (owns_storage col = true /\ exists row, row ∈ stored_rows col /\ row_refers col row t) \/ names_file cols t.
Proof.
  unfold names_file. split.
  - intros (c & row & [->|Hc]%elem_of_cons & H); [left; naive_solver|right; eauto].
  - intros [(Ho & row & H)|(c & row & Hc & H)]; [exists col, row; split; [apply list_elem_of_here|naive_solver]|].
    exists c, row. split; [by apply list_elem_of_further|done].
Qed.
Lemma read_collections_spec targets cols visited refs :
  read_collections targets cols = Ok (visited, refs) ->
  forall t, t ∈ refs <-> wanted_record targets (record_of t) /\ names_file cols t.
Proof.
  revert visited refs. induction cols as [|col cols IH]; cbn; intros visited refs H t.
  { injection H as _ <-. split; [set_solver|]. intros (_ & c & row & Hc & _). set_solver. }
  rewrite refers_cons. destruct (owns_storage col) eqn:Ho; cbn in H; [|rewrite (IH _ _ H); naive_solver].
  apply result_bind_ok in H as (cid & Hc%storage_error_ok%collection_name & H). injection Hc as <-.
  destruct targets as [ts|].
  - destruct (target_record_ids ts (stored_id col)) as [|i l] eqn:Ei.
    + rewrite (IH _ _ H). split; [naive_solver|]. intros (Hw & [(_ & row & _ & Hr)|Hr]); [exfalso|done].
      specialize (Hw _ eq_refl). unfold record_of in Hw. rewrite <-(proj1 Hr) in Hw.
      apply target_record_ids_spec in Hw. rewrite Ei in Hw. set_solver.
    + apply result_bind_ok in H as (here & Hh & H). apply result_bind_ok in H as ([v r] & Hr & [= <- <-]).
      rewrite elem_of_union, (IH _ _ Hr), (collection_references_spec _ _ _ Hh Ho). rewrite <-Ei. unfold wanted_record.
      assert (forall row, row_refers col row t -> (t.1.2 ∈ target_record_ids ts (stored_id col) <-> record_of t ∈ ts)) as Hw
        by (intros row (E & _); rewrite target_record_ids_spec, E; done).
      naive_solver.
  - apply result_bind_ok in H as (here & Hh & H). apply result_bind_ok in H as ([v r] & Hr & [= <- <-]).
    rewrite elem_of_union, (IH _ _ Hr), (collection_references_spec _ _ _ Hh Ho). unfold wanted_record. naive_solver.
Qed.
Lemma validate_targets ts ts' : map_result validate_target ts = Ok ts' -> ts' = ts.
Proof.
  intros H. apply map_result_ok in H. induction H as [|x y ts ts' Hx _ IH]; [done|]. f_equal; [|done].
  unfold validate_target in Hx. apply result_bind_ok in Hx as (c & Hc%storage_error_ok%collection_name & Hx).
  apply result_bind_ok in Hx as (r & Hr%storage_error_ok%record_name & [= <-]). destruct x; cbn in *. congruence.
Qed.
Lemma read_references_spec cols targets refs :
  read_canonical_local_file_references cols targets = Ok refs ->
  forall t, t ∈ refs <-> wanted_record targets (record_of t) /\ names_file cols t.
Proof.
  unfold read_canonical_local_file_references. intros H. destruct targets as [targets|].
  - apply result_bind_ok in H as (ts & Hts%validate_targets & H). subst ts. destruct targets as [|t0 ts].
    { injection H as <-. intros t. unfold wanted_record. split; [set_solver|]. intros [H _]. specialize (H _ eq_refl). set_solver. }
    apply result_bind_ok in H as ([v r] & Hr & H). destruct (forallb _ _); [|done]. injection H as <-. by apply (read_collections_spec _ _ v).
  - apply result_bind_ok in H as ([v r] & Hr & [= <-]). by apply (read_collections_spec _ _ v).
Qed.

(** A reference that names one file below its record's directory. *)
Definition valid_local_reference (t : LocalFileReference) : Prop :=
  validate_collection_id (PStr t.1.1) = Ok t.1.1 /\ validate_record_id (PStr t.1.2) = Ok t.1.2 /\
  validate_file_reference (PStr t.2) = Ok t.2 /\ is_local_name t.2 = true.
Lemma name_references_valid cid rid names refs :
  name_references cid rid names = Ok refs -> validate_collection_id (PStr cid) = Ok cid -> validate_record_id (PStr rid) = Ok rid ->
  forall t, t ∈ refs -> valid_local_reference t.
Proof.
  revert refs. induction names as [|raw names IH]; cbn; intros refs H Hc Hr t.
  { injection H as <-. set_solver. }
  destruct (is_local_name (py_str raw)) eqn:El; [|by apply IH].
  apply result_bind_ok in H as (f & Hf%storage_error_ok & H). pose proof (file_reference_name _ _ Hf) as [= E].
  apply result_bind_ok in H as (rest & Hrest & [= <-]). intros [->%elem_of_singleton|Ht]%elem_of_union; [|by eapply IH].
  rewrite <-E in *. done.
Qed.
Lemma row_references_valid col row refs : canonical_local_file_references_for_row col row = Ok refs -> forall t, t ∈ refs -> valid_local_reference t.
Proof.
  unfold canonical_local_file_references_for_row. intros H t Ht. destruct (owns_storage col); cbn in H; [|injection H as <-; set_solver].
  apply result_bind_ok in H as (cid & Hc%storage_error_ok & H). apply result_bind_ok in H as (rid & Hr%storage_error_ok & H).
  rewrite (record_name _ _ Hr) in Hr. pose proof (collection_name _ _ Hc) as [= E]. rewrite E in Hc. by eapply name_references_valid.
Qed.
Lemma collection_references_valid col ids refs : collection_references col ids = Ok refs -> forall t, t ∈ refs -> valid_local_reference t.
Proof.
  unfold collection_references, rows_references. intros H. destruct (file_fields col); [injection H as <-; set_solver|].
  apply result_bind_ok in H as (q & _ & H). apply result_bind_ok in H as (qs & _ & H). revert H.
  assert (forall t, t ∈ (∅ : gset LocalFileReference) -> valid_local_reference t) as Hacc by set_solver. revert Hacc. generalize (∅ : gset LocalFileReference).
  induction (filter _ _) as [|row rows IH]; cbn; intros acc Hacc H; [by injection H as <-|].
  destruct (_ ≫= _) as [acc'|] eqn:E; [|done]. apply result_bind_ok in E as (here & Hh & [= <-]).
  eapply IH; [|exact H]. intros t [?|?]%elem_of_union; [by apply Hacc|by eapply row_references_valid].
Qed.
Lemma read_collections_valid targets cols visited refs : read_collections targets cols = Ok (visited, refs) -> forall t, t ∈ refs -> valid_local_reference t.
Proof.
  revert visited refs. induction cols as [|col cols IH]; cbn; intros visited refs H t.
  { injection H as _ <-. set_solver. }
  destruct (owns_storage col); cbn in H; [|by eapply IH]. apply result_bind_ok in H as (cid & _ & H).
  assert (forall here v r, (exists ids, collection_references col ids = Ok here) -> read_collections targets cols = Ok (v, r) ->
    t ∈ here ∪ r -> valid_local_reference t) as Hu.
  { intros here v r [ids Hh] Hr [?|?]%elem_of_union; [by eapply collection_references_valid|by eapply IH]. }
  destruct targets as [ts|]; [destruct (target_record_ids ts cid); [by eapply IH|]|];
    apply result_bind_ok in H as (here & Hh & H); apply result_bind_ok in H as ([v r] & Hr & [= <- <-]); eauto.
Qed.
Lemma read_valid cols targets refs : read_canonical_local_file_references cols targets = Ok refs -> forall t, t ∈ refs -> valid_local_reference t.
Proof.
  unfold read_canonical_local_file_references. intros H. destruct targets as [targets|].
  - apply result_bind_ok in H as (ts & _ & H). destruct ts as [|t0 ts]; [injection H as <-; set_solver|].
    apply result_bind_ok in H as ([v r] & Hr & H). destruct (forallb _ _); [|done]. injection H as <-. by eapply read_collections_valid.
  - apply result_bind_ok in H as ([v r] & Hr & [= <-]). by eapply read_collections_valid.
Qed.

(** When the reading of the file references of given records, or of all of
    them, succeeds, it gives exactly the local names held by the file fields of the
    rows of the base and auth collections, of the given records only: none is
    missed, none is added, and each names one file below its record's directory. *)
Theorem references_exact cols targets refs :
  read_canonical_local_file_references cols targets = Ok refs ->
  forall t, (t ∈ refs <-> wanted_record targets (record_of t) /\ names_file cols t) /\
    (t ∈ refs -> valid_local_reference t /\ component t.1.1 /\ component t.1.2 /\ component t.2).
Proof.
  intros H t. split; [by apply read_references_spec|]. intros Ht. pose proof (read_valid _ _ _ H t Ht) as Hv. split; [done|].
  destruct Hv as (Hc & Hr & Hf & _). exact (conj (component_text _ _ _ _ _ _ Hc) (conj (component_text _ _ _ _ _ _ Hr) (component_text _ _ _ _ _ _ Hf))).
Qed.
End References.

(** One record of a [posts] collection that keeps two files, one of them named in
    a JSON list, and a remote one. *)
Module Demo.
#[export] Instance demo_text : ReferenceText := {|
  reference_floats := fun _ => "0.0";
  reference_urls s := if starts_with "http://" s then Some ("http", "host") else Some ("", "");
  json_value s := if String.eqb s "[a]" then Some (PList [PStr "a.png"; PStr "http://x/y"]) else None;
|}.
Definition file_field name := PDict [("name", PStr name); ("type", PStr "file")].
Definition posts rows : stored_collection := mkStored "c1" "posts" "base" [file_field "cover"; file_field "photos"; PDict [("name", PStr "title"); ("type", PStr "text")]] rows.
Definition row1 := [("id", PStr "r1"); ("cover", PStr "b.png"); ("photos", PStr " [a] "); ("title", PStr "t.png")].
Definition row2 := [("id", PStr "r2"); ("cover", PStr "")].
End Demo.
#[local] Existing Instance Demo.demo_text.
Lemma references_exact_witness :
  exists refs, read_canonical_local_file_references [Demo.posts [Demo.row1; Demo.row2]] (Some [("c1", "r1")]) = Ok refs /\
    ("c1", "r1", "a.png") ∈ refs /\ ("c1", "r1", "t.png") ∉ refs.
Proof.
  assert (exists refs, read_canonical_local_file_references [Demo.posts [Demo.row1; Demo.row2]] (Some [("c1", "r1")]) = Ok refs) as [refs E]
    by (match goal with |- exists r, ?m = _ => let v := eval hnf in m in match v with Ok ?r => exists r end end; reflexivity).
  exists refs. split; [exact E|]. pose proof (references_exact _ _ _ E) as H. split.
  - refine (proj2 (proj1 (H ("c1", "r1", "a.png"))) _). split; [intros ts [= <-]; apply list_elem_of_here|].
    exists (Demo.posts [Demo.row1; Demo.row2]), Demo.row1. split; [apply list_elem_of_here|]. split; [reflexivity|]. split; [apply list_elem_of_here|].
    split; [reflexivity|]. split; [reflexivity|]. exists "photos", (PStr "a.png"). split; [apply list_elem_of_further, list_elem_of_here|].
    split; [apply list_elem_of_here|split; reflexivity].
  - intros Ht. apply (proj1 (proj1 (H ("c1", "r1", "t.png")))) in Ht as [_ (c & row & Hc & _ & Hrow & _ & Hid & f & raw & Hf & Hraw & E1 & _)].
    apply list_elem_of_singleton in Hc as ->. cbn in Hrow, Hf, E1. set_unfold.
    destruct Hrow as [->|[->|[]]]; destruct Hf as [->|[->|[]]]; vm_compute in Hraw; set_unfold;
      repeat match goal with H : _ \/ _ |- _ => destruct H | H : False |- _ => destruct H end; subst raw; discriminate E1.
Defined.
(** A reference of a record whose collection is gone is an error, not an empty answer. *)
Example missing_collection : read_canonical_local_file_references [Demo.posts []] (Some [("c2", "r1")]) = Err "RuntimeError".
Proof. reflexivity. Qed.
