(* ===== verification/RecordStorage.v ===== *)
(** * Files that follow the database (ppbase/services/record_storage_coordinator.py, ppbase/services/file_storage.py)

    A change of records and of their local files runs under one session of the
    write barrier: files are written while it runs and remembered, deletions wait
    for its end, and after the commit, the rollback or a commit whose outcome is
    not known, files are removed by what the database then refers to.  Every call
    is a step that can fail.  Of a record's directory its files are modelled, not
    their thumbnails nor the directory itself, and the S3 backend is left out. *)
From Stdlib Require Import Ascii String.
From S2P Require Import Prelude PyText PyVal StorageSafety FileReferences Steps.
#[local] Open Scope string_scope.
#[local] Open Scope list_scope.

Inductive deletion : Type := Files (collection_id record_id : string) (filenames : list string) | All (collection_id record_id : string).
Definition deletion_record (d : deletion) : string * string := match d with Files c r _ | All c r => (c, r) end.
Section Storage.
Context {rt : ReferenceText}.
Record storage : Type := mkStorage {
  files : gmap LocalFileReference string;
  created : gset LocalFileReference; deferred : list deletion; tracking : bool;
  durable : list stored_collection; working : option (list stored_collection);         (* committed, and of the open transaction *)
  finished : bool; active : bool;
}.
Definition M : Type -> Type := stm (world storage) failure.
Definition with_files f s : storage := mkStorage (f (files s)) (created s) (deferred s) (tracking s) (durable s) (working s) (finished s) (active s).
Definition with_created f s : storage := mkStorage (files s) (f (created s)) (deferred s) (tracking s) (durable s) (working s) (finished s) (active s).
Definition with_deferred f s : storage := mkStorage (files s) (created s) (f (deferred s)) (tracking s) (durable s) (working s) (finished s) (active s).
Definition with_tracking b s : storage := mkStorage (files s) (created s) (deferred s) b (durable s) (working s) (finished s) (active s).
Definition with_data d w s : storage := mkStorage (files s) (created s) (deferred s) (tracking s) d w (finished s) (active s).
Definition with_finished b s : storage := mkStorage (files s) (created s) (deferred s) (tracking s) (durable s) (working s) b (active s).
Definition with_active b s : storage := mkStorage (files s) (created s) (deferred s) (tracking s) (durable s) (working s) (finished s) b.
(** What a query of the connection sees. *)
Definition current (s : storage) : list stored_collection := default (durable s) (working s).

(** ** Writing and deleting files *)
Definition StorageSafetyFailure {A} : M A := stm_raise (Raised "StorageSafetyError").
Definition checked {A} (r : result StorageSafetyError A) : M A := match r with Ok a => mret a | Err _ => StorageSafetyFailure end.
(** Exceptions that the clean-up goes on after. *)
Definition cleanup_skips (k : string) : bool := String.eqb k "OSError" || String.eqb k "StorageSafetyError".
Definition tolerant (m : M unit) : M unit := catch m (fun k => if cleanup_skips k then mret tt else stm_raise (Raised k)).
(** [O_CREAT | O_EXCL], then the content; a file that cannot be filled is removed. *)
Definition _write_file_exclusive_at (t : LocalFileReference) (content : string) : M unit :=
  taken ← look (fun s => bool_decide (is_Some (files s !! t)));
  if (taken : bool) then stm_raise (Raised "FileExistsError") else
  _ ← set (with_files <[t := ""]>);
  catch (change (with_files <[t := content]>)) (fun k => _ ← change (with_files (delete t)); stm_raise (Raised k)).
Definition _unlink_regular_file_at (t : LocalFileReference) : M unit := change (with_files (delete t)).
Definition track (t : LocalFileReference) : M unit := set (fun s => if tracking s then with_created (union {[t]}) s else s).
(** Up to twenty names, each drawn by [_generate_storage_filename]. *)
Fixpoint place (c r : string) (draws : list string) (content : string) : M string :=
  match draws with
  | [] => stm_raise (Raised "RuntimeError")
  | name :: draws =>
      _ ← checked (validate_file_reference (PStr name));
      placed ← catch (_ ← _write_file_exclusive_at (c, r, name) content; mret true)
                 (fun k => if String.eqb k "FileExistsError" then mret false else stm_raise (Raised k));
      if (placed : bool) then (_ ← track (c, r, name); mret name) else place c r draws content
  end.
(** Each upload with the names drawn for it; when a later one fails the earlier
    ones are removed, the last first. *)
Fixpoint save_each (c r : string) (max_select : Z) (uploads : list (list string * string)) : M (list string) :=
  match uploads with
  | [] => mret []
  | (draws, content) :: uploads =>
      name ← place c r (take 20 draws) content;
      if (max_select =? 1)%Z then mret [name] else
      catch (names ← save_each c r max_select uploads; mret (name :: names))
        (fun k => _ ← tolerant (_unlink_regular_file_at (c, r, name)); stm_raise (Raised k))
  end.
Definition open_record_directory (c r : string) : M unit :=
  _ ← checked (validate_collection_id (PStr c)); _ ← checked (validate_record_id (PStr r)); look (fun _ => tt).
Definition save_files (c r : string) (uploads : list (list string * string)) (max_select : Z) : M (list string) :=
  match uploads with
  | [] => mret []
  | _ => _ ← open_record_directory c r; save_each c r max_select uploads
  end.
Fixpoint _deletable_file_references (filenames : list string) : M (list string) :=
  match filenames with
  | [] => mret []
  | f :: rest =>
      if is_remote_file_reference (PStr f) then _deletable_file_references rest else
      safe ← checked (validate_file_reference (PStr f));
      safes ← _deletable_file_references rest;
      mret (safe :: safes)
  end.
Definition unlink_all (ts : list LocalFileReference) : M unit := stm_iter _unlink_regular_file_at ts.
Definition delete_files (c r : string) (filenames : list string) : M unit :=
  match filenames with
  | [] => mret tt
  | _ =>
      c ← checked (validate_collection_id (PStr c)); r ← checked (validate_record_id (PStr r));
      safe ← _deletable_file_references filenames;
      w ← stm_get;
      match safe with
      | [] => mret tt
      | _ => if tracking (st w) then set (with_deferred (fun l => l ++ [Files c r safe]))
             else (_ ← open_record_directory c r; unlink_all ((fun f => (c, r, f)) <$> safe))
      end
  end.
(** The files of a record but those that are kept. *)
Definition remove_tree_except (c r : string) (kept : list string) : M unit :=
  _ ← open_record_directory c r;
  found ← look (fun s => (map_to_list (files s)).*1);
  unlink_all (filter (fun t => record_of t = (c, r) /\ t.2 ∉ kept) found).
Definition delete_all_files (c r : string) : M unit :=
  c ← checked (validate_collection_id (PStr c)); r ← checked (validate_record_id (PStr r));
  w ← stm_get;
  if tracking (st w) then set (with_deferred (fun l => l ++ [All c r])) else remove_tree_except c r [].
Definition delete_all_files_except (c r : string) (preserved : list string) : M unit :=
  c ← checked (validate_collection_id (PStr c)); r ← checked (validate_record_id (PStr r));
  safe ← _deletable_file_references preserved;
  match safe with [] => delete_all_files c r | _ => remove_tree_except c r safe end.
Definition preserved_names (preserved : gset LocalFileReference) (c r : string) : list string :=
  snd <$> filter (fun t => record_of t = (c, r)) (elements preserved).
(** The failures are only counted. *)
Definition flush_deferred_storage_deletes (actions : list deletion) (preserved : gset LocalFileReference) : M unit :=
  stm_iter (fun action => tolerant
    (match action with
     | Files c r filenames => delete_files c r (filter (fun f => (c, r, f) ∉ preserved) filenames)
     | All c r => delete_all_files_except c r (preserved_names preserved c r)
     end)) actions.

(** ** The coordinated transaction *)
Definition _affected_records (created : gset LocalFileReference) (deferred : list deletion) : list (string * string) :=
  (record_of <$> elements created) ++ (deletion_record <$> deferred).
Definition _final_file_references (targets : list (string * string)) : M (gset LocalFileReference) :=
  _ ← look (fun _ => tt);                                   (* get_all_collections *)
  refs ← look (fun s => read_canonical_local_file_references (current s) (Some targets));
  match refs with Ok refs => mret refs | Err k => stm_raise (Raised k) end.
Definition _cleanup_created_files (created_targets : gset LocalFileReference) : M unit :=
  stm_iter (fun t : LocalFileReference => tolerant (delete_files t.1.1 t.1.2 [t.2])) (elements created_targets).
Definition _cleanup_unreferenced_created_files (created_file_targets final_file_references : gset LocalFileReference) : M unit :=
  _cleanup_created_files (created_file_targets ∖ final_file_references).
Definition _reconcile_durable_references (targets : list (string * string)) : M (option (gset LocalFileReference)) :=
  match targets with
  | [] => mret (Some ∅)
  | _ => catch (refs ← _final_file_references targets; mret (Some refs))
           (fun k => if String.eqb k "CancelledError" then stm_raise (Raised k) else mret None)
  end.
Definition barrier_still_held : M unit := catch (look (fun _ => tt)) (fun _ => stm_raise (Raised "WriteBarrierConnectionLostError")).
(** A cancellation can arrive before and after the statement. *)
Definition interruptible (m : M unit) : M unit :=
  _ ← catch (look (fun _ => tt)) (fun _ => stm_raise (Raised "CancelledError"));
  _ ← m;
  catch (look (fun _ => tt)) (fun _ => stm_raise (Raised "CancelledError")).
Definition begin : M unit := change (fun s => with_data (durable s) (Some (durable s)) s).
Definition commit : M unit := interruptible (change (fun s => with_data (current s) None s)).
Definition rollback : M unit := change (fun s => with_data (durable s) None s).
Definition affected_now : M (list (string * string)) := w ← stm_get; mret (_affected_records (created (st w)) (deferred (st w))).
Definition storage_transaction_body {A} (operation : M A) : M (A * gset LocalFileReference) :=
  _ ← begin;
  _ ← set (with_tracking true);
  result ← operation;
  affected ← affected_now;
  refs ← match affected with [] => mret ∅ | _ => _final_file_references affected end;
  _ ← set (with_finished true);
  _ ← commit;
  mret (result, refs).
(** After an exception: what is removed depends on how far the body came. *)
Definition compensate (k : string) : M unit :=
  _ ← set (with_tracking false);
  _ ← rollback;
  _ ← barrier_still_held;
  w ← stm_get;
  if finished (st w) && negb (String.eqb k "CancelledError") then
    affected ← affected_now;
    refs ← _reconcile_durable_references affected;
    match refs with
    | Some refs => _cleanup_unreferenced_created_files (created (st w)) refs
    | None => mret tt
    end
  else if finished (st w) then mret tt
  else _cleanup_created_files (created (st w)).
Definition settle {A} (done : A * gset LocalFileReference) : M A :=
  _ ← set (with_tracking false);
  _ ← barrier_still_held;
  w ← stm_get;
  _ ← _cleanup_unreferenced_created_files (created (st w)) (snd done);
  _ ← flush_deferred_storage_deletes (deferred (st w)) (snd done);
  _ ← barrier_still_held;
  mret (fst done).
Definition start (s : storage) : storage := mkStorage (files s) ∅ [] false (durable s) None false true.
Definition finally {A} (m : M A) (f : M unit) : M A :=
  r ← catch m (fun k => _ ← f; stm_raise (Raised k)); _ ← f; mret r.
(** [async with mutation_write_barrier(...)]: the lease is taken and given back. *)
Definition under_barrier {A} (m : M A) : M A := _ ← look (fun _ => tt); finally m (look (fun _ => tt)).
(** A transaction within another one joins it. *)
Definition run_record_storage_transaction {A} (operation : M A) : M A :=
  w ← stm_get;
  if active (st w) then operation else
  under_barrier
    (_ ← set start;
     finally
       (done ← catch (storage_transaction_body operation) (fun k => _ ← compensate k; stm_raise (Raised k));
        settle done)
       (set (with_active false))).

(** What the rows refer to is there, with a content that is [wanted]. *)
Definition consistent (wanted : LocalFileReference -> string -> Prop) (d : list stored_collection) (fs : gmap LocalFileReference string) : Prop :=
  forall t, names_file d t -> exists x, fs !! t = Some x /\ wanted t x.
(** What an operation keeps while it runs: nothing of the start is removed or
    replaced, and what it remembers having written is new. *)
Record during (d : list stored_collection) (fs : gmap LocalFileReference string) (s : storage) : Prop := {
  during_active : active s = true;
  during_tracking : tracking s = true;
  during_open : finished s = false;
  during_durable : durable s = d;
  during_files : fs ⊆ files s;
  during_created : forall t, t ∈ created s -> fs !! t = None;
}.
(** An operation that returns leaves its own rows with their files. *)
Definition writes_its_files {A} (operation : M A) wanted d fs : Prop :=
  triple (fun s => during d fs s /\ files s = fs /\ created s = ∅ /\ deferred s = [] /\ working s = Some d) operation
    (fun _ s => during d fs s /\ consistent wanted (current s) (files s)) (fun _ => during d fs).

(** * Proofs *)

#[local] Arguments validate_file_reference : simpl never.
#[local] Arguments validate_record_id : simpl never.
#[local] Arguments validate_collection_id : simpl never.
#[local] Arguments is_remote_file_reference : simpl never.
#[local] Arguments read_canonical_local_file_references : simpl never.
Lemma triple_get {A} (P : storage -> Prop) (f : world storage -> M A) Q X :
  (forall w, P (st w) -> triple (fun s => s = st w) (f w) Q X) -> triple P (stm_get ≫= f) Q X.
Proof. intros Hf w HP. by apply (Hf w HP w). Qed.
(** The goal of a state known to be that of the hypothesis. *)
Ltac at_state H := let w := fresh in let E := fresh in intros w E; unfold post; cbn; rewrite E; exact H.
Lemma triple_checked {A B} (P : storage -> Prop) (r : result StorageSafetyError A) (f : A -> M B) Q (X : failure -> storage -> Prop) :
  (forall e s, P s -> X e s) -> (forall a, r = Ok a -> triple P (f a) Q X) -> triple P (checked r ≫= f) Q X.
Proof. intros HX Hf w HP. destruct r as [a|e]; [by apply (Hf a)|by apply HX]. Qed.

#[local] Abbreviation left_in R := (fun _ : failure => R).

(** ** What the clean-up leaves *)
Section Undisturbed.
Context (wanted : LocalFileReference -> string -> Prop) (d : list stored_collection).
Definition undisturbed (s : storage) : Prop := durable s = d /\ consistent wanted d (files s).
#[local] Abbreviation keeps m := (triple undisturbed m (fun _ => undisturbed) (left_in undisturbed)).
Lemma undisturbed_look : keeps (look (fun _ : storage => tt)).
Proof. by apply triple_act. Qed.
Lemma undisturbed_tolerant m : keeps m -> keeps (tolerant m).
Proof.
  intros Hm. eapply triple_catch; [exact Hm|done|]. intros k. cbn. destruct (cleanup_skips k); [by intros w|by apply triple_raise].
Qed.
Lemma undisturbed_iter {A} (f : A -> M unit) l : (forall x, x ∈ l -> keeps (f x)) -> keeps (stm_iter f l).
Proof.
  induction l as [|x l IH]; intros Hf; [by intros w|]. cbn. eapply triple_bind; [apply Hf, list_elem_of_here|].
  intros ?. apply IH. intros y Hy. by apply Hf, list_elem_of_further.
Qed.
Lemma undisturbed_unlink ts : (forall t, t ∈ ts -> ~ names_file d t) -> keeps (unlink_all ts).
Proof.
  intros Ht. apply undisturbed_iter. intros t Hin. apply stays_change. intros s [Hd Hc]. split; [done|].
  intros u Hu. cbn. rewrite lookup_delete_ne; [by apply Hc|]. intros ->. by apply (Ht u).
Qed.
Lemma undisturbed_open c r : keeps (open_record_directory c r).
Proof. do 2 (apply triple_checked; [done|]; intros ? _). apply undisturbed_look. Qed.
Lemma deletable_spec (P : storage -> Prop) names :
  triple P (_deletable_file_references names)
    (fun safe s => (forall n, n ∈ safe -> n ∈ names) /\ (forall n, n ∈ names -> is_local_name n = true -> n ∈ safe) /\ P s) (left_in P).
Proof.
  induction names as [|n names IH]; cbn.
  { intros w HP. split_and!; [done..|exact HP]. }
  destruct (is_remote_file_reference (PStr n)) eqn:Er.
  - eapply triple_conseq; [exact IH|done| |done]. cbn. intros safe s (H1 & H2 & H3). split_and!; [set_solver| |done].
    intros x [->|Hx]%elem_of_cons; [|by apply H2]. unfold is_local_name. by rewrite Er, orb_true_r.
  - apply triple_checked; [done|]. intros a Ha%file_reference_name. injection Ha as <-.
    eapply triple_bind; [exact IH|]. cbn. intros safe w (H1 & H2 & H3). split_and!; [set_solver..|exact H3].
Qed.
Lemma undisturbed_delete_files c r names : (forall n, n ∈ names -> ~ names_file d (c, r, n)) -> keeps (delete_files c r names).
Proof.
  intros Hn. unfold delete_files. destruct names as [|n0 names]; [by intros w|]. set (l := n0 :: names) in *.
  apply triple_checked; [done|]. intros c' Hc%collection_name. injection Hc as <-.
  apply triple_checked; [done|]. intros r' Hr%record_name. injection Hr as <-.
  eapply triple_bind; [apply deletable_spec|]. intros safe. apply triple_get. intros w (Hs & _ & Hu). destruct safe as [|x safe]; [at_state Hu|].
  destruct (tracking (st w)); [at_state Hu|]. eapply (triple_pre undisturbed); [by intros s ->|].
  eapply triple_bind; [apply undisturbed_open|]. intros ?. apply undisturbed_unlink.
  intros t (n & Et & Hin)%list_elem_of_fmap. rewrite Et. by apply Hn, Hs.
Qed.
Lemma undisturbed_remove c r kept : (forall t, record_of t = (c, r) -> names_file d t -> t.2 ∈ kept) -> keeps (remove_tree_except c r kept).
Proof.
  intros Hk. eapply triple_bind; [apply undisturbed_open|]. intros ?. apply look_spec. intros found. eapply (triple_pre undisturbed); [by intros s []|].
  apply undisturbed_unlink. intros t [[Hr Hn] _]%list_elem_of_filter Ht. by apply Hn, Hk.
Qed.
Lemma undisturbed_delete_all c r : (forall t, record_of t = (c, r) -> ~ names_file d t) -> keeps (delete_all_files c r).
Proof.
  intros Hk. unfold delete_all_files. apply triple_checked; [done|]. intros c' Hc%collection_name. injection Hc as <-.
  apply triple_checked; [done|]. intros r' Hr%record_name. injection Hr as <-. apply triple_get. intros w Hu.
  destruct (tracking (st w)); [at_state Hu|]. eapply (triple_pre undisturbed); [by intros s ->|].
  apply undisturbed_remove. intros t Ht Hr. by destruct (Hk t).
Qed.
Lemma undisturbed_delete_except c r names :
  (forall t, record_of t = (c, r) -> names_file d t -> t.2 ∈ names /\ is_local_name t.2 = true) -> keeps (delete_all_files_except c r names).
Proof.
  intros Hk. unfold delete_all_files_except. apply triple_checked; [done|]. intros c' Hc%collection_name. injection Hc as <-.
  apply triple_checked; [done|]. intros r' Hr%record_name. injection Hr as <-.
  eapply triple_bind; [apply deletable_spec|]. intros safe.
  apply triple_pure. intros Hs. apply triple_pure. intros Hl.
  assert (forall t, record_of t = (c, r) -> names_file d t -> t.2 ∈ safe) as Hsafe by (intros t Ht Hr; apply Hl; by apply Hk).
  destruct safe as [|x safe]; [|by apply undisturbed_remove]. apply undisturbed_delete_all. intros t Ht Hr. by apply (Hsafe t), not_elem_of_nil in Hr.
Qed.
Lemma undisturbed_cleanup ts : (forall t, t ∈ ts -> ~ names_file d t) -> keeps (_cleanup_created_files ts).
Proof.
  intros Hts. apply undisturbed_iter. intros t Ht%elem_of_elements. apply undisturbed_tolerant, undisturbed_delete_files.
  intros n ->%list_elem_of_singleton. destruct t as [[c r] n]. by apply Hts.
Qed.
(** [refs] has all the references of the affected records. *)
Definition covering (targets : list (string * string)) (refs : gset LocalFileReference) : Prop :=
  forall t, names_file d t -> record_of t ∈ targets -> t ∈ refs.
Lemma undisturbed_unreferenced ts targets refs :
  covering targets refs -> (forall t, t ∈ ts -> record_of t ∈ targets) -> keeps (_cleanup_unreferenced_created_files ts refs).
Proof. intros Hc Hts. apply undisturbed_cleanup. intros t [Hin Hn]%elem_of_difference Hr. by apply Hn, Hc; [|apply Hts]. Qed.
Lemma undisturbed_flush actions targets refs :
  covering targets refs -> (forall a, a ∈ actions -> deletion_record a ∈ targets) -> keeps (flush_deferred_storage_deletes actions refs).
Proof.
  intros Hc Ha. apply undisturbed_iter. intros a Hin%Ha. apply undisturbed_tolerant. destruct a as [c r names|c r]; cbn in Hin.
  - apply undisturbed_delete_files. intros n [Hn _]%list_elem_of_filter Hr. by apply Hn, Hc.
  - apply undisturbed_delete_except. intros t Ht Hr. assert (t ∈ refs) as Hrefs by (apply Hc; [done|by rewrite Ht]).
    split; [|by destruct Hr as (? & ? & _ & _ & _ & _ & _ & ? & ? & _ & _ & _ & ?)].
    apply list_elem_of_fmap. exists t. split; [done|]. apply list_elem_of_filter. by rewrite elem_of_elements.
Qed.
End Undisturbed.

(** ** The transaction *)
Section Transaction.
Context (wanted : LocalFileReference -> string -> Prop) (d : list stored_collection) (fs : gmap LocalFileReference string).
Context {A : Type} (operation : M A) (Hop : writes_its_files operation wanted d fs) (Hd : consistent wanted d fs).
Definition safe (s : storage) : Prop := consistent wanted (durable s) (files s).
(** Until the body has finished, what was written belongs to no row. *)
Definition sound (s : storage) : Prop := safe s /\ (finished s = false -> forall t, t ∈ created s -> ~ names_file (durable s) t).
Definition affected_of (s : storage) : list (string * string) := _affected_records (created s) (deferred s).
Lemma during_sound s : during d fs s -> sound s.
Proof.
  intros [_ _ Hf Hdur Hfs Hc]. unfold sound, safe. rewrite Hdur. split.
  - intros t (x & Hx & Hw)%Hd. exists x. split; [|done]. by eapply lookup_weaken.
  - intros _ t Ht (x & Hx & _)%Hd. by rewrite (Hc t Ht) in Hx.
Qed.
Lemma affected_created s t : t ∈ created s -> record_of t ∈ affected_of s.
Proof. intros Ht. apply elem_of_app. left. by apply list_elem_of_fmap_2, elem_of_elements. Qed.
Lemma affected_deferred s a : a ∈ deferred s -> deletion_record a ∈ affected_of s.
Proof. intros Ha. apply elem_of_app. right. by apply list_elem_of_fmap_2. Qed.
(** The references that are read are those of what the connection sees. *)
Lemma final_references_spec (P : storage -> Prop) X targets :
  (forall e s, P s -> X e s) ->
  triple P (_final_file_references targets) (fun refs s => covering (current s) targets refs /\ P s) X.
Proof.
  intros HX. eapply triple_bind; [by apply triple_look; auto|]. intros a.
  eapply (triple_pre P); [by intros s []|]. eapply triple_bind; [by apply triple_look; auto|]. cbn. intros res w [Hres HP].
  destruct res as [refs|k]; [|by apply HX]. split; [|exact HP]. intros t Ht Hin. symmetry in Hres. apply (read_references_spec _ _ _ Hres).
  split; [by intros ts [= <-]|done].
Qed.
(** The body ends with the rows and the files of the operation committed. *)
Definition committed (refs : gset LocalFileReference) (s : storage) : Prop := safe s /\ covering (durable s) (affected_of s) refs.
Lemma interruptible_spec (P Q : storage -> Prop) m (X : failure -> storage -> Prop) :
  (forall e s, P s -> X e s) -> (forall e s, Q s -> X e s) -> triple P m (fun _ => Q) X -> triple P (interruptible m) (fun _ => Q) X.
Proof.
  assert (forall R : storage -> Prop, (forall e s, R s -> X e s) ->
    triple R (catch (look (fun _ : storage => tt)) (fun _ => stm_raise (Raised "CancelledError"))) (fun _ => R) X) as Hstep.
  { intros R HR. eapply triple_catch; [by apply (triple_act R _ (fun _ => R) (fun _ => R)); auto|by apply HR|]. intros k. apply triple_raise. by apply HR. }
  intros HP HQ Hm. eapply triple_bind; [by apply Hstep|]. intros ?. eapply triple_bind; [exact Hm|]. intros ?. by apply Hstep.
Qed.
Lemma transaction_body_spec :
  triple (fun s => s = start s /\ active s = true /\ files s = fs /\ durable s = d) (storage_transaction_body operation)
    (fun '(_, refs) s => committed refs s) (fun _ => sound).
Proof.
  eapply (triple_bind _ _ _ (fun _ s => active s = true /\ files s = fs /\ created s = ∅ /\ deferred s = [] /\ finished s = false /\ durable s = d /\ working s = Some d)).
  { apply triple_change. intros s (Hs & Ha & Hf & Hdu). rewrite Hs. unfold sound, safe. cbn. rewrite Hf, Hdu. split_and!; try done; set_solver. }
  intros ?. eapply triple_bind; [apply triple_set|intros ?; eapply triple_bind].
  { intros s (Ha & Hf & Hc & Hde & Hfi & Hdu & Hw).
    instantiate (1 := fun s => during d fs s /\ files s = fs /\ created s = ∅ /\ deferred s = [] /\ working s = Some d).
    cbn. split_and!; try done. constructor; cbn; rewrite ?Hf, ?Hc; try done; set_solver. }
  { eapply triple_conseq; [exact Hop|done|by intros x s H; exact H|]. intros e s. apply during_sound. }
  intros result. unfold affected_now. eapply (triple_bind _ _ _ (fun aff s => aff = affected_of s /\ during d fs s /\ consistent wanted (current s) (files s))).
  { intros w H. by split. }
  intros aff. eapply (triple_bind _ _ _ (fun refs s => covering (current s) (affected_of s) refs /\ during d fs s /\ consistent wanted (current s) (files s))).
  { destruct aff as [|r0 aff].
    { intros w (E & Hrest). split; [|exact Hrest]. intros t _ Ht. rewrite <-E in Ht. by apply not_elem_of_nil in Ht. }
    eapply triple_conseq; [apply (final_references_spec _ (fun _ => sound))|intros s H; exact H| |done].
    - intros e s (_ & Hdu & _). by apply during_sound.
    - cbn. intros refs s (Hcov & E & Hdu & Hco). by rewrite E in Hcov. }
  intros refs. eapply (triple_bind _ _ _ (fun _ s => covering (current s) (affected_of s) refs /\ safe s /\ finished s = true /\ consistent wanted (current s) (files s))).
  { apply triple_set. intros s (Hcov & Hdu & Hco). pose proof (proj1 (during_sound s Hdu)). done. }
  intros ?. eapply (triple_bind _ _ _ (fun _ s => committed refs s)); [|by intros ? w H].
  eapply triple_conseq; [apply (interruptible_spec _ (fun s => finished s = true /\ committed refs s) _ (fun _ => sound))|intros s H; exact H|by intros ? s []|done].
  - intros e s (_ & Hs & Hf & _). split; [done|congruence].
  - intros e s (Hf & Hs & _). split; [done|congruence].
  - apply triple_change. intros s (Hcov & Hs & Hf & Hco). unfold sound, committed, safe. cbn. split_and!; try done; congruence.
Qed.
Lemma undisturbed_safe {B} (m : M B) (s0 : storage) :
  triple (undisturbed wanted (durable s0)) m (fun _ => undisturbed wanted (durable s0)) (left_in (undisturbed wanted (durable s0))) ->
  safe s0 -> triple (fun s => s = s0) m (fun _ => safe) (left_in safe).
Proof.
  intros Hm Hs. eapply triple_conseq; [exact Hm|by intros s ->|..]; intros ? s [Hdu Hc]; unfold safe; by rewrite Hdu.
Qed.
Lemma barrier_held (P : storage -> Prop) X : (forall e s, P s -> X e s) -> triple P barrier_still_held (fun _ => P) X.
Proof.
  intros HX. eapply triple_catch; [by apply (triple_act P _ (fun _ => P) (fun _ => P)); auto|by apply HX|]. intros k. apply triple_raise. by apply HX.
Qed.
Lemma compensate_spec k : triple sound (compensate k) (fun _ => safe) (left_in safe).
Proof.
  eapply (triple_bind _ _ _ (fun _ => sound)); [by apply triple_set|]. intros ?.
  eapply (triple_bind _ _ _ (fun _ s => sound s /\ working s = None)).
  { apply triple_change. intros s Hs. split_and!; try done; apply Hs. }
  intros ?. eapply triple_bind; [apply barrier_held; by intros e s [[? _] _]|]. intros ?. apply triple_get. intros w [[Hs Hc] Hw].
  assert (current (st w) = durable (st w)) as Hcur by (unfold current; by rewrite Hw).
  destruct (finished (st w)) eqn:Ef; cbn [andb]; [destruct (negb _); [|at_state Hs]|].
  - eapply (triple_bind _ _ _ (fun aff s => aff = affected_of (st w) /\ s = st w)).
    { intros w' E. by split; [f_equal; rewrite E|exact E]. }
    intros aff. apply triple_pure. intros ->.
    eapply (triple_bind _ _ _ (fun refs s => (forall r, refs = Some r -> covering (durable (st w)) (affected_of (st w)) r) /\ s = st w)).
    + unfold _reconcile_durable_references. destruct (affected_of (st w)) as [|r0 aff].
      { intros w' E. split; [|exact E]. intros r [= <-] t _ Ht. by apply not_elem_of_nil in Ht. }
      eapply (triple_catch _ _ _ _ _ (fun _ s => s = st w)); [|by intros s ->|].
      * eapply triple_bind; [by apply (final_references_spec (fun s => s = st w))|]. intros refs w' [Hcov E].
        split; [|exact E]. intros r [= <-]. by rewrite E, Hcur in Hcov.
      * intros k'. destruct (String.eqb _ _); [apply triple_raise; by intros s ->|]. by intros w' E.
    + intros refs. apply triple_pure. intros Hcov. destruct refs as [refs|]; [|at_state Hs].
      apply undisturbed_safe; [|done]. eapply undisturbed_unreferenced; [by apply Hcov|]. apply affected_created.
  - apply undisturbed_safe; [|done]. apply undisturbed_cleanup. by apply Hc.
Qed.
Lemma settle_spec (r : A * gset LocalFileReference) : triple (committed (snd r)) (settle r) (fun _ => safe) (left_in safe).
Proof.
  eapply (triple_bind _ _ _ (fun _ => committed (snd r))); [by apply triple_set|]. intros ?.
  eapply triple_bind; [apply barrier_held; by intros e s []|]. intros ?. apply triple_get. intros w [Hs Hc].
  apply undisturbed_safe; [|done]. set (U := undisturbed wanted (durable (st w))).
  apply (triple_bind _ _ _ (fun _ => U)); [|intros ?; apply (triple_bind _ _ _ (fun _ => U)); [|intros ?; apply (triple_bind _ _ _ (fun _ => U)); [|by intros ? w' H]]].
  - eapply undisturbed_unreferenced; [exact Hc|]. apply affected_created.
  - eapply undisturbed_flush; [exact Hc|]. apply affected_deferred.
  - by apply barrier_held.
Qed.
Lemma finally_spec {B} (P : storage -> Prop) (m : M B) f (Q : storage -> Prop) :
  triple P m (fun _ => Q) (left_in Q) -> triple Q f (fun _ => Q) (left_in Q) -> triple P (finally m f) (fun _ => Q) (left_in Q).
Proof.
  intros Hm Hf. eapply triple_bind.
  - eapply triple_catch; [exact Hm|done|]. intros k. eapply triple_bind; [exact Hf|]. intros ?. by apply triple_raise.
  - intros b. eapply triple_bind; [exact Hf|]. by intros ? w.
Qed.
Lemma transaction_safe :
  triple (fun s => active s = false /\ files s = fs /\ durable s = d) (run_record_storage_transaction operation) (fun _ => safe) (left_in safe).
Proof.
  apply triple_get. intros w (Ha & Hf & Hdu). rewrite Ha.
  assert (safe (st w)) as Hs by (unfold safe; by rewrite Hf, Hdu).
  eapply triple_bind; [by apply (triple_act (fun s => s = st w) _ (fun _ s => s = st w)); intros s ->|]. intros ?.
  apply finally_spec; [|by apply triple_act].
  eapply triple_bind; [apply triple_set; intros s ->; instantiate (1 := fun s => s = start (st w)); done|]. intros ?.
  apply finally_spec; [|by apply triple_set].
  eapply (triple_bind _ _ _ (fun r s => committed (snd r) s)); [|intros r; apply settle_spec].
  eapply (triple_catch _ _ _ _ _ (fun _ => sound)); [|by intros s []|].
  - eapply triple_conseq; [apply transaction_body_spec| | |done]; [intros s ->; by rewrite <-Hf, <-Hdu|by intros []].
  - intros k. eapply triple_bind; [apply compensate_spec|]. intros ?. by apply triple_raise.
Qed.
End Transaction.

(** ** Operations: writing files, rows and deletions *)
(** The statements of the operation, within the open transaction. *)
Definition execute (f : list stored_collection -> list stored_collection) : M unit :=
  change (fun s => with_data (durable s) (Some (f (current s))) s).
(** A record written with its uploads: the row names what was saved, and the files
    that it names no more are deleted. *)
Definition replace_record_files (c r : string) (uploads : list (list string * string)) (max_select : Z)
    (row : list string -> list stored_collection -> list stored_collection) (removed : list string) : M (list string) :=
  names ← save_files c r uploads max_select;
  _ ← execute (row names);
  _ ← delete_files c r removed;
  mret names.
Section Operations.
Context (d : list stored_collection) (fs : gmap LocalFileReference string) (wk : option (list stored_collection)).
#[local] Abbreviation held := (list (LocalFileReference * string)).
(** The files of [l] are there, and nothing else has changed. *)
Definition holding (l : held) (s : storage) : Prop := (during d fs s /\ working s = wk) /\ (forall t x, (t, x) ∈ l -> files s !! t = Some x).
Definition fresh (l : held) (t : LocalFileReference) : Prop := fs !! t = None /\ forall x, (t, x) ∉ l.
Lemma holding_fresh l t s : holding l s -> files s !! t = None -> fresh l t.
Proof.
  intros [Hd Hl] Hn. split; [eapply lookup_weaken_None; [exact Hn|apply Hd]|]. intros x Hx%Hl. by rewrite Hn in Hx.
Qed.
Lemma holding_change l t g s : fresh l t -> (forall u, u <> t -> g (files s) !! u = files s !! u) -> holding l s -> holding l (with_files g s).
Proof.
  intros [Hn Hl0] Hg [[[Ha Ht Hf Hd Hfs Hc] Hw] Hl]. split.
  - split; [|done]. constructor; try done. cbn. apply map_subseteq_spec. intros u y Hu. rewrite Hg; [by eapply lookup_weaken|]. intros ->. by rewrite Hn in Hu.
  - intros u y Hu. cbn. rewrite Hg; [by apply Hl|]. intros ->. by apply (Hl0 y).
Qed.
Lemma holding_put l t x s : fresh l t -> holding l s -> holding l (with_files <[t := x]> s).
Proof. intros Ht. apply (holding_change _ t); [done|]. intros u Hu. by rewrite lookup_insert_ne. Qed.
Lemma holding_remove l t s : fresh l t -> holding l s -> holding l (with_files (delete t) s).
Proof. intros Ht. apply (holding_change _ t); [done|]. intros u Hu. by rewrite lookup_delete_ne. Qed.
Lemma holding_cons l t x s : holding l s -> files s !! t = Some x -> holding ((t, x) :: l) s.
Proof. intros [Hd Hl] Hx. split; [done|]. intros u y [[= -> ->]|Hu]%elem_of_cons; [done|by apply Hl]. Qed.
Lemma write_spec l t x :
  triple (holding l) (_write_file_exclusive_at t x) (fun _ s => fresh l t /\ holding l s /\ files s !! t = Some x) (left_in (holding l)).
Proof.
  apply look_spec. intros taken. destruct taken.
  { apply triple_raise. by intros s []. }
  apply (triple_pre (fun s => fresh l t /\ holding l s)).
  { intros s [Hn Hs]. split; [|done]. eapply holding_fresh; [done|]. symmetry in Hn. apply bool_decide_eq_false in Hn. by apply eq_None_not_Some. }
  apply triple_pure. intros Ht. eapply (triple_bind _ _ _ (fun _ => holding l)); [apply triple_set; intros s; by apply holding_put|]. intros ?.
  eapply (triple_catch _ _ _ _ _ (left_in (holding l))); [|done|].
  - apply triple_change. intros s Hs. pose proof (holding_put _ _ x _ Ht Hs). split_and!; try done. cbn. apply lookup_insert_eq.
  - intros k. eapply (triple_bind _ _ _ (fun _ => holding l)); [apply stays_change; intros s; by apply holding_remove|]. intros ?. by apply triple_raise.
Qed.
Lemma place_spec l c r draws x :
  triple (holding l) (place c r draws x) (fun name s => fresh l (c, r, name) /\ holding (((c, r, name), x) :: l) s) (left_in (holding l)).
Proof.
  induction draws as [|name draws IH]; cbn; [by apply triple_raise|].
  apply triple_checked; [done|]. intros ? _.
  eapply (triple_bind _ _ _ (fun placed s => if (placed : bool) then fresh l (c, r, name) /\ holding (((c, r, name), x) :: l) s else holding l s)).
  - eapply (triple_catch _ _ _ _ _ (left_in (holding l))); [|done|].
    + eapply triple_bind; [apply write_spec|]. intros ? w (Hf & Hs & Hx). split; [done|by apply holding_cons].
    + intros k. destruct (String.eqb _ _); [by intros w|by apply triple_raise].
  - intros [|]; [|exact IH]. apply triple_pure. intros Hf. eapply (triple_bind _ _ _ (fun _ => holding (((c, r, name), x) :: l))); [|by intros ? w].
    apply triple_set. intros s [[[Ha Ht Hfi Hd Hfs Hc] Hw] Hl]. rewrite Ht. split; [|done]. split; [|done]. constructor; try done.
    intros t [->%elem_of_singleton|Hin]%elem_of_union; [apply Hf|by apply Hc].
Qed.
Definition saved (c r : string) (names : list string) (uploads : list (list string * string)) : held :=
  zip ((fun n => (c, r, n)) <$> names) (snd <$> uploads).
Lemma holding_sub l l' s : (forall p, p ∈ l' -> p ∈ l) -> holding l s -> holding l' s.
Proof. intros Hsub [Hd Hl]. split; [done|]. intros t x Hin. by apply Hl, Hsub. Qed.
Lemma save_each_spec c r ms ups : forall l,
  triple (holding l) (save_each c r ms ups) (fun names s => (length names <= length ups)%nat /\ holding (saved c r names ups ++ l) s) (left_in (holding l)).
Proof.
  induction ups as [|[draws x] ups IH]; intros l; cbn; [by intros w|].
  eapply triple_bind; [apply place_spec|]. intros name. cbn. apply triple_pure. intros Hf.
  destruct (ms =? 1)%Z; [intros w Hs; split; [cbn; lia|exact Hs]|].
  eapply (triple_catch _ _ _ _ _ (left_in (holding (((c, r, name), x) :: l)))).
  - eapply triple_bind; [apply IH|]. intros names w [Hlen Hs]. split; [cbn; lia|]. eapply holding_sub; [|exact Hs]. intros p. cbn. set_solver.
  - intros s. apply holding_sub. intros p. by apply list_elem_of_further.
  - intros k. apply (triple_pre (holding l)); [intros s; apply holding_sub; intros p; by apply list_elem_of_further|].
    eapply (triple_bind _ _ _ (fun _ => holding l)); [|intros ?; by apply triple_raise].
    eapply (triple_catch _ _ _ _ _ (left_in (holding l))); [|done|].
    + apply stays_change. intros s. by apply holding_remove.
    + intros k'. destruct (cleanup_skips k'); [by intros w|by apply triple_raise].
Qed.
Lemma save_files_spec c r ups ms l :
  triple (holding l) (save_files c r ups ms) (fun names s => (length names <= length ups)%nat /\ holding (saved c r names ups ++ l) s) (left_in (holding l)).
Proof.
  unfold save_files. destruct ups as [|u ups]; [by intros w|].
  eapply (triple_bind _ _ _ (fun _ => holding l)); [|intros ?; apply save_each_spec].
  do 2 (apply triple_checked; [done|]; intros ? _). by apply triple_act.
Qed.
Lemma execute_spec f l :
  triple (holding l) (execute f) (fun _ s => during d fs s /\ current s = f (default d wk) /\ (forall t x, (t, x) ∈ l -> files s !! t = Some x)) (left_in (during d fs)).
Proof.
  apply triple_change. intros s [[Hs Hw] Hl]. assert (during d fs (with_data (durable s) (Some (f (current s))) s)) as Hs' by (by destruct Hs).
  split; [apply Hs|split; [apply Hs|split; [exact Hs'|split; [exact Hs'|split; [|exact Hl]]]]]. unfold current. cbn. by rewrite (during_durable _ _ _ Hs), Hw.
Qed.
(** A deletion of the operation only waits. *)
Lemma delete_files_waits (R : storage -> Prop) c r names :
  (forall s, R s -> tracking s = true) -> (forall s g, R s -> R (with_deferred g s)) -> triple R (delete_files c r names) (fun _ => R) (left_in R).
Proof.
  intros Ht Hg. unfold delete_files. destruct names as [|n0 names]; [by intros w|]. set (l := n0 :: names).
  do 2 (apply triple_checked; [done|]; intros ? _). eapply triple_bind; [apply deletable_spec|]. intros safe. apply triple_get. intros w (_ & _ & HR).
  destruct safe as [|x safe]; [at_state HR|]. rewrite (Ht _ HR). intros w' E. unfold post. cbn. rewrite E. by apply Hg.
Qed.
End Operations.
(** A record whose row names its own uploads leaves its rows with their files. *)
Lemma write_record_writes_its_files c r ups ms row removed (wanted : LocalFileReference -> string -> Prop) d fs :
  consistent wanted d fs -> (forall n x, x ∈ ups.*2 -> wanted (c, r, n) x) ->
  (forall names t, names_file (row names d) t -> names_file d t \/ exists n, n ∈ names /\ t = (c, r, n)) ->
  writes_its_files (replace_record_files c r ups ms row removed) wanted d fs.
Proof.
  intros Hd Hups Hrow. eapply (triple_bind _ _ _ (fun names s => (length names <= length ups)%nat /\ holding d fs (Some d) (saved c r names ups ++ []) s)).
  - eapply triple_conseq; [apply save_files_spec| | |by intros e s [[] _]].
    + intros s (Hs & _ & _ & _ & Hw). split; [done|]. by intros t x ?%not_elem_of_nil.
    + by intros.
  - intros names. apply triple_pure. intros Hlen. eapply triple_bind; [apply execute_spec|]. intros ?.
    eapply (triple_pre (fun s => during d fs s /\ consistent wanted (current s) (files s))).
    2: { apply (triple_bind _ _ _ (fun _ s => during d fs s /\ consistent wanted (current s) (files s))); [|by intros ? w]. eapply triple_conseq; [apply delete_files_waits|by intros s H; exact H|done|by intros e s []].
         - intros s [Hs _]. apply Hs.
         - intros s g [[] ?]. by split. }
    intros s (Hs & Hcur & Hl). split; [exact Hs|]. rewrite Hcur. intros t [Ht|(n & Hn & ->)]%Hrow.
    + apply Hd in Ht as (x & Hx & Hw). exists x. split; [|done]. eapply lookup_weaken; [exact Hx|apply Hs].
    + apply list_elem_of_lookup in Hn as [i Hi]. pose proof (lookup_lt_Some _ _ _ Hi).
      destruct (lookup_lt_is_Some_2 ups i ltac:(lia)) as [[draws x] Hu]. exists x. split.
      * apply Hl. rewrite app_nil_r. unfold saved. apply (list_elem_of_lookup_2 _ i), lookup_zip_Some. rewrite !list_lookup_fmap, Hi, Hu. done.
      * apply Hups, list_elem_of_fmap. eexists. split; [|by eapply list_elem_of_lookup_2]. done.
Qed.
(** ** When nothing fails *)
(** The files but those that [P] dooms. *)
Definition swept (P : LocalFileReference -> bool) (s : storage) : storage := with_files (fun fs => filter (fun kv => P kv.1 = false) fs) s.
Definition sweeps (m : M unit) (P : LocalFileReference -> bool) : Prop :=
  forall s, tracking s = false -> m (mkWorld s []) = (Ok tt, mkWorld (swept P s) []).
Lemma swept_lookup P s t : files (swept P s) !! t = if P t then None else files s !! t.
Proof.
  cbn. destruct (P t) eqn:E.
  - apply map_lookup_filter_None. right. intros x _. cbn. by rewrite E.
  - destruct (files s !! t) as [x|] eqn:Ex; [by apply map_lookup_filter_Some|]. apply map_lookup_filter_None. by left.
Qed.
Lemma storage_eq s s' : files s = files s' -> created s = created s' -> deferred s = deferred s' -> tracking s = tracking s' ->
  durable s = durable s' -> working s = working s' -> finished s = finished s' -> active s = active s' -> s = s'.
Proof. destruct s, s'. cbn. by intros -> -> -> -> -> -> -> ->. Qed.
Lemma swept_ext P Q s : (forall t, is_Some (files s !! t) -> P t = Q t) -> swept P s = swept Q s.
Proof.
  intros H. apply storage_eq; try done. apply map_eq. intros t. rewrite !swept_lookup. destruct (files s !! t) as [x|] eqn:E.
  - by rewrite (H t (mk_is_Some _ _ E)).
  - by destruct (P t), (Q t).
Qed.
Lemma swept_none s : swept (fun _ => false) s = s.
Proof. apply storage_eq; try done. apply map_eq. intros t. by rewrite swept_lookup. Qed.
Lemma swept_swept P Q s : swept Q (swept P s) = swept (fun t => P t || Q t) s.
Proof. apply storage_eq; try done. apply map_eq. intros t. rewrite !swept_lookup. by destruct (P t), (Q t). Qed.
Lemma sweeps_ext m P Q : (forall t, P t = Q t) -> sweeps m P -> sweeps m Q.
Proof. intros H Hm s Hs. rewrite (Hm s Hs). by rewrite (swept_ext P Q). Qed.
Lemma sweeps_ret : sweeps (mret tt) (fun _ => false).
Proof. intros s _. by rewrite swept_none. Qed.
Lemma sweeps_seq m m' P Q : sweeps m P -> sweeps m' Q -> sweeps (m ≫= fun _ => m') (fun t => P t || Q t).
Proof. intros Hm Hm' s Hs. unfold mbind, stm_bind. rewrite (Hm s Hs), <-swept_swept. exact (Hm' (swept P s) Hs). Qed.
Lemma sweeps_iter {A} (f : A -> M unit) P l : (forall x, x ∈ l -> sweeps (f x) (P x)) -> sweeps (stm_iter f l) (fun t => existsb (fun x => P x t) l).
Proof.
  induction l as [|x l IH]; intros H; [apply sweeps_ret|]. cbn [stm_iter existsb]. apply sweeps_seq; [apply H, list_elem_of_here|].
  apply IH. intros y Hy. by apply H, list_elem_of_further.
Qed.
Lemma sweeps_tolerant m P : sweeps m P -> sweeps (tolerant m) P.
Proof. intros Hm s Hs. unfold tolerant, catch. by rewrite (Hm s Hs). Qed.
Lemma sweeps_unlink ts : sweeps (unlink_all ts) (fun t => bool_decide (t ∈ ts)).
Proof.
  eapply sweeps_ext; [|apply (sweeps_iter _ (fun x t => bool_decide (t = x)))].
  - intros t. cbn. apply eq_true_iff_eq. rewrite existsb_exists, bool_decide_eq_true. setoid_rewrite bool_decide_eq_true.
    setoid_rewrite <-list_elem_of_In. naive_solver.
  - intros x _ s _. unfold _unlink_regular_file_at, change, act. cbn. do 2 f_equal. apply storage_eq; try done. apply map_eq. intros t.
    rewrite swept_lookup. cbn. case_bool_decide; [subst; apply lookup_delete_eq|by rewrite lookup_delete_ne].
Qed.
Definition valid_record (c r : string) : Prop := validate_collection_id (PStr c) = Ok c /\ validate_record_id (PStr r) = Ok r.
Definition valid_name (n : string) : Prop := validate_file_reference (PStr n) = Ok n /\ is_remote_file_reference (PStr n) = false.
Lemma open_calm c r s : valid_record c r -> open_record_directory c r (mkWorld s []) = (Ok tt, mkWorld s []).
Proof. intros [Hc Hr]. unfold open_record_directory. by rewrite Hc, Hr. Qed.
Lemma deletable_calm names w : Forall valid_name names -> _deletable_file_references names w = (Ok names, w).
Proof.
  induction 1 as [|n names [Hv Hr] _ IH]; [done|]. cbn. rewrite Hr, Hv. unfold mbind, stm_bind in *. cbn. by rewrite IH.
Qed.
Lemma sweeps_delete_files c r names :
  valid_record c r -> Forall valid_name names -> sweeps (delete_files c r names) (fun t => bool_decide (record_of t = (c, r) /\ t.2 ∈ names)).
Proof.
  intros Hcr Hn s Hs. unfold delete_files. destruct names as [|n0 names].
  { rewrite (swept_ext _ (fun _ => false)); [by rewrite swept_none|]. intros t _. apply bool_decide_eq_false. by intros [_ ?%not_elem_of_nil]. }
  set (l := n0 :: names) in *. destruct (Hcr) as [Hc Hr]. rewrite Hc, Hr. unfold mbind, stm_bind. cbn [checked mret stm_ret].
  rewrite deletable_calm by done. unfold l at 1. cbn [stm_get st]. rewrite Hs, open_calm by done. rewrite sweeps_unlink by done.
  do 2 f_equal. apply swept_ext. intros [[c' r'] n] _. apply bool_decide_ext. rewrite list_elem_of_fmap. unfold record_of. cbn. naive_solver.
Qed.
Lemma sweeps_remove c r kept : valid_record c r -> sweeps (remove_tree_except c r kept) (fun t => bool_decide (record_of t = (c, r) /\ t.2 ∉ kept)).
Proof.
  intros Hcr s Hs. unfold remove_tree_except, mbind, stm_bind. rewrite open_calm by done. unfold look, act. cbn [st script].
  rewrite sweeps_unlink by done. do 2 f_equal. apply swept_ext. intros t [x Hx]. apply bool_decide_ext. rewrite list_elem_of_filter.
  split; [by intros []|]. intros H. split; [done|]. apply list_elem_of_fmap. exists (t, x). split; [done|]. by apply elem_of_map_to_list.
Qed.
Lemma sweeps_delete_except c r names :
  valid_record c r -> Forall valid_name names -> sweeps (delete_all_files_except c r names) (fun t => bool_decide (record_of t = (c, r) /\ t.2 ∉ names)).
Proof.
  intros Hcr Hn s Hs. unfold delete_all_files_except. destruct (Hcr) as [Hc Hr]. rewrite Hc, Hr. unfold mbind, stm_bind. cbn [checked mret stm_ret].
  rewrite deletable_calm by done. destruct names as [|n names]; [|by apply sweeps_remove].
  unfold delete_all_files. rewrite Hc, Hr. unfold mbind, stm_bind. cbn [checked mret stm_ret stm_get st]. rewrite Hs. by apply sweeps_remove.
Qed.
Definition covers (t : LocalFileReference) (a : deletion) : bool :=
  match a with
  | Files c r names => bool_decide (record_of t = (c, r) /\ t.2 ∈ names)
  | All c r => bool_decide (record_of t = (c, r))
  end.
Definition valid_deletion (a : deletion) : Prop :=
  match a with Files c r names => valid_record c r /\ Forall valid_name names | All c r => valid_record c r end.
Lemma valid_reference_name t : valid_local_reference t -> valid_record t.1.1 t.1.2 /\ valid_name t.2.
Proof. intros (? & ? & ? & [_ ?]%negb_true_iff%orb_false_iff). done. Qed.
Lemma sweeps_cleanup ts : (forall t, t ∈ ts -> valid_local_reference t) -> sweeps (_cleanup_created_files ts) (fun t => bool_decide (t ∈ ts)).
Proof.
  intros Hv. eapply sweeps_ext; [|apply (sweeps_iter _ (fun x t => bool_decide (record_of t = (x.1.1, x.1.2) /\ t.2 ∈ [x.2])))].
  - intros t. apply eq_true_iff_eq. rewrite existsb_exists, bool_decide_eq_true. setoid_rewrite bool_decide_eq_true.
    setoid_rewrite list_elem_of_singleton. setoid_rewrite <-list_elem_of_In. setoid_rewrite elem_of_elements. split.
    + intros (x & Hx & Hr & Hn). destruct t as [[c r] n], x as [[c' r'] n']. unfold record_of in Hr. cbn in *. by simplify_eq.
    + intros Ht. by exists t.
  - intros x Hx%elem_of_elements%Hv%valid_reference_name. apply sweeps_tolerant, sweeps_delete_files; [apply Hx|]. by constructor; [apply Hx|].
Qed.
Lemma preserved_names_spec refs t : t.2 ∈ preserved_names refs t.1.1 t.1.2 <-> t ∈ refs.
Proof.
  unfold preserved_names. rewrite list_elem_of_fmap. setoid_rewrite list_elem_of_filter. setoid_rewrite elem_of_elements. split.
  - intros (x & En & Er & Hx). destruct t as [[c r] n], x as [[c' r'] n']. unfold record_of in Er. cbn in *. by simplify_eq.
  - intros Ht. by exists t.
Qed.
Lemma sweeps_flush actions refs :
  (forall a, a ∈ actions -> valid_deletion a) -> (forall t, t ∈ refs -> valid_local_reference t) ->
  sweeps (flush_deferred_storage_deletes actions refs) (fun t => existsb (covers t) actions && negb (bool_decide (t ∈ refs))).
Proof.
  intros Ha Hv. eapply sweeps_ext; [|apply (sweeps_iter _ (fun a t => covers t a && negb (bool_decide (t ∈ refs))))].
  - intros t. induction actions as [|a actions IH]; [done|]. cbn [existsb]. rewrite IH by (intros b Hb; by apply Ha, list_elem_of_further).
    symmetry. apply andb_orb_distrib_l.
  - intros a Hin%Ha. apply sweeps_tolerant. destruct a as [c r names|c r]; cbn in Hin |- *.
    + destruct Hin as [Hcr Hn]. eapply sweeps_ext; [|apply sweeps_delete_files; [done|]].
      2: { apply Forall_forall. intros n [_ Hin]%list_elem_of_filter. by eapply Forall_forall in Hn. }
      intros t. apply eq_true_iff_eq. rewrite andb_true_iff, negb_true_iff, !bool_decide_eq_true, bool_decide_eq_false, list_elem_of_filter.
      destruct t as [[c' r'] n]. unfold record_of. cbn. naive_solver.
    + eapply sweeps_ext; [|apply sweeps_delete_except; [done|]].
      * intros t. apply eq_true_iff_eq. rewrite andb_true_iff, negb_true_iff, !bool_decide_eq_true, bool_decide_eq_false.
        split; intros [Er Hn]; (split; [done|]); injection Er as <- <-; by rewrite preserved_names_spec in *.
      * apply Forall_forall. intros n (t & -> & [_ Ht]%list_elem_of_filter)%list_elem_of_fmap. by apply valid_reference_name, Hv, elem_of_elements.
Qed.

(** The state in which the operation starts, and what it may leave. *)
Definition opened (s : storage) : storage := with_tracking true (with_data (durable s) (Some (durable s)) (start s)).
Record leaves (s s1 : storage) : Prop := {
  leaves_finished : finished s1 = false;
  leaves_durable : durable s1 = durable s;
  leaves_others : forall t, t ∉ created s1 -> files s1 !! t = files s !! t;
  leaves_new : forall t, t ∈ created s1 -> files s !! t = None /\ valid_local_reference t;
  leaves_deferred : forall a, a ∈ deferred s1 -> valid_deletion a;
}.
(** What was written and what was to be deleted, unless a row refers to it. *)
Definition dropped (s1 : storage) (t : LocalFileReference) : Prop :=
  ~ names_file (current s1) t /\ (t ∈ created s1 \/ exists a, a ∈ deferred s1 /\ covers t a = true).
Lemma bind_run {A B} (m : M A) (f : A -> M B) w a w' : m w = (Ok a, w') -> (m ≫= f) w = f a w'.
Proof. intros E. unfold mbind, stm_bind. by rewrite E. Qed.
Lemma bind_stop {A B} (m : M A) (f : A -> M B) w e w' : m w = (Err e, w') -> (m ≫= f) w = (Err e, w').
Proof. intros E. unfold mbind, stm_bind. by rewrite E. Qed.
Lemma compensate_calm k s s1 : leaves s s1 ->
  exists s2, compensate k (mkWorld s1 []) = (Ok tt, mkWorld s2 []) /\ durable s2 = durable s /\ files s2 = files s.
Proof.
  intros [Hf Hd Ho Hn Hv]. unfold compensate. do 3 (erewrite bind_run; [|reflexivity]). erewrite bind_run; [|reflexivity].
  cbn [st finished with_data with_tracking]. rewrite Hf. cbn [andb]. eexists. split; [apply sweeps_cleanup; [by intros t []%Hn|done]|].
  split; [done|]. apply map_eq. intros t. rewrite swept_lookup. case_bool_decide as Ht; [|by apply Ho].
  symmetry. by apply Hn.
Qed.
Lemma finally_calm {A} (m : M A) f s r s1 s2 :
  m (mkWorld s []) = (r, mkWorld s1 []) -> r <> Err Crashed -> f (mkWorld s1 []) = (Ok tt, mkWorld s2 []) -> finally m f (mkWorld s []) = (r, mkWorld s2 []).
Proof.
  intros Hm Hr Hf. unfold finally, catch. destruct r as [a|[|k]]; [| done |].
  - erewrite bind_run; [|by rewrite Hm]. erewrite bind_run; [done|exact Hf].
  - erewrite bind_stop; [done|]. rewrite Hm. by erewrite bind_run; [|exact Hf].
Qed.
(** The transaction around what its body and the rest of it do. *)
Lemma run_calm {A} (operation : M A) s r s2 :
  active s = false ->
  (done ← catch (storage_transaction_body operation) (fun k => _ ← compensate k; stm_raise (Raised k)); settle done) (mkWorld (start s) []) = (r, mkWorld s2 []) ->
  r <> Err Crashed -> run_record_storage_transaction operation (mkWorld s []) = (r, mkWorld (with_active false s2) []).
Proof.
  intros Ha Hm Hr. unfold run_record_storage_transaction. erewrite bind_run; [|reflexivity]. cbn [st]. rewrite Ha. unfold under_barrier.
  erewrite bind_run; [|reflexivity]. eapply finally_calm; [|done|reflexivity]. erewrite bind_run; [|reflexivity].
  by eapply finally_calm.
Qed.
Lemma body_stops {A} (operation : M A) s k s1 :
  active s = false -> leaves s s1 -> storage_transaction_body operation (mkWorld (start s) []) = (Err (Raised k), mkWorld s1 []) ->
  exists s', run_record_storage_transaction operation (mkWorld s []) = (Err (Raised k), mkWorld s' []) /\ durable s' = durable s /\ files s' = files s.
Proof.
  intros Ha Hl Hb. destruct (compensate_calm k s s1 Hl) as (s2 & Hc & Hd & Hf). exists (with_active false s2). split; [|done].
  apply run_calm; [done| |done]. apply bind_stop. unfold catch. rewrite Hb. by erewrite bind_run; [|exact Hc].
Qed.
Lemma body_operation {A} (operation : M A) s r s1 :
  operation (mkWorld (opened s) []) = (r, mkWorld s1 []) ->
  storage_transaction_body operation (mkWorld (start s) []) =
    (a ← (fun _ => (r, mkWorld s1 [])); affected ← affected_now;
     refs ← match affected with [] => mret ∅ | _ => _final_file_references affected end;
     _ ← set (with_finished true); _ ← commit; mret (a, refs)) (mkWorld s1 []).
Proof.
  intros H. unfold storage_transaction_body. do 2 (erewrite bind_run; [|reflexivity]). unfold mbind at 1 4, stm_bind at 1 4. by rewrite <-H.
Qed.
Lemma final_references_calm targets s :
  _final_file_references targets (mkWorld s []) =
    (match read_canonical_local_file_references (current s) (Some targets) with Ok refs => Ok refs | Err k => Err (Raised k) end, mkWorld s []).
Proof.
  unfold _final_file_references. erewrite bind_run; [|reflexivity]. erewrite bind_run; [|reflexivity].
  by destruct (read_canonical_local_file_references _ _).
Qed.
(** The references of the affected records, when they can be read. *)
Definition final_references (s1 : storage) : result string (gset LocalFileReference) :=
  read_canonical_local_file_references (current s1) (Some (affected_of s1)).
Lemma read_nothing cols : read_canonical_local_file_references cols (Some []) = Ok ∅.
Proof. done. Qed.
Lemma held_calm s : barrier_still_held (mkWorld s []) = (Ok tt, mkWorld s []).
Proof. done. Qed.
Lemma settle_calm {A} (a : A) refs s1 s s2 :
  leaves s s1 -> final_references s1 = Ok refs ->
  s2 = with_data (current s1) None (with_finished true s1) ->
  exists s', settle (a, refs) (mkWorld s2 []) = (Ok a, mkWorld s' []) /\ durable s' = current s1 /\
    forall t, (dropped s1 t -> files s' !! t = None) /\ (~ dropped s1 t -> files s' !! t = files s1 !! t).
Proof.
  intros Hl Hr ->. unfold settle. set (s3 := with_tracking false (with_data (current s1) None (with_finished true s1))).
  erewrite bind_run; [|reflexivity]. erewrite bind_run; [|reflexivity]. erewrite bind_run; [|reflexivity]. cbn [st script fst snd]. fold s3.
  erewrite bind_run; [|apply sweeps_cleanup; [|done]].
  2: { intros t [Ht _]%elem_of_difference. by apply (leaves_new _ _ Hl). }
  erewrite bind_run; [|apply sweeps_flush; [by apply (leaves_deferred _ _ Hl)|by apply (read_valid _ _ _ Hr)|done]].
  erewrite bind_run; [|apply held_calm]. eexists. split; [reflexivity|]. split; [done|]. intros t. rewrite !swept_lookup. subst s3. cbn [files with_tracking with_data with_finished created deferred].
  assert (forall x, record_of t = x -> x ∈ affected_of s1 -> names_file (current s1) t -> t ∈ refs) as Hin.
  { intros x <- Haf Ht. apply (read_references_spec _ _ _ Hr). split; [by intros ts [= <-]|done]. }
  assert (t ∈ refs -> names_file (current s1) t) as Hout by (intros Ht; by apply (read_references_spec _ _ _ Hr)).
  assert (forall a, covers t a = true -> record_of t = deletion_record a) as Hcov.
  { intros [c r names|c r]; cbn [covers deletion_record]; [by intros []%bool_decide_eq_true|by intros ?%bool_decide_eq_true]. }
  assert (existsb (covers t) (deferred s1) = true <-> exists a, a ∈ deferred s1 /\ covers t a = true) as Hex.
  { rewrite existsb_exists. by setoid_rewrite list_elem_of_In. }
  unfold dropped. rewrite <-Hex. split.
  - intros [Hn Hd]. assert (t ∉ refs) by naive_solver. destruct Hd as [Hd|Hd].
    + rewrite bool_decide_eq_true_2 with (P := t ∈ created s1 ∖ refs) by set_solver. by destruct (existsb _ _ && _).
    + rewrite Hd, bool_decide_eq_false_2 with (P := t ∈ refs) by done. done.
  - intros Hd. destruct (decide (t ∈ refs)) as [Ht|Ht].
    + rewrite bool_decide_eq_true_2 by done. rewrite andb_false_r. by rewrite bool_decide_eq_false_2 by set_solver.
    + assert (t ∉ created s1) as Hc.
      { intros Hc. apply Hd. split; [|by left]. intros Hr'. apply Ht. by apply (Hin (record_of t)); [|apply affected_created|]. }
      rewrite (bool_decide_eq_false_2 (t ∈ created s1 ∖ refs)) by set_solver. destruct (existsb (covers t) (deferred s1)) eqn:Ec; [exfalso|done].
      apply Hd. split; [|by right]. intros Hr'. apply Ht. destruct (proj1 Hex eq_refl) as (a' & Ha' & Hc').
      by apply (Hin (deletion_record a')); [apply Hcov|apply affected_deferred|].
Qed.
(** C15: when nothing fails, the change is atomic. An operation that returns has its
    rows committed, and of the files that it wrote and of those that it wanted
    deleted exactly those that no row refers to are gone; an operation that raises,
    or that leaves rows whose references cannot be read, leaves the database and the
    files as they were. *)
Theorem ordinary_transaction {A} (operation : M A) s (r : result string A) s1 :
  active s = false -> leaves s s1 ->
  operation (mkWorld (opened s) []) = (match r with Ok a => Ok a | Err k => Err (Raised k) end, mkWorld s1 []) ->
  exists s', match r ≫= (fun a => _ ← final_references s1; Ok a) with
  | Ok a => run_record_storage_transaction operation (mkWorld s []) = (Ok a, mkWorld s' []) /\ durable s' = current s1 /\
      forall t, (dropped s1 t -> files s' !! t = None) /\ (~ dropped s1 t -> files s' !! t = files s1 !! t)
  | Err k => run_record_storage_transaction operation (mkWorld s []) = (Err (Raised k), mkWorld s' []) /\ durable s' = durable s /\ files s' = files s
  end.
Proof.
  intros Ha Hl Hop%body_operation. destruct r as [a|k]; [|by eapply body_stops; [..|exact Hop]].
  erewrite bind_run in Hop; [|reflexivity]. erewrite bind_run in Hop; [|reflexivity]. cbn [st] in Hop.
  assert ((match affected_of s1 with [] => mret ∅ | _ => _final_file_references (affected_of s1) end) (mkWorld s1 []) =
    (match final_references s1 with Ok refs => Ok refs | Err k => Err (Raised k) end, mkWorld s1 [])) as Hrefs.
  { unfold final_references. destruct (affected_of s1) eqn:E; [done|]. apply final_references_calm. }
  cbn [mbind result_bind]. destruct (final_references s1) as [refs|k] eqn:Er.
  2: { eapply body_stops; [done|done|]. rewrite Hop. by apply bind_stop. }
  erewrite bind_run in Hop; [|exact Hrefs].
  destruct (settle_calm a refs s1 s _ Hl Er eq_refl) as (s' & Hs & Hd & Hf). exists (with_active false s'). split; [|done].
  apply run_calm; [done| |done]. erewrite bind_run; [exact Hs|]. unfold catch. rewrite Hop.
  erewrite bind_run; [|reflexivity]. by erewrite bind_run; [|reflexivity].
Qed.
(** C14: suppose that every row finds the files it refers to, and that the
    operation, as long as it is not stopped, writes the files that its rows refer to and
    were not there ([writes_its_files]; a record write that posts the name of a file it
    does not upload is not such an operation). Then whatever fails, is cancelled, or stops the process in a change of records
    and of their files, a row that the database then has, the old one or the new
    one, still finds every file it refers to, with its content: deletions wait for
    the commit, a commit of unknown outcome removes only what the database does not
    refer to, and nothing that was there before is removed while a row keeps it. *)
Theorem rows_keep_their_files {A} (operation : M A) wanted s l :
  active s = false -> consistent wanted (durable s) (files s) -> writes_its_files operation wanted (durable s) (files s) ->
  let s' := st (run_record_storage_transaction operation (mkWorld s l)).2 in consistent wanted (durable s') (files s').
Proof.
  intros Ha Hc Hop. pose proof (transaction_safe wanted (durable s) (files s) operation Hop Hc (mkWorld s l)) as H.
  cbn. unfold post in H. cbn in H. destruct (run_record_storage_transaction _ _) as [[]]; by apply H.
Qed.
End Storage.

(** A post that keeps one photo. *)
Module Demo.
#[export] Instance demo_text : ReferenceText := {|
  reference_floats := fun _ => "0.0";
  reference_urls _ := Some ("", "");
  json_value _ := None;
|}.
Definition posts (photos : list string) : list stored_collection :=
  [mkStored "c1" "posts" "base" [PDict [("name", PStr "photos"); ("type", PStr "file")]] [[("id", PStr "r1"); ("photos", PList (PStr <$> photos))]]].
Definition old : LocalFileReference := ("c1", "r1", "old.png").
Definition before : storage := mkStorage {[old := "OLD"]} ∅ [] false (posts ["old.png"]) None false false.
(** The photo is replaced by an upload, or deleted. *)
Definition replace_photo : M (list string) := replace_record_files "c1" "r1" [(["new.png"], "NEW")] 0 (fun names _ => posts names) ["old.png"].
Definition delete_photo : M unit := _ ← delete_files "c1" "r1" ["old.png"]; execute (fun _ => posts []).
Definition wanted (t : LocalFileReference) (x : string) : Prop := (t = old /\ x = "OLD") \/ x = "NEW".
Lemma refers_posts photos t : names_file (posts photos) t -> exists n, n ∈ photos /\ t = ("c1", "r1", n).
Proof.
  intros (col & row & ->%list_elem_of_singleton & _ & ->%list_elem_of_singleton & Hc & [= Hr] & f & raw & Hf & Hraw & E & _).
  apply list_elem_of_singleton in Hf as ->. cbn in Hraw, Hc. apply list_elem_of_fmap in Hraw as (n & -> & Hn). exists n. split; [done|].
  destruct t as [[c r] n']. cbn in *. congruence.
Qed.
End Demo.
#[local] Existing Instance Demo.demo_text.
(** The commit is lost after its effect: the new row keeps its photo. *)
Lemma rows_keep_their_files_witness :
  Demo.wanted ("c1", "r1", "old.png") "OLD" /\
  let s' := st (run_record_storage_transaction Demo.replace_photo (mkWorld Demo.before [Works; Works; Works; Works; Works; Works; Failing])).2 in
  consistent Demo.wanted (durable s') (files s').
Proof.
  split; [by left|]. assert (consistent Demo.wanted (durable Demo.before) (files Demo.before)) as Hc.
  { intros t (n & ->%list_elem_of_singleton & ->)%Demo.refers_posts. exists "OLD". split; [apply lookup_singleton_eq|by left]. }
  apply (rows_keep_their_files Demo.replace_photo Demo.wanted Demo.before); [reflexivity|exact Hc|].
  apply write_record_writes_its_files; [exact Hc| |].
  - intros n x ->%list_elem_of_singleton. by right.
  - intros names t (n & Hn & ->)%Demo.refers_posts. right. by exists n.
Defined.
Lemma ordinary_transaction_witness :
  exists s', run_record_storage_transaction Demo.delete_photo (mkWorld Demo.before []) = (Ok tt, mkWorld s' []) /\
    durable s' = Demo.posts [] /\ files s' !! Demo.old = None.
Proof.
  set (s1 := with_data (Demo.posts ["old.png"]) (Some (Demo.posts [])) (with_deferred (fun _ => [Files "c1" "r1" ["old.png"]]) (opened Demo.before))).
  assert (exists refs, final_references s1 = Ok refs) as [refs E].
  { unfold final_references. replace (affected_of s1) with [("c1", "r1")] by reflexivity.
    match goal with |- exists r, ?m = _ => let v := eval hnf in m in match v with Ok ?r => exists r end end. reflexivity. }
  assert (leaves Demo.before s1) as Hl.
  { constructor; try done.
    intros a ->%list_elem_of_singleton. repeat split. by constructor. }
  destruct (ordinary_transaction Demo.delete_photo Demo.before (Ok tt) s1 eq_refl Hl eq_refl) as (s' & H).
  cbn [mbind result_bind] in H. rewrite E in H. destruct H as (Hrun & Hd & Hf). exists s'. split; [exact Hrun|]. split; [exact Hd|].
  apply (proj1 (Hf Demo.old)). split.
  - intros (n & Hn & _)%Demo.refers_posts. by apply not_elem_of_nil in Hn.
  - right. exists (Files "c1" "r1" ["old.png"]). split; [apply list_elem_of_here|reflexivity].
Defined.
